(* ===== verification/_CoqProject ===== *)
-Q . S2P
Prelude.v
Bytes.v
Text.v
Files.v
NativeStorage.v
Protocol.v
Wire.v
Fragment.v
Inet.v
Crypto.v
Armor.v
Siv.v
Identity.v
Provider.v
Verbs.v
HelloOk.v
MulticastWire.v
NetConfWire.v
Payloads.v
World.v
WorldGen.v
Peer.v
Topology.v
Ethernet.v
Network.v
Neighbor.v
Multicast.v
Root.v
Dictionary.v
Pools.v
IpDisplay.v
Rules.v
Storage.v
Sqlite.v
FileStore.v
Config.v
RuleJson.v
StaticConfig.v
Engine.v
RestController.v
NodeState.v
Vl2.v
NodeConfig.v
NodeVerbs.v
NodeReceive.v
NodeInv.v
NodeTotal.v
NodeTick.v
NodeUpkeep.v
Configured.v
Host.v
Service.v
Daemon.v
LocalApi.v
Outbound.v
Delivery.v
Answers.v
Delivered.v
Credentials.v
DaemonInv.v
Interfaces.v
Startup.v
Netif.v
Ffi.v
