(* ===== verification/Prelude.v ===== *)
(** * ManyTier: a verification library for a ZeroTier V1 node

    ManyTier (src/crates) is a Rust implementation of the ZeroTier V1 protocol: a wire format
    (zerotier-protocol), its cryptography (zerotier-crypto), a sans-I/O node engine with a network
    controller (zerotier-node), and a service around it (zerotier-service). A node receives
    datagrams ([Node::receive_packet]) and answers with actions (send this, deliver this frame,
    look this address up); the service performs them and calls [tick]. This library translates
    that engine, definition by definition, and proves what makes it correct.

    ** How the code is represented

    [Prelude.res] is the outcome of a Rust expression: [Ok], [Err] (its [Result]), [Panic] (index
    out of range, a copy of the wrong length, an arithmetic underflow of a checked build) and
    [Hang] (a loop model out of fuel). A [u8] is a byte; wider integers are [Z] in range with
    [wrap], [sat_add], [sat_sub], [sat_mul] written out. Serializers are state transformers over
    the caller's buffer ([Wire.W]), so that "the buffer is too short" is a panic or an error
    exactly where the code has one. [HashMap]s whose order does not matter and [BTreeMap]s are
    [gmap]s; [Vec]s are lists. Mutable state is passed and returned.
    [wp] and [safe] state totality, [emits] what a writer writes; the codecs of the wire format
    share the interfaces [WireCodec] and [PayloadCodec], the controller's storage backends the
    class [ControllerStorage] with the laws [StorageLaws].

    Code outside the repository is a parameter, an argument or a class with its documented
    behaviour as laws, and each class of laws has an instance: the primitives of the crypto crates
    ([Crypto.Prims], [PrimLaws]; [Toy.prims]), lz4_flex ([NodeVerbs.Lz4], [Lz4Laws];
    [NodeTotal.stored_lz4]), the SQL engine behind rusqlite ([Sqlite.Sql], [SqlLaws]; the engine
    with a budget of statements), serde ([Sqlite.Serde], [SerdeLaws], [FileStore.FileJson],
    [FileJsonLaws]; the digits), serde_json's values ([RuleJson.JsonValue], [JsonValueLaws];
    [Value]), the file system below a base directory ([Files.FileSystem], [FileSystemLaws];
    [Disk], with room for so many writes, the last of which may stay half done), the randomness of
    the system
    ([NativeCryptoProvider.SystemRandom]), and the target the service is built for
    ([NodeTick.Target]). Where no class stands for them, whether a file operation succeeds, what a
    directory lists and what getrandom answers are arguments.

    ** Files

    - Prelude, Bytes, Text, Files: outcomes, loops, lists; bytes and big-endian integers; numbers
      and addresses as text; the file system.
    - Protocol (constants.rs, error.rs, verb.rs, header.rs), Wire (writers, readers, codec classes),
      Inet (inet_address.rs), Verbs (the small verbs/), HelloOk (verbs/hello.rs, ok.rs, error.rs),
      MulticastWire (verbs/multicast.rs), NetConfWire (verbs/network_config.rs), Payloads (all
      payloads as one type), Fragment (fragment.rs), World (world.rs), WorldGen (world_gen.rs).
    - Crypto (poly.rs, signing.rs, key_agreement.rs, kbkdf.rs, memory_hard.rs), Armor (salsa.rs),
      Siv (aes_gmac_siv.rs), Identity (identity.rs, hex_util.rs, identity_wire.rs), Provider
      (traits/crypto.rs, platform/crypto.rs: the interface and its native implementation).
    - Peer (path.rs, peer.rs), Topology (topology.rs, switch.rs), Ethernet (ethernet.rs), Network
      (network.rs), Neighbor (arp.rs, ndp.rs), Multicast (multicast.rs).
    - Dictionary, Pools, Rules, Storage, Config, Engine: the controller (controller/*.rs), with the
      storage interface and its in-memory backend (Storage) and the SQLite backend (Sqlite:
      storage/sqlite.rs with its schema migration) and the filesystem backend (FileStore:
      storage/filesystem.rs); IpDisplay: addresses as text. StaticConfig (network_config.rs):
      networks from a configuration instead of a controller.
    - Root (root.rs), NodeState (node.rs: fields and shared operations), Vl2 (vl2.rs), NodeConfig
      (node.rs: received configurations), NodeVerbs (node.rs: one handler per verb), NodeReceive
      (node.rs: [receive_packet]), NodeTick (node.rs: [bootstrap], [tick], configuration requests).
    - Service, Host, Daemon (service.rs): the packets that answer a configuration request and the
      frames held back; the interface a configuration sets up; the main loop, a step per event.
      NativeStorage (traits/storage.rs, platform/storage.rs): keys and secrets in files; Startup
      (service.rs): identity, planet, token and controller, up to the loop; Netif
      (platform/netif.rs): the endpoints a node advertises.
    - Ffi (zerotier-ffi): the C interface, a handle around a node and its last actions.
    - RuleJson, RestController, LocalApi (api/*.rs): rules as JSON, the controller's REST API, the
      local REST API with its join markers.
    - NodeInv, NodeTotal, NodeUpkeep, DaemonInv: the invariants of a node and of the daemon, totality
      and termination of the receive path, of the timers and of the main loop.
    - Configured, Outbound, Delivery, Answers, Delivered, Credentials, Interfaces: end to end, from
      one node, controller or daemon to the next.

    ** What the theorems show

    - End to end: the members that the controller's records let talk are the members whose frames
      a configured node accepts ([Configured.configured_members_talk]); the packets that answer a
      request make the member apply exactly the dictionary sent, in any order, with duplicates
      ([Delivered.configuration_delivered]); what the interface of the member becomes
      ([Interfaces.interface_configured]); a request answered, up to the size of its credentials
      ([Credentials.request_answered]); no frame passes without a certificate
      ([Vl2.frames_need_certificates]); where an outgoing frame goes, IP, ARP or other
      ([Outbound.outbound_frame_spec], [Outbound.held_frames_spec]).
    - The daemon: [DaemonInv.daemon_survives], from the start [Startup.service_boots] leads to; the
      identity is the same after a restart ([Startup.identity_survives_restart]), its secret its
      owner's alone ([NativeStorage.secrets_stay_private]); a node behind the C interface:
      [Ffi.handle_survives]; receiving: [NodeTotal.receive_packet_ends],
      [NodeTotal.dispatch_outcome], with exactly the datagrams that panic ([NodeTotal.overruns]):
      those that are, complete or release an ECHO or a WHOIS whose answer is too long
      ([NodeInv.answers_overrun]); timers: [NodeUpkeep.tick_keeps_alive],
      [NodeUpkeep.config_requests_served].
    - Packets: armor, relays and dearmor (Armor, Siv), fragmentation (Fragment), control packets
      ([Root.control_packets_accepted]), the round trip of every verb's well-formed payloads and
      its total parser (Payloads; ECHO has no format); a static configuration reads back (StaticConfig).
    - State: reachable peers and topologies, routing, subscriptions (Peer, Topology, Multicast).
    - Controller: what a configuration request may do, liveness, unique addresses, agreement of
      certificates. The engine's and the API's theorems hold for any backend with the laws of the
      abstract store, which the in-memory and the SQLite ones have ([Memory.memory_storage_refines],
      [Sqlite.sqlite_storage_refines]); the filesystem one, whose failed writes may damage the record
      they were to replace, refines the abstract store but for those ([FileStore.file_storage_refines]).
    - The API: every outcome of the two POST handlers, an authorization that takes effect and lasts
      ([Rest.authorization_over_api]), a store that stays good under any calls but
      those that post routes or assignments the configuration builder cannot take
      ([Rest.api_keeps_store]), rules that survive being read and posted
      ([RuleJson.rule_api_roundtrip]), joins that survive a restart
      ([LocalApi.joins_survive_restart]).

    ** Bounds and fuel

    [receive_packet] recurses with a fuel that need only exceed the bytes held back plus the
    datagram (proved, and that more changes nothing). Parser loops have the length of their input
    as fuel, each round consuming at least a byte (proved by the [_total] lemmas). Identity
    generation may search for ever, as the code may: its theorem says what each amount of fuel
    gives.

    ** Not modelled

    Log lines (tracing) and the summaries written to them; HTTP, JSON text and the routing table of
    axum, below the handlers; the locks of the service, taken for the whole of a handler. Of
    zerotier-service the system calls: TUN devices, sockets, clocks. zerotier-cli (arguments
    and HTTP calls), the apps, the tests and the fuzz targets. *)
From Stdlib Require Export ZArith Lia.
From Stdlib Require Import Strings.Byte.
From stdpp Require Export base tactics list gmap sorting strings.

#[global] Open Scope Z_scope.

(** ** Outcomes of Rust code *)

(** [Ok]/[Err] are Rust's [Result]; [Panic] is an unwinding panic (index or
    slice out of range, [copy_from_slice] length mismatch, [unwrap] of [None],
    arithmetic overflow in a checked build); [Hang] is a loop model that ran out
    of the fuel it was given. *)
Inductive res (E A : Type) : Type :=
  | Ok (a : A)
  | Err (e : E)
  | Panic
  | Hang.
Arguments Ok {E A} a.
Arguments Err {E A} e.
Arguments Panic {E A}.
Arguments Hang {E A}.

Definition rbind {E A B} (m : res E A) (k : A -> res E B) : res E B :=
  match m with
  | Ok a => k a
  | Err e => Err e
  | Panic => Panic
  | Hang => Hang
  end.

Definition map_err {E F A} (f : E -> F) (m : res E A) : res F A :=
  match m with
  | Ok a => Ok a
  | Err e => Err (f e)
  | Panic => Panic
  | Hang => Hang
  end.

(** [ok_or]: [Option] to [Result]. *)
Definition ok_or {E A} (e : E) (o : option A) : res E A :=
  match o with Some a => Ok a | None => Err e end.

(** [Result::ok], with panics passed on: [if let Ok(a) = m]. *)
Definition attempt {E F A} (m : res E A) : res F (option A) :=
  match m with
  | Ok a => Ok (Some a)
  | Err _ => Ok None
  | Panic => Panic
  | Hang => Hang
  end.

(** [Option::is_some]. *)
Definition is_some {A} (o : option A) : bool := match o with Some _ => true | None => false end.

Declare Scope rust_scope.
Delimit Scope rust_scope with rust.
Notation "'let*' x ':=' m 'in' k" := (rbind m (fun x => k))
  (at level 10, x name, m at level 100, k at level 200) : rust_scope.
Notation "'let*' ' p ':=' m 'in' k" := (rbind m (fun x => match x with p => k end))
  (at level 10, p pattern, m at level 100, k at level 200) : rust_scope.
#[global] Open Scope rust_scope.

(** [wp m Q R]: [m] neither panics nor runs out of fuel, a value satisfies [Q]
    and an error satisfies [R]. *)
Definition wp {E A} (m : res E A) (Q : A -> Prop) (R : E -> Prop) : Prop :=
  match m with
  | Ok a => Q a
  | Err e => R e
  | Panic | Hang => False
  end.

(** [safe m Q]: total, and values satisfy [Q] (errors unconstrained). *)
Abbreviation safe m Q := (wp m Q (fun _ => True)).

Lemma wp_bind {E A B} (m : res E A) (k : A -> res E B) Q R :
  wp m (fun a => wp (k a) Q R) R -> wp (rbind m k) Q R.
Proof. destruct m; simpl; auto. Qed.

Lemma wp_mono {E A} (m : res E A) (Q Q' : A -> Prop) (R R' : E -> Prop) :
  wp m Q R -> (forall a, Q a -> Q' a) -> (forall e, R e -> R' e) -> wp m Q' R'.
Proof. destruct m; simpl; auto. Qed.

Lemma wp_map_err {E F A} (f : E -> F) (m : res E A) Q R :
  wp m Q (fun e => R (f e)) -> wp (map_err f m) Q R.
Proof. destruct m; simpl; auto. Qed.

Lemma wp_ok {E A} (m : res E A) Q R a : wp m Q R -> m = Ok a -> Q a.
Proof. by intros H ->. Qed.

Lemma wp_no_panic {E A} (m : res E A) Q R : wp m Q R -> m <> Panic /\ m <> Hang.
Proof. by destruct m. Qed.

Lemma wp_if {E A} (b : bool) (m1 m2 : res E A) Q R :
  (b = true -> wp m1 Q R) -> (b = false -> wp m2 Q R) -> wp (if b then m1 else m2) Q R.
Proof. destruct b; auto. Qed.

Lemma wp_ret {E A} (a : A) (Q : A -> Prop) (R : E -> Prop) : Q a -> wp (Ok a) Q R.
Proof. done. Qed.

Lemma wp_err {E A} (e : E) (Q : A -> Prop) (R : E -> Prop) : R e -> wp (Err e) Q R.
Proof. done. Qed.

Lemma wp_ok_or {E A} (e : E) (o : option A) (Q : A -> Prop) (R : E -> Prop) :
  (forall a, o = Some a -> Q a) -> (o = None -> R e) -> wp (ok_or e o) Q R.
Proof. destruct o; simpl; auto. Qed.

Lemma rbind_ok {E A B} (a : A) (k : A -> res E B) : rbind (Ok a) k = k a.
Proof. done. Qed.

Lemma if_false {A} (b : bool) (x y : A) : b = false -> (if b then x else y) = y.
Proof. by intros ->. Qed.
Lemma if_true {A} (b : bool) (x y : A) : b = true -> (if b then x else y) = x.
Proof. by intros ->. Qed.

(** ** Loops *)

(** [for j in i..i + n { s = body(j, s)? }]. *)
Fixpoint for_range {E S} (n : nat) (i : Z) (body : Z -> S -> res E S) (s : S) : res E S :=
  match n with
  | O => Ok s
  | Datatypes.S n => let* s' := body i s in for_range n (i + 1) body s'
  end.

(** [while cond(s) { s = body(s)? }], with [fuel] iterations available. *)
Fixpoint while {E S} (fuel : nat) (cond : S -> bool) (body : S -> res E S) (s : S) : res E S :=
  if cond s then
    match fuel with
    | O => Hang
    | Datatypes.S fuel => let* s' := body s in while fuel cond body s'
    end
  else Ok s.

(** [for x in xs { s = body(x, s)? }]. *)
Fixpoint for_each {E A S} (xs : list A) (body : A -> S -> res E S) (s : S) : res E S :=
  match xs with
  | [] => Ok s
  | x :: xs => let* s' := body x s in for_each xs body s'
  end.

Lemma wp_for_range {E S} (I : Z -> S -> Prop) n i (body : Z -> S -> res E S) s (Q : S -> Prop) R :
  (forall j s, i <= j < i + Z.of_nat n -> I j s -> wp (body j s) (I (j + 1)) R) ->
  I i s -> (forall s, I (i + Z.of_nat n) s -> Q s) -> wp (for_range n i body s) Q R.
Proof.
  revert i s. induction n as [|n IH]; intros i s Hb Hi HQ; simpl.
  - apply HQ. by rewrite Z.add_0_r.
  - apply wp_bind. eapply wp_mono; [apply Hb; [lia|done]| |done].
    intros s' Hs'. apply IH; [|done|].
    + intros j t Hj. apply Hb. lia.
    + intros t Ht. apply HQ. by replace (i + Z.of_nat (Datatypes.S n)) with (i + 1 + Z.of_nat n) by lia.
Qed.

Lemma wp_while {E S} (I : S -> Prop) (m : S -> Z) fuel cond (body : S -> res E S) s (Q : S -> Prop) R :
  (forall s, I s -> cond s = true -> 0 < m s /\ wp (body s) (fun s' => I s' /\ m s' < m s) R) ->
  I s -> m s <= Z.of_nat fuel -> (forall s, I s -> cond s = false -> Q s) ->
  wp (while fuel cond body s) Q R.
Proof.
  revert s. induction fuel as [|fuel IH]; intros s Hb Hi Hm HQ; simpl;
    (destruct (cond s) eqn:Ec; [|by apply HQ]); destruct (Hb s Hi Ec) as [Hp Hw]; [lia|].
  apply wp_bind. eapply wp_mono; [apply Hw| |done].
  intros s' [Hs' Hlt]. apply IH; [done..|lia|done].
Qed.

Lemma wp_for_each {E A S} (I : S -> Prop) (xs : list A) (body : A -> S -> res E S) s (Q : S -> Prop) R :
  (forall x s, x ∈ xs -> I s -> wp (body x s) I R) -> I s -> (forall s, I s -> Q s) ->
  wp (for_each xs body s) Q R.
Proof.
  revert s. induction xs as [|x xs IH]; intros s Hb Hi HQ; simpl; [by apply HQ|].
  apply wp_bind. eapply wp_mono; [apply Hb; [left|done]| |done].
  intros s' Hs'. apply IH; [|done..]. intros y t Hy. apply Hb. by right.
Qed.

(** ** Calls that change a state, whatever they come to *)

Definition then_do {S E A B} (x : S * res E A) (k : S -> A -> S * res E B) : S * res E B :=
  match x with
  | (s, Ok a) => k s a
  | (s, Err e) => (s, Err e)
  | (s, Panic) => (s, Panic)
  | (s, Hang) => (s, Hang)
  end.

(** [comes_to pan hang x Q R]: [Q] of the state and a value, [R] of the state and an error; a panic
    only if [pan], and no more fuel only if [hang]. *)
Definition comes_to {S E A} (pan hang : Prop) (x : S * res E A) (Q : S -> A -> Prop) (R : S -> E -> Prop) : Prop :=
  match x.2 with Ok a => Q x.1 a | Err e => R x.1 e | Panic => pan | Hang => hang end.

Lemma comes_then {S E A B} pan hang (x : S * res E A) (k : S -> A -> S * res E B) Q R :
  comes_to pan hang x (fun s a => comes_to pan hang (k s a) Q R) R -> comes_to pan hang (then_do x k) Q R.
Proof. by destruct x as [s []]. Qed.

Lemma comes_mono {S E A} (pan pan' hang hang' : Prop) (x : S * res E A) (Q Q' : S -> A -> Prop) (R R' : S -> E -> Prop) :
  comes_to pan hang x Q R -> (pan -> pan') -> (hang -> hang') -> (forall s a, Q s a -> Q' s a) -> (forall s e, R s e -> R' s e) ->
  comes_to pan' hang' x Q' R'.
Proof. unfold comes_to. destruct x as [s []]; cbn; auto. Qed.

(** ** Booleans of the code as propositions *)

Ltac bools :=
  repeat match goal with
  | H : (_ && _)%bool = true |- _ => apply andb_true_iff in H as [? ?]
  | H : (_ || _)%bool = false |- _ => apply orb_false_iff in H as [? ?]
  | H : negb _ = true |- _ => apply negb_true_iff in H
  | H : negb _ = false |- _ => apply negb_false_iff in H
  end.

(** [zlia]: [lia] after the boolean connectives are split. *)
Ltac zlia := bools; lia.

(** [div_lia]: linear arithmetic with quotients and remainders by constants. *)
Ltac div_lia := bools; Z.to_euclidean_division_equations; lia.

(** ** Lengths *)

(** [x.len()]; positions and lengths are [usize] values, kept in [Z]. Slices are
    at most [isize::MAX] bytes long, so positions inside them never wrap. *)
Definition len {A} (l : list A) : Z := Z.of_nat (length l).

Lemma len_nonneg {A} (l : list A) : 0 <= len l.
Proof. unfold len; lia. Qed.

Lemma len_app {A} (a b : list A) : len (a ++ b) = len a + len b.
Proof. unfold len; rewrite length_app; lia. Qed.

Lemma len_nil {A} : len (@nil A) = 0.
Proof. done. Qed.

Lemma len_cons {A} (x : A) l : len (x :: l) = 1 + len l.
Proof. unfold len; simpl; lia. Qed.

Lemma len_take {A} n (l : list A) : len (take n l) = Z.min (Z.of_nat n) (len l).
Proof. unfold len; rewrite length_take; lia. Qed.

Lemma len_drop {A} n (l : list A) : len (drop n l) = Z.max 0 (len l - Z.of_nat n).
Proof. unfold len; rewrite length_drop; lia. Qed.

Lemma len_replicate {A} n (x : A) : len (replicate n x) = Z.of_nat n.
Proof. unfold len; by rewrite length_replicate. Qed.

Lemma len_fmap {A B} (f : A -> B) (l : list A) : len (f <$> l) = len l.
Proof. unfold len; by rewrite length_fmap. Qed.

Lemma len_map {A B} (f : A -> B) (l : list A) : len (map f l) = len l.
Proof. unfold len; by rewrite length_map. Qed.

Lemma len_0 {A} (l : list A) : len l = 0 -> l = [].
Proof. unfold len; destruct l; simpl; [done | lia]. Qed.

Create Rewrite HintDb len.
#[export] Hint Rewrite @len_app @len_nil @len_cons @len_take @len_drop @len_replicate
  @len_fmap @len_map : len.

(** Every list whose length occurs is known to have a nonnegative one. *)
Ltac len_facts :=
  repeat match goal with
  | |- context [len ?l] =>
      lazymatch goal with
      | H : 0 <= len l |- _ => fail
      | _ => pose proof (len_nonneg l)
      end
  | H0 : context [len ?l] |- _ =>
      lazymatch goal with
      | H : 0 <= len l |- _ => fail
      | _ => pose proof (len_nonneg l)
      end
  end.

(** [len_lia]: linear arithmetic modulo the length equations. *)
Ltac len_lia := autorewrite with len in *; len_facts; zlia.

(** ** [slice::chunks] *)

(** Every chunk but the last takes at least one element, so [length l] steps are
    enough ([chunks_cons]). *)
Fixpoint chunks_fuel {A} (fuel n : nat) (l : list A) : list (list A) :=
  match fuel, l with
  | S fuel, _ :: _ => take n l :: chunks_fuel fuel n (drop n l)
  | _, _ => []
  end.

(** [l.chunks(n)], for a nonzero [n]. *)
Definition chunks {A} (n : nat) (l : list A) : list (list A) := chunks_fuel (length l) n l.

Lemma chunks_fuel_enough {A} f1 f2 n (l : list A) :
  (0 < n)%nat -> (length l <= f1)%nat -> (length l <= f2)%nat ->
  chunks_fuel f1 n l = chunks_fuel f2 n l.
Proof.
  intros Hn. revert f2 l. induction f1 as [|f1 IH]; intros [|f2] l H1 H2;
    destruct l as [|x l]; simpl in *; try done; try lia.
  f_equal. apply IH; rewrite length_drop; simpl; lia.
Qed.

Lemma chunks_cons {A} n (l : list A) : (0 < n)%nat -> l <> [] ->
  chunks n l = take n l :: chunks n (drop n l).
Proof.
  intros Hn Hl. unfold chunks. destruct l as [|x l]; [done|]. cbn [length chunks_fuel].
  f_equal. apply chunks_fuel_enough; [done|rewrite length_drop; simpl; lia|done].
Qed.

(** Induction along the chunks of a list. *)
Lemma chunks_ind {A} (n : nat) (Hn : (0 < n)%nat) (Q : list A -> Prop) :
  Q [] -> (forall l, l <> [] -> Q (drop n l) -> Q l) -> forall l, Q l.
Proof.
  intros H0 HS l. remember (length l) as k eqn:Hk. revert l Hk.
  induction (lt_wf k) as [k _ IH]. intros l ->. destruct l as [|x l]; [done|].
  apply HS; [done|]. eapply IH; [|done]. rewrite length_drop. simpl. lia.
Qed.

Lemma concat_chunks {A} n (l : list A) : (0 < n)%nat -> concat (chunks n l) = l.
Proof.
  intros Hn. induction l as [|l Hl IH] using (chunks_ind n Hn); [done|].
  rewrite chunks_cons by done. simpl. by rewrite IH, take_drop.
Qed.

(** ** [iter().find] and [iter_mut().find] *)

Lemma find_Some {A} (f : A -> bool) l x : find f l = Some x -> x ∈ l /\ f x = true.
Proof. intros H%List.find_some. by rewrite list_elem_of_In. Qed.

Lemma find_None {A} (f : A -> bool) l : find f l = None <-> forall x, x ∈ l -> f x = false.
Proof.
  split.
  - intros H x Hx. apply list_elem_of_In in Hx. by eapply find_none in H.
  - induction l as [|y l IH]; intros H; [done|]. simpl. rewrite H by left. apply IH. intros x Hx. apply H. by right.
Qed.

(** [if let Some(x) = v.iter_mut().find(pred) { *x = f(x) }]: update the first match. *)
Fixpoint update_first {A} (pred : A -> bool) (f : A -> A) (l : list A) : list A :=
  match l with
  | [] => []
  | x :: l => if pred x then f x :: l else x :: update_first pred f l
  end.

Lemma update_first_map {A B} (g : A -> B) pred f (l : list A) :
  (forall x, g (f x) = g x) -> map g (update_first pred f l) = map g l.
Proof.
  intros Hg. induction l as [|x l IH]; simpl; [done|]. case_match; simpl; [by rewrite Hg|by rewrite IH].
Qed.

Lemma update_first_Forall {A} (Q : A -> Prop) pred f (l : list A) :
  Forall Q l -> (forall x, x ∈ l -> Q x -> Q (f x)) -> Forall Q (update_first pred f l).
Proof.
  induction 1 as [|x l Hx Hl IH]; intros Hf; [constructor|]. simpl. destruct (pred x); constructor; try done.
  - apply Hf; [by left|done].
  - apply IH. intros y Hy. apply Hf. by right.
Qed.

(** ** Ordered maps *)

Definition key_le {K A} (rank : K -> Z) (x y : K * A) : Prop := rank x.1 <= rank y.1.

#[export] Instance key_le_dec {K A} (rank : K -> Z) : RelDecision (@key_le K A rank).
Proof. intros x y. unfold key_le. apply _. Defined.

(** [BTreeMap]s are [gmap]s, iterated in the order of an integer rank of their
    keys. *)
Definition btree_iter {K A} `{Countable K} (rank : K -> Z) (m : gmap K A) : list (K * A) :=
  merge_sort (key_le rank) (map_to_list m).

Lemma btree_iter_perm {K A} `{Countable K} (rank : K -> Z) (m : gmap K A) :
  btree_iter rank m ≡ₚ map_to_list m.
Proof. apply merge_sort_Permutation. Qed.

(** [Vec::dedup]: runs of equal elements shrink to one. *)
Fixpoint dedup {A} `{EqDecision A} (l : list A) : list A :=
  match l with
  | [] => []
  | x :: l => x :: match dedup l with
                   | y :: l' => if bool_decide (x = y) then l' else y :: l'
                   | [] => []
                   end
  end.

Lemma dedup_elem {A} `{EqDecision A} (a : A) l : a ∈ dedup l <-> a ∈ l.
Proof.
  induction l as [|x l IH]; [done|]. cbn. rewrite !elem_of_cons, <- IH. destruct (dedup l) as [|y l']; [done|].
  case_bool_decide as Hd; [subst|done]. rewrite elem_of_cons. tauto.
Qed.

(** Of a sorted list nothing is left twice. *)
Lemma dedup_sorted {A} `{EqDecision A} (le : relation A) `{!Transitive le, !AntiSymm (=) le} l :
  StronglySorted le l -> StronglySorted le (dedup l) /\ NoDup (dedup l).
Proof.
  induction 1 as [|x l Hs [IHs IHd] Hx]; [split; constructor|]. cbn.
  assert (Forall (le x) (dedup l)) as Hle.
  { apply Forall_forall. intros y Hy. rewrite Forall_forall in Hx. by apply Hx, dedup_elem. }
  destruct (dedup l) as [|y l']; [split; [by repeat constructor|apply NoDup_singleton]|].
  apply StronglySorted_inv in IHs as [Hs' Hy]. apply NoDup_cons in IHd as [Hny Hd]. apply Forall_cons in Hle as [Hxy Hle].
  case_bool_decide as Hd'.
  - subst y. split; constructor; done.
  - split; [by repeat constructor|]. constructor; [|by constructor].
    intros [?|Hin]%elem_of_cons; [done|]. apply Hd'. apply (anti_symm le); [done|]. rewrite Forall_forall in Hy. by apply Hy.
Qed.

Lemma elem_of_btree_iter {K A} `{Countable K} (rank : K -> Z) (m : gmap K A) k a :
  (k, a) ∈ btree_iter rank m <-> m !! k = Some a.
Proof. rewrite btree_iter_perm. apply elem_of_map_to_list. Qed.

(** [iter().min_by_key(f)]: the first element with the least key. *)
Fixpoint min_by_key {A} (f : A -> Z) (l : list A) : option A :=
  match l with
  | [] => None
  | x :: l =>
      match min_by_key f l with
      | Some y => if f x <=? f y then Some x else Some y
      | None => Some x
      end
  end.

Lemma min_by_key_spec {A} (f : A -> Z) l x :
  min_by_key f l = Some x -> x ∈ l /\ forall y, y ∈ l -> f x <= f y.
Proof.
  revert x. induction l as [|z l IH]; intros x; simpl; [done|].
  destruct (min_by_key f l) as [y|] eqn:E.
  - destruct (IH y eq_refl) as [Hy Hmin].
    destruct (f z <=? f y) eqn:Ez; intros [= <-]; (split; [by constructor|]);
      intros w [->|Hw]%elem_of_cons; try lia; specialize (Hmin w Hw); lia.
  - intros [= <-]. split; [by left|]. intros y [->|Hy]%elem_of_cons; [lia|].
    destruct l; [by apply elem_of_nil in Hy|]. simpl in E. by repeat case_match.
Qed.

Lemma min_by_key_None {A} (f : A -> Z) l : min_by_key f l = None <-> l = [].
Proof. destruct l; simpl; [done|]. split; [|done]. intros. by repeat case_match. Qed.
