(* ===== verification/Bytes.v ===== *)
(** * Bytes: Rust's [u8], byte slices and fixed-width big-endian integers.

    A [u8] is a [Byte.byte]; [u16], [u32] and [u64] are [Z] in range. This file
    has the casts, the big-endian conversions, the indexing and slicing
    operations with their panics, and the lemmas that locate a field inside a
    concatenation. *)
From S2P Require Export Prelude.
From Stdlib Require Export Strings.Byte.

Abbreviation byte := Byte.byte.
Abbreviation bytes := (list Byte.byte).

#[export] Instance byte_eq_dec : EqDecision byte := Byte.byte_eq_dec.

(** ** [u8] and its casts *)

(** [b as u64] (or any wider type). *)
Definition u8 (b : byte) : Z := Z.of_N (Byte.to_N b).

(** [z as u8]: truncation to the low eight bits. *)
Definition b8 (z : Z) : byte :=
  match Byte.of_N (Z.to_N (z mod 256)) with Some b => b | None => "000"%byte end.

(** [z as u16], [z as u32], [z as u64]. *)
Definition wrap (w : Z) (z : Z) : Z := z mod 2 ^ w.

Definition U16_MAX : Z := 65535.
Definition U32_MAX : Z := 4294967295.
Definition U64_MAX : Z := 18446744073709551615.

Definition u16_ok (z : Z) : Prop := 0 <= z <= U16_MAX.
Definition u32_ok (z : Z) : Prop := 0 <= z <= U32_MAX.
Definition u64_ok (z : Z) : Prop := 0 <= z <= U64_MAX.

(** Saturating arithmetic at a given maximum. *)
Definition sat_add (max a b : Z) : Z := Z.min max (a + b).
Definition sat_sub (a b : Z) : Z := Z.max 0 (a - b).
Definition sat_mul (max a b : Z) : Z := Z.min max (a * b).

Lemma u8_range b : 0 <= u8 b < 256.
Proof. unfold u8. pose proof (Byte.to_N_bounded b). lia. Qed.

Lemma u8_b8 z : u8 (b8 z) = z mod 256.
Proof.
  unfold u8, b8. pose proof (Z.mod_pos_bound z 256 ltac:(lia)).
  destruct (Byte.of_N (Z.to_N (z mod 256))) eqn:E.
  - apply Byte.to_of_N in E. rewrite E. lia.
  - apply Byte.of_N_None_iff in E. lia.
Qed.

Lemma b8_u8 b : b8 (u8 b) = b.
Proof.
  unfold u8, b8. pose proof (Byte.to_N_bounded b).
  rewrite Z.mod_small by lia. by rewrite N2Z.id, Byte.of_to_N.
Qed.

Lemma u8_inj a b : u8 a = u8 b -> a = b.
Proof. intros H. rewrite <- (b8_u8 a), <- (b8_u8 b). by rewrite H. Qed.

Lemma b8_mod z : b8 (z mod 256) = b8 z.
Proof. unfold b8. by rewrite Z.mod_mod. Qed.

#[export] Instance byte_countable : Countable byte.
Proof.
  refine (inj_countable' Byte.to_N (fun n => default "000"%byte (Byte.of_N n)) _).
  intros b. by rewrite Byte.of_to_N.
Defined.

(** ** Big-endian integers *)

(** [uN::from_be_bytes]. *)
Definition from_be (l : bytes) : Z := fold_left (fun acc b => acc * 256 + u8 b) l 0.

(** [to_be_bytes] of an [n]-byte integer. *)
Fixpoint to_be (n : nat) (z : Z) : bytes :=
  match n with
  | O => []
  | S n => to_be n (z / 256) ++ [b8 z]
  end.

Lemma from_be_snoc l b : from_be (l ++ [b]) = from_be l * 256 + u8 b.
Proof. unfold from_be. by rewrite fold_left_app. Qed.

Lemma from_be_app a b : from_be (a ++ b) = from_be a * 256 ^ len b + from_be b.
Proof.
  induction b as [|x b IH] using rev_ind.
  - rewrite app_nil_r, len_nil. unfold from_be at 3. simpl. lia.
  - pose proof (len_nonneg b). rewrite app_assoc, !from_be_snoc, IH, len_app. change (len [x]) with 1.
    rewrite Z.pow_add_r, Z.pow_1_r by lia. lia.
Qed.

Lemma length_to_be n z : length (to_be n z) = n.
Proof. revert z; induction n; intros; simpl; [done | rewrite length_app, IHn; simpl; lia]. Qed.

Lemma len_to_be n z : len (to_be n z) = Z.of_nat n.
Proof. unfold len. by rewrite length_to_be. Qed.
Lemma len_to_be2 z : len (to_be 2 z) = 2.
Proof. apply len_to_be. Qed.
Lemma len_to_be4 z : len (to_be 4 z) = 4.
Proof. apply len_to_be. Qed.
Lemma len_to_be8 z : len (to_be 8 z) = 8.
Proof. apply len_to_be. Qed.
#[export] Hint Rewrite len_to_be2 len_to_be4 len_to_be8 : len.

Lemma from_be_range l : 0 <= from_be l < 256 ^ len l.
Proof.
  induction l as [|b l IH] using rev_ind; [done|].
  pose proof (u8_range b). pose proof (len_nonneg l).
  rewrite from_be_snoc, len_app. change (len [b]) with 1.
  rewrite Z.pow_add_r, Z.pow_1_r by lia. lia.
Qed.

Lemma from_be_to_be n z : from_be (to_be n z) = z mod 256 ^ Z.of_nat n.
Proof.
  revert z; induction n as [|n IH]; intros z; simpl to_be.
  - by rewrite Z.mod_1_r.
  - rewrite from_be_snoc, IH, u8_b8.
    replace (Z.of_nat (S n)) with (1 + Z.of_nat n) by lia.
    rewrite Z.pow_add_r by lia. change (256 ^ 1) with 256.
    rewrite Z.rem_mul_r by lia. lia.
Qed.

Lemma to_be_from_be l : to_be (length l) (from_be l) = l.
Proof.
  induction l as [|b l IH] using rev_ind; [done|].
  rewrite length_app, Nat.add_1_r. simpl to_be. rewrite from_be_snoc.
  pose proof (u8_range b).
  rewrite Z.div_add_l, Z.div_small, Z.add_0_r, IH by lia. f_equal. f_equal.
  rewrite <- b8_mod, Z.add_comm, Z.mod_add, Z.mod_small by lia. apply b8_u8.
Qed.

Lemma from_be_inj a b : length a = length b -> from_be a = from_be b -> a = b.
Proof. intros Hl Hf. rewrite <- (to_be_from_be a), <- (to_be_from_be b). congruence. Qed.

Lemma from_be_to_be_small n z : 0 <= z < 256 ^ Z.of_nat n -> from_be (to_be n z) = z.
Proof. intros. by rewrite from_be_to_be, Z.mod_small. Qed.

Lemma from_be_u16 z : u16_ok z -> from_be (to_be 2 z) = z.
Proof. unfold u16_ok, U16_MAX. intros. apply from_be_to_be_small. lia. Qed.
Lemma from_be_u32 z : u32_ok z -> from_be (to_be 4 z) = z.
Proof. unfold u32_ok, U32_MAX. intros. apply from_be_to_be_small. lia. Qed.
Lemma from_be_u64 z : u64_ok z -> from_be (to_be 8 z) = z.
Proof. unfold u64_ok, U64_MAX. intros. apply from_be_to_be_small. lia. Qed.

Lemma from_be_u16_ok l : len l = 2 -> u16_ok (from_be l).
Proof. intros H. pose proof (from_be_range l) as R. rewrite H in R. unfold u16_ok, U16_MAX. lia. Qed.
Lemma from_be_u32_ok l : len l = 4 -> u32_ok (from_be l).
Proof. intros H. pose proof (from_be_range l) as R. rewrite H in R. unfold u32_ok, U32_MAX. lia. Qed.
Lemma from_be_u64_ok l : len l = 8 -> u64_ok (from_be l).
Proof. intros H. pose proof (from_be_range l) as R. rewrite H in R. unfold u64_ok, U64_MAX. lia. Qed.

#[global] Arguments to_be : simpl never.

(** ** Indexing and slicing, with their panics *)

(** [data\[i\]]. *)
Definition get {E} (d : bytes) (i : Z) : res E byte :=
  if (0 <=? i) && (i <? len d)
  then match d !! Z.to_nat i with Some b => Ok b | None => Panic end
  else Panic.

(** [data\[a..b\]]. *)
Definition slice {E} (d : bytes) (a b : Z) : res E bytes :=
  if (0 <=? a) && (a <=? b) && (b <=? len d)
  then Ok (take (Z.to_nat (b - a)) (drop (Z.to_nat a) d))
  else Panic.

(** [data\[a..\]]. *)
Definition slice_from {E} (d : bytes) (a : Z) : res E bytes := slice d a (len d).

(** [uN::from_be_bytes(\[data\[pos\], ..., data\[pos + n - 1\]\])]. *)
Definition be_at {E} (n : Z) (d : bytes) (pos : Z) : res E Z :=
  let* s := slice d pos (pos + n) in Ok (from_be s).

(** [let mut a = \[0u8; n\]; a.copy_from_slice(&data\[x..y\])]. *)
Definition array_at {E} (n : Z) (d : bytes) (x y : Z) : res E bytes :=
  let* s := slice d x y in if len s =? n then Ok s else Panic.

(** [d\[a..b\].copy_from_slice(x)]. *)
Definition copy_into {E} (d : bytes) (a b : Z) (x : bytes) : res E bytes :=
  if (0 <=? a) && (a <=? b) && (b <=? len d) && (len x =? b - a)
  then Ok (take (Z.to_nat a) d ++ x ++ drop (Z.to_nat b) d)
  else Panic.

Lemma copy_into_ok {E} d a b x :
  0 <= a -> a <= b -> b <= len d -> len x = b - a ->
  @copy_into E d a b x = Ok (take (Z.to_nat a) d ++ x ++ drop (Z.to_nat b) d).
Proof.
  intros. unfold copy_into.
  by replace ((0 <=? a) && (a <=? b) && (b <=? len d) && (len x =? b - a)) with true by lia.
Qed.

Lemma wp_copy_into {E} d a b x (Q : bytes -> Prop) (R : E -> Prop) :
  0 <= a -> a <= b -> b <= len d -> len x = b - a ->
  (forall d', len d' = len d -> Q d') -> wp (copy_into d a b x) Q R.
Proof. intros ? ? ? ? HQ. rewrite copy_into_ok by done. simpl. apply HQ. len_lia. Qed.

Lemma slice_ok {E} d a b :
  0 <= a -> a <= b -> b <= len d ->
  @slice E d a b = Ok (take (Z.to_nat (b - a)) (drop (Z.to_nat a) d)).
Proof.
  intros. unfold slice.
  replace ((0 <=? a) && (a <=? b) && (b <=? len d)) with true by lia. done.
Qed.

Lemma get_ok {E} d i : 0 <= i < len d -> exists b, @get E d i = Ok b /\ d !! Z.to_nat i = Some b.
Proof.
  intros. unfold get. replace ((0 <=? i) && (i <? len d)) with true by lia.
  destruct (lookup_lt_is_Some_2 d (Z.to_nat i)) as [b Hb].
  - unfold len in *. lia.
  - exists b. by rewrite Hb.
Qed.

Lemma get_lookup {E} (d : bytes) i b : 0 <= i -> d !! Z.to_nat i = Some b -> @get E d i = Ok b.
Proof.
  intros Hi Hb. pose proof (lookup_lt_Some _ _ _ Hb). destruct (@get_ok E d i) as (b' & -> & Hb'); [unfold len; lia|congruence].
Qed.

Lemma slice_from_ok {E} (d : bytes) a : 0 <= a <= len d -> @slice_from E d a = Ok (drop (Z.to_nat a) d).
Proof.
  intros. unfold slice_from. rewrite slice_ok by lia. f_equal. apply take_ge. rewrite length_drop. unfold len in *. lia.
Qed.

Lemma wp_get {E} d i (Q : byte -> Prop) (R : E -> Prop) :
  0 <= i < len d -> (forall b, d !! Z.to_nat i = Some b -> Q b) -> wp (get d i) Q R.
Proof. intros Hi HQ. destruct (@get_ok E d i Hi) as (b & -> & Hb). simpl. auto. Qed.

Lemma wp_slice {E} d a b (Q : bytes -> Prop) (R : E -> Prop) :
  0 <= a -> a <= b -> b <= len d -> (forall s, len s = b - a -> Q s) -> wp (slice d a b) Q R.
Proof. intros. rewrite slice_ok by done. simpl. apply H2. len_lia. Qed.

Lemma wp_slice_from {E} d a (Q : bytes -> Prop) (R : E -> Prop) :
  0 <= a <= len d -> (forall s, len s = len d - a -> Q s) -> wp (slice_from d a) Q R.
Proof. intros. unfold slice_from. apply wp_slice; auto; lia. Qed.

Lemma wp_be_at {E} n d pos (Q : Z -> Prop) (R : E -> Prop) :
  0 <= pos -> 0 <= n -> pos + n <= len d ->
  (forall z, 0 <= z < 256 ^ n -> Q z) -> wp (be_at n d pos) Q R.
Proof.
  intros ? ? ? HQ. unfold be_at. apply wp_bind, wp_slice; try lia.
  intros s Hs. simpl. apply HQ. pose proof (from_be_range s). rewrite Hs in *.
  by replace (pos + n - pos) with n in * by lia.
Qed.

Lemma wp_be_u16 {E} d pos (Q : Z -> Prop) (R : E -> Prop) :
  0 <= pos -> pos + 2 <= len d -> (forall z, u16_ok z -> Q z) -> wp (be_at 2 d pos) Q R.
Proof.
  intros ? ? HQ. apply wp_be_at; try lia. intros z Hz. apply HQ. unfold u16_ok, U16_MAX. lia.
Qed.
Lemma wp_be_u32 {E} d pos (Q : Z -> Prop) (R : E -> Prop) :
  0 <= pos -> pos + 4 <= len d -> (forall z, u32_ok z -> Q z) -> wp (be_at 4 d pos) Q R.
Proof.
  intros ? ? HQ. apply wp_be_at; try lia. intros z Hz. apply HQ. unfold u32_ok, U32_MAX. lia.
Qed.
Lemma wp_be_u64 {E} d pos (Q : Z -> Prop) (R : E -> Prop) :
  0 <= pos -> pos + 8 <= len d -> (forall z, u64_ok z -> Q z) -> wp (be_at 8 d pos) Q R.
Proof.
  intros ? ? HQ. apply wp_be_at; try lia. intros z Hz. apply HQ. unfold u64_ok, U64_MAX. lia.
Qed.

Lemma wp_array_at {E} n d x y (Q : bytes -> Prop) (R : E -> Prop) :
  0 <= x -> x <= y -> y <= len d -> y - x = n ->
  (forall s, len s = n -> Q s) -> wp (array_at n d x y) Q R.
Proof.
  intros ? ? ? ? HQ. unfold array_at. apply wp_bind, wp_slice; try lia.
  intros s Hs. rewrite (proj2 (Z.eqb_eq _ _)) by lia. simpl. apply HQ. lia.
Qed.

(** ** Reading inside a concatenation *)

Lemma slice_app_skip {E} (p d : bytes) a b :
  len p <= a -> a <= b -> @slice E (p ++ d) a b = slice d (a - len p) (b - len p).
Proof.
  intros. unfold slice. pose proof (len_nonneg p). rewrite len_app.
  replace ((0 <=? a) && (a <=? b) && (b <=? len p + len d))
    with ((0 <=? a - len p) && (a - len p <=? b - len p) && (b - len p <=? len d)) by lia.
  destruct (_ && _); [|done]. f_equal.
  replace (b - len p - (a - len p)) with (b - a) by lia.
  rewrite drop_app_ge by (unfold len in *; lia). do 2 f_equal. unfold len; lia.
Qed.

Lemma slice_app_hit {E} (s d : bytes) n : len s = n -> @slice E (s ++ d) 0 n = Ok s.
Proof.
  intros <-. rewrite slice_ok by (len_lia). rewrite Z.sub_0_r.
  change (Z.to_nat 0) with O. rewrite drop_0. f_equal. apply take_app_length'.
  unfold len; lia.
Qed.

Lemma slice_all {E} (s : bytes) : @slice E s 0 (len s) = Ok s.
Proof. rewrite <- (app_nil_r s) at 1. by apply slice_app_hit. Qed.

Lemma slice_from_skip {E} (p d : bytes) a :
  len p <= a <= len p + len d -> @slice_from E (p ++ d) a = slice_from d (a - len p).
Proof.
  intros. unfold slice_from. rewrite slice_app_skip by len_lia. f_equal. len_lia.
Qed.

Lemma slice_from_0 {E} (d : bytes) : @slice_from E d 0 = Ok d.
Proof. apply slice_all. Qed.

Lemma be_at_skip {E} n (p d : bytes) pos :
  0 <= n -> len p <= pos -> @be_at E n (p ++ d) pos = be_at n d (pos - len p).
Proof.
  intros. unfold be_at. rewrite slice_app_skip by lia. do 2 f_equal. lia.
Qed.

Lemma be_at_hit {E} n (s d : bytes) : len s = n -> @be_at E n (s ++ d) 0 = Ok (from_be s).
Proof. intros. unfold be_at. by rewrite Z.add_0_l, slice_app_hit. Qed.

Lemma array_at_skip {E} n (p d : bytes) x y :
  len p <= x -> x <= y -> @array_at E n (p ++ d) x y = array_at n d (x - len p) (y - len p).
Proof. intros. unfold array_at. by rewrite slice_app_skip. Qed.

Lemma array_at_hit {E} n (s d : bytes) : len s = n -> @array_at E n (s ++ d) 0 n = Ok s.
Proof. intros H. unfold array_at. rewrite slice_app_hit by done. simpl. by rewrite H, Z.eqb_refl. Qed.

Lemma get_skip {E} (p d : bytes) i : len p <= i -> @get E (p ++ d) i = get d (i - len p).
Proof.
  intros. unfold get. pose proof (len_nonneg p). rewrite len_app.
  replace ((0 <=? i) && (i <? len p + len d)) with ((0 <=? i - len p) && (i - len p <? len d)) by lia.
  destruct (_ && _); [|done]. rewrite lookup_app_r by (unfold len in *; lia).
  replace (Z.to_nat i - length p)%nat with (Z.to_nat (i - len p)) by (unfold len; lia). done.
Qed.

Lemma get_hit {E} b (d : bytes) : @get E (b :: d) 0 = Ok b.
Proof. unfold get. replace ((0 <=? 0) && (0 <? len (b :: d))) with true by len_lia. done. Qed.

Lemma get_cons {E} b (d : bytes) i : 0 < i -> @get E (b :: d) i = get d (i - 1).
Proof. intros. change (b :: d) with ([b] ++ d). rewrite get_skip; len_lia || (f_equal; len_lia). Qed.

Lemma be_at_here {E} n (s d : bytes) pos :
  pos = 0 -> len s = n -> @be_at E n (s ++ d) pos = Ok (from_be s).
Proof. intros -> ?. by apply be_at_hit. Qed.
Lemma array_at_here {E} n (s d : bytes) x y :
  x = 0 -> len s = n -> y = n -> @array_at E n (s ++ d) x y = Ok s.
Proof. intros -> ? ->. by apply array_at_hit. Qed.
Lemma slice_here {E} (s d : bytes) x y :
  x = 0 -> len s = y -> @slice E (s ++ d) x y = Ok s.
Proof. intros -> ?. by apply slice_app_hit. Qed.
Lemma get_here {E} b (d : bytes) i : i = 0 -> @get E ([b] ++ d) i = Ok b.
Proof. intros ->. apply get_hit. Qed.
Lemma slice_from_here {E} (d : bytes) a : a = 0 -> @slice_from E d a = Ok d.
Proof. intros ->. apply slice_from_0. Qed.

Lemma slice_last {E} (s : bytes) x y : x = 0 -> y = len s -> @slice E s x y = Ok s.
Proof. intros -> ->. apply slice_all. Qed.

(** A [u16] length prefix announces the length it was written for. *)
Lemma wrap16_small z : 0 <= z <= U16_MAX -> wrap 16 z = z.
Proof. unfold wrap, U16_MAX. intros. apply Z.mod_small. lia. Qed.
Lemma from_be_len {A} (l : list A) : len l <= U16_MAX -> from_be (to_be 2 (wrap 16 (len l))) = len l.
Proof.
  intros. pose proof (len_nonneg l). rewrite wrap16_small by lia. apply from_be_u16. unfold u16_ok. lia.
Qed.

(** ** Exclusive or *)

Definition bxor (a b : byte) : byte := b8 (Z.lxor (u8 a) (u8 b)).

(** Bytewise [^=] over the common length. *)
Definition xor_bytes (a b : bytes) : bytes := zip_with bxor a b.

Lemma lxor_range a b : 0 <= a < 256 -> 0 <= b < 256 -> 0 <= Z.lxor a b < 256.
Proof.
  intros Ha Hb. split; [apply Z.lxor_nonneg; lia|].
  assert (Z.lxor a b = Z.lxor a b mod 2 ^ 8) as ->; [|apply Z.mod_pos_bound; lia].
  rewrite <- Z.land_ones by lia. apply Z.bits_inj'. intros n Hn.
  rewrite Z.land_spec, Z.lxor_spec.
  destruct (decide (n < 8)).
  - by rewrite Z.ones_spec_low, andb_true_r by lia.
  - rewrite Z.ones_spec_high, andb_false_r by lia.
    rewrite <- (Z.mod_small a (2 ^ 8)), <- (Z.mod_small b (2 ^ 8)) by lia.
    by rewrite !Z.mod_pow2_bits_high by lia.
Qed.

Lemma u8_bxor a b : u8 (bxor a b) = Z.lxor (u8 a) (u8 b).
Proof.
  unfold bxor. rewrite u8_b8. apply Z.mod_small, lxor_range; apply u8_range.
Qed.

Lemma bxor_cancel a k : bxor (bxor a k) k = a.
Proof. apply u8_inj. by rewrite !u8_bxor, Z.lxor_assoc, Z.lxor_nilpotent, Z.lxor_0_r. Qed.

Lemma bxor_nilpotent a : bxor a a = "000"%byte.
Proof. unfold bxor. by rewrite Z.lxor_nilpotent. Qed.

Lemma bxor_zero a b : bxor a b = "000"%byte -> a = b.
Proof.
  intros H. apply u8_inj. apply (f_equal u8) in H. rewrite u8_bxor in H.
  change (u8 "000") with 0 in H. by apply Z.lxor_eq.
Qed.

Lemma bxor_0_r a : bxor a "000"%byte = a.
Proof. apply u8_inj. rewrite u8_bxor. change (u8 "000") with 0. apply Z.lxor_0_r. Qed.

Lemma bxor_0_l a : bxor "000"%byte a = a.
Proof. apply u8_inj. rewrite u8_bxor. by change (u8 "000") with 0. Qed.

(** Low bits below a shifted value. *)
Lemma lor_shiftl_add x y n : 0 <= n -> 0 <= y < 2 ^ n -> Z.lor (Z.shiftl x n) y = x * 2 ^ n + y.
Proof.
  intros Hn Hy. rewrite <- (Z.shiftl_mul_pow2 x n) by done.
  enough (Z.land (Z.shiftl x n) y = 0) as H by (pose proof (Z.add_lor_land (Z.shiftl x n) y); lia).
  apply Z.bits_inj'. intros i Hi. rewrite Z.land_spec, Z.bits_0.
  destruct (decide (i < n)) as [Hlt|Hge].
  - by rewrite Z.shiftl_spec_low.
  - rewrite <- (Z.mod_small y (2 ^ n)) by done. by rewrite Z.mod_pow2_bits_high, andb_false_r by lia.
Qed.

Lemma b8_lxor x y : b8 (Z.lxor x y) = bxor (b8 x) (b8 y).
Proof.
  apply u8_inj. rewrite u8_bxor, !u8_b8. change 256 with (2 ^ 8).
  rewrite <- !Z.land_ones by lia. apply Z.bits_inj'. intros i Hi.
  rewrite !Z.land_spec, !Z.lxor_spec, !Z.land_spec. by destruct (Z.testbit x i), (Z.testbit y i), (Z.testbit _ i).
Qed.

Lemma to_be_lxor n x y : to_be n (Z.lxor x y) = xor_bytes (to_be n x) (to_be n y).
Proof.
  revert x y. induction n as [|n IH]; intros x y; [done|]. unfold to_be; fold to_be.
  change 256 with (2 ^ 8). rewrite <- !Z.shiftr_div_pow2 by lia. rewrite Z.shiftr_lxor, IH, b8_lxor.
  unfold xor_bytes. rewrite zip_with_app by (by rewrite !length_to_be). done.
Qed.

Lemma to_be_byte n v : 0 <= v < 256 -> to_be (S n) v = replicate n "000"%byte ++ [b8 v].
Proof.
  intros Hv. unfold to_be; fold to_be. f_equal. rewrite Z.div_small by done. clear.
  induction n as [|n IH]; [done|]. unfold to_be; fold to_be. rewrite Z.div_0_l, IH by done.
  by rewrite <- replicate_cons_app.
Qed.

Lemma to_be_shift n k v : to_be (n + k) (v * 256 ^ Z.of_nat k) = to_be n v ++ replicate k "000"%byte.
Proof.
  revert v. induction k as [|k IH]; intros v; [by rewrite Nat.add_0_r, app_nil_r, Z.mul_1_r|].
  rewrite Nat.add_succ_r. unfold to_be at 1; fold to_be.
  rewrite Nat2Z.inj_succ, Z.pow_succ_r by lia. replace (v * (256 * 256 ^ Z.of_nat k)) with (v * 256 ^ Z.of_nat k * 256) by lia.
  rewrite Z.div_mul, IH by done. rewrite <- b8_mod, Z.mod_mul by done.
  rewrite <- app_assoc. by rewrite <- replicate_cons_app.
Qed.

Lemma len_xor_bytes a b : len (xor_bytes a b) = Z.min (len a) (len b).
Proof. unfold len, xor_bytes. rewrite length_zip_with. lia. Qed.
#[export] Hint Rewrite len_xor_bytes : len.

Lemma xor_bytes_cancel a k : (length a <= length k)%nat -> xor_bytes (xor_bytes a k) k = a.
Proof.
  revert k. induction a as [|x a IH]; intros [|y k] H; simpl in *; try done; [lia|].
  rewrite bxor_cancel. f_equal. apply IH. lia.
Qed.

Lemma split_at {A} (p : list A) i j : (i <= j)%nat ->
  p = take i p ++ take (j - i) (drop i p) ++ drop j p.
Proof.
  intros. rewrite <- (take_drop i p) at 1. f_equal.
  rewrite <- (take_drop (j - i) (drop i p)) at 1. f_equal. rewrite drop_drop. f_equal. lia.
Qed.

(** ** Overwriting a field of a concatenation *)

Lemma copy_into_mid {E} (d pre old post y : bytes) a b :
  d = pre ++ old ++ post -> a = len pre -> b = a + len old -> len y = len old ->
  @copy_into E d a b y = Ok (pre ++ y ++ post).
Proof.
  intros -> -> -> Hy. pose proof (len_nonneg pre). pose proof (len_nonneg old).
  pose proof (len_nonneg post).
  rewrite copy_into_ok by (rewrite ?len_app; lia). f_equal.
  rewrite take_app_length' by (unfold len; lia). do 2 f_equal.
  rewrite app_assoc, drop_app_length' by (rewrite length_app; unfold len; lia). done.
Qed.

(** ** Strings: UTF-8 byte sequences *)

(** A string literal. *)
Definition str (s : string) : bytes := String.list_byte_of_string s.

(** [s.split(c)] for an ASCII character [c]. *)
Fixpoint split_on (c : byte) (s : bytes) : list bytes :=
  match s with
  | [] => [[]]
  | x :: s =>
      if bool_decide (x = c) then [] :: split_on c s
      else match split_on c s with
           | part :: parts => (x :: part) :: parts
           | [] => [[x]]
           end
  end.

Lemma split_on_single c a : c ∉ a -> split_on c a = [a].
Proof.
  induction a as [|x a IH]; simpl; [done|]. intros [Hx Ha]%not_elem_of_cons.
  rewrite bool_decide_false by congruence. by rewrite IH.
Qed.

Lemma split_on_app c a b : c ∉ a -> split_on c (a ++ c :: b) = a :: split_on c b.
Proof.
  induction a as [|x a IH]; simpl; intros Ha.
  - by rewrite bool_decide_true.
  - apply not_elem_of_cons in Ha as [Hx Ha].
    rewrite bool_decide_false by congruence. by rewrite IH.
Qed.
