(* ===== verification/Text.v ===== *)
(** * Text: the conversions between numbers and strings of Rust's standard library that the
    controller uses (from_utf8, from_str_radix, parse, format).  A string is its bytes. *)
From S2P Require Export Bytes.

(** [core::str::from_utf8]: well-formed UTF-8 (no overlong form, no surrogate, at most
    U+10FFFF). *)
Definition in_range (lo hi : Z) (b : byte) : bool := (lo <=? u8 b) && (u8 b <=? hi).
Definition is_cont : byte -> bool := in_range 0x80 0xbf.

Fixpoint utf8_valid (s : bytes) : bool :=
  match s with
  | [] => true
  | a :: s1 =>
      if in_range 0 0x7f a then utf8_valid s1 else
      match s1 with
      | [] => false
      | b :: s2 =>
          if in_range 0xc2 0xdf a then is_cont b && utf8_valid s2 else
          match s2 with
          | [] => false
          | c :: s3 =>
              if in_range 0xe0 0xef a then
                in_range (if u8 a =? 0xe0 then 0xa0 else 0x80) (if u8 a =? 0xed then 0x9f else 0xbf) b
                && is_cont c && utf8_valid s3
              else
              match s3 with
              | [] => false
              | d :: s4 =>
                  in_range 0xf0 0xf4 a
                  && in_range (if u8 a =? 0xf0 then 0x90 else 0x80) (if u8 a =? 0xf4 then 0x8f else 0xbf) b
                  && is_cont c && is_cont d && utf8_valid s4
              end
          end
      end
  end.

(** ASCII text is well formed. *)
Lemma utf8_ascii (s : bytes) : Forall (fun b => u8 b <= 0x7f) s -> utf8_valid s = true.
Proof.
  induction 1 as [|b s Hb _ IH]; [done|]. simpl. unfold in_range. pose proof (u8_range b).
  rewrite if_true; [done|zlia].
Qed.

(** ** Numbers *)

(** [char::to_digit]. *)
Definition digit_of (radix : Z) (c : byte) : option Z :=
  let c := u8 c in
  let d := if (48 <=? c) && (c <=? 57) then c - 48
           else if (97 <=? c) && (c <=? 122) then c - 97 + 10
           else if (65 <=? c) && (c <=? 90) then c - 65 + 10 else radix in
  if d <? radix then Some d else None.

(** The digits of [s] after the value [acc], overflow past [max] refused at each step. *)
Fixpoint digits (radix max acc : Z) (s : bytes) : option Z :=
  match s with
  | [] => Some acc
  | c :: s =>
      match digit_of radix c with
      | None => None
      | Some d => if acc * radix + d <=? max then digits radix max (acc * radix + d) s else None
      end
  end.

(** [from_str_radix] of an unsigned type of maximum [max]; [parse] is the radix 10 case. *)
Definition from_str_radix (radix max : Z) (s : bytes) : option Z :=
  match s with
  | [] => None
  | c :: rest =>
      if bool_decide (c = "+"%byte)
      then match rest with [] => None | _ => digits radix max 0 rest end
      else digits radix max 0 s
  end.
Definition parse_u8 : bytes -> option Z := from_str_radix 10 255.

Definition digit_char (d : Z) : byte := nth (Z.to_nat d) (str "0123456789abcdef") "0"%byte.

Fixpoint fmt_radix (fuel : nat) (radix n : Z) (acc : bytes) : bytes :=
  match fuel with
  | O => acc
  | S fuel =>
      let acc := digit_char (n mod radix) :: acc in
      if n <? radix then acc else fmt_radix fuel radix (n / radix) acc
  end.
(** [format!("{}")] and [format!("{:x}")]: 64 digits are enough for any u64. *)
Definition format_radix (radix n : Z) : bytes := fmt_radix 64 radix n [].
Definition format_dec : Z -> bytes := format_radix 10.
Definition format_hex : Z -> bytes := format_radix 16.

(** [format!("{:0wx}")]. *)
Definition format_hex_pad (w : nat) (n : Z) : bytes :=
  let s := format_hex n in replicate (w - length s) "0"%byte ++ s.

(** A digit of [radix]. *)
Definition is_digit (radix : Z) (c : byte) : Prop := exists d, 0 <= d < radix /\ c = digit_char d.

Ltac digit_cases d := 
  assert (d = 0 \/ d = 1 \/ d = 2 \/ d = 3 \/ d = 4 \/ d = 5 \/ d = 6 \/ d = 7 \/ d = 8 \/ d = 9 \/
          d = 10 \/ d = 11 \/ d = 12 \/ d = 13 \/ d = 14 \/ d = 15) by lia;
  repeat match goal with H : _ \/ _ |- _ => destruct H as [->|H] | H : d = _ |- _ => subst d end.

Lemma digit_of_char radix d : 0 <= d < radix -> radix <= 16 -> digit_of radix (digit_char d) = Some d.
Proof.
  intros Hd Hr. unfold digit_of.
  assert (forall x : Z, x = d -> (if x <? radix then Some x else None) = Some d) as Hx
    by (intros x ->; apply if_true; lia).
  apply Hx. digit_cases d; reflexivity.
Qed.

Lemma digit_ascii c : is_digit 16 c ->
  u8 c <= 0x7f /\ c <> "+"%byte /\ c <> "."%byte /\ c <> "/"%byte /\ c <> ":"%byte.
Proof. intros (d & Hd & ->). digit_cases d; by vm_compute. Qed.

Lemma is_digit_weaken radix c : radix <= 16 -> is_digit radix c -> is_digit 16 c.
Proof. intros ? (d & ? & ->). exists d. split; [lia|done]. Qed.

Lemma fmt_radix_digits fuel radix n acc : 0 < radix -> Forall (is_digit radix) acc ->
  Forall (is_digit radix) (fmt_radix fuel radix n acc).
Proof.
  intros Hr. revert n acc. induction fuel as [|fuel IH]; intros n acc Ha; simpl; [done|].
  assert (Forall (is_digit radix) (digit_char (n mod radix) :: acc)).
  { constructor; [|done]. exists (n mod radix). split; [|done]. apply Z.mod_pos_bound; lia. }
  case_match; [done|by apply IH].
Qed.

Lemma format_digits radix n : 0 < radix <= 16 -> Forall (is_digit 16) (format_radix radix n).
Proof.
  intros Hr. assert (Forall (is_digit radix) (format_radix radix n)) as H.
  { apply fmt_radix_digits; [lia|]. apply Forall_nil_2. }
  eapply Forall_impl; [exact H|]. intros c. apply is_digit_weaken. lia.
Qed.

Lemma fmt_radix_cons fuel radix n acc : exists c s, fmt_radix (S fuel) radix n acc = c :: s.
Proof.
  revert n acc. induction fuel as [|fuel IH]; intros n acc; simpl in *.
  - case_match; eauto.
  - destruct (n <? radix); [eauto|]. apply (IH (n / radix)).
Qed.

Lemma digits_fmt fuel radix max n acc :
  2 <= radix <= 16 -> 0 <= n <= max -> n < radix ^ Z.of_nat fuel ->
  digits radix max 0 (fmt_radix fuel radix n acc) = digits radix max n acc.
Proof.
  intros Hr. revert n acc. induction fuel as [|fuel IH]; intros n acc Hn Hf.
  - replace (radix ^ Z.of_nat 0) with 1 in Hf by reflexivity. by replace n with 0 by lia.
  - cbn [fmt_radix]. destruct (n <? radix) eqn:E.
    + rewrite Z.mod_small by zlia. cbn [digits]. rewrite digit_of_char by zlia.
      rewrite if_true by zlia. by rewrite Z.mul_0_l.
    + rewrite Nat2Z.inj_succ, Z.pow_succ_r in Hf by lia.
      assert (0 <= n / radix <= max) by (split; [apply Z.div_pos; lia|]; apply Z.div_le_upper_bound; nia).
      rewrite IH; [|done|apply Z.div_lt_upper_bound; lia].
      cbn [digits]. rewrite digit_of_char by (try apply Z.mod_pos_bound; lia).
      replace (n / radix * radix + n mod radix) with n by (pose proof (Z.div_mod n radix); lia).
      apply if_true; lia.
Qed.

(** Numbers survive formatting and parsing. *)
Lemma from_str_format radix max n : 10 <= radix <= 16 -> 0 <= n <= max -> max <= U64_MAX ->
  from_str_radix radix max (format_radix radix n) = Some n.
Proof.
  intros Hr Hn Hm. unfold format_radix.
  assert (digits radix max 0 (fmt_radix 64 radix n []) = Some n) as H.
  { rewrite digits_fmt; [done|lia|done|]. unfold U64_MAX in Hm.
    assert (10 ^ 64 <= radix ^ Z.of_nat 64) by (apply Z.pow_le_mono_l; lia). lia. }
  pose proof (format_digits radix n) as Hd. unfold format_radix in Hd. revert H Hd.
  destruct (fmt_radix_cons 63 radix n []) as (c & s & ->). intros H Hd. unfold from_str_radix.
  rewrite bool_decide_false; [done|]. intros ->. specialize (Hd ltac:(lia)).
  apply Forall_inv in Hd. by apply digit_ascii in Hd as (_ & Hd & _).
Qed.

Lemma parse_u8_format n : 0 <= n <= 255 -> parse_u8 (format_dec n) = Some n.
Proof. intros. apply from_str_format; unfold U64_MAX; lia. Qed.

Lemma digits_range radix max acc s n : 0 < radix -> 0 <= acc <= max -> digits radix max acc s = Some n -> 0 <= n <= max.
Proof.
  intros Hr. revert acc. induction s as [|c s IH]; intros acc Ha; cbn [digits]; [by intros [= <-]|].
  destruct (digit_of radix c) as [d|] eqn:E; [|done]. destruct (_ <=? max) eqn:E'; [|done].
  apply IH. split; [|zlia]. unfold digit_of in E. pose proof (u8_range c). repeat case_match; simplify_eq; zlia.
Qed.

Lemma from_str_range radix max s n : 0 < radix -> 0 <= max -> from_str_radix radix max s = Some n -> 0 <= n <= max.
Proof.
  intros Hr Hm. unfold from_str_radix. destruct s as [|c s]; [done|]. case_match.
  - destruct s; [done|]. apply digits_range; lia.
  - apply digits_range; lia.
Qed.

(** No formatted number contains a character that is not a digit. *)
Lemma notin_format radix n c : 0 < radix <= 16 -> ~ is_digit 16 c -> c ∉ format_radix radix n.
Proof. intros Hr Hc Hin. apply Hc. pose proof (format_digits radix n Hr) as H. rewrite Forall_forall in H. by apply H. Qed.

Lemma utf8_format radix n : 0 < radix <= 16 -> utf8_valid (format_radix radix n) = true.
Proof.
  intros Hr. apply utf8_ascii. pose proof (format_digits radix n Hr) as H.
  eapply Forall_impl; [exact H|]. intros c Hc. by apply digit_ascii.
Qed.

(** Leading zeros do not change the value. *)
Lemma from_str_pad w n : u64_ok n -> from_str_radix 16 U64_MAX (format_hex_pad w n) = Some n.
Proof.
  intros Hn. unfold format_hex_pad. pose proof (from_str_format 16 U64_MAX n) as H.
  assert (0 <= n <= U64_MAX) by (unfold u64_ok in Hn; lia). fold (format_hex n) in H.
  specialize (H ltac:(lia) ltac:(lia) ltac:(lia)). destruct (w - length (format_hex n))%nat as [|k]; [exact H|].
  assert (digits 16 U64_MAX 0 (format_hex n) = Some n) as Hd.
  { revert H. unfold format_hex, format_radix. destruct (fmt_radix_cons 63 16 n []) as (c & s & E).
    pose proof (format_digits 16 n ltac:(lia)) as Hf. unfold format_radix in Hf. rewrite E in *.
    unfold from_str_radix. apply Forall_inv, digit_ascii in Hf. by rewrite bool_decide_false by naive_solver. }
  cbn [replicate app from_str_radix]. rewrite bool_decide_false by done.
  change ("0"%byte :: replicate k "0"%byte ++ format_hex n) with (replicate (S k) "0"%byte ++ format_hex n).
  clear H. induction (S k) as [|j IH]; [exact Hd|]. exact IH.
Qed.

Lemma ascii_pad w n : Forall (fun b => u8 b <= 0x7f) (format_hex_pad w n).
Proof.
  unfold format_hex_pad. apply Forall_app. split.
  - apply Forall_forall. intros b Hb%elem_of_replicate_inv. by rewrite Hb.
  - eapply Forall_impl; [apply (format_digits 16 n ltac:(lia))|]. intros c Hc. by apply digit_ascii.
Qed.

(** ** [str::starts_with], [ends_with], [strip_suffix], [split_once], [trim] *)

Definition starts_with (prefix s : bytes) : bool := bool_decide (take (length prefix) s = prefix).
Definition ends_with (suffix s : bytes) : bool := bool_decide (drop (length s - length suffix) s = suffix).
Definition strip_suffix (suffix s : bytes) : option bytes :=
  if ends_with suffix s then Some (take (length s - length suffix) s) else None.

Lemma ends_with_spec suffix s : ends_with suffix s = true <-> exists p, s = p ++ suffix.
Proof.
  unfold ends_with. rewrite bool_decide_eq_true. split.
  - intros Hd. exists (take (length s - length suffix) s). by rewrite <- Hd at 2; rewrite take_drop.
  - intros [p ->]. rewrite length_app. replace (length p + length suffix - length suffix)%nat with (length p) by lia. apply drop_app_length.
Qed.

Lemma strip_app suffix s : strip_suffix suffix (s ++ suffix) = Some s.
Proof.
  unfold strip_suffix. rewrite (proj2 (ends_with_spec _ _)) by by exists s. rewrite length_app.
  replace (length s + length suffix - length suffix)%nat with (length s) by lia. by rewrite take_app_length.
Qed.

Lemma strip_suffix_spec suffix s stem : strip_suffix suffix s = Some stem <-> s = stem ++ suffix.
Proof.
  split; [|intros ->; apply strip_app]. unfold strip_suffix. destruct (ends_with suffix s) eqn:E; [|done].
  apply ends_with_spec in E as [p ->]. rewrite length_app. replace (length p + length suffix - length suffix)%nat with (length p) by lia.
  rewrite take_app_length. by intros [= ->].
Qed.

Fixpoint split_first (c : byte) (s : bytes) : option (bytes * bytes) :=
  match s with
  | [] => None
  | x :: s =>
      if bool_decide (x = c) then Some ([], s)
      else match split_first c s with Some (a, b) => Some (x :: a, b) | None => None end
  end.

(** The UTF-8 encodings of the characters with the White_Space property. *)
Definition white_space : list bytes :=
  map (fun z => [b8 z]) [9; 10; 11; 12; 13; 32] ++ map (map b8) [[0xc2; 0x85]; [0xc2; 0xa0]; [0xe1; 0x9a; 0x80]] ++
  map (fun z => map b8 [0xe2; 0x80; z]) (seqZ 0x80 11 ++ [0xa8; 0xa9; 0xaf]) ++
  map (map b8) [[0xe2; 0x81; 0x9f]; [0xe3; 0x80; 0x80]].

(** [s] without the first of [ws] that is a prefix of it. *)
Definition strip_one (ws : list bytes) (s : bytes) : option bytes :=
  head (omap (fun w => if bool_decide (take (length w) s = w) then Some (drop (length w) s) else None) ws).

Fixpoint strip_all (fuel : nat) (ws : list bytes) (s : bytes) : bytes :=
  match fuel with
  | O => s
  | S fuel => match strip_one ws s with Some s => strip_all fuel ws s | None => s end
  end.

(** Every encoding is at least one byte long, so [length s] rounds are enough. *)
Definition trim_start (s : bytes) : bytes := strip_all (length s) white_space s.
Definition trim_end (s : bytes) : bytes := rev (strip_all (length s) (map (@rev byte) white_space) (rev s)).
Definition trim (s : bytes) : bytes := trim_end (trim_start s).

(** Characters that are not trimmed. *)
Definition graphic (c : byte) : bool := (0x21 <=? u8 c) && (u8 c <=? 0x7e).

Lemma strip_one_none ws c s : forallb (fun w => match w with x :: _ => negb (bool_decide (x = c)) | [] => false end) ws = true ->
  strip_one ws (c :: s) = None.
Proof.
  unfold strip_one. induction ws as [|w ws IH]; [done|]. cbn [forallb omap list_omap]. intros [Hw Hws]%andb_true_iff.
  destruct w as [|x w]; [done|]. rewrite bool_decide_false; [by apply IH|]. cbn. intros [= -> _]. by rewrite bool_decide_true in Hw.
Qed.

Lemma trim_graphic s : match head s with Some c => graphic c = true | None => True end ->
  match last s with Some c => graphic c = true | None => True end -> trim s = s.
Proof.
  assert (forall ws n s, (forall c, graphic c = true -> forallb (fun w => match w with x :: _ => negb (bool_decide (x = c)) | [] => false end) ws = true) ->
    match head s with Some c => graphic c = true | None => True end -> strip_all n ws s = s) as Hstrip.
  { intros ws [|n] [|c s'] Hws Hc; try done.
    - cbn [strip_all]. unfold strip_one. replace (omap _ ws) with (@nil bytes); [done|]. specialize (Hws "a"%byte eq_refl).
      induction ws as [|w ws IH]; [done|]. cbn [forallb] in Hws. apply andb_true_iff in Hws as [Hw Hws]. destruct w; [done|]. cbn. by apply IH.
    - cbn [strip_all]. by rewrite strip_one_none by by apply Hws. }
  intros Hh Hl. unfold trim, trim_start, trim_end. rewrite (Hstrip white_space) by (done || (intros []; by vm_compute)).
  rewrite (Hstrip (map (@rev byte) white_space)); [apply rev_involutive|intros []; by vm_compute|].
  replace (head (rev s)) with (last s); [exact Hl|]. clear. induction s as [|x s IH] using rev_ind; [done|]. by rewrite last_snoc, rev_app_distr.
Qed.

(** ** [Ipv4Addr::from_str] and [Ipv6Addr::from_str]

    The standard library's parser reads from the front of the text and gives back what is
    left; a reader that fails consumes nothing. *)
Module IpText.

Definition Reader (A : Type) : Type := bytes -> option (A * bytes).

(** At most [n] more digits: one too many fails. *)
Fixpoint read_digits (radix : Z) (n : nat) (acc : Z) (count : nat) (s : bytes) : option (Z * nat * bytes) :=
  match s with
  | c :: rest =>
      match digit_of radix c with
      | Some d => match n with
                  | O => None
                  | S n => read_digits radix n (acc * radix + d) (S count) rest
                  end
      | None => Some (acc, count, s)
      end
  | [] => Some (acc, count, s)
  end.

Definition read_number (radix : Z) (max_digits : nat) (max : Z) (allow_zero_prefix : bool) : Reader Z := fun s =>
  let has_leading_zero := match s with c :: _ => bool_decide (c = "0"%byte) | [] => false end in
  match read_digits radix max_digits 0 0 s with
  | None => None
  | Some (result, count, rest) =>
      if bool_decide (count = O) then None
      else if negb allow_zero_prefix && has_leading_zero && (1 <? count)%nat then None
      else if result <=? max then Some (result, rest) else None
  end.

Definition read_given_char (c : byte) : Reader unit := fun s =>
  match s with x :: s => if bool_decide (x = c) then Some (tt, s) else None | [] => None end.

Definition read_separator {A} (sep : byte) (index : nat) (inner : Reader A) : Reader A := fun s =>
  match index with
  | O => inner s
  | S _ => match read_given_char sep s with Some (_, s) => inner s | None => None end
  end.

Fixpoint read_octets (n index : nat) (s : bytes) : option (bytes * bytes) :=
  match n with
  | O => Some ([], s)
  | S n =>
      match read_separator "."%byte index (read_number 10 3 255 false) s with
      | None => None
      | Some (o, s) =>
          match read_octets n (S index) s with Some (os, s) => Some (b8 o :: os, s) | None => None end
      end
  end.
Definition read_ipv4_addr : Reader bytes := read_octets 4 0.

(** Up to [limit - index] groups, the last two possibly as a dotted IPv4 address; the groups
    and whether they end in one. *)
Fixpoint read_groups (slots limit index : nat) (s : bytes) : list Z * bool * bytes :=
  match slots with
  | O => ([], false, s)
  | S slots =>
      match (if (index <? limit - 1)%nat then read_separator ":"%byte index read_ipv4_addr s else None) with
      | Some (v4, s) => ([from_be (take 2 v4); from_be (drop 2 v4)], true, s)
      | None =>
          match read_separator ":"%byte index (read_number 16 4 U16_MAX true) s with
          | None => ([], false, s)
          | Some (g, s) => let '(gs, ipv4, s) := read_groups slots limit (S index) s in (g :: gs, ipv4, s)
          end
      end
  end.

Definition group_octets (gs : list Z) : bytes := flat_map (to_be 2) gs.

Definition read_ipv6_addr : Reader bytes := fun s =>
  let '(head, head_ipv4, s) := read_groups 8 8 0 s in
  if bool_decide (length head = 8%nat) then Some (group_octets head, s) else
  if head_ipv4 then None else
  match read_given_char ":"%byte s with
  | None => None
  | Some (_, s) =>
      match read_given_char ":"%byte s with
      | None => None
      | Some (_, s) =>
          let limit := (8 - (length head + 1))%nat in
          let '(tail, _, s) := read_groups limit limit 0 s in
          Some (group_octets (head ++ replicate (8 - length head - length tail) 0 ++ tail), s)
      end
  end.

(** The whole text is consumed. *)
Definition parse_with {A} (r : Reader A) (s : bytes) : option A :=
  match r s with Some (a, []) => Some a | _ => None end.

Definition parse_ipv4_addr (s : bytes) : option bytes :=
  if 15 <? len s then None else parse_with read_ipv4_addr s.
Definition parse_ipv6_addr : bytes -> option bytes := parse_with read_ipv6_addr.

Example parse_ipv4_samples :
  parse_ipv4_addr (str "10.0.0.254") = Some (map b8 [10; 0; 0; 254]) /\
  parse_ipv4_addr (str "10.0.0.256") = None /\ parse_ipv4_addr (str "10.0.00.1") = None /\
  parse_ipv4_addr (str "10.0.0.1 ") = None.
Proof. by vm_compute. Qed.

Example parse_ipv6_samples :
  parse_ipv6_addr (str "fd00::1") = Some (map b8 [0xfd; 0; 0; 0; 0; 0; 0; 0; 0; 0; 0; 0; 0; 0; 0; 1]) /\
  parse_ipv6_addr (str "::ffff:10.0.0.1") = Some (map b8 [0; 0; 0; 0; 0; 0; 0; 0; 0; 0; 0xff; 0xff; 10; 0; 0; 1]) /\
  parse_ipv6_addr (str "1:2:3:4:5:6:7") = None /\ parse_ipv6_addr (str "1::2::3") = None.
Proof. by vm_compute. Qed.
End IpText.
