(* ===== verification/Files.v ===== *)
(** * Files: the operating system's files, as the service uses them (tokio::fs and std::fs).

    A file system is a parameter: [FileSystem] are the calls the service makes and the tree it
    shows, [FileSystemLaws] what the calls document. Every call may fail. Paths are the names
    between the slashes, below the directory the caller works in; the tree has no links, and its
    names are text. [Disk] is a file system in memory that runs out of space. *)
From S2P Require Export Text.

Notation path := (list bytes).

Inductive Kind := IsFile | IsDir.

(** A file with its permission bits. *)
Record File := mkFile { f_data : bytes; f_mode : Z }.
Record Tree := mkTree { files : gmap path File; dirs : gset path }.

(** Names that stand for an entry of their directory. *)
Definition plain_name (n : bytes) : Prop :=
  n <> [] /\ n <> str "." /\ n <> str ".." /\ "/"%byte ∉ n /\ "000"%byte ∉ n.
#[export] Instance plain_name_dec n : Decision (plain_name n).
Proof. unfold plain_name. apply _. Defined.
Definition plain (p : path) : Prop := Forall plain_name p.
#[export] Instance plain_dec p : Decision (plain p).
Proof. unfold plain. apply _. Defined.

Class FileSystem (F O : Type) := {
  fs_read : F -> path -> O + bytes;
  fs_mode : F -> path -> O + Z;
  fs_list : F -> path -> O + list (bytes * Kind);
  fs_open : F -> path -> Z -> F * option O;
  fs_chmod : F -> path -> Z -> F * option O;
  fs_fill : F -> path -> bytes -> F * option O;
  fs_write : F -> path -> bytes -> F * option O;
  fs_remove : F -> path -> F * option O;
  fs_mkdir : F -> path -> F * option O;
  fs_rmdir : F -> path -> F * option O;
  not_found : O -> bool;
  tree : F -> Tree;
}.

(** Nothing but the file at [p] has changed. *)
Definition only_at (t t' : Tree) (p : path) : Prop :=
  dirs t' = dirs t /\ forall q, q <> p -> files t' !! q = files t !! q.

(** A file opened to be overwritten: empty; a new one has no permission that was not asked for. *)
Definition opened (old : option File) (mode : Z) (new : option File) : Prop :=
  exists m, new = Some (mkFile [] m) /\
    match old with Some f => m = f_mode f | None => exists mask, m = Z.land mode mask end.

(** [d] has been written to an empty file, or some of it. *)
Definition written_some (d : bytes) (mode : Z) (new : option File) : Prop :=
  exists d', d' `prefix_of` d /\ new = Some (mkFile d' mode).

(** fs_open is [OpenOptions] with write, create, truncate and a mode, fs_fill [write_all] and
    [flush] on the file just opened, fs_mkdir [create_dir_all], fs_rmdir [remove_dir_all]. *)
Class FileSystemLaws (F O : Type) `{FileSystem F O} := {
  read_law fs p : plain p -> match fs_read fs p with
    | inr d => f_data <$> files (tree fs) !! p = Some d
    | inl e => not_found e = true -> files (tree fs) !! p = None
    end;
  mode_law fs p m f : plain p -> fs_mode fs p = inr m -> files (tree fs) !! p = Some f ->
    Z.land m 0x1ff = Z.land (f_mode f) 0x1ff;
  list_law fs p : plain p -> match fs_list fs p with
    | inr l => NoDup l /\ forall n k, (n, k) ∈ l <->
        plain_name n /\ match k with IsFile => is_Some (files (tree fs) !! (p ++ [n])) | IsDir => p ++ [n] ∈ dirs (tree fs) end
    | inl e => not_found e = true -> forall n, files (tree fs) !! (p ++ [n]) = None
    end;
  open_law fs p mode : plain p -> let '(fs', e) := fs_open fs p mode in
    only_at (tree fs) (tree fs') p /\
    (opened (files (tree fs) !! p) mode (files (tree fs') !! p) \/ is_Some e /\ files (tree fs') !! p = files (tree fs) !! p);
  chmod_law fs p mode : plain p -> let '(fs', e) := fs_chmod fs p mode in
    only_at (tree fs) (tree fs') p /\
    files (tree fs') !! p = match e with
                            | None => (fun f => mkFile (f_data f) mode) <$> files (tree fs) !! p
                            | Some _ => files (tree fs) !! p
                            end;
  fill_law fs p d m : plain p -> files (tree fs) !! p = Some (mkFile [] m) -> let '(fs', e) := fs_fill fs p d in
    only_at (tree fs) (tree fs') p /\
    match e with
    | None => files (tree fs') !! p = Some (mkFile d m)
    | Some _ => written_some d m (files (tree fs') !! p)
    end;
  write_law fs p d : plain p -> let '(fs', e) := fs_write fs p d in
    only_at (tree fs) (tree fs') p /\
    match e with
    | None => exists m, files (tree fs') !! p = Some (mkFile d m)
    | Some _ => files (tree fs') !! p = files (tree fs) !! p \/ exists m, written_some d m (files (tree fs') !! p)
    end;
  remove_law fs p : plain p -> let '(fs', e) := fs_remove fs p in
    only_at (tree fs) (tree fs') p /\
    match e with
    | None => is_Some (files (tree fs) !! p) /\ files (tree fs') !! p = None
    | Some e => files (tree fs') !! p = files (tree fs) !! p /\ (not_found e = true -> files (tree fs) !! p = None)
    end;
  mkdir_law fs p : plain p -> let '(fs', e) := fs_mkdir fs p in
    files (tree fs') = files (tree fs) /\ dirs (tree fs) ⊆ dirs (tree fs') /\
    (forall q, q ∈ dirs (tree fs') -> q ∈ dirs (tree fs) \/ q `prefix_of` p) /\
    (e = None -> forall q, q `prefix_of` p -> q = [] \/ q ∈ dirs (tree fs'));
  rmdir_law fs p : plain p -> let '(fs', _) := fs_rmdir fs p in
    dirs (tree fs') ⊆ dirs (tree fs) /\
    forall q, files (tree fs') !! q = files (tree fs) !! q \/ p `prefix_of` q /\ q <> p /\ files (tree fs') !! q = None;
}.

(** ** std::io::Error *)

Inductive IoError (O : Type) :=
  | InvalidInput (message : bytes)
  | InvalidData
  | Os (e : O).
Arguments InvalidInput {O}. Arguments InvalidData {O}. Arguments Os {O}.

Section Io.
Context {F O : Type} `{FileSystem F O}.

(** [e.kind() == NotFound]. *)
Definition kind_not_found (e : IoError O) : bool := match e with Os e => not_found e | _ => false end.
Definition io {A} (r : O + A) : res (IoError O) A := match r with inl e => Err (Os e) | inr a => Ok a end.
(** A call that changes the files, with [?] on its error. *)
Definition did (x : F * option O) : F * res (IoError O) unit :=
  (x.1, match x.2 with Some e => Err (Os e) | None => Ok tt end).
Definition read_to_string (fs : F) (p : path) : res (IoError O) bytes :=
  let* d := io (fs_read fs p) in if utf8_valid d then Ok d else Err InvalidData.
End Io.

(** ** A disk that runs out of space *)

(** [k_space] more writes succeed; the next one leaves an empty file behind if the disk is
    [torn], and what was there otherwise. *)
Record Disk (torn : bool) := mkDisk { k_tree : Tree; k_space : nat }.
Arguments mkDisk {torn}. Arguments k_tree {torn}. Arguments k_space {torn}.

Inductive DiskError := Missing | NoSpace.

Section Disk.
Context {torn : bool}.

Definition with_files (d : Disk torn) (m : gmap path File) : Disk torn := mkDisk (mkTree m (dirs (k_tree d))) (k_space d).
Definition used (d : Disk torn) : Disk torn := mkDisk (k_tree d) (pred (k_space d)).
Definition mode_at (m : gmap path File) (p : path) (mode : Z) : Z := match m !! p with Some f => f_mode f | None => mode end.

Definition below (p q : path) : bool := bool_decide (p `prefix_of` q /\ q <> p).

(** The name of an entry of the directory [p]. *)
Definition child (p q : path) : option bytes :=
  match rev q with n :: r => if bool_decide (rev r = p /\ plain_name n) then Some n else None | [] => None end.

Definition entries_of (d : Disk torn) (p : path) : list (bytes * Kind) :=
  map (fun n => (n, IsFile)) (omap (child p) (elements (dom (files (k_tree d))))) ++
  map (fun n => (n, IsDir)) (omap (child p) (elements (dirs (k_tree d)))).

Definition ancestors (p : path) : list path := map (fun i => take i p) (seq 1 (length p)).

#[export] Instance disk_files : FileSystem (Disk torn) DiskError := {|
  fs_read d p := match files (k_tree d) !! p with Some f => inr (f_data f) | None => inl Missing end;
  fs_mode d p := match files (k_tree d) !! p with Some f => inr (f_mode f) | None => inl Missing end;
  fs_list d p := inr (entries_of d p);
  fs_open d p mode := (with_files d (<[p := mkFile [] (mode_at (files (k_tree d)) p mode)]> (files (k_tree d))), None);
  fs_chmod d p mode := match files (k_tree d) !! p with
                       | Some f => (with_files d (<[p := mkFile (f_data f) mode]> (files (k_tree d))), None)
                       | None => (d, Some Missing)
                       end;
  fs_fill d p data := match files (k_tree d) !! p, k_space d with
                      | Some f, S _ => (used (with_files d (<[p := mkFile data (f_mode f)]> (files (k_tree d)))), None)
                      | Some _, O => (d, Some NoSpace)
                      | None, _ => (d, Some Missing)
                      end;
  fs_write d p data := let put x := with_files d (<[p := mkFile x (mode_at (files (k_tree d)) p 0x1a4)]> (files (k_tree d))) in
                       match k_space d with
                       | S _ => (used (put data), None)
                       | O => (if torn then put [] else d, Some NoSpace)
                       end;
  fs_remove d p := if bool_decide (is_Some (files (k_tree d) !! p)) then (with_files d (delete p (files (k_tree d))), None)
                   else (d, Some Missing);
  fs_mkdir d p := (mkDisk (mkTree (files (k_tree d)) (list_to_set (ancestors p) ∪ dirs (k_tree d))) (k_space d), None);
  fs_rmdir d p := (mkDisk (mkTree (filter (fun x => below p x.1 = false) (files (k_tree d)))
                     (filter (fun q => bool_decide (p `prefix_of` q) = false) (dirs (k_tree d)))) (k_space d), None);
  not_found e := match e with Missing => true | NoSpace => false end;
  tree := k_tree;
|}.

Lemma if_both {A} (b : bool) (Q : A -> Prop) x y : Q x -> Q y -> Q (if b then x else y).
Proof. by destruct b. Qed.

Lemma child_spec p q n : child p q = Some n <-> q = p ++ [n] /\ plain_name n.
Proof.
  unfold child. split.
  - destruct (rev q) as [|m r] eqn:E; [done|]. case_bool_decide as Hb; [|done]. intros [= ->]. destruct Hb as [<- Hn].
    split; [|done]. by rewrite <- (rev_involutive q), E.
  - intros [-> Hn]. rewrite rev_app_distr. cbn. by rewrite rev_involutive, bool_decide_true.
Qed.

Lemma children_nodup p l : NoDup l -> NoDup (omap (child p) l).
Proof.
  induction 1 as [|q l Hq _ IH]; cbn; [constructor|]. destruct (child p q) as [n|] eqn:E; [|exact IH].
  constructor; [|exact IH]. rewrite list_elem_of_omap. intros (q' & Hq' & En). apply child_spec in E as [-> _], En as [-> _]. done.
Qed.

Lemma entries_law d p : NoDup (entries_of d p) /\ forall n k, (n, k) ∈ entries_of d p <->
  plain_name n /\ match k with IsFile => is_Some (files (k_tree d) !! (p ++ [n])) | IsDir => p ++ [n] ∈ dirs (k_tree d) end.
Proof.
  unfold entries_of. split.
  - apply NoDup_app. split_and!; [apply NoDup_fmap_2, children_nodup, NoDup_elements; congruence| |apply NoDup_fmap_2, children_nodup, NoDup_elements; congruence].
    intros [n k] (? & [= -> ->] & _)%list_elem_of_fmap (? & [=] & _)%list_elem_of_fmap.
  - intros n k. rewrite elem_of_app, !list_elem_of_fmap. setoid_rewrite list_elem_of_omap. setoid_rewrite child_spec. setoid_rewrite elem_of_elements.
    setoid_rewrite elem_of_dom. destruct k; naive_solver.
Qed.

Lemma only_at_insert d p f : only_at (k_tree d) (k_tree (with_files d (<[p := f]> (files (k_tree d))))) p.
Proof. split; [done|]. intros q Hq. cbn. by rewrite lookup_insert_ne. Qed.

Lemma ancestors_spec p q : q ∈ ancestors p <-> q `prefix_of` p /\ q <> [].
Proof.
  unfold ancestors. rewrite list_elem_of_fmap. setoid_rewrite elem_of_seq. split.
  - intros (i & -> & Hi). split; [apply prefix_take|]. destruct i, p; cbn in *; try done; lia.
  - intros [[r ->] Hq]. exists (length q). split; [by rewrite take_app_length|]. rewrite length_app. destruct q; [done|]. cbn. lia.
Qed.

#[export] Instance disk_laws : FileSystemLaws (Disk torn) DiskError.
Proof.
  split; cbn.
  - intros d p _. by destruct (files (k_tree d) !! p).
  - intros d p m f _ Hm E. rewrite E in Hm. by injection Hm as <-.
  - intros d p _. apply entries_law.
  - intros d p mode _. split; [apply only_at_insert|left]. rewrite lookup_insert_eq. eexists. split; [reflexivity|].
    unfold mode_at. destruct (files (k_tree d) !! p); [done|]. exists (-1). by rewrite Z.land_m1_r.
  - intros d p mode _. destruct (files (k_tree d) !! p) as [f|] eqn:E; [|by split; [|rewrite E]].
    split; [apply only_at_insert|]. cbn. by rewrite lookup_insert_eq.
  - intros d p data m _ E. rewrite E. destruct (k_space d); [split; [done|]; exists []; by split; [apply prefix_nil|]|].
    split; [apply only_at_insert|]. cbn. by rewrite lookup_insert_eq.
  - intros d p data _. destruct (k_space d); [|split; [apply only_at_insert|]; cbn; rewrite lookup_insert_eq; by eexists].
    apply (if_both torn (fun d' => only_at (k_tree d) (k_tree d') p /\ (files (k_tree d') !! p = files (k_tree d) !! p \/
      exists m, written_some data m (files (k_tree d') !! p)))); [|by split; [|left]].
    split; [apply only_at_insert|right]. cbn. rewrite lookup_insert_eq. eexists _, []. split; [apply prefix_nil|reflexivity].
  - intros d p _. case_bool_decide as Hp; cbn; [|split; [done|]; split; [done|]; by intros _; apply eq_None_not_Some].
    split; [split; [done|]; intros q Hq; cbn; by rewrite lookup_delete_ne|]. split; [done|]. apply lookup_delete_eq.
  - intros d p _. split; [done|]. split; [set_solver|]. split; [intros q; rewrite elem_of_union, elem_of_list_to_set, ancestors_spec; tauto|].
    intros _ q Hq. destruct (decide (q = [])); [by left|right]. rewrite elem_of_union, elem_of_list_to_set, ancestors_spec. by left.
  - intros d p _. split; [set_solver|]. intros q. rewrite map_lookup_filter. destruct (files (k_tree d) !! q) as [f|] eqn:E; [|by left]. cbn.
    unfold below. case_bool_decide; [right|left].
    + naive_solver.
    + by rewrite option_guard_True.
Qed.
End Disk.
