(* ===== verification/NativeStorage.v ===== *)
(** * NativeStorage: keys and values in files (zerotier-node: traits/storage.rs; zerotier-service:
    platform/storage.rs): the interface, the keys that name files, secrets that only their owner
    can read. *)
From S2P Require Export Files.

(** ** traits/storage.rs *)

Class KeyStorage (S E : Type) := {
  load : S -> bytes -> S * res E (option bytes);
  store : S -> bytes -> bytes -> S * res E unit;
  delete_key : S -> bytes -> S * res E unit;
  list_keys : S -> bytes -> res E (list bytes);
}.

(** Byte-wise order of strings. *)
Fixpoint bytes_leb (a b : bytes) : bool :=
  match a, b with
  | [], _ => true
  | _, [] => false
  | x :: a, y :: b => (u8 x <? u8 y) || ((u8 x =? u8 y) && bytes_leb a b)
  end.
Definition bytes_le (a b : bytes) : Prop := bytes_leb a b = true.
#[export] Instance bytes_le_dec : RelDecision bytes_le.
Proof. intros a b. unfold bytes_le. apply _. Defined.

#[export] Instance bytes_le_total : Total bytes_le.
Proof.
  unfold bytes_le. intros a b. revert b. induction a as [|x a IH]; intros [|y b]; cbn; try tauto. destruct (IH b); destruct (u8 x <? u8 y) eqn:E1, (u8 y <? u8 x) eqn:E2; cbn; try tauto;
    assert (u8 x =? u8 y = true) as -> by lia; assert (u8 y =? u8 x = true) as -> by lia; tauto.
Qed.

#[export] Instance bytes_le_trans : Transitive bytes_le.
Proof.
  unfold bytes_le. intros a. induction a as [|x a IH]; intros [|y b] [|z c]; cbn; try done.
  rewrite !orb_true_iff, !andb_true_iff, !Z.ltb_lt, !Z.eqb_eq. intros [?|[? H1]] [?|[? H2]]; try (left; lia). right. split; [lia|by eapply IH].
Qed.

(** A storage is a map from keys to values for the keys it supports: what a failed write leaves
    under its key is not promised. *)
Class KeyStorageLaws (S E : Type) `{KeyStorage S E} := {
  key_ok : bytes -> Prop;
  storage_ok : S -> Prop;
  kv : S -> bytes -> option bytes;
  load_ok s k : storage_ok s -> key_ok k -> let '(s', r) := load s k in
    storage_ok s' /\ (forall k', key_ok k' -> kv s' k' = kv s k') /\ wp r (fun v => v = kv s k) (fun _ => True);
  store_ok s k v : storage_ok s -> key_ok k -> let '(s', r) := store s k v in
    storage_ok s' /\ (forall k', key_ok k' -> k' <> k -> kv s' k' = kv s k') /\
    wp r (fun _ => kv s' k = Some v) (fun _ => True);
  delete_ok s k : storage_ok s -> key_ok k -> let '(s', r) := delete_key s k in
    storage_ok s' /\ (forall k', key_ok k' -> k' <> k -> kv s' k' = kv s k') /\
    wp r (fun _ => kv s' k = None) (fun _ => kv s' k = kv s k);
  list_ok s prefix : storage_ok s ->
    wp (list_keys s prefix)
      (fun l => StronglySorted bytes_le l /\ forall k, key_ok k -> k ∈ l <-> starts_with prefix k = true /\ is_Some (kv s k))
      (fun _ => True);
}.

Module NativeStorage.

(** ** std::path *)

Inductive Component := RootDir | CurDir | ParentDir | Normal (n : bytes).

(** A part after the first: repeated slashes and dots are skipped. *)
Definition part (p : bytes) : list Component :=
  if bool_decide (p = [] \/ p = str ".") then [] else if bool_decide (p = str "..") then [ParentDir] else [Normal p].

Definition components (s : bytes) : list Component :=
  match split_on "/"%byte s with
  | [] => []
  | [] :: ((_ :: _) as rest) => RootDir :: flat_map part rest
  | p :: rest => (if bool_decide (p = str ".") then [CurDir] else part p) ++ flat_map part rest
  end.

(** The names between the slashes, as text. *)
Fixpoint join_path (p : path) : bytes :=
  match p with
  | [] => []
  | n :: p => match p with [] => n | _ => n ++ "/"%byte :: join_path p end
  end.

Section Native.
Context {F O : Type} `{FileSystem F O}.
Abbreviation step A := (F * res (IoError O) A)%type.

(** The parts of the key below the base directory. *)
Definition resolve (key : bytes) : res (IoError O) path :=
  if bool_decide (key = []) then Err (InvalidInput (str "storage key cannot be empty"))
  else if forallb (fun c => match c with Normal _ => true | _ => false end) (components key) then Ok (split_on "/"%byte key)
  else Err (InvalidInput (str "unsupported storage key: " ++ key)).

(** [path.parent()]. *)
Definition parent (p : path) : path := removelast (filter (fun n => n <> [] /\ n <> str ".") p).

Definition is_secret_key (key : bytes) : bool := ends_with (str ".secret") key.

Definition write_private (fs : F) (p : path) (value : bytes) : step unit :=
  then_do (did (fs_open fs p 0x180)) (fun fs _ =>
  then_do (did (fs_chmod fs p 0x180)) (fun fs _ =>
  did (fs_fill fs p value))).

Definition tighten_private (fs : F) (p : path) : F :=
  match fs_mode fs p with
  | inl _ => fs
  | inr mode => if Z.land mode 0x3f =? 0 then fs else (fs_chmod fs p 0x180).1
  end.

Definition native_load (fs : F) (key : bytes) : step (option bytes) :=
  match resolve key with
  | Ok path =>
      match fs_read fs path with
      | inr bytes => (if is_secret_key key then tighten_private fs path else fs, Ok (Some bytes))
      | inl error => (fs, if not_found error then Ok None else Err (Os error))
      end
  | Err e => (fs, Err e)
  | Panic => (fs, Panic)
  | Hang => (fs, Hang)
  end.

Definition native_store (fs : F) (key value : bytes) : step unit :=
  then_do (fs, resolve key) (fun fs path =>
  then_do (did (fs_mkdir fs (parent path))) (fun fs _ =>
  if is_secret_key key then write_private fs path value else did (fs_write fs path value))).

Definition native_delete (fs : F) (key : bytes) : step unit :=
  then_do (fs, resolve key) (fun fs path =>
  match fs_remove fs path with
  | (fs, None) => (fs, Ok tt)
  | (fs, Some error) => (fs, if not_found error then Ok tt else Err (Os error))
  end).

(** [relative.to_string_lossy().replace('\\', "/")]. *)
Definition key_of (p : path) : bytes := map (fun c => if bool_decide (c = "\"%byte) then "/"%byte else c) (join_path p).

Section All.
Context {A B E : Type} (f : A -> res E (list B)).
Fixpoint collect_all (xs : list A) : res E (list B) :=
  match xs with
  | [] => Ok []
  | x :: xs => let* ys := f x in let* rest := collect_all xs in Ok (ys ++ rest)
  end.
End All.

Fixpoint collect_keys (fuel : nat) (fs : F) (dir : path) : res (IoError O) (list bytes) :=
  match fuel with
  | 0%nat => Hang
  | S fuel =>
      let* entries := io (fs_list fs dir) in
      collect_all (fun entry => match entry.2 with
                                | IsDir => collect_keys fuel fs (dir ++ [entry.1])
                                | IsFile => Ok [key_of (dir ++ [entry.1])]
                                end) entries
  end.

(** How deep the directories go: fuel for [collect_keys]. *)
Definition depth (t : Tree) : nat := max_list (map length (elements (dirs t))).

Definition native_list_keys (fs : F) (prefix : bytes) : res (IoError O) (list bytes) :=
  let* keys := collect_keys (S (depth (tree fs))) fs [] in
  Ok (merge_sort bytes_le (filter (fun key => starts_with prefix key = true) keys)).

#[export] Instance native_storage : KeyStorage F (IoError O) := {|
  load := native_load;
  store := native_store;
  delete_key := native_delete;
  list_keys := native_list_keys;
|}.
End Native.

(** ** Keys and paths *)

Lemma split_nonempty c s : split_on c s <> [].
Proof. destruct s as [|x s]; cbn; [done|]. case_bool_decide; [done|]. by destruct (split_on c s). Qed.

Lemma split_no_sep c s : Forall (fun n => c ∉ n) (split_on c s).
Proof.
  induction s as [|x s IH]; cbn; [repeat constructor; apply not_elem_of_nil|]. case_bool_decide as Hx.
  - constructor; [apply not_elem_of_nil|exact IH].
  - destruct (split_on c s) as [|p ps]; [by repeat constructor; rewrite list_elem_of_singleton|].
    apply Forall_cons in IH as [Hp Hps]. constructor; [|done]. by apply not_elem_of_cons.
Qed.

Lemma join_split s : join_path (split_on "/"%byte s) = s.
Proof.
  induction s as [|x s IH]; [done|]. cbn [split_on]. pose proof (split_nonempty "/"%byte s) as Hn.
  destruct (split_on "/"%byte s) as [|p ps]; [done|]. case_bool_decide as Hx.
  - subst x. cbn [join_path app]. by f_equal.
  - destruct ps; cbn [join_path app] in *; by rewrite IH.
Qed.

Lemma split_join p : p <> [] -> Forall (fun n => "/"%byte ∉ n) p -> split_on "/"%byte (join_path p) = p.
Proof.
  intros Hp Hall. induction Hall as [|n p Hn Hall IH]; [done|]. destruct p as [|m p]; [by apply split_on_single|].
  cbn [join_path] in *. rewrite split_on_app by done. f_equal. by apply IH.
Qed.

Lemma split_inj a b : split_on "/"%byte a = split_on "/"%byte b -> a = b.
Proof. intros Hs. by rewrite <- (join_split a), <- (join_split b), Hs. Qed.

Lemma plain_no_slash p : plain p -> Forall (fun n => "/"%byte ∉ n) p.
Proof. intros Hp. eapply Forall_impl; [exact Hp|]. by intros n (_ & _ & _ & ? & _). Qed.

Lemma elem_join c p n : c ∈ n -> n ∈ p -> c ∈ join_path p.
Proof.
  intros Hc. induction p as [|m p IH]; [by intros ?%elem_of_nil|]. intros [->|Hn]%elem_of_cons.
  - destruct p; [done|]. cbn [join_path]. apply elem_of_app. by left.
  - specialize (IH Hn). destruct p; [by apply elem_of_nil in Hn|]. cbn [join_path] in *. apply elem_of_app. right. by right.
Qed.

Lemma join_elem c p : c ∈ join_path p -> c = "/"%byte \/ exists n, n ∈ p /\ c ∈ n.
Proof.
  induction p as [|m p IH]; [by intros ?%elem_of_nil|]. destruct p as [|m' p].
  - intros Hc. right. exists m. by split; [left|].
  - cbn [join_path]. rewrite elem_of_app, elem_of_cons. intros [Hc|[->|Hc]]; [right; exists m; by split; [left|]|by left|].
    destruct (IH Hc) as [?|(n & Hn & Hc')]; [by left|right]. exists n. by split; [right|].
Qed.

(** Keys of plain names without a backslash. *)
Definition native_key (key : bytes) : Prop := plain (split_on "/"%byte key) /\ "\"%byte ∉ key.
#[export] Instance native_key_dec key : Decision (native_key key).
Proof. unfold native_key. apply _. Defined.

Lemma plain_part n : plain_name n -> part n = [Normal n].
Proof. intros (? & ? & ? & _). unfold part. by rewrite !bool_decide_false by naive_solver. Qed.

Lemma plain_components key : plain (split_on "/"%byte key) -> components key = map Normal (split_on "/"%byte key).
Proof.
  assert (forall ps, plain ps -> flat_map part ps = map Normal ps) as Hparts.
  { induction 1 as [|n ps Hn _ IH]; [done|]. cbn [flat_map map]. by rewrite plain_part, IH. }
  unfold components. intros Hp. destruct (split_on "/"%byte key) as [|n ps]; [done|].
  apply Forall_cons in Hp as [Hn Hps]. destruct n as [|c n]; [by destruct Hn|]. pose proof Hn as (_ & Hdot & _).
  rewrite bool_decide_false by done. by rewrite plain_part, Hparts.
Qed.

Lemma resolve_plain {O} key : plain (split_on "/"%byte key) -> resolve (O := O) key = Ok (split_on "/"%byte key).
Proof.
  intros Hp. unfold resolve. rewrite bool_decide_false by by intros ->; apply Forall_inv in Hp as []. rewrite plain_components by done.
  rewrite if_true; [done|]. clear Hp. by induction (split_on _ key).
Qed.

Lemma parent_plain p : plain p -> parent p = removelast p.
Proof.
  intros Hp. unfold parent. f_equal. induction Hp as [|n p Hn _ IH]; [done|]. rewrite filter_cons, decide_True by by destruct Hn as (? & ? & _).
  by rewrite IH.
Qed.

(** ** Keys stay below the base directory *)

(** Where the operating system gets to, name by name; [None] above the directory it started in. *)
Fixpoint walk (at_ : path) (p : path) : option path :=
  match p with
  | [] => Some at_
  | n :: p =>
      if bool_decide (n = [] \/ n = str ".") then walk at_ p
      else if bool_decide (n = str "..") then match at_ with [] => None | _ => walk (removelast at_) p end
      else walk (at_ ++ [n]) p
  end.

(** A key that is accepted names something strictly below the base directory. *)
Theorem resolve_contained {O} (key : bytes) (p : path) : resolve (O := O) key = Ok p ->
  head key <> Some "/"%byte /\ exists q, walk [] p = Some q /\ q <> [].
Proof.
  unfold resolve. case_bool_decide as Hk; [done|]. destruct (forallb _ _) eqn:Hc; [|done]. intros [= <-].
  assert (forall ps at_, forallb (fun c => match c with Normal _ => true | _ => false end) (flat_map part ps) = true ->
    exists r, walk at_ ps = Some (at_ ++ r)) as Hwalk.
  { induction ps as [|n ps IH]; intros at_ Hp; [exists []; by rewrite app_nil_r|]. cbn [flat_map] in Hp. rewrite forallb_app in Hp.
    apply andb_true_iff in Hp as [Hn Hp]. cbn [walk]. unfold part in Hn. case_bool_decide; [by apply IH|].
    case_bool_decide; [done|]. destruct (IH (at_ ++ [n]) Hp) as [r ->]. exists (n :: r). by rewrite <- app_assoc. }
  unfold components in Hc. pose proof (join_split key) as Hj. pose proof (split_no_sep "/"%byte key) as Hall.
  destruct (split_on "/"%byte key) as [|n ps]; [by subst|]. destruct n as [|c n]; [by destruct ps; [|cbn in Hc]; subst|].
  apply Forall_inv, not_elem_of_cons in Hall as [Hc0 _].
  rewrite forallb_app in Hc. apply andb_true_iff in Hc as [Hn Hps]. split.
  - rewrite <- Hj. destruct ps; cbn; congruence.
  - case_bool_decide; [done|]. unfold part in Hn. cbn [walk]. rewrite bool_decide_false in Hn by naive_solver.
    rewrite bool_decide_false by naive_solver. case_bool_decide; [done|].
    destruct (Hwalk ps ([] ++ [c :: n]) Hps) as [r ->]. by eexists.
Qed.

(** ** A map from keys to values *)

Section Laws.
Context {F O : Type} `{FileSystemLaws F O}.

(** Files have plain names without a backslash, in directories that are there. *)
Definition tidy (t : Tree) : Prop := forall p, is_Some (files t !! p) ->
  p <> [] /\ plain p /\ Forall (fun n => "\"%byte ∉ n) p /\ forall q, q `prefix_of` p -> q <> [] -> q <> p -> q ∈ dirs t.

Definition native_kv (fs : F) (key : bytes) : option bytes := f_data <$> files (tree fs) !! split_on "/"%byte key.

Lemma collect_all_elem {A B E} (f : A -> res E (list B)) (φ : A -> B -> Prop) xs R :
  (forall x, x ∈ xs -> wp (f x) (fun l => forall k, k ∈ l <-> φ x k) R) ->
  wp (collect_all f xs) (fun l => forall k, k ∈ l <-> exists x, x ∈ xs /\ φ x k) R.
Proof.
  induction xs as [|x xs IH]; intros Hf; cbn [collect_all].
  - intros k. rewrite elem_of_nil. split; [done|]. by intros (x & ?%elem_of_nil & _).
  - apply wp_bind. eapply wp_mono; [apply Hf; left| |done]. intros l Hl. apply wp_bind.
    eapply wp_mono; [apply IH; intros y Hy; apply Hf; by right| |done]. intros l' Hl'. cbv beta in Hl, Hl'. cbn. intros k. rewrite elem_of_app, Hl, Hl'.
    setoid_rewrite elem_of_cons. naive_solver.
Qed.

(** The files below [dir] that every directory on the way leads to. *)
Definition reached (t : Tree) (dir : path) (k : bytes) : Prop := exists r, r <> [] /\ plain r /\ is_Some (files t !! (dir ++ r)) /\
  (forall q, q `prefix_of` r -> q <> [] -> q <> r -> dir ++ q ∈ dirs t) /\ k = key_of (dir ++ r).

Lemma depth_bound (t : Tree) p : p ∈ dirs t -> (length p <= depth t)%nat.
Proof. intros Hp. apply max_list_elem_of_le, list_elem_of_fmap. exists p. split; [done|by apply elem_of_elements]. Qed.

Lemma reached_step (t : Tree) dir k : reached t dir k <->
  exists n, plain_name n /\ (is_Some (files t !! (dir ++ [n])) /\ k = key_of (dir ++ [n]) \/ dir ++ [n] ∈ dirs t /\ reached t (dir ++ [n]) k).
Proof.
  split.
  - intros (r & Hr & Hp & Hf & Hd & ->). destruct r as [|n r]; [done|]. apply Forall_cons in Hp as [Hn Hp]. exists n. split; [done|].
    destruct r as [|m r]; [by left|right]. split; [apply (Hd [n]); [by exists (m :: r)|done..]|].
    exists (m :: r). rewrite <- app_assoc. split_and!; [done..| |done]. intros q Hq Hne Hnr. rewrite <- app_assoc. apply (Hd ([n] ++ q)); [|done|cbn; congruence].
    destruct Hq as [k0 ->]. by exists k0.
  - intros (n & Hn & [[Hf ->]|(Hd & r & Hr & Hp & Hf & Hds & ->)]).
    + exists [n]. split_and!; [done|by constructor|done| |done]. intros q [q' Hq] Hne Hnr. destruct q as [|x [|]]; [done| |by injection Hq].
      by injection Hq as <- <-.
    + exists (n :: r). rewrite <- app_assoc in Hf. split_and!; [done|by constructor|exact Hf| |by rewrite <- app_assoc]. intros q [q' Hq] Hne Hnr.
      destruct q as [|x q]; [done|]. injection Hq as <- Hq. destruct (decide (q = [])) as [->|Hq0]; [done|].
      specialize (Hds q ltac:(by exists q') Hq0 ltac:(congruence)). by rewrite <- app_assoc in Hds.
Qed.

Lemma collect_spec fs fuel dir : plain dir -> (depth (tree fs) < length dir + fuel)%nat -> (length dir <= depth (tree fs))%nat ->
  wp (collect_keys fuel fs dir) (fun l => forall k, k ∈ l <-> reached (tree fs) dir k) (fun _ => True).
Proof.
  revert dir. induction fuel as [|fuel IH]; intros dir Hdir Hfuel Hlen; [lia|]. cbn [collect_keys]. apply wp_bind.
  pose proof (list_law fs dir Hdir) as Hl. destruct (fs_list fs dir) as [e|entries]; [done|]. cbn. destruct Hl as [_ Hl].
  eapply wp_mono; [apply (collect_all_elem _ (fun e k => match e.2 with
    | IsDir => reached (tree fs) (dir ++ [e.1]) k
    | IsFile => k = key_of (dir ++ [e.1])
    end))| |done].
  - intros [n k] Hin. apply Hl in Hin as [Hn Hk]. destruct k; cbn [fst snd]; [cbn; intros k; by rewrite list_elem_of_singleton|].
    pose proof (depth_bound _ _ Hk) as Hb. rewrite length_app in Hb. cbn in Hb. apply IH; [by apply Forall_app_2; [|constructor]|rewrite length_app; cbn; lia..].
  - intros l Hk k. cbv beta in Hk. rewrite Hk, reached_step. split.
    + intros ([n []] & Hin & He); apply Hl in Hin as [Hn Hin]; exists n; (split; [done|]); cbn in He; [by left|by right].
    + intros (n & Hn & [[Hf ->]|[Hd Hr]]); [exists (n, IsFile)|exists (n, IsDir)]; (split; [by apply Hl|done]).
Qed.

Lemma key_of_plain p : Forall (fun n => "\"%byte ∉ n) p -> key_of p = join_path p.
Proof.
  intros Hp. unfold key_of. rewrite <- (map_id (join_path p)) at 2. apply map_ext_in. intros c Hc%list_elem_of_In. case_bool_decide as Hb; [|done].
  subst c. apply join_elem in Hc as [|(n & Hn & Hc)]; [done|]. rewrite Forall_forall in Hp. by destruct (Hp n Hn).
Qed.

Lemma reached_tidy t k : tidy t -> native_key k -> reached t [] k <-> is_Some (files t !! split_on "/"%byte k).
Proof.
  intros Ht [Hp Hb]. split.
  - intros (r & Hr & Hpl & Hf & _ & ->). cbn [app] in *. destruct (Ht r Hf) as (_ & _ & Hnb & _). rewrite key_of_plain by done.
    by rewrite split_join by (done || by apply plain_no_slash).
  - intros Hf. destruct (Ht _ Hf) as (Hne & _ & Hnb & Hd). exists (split_on "/"%byte k). split_and!; [done..|].
    cbn [app]. by rewrite key_of_plain, join_split.
Qed.

(** ** The operations *)

Definition kept (fs fs' : F) (p : path) : Prop := only_at (tree fs) (tree fs') p.

Lemma kept_kv fs fs' key : kept fs fs' (split_on "/"%byte key) -> forall k, k <> key -> native_kv fs' k = native_kv fs k.
Proof. intros [_ Hf] k Hk. unfold native_kv. rewrite Hf; [done|]. by intros ?%split_inj. Qed.

Lemma kept_trans fs1 fs2 fs3 p : kept fs1 fs2 p -> kept fs2 fs3 p -> kept fs1 fs3 p.
Proof. intros [D1 F1] [D2 F2]. split; [by rewrite D2|]. intros q Hq. by rewrite F2, F1. Qed.

(** A path whose directories are there. *)
Definition housed (t : Tree) (p : path) : Prop :=
  p <> [] /\ plain p /\ Forall (fun n => "\"%byte ∉ n) p /\ forall q, q `prefix_of` p -> q <> [] -> q <> p -> q ∈ dirs t.

Lemma kept_tidy fs fs' p : tidy (tree fs) -> kept fs fs' p -> housed (tree fs) p \/ files (tree fs') !! p = None -> tidy (tree fs').
Proof.
  intros Ht [Hd Hf] Hp q Hq. rewrite Hd. destruct (decide (q = p)) as [->|Hne]; [|apply Ht; by rewrite <- Hf].
  destruct Hp as [Hp|Hp]; [exact Hp|]. rewrite Hp in Hq. by destruct Hq.
Qed.

Lemma native_path key : native_key key -> let p := split_on "/"%byte key in p <> [] /\ plain p /\ Forall (fun n => "\"%byte ∉ n) p.
Proof.
  intros [Hp Hb]. split_and!; [apply split_nonempty|exact Hp|]. apply Forall_forall. intros n Hn Hc. apply Hb.
  rewrite <- (join_split key). by eapply elem_join.
Qed.

Lemma tighten_keeps fs p : plain p -> kept fs (tighten_private fs p) p /\
  f_data <$> files (tree (tighten_private fs p)) !! p = f_data <$> files (tree fs) !! p.
Proof.
  intros Hp. unfold tighten_private. destruct (fs_mode fs p) as [e|m]; [by split|]. destruct (_ =? _); [by split|].
  pose proof (chmod_law fs p 0x180 Hp) as Hc. destruct (fs_chmod fs p 0x180) as [fs' e]. destruct Hc as [Hk Hf]. cbn.
  split; [exact Hk|]. rewrite Hf. destruct e; [done|]. by destruct (files (tree fs) !! p).
Qed.

Lemma load_spec fs key : tidy (tree fs) -> native_key key -> let '(fs', r) := native_load fs key in
  tidy (tree fs') /\ (forall k, native_kv fs' k = native_kv fs k) /\ wp r (fun v => v = native_kv fs key) (fun _ => True).
Proof.
  intros Ht Hk. destruct (native_path key Hk) as (Hne & Hp & _). unfold native_load. rewrite resolve_plain by done.
  pose proof (read_law fs _ Hp) as Hr. destruct (fs_read fs (split_on "/"%byte key)) as [e|v].
  - split; [done|]. split; [done|]. destruct (not_found e); [|done]. cbn. unfold native_kv. by rewrite Hr.
  - destruct (is_secret_key key); [|by split_and!]. destruct (tighten_keeps fs _ Hp) as [Hkept Hd]. split; [|split; [|by cbn]].
    + eapply kept_tidy; [exact Ht|exact Hkept|]. destruct (files (tree fs) !! split_on "/"%byte key) as [f|] eqn:E; [left; apply Ht; by eexists|done].
    + intros k. destruct (decide (k = key)) as [->|Hn]; [exact Hd|by eapply kept_kv].
Qed.

Lemma write_private_spec fs p v : plain p -> let '(fs', r) := write_private fs p v in
  kept fs fs' p /\ wp r (fun _ => files (tree fs') !! p = Some (mkFile v 0x180)) (fun _ => True) /\
  forall f, files (tree fs') !! p = Some f -> f_data f = [] \/ f_mode f = 0x180 \/ files (tree fs) !! p = Some f.
Proof.
  intros Hp. unfold write_private. pose proof (open_law fs p 0x180 Hp) as Ho. destruct (fs_open fs p 0x180) as [fs1 e1]. destruct Ho as [K1 Ho].
  assert (forall f, files (tree fs1) !! p = Some f -> f_data f = [] \/ files (tree fs) !! p = Some f) as Hold.
  { intros f Hf. destruct Ho as [(m & Hm & _)|[_ <-]]; [left|by right]. rewrite Hf in Hm. by injection Hm as ->. }
  destruct e1 as [e1|]; cbn [did then_do fst snd]; [split; [exact K1|]; split; [done|]; intros f Hf; destruct (Hold f Hf); tauto|].
  destruct Ho as [(m & Hm & _)|[[? [=]] _]]. pose proof (chmod_law fs1 p 0x180 Hp) as Hc. destruct (fs_chmod fs1 p 0x180) as [fs2 e2].
  destruct Hc as [K2 Hc]. pose proof (kept_trans _ _ _ _ K1 K2) as K12. rewrite Hm in Hc.
  destruct e2 as [e2|]; cbn [did then_do fst snd]; [split; [exact K12|]; split; [done|]; intros f; rewrite Hc; intros [= <-]; by left|].
  cbn in Hc. pose proof (fill_law fs2 p v 0x180 Hp Hc) as Hf. destruct (fs_fill fs2 p v) as [fs3 e3]. destruct Hf as [K3 Hf].
  split; [by eapply kept_trans|]. destruct e3 as [e3|]; cbn.
  - split; [done|]. destruct Hf as (d & _ & ->). intros f [= <-]. tauto.
  - split; [done|]. rewrite Hf. intros f [= <-]. tauto.
Qed.

Lemma prefix_removelast {A} (q p : list A) : q `prefix_of` p -> q <> p -> q `prefix_of` removelast p.
Proof.
  intros [r ->] Hne. destruct r as [|x r] using rev_ind; [by rewrite app_nil_r in Hne|]. rewrite app_assoc, removelast_last. by exists r.
Qed.

Lemma store_spec fs key v : tidy (tree fs) -> native_key key -> let '(fs', r) := native_store fs key v in
  tidy (tree fs') /\ (forall k, k <> key -> native_kv fs' k = native_kv fs k) /\ wp r (fun _ => native_kv fs' key = Some v) (fun _ => True).
Proof.
  intros Ht Hk. destruct (native_path key Hk) as (Hne & Hp & Hb). unfold native_store. rewrite resolve_plain by done. cbn [then_do].
  rewrite parent_plain by done. set (p := split_on "/"%byte key) in *.
  assert (plain (removelast p)) as Hpar.
  { destruct (exists_last Hne) as (q & x & Eq). rewrite Eq in *. rewrite removelast_last. by apply Forall_app in Hp as [? _]. }
  pose proof (mkdir_law fs _ Hpar) as Hm. destruct (fs_mkdir fs (removelast p)) as [fs1 e1]. destruct Hm as (Hf & Hd & _ & Hall).
  assert (forall k, native_kv fs1 k = native_kv fs k) as Hkv by (intros k; unfold native_kv; by rewrite Hf).
  assert (tidy (tree fs1)) as Ht1.
  { intros q Hq. rewrite Hf in Hq. destruct (Ht q Hq) as (? & ? & ? & Hq'). split_and!; [done..|]. intros q' ? ? ?. by apply Hd, Hq'. }
  destruct e1 as [e1|]; cbn [did then_do fst snd]; [by split_and!|].
  assert (housed (tree fs1) p) as Hh.
  { split_and!; [done..|]. intros q Hq Hq0 Hqp. destruct (Hall eq_refl q) as [?|?]; [by apply prefix_removelast|done|done]. }
  assert (forall fs2 r, kept fs1 fs2 p -> wp r (fun _ : unit => f_data <$> files (tree fs2) !! p = Some v) (fun _ : IoError O => True) ->
    tidy (tree fs2) /\ (forall k, k <> key -> native_kv fs2 k = native_kv fs k) /\ wp r (fun _ => native_kv fs2 key = Some v) (fun _ => True)) as Hdone.
  { intros fs2 r K Hr. split; [eapply kept_tidy; [exact Ht1|exact K|by left]|]. split; [|exact Hr]. intros k Hkk. rewrite <- Hkv. by eapply kept_kv. }
  destruct (is_secret_key key).
  - pose proof (write_private_spec fs1 p v Hp) as Hw. destruct (write_private fs1 p v) as [fs2 r]. destruct Hw as (K & Hr & _).
    apply Hdone; [exact K|]. eapply wp_mono; [exact Hr| |done]. intros ? E. cbv beta in E |- *. by rewrite E.
  - pose proof (write_law fs1 p v Hp) as Hw. destruct (fs_write fs1 p v) as [fs2 e2]. destruct Hw as [K Hr]. apply Hdone; [exact K|].
    destruct e2; [done|]. destruct Hr as [m Hr]. cbn. by rewrite Hr.
Qed.

Lemma delete_spec fs key : tidy (tree fs) -> native_key key -> let '(fs', r) := native_delete fs key in
  tidy (tree fs') /\ (forall k, k <> key -> native_kv fs' k = native_kv fs k) /\
  wp r (fun _ => native_kv fs' key = None) (fun _ => native_kv fs' key = native_kv fs key).
Proof.
  intros Ht Hk. destruct (native_path key Hk) as (Hne & Hp & Hb). unfold native_delete. rewrite resolve_plain by done. cbn [then_do].
  set (p := split_on "/"%byte key) in *. pose proof (remove_law fs p Hp) as Hr. destruct (fs_remove fs p) as [fs1 e1]. destruct Hr as [K Hr].
  unfold native_kv. fold p. destruct e1 as [e1|]; (split; [|split; [by eapply kept_kv|]]).
  - eapply kept_tidy; [exact Ht|exact K|]. destruct (files (tree fs) !! p) as [f|] eqn:E; [left; apply Ht; by eexists|right; by rewrite (proj1 Hr)].
  - destruct Hr as [Hr Hn]. rewrite Hr. destruct (not_found e1); cbn; [by rewrite Hn|done].
  - eapply kept_tidy; [exact Ht|exact K|right; apply Hr].
  - cbn. by rewrite (proj2 Hr).
Qed.

Lemma list_spec fs prefix : tidy (tree fs) ->
  wp (native_list_keys fs prefix)
    (fun l => StronglySorted bytes_le l /\ forall k, native_key k -> k ∈ l <-> starts_with prefix k = true /\ is_Some (native_kv fs k))
    (fun _ => True).
Proof.
  intros Ht. unfold native_list_keys. apply wp_bind. eapply wp_mono; [apply (collect_spec fs _ []); [by constructor|cbn; lia..]| |done].
  intros keys Hk. apply wp_ret. split; [apply (StronglySorted_merge_sort _ _)|]. intros k Hkey. rewrite (merge_sort_Permutation bytes_le), list_elem_of_filter.
  cbv beta in Hk. rewrite Hk, reached_tidy by done. unfold native_kv. by rewrite fmap_is_Some.
Qed.

(** The service's storage is what its interface promises. *)
#[export] Instance native_storage_laws : KeyStorageLaws F (IoError O).
Proof.
  refine {| key_ok := native_key; storage_ok fs := tidy (tree fs); kv := native_kv |}.
  - intros fs k Ht Hk. pose proof (load_spec fs k Ht Hk) as Hl. change (load fs k) with (native_load fs k). destruct (native_load fs k) as [fs' r]. destruct Hl as (? & ? & ?).
    by split_and!.
  - intros fs k v Ht Hk. pose proof (store_spec fs k v Ht Hk) as Hl. change (store fs k v) with (native_store fs k v). destruct (native_store fs k v) as [fs' r]. destruct Hl as (? & ? & ?).
    split_and!; auto.
  - intros fs k Ht Hk. pose proof (delete_spec fs k Ht Hk) as Hl. change (delete_key fs k) with (native_delete fs k). destruct (native_delete fs k) as [fs' r]. destruct Hl as (? & ? & ?).
    split_and!; auto.
  - intros fs prefix Ht. by apply list_spec.
Defined.

(** C39. A secret is never readable by others. Wherever the writing of a secret value fails, the file
    under its key is what it was, or empty, or its owner's alone; written, it holds the value and
    is its owner's alone. What is read of a file that others can read is made its owner's alone,
    if the system allows it. *)
Theorem secrets_stay_private (fs : F) (key value : bytes) : native_key key -> is_secret_key key = true ->
  let p := split_on "/"%byte key in
  (let '(fs', r) := native_store fs key value in
   (r = Ok tt -> files (tree fs') !! p = Some (mkFile value 0x180)) /\
   forall f, files (tree fs') !! p = Some f -> f_data f = [] \/ f_mode f = 0x180 \/ files (tree fs) !! p = Some f) /\
  (let '(fs', r) := native_load fs key in
   forall f, r = Ok (Some (f_data f)) -> files (tree fs') !! p = Some f ->
     Z.land (f_mode f) 0x3f = 0 \/ (exists e, fs_mode fs p = inl e) \/ (exists e, (fs_chmod fs p 0x180).2 = Some e)).
Proof.
  intros Hk Hsec p. destruct (native_path key Hk) as (Hne & Hp & Hb). fold p in Hne, Hp, Hb. split.
  - unfold native_store. rewrite resolve_plain by done. cbn [then_do]. fold p. rewrite parent_plain by done.
    assert (plain (removelast p)) as Hpar.
    { destruct (exists_last Hne) as (q & x & Eq). rewrite Eq in Hp |- *. rewrite removelast_last. by apply Forall_app in Hp as [? _]. }
    pose proof (mkdir_law fs _ Hpar) as Hm. destruct (fs_mkdir fs (removelast p)) as [fs1 e1]. destruct Hm as (Hf & _).
    destruct e1 as [e1|]; cbn [did then_do fst snd]; [split; [done|]; rewrite Hf; tauto|]. rewrite Hsec.
    pose proof (write_private_spec fs1 p value Hp) as Hw. destruct (write_private fs1 p value) as [fs2 r]. destruct Hw as (_ & Hr & Hx).
    rewrite <- Hf. split; [|exact Hx]. intros ->. exact Hr.
  - unfold native_load. rewrite resolve_plain by done. fold p. destruct (fs_read fs p) as [e|v] eqn:Er.
    { intros f. by destruct (not_found e). }
    rewrite Hsec. intros f [= Hv] Hf. unfold tighten_private in Hf. destruct (fs_mode fs p) as [e|m] eqn:Em; [right; left; by eexists|].
    destruct (Z.land m 0x3f =? 0) eqn:E0.
    + left. pose proof (mode_law fs p m f Hp Em Hf) as Hmode. apply Z.eqb_eq in E0.
      assert (Z.land (Z.land (f_mode f) 0x1ff) 0x3f = 0) as Hz by by rewrite <- Hmode, <- Z.land_assoc.
      by rewrite <- Z.land_assoc in Hz.
    + pose proof (chmod_law fs p 0x180 Hp) as Hc. destruct (fs_chmod fs p 0x180) as [fs2 [e2|]]; [right; right; by eexists|left].
      destruct Hc as [_ Hc]. cbn in Hf. rewrite Hf in Hc. destruct (files (tree fs) !! p); [|done]. by injection Hc as ->.
Qed.

End Laws.

(** ** A token on a disk with little space *)

Definition sample_disk (space : nat) : Disk true := mkDisk (mkTree ∅ ∅) space.
Definition token_key : bytes := str "authtoken.secret".

(** The token is written, listed and read back; a key that leaves the directory is refused; a
    write without space leaves an empty file. *)
Example token_kept :
  let '(d, r) := store (sample_disk 1) token_key (str "token") in
  r = Ok tt /\ (load d token_key).2 = Ok (Some (str "token")) /\ list_keys d (str "auth") = Ok [token_key] /\
  (load d (str "../token")).2 = Err (InvalidInput (str "unsupported storage key: ../token")) /\
  (let '(d', r') := store d (str "a/b") (str "x") in r' = Err (Os NoSpace) /\ (load d' (str "a/b")).2 = Ok (Some [])) /\
  (files (tree d) !! [token_key]) = Some (mkFile (str "token") 0x180).
Proof. vm_compute. repeat split. Qed.

(** A key with a backslash is listed under a name that is not its own. *)
Example backslash_lost :
  let '(d, r) := store (sample_disk 1) (str "a\b") (str "x") in
  r = Ok tt /\ list_keys d [] = Ok [str "a/b"] /\ (load d (str "a/b")).2 = Ok None.
Proof. vm_compute. repeat split. Qed.

Lemma secrets_stay_private_witness :
  let x := native_store (sample_disk 1) token_key (str "token") in
  x.2 = Ok tt /\ files (tree x.1) !! [token_key] = Some (mkFile (str "token") 0x180).
Proof.
  assert (native_key token_key) as Hk by (apply (bool_decide_unpack _); by vm_compute).
  pose proof (secrets_stay_private (sample_disk 1) token_key (str "token") Hk ltac:(by vm_compute)) as [Hs _]. cbv zeta in Hs |- *.
  assert ((native_store (sample_disk 1) token_key (str "token")).2 = Ok tt) as Hr by by vm_compute.
  split; [exact Hr|]. rewrite (surjective_pairing (native_store (sample_disk 1) token_key (str "token"))) in Hs.
  exact (proj1 Hs Hr).
Defined.
End NativeStorage.
