(* ===== verification/Protocol.v ===== *)
(** * Protocol: constants, error types, verbs and the packet headers
    (zerotier-protocol: constants.rs, error.rs, verb.rs, header.rs;
    zerotier-crypto: error.rs). *)
From S2P Require Export Bytes.

(** ** constants.rs *)

Definition ZT_PROTO_VERSION : Z := 12.
Definition ZT_PROTO_VERSION_MIN : Z := 4.
Definition ZT_PROTO_MIN_PACKET_LENGTH : Z := 28.
Definition ZT_PROTO_MIN_FRAGMENT_LENGTH : Z := 16.
Definition ZT_MAX_PACKET_FRAGMENTS : Z := 7.
Definition ZT_RELAY_MAX_HOPS : Z := 3.
Definition CIPHER_SUITE_C25519_POLY1305_NONE : Z := 0.
Definition CIPHER_SUITE_C25519_POLY1305_SALSA2012 : Z := 1.
Definition CIPHER_SUITE_NO_CRYPTO_TRUSTED_PATH : Z := 2.
Definition CIPHER_SUITE_AES_GMAC_SIV : Z := 3.
Definition FLAG_FRAGMENTED : Z := 0x40.
Definition VERB_FLAG_COMPRESSED : Z := 0x80.
Definition FRAGMENT_INDICATOR : Z := 0xff.
Definition ZT_PACKET_IDX_VERB : Z := 27.
Definition ZT_PACKET_IDX_PAYLOAD : Z := 28.
Definition ZT_PATH_HEARTBEAT_PERIOD : Z := 14000.
Definition ZT_PEER_PING_PERIOD : Z := 60000.
Definition ZT_PEER_PATH_EXPIRATION : Z := 243000.
Definition ZT_PEER_ACTIVITY_TIMEOUT : Z := 500000.
Definition ZT_PATH_HELLO_RATE_LIMIT : Z := 1000.
Definition ZT_DIRECT_PATH_PUSH_INTERVAL : Z := 30000.
Definition WORLD_MAX_ROOTS : Z := 4.
Definition WORLD_MAX_ENDPOINTS_PER_ROOT : Z := 32.
Definition WORLD_ID_EARTH : Z := 149604618.

(** ** Errors *)

Inductive CryptoError : Type :=
  | InvalidFormat
  | UnsupportedIdentityType
  | InvalidKeyLength
  | CryptoInvalidAddress
  | PoWFailed
  | MacVerificationFailed
  | EncryptionError
  | SignatureError
  | KeyAgreementError
  | CryptoTooShort.

#[export] Instance CryptoError_eq_dec : EqDecision CryptoError.
Proof. solve_decision. Defined.

Inductive ProtocolError : Type :=
  | TooShort (need got : Z)
  | InvalidPacket
  | InvalidFragment
  | InvalidAddress
  | InvalidVerb (b : byte)
  | FragmentTimeout
  | UnsupportedVersion (b : byte)
  | PCryptoError (e : CryptoError).

#[export] Instance ProtocolError_eq_dec : EqDecision ProtocolError.
Proof. solve_decision. Defined.

(** ** verb.rs *)

Inductive Verb : Type :=
  | Nop | Hello | VError | VOk | Whois | Rendezvous | Frame | ExtFrame | Echo
  | MulticastLike | NetworkCredentials | NetworkConfigRequest | NetworkConfig
  | MulticastGather | MulticastFrame | PushDirectPaths | Ack | QosMeasurement
  | UserMessage | RemoteTrace | PathNegotiationRequest.

#[export] Instance Verb_eq_dec : EqDecision Verb.
Proof. solve_decision. Defined.

Module VerbOps.

Definition all_verbs : list Verb :=
  [Nop; Hello; VError; VOk; Whois; Rendezvous; Frame; ExtFrame; Echo; MulticastLike;
   NetworkCredentials; NetworkConfigRequest; NetworkConfig; MulticastGather;
   MulticastFrame; PushDirectPaths; Ack; QosMeasurement; UserMessage; RemoteTrace;
   PathNegotiationRequest].

(** [self as u8]: the discriminants. *)
Definition to_byte (v : Verb) : byte :=
  b8 match v with
     | Nop => 0x00 | Hello => 0x01 | VError => 0x02 | VOk => 0x03 | Whois => 0x04
     | Rendezvous => 0x05 | Frame => 0x06 | ExtFrame => 0x07 | Echo => 0x08
     | MulticastLike => 0x09 | NetworkCredentials => 0x0a | NetworkConfigRequest => 0x0b
     | NetworkConfig => 0x0c | MulticastGather => 0x0d | MulticastFrame => 0x0e
     | PushDirectPaths => 0x10 | Ack => 0x12 | QosMeasurement => 0x13
     | UserMessage => 0x14 | RemoteTrace => 0x15 | PathNegotiationRequest => 0x16
     end.

Definition from_byte (b : byte) : option Verb :=
  match Z.land (u8 b) 0x1f with
  | 0x00 => Some Nop | 0x01 => Some Hello | 0x02 => Some VError | 0x03 => Some VOk
  | 0x04 => Some Whois | 0x05 => Some Rendezvous | 0x06 => Some Frame
  | 0x07 => Some ExtFrame | 0x08 => Some Echo | 0x09 => Some MulticastLike
  | 0x0a => Some NetworkCredentials | 0x0b => Some NetworkConfigRequest
  | 0x0c => Some NetworkConfig | 0x0d => Some MulticastGather
  | 0x0e => Some MulticastFrame | 0x10 => Some PushDirectPaths | 0x12 => Some Ack
  | 0x13 => Some QosMeasurement | 0x14 => Some UserMessage | 0x15 => Some RemoteTrace
  | 0x16 => Some PathNegotiationRequest
  | _ => None
  end.

Lemma from_to_byte v : from_byte (to_byte v) = Some v.
Proof. by destruct v. Qed.

(** The three flag bits of the verb byte are masked off. *)
Lemma from_byte_flags b f :
  from_byte (b8 (Z.lor (Z.land (u8 b) 0x1f) (Z.land f 0xe0))) = from_byte b.
Proof.
  unfold from_byte. rewrite u8_b8.
  assert (Z.land (Z.lor (Z.land (u8 b) 0x1f) (Z.land f 0xe0) mod 256) 0x1f
          = Z.land (u8 b) 0x1f) as ->; [|done].
  change 256 with (2 ^ 8). rewrite <- Z.land_ones by lia.
  rewrite <- Z.land_assoc. change (Z.land (Z.ones 8) 0x1f) with 0x1f.
  rewrite Z.land_lor_distr_l, <- !Z.land_assoc. change (Z.land 0xe0 0x1f) with 0.
  by rewrite Z.land_0_r, Z.lor_0_r.
Qed.

End VerbOps.

(** ** header.rs *)

Record PacketHeader := mkPacketHeader {
  ph_iv : bytes;       (* [u8; 8] *)
  ph_dest : bytes;     (* [u8; 5] *)
  ph_source : bytes;   (* [u8; 5] *)
  ph_flags : byte;
  ph_mac : bytes;      (* [u8; 8] *)
  ph_verb : byte;
}.

Record FragmentHeader := mkFragmentHeader {
  fh_packet_id : bytes;      (* [u8; 8] *)
  fh_dest : bytes;           (* [u8; 5] *)
  fh_indicator : byte;
  fh_fragment_info : byte;
  fh_hops : byte;
}.

(** [d\[i\]] for a position known to be inside. *)
Definition byte_at (d : bytes) (i : nat) : byte := default "000"%byte (d !! i).

Module Header.

(** [PacketHeader::from_bytes]: the packed 28-byte prefix, if there is one. *)
Definition from_bytes (d : bytes) : option PacketHeader :=
  if 28 <=? len d then
    Some {| ph_iv := take 8 d;
            ph_dest := take 5 (drop 8 d);
            ph_source := take 5 (drop 13 d);
            ph_flags := byte_at d 18;
            ph_mac := take 8 (drop 19 d);
            ph_verb := byte_at d 27 |}
  else None.

Definition cipher_suite (h : PacketHeader) : Z := Z.land (Z.shiftr (u8 (ph_flags h)) 3) 0x07.
Definition hops (h : PacketHeader) : Z := Z.land (u8 (ph_flags h)) 0x07.
Definition is_fragmented (h : PacketHeader) : bool :=
  negb (Z.land (u8 (ph_flags h)) FLAG_FRAGMENTED =? 0).
Definition verb_id (h : PacketHeader) : Z := Z.land (u8 (ph_verb h)) 0x1f.
Definition is_compressed (h : PacketHeader) : bool :=
  negb (Z.land (u8 (ph_verb h)) VERB_FLAG_COMPRESSED =? 0).
Definition dest_address (h : PacketHeader) : bytes := ph_dest h.
Definition source_address (h : PacketHeader) : bytes := ph_source h.
Definition packet_id (h : PacketHeader) : Z := from_be (ph_iv h).

(** [FragmentHeader::from_bytes]: the packed 16-byte prefix. *)
Definition frag_from_bytes (d : bytes) : option FragmentHeader :=
  if 16 <=? len d then
    Some {| fh_packet_id := take 8 d;
            fh_dest := take 5 (drop 8 d);
            fh_indicator := byte_at d 13;
            fh_fragment_info := byte_at d 14;
            fh_hops := byte_at d 15 |}
  else None.

Definition total_fragments (h : FragmentHeader) : Z :=
  Z.land (Z.shiftr (u8 (fh_fragment_info h)) 4) 0x0f.
Definition fragment_number (h : FragmentHeader) : Z := Z.land (u8 (fh_fragment_info h)) 0x0f.
Definition packet_id_u64 (h : FragmentHeader) : Z := from_be (fh_packet_id h).

Definition is_fragment (d : bytes) : bool :=
  (16 <=? len d) && (u8 (byte_at d 13) =? FRAGMENT_INDICATOR).

Lemma cipher_suite_range h : 0 <= cipher_suite h < 8.
Proof.
  unfold cipher_suite. change 0x07 with (Z.ones 3). rewrite Z.land_ones by lia.
  apply Z.mod_pos_bound. lia.
Qed.

Lemma hops_range h : 0 <= hops h < 8.
Proof.
  unfold hops. change 0x07 with (Z.ones 3). rewrite Z.land_ones by lia.
  apply Z.mod_pos_bound. lia.
Qed.

Lemma byte_at_app_skip (p d : bytes) i : (length p <= i)%nat ->
  byte_at (p ++ d) i = byte_at d (i - length p).
Proof. intros. unfold byte_at. by rewrite lookup_app_r. Qed.

End Header.
