(* ===== verification/Wire.v ===== *)
(** * Wire: buffer writers, field readers and codec interfaces.

    The serializers of zerotier-protocol write into a caller's [&mut \[u8\]] at
    explicit offsets; here a writer is a function from the buffer to its result
    and the new buffer, with the panics of slicing and [copy_from_slice]. The
    judgement [emits] relates a writer to the byte string it lays down, and the
    classes [WireCodec] and [PayloadCodec] state what a codec promises to the
    messages that embed it. *)
From S2P Require Export Protocol.

(** ** Writers *)

Definition W (A : Type) : Type := bytes -> res ProtocolError (A * bytes).

Definition wret {A} (a : A) : W A := fun buf => Ok (a, buf).

Definition wbind {A B} (m : W A) (k : A -> W B) : W B := fun buf =>
  match m buf with
  | Ok (a, buf') => k a buf'
  | Err e => Err e
  | Panic => Panic
  | Hang => Hang
  end.

Declare Scope wire_scope.
Notation "'do*' x ':=' m 'in' k" := (wbind m (fun x => k))
  (at level 10, x name, m at level 100, k at level 200) : wire_scope.
Notation "m ';*' k" := (wbind m (fun _ => k))
  (at level 100, k at level 200, right associativity) : wire_scope.
#[global] Open Scope wire_scope.

(** [buf\[a..b\].copy_from_slice(x)]. *)
Definition put (a b : Z) (x : bytes) : W unit := fun buf =>
  let* buf' := copy_into buf a b x in Ok (tt, buf').

(** [buf\[i\] = x]. *)
Definition set (i : Z) (x : byte) : W unit := fun buf =>
  if (0 <=? i) && (i <? len buf)
  then Ok (tt, <[Z.to_nat i := x]> buf)
  else Panic.

(** [m(&mut buf\[pos..\])]. *)
Definition on_tail {A} (pos : Z) (m : W A) : W A := fun buf =>
  if (0 <=? pos) && (pos <=? len buf)
  then match m (drop (Z.to_nat pos) buf) with
       | Ok (a, t) => Ok (a, take (Z.to_nat pos) buf ++ t)
       | Err e => Err e
       | Panic => Panic
       | Hang => Hang
       end
  else Panic.

(** [for x in xs { pos = body(x, pos) }]. *)
Fixpoint wfor {A} (xs : list A) (pos : Z) (body : A -> Z -> W Z) : W Z :=
  match xs with
  | [] => wret pos
  | x :: xs => do* pos' := body x pos in wfor xs pos' body
  end.

(** ** What a writer lays down *)

(** Started at offset [pos], [m] writes [enc] there, leaves every other byte of
    the buffer alone and returns [r]; it panics exactly when the buffer is too
    short for [enc]. *)
Definition emits {A} (m : W A) (pos : Z) (enc : bytes) (r : A) : Prop :=
  forall out rest, len out = pos ->
    m (out ++ rest) =
    if len enc <=? len rest then Ok (r, out ++ enc ++ drop (length enc) rest) else Panic.

Lemma emits_conv {A} (m : W A) pos enc enc' r r' :
  emits m pos enc r -> enc = enc' -> r = r' -> emits m pos enc' r'.
Proof. by intros ? <- <-. Qed.

Lemma emits_pos {A} (m : W A) pos pos' enc r : pos' = pos -> emits m pos enc r -> emits m pos' enc r.
Proof. by intros ->. Qed.

Lemma emits_ret {A} pos (r : A) : emits (wret r) pos [] r.
Proof.
  intros out rest _. replace (len (@nil byte) <=? len rest) with true; [done|].
  pose proof (len_nonneg rest). rewrite len_nil. lia.
Qed.

Lemma emits_put a pos b x : a = pos -> b = pos + len x -> emits (put a b x) pos x tt.
Proof.
  intros -> -> out rest <-. unfold put, copy_into. pose proof (len_nonneg out). pose proof (len_nonneg x).
  rewrite len_app.
  replace ((0 <=? len out) && (len out <=? len out + len x) &&
           (len out + len x <=? len out + len rest) && (len x =? len out + len x - len out))
    with (len x <=? len rest) by lia.
  destruct (_ <=? _); [|done]. simpl. do 2 f_equal.
  rewrite take_app_length' by (unfold len; lia). do 2 f_equal.
  rewrite drop_app_ge by (unfold len in *; lia). f_equal. unfold len; lia.
Qed.

Lemma emits_set i pos x : i = pos -> emits (set i x) pos [x] tt.
Proof.
  intros -> out rest <-. unfold set. pose proof (len_nonneg out). rewrite len_app.
  change (len [x]) with 1.
  replace ((0 <=? len out) && (len out <? len out + len rest)) with (1 <=? len rest) by lia.
  destruct (1 <=? len rest) eqn:E; [|done]. do 2 f_equal.
  destruct rest as [|y rest]; [done|]. apply list_eq. intros i.
  replace (Z.to_nat (len out)) with (length out + 0)%nat by (unfold len; lia).
  by rewrite insert_app_r.
Qed.

Lemma emits_bind {A B} (m : W A) (k : A -> W B) pos e1 e2 a r :
  emits m pos e1 a -> emits (k a) (pos + len e1) e2 r -> emits (wbind m k) pos (e1 ++ e2) r.
Proof.
  intros Hm Hk out rest Hout. unfold wbind. rewrite (Hm _ _ Hout), len_app.
  pose proof (len_nonneg e2). destruct (len e1 <=? len rest) eqn:E.
  - rewrite app_assoc, (Hk (out ++ e1)) by (rewrite len_app; lia). rewrite len_drop.
    replace (len e2 <=? Z.max 0 (len rest - Z.of_nat (length e1)))
      with (len e1 + len e2 <=? len rest) by (unfold len in *; lia).
    destruct (_ <=? _); [|done]. do 2 f_equal.
    by rewrite drop_drop, length_app, <- !app_assoc.
  - by replace (len e1 + len e2 <=? len rest) with false by lia.
Qed.

Lemma emits_on_tail {A} (m : W A) i pos enc r :
  i = pos -> emits m 0 enc r -> emits (on_tail i m) pos enc r.
Proof.
  intros -> Hm out rest <-. unfold on_tail. pose proof (len_nonneg out). pose proof (len_nonneg rest).
  rewrite len_app.
  replace ((0 <=? len out) && (len out <=? len out + len rest)) with true by lia.
  rewrite drop_app_length' by (unfold len; lia). rewrite take_app_length' by (unfold len; lia).
  specialize (Hm [] rest eq_refl). simpl in Hm. rewrite Hm. by destruct (_ <=? _).
Qed.

Lemma emits_for {A} (enc : A -> bytes) (xs : list A) body pos :
  (forall x p, x ∈ xs -> emits (body x p) p (enc x) (p + len (enc x))) ->
  emits (wfor xs pos body) pos (concat (map enc xs)) (pos + len (concat (map enc xs))).
Proof.
  revert pos. induction xs as [|x xs IH]; intros pos H; simpl.
  - rewrite len_nil, Z.add_0_r. apply emits_ret.
  - eapply emits_conv.
    + eapply emits_bind; [apply H; left|]. apply IH. intros; apply H; by right.
    + done.
    + rewrite len_app. lia.
Qed.

(** The whole effect on a buffer, from offset 0. *)
Lemma emits_run {A} (m : W A) enc r buf :
  emits m 0 enc r ->
  m buf = if len enc <=? len buf then Ok (r, enc ++ drop (length enc) buf) else Panic.
Proof. intros H. exact (H [] buf eq_refl). Qed.

Lemma emits_ok {A} (m : W A) enc r buf :
  emits m 0 enc r -> len enc <= len buf -> m buf = Ok (r, enc ++ drop (length enc) buf).
Proof. intros H Hl. rewrite (emits_run _ _ _ _ H). by replace (len enc <=? len buf) with true by lia. Qed.

Lemma emits_panic {A} (m : W A) enc r buf :
  emits m 0 enc r -> len buf < len enc -> m buf = Panic.
Proof. intros H Hl. rewrite (emits_run _ _ _ _ H). by replace (len enc <=? len buf) with false by lia. Qed.

(** [emits_steps]: splits a writer into its statements and lays down one field
    per statement. *)
Ltac emits_step :=
  lazymatch goal with
  | |- emits (wret _) _ _ _ => apply emits_ret
  | |- emits (set _ _) _ _ _ => apply emits_set; len_lia
  | |- emits (put _ _ _) _ _ _ => apply emits_put; len_lia
  | |- emits (on_tail _ _) _ _ _ => apply emits_on_tail; [len_lia|]
  | |- emits (wbind _ _) _ _ _ => eapply emits_bind
  end.
Ltac emits_fields :=
  intros; eapply emits_conv;
  [ repeat emits_step | rewrite ?app_nil_r, <- ?app_assoc; reflexivity | len_lia ].

(** ** Readers *)

(** [read_fields]: evaluates a deserializer on a concatenation of fields. *)
Ltac read_step :=
  first
    [ rewrite rbind_ok
    | rewrite if_false by len_lia
    | rewrite get_here by len_lia
    | rewrite be_at_here by len_lia
    | rewrite array_at_here by len_lia
    | rewrite slice_here by len_lia
    | rewrite slice_last by len_lia
    | rewrite slice_from_here by len_lia
    | rewrite get_skip by len_lia
    | rewrite be_at_skip by len_lia
    | rewrite array_at_skip by len_lia
    | rewrite slice_app_skip by len_lia
    | rewrite slice_from_skip by len_lia
    | rewrite if_true by len_lia ].
Ltac read_fields := repeat read_step.

(** [wp_reads]: discharges the bounds of every read of a deserializer. *)
Ltac wp_reads :=
  repeat first
    [ progress intros
    | apply wp_err; exact I
    | apply wp_ret
    | match goal with |- wp (if _ then _ else _) _ _ => apply wp_if; intros end
    | match goal with |- wp (rbind _ _) _ _ => apply wp_bind end
    | apply wp_get; [len_lia | intros ? _]
    | apply wp_slice; [len_lia | len_lia | len_lia | intros ? ?]
    | apply wp_slice_from; [len_lia | intros ? ?]
    | apply wp_be_u16; [len_lia | len_lia | intros ? ?]
    | apply wp_be_u32; [len_lia | len_lia | intros ? ?]
    | apply wp_be_u64; [len_lia | len_lia | intros ? ?]
    | apply wp_be_at; [len_lia | len_lia | len_lia | intros ? ?]
    | apply wp_array_at; [len_lia | len_lia | len_lia | len_lia | intros ? ?]
    | apply wp_ok_or; [intros | intros; exact I] ].

(** [for _ in 0..n { (x, pos) = body(pos)?; v.push(x) }]. *)
Fixpoint rfor {E A} (n : nat) (pos : Z) (body : Z -> res E (A * Z)) : res E (list A * Z) :=
  match n with
  | O => Ok ([], pos)
  | S n =>
      let* ' (x, pos') := body pos in
      let* ' (xs, pos'') := rfor n pos' body in
      Ok (x :: xs, pos'')
  end.

(** [while cond(pos) { (x, pos) = body(pos)?; v.push(x) }] with [fuel] iterations
    available. *)
Fixpoint rwhile {E A} (fuel : nat) (cond : Z -> bool) (pos : Z) (body : Z -> res E (A * Z))
    : res E (list A * Z) :=
  if cond pos then
    match fuel with
    | O => Hang
    | S fuel =>
        let* ' (x, pos') := body pos in
        let* ' (xs, pos'') := rwhile fuel cond pos' body in
        Ok (x :: xs, pos'')
    end
  else Ok ([], pos).

Lemma wp_rfor {E A} n pos (body : Z -> res E (A * Z)) (I : nat -> Z -> Prop) (P : A -> Prop)
    (Q : list A * Z -> Prop) (R : E -> Prop) :
  (forall k p, I (S k) p -> wp (body p) (fun '(x, p') => P x /\ I k p') R) ->
  I n pos ->
  (forall xs p, length xs = n -> Forall P xs -> I 0%nat p -> Q (xs, p)) ->
  wp (rfor n pos body) Q R.
Proof.
  intros Hb. revert pos Q. induction n as [|n IH]; intros pos Q HI HQ; simpl.
  - by apply HQ.
  - apply wp_bind. eapply wp_mono; [apply (Hb n pos HI)| |done].
    intros [x p] [Hx Hp]. apply wp_bind. apply (IH p _ Hp).
    intros xs p' Hl HP HI'. simpl. apply HQ; [simpl; lia| by constructor|done].
Qed.

Lemma wp_rwhile {E A} fuel cond pos (body : Z -> res E (A * Z)) (bound : Z) (I : Z -> Prop)
    (P : A -> Prop) (Q : list A * Z -> Prop) (R : E -> Prop) :
  (forall p, I p -> cond p = true ->
     p < bound /\ wp (body p) (fun '(x, p') => P x /\ I p' /\ p < p') R) ->
  I pos -> bound - pos <= Z.of_nat fuel ->
  (forall xs p, Forall P xs -> I p -> cond p = false -> Q (xs, p)) ->
  wp (rwhile fuel cond pos body) Q R.
Proof.
  intros Hb. revert pos Q. induction fuel as [|fuel IH]; intros pos Q HI Hf HQ; simpl.
  - destruct (cond pos) eqn:Ec; [|by apply HQ].
    destruct (Hb pos HI Ec). lia.
  - destruct (cond pos) eqn:Ec; [|by apply HQ].
    destruct (Hb pos HI Ec) as [Hlt Hwp]. apply wp_bind.
    eapply wp_mono; [apply Hwp| |done]. intros [x p] (Hx & Hp & Hgt).
    apply wp_bind. apply IH; [done|lia|].
    intros xs p' HP HI' Hc. simpl. apply HQ; [by constructor|done..].
Qed.

Lemma rfor_spec_in {E A} (enc : A -> bytes) (xs : list A) pos (body : Z -> res E (A * Z)) (d pre post : bytes) :
  d = pre ++ concat (map enc xs) ++ post -> pos = len pre ->
  (forall x p a b, x ∈ xs -> d = a ++ enc x ++ b -> p = len a -> len post <= len b ->
     body p = Ok (x, p + len (enc x))) ->
  rfor (length xs) pos body = Ok (xs, pos + len (concat (map enc xs))).
Proof.
  revert pos pre. induction xs as [|x xs IH]; intros pos pre Hd -> Hb; cbn [rfor length map concat].
  - by rewrite len_nil, Z.add_0_r.
  - rewrite (Hb x (len pre) pre (concat (map enc xs) ++ post));
      [|left|by rewrite Hd; simpl; rewrite <- app_assoc|done|rewrite len_app; len_facts; lia].
    rewrite rbind_ok. rewrite (IH _ (pre ++ enc x)).
    + rewrite rbind_ok, len_app. do 2 f_equal. lia.
    + by rewrite Hd; simpl; rewrite <- !app_assoc.
    + by rewrite len_app.
    + intros y p a b Hy. apply Hb. by right.
Qed.

Lemma rfor_spec {E A} (enc : A -> bytes) (xs : list A) pos (body : Z -> res E (A * Z)) (d pre post : bytes) :
  d = pre ++ concat (map enc xs) ++ post -> pos = len pre ->
  (forall x p a b, x ∈ xs -> d = a ++ enc x ++ b -> p = len a ->
     body p = Ok (x, p + len (enc x))) ->
  rfor (length xs) pos body = Ok (xs, pos + len (concat (map enc xs))).
Proof. intros Hd Hp Hb. eapply rfor_spec_in; [done..|]. intros x p a b Hx Ha Hpa _. by eapply Hb. Qed.

Lemma rwhile_spec {E A} (enc : A -> bytes) (xs : list A) fuel cond pos (body : Z -> res E (A * Z))
    (d pre post : bytes) :
  d = pre ++ concat (map enc xs) ++ post -> pos = len pre ->
  (forall x p a b, x ∈ xs -> d = a ++ enc x ++ b -> p = len a ->
     cond p = true /\ body p = Ok (x, p + len (enc x))) ->
  cond (len d - len post) = false -> (length xs <= fuel)%nat ->
  rwhile fuel cond pos body = Ok (xs, pos + len (concat (map enc xs))).
Proof.
  revert pos pre fuel. induction xs as [|x xs IH]; intros pos pre fuel Hd -> Hb Hc Hf.
  - assert (cond (len pre) = false) as Hf'.
    { rewrite Hd in Hc. revert Hc. simpl. rewrite len_app. by rewrite Z.add_simpl_r. }
    simpl. rewrite len_nil, Z.add_0_r. destruct fuel; simpl; by rewrite Hf'.
  - destruct fuel as [|fuel]; [simpl in Hf; lia|]. cbn [rwhile map concat].
    destruct (Hb x (len pre) pre (concat (map enc xs) ++ post)) as [-> ->];
      [left|by rewrite Hd; simpl; rewrite <- app_assoc|done|].
    rewrite rbind_ok. rewrite (IH _ (pre ++ enc x)).
    + rewrite rbind_ok, len_app. do 2 f_equal. lia.
    + by rewrite Hd; simpl; rewrite <- !app_assoc.
    + by rewrite len_app.
    + intros y p a b Hy. apply Hb. by right.
    + done.
    + simpl in Hf. lia.
Qed.

(** ** Codec interfaces *)

(** A self-delimiting encoding: what a message promises to the messages that
    embed it. [wc_shape] is what the Rust type guarantees (array lengths, integer
    widths), [wc_wf] what the decoder produces. *)
Class WireCodec (A : Type) := {
  wc_shape : A -> Prop;
  wc_wf : A -> Prop;
  wc_encode : A -> bytes;
  wc_serialize : A -> W Z;
  wc_deserialize : bytes -> res ProtocolError (A * Z);
  wc_wf_shape : forall x, wc_wf x -> wc_shape x;
  wc_emits : forall x, wc_shape x -> emits (wc_serialize x) 0 (wc_encode x) (len (wc_encode x));
  wc_total : forall d, safe (wc_deserialize d) (fun '(x, n) => wc_wf x /\ 0 < n <= len d);
  wc_roundtrip : forall x tl, wc_wf x ->
    wc_deserialize (wc_encode x ++ tl) = Ok (x, len (wc_encode x));
}.

(** A packet payload: it extends to the end of the data. *)
Class PayloadCodec (A : Type) := {
  pc_shape : A -> Prop;
  pc_wf : A -> Prop;
  pc_encode : A -> bytes;
  pc_serialize : A -> W Z;
  pc_deserialize : bytes -> res ProtocolError A;
  pc_wf_shape : forall x, pc_wf x -> pc_shape x;
  pc_emits : forall x, pc_shape x -> emits (pc_serialize x) 0 (pc_encode x) (len (pc_encode x));
  pc_total : forall d, safe (pc_deserialize d) pc_shape;
  pc_roundtrip : forall x, pc_wf x -> pc_deserialize (pc_encode x) = Ok x;
}.

Section Codecs.
Context `{PayloadCodec A}.

(** Serializing into a large enough buffer and parsing the written prefix
    gives the payload back. *)
Lemma payload_write_read (x : A) buf :
  pc_wf x -> len (pc_encode x) <= len buf ->
  exists buf' n, pc_serialize x buf = Ok (n, buf') /\ len buf' = len buf /\
    n = len (pc_encode x) /\ (let* s := slice buf' 0 n in pc_deserialize s) = Ok x.
Proof.
  intros Hw Hl. eexists _, _.
  split; [apply emits_ok; [by apply pc_emits, pc_wf_shape|done]|].
  split; [rewrite len_app, len_drop; unfold len in *; lia|]. split; [done|].
  rewrite slice_app_hit by done. rewrite rbind_ok. by apply pc_roundtrip.
Qed.
End Codecs.

(** [while pos < data.len() { let (x, n) = des(&data\[pos..\])?; v.push(x); pos += n; }];
    every decoder consumes at least a byte, so [data.len()] iterations are enough
    ([decode_all_total]). *)
Definition decode_all {A} (des : bytes -> res ProtocolError (A * Z)) (d : bytes)
    : res ProtocolError (list A) :=
  let* ' (xs, _) := rwhile (length d) (fun p => p <? len d) 0 (fun p =>
    let* s := slice_from d p in
    let* ' (x, n) := des s in Ok (x, p + n)) in
  Ok xs.

Section WireLists.
Context `{WireCodec A}.

Lemma decode_all_total d : safe (decode_all wc_deserialize d) (Forall wc_wf).
Proof.
  unfold decode_all. apply wp_bind.
  apply (wp_rwhile _ _ _ _ (len d) (fun p => 0 <= p <= len d) wc_wf).
  - intros p Hp Hc. split; [lia|]. apply wp_bind, wp_slice_from; [lia|].
    intros s Hs. apply wp_bind. eapply wp_mono; [apply wc_total| |done].
    intros [x n] [Hx Hn]. simpl. split; [done|lia].
  - pose proof (len_nonneg d). lia.
  - unfold len. lia.
  - intros xs p Hxs _ _. done.
Qed.

Lemma decode_all_roundtrip xs :
  Forall wc_wf xs -> decode_all wc_deserialize (concat (map wc_encode xs)) = Ok xs.
Proof.
  intros Hxs. unfold decode_all.
  assert (forall x, x ∈ xs -> 0 < len (wc_encode x)) as Hpos.
  { intros x Hx. rewrite Forall_forall in Hxs.
    pose proof (wc_total (wc_encode x)) as Ht.
    rewrite <- (app_nil_r (wc_encode x)) in Ht at 1.
    rewrite wc_roundtrip in Ht by auto. simpl in Ht. lia. }
  erewrite (rwhile_spec wc_encode xs _ _ _ _ (concat (map wc_encode xs)) [] []);
    [done|by rewrite app_nil_r|done|..].
  - intros x p a b Hx -> ->. split.
    + pose proof (Hpos x Hx). len_lia.
    + rewrite slice_from_skip by len_lia. rewrite slice_from_here by len_lia.
      rewrite rbind_ok. rewrite Forall_forall in Hxs. by rewrite wc_roundtrip, rbind_ok by auto.
  - len_lia.
  - clear Hxs. induction xs as [|x xs IH]; simpl; [lia|].
    pose proof (Hpos x ltac:(left)). rewrite length_app.
    specialize (IH ltac:(intros; apply Hpos; by right)). unfold len in *. lia.
Qed.
End WireLists.
