(* ===== verification/Fragment.v ===== *)
(** * Fragment: splitting packets and reassembling them
    (zerotier-protocol: fragment.rs; the reassembly half of zerotier-node's
    [handle_fragment]). *)
From S2P Require Export Protocol.

Record FragmentSlot := mkFragmentSlot {
  fs_fragments : list (option bytes);   (* [Option<Vec<u8>>; 7] *)
  fs_total_expected : Z;
  fs_received_count : Z;
  fs_created_at : Z;
}.

Record ReassemblyBuffer := mkReassemblyBuffer {
  rb_pending : gmap Z FragmentSlot;     (* BTreeMap<u64, FragmentSlot> *)
  rb_max_pending : Z;
}.

Module Fragment.

Definition new (max_pending : Z) : ReassemblyBuffer :=
  {| rb_pending := ∅; rb_max_pending := max_pending |}.

Definition pending_len (p : gmap Z FragmentSlot) : Z := Z.of_nat (size p).

(** Evict the oldest entry when a new packet would exceed the capacity. *)
Definition evict_for (b : ReassemblyBuffer) (packet_id : Z) : gmap Z FragmentSlot :=
  let p := rb_pending b in
  if bool_decide (p !! packet_id = None) && (rb_max_pending b <=? pending_len p) then
    match min_by_key (fun '(_, s) => fs_created_at s) (btree_iter id p) with
    | Some (oldest, _) => delete oldest p
    | None => p
    end
  else p.

(** [for i in 0..total { if let Some(d) = &fragments\[i\] { v.extend(d) } }]. *)
Fixpoint assemble (fragments : list (option bytes)) (total : nat) : bytes :=
  match total, fragments with
  | O, _ | _, [] => []
  | S total, f :: fragments => default [] f ++ assemble fragments total
  end.

(** [insert]; indexing outside the seven slots would panic. *)
Definition insert (b : ReassemblyBuffer) (packet_id fragment_number total_fragments : Z)
    (data : bytes) (now_ms : Z) : res Empty_set (ReassemblyBuffer * option bytes) :=
  if (total_fragments =? 0) || (ZT_MAX_PACKET_FRAGMENTS <? total_fragments)
     || (total_fragments <=? fragment_number)
  then Ok (b, None) else
  let pending := evict_for b packet_id in
  let slot := default
    {| fs_fragments := replicate (Z.to_nat ZT_MAX_PACKET_FRAGMENTS) None;
       fs_total_expected := total_fragments;
       fs_received_count := 0;
       fs_created_at := now_ms |} (pending !! packet_id) in
  let idx := Z.to_nat fragment_number in
  match fs_fragments slot !! idx with
  | None => Panic
  | Some old =>
      let slot :=
        match old with
        | None =>
            {| fs_fragments := <[idx := Some data]> (fs_fragments slot);
               fs_total_expected := fs_total_expected slot;
               fs_received_count := fs_received_count slot + 1;
               fs_created_at := fs_created_at slot |}
        | Some _ => slot
        end in
      if fs_total_expected slot <=? fs_received_count slot
      then Ok ({| rb_pending := delete packet_id pending; rb_max_pending := rb_max_pending b |},
               Some (assemble (fs_fragments slot) (Z.to_nat (fs_total_expected slot))))
      else Ok ({| rb_pending := <[packet_id := slot]> pending; rb_max_pending := rb_max_pending b |},
               None)
  end.

Definition evict_stale (b : ReassemblyBuffer) (now_ms timeout_ms : Z) : ReassemblyBuffer :=
  {| rb_pending := filter (fun '(_, s) => sat_sub now_ms (fs_created_at s) < timeout_ms) (rb_pending b);
     rb_max_pending := rb_max_pending b |}.

(** One fragment of [fragment_packet]. *)
Definition build_fragment (packet_id : Z) (dest : bytes) (hops total max_payload : Z)
    (packet : bytes) (fragment_number : Z) : res Empty_set bytes :=
  let start := fragment_number * max_payload in
  let end_ := Z.min (start + max_payload) (len packet) in
  let* payload := slice packet start end_ in
  Ok (to_be 8 packet_id ++ dest ++ [b8 FRAGMENT_INDICATOR] ++
      [b8 (Z.lor (Z.shiftl total 4) fragment_number)] ++ [b8 hops] ++ payload).

(** [usize::div_ceil]. *)
Definition div_ceil (a b : Z) : Z := (a + b - 1) / b.

Fixpoint build_fragments (n : nat) (i : Z) (build : Z -> res Empty_set bytes)
    : res Empty_set (list bytes) :=
  match n with
  | O => Ok []
  | S n =>
      let* f := build i in
      let* fs := build_fragments n (i + 1) build in
      Ok (f :: fs)
  end.

Definition fragment_packet (packet : bytes) (mtu : Z) : res Empty_set (option (list bytes)) :=
  if len packet <=? mtu then Ok (Some [packet]) else
  if mtu <=? ZT_PROTO_MIN_FRAGMENT_LENGTH then Ok None else
  match Header.from_bytes packet with
  | None => Ok None
  | Some header =>
      let max_payload := mtu - ZT_PROTO_MIN_FRAGMENT_LENGTH in
      if max_payload =? 0 then Ok None else
      let total_fragments := div_ceil (len packet) max_payload in
      if (total_fragments =? 0) || (ZT_MAX_PACKET_FRAGMENTS <? total_fragments) then Ok None else
      let* fs := build_fragments (Z.to_nat total_fragments) 0
        (build_fragment (Header.packet_id header) (Header.dest_address header) (Header.hops header)
           total_fragments max_payload packet) in
      Ok (Some fs)
  end.

(** The reassembly half of [Node::handle_fragment]: parse the fragment header and
    insert the payload. *)
Definition receive_fragment (b : ReassemblyBuffer) (data : bytes) (now_ms : Z)
    : res Empty_set (ReassemblyBuffer * option bytes) :=
  match Header.frag_from_bytes data with
  | None => Ok (b, None)
  | Some h =>
      if 16 <? len data then
        let* payload := slice_from data 16 in
        insert b (Header.packet_id_u64 h) (Header.fragment_number h) (Header.total_fragments h)
          payload now_ms
      else Ok (b, None)
  end.

(** ** The buffer's invariant *)

Definition received (s : FragmentSlot) : Z := len (filter is_Some (fs_fragments s)).

Record slot_ok (s : FragmentSlot) : Prop := {
  so_len : len (fs_fragments s) = 7;
  so_total : 1 <= fs_total_expected s <= 7;
  so_count : fs_received_count s = received s;
  so_pending : fs_received_count s < fs_total_expected s;
}.

(** Every pending packet is incomplete and counted exactly, and the table
    respects its capacity. *)
Record buffer_ok (b : ReassemblyBuffer) : Prop := {
  bo_slots : forall id s, rb_pending b !! id = Some s -> slot_ok s;
  bo_size : pending_len (rb_pending b) <= Z.max 1 (rb_max_pending b);
}.

Lemma received_insert s idx d :
  fs_fragments s !! idx = Some None ->
  len (filter is_Some (<[idx := Some d]> (fs_fragments s))) = received s + 1.
Proof.
  unfold received. generalize (fs_fragments s) as l. intros l. revert idx.
  induction l as [|x l IH]; intros [|idx] H; simplify_eq/=.
  - rewrite filter_cons_True by eauto. rewrite filter_cons_False by (intros [? ?]; done).
    rewrite len_cons. lia.
  - rewrite !filter_cons. case_decide; rewrite ?len_cons, IH by done; lia.
Qed.

Lemma received_replicate n : len (filter is_Some (replicate n (@None bytes))) = 0.
Proof.
  induction n as [|n IH]; [done|]. cbn [replicate].
  by rewrite filter_cons_False by (intros [? ?]; done).
Qed.

Lemma evict_for_sub b id k s : evict_for b id !! k = Some s -> rb_pending b !! k = Some s.
Proof.
  unfold evict_for. repeat case_match; try done. by intros [_ ?]%lookup_delete_Some.
Qed.

(** Room for the new entry: after eviction, either the packet already had an entry or
    the table has a free place (or holds nothing). *)
Lemma evict_for_size b id : buffer_ok b ->
  pending_len (<[id := mkFragmentSlot [] 0 0 0]> (evict_for b id)) <= Z.max 1 (rb_max_pending b).
Proof.
  intros [_ Hs]. unfold pending_len in *.
  assert (forall m : gmap Z FragmentSlot, rb_pending b !! id = None -> m !! id = None ->
    Z.of_nat (size m) + 1 <= Z.max 1 (rb_max_pending b) ->
    Z.of_nat (size (<[id := mkFragmentSlot [] 0 0 0]> m)) <= Z.max 1 (rb_max_pending b)) as Hnew.
  { intros m _ Hm Hl. rewrite map_size_insert_None by done. lia. }
  unfold evict_for, pending_len. case_bool_decide as Hid; simpl.
  - destruct (rb_max_pending b <=? _) eqn:Hc.
    + destruct (min_by_key _ _) as [[o so]|] eqn:Hm.
      * apply min_by_key_spec in Hm as [Hin _]. apply elem_of_btree_iter in Hin.
        apply Hnew; [done|by rewrite lookup_delete_None; right|].
        rewrite map_size_delete, Hin. simpl. lia.
      * apply min_by_key_None in Hm. apply Hnew; [done..|].
        assert (map_to_list (rb_pending b) = []) as He.
        { apply Permutation_nil_r. rewrite <- (btree_iter_perm Datatypes.id). by rewrite Hm. }
        apply map_to_list_empty_iff in He. rewrite He, map_size_empty. lia.
    + apply Hnew; [done..|lia].
  - destruct (rb_pending b !! id) eqn:E; [|done]. rewrite map_size_insert, E. simpl. lia.
Qed.

Lemma size_insert_irrelevant (m : gmap Z FragmentSlot) id s s' :
  size (<[id := s]> m) = size (<[id := s']> m).
Proof. by rewrite !map_size_insert. Qed.

(** The slot [insert] works on, before it stores the data. *)
Definition fresh (total now_ms : Z) : FragmentSlot :=
  {| fs_fragments := replicate 7 None; fs_total_expected := total;
     fs_received_count := 0; fs_created_at := now_ms |}.

Lemma fresh_ok total now : 1 <= total <= 7 -> slot_ok (fresh total now).
Proof.
  intros H. split; [done|done|symmetry; apply (received_replicate 7)|simpl; lia].
Qed.

Definition store (s : FragmentSlot) (idx : nat) (d : bytes) : FragmentSlot :=
  match fs_fragments s !! idx with
  | Some None =>
      {| fs_fragments := <[idx := Some d]> (fs_fragments s);
         fs_total_expected := fs_total_expected s;
         fs_received_count := fs_received_count s + 1;
         fs_created_at := fs_created_at s |}
  | _ => s
  end.

Lemma store_facts s idx d : slot_ok s ->
  len (fs_fragments (store s idx d)) = 7 /\
  fs_total_expected (store s idx d) = fs_total_expected s /\
  fs_received_count (store s idx d) = received (store s idx d).
Proof.
  intros [Hl Ht Hc Hp]. unfold store. destruct (fs_fragments s !! idx) as [[|]|] eqn:E; try done.
  simpl. split_and!; [|done|].
  - unfold len in *. by rewrite length_insert.
  - unfold received at 1. simpl. rewrite received_insert by done. lia.
Qed.

(** [insert] as a function of the stored slot. *)
Lemma insert_spec b id n t d now : buffer_ok b -> 0 <= n ->
  insert b id n t d now =
  if (t =? 0) || (7 <? t) || (t <=? n) then Ok (b, None) else
  let p := evict_for b id in
  let s := store (default (fresh t now) (p !! id)) (Z.to_nat n) d in
  if fs_total_expected s <=? fs_received_count s
  then Ok (mkReassemblyBuffer (delete id p) (rb_max_pending b),
           Some (assemble (fs_fragments s) (Z.to_nat (fs_total_expected s))))
  else Ok (mkReassemblyBuffer (<[id := s]> p) (rb_max_pending b), None).
Proof.
  intros Hb Hn. unfold insert. change ZT_MAX_PACKET_FRAGMENTS with 7.
  destruct ((t =? 0) || (7 <? t) || (t <=? n)) eqn:Hg; [done|].
  cbv zeta. change (replicate (Z.to_nat 7) None) with (replicate 7 (@None bytes)).
  fold (fresh t now). set (s0 := default (fresh t now) (evict_for b id !! id)).
  assert (len (fs_fragments s0) = 7) as Hl.
  { unfold s0. destruct (evict_for b id !! id) as [s|] eqn:E; simpl; [|done].
    by apply evict_for_sub, (bo_slots _ Hb) in E as []. }
  destruct (lookup_lt_is_Some_2 (fs_fragments s0) (Z.to_nat n)) as [old Hold].
  { unfold len in Hl. zlia. }
  unfold store. rewrite Hold. by destruct old.
Qed.

(** The reassembly buffer: [insert] never panics and preserves the invariant
    (seven slots per packet, an exact count, only incomplete packets pending, at most the
    configured number of them), whatever fragment arrives. *)
Lemma insert_preserves_ok (b : ReassemblyBuffer) (id n t : Z) (d : bytes) (now : Z) :
  buffer_ok b -> 0 <= n ->
  exists b' o, insert b id n t d now = Ok (b', o) /\ buffer_ok b' /\
    (o <> None -> rb_pending b' !! id = None).
Proof.
  intros Hb Hn. rewrite insert_spec by done.
  destruct ((t =? 0) || (7 <? t) || (t <=? n)) eqn:Hg; [by eexists _, _|].
  cbv zeta. set (p := evict_for b id). set (s0 := default (fresh t now) (p !! id)).
  assert (slot_ok s0) as Hs0.
  { unfold s0. destruct (p !! id) as [s|] eqn:E; simpl; [|apply fresh_ok; zlia].
    by apply evict_for_sub, (bo_slots _ Hb) in E. }
  destruct (store_facts s0 (Z.to_nat n) d Hs0) as (H1 & H2 & H3).
  assert (forall k s, p !! k = Some s -> slot_ok s) as Hp
    by (intros k s Hk%evict_for_sub; by apply (bo_slots _ Hb) in Hk).
  pose proof (evict_for_size b id Hb) as Hsz. fold p in Hsz. unfold pending_len in Hsz.
  destruct (fs_total_expected _ <=? _) eqn:Hc; eexists _, _; (split; [reflexivity|]); (split; [split; simpl|]); try done.
  - intros k s [_ Hk]%lookup_delete_Some. by apply Hp in Hk.
  - unfold pending_len. rewrite map_size_delete. rewrite map_size_insert in Hsz.
    destruct (p !! id); simpl in *; unfold Datatypes.id in *; lia.
  - intros _. simpl. apply lookup_delete_eq.
  - intros k s [[-> <-]|[_ Hk]]%lookup_insert_Some; [|by apply Hp in Hk].
    split; try done; [rewrite H2; apply Hs0|lia].
  - unfold pending_len. erewrite size_insert_irrelevant. exact Hsz.
Qed.

(** ** What [fragment_packet] produces *)

(** The [i]-th slice of the packet, as a fragment's payload. *)
Definition piece (mp : nat) (packet : bytes) (i : nat) : bytes :=
  take mp (drop (i * mp) packet).

Lemma concat_pieces mp packet n :
  concat (map (piece mp packet) (seq 0 n)) = take (n * mp) packet.
Proof.
  induction n as [|n IH]; [by rewrite Nat.mul_0_l, take_0|].
  rewrite seq_S, map_app, concat_app, IH. simpl. rewrite app_nil_r. unfold piece.
  rewrite take_take_drop. f_equal. lia.
Qed.

Lemma nibbles t n : 0 <= t < 16 -> 0 <= n < 16 ->
  Z.land (Z.shiftr (u8 (b8 (Z.lor (Z.shiftl t 4) n))) 4) 0x0f = t /\
  Z.land (u8 (b8 (Z.lor (Z.shiftl t 4) n))) 0x0f = n.
Proof.
  intros Ht Hn.
  assert (forallb (fun t => forallb (fun n =>
    (Z.land (Z.shiftr (u8 (b8 (Z.lor (Z.shiftl t 4) n))) 4) 0x0f =? t) &&
    (Z.land (u8 (b8 (Z.lor (Z.shiftl t 4) n))) 0x0f =? n)) (seqZ 0 16)) (seqZ 0 16) = true)
    as H by (vm_compute; reflexivity).
  rewrite forallb_forall in H. specialize (H t). rewrite forallb_forall in H.
  specialize (H ltac:(apply list_elem_of_In, elem_of_seqZ; lia) n
                ltac:(apply list_elem_of_In, elem_of_seqZ; lia)).
  apply andb_true_iff in H as [?%Z.eqb_eq ?%Z.eqb_eq]. done.
Qed.

Definition fragment_bytes (pid : Z) (dest : bytes) (hops total n : Z) (payload : bytes) : bytes :=
  to_be 8 pid ++ dest ++ [b8 FRAGMENT_INDICATOR] ++
  [b8 (Z.lor (Z.shiftl total 4) n)] ++ [b8 hops] ++ payload.

Lemma parse_fragment pid dest hops total n payload :
  u64_ok pid -> len dest = 5 -> 0 <= total < 16 -> 0 <= n < 16 ->
  exists h, Header.frag_from_bytes (fragment_bytes pid dest hops total n payload) = Some h /\
    Header.packet_id_u64 h = pid /\ Header.total_fragments h = total /\
    Header.fragment_number h = n /\ fh_dest h = dest /\
    Header.is_fragment (fragment_bytes pid dest hops total n payload) = true.
Proof.
  intros Hp Hd Ht Hn. set (f := fragment_bytes pid dest hops total n payload).
  assert (len f = 16 + len payload) as Hl by (unfold f, fragment_bytes; len_lia).
  pose proof (len_nonneg payload).
  assert (length dest = 5%nat) as Hd' by (unfold len in Hd; lia).
  assert (f !! 13%nat = Some (b8 FRAGMENT_INDICATOR) /\ f !! 14%nat = Some (b8 (Z.lor (Z.shiftl total 4) n)))
    as [H13 H14].
  { unfold f, fragment_bytes. rewrite (app_assoc (to_be 8 pid)).
    assert (length (to_be 8 pid ++ dest) = 13%nat) as Hpre by (rewrite length_app, length_to_be; lia).
    split; rewrite !lookup_app_r by lia; by rewrite Hpre. }
  unfold Header.frag_from_bytes. rewrite if_true by lia. eexists. split; [done|].
  unfold Header.packet_id_u64, Header.total_fragments, Header.fragment_number, Header.is_fragment, byte_at.
  cbn [fh_packet_id fh_fragment_info fh_dest]. rewrite H13, H14. cbn [from_option id].
  destruct (nibbles total n Ht Hn) as [-> ->]. split_and!; [|done|done|..].
  - unfold f, fragment_bytes. rewrite take_app_length' by (by rewrite length_to_be). by apply from_be_u64.
  - unfold f, fragment_bytes. rewrite drop_app_length' by (by rewrite length_to_be).
    by rewrite take_app_length' by lia.
  - replace (16 <=? len f) with true by lia. done.
Qed.

Lemma build_fragments_ok n i build (f : Z -> bytes) :
  (forall j, i <= j < i + Z.of_nat n -> build j = Ok (f j)) ->
  build_fragments n i build = Ok (map f (seqZ i (Z.of_nat n))).
Proof.
  revert i. induction n as [|n IH]; intros i H; [done|]. cbn [build_fragments].
  rewrite H by lia. rewrite rbind_ok, IH by (intros; apply H; lia). rewrite rbind_ok.
  rewrite (seqZ_cons i) by lia. simpl. do 4 f_equal; lia.
Qed.

Lemma div_ceil_spec a b : 0 <= a -> 0 < b ->
  a <= div_ceil a b * b /\ forall i, i < div_ceil a b -> i * b < a.
Proof.
  intros Ha Hb. unfold div_ceil. pose proof (Z.div_mod (a + b - 1) b ltac:(lia)).
  pose proof (Z.mod_pos_bound (a + b - 1) b Hb). split; [nia|]. intros i Hi. nia.
Qed.

(** The loop of [fragment_packet] cuts the packet into its pieces, none of them empty. *)
Lemma build_fragments_pieces pid dest hops packet mtu : 16 < mtu ->
  let total := div_ceil (len packet) (mtu - 16) in
  build_fragments (Z.to_nat total) 0 (build_fragment pid dest hops total (mtu - 16) packet) =
    Ok (map (fun i => fragment_bytes pid dest hops total i (piece (Z.to_nat (mtu - 16)) packet (Z.to_nat i)))
          (seqZ 0 (Z.of_nat (Z.to_nat total)))).
Proof.
  intros Hm total. destruct (div_ceil_spec (len packet) (mtu - 16) (len_nonneg _) ltac:(lia)) as [_ Hin]. fold total in Hin.
  apply build_fragments_ok. intros j Hj. unfold build_fragment. pose proof (Hin j ltac:(lia)). rewrite slice_ok by nia.
  rewrite rbind_ok. unfold fragment_bytes, piece. do 6 f_equal.
  replace (Z.to_nat j * Z.to_nat (mtu - 16))%nat with (Z.to_nat (j * (mtu - 16))) by nia.
  destruct (decide (j * (mtu - 16) + (mtu - 16) <= len packet)).
  - f_equal. lia.
  - rewrite !take_ge; [done|..]; rewrite length_drop; unfold len in *; nia.
Qed.

(** The sizes [fragment_packet] accepts. *)
Definition fits (size mtu : Z) : bool :=
  (size <=? mtu) || ((16 <? mtu) && (div_ceil size (mtu - 16) <=? ZT_MAX_PACKET_FRAGMENTS)).

Lemma fragment_packet_fits packet mtu : 28 <= len packet ->
  fragment_packet packet mtu = Ok None /\ fits (len packet) mtu = false \/
  exists frs, fragment_packet packet mtu = Ok (Some frs) /\ fits (len packet) mtu = true /\ frs <> [].
Proof.
  intros Hl. unfold fragment_packet, fits. change ZT_PROTO_MIN_FRAGMENT_LENGTH with 16. change ZT_MAX_PACKET_FRAGMENTS with 7.
  destruct (len packet <=? mtu) eqn:E; [right; by exists [packet]|].
  destruct (mtu <=? 16) eqn:Em; [left; split; [done|]; cbn; lia|]. unfold Header.from_bytes. rewrite (if_true (28 <=? _)) by lia.
  rewrite if_false by lia. destruct (div_ceil_spec (len packet) (mtu - 16) ltac:(lia) ltac:(lia)) as [Hcov _].
  set (total := div_ceil (len packet) (mtu - 16)) in *. assert (0 < total) by nia. rewrite (proj2 (Z.eqb_neq total 0)) by lia.
  cbn [orb]. destruct (7 <? total) eqn:Et; [left; split; [done|]; cbn; lia|]. right.
  unfold total. rewrite build_fragments_pieces by lia. fold total. rewrite rbind_ok. eexists. split; [done|].
  split; [cbn; lia|]. intros Hnil. apply (f_equal length) in Hnil. rewrite length_map, length_seqZ in Hnil. cbn in Hnil. lia.
Qed.

(** The pieces fit the MTU, number at most seven and concatenate to the packet. *)
Lemma fragment_packet_frags packet mtu frs :
  mtu < len packet -> fragment_packet packet mtu = Ok (Some frs) ->
  exists (pid hops : Z) (dest : bytes) (n mp : nat),
    pid = from_be (take 8 packet) /\ u64_ok pid /\ len dest = 5 /\ (2 <= n <= 7)%nat /\ Z.of_nat mp = mtu - 16 /\
    frs = map (fun i => fragment_bytes pid dest hops (Z.of_nat n) (Z.of_nat i) (piece mp packet i)) (seq 0 n) /\
    concat (map (piece mp packet) (seq 0 n)) = packet /\
    (forall i, (i < n)%nat -> 0 < len (piece mp packet i) <= mtu - 16).
Proof.
  intros Hl. unfold fragment_packet. rewrite if_false by lia.
  change ZT_PROTO_MIN_FRAGMENT_LENGTH with 16. change ZT_MAX_PACKET_FRAGMENTS with 7.
  destruct (mtu <=? 16) eqn:Hm; [done|]. destruct (Header.from_bytes packet) as [h|] eqn:Hh; [|done].
  rewrite if_false by lia. set (total := div_ceil (len packet) (mtu - 16)).
  destruct ((total =? 0) || (7 <? total)) eqn:Ht; [done|].
  destruct (div_ceil_spec (len packet) (mtu - 16) ltac:(lia) ltac:(lia)) as [Hcov Hin].
  fold total in Hcov, Hin.
  set (f := fun i => fragment_bytes (Header.packet_id h) (Header.dest_address h) (Header.hops h) total i
                       (piece (Z.to_nat (mtu - 16)) packet (Z.to_nat i))).
  assert (1 < total) as Ht2 by (pose proof (Hin 0); nia).
  unfold total. rewrite build_fragments_pieces by lia. fold total f. rewrite rbind_ok. intros [= <-].
  assert (ph_iv h = take 8 packet /\ len (ph_iv h) = 8 /\ len (ph_dest h) = 5) as (Hpid & Hiv & Hdest).
  { unfold Header.from_bytes in Hh. destruct (28 <=? len packet) eqn:H28; simplify_eq/=.
    split; [done|]. len_lia. }
  exists (Header.packet_id h), (Header.hops h), (Header.dest_address h), (Z.to_nat total), (Z.to_nat (mtu - 16)).
  split_and!; try lia.
  - unfold Header.packet_id. by rewrite Hpid.
  - by apply from_be_u64_ok.
  - done.
  - unfold f. rewrite Z2Nat.id by lia. unfold seqZ. rewrite map_map.
    apply map_ext. intros i. rewrite Z.add_0_r, Nat2Z.id. done.
  - rewrite concat_pieces. apply take_ge. unfold len in *. nia.
  - intros i Hi. pose proof (Hin (Z.of_nat i) ltac:(lia)). unfold piece. rewrite len_take, len_drop. nia.
Qed.

(** ** Delivering fragments *)

(** Feed datagrams with their arrival times; the outputs in order. *)
Fixpoint deliver (b : ReassemblyBuffer) (l : list (bytes * Z))
    : res Empty_set (ReassemblyBuffer * list (option bytes)) :=
  match l with
  | [] => Ok (b, [])
  | (data, now_ms) :: l =>
      let* ' (b, o) := receive_fragment b data now_ms in
      let* ' (b, os) := deliver b l in
      Ok (b, o :: os)
  end.

Section Delivery.
Context (pid : Z) (n : nat) (pl : nat -> bytes).
Context (Hn : (1 <= n <= 7)%nat).

(** The slot contents when the fragments in [D] have arrived. *)
Definition slots (D : list nat) : list (option bytes) :=
  map (fun j => if bool_decide (j ∈ D /\ (j < n)%nat) then Some (pl j) else None) (seq 0 7).

Lemma slots_lookup D j : (j < 7)%nat ->
  slots D !! j = Some (if bool_decide (j ∈ D /\ (j < n)%nat) then Some (pl j) else None).
Proof.
  intros Hj. unfold slots. rewrite list_lookup_fmap, lookup_seq_lt by done. done.
Qed.

Lemma slots_nil : slots [] = replicate 7 None.
Proof.
  unfold slots. simpl. repeat rewrite bool_decide_false by (intros [[]%elem_of_nil _]). done.
Qed.

Lemma slots_insert D i : (i < n)%nat -> <[i := Some (pl i)]> (slots D) = slots (i :: D).
Proof.
  intros Hi. apply list_eq. intros j. destruct (decide (j < 7)%nat).
  - rewrite (slots_lookup (i :: D)) by done. destruct (decide (j = i)) as [->|Hj].
    + rewrite list_lookup_insert_eq by (unfold slots; rewrite length_map, length_seq; lia).
      rewrite bool_decide_true; [done|]. split; [left|done].
    + rewrite list_lookup_insert_ne, slots_lookup by done. f_equal.
      erewrite bool_decide_ext; [done|]. rewrite elem_of_cons. naive_solver.
  - rewrite !lookup_ge_None_2; [done|..]; rewrite ?length_insert; unfold slots;
      rewrite length_map, length_seq; lia.
Qed.

Lemma slots_received D :
  len (filter is_Some (slots D)) = len (filter (fun j => j ∈ D /\ (j < n)%nat) (seq 0 7)).
Proof.
  unfold slots. generalize (seq 0 7) as l. intros l. induction l as [|j l IH]; [done|].
  cbn [map]. rewrite !filter_cons. case_bool_decide as H.
  - rewrite !decide_True by eauto. rewrite !len_cons. by rewrite IH.
  - rewrite !decide_False by (done || intros [? ?]; done). done.
Qed.

(** Complete exactly when every fragment number below [n] has arrived. *)
Lemma slots_count D : (Z.of_nat n <= len (filter is_Some (slots D))) <-> (forall j, (j < n)%nat -> j ∈ D).
Proof.
  rewrite slots_received. unfold len. set (F := filter (fun j => j ∈ D /\ (j < n)%nat) (seq 0 7)).
  assert (NoDup F) as Hnd by (apply NoDup_filter, NoDup_seq). split.
  - intros Hle j Hj. destruct (decide (j ∈ D)) as [|HjD]; [done|]. exfalso.
    assert (length (j :: F) <= length (seq 0 n))%nat as Hlt; [|rewrite length_seq in Hlt; simpl in Hlt; lia].
    apply NoDup_incl_length.
    + constructor; [|by apply NoDup_ListNoDup]. rewrite <- list_elem_of_In. unfold F.
      rewrite list_elem_of_filter. naive_solver.
    + intros k. rewrite <- !list_elem_of_In, elem_of_cons. unfold F.
      rewrite list_elem_of_filter, !elem_of_seq. intros [->|[[_ ?] _]]; lia.
  - intros HD. assert (length (seq 0 n) <= length F)%nat as Hle; [|rewrite length_seq in Hle; lia].
    apply NoDup_incl_length; [apply NoDup_ListNoDup, NoDup_seq|].
    intros k. rewrite <- !list_elem_of_In, elem_of_seq. intros Hk. unfold F.
    rewrite list_elem_of_filter, elem_of_seq. split; [split; [apply HD|]|]; lia.
Qed.

Lemma assemble_slots D : (forall j, (j < n)%nat -> j ∈ D) ->
  assemble (slots D) n = concat (map pl (seq 0 n)).
Proof.
  intros HD.
  assert (forall l m, (m <= length l)%nat -> assemble l m = concat (map (default []) (take m l))) as Ha.
  { induction l as [|x l IH]; intros [|m] Hm; simpl in *; try done; try lia. by rewrite IH by lia. }
  rewrite Ha by (unfold slots; rewrite length_map, length_seq; lia). f_equal.
  unfold slots. rewrite firstn_map, take_seq, map_map. replace (n `min` 7)%nat with n by lia.
  apply map_ext_in. intros j Hj%list_elem_of_In%elem_of_seq.
  rewrite bool_decide_true by (split; [apply HD|]; lia). done.
Qed.

Lemma slots_same D i : i ∈ D -> slots (i :: D) = slots D.
Proof.
  intros Hi. apply map_ext. intros j. erewrite bool_decide_ext; [done|].
  rewrite elem_of_cons. naive_solver.
Qed.

(** The buffer after the fragments numbered [D] (newest first) have arrived and the
    packet is still incomplete. *)
Definition partial (b : ReassemblyBuffer) (D : list nat) : Prop :=
  buffer_ok b /\
  match D with
  | [] => rb_pending b !! pid = None
  | _ => exists s, rb_pending b !! pid = Some s /\ fs_fragments s = slots D /\
           fs_total_expected s = Z.of_nat n
  end.

(** The slot [insert] finds or creates. *)
Lemma partial_slot b D now : partial b D -> exists s,
  default (fresh (Z.of_nat n) now) (evict_for b pid !! pid) = s /\ slot_ok s /\
  fs_fragments s = slots D /\ fs_total_expected s = Z.of_nat n.
Proof.
  intros [Hb HD]. destruct D as [|j D].
  - assert (evict_for b pid !! pid = None) as ->.
    { destruct (evict_for b pid !! pid) eqn:E; [|done]. apply evict_for_sub in E. congruence. }
    eexists. split; [done|]. split; [apply fresh_ok; lia|]. by rewrite slots_nil.
  - destruct HD as (s & Hs & Hf & Ht).
    assert (evict_for b pid = rb_pending b) as ->.
    { unfold evict_for. by rewrite bool_decide_false by (by rewrite Hs). }
    rewrite Hs. eexists. split; [done|]. by apply (bo_slots _ Hb) in Hs.
Qed.

Lemma store_slots s D i : (i < n)%nat -> fs_fragments s = slots D ->
  fs_fragments (store s i (pl i)) = slots (i :: D).
Proof.
  intros Hi Hs. unfold store. rewrite Hs, slots_lookup by lia. case_bool_decide as HD.
  - rewrite slots_same by naive_solver. done.
  - simpl. by apply slots_insert.
Qed.

(** One more fragment: either the packet is complete and comes out, or it stays. *)
Lemma insert_step b D i now : partial b D -> (i < n)%nat ->
  ((forall j, (j < n)%nat -> j ∈ i :: D) ->
    exists b', insert b pid (Z.of_nat i) (Z.of_nat n) (pl i) now =
      Ok (b', Some (concat (map pl (seq 0 n)))) /\ partial b' []) /\
  (forall k, (k < n)%nat -> k ∉ i :: D ->
    exists b', insert b pid (Z.of_nat i) (Z.of_nat n) (pl i) now = Ok (b', None) /\
      partial b' (i :: D)).
Proof.
  intros Hpart Hi. pose proof Hpart as [Hb _].
  destruct (partial_slot b D now Hpart) as (s & Hs & Hok & Hf & Ht).
  pose proof (insert_preserves_ok b pid (Z.of_nat i) (Z.of_nat n) (pl i) now Hb ltac:(lia))
    as (b' & o & Heq & Hb' & Hnone).
  pose proof Heq as Hrun. rewrite insert_spec in Hrun by (done || lia).
  rewrite if_false in Hrun by lia. cbv zeta in Hrun. rewrite Hs, Nat2Z.id in Hrun.
  destruct (store_facts s i (pl i) Hok) as (_ & H2 & H3).
  pose proof (store_slots s D i Hi Hf) as Hst. unfold received in H3. rewrite Hst in H3.
  rewrite H2, H3, Ht, Hst, Nat2Z.id in Hrun. pose proof (slots_count (i :: D)) as Hcnt.
  split.
  - intros Hall. rewrite if_true in Hrun by (apply Z.leb_le, Hcnt, Hall).
    rewrite assemble_slots in Hrun by done. injection Hrun as <- <-.
    eexists. split; [exact Heq|]. split; [done|]. by apply Hnone.
  - intros k Hk Hnk. rewrite if_false in Hrun.
    + injection Hrun as <- <-. eexists. split; [exact Heq|]. split; [done|].
      eexists. split; [apply lookup_insert_eq|]. by rewrite H2.
    + apply Z.leb_gt. destruct (Z.le_gt_cases (Z.of_nat n) (len (filter is_Some (slots (i :: D))))); [|done].
      exfalso. by apply Hnk, Hcnt.
Qed.

Lemma deliver_partial (frs : nat -> bytes) b D order :
  (forall i b now, (i < n)%nat ->
    receive_fragment b (frs i) now = insert b pid (Z.of_nat i) (Z.of_nat n) (pl i) now) ->
  partial b D -> Forall (fun '(i, _) => (i < n)%nat) order ->
  (exists k, (k < n)%nat /\ k ∉ D /\ k ∉ map fst order) ->
  exists b', deliver b (map (fun '(i, now) => (frs i, now)) order) =
      Ok (b', replicate (length order) None) /\
    partial b' (rev (map fst order) ++ D).
Proof.
  intros Hfr. revert b D. induction order as [|[i now] order IH]; intros b D HD Hall (k & Hk & HkD & Hko);
    [by exists b|].
  apply Forall_cons in Hall as [Hi Hall]. cbn [map fst] in Hko. apply not_elem_of_cons in Hko as [Hki Hko].
  destruct (insert_step b D i now HD Hi) as [_ Hstep].
  destruct (Hstep k Hk) as (b1 & Hins & Hb1); [by apply not_elem_of_cons|].
  destruct (IH b1 (i :: D) Hb1 Hall) as (b2 & Hrest & Hb2).
  { exists k. split_and!; [done|by apply not_elem_of_cons|done]. }
  exists b2. cbn [map deliver]. rewrite Hfr, Hins, rbind_ok, Hrest by done. simpl. split; [done|].
  by rewrite <- app_assoc.
Qed.
End Delivery.

(** C19. Fragmentation is transparent: a packet larger than the MTU that
    [fragment_packet] accepts is cut into two to seven datagrams, each within the MTU and each
    recognised as a fragment; delivered to a reassembly buffer in any order and with any
    duplicates, at any times, nothing comes out until the last missing fragment arrives, which
    yields the packet verbatim and frees its slot. *)
Theorem fragment_reassemble (packet : bytes) (mtu : Z) (frs : list bytes) (b : ReassemblyBuffer)
    (order : list (nat * Z)) (last : nat) (now : Z) :
  mtu < len packet -> fragment_packet packet mtu = Ok (Some frs) ->
  buffer_ok b -> rb_pending b !! from_be (take 8 packet) = None ->
  Forall (fun '(i, _) => (i < length frs)%nat) order ->
  (last < length frs)%nat -> last ∉ map fst order ->
  (forall j, (j < length frs)%nat -> j ∈ last :: map fst order) ->
  (2 <= length frs <= 7)%nat /\
  Forall (fun f => len f <= mtu /\ Header.is_fragment f = true) frs /\
  exists b', deliver b (map (fun '(i, t) => (nth i frs [], t)) (order ++ [(last, now)])) =
      Ok (b', replicate (length order) None ++ [Some packet]) /\
    rb_pending b' !! from_be (take 8 packet) = None.
Proof.
  intros Hl Hfp Hb Hpid0 Hord Hlast Hnl Hcov.
  destruct (fragment_packet_frags packet mtu frs Hl Hfp)
    as (pid & hops & dest & n & mp & Heq & Hpid & Hdest & Hn & Hmp & -> & Hcat & Hpc).
  rewrite <- Heq in *. rewrite length_map, length_seq in *.
  set (fr := fun i => fragment_bytes pid dest hops (Z.of_nat n) (Z.of_nat i) (piece mp packet i)).
  assert (forall i b t, (i < n)%nat ->
    receive_fragment b (fr i) t = insert b pid (Z.of_nat i) (Z.of_nat n) (piece mp packet i) t) as Hrecv.
  { intros i b0 t Hi. pose proof (Hpc i Hi).
    destruct (parse_fragment pid dest hops (Z.of_nat n) (Z.of_nat i) (piece mp packet i))
      as (h & Hh & H1 & H2 & H3 & _); [done|done|lia|lia|].
    unfold receive_fragment, fr. rewrite Hh, H1, H2, H3. unfold fragment_bytes.
    rewrite if_true by len_lia. rewrite !slice_from_skip by len_lia.
    by rewrite slice_from_here by len_lia. }
  split; [lia|]. split.
  { apply Forall_map, Forall_forall. intros i Hi%elem_of_seq. pose proof (Hpc i ltac:(lia)).
    destruct (parse_fragment pid dest hops (Z.of_nat n) (Z.of_nat i) (piece mp packet i))
      as (_ & _ & _ & _ & _ & _ & Hf); [done|done|lia|lia|].
    split; [|done]. unfold fr, fragment_bytes. len_lia. }
  assert (forall l : list (nat * Z), Forall (fun '(i, _) => (i < n)%nat) l ->
    map (fun '(i, t) => (nth i (map fr (seq 0 n)) [], t)) l = map (fun '(i, t) => (fr i, t)) l) as Hmap.
  { intros l Hl'. apply map_ext_in. intros [i t] Hin%list_elem_of_In.
    rewrite Forall_forall in Hl'. specialize (Hl' _ Hin). simpl in Hl'.
    rewrite (nth_indep _ [] (fr 0%nat)) by (by rewrite length_map, length_seq).
    by rewrite map_nth, seq_nth. }
  rewrite map_app, (Hmap order Hord), (Hmap [(last, now)]) by (by constructor).
  destruct (deliver_partial pid n (piece mp packet) ltac:(lia) fr b [] order Hrecv)
    as (b1 & Hrun & Hb1); [done|done|exists last; split_and!; [done|apply not_elem_of_nil|done]|].
  destruct (insert_step pid n (piece mp packet) ltac:(lia) b1 _ last now Hb1 Hlast) as [Hfin _].
  destruct Hfin as (b2 & Hins & Hb2).
  { intros j Hj. specialize (Hcov j Hj). rewrite app_nil_r.
    apply elem_of_cons in Hcov as [->|Hin]; [by left|right].
    by rewrite list_elem_of_In, <- in_rev, <- list_elem_of_In. }
  rewrite Hcat in Hins. exists b2. split; [|by destruct Hb2].
  assert (forall l1 l2 b b1 b2 os1 os2, deliver b l1 = Ok (b1, os1) -> deliver b1 l2 = Ok (b2, os2) ->
    deliver b (l1 ++ l2) = Ok (b2, os1 ++ os2)) as Happ.
  { clear. induction l1 as [|[x t] l1 IH]; intros l2 b b1 b2 os1 os2 H1 H2; simpl in *; [by simplify_eq|].
    destruct (receive_fragment b x t) as [[b0 o]|?| |]; simpl in *; try done.
    destruct (deliver b0 l1) as [[b3 os]|?| |] eqn:E; simpl in *; simplify_eq.
    by rewrite (IH _ _ _ _ _ _ E H2). }
  eapply Happ; [exact Hrun|]. simpl. by rewrite Hrecv, Hins.
Qed.

Lemma new_ok m : buffer_ok (new m).
Proof. split; [intros id s; simpl; by rewrite lookup_empty|unfold pending_len; simpl; rewrite map_size_empty; lia]. Qed.

(** A 40-byte packet cut for a 30-byte MTU: three fragments. *)
Definition sample_packet : bytes := map b8 (seqZ 0 40).
Definition sample_fragments : list bytes :=
  match fragment_packet sample_packet 30 with Ok (Some frs) => frs | _ => [] end.

Lemma fragment_reassemble_witness :
  (2 <= length sample_fragments <= 7)%nat /\
  Forall (fun f => len f <= 30 /\ Header.is_fragment f = true) sample_fragments /\
  exists b', deliver (new 8)
      (map (fun '(i, t) => (nth i sample_fragments [], t)) ([(2%nat, 5); (0%nat, 6)] ++ [(1%nat, 9)])) =
      Ok (b', replicate 2 None ++ [Some sample_packet]) /\
    rb_pending b' !! from_be (take 8 sample_packet) = None.
Proof.
  apply (fragment_reassemble sample_packet 30 sample_fragments (new 8) [(2%nat, 5); (0%nat, 6)] 1 9).
  - reflexivity.
  - vm_compute. reflexivity.
  - apply new_ok.
  - reflexivity.
  - repeat constructor.
  - vm_compute. lia.
  - vm_compute. intros H. repeat (apply elem_of_cons in H as [H|H]; [discriminate|]). by apply elem_of_nil in H.
  - change (length sample_fragments) with 3%nat. intros [|[|[|j]]] Hj; [..|lia]; simpl; set_solver.
Defined.
End Fragment.
