(* ===== verification/Inet.v ===== *)
(** * Inet: socket addresses and their wire format (zerotier-protocol:
    inet_address.rs), with the codec instance the messages embed. *)
From S2P Require Export Wire.

(** [core::net::SocketAddr]. *)
Inductive SocketAddr : Type :=
  | SockV4 (ip : bytes) (port : Z)
  | SockV6 (ip : bytes) (port flowinfo scope_id : Z).

#[export] Instance SocketAddr_eq_dec : EqDecision SocketAddr.
Proof. solve_decision. Defined.

Inductive InetAddress : Type :=
  | Null
  | V4 (ip : bytes) (port : Z)
  | V6 (ip : bytes) (port : Z).

#[export] Instance InetAddress_eq_dec : EqDecision InetAddress.
Proof. solve_decision. Defined.

Module Inet.

(** The array lengths and integer widths of the Rust type. *)
Definition wf (a : InetAddress) : Prop :=
  match a with
  | Null => True
  | V4 ip port => len ip = 4 /\ u16_ok port
  | V6 ip port => len ip = 16 /\ u16_ok port
  end.

Definition encode (a : InetAddress) : bytes :=
  match a with
  | Null => [b8 0x00]
  | V4 ip port => [b8 0x04] ++ ip ++ to_be 2 port
  | V6 ip port => [b8 0x06] ++ ip ++ to_be 2 port
  end.

Definition serialize (a : InetAddress) : W Z :=
  match a with
  | Null => set 0 (b8 0x00);* wret 1
  | V4 ip port =>
      set 0 (b8 0x04);*
      put 1 5 ip;*
      put 5 7 (to_be 2 port);*
      wret 7
  | V6 ip port =>
      set 0 (b8 0x06);*
      put 1 17 ip;*
      put 17 19 (to_be 2 port);*
      wret 19
  end.

Definition deserialize (d : bytes) : res ProtocolError (InetAddress * Z) :=
  if len d =? 0 then Err (TooShort 1 0) else
  let* b := get d 0 in
  match u8 b with
  | 0x00 => Ok (Null, 1)
  | 0x04 =>
      if len d <? 7 then Err (TooShort 7 (len d)) else
      let* ip := array_at 4 d 1 5 in
      let* port := be_at 2 d 5 in
      Ok (V4 ip port, 7)
  | 0x06 =>
      if len d <? 19 then Err (TooShort 19 (len d)) else
      let* ip := array_at 16 d 1 17 in
      let* port := be_at 2 d 17 in
      Ok (V6 ip port, 19)
  | _ => Err InvalidPacket
  end.

Definition to_socket_addr (a : InetAddress) : option SocketAddr :=
  match a with
  | Null => None
  | V4 ip port => Some (SockV4 ip port)
  | V6 ip port => Some (SockV6 ip port 0 0)
  end.

Definition from_socket_addr (a : SocketAddr) : InetAddress :=
  match a with
  | SockV4 ip port => V4 ip port
  | SockV6 ip port _ _ => V6 ip port
  end.

Lemma encode_len a : wf a -> 1 <= len (encode a) <= 19.
Proof. destruct a; simpl; intros; len_lia. Qed.

Lemma inet_serialize_emits a : wf a -> emits (serialize a) 0 (encode a) (len (encode a)).
Proof. destruct a; intros H; simpl in H; destruct_and?; unfold serialize, encode; emits_fields. Qed.

Lemma inet_deserialize_total d : safe (deserialize d) (fun '(a, n) => wf a /\ 0 < n <= len d).
Proof.
  unfold deserialize. pose proof (len_nonneg d). wp_reads.
  repeat case_match; wp_reads; simpl; split_and?; done || lia.
Qed.

Lemma inet_deserialize_encode a tl : wf a -> deserialize (encode a ++ tl) = Ok (a, len (encode a)).
Proof.
  destruct a as [|ip port|ip port]; simpl wf; intros H; destruct_and?; unfold deserialize, encode;
    rewrite <- ?app_assoc; read_fields; rewrite u8_b8;
    (change (0x00 mod 256) with 0 || change (0x04 mod 256) with 4 || change (0x06 mod 256) with 6);
    cbv iota beta; read_fields; rewrite ?from_be_u16 by done; f_equal; f_equal; len_lia.
Qed.

(** What survives the conversion to the standard library's address and back. *)
Lemma socket_addr_roundtrip a s : to_socket_addr a = Some s -> from_socket_addr s = a.
Proof. by destruct a; intros [= <-]. Qed.

End Inet.

#[export] Instance InetAddress_codec : WireCodec InetAddress := {|
  wc_shape := Inet.wf;
  wc_wf := Inet.wf;
  wc_encode := Inet.encode;
  wc_serialize := Inet.serialize;
  wc_deserialize := Inet.deserialize;
  wc_wf_shape := fun _ H => H;
  wc_emits := Inet.inet_serialize_emits;
  wc_total := Inet.inet_deserialize_total;
  wc_roundtrip := Inet.inet_deserialize_encode;
|}.
