(* ===== verification/Crypto.v ===== *)
(** * Crypto: the primitive algorithms the crates import, and the constructions
    zerotier-crypto builds directly on them (poly.rs, signing.rs,
    key_agreement.rs, kbkdf.rs, memory_hard.rs).

    SHA-512, HMAC-SHA384, X25519, Ed25519, Salsa20, Poly1305, AES-256 and GHASH are
    third-party crates: they are the operations of the class [Prims], and what the
    code relies on are the laws of [PrimLaws]. The module [Toy] has an instance
    of both, for evaluating the development on concrete inputs. *)
From S2P Require Export Protocol.

(** ** Primitives *)

Class Prims := {
  sha512 : bytes -> bytes;
  hmac_sha384 : bytes -> bytes -> bytes;               (* key, message *)
  x25519_public : bytes -> bytes;                      (* PublicKey::from(&secret) *)
  x25519 : bytes -> bytes -> bytes;                    (* secret.diffie_hellman(public) *)
  ed25519_public : bytes -> bytes;                     (* SigningKey::verifying_key *)
  ed25519_sign : bytes -> bytes -> bytes;              (* key, message *)
  ed25519_key_ok : bytes -> bool;                      (* VerifyingKey::from_bytes is Ok *)
  ed25519_verify : bytes -> bytes -> bytes -> bool;    (* key, message, signature *)
  salsa12_ks : bytes -> bytes -> nat -> byte;          (* key, nonce, position *)
  salsa20_ks : bytes -> bytes -> nat -> byte;
  poly1305 : bytes -> bytes -> bytes;                  (* one-time key, data *)
  aes256_enc : bytes -> bytes -> bytes;                (* key, block *)
  aes256_dec : bytes -> bytes -> bytes;
  ghash : bytes -> list bytes -> bytes;                (* H, blocks *)
}.

Class PrimLaws (P : Prims) := {
  sha512_len : forall m, len (sha512 m) = 64;
  hmac_sha384_len : forall k m, len (hmac_sha384 k m) = 48;
  x25519_public_len : forall s, len s = 32 -> len (x25519_public s) = 32;
  x25519_agree : forall a b, len a = 32 -> len b = 32 ->
    x25519 a (x25519_public b) = x25519 b (x25519_public a);
  ed25519_public_len : forall s, len s = 32 -> len (ed25519_public s) = 32;
  ed25519_public_ok : forall s, len s = 32 -> ed25519_key_ok (ed25519_public s) = true;
  ed25519_sign_len : forall s m, len s = 32 -> len (ed25519_sign s m) = 64;
  ed25519_correct : forall s m, len s = 32 ->
    ed25519_verify (ed25519_public s) m (ed25519_sign s m) = true;
  poly1305_len : forall k m, len (poly1305 k m) = 16;
  aes256_enc_len : forall k b, len b = 16 -> len (aes256_enc k b) = 16;
  aes256_dec_enc : forall k b, len b = 16 -> aes256_dec k (aes256_enc k b) = b;
  ghash_len : forall h bs, len (ghash h bs) = 16;
}.

(** [n] bytes of a key stream from position [pos]. *)
Definition keystream (ks : nat -> byte) (pos n : nat) : bytes := map ks (seq pos n).

Lemma length_keystream ks pos n : length (keystream ks pos n) = n.
Proof. unfold keystream. by rewrite length_map, length_seq. Qed.

Lemma len_keystream ks pos n : len (keystream ks pos n) = Z.of_nat n.
Proof. unfold len. by rewrite length_keystream. Qed.
#[export] Hint Rewrite len_keystream : len.

(** [cipher.apply_keystream(&mut d\[a..b\])] with the cipher at position [pos]. *)
Definition apply_keystream {E} (ks : nat -> byte) (pos : nat) (d : bytes) (a b : Z) : res E bytes :=
  let* s := slice d a b in
  copy_into d a b (xor_bytes s (keystream ks pos (length s))).

Lemma wp_apply_keystream {E} ks pos d a b (Q : bytes -> Prop) (R : E -> Prop) :
  0 <= a -> a <= b -> b <= len d -> (forall d', len d' = len d -> Q d') ->
  wp (apply_keystream ks pos d a b) Q R.
Proof.
  intros ? ? ? HQ. unfold apply_keystream. apply wp_bind, wp_slice; try done. intros s Hs.
  apply wp_copy_into; try done. rewrite len_xor_bytes, len_keystream. unfold len in *. lia.
Qed.

Section Constructions.
Context {P : Prims}.

(** ** poly.rs *)

Definition compute_mac (one_time_key data : bytes) : bytes := take 8 (poly1305 one_time_key data).

Definition compute_mac_multi (one_time_key : bytes) (chunks : list bytes) : bytes :=
  take 8 (poly1305 one_time_key (concat chunks)).

(** [for i in 0..8 { diff |= a\[i\] ^ b\[i\] }; diff == 0]. *)
Definition ct_eq (a b : bytes) : bool :=
  fold_left (fun diff '(x, y) => Z.lor diff (Z.lxor (u8 x) (u8 y))) (zip a b) 0 =? 0.

Definition verify_mac (one_time_key data expected : bytes) : bool :=
  ct_eq (compute_mac one_time_key data) expected.

Definition verify_mac_multi (one_time_key : bytes) (chunks : list bytes) (expected : bytes) : bool :=
  ct_eq (compute_mac_multi one_time_key chunks) expected.

(** ** signing.rs *)

(** [VerifyingKey::from_bytes] has succeeded on [verifying_key]. *)
Definition verify (verifying_key message signature : bytes) : res CryptoError unit :=
  let digest := take 32 (sha512 message) in
  if negb (bool_decide (drop 64 signature = digest)) then Err SignatureError
  else if ed25519_verify verifying_key digest (take 64 signature) then Ok tt
  else Err SignatureError.

Definition sign (signing_key message : bytes) : bytes :=
  let digest := take 32 (sha512 message) in
  ed25519_sign signing_key digest ++ digest.

(** ** key_agreement.rs *)

Definition key_agree (our_secret their_public : bytes) : bytes :=
  take 48 (sha512 (x25519 our_secret their_public)).

(** ** kbkdf.rs *)

Definition kbkdf_hmac_sha384 (key : bytes) (label : byte) : bytes :=
  hmac_sha384 key (map b8 [0x00; 0x00; 0x00; 0x00; 0x5A; 0x54] ++ [label] ++
                   map b8 [0x00; 0x00; 0x00; 0x00; 0x01; 0x80]).

Definition derive_k0 (shared_secret : bytes) : bytes := kbkdf_hmac_sha384 shared_secret "0"%byte.
Definition derive_k1 (shared_secret : bytes) : bytes := kbkdf_hmac_sha384 shared_secret "1"%byte.

(** ** memory_hard.rs *)

Definition MEMORY_SIZE : Z := 2097152.
Definition NUM_BLOCKS : Z := 32768.
Definition HASHCASH_THRESHOLD : Z := 17.

(** Copy block [i - 1] onto block [i] and encrypt it in place; the stream is at
    position [64 * i]. *)
Definition fill_block (ks : nat -> byte) (i : Z) (genmem : bytes) : res CryptoError bytes :=
  let prev_start := (i - 1) * 64 in
  let curr_start := i * 64 in
  let* prev_block := slice genmem prev_start (prev_start + 64) in
  let* genmem := copy_into genmem curr_start (curr_start + 64) prev_block in
  apply_keystream ks (Z.to_nat (64 * i)) genmem curr_start (curr_start + 64).

(** One iteration of the mixing loop; the state is the word index, the memory
    and the digest. *)
Definition mix_words (ks : nat -> byte) (st : Z * bytes * bytes) : res CryptoError (Z * bytes * bytes) :=
  let '(i, genmem, digest) := st in
  let* w1 := be_at 8 genmem (i * 8) in
  let idx1 := w1 mod 8 in
  let* w2 := be_at 8 genmem ((i + 1) * 8) in
  let idx2 := w2 mod (MEMORY_SIZE / 8) in
  let* tmp := slice genmem (idx2 * 8) (idx2 * 8 + 8) in
  let* dw := slice digest (idx1 * 8) (idx1 * 8 + 8) in
  let* genmem := copy_into genmem (idx2 * 8) (idx2 * 8 + 8) dw in
  let* digest := copy_into digest (idx1 * 8) (idx1 * 8 + 8) tmp in
  let* digest := apply_keystream ks (Z.to_nat (MEMORY_SIZE + 32 * i)) digest 0 (len digest) in
  Ok (i + 2, genmem, digest).

Definition compute_memory_hard_hash (public_key : bytes) : res CryptoError bytes :=
  let digest := sha512 public_key in
  let genmem := replicate (Z.to_nat MEMORY_SIZE) "000"%byte in
  let* key := slice digest 0 32 in
  let* nonce := slice digest 32 40 in
  let ks := salsa20_ks key nonce in
  let* genmem := apply_keystream ks 0 genmem 0 64 in
  let* genmem := for_range (Z.to_nat (NUM_BLOCKS - 1)) 1 (fill_block ks) genmem in
  let* st := while (Z.to_nat (MEMORY_SIZE / 8)) (fun '(i, _, _) => i <? MEMORY_SIZE / 8)
               (mix_words ks) (0, genmem, digest) in
  let '(_, _, digest) := st in
  Ok digest.

Definition derive_address (digest : bytes) : option bytes :=
  if HASHCASH_THRESHOLD <=? u8 (byte_at digest 0) then None else
  let addr := take 5 (drop 59 digest) in
  if bool_decide (addr = replicate 5 "000"%byte) then None else
  if bool_decide (addr = replicate 5 "255"%byte) then None else
  Some addr.

End Constructions.

(** ** Facts *)

Lemma lor_zero a b : Z.lor a b = 0 <-> a = 0 /\ b = 0.
Proof. apply Z.lor_eq_0_iff. Qed.

Lemma ct_eq_spec a b : length a = length b -> ct_eq a b = true <-> a = b.
Proof.
  unfold ct_eq. rewrite Z.eqb_eq.
  assert (forall acc, length a = length b ->
    fold_left (fun diff '(x, y) => Z.lor diff (Z.lxor (u8 x) (u8 y))) (zip a b) acc = 0 <->
    acc = 0 /\ a = b) as H.
  { revert b. induction a as [|x a IH]; intros [|y b] acc Hl; simpl in *; try done; [naive_solver|].
    rewrite IH by lia. rewrite lor_zero, Z.lxor_eq_0_iff. split.
    - intros [[? ?%u8_inj] ?]. by subst.
    - intros [? [= -> ->]]. done. }
  intros Hl. rewrite H by done. naive_solver.
Qed.

Section Facts.
Context {P : Prims} {L : PrimLaws P}.

Lemma len_compute_mac k m : len (compute_mac k m) = 8.
Proof. unfold compute_mac. rewrite len_take, poly1305_len. lia. Qed.

Lemma verify_mac_iff k m e : len e = 8 -> verify_mac k m e = true <-> e = compute_mac k m.
Proof.
  intros He. unfold verify_mac. rewrite ct_eq_spec; [naive_solver|].
  pose proof (len_compute_mac k m). unfold len in *. lia.
Qed.

Lemma len_sign k m : len k = 32 -> len (sign k m) = 96.
Proof. intros. unfold sign. rewrite len_app, ed25519_sign_len, len_take, sha512_len by done. lia. Qed.

Lemma verify_sign k m : len k = 32 -> verify (ed25519_public k) m (sign k m) = Ok tt.
Proof.
  intros Hk. unfold verify, sign. pose proof (ed25519_sign_len k (take 32 (sha512 m)) Hk) as Hl.
  rewrite drop_app_length' by (unfold len in Hl; lia).
  rewrite take_app_length' by (unfold len in Hl; lia).
  rewrite bool_decide_true by done. simpl. by rewrite ed25519_correct.
Qed.

Lemma key_agree_sym a b : len a = 32 -> len b = 32 ->
  key_agree a (x25519_public b) = key_agree b (x25519_public a).
Proof. intros. unfold key_agree. by rewrite x25519_agree. Qed.

Lemma len_key_agree a b : len (key_agree a b) = 48.
Proof. unfold key_agree. rewrite len_take, sha512_len. lia. Qed.

Lemma fill_block_safe ks i genmem :
  1 <= i < NUM_BLOCKS -> len genmem = MEMORY_SIZE ->
  wp (fill_block ks i genmem) (fun g => len g = MEMORY_SIZE) (fun _ => False).
Proof.
  unfold NUM_BLOCKS, MEMORY_SIZE, fill_block. intros Hi Hg.
  apply wp_bind, wp_slice; try lia. intros s Hs.
  apply wp_bind, wp_copy_into; try lia. intros d Hd.
  apply wp_apply_keystream; lia.
Qed.

(** One mixing step stays inside both arrays, because the indices are reduced
    modulo their word counts. *)
Lemma mix_words_safe ks i genmem digest :
  0 <= i -> i + 1 < MEMORY_SIZE / 8 -> len genmem = MEMORY_SIZE -> len digest = 64 ->
  wp (mix_words ks (i, genmem, digest))
    (fun '(j, g, d) => j = i + 2 /\ len g = MEMORY_SIZE /\ len d = 64) (fun _ => False).
Proof.
  unfold MEMORY_SIZE, mix_words. change (2097152 / 8) with 262144. intros Hi Hj Hg Hd.
  apply wp_bind, wp_be_u64; try lia. intros w1 _.
  apply wp_bind, wp_be_u64; try lia. intros w2 _.
  pose proof (Z.mod_pos_bound w1 8 ltac:(lia)). pose proof (Z.mod_pos_bound w2 262144 ltac:(lia)).
  unfold MEMORY_SIZE. change (2097152 / 8) with 262144.
  apply wp_bind, wp_slice; try lia. intros tmp Htmp.
  apply wp_bind, wp_slice; try lia. intros dw Hdw.
  apply wp_bind, wp_copy_into; try lia. intros g' Hg'.
  apply wp_bind, wp_copy_into; try lia. intros d' Hd'.
  apply wp_bind, wp_apply_keystream; try lia. intros d'' Hd''. simpl. lia.
Qed.

(** The hash is total and 64 bytes long. *)
Lemma memory_hard_safe pk :
  wp (compute_memory_hard_hash pk) (fun d => len d = 64) (fun _ => False).
Proof.
  unfold compute_memory_hard_hash. pose proof (sha512_len pk) as Hs.
  apply wp_bind, wp_slice; try lia. intros key _.
  apply wp_bind, wp_slice; try lia. intros nonce _.
  assert (len (replicate (Z.to_nat MEMORY_SIZE) "000"%byte) = MEMORY_SIZE) as Hm
    by (rewrite len_replicate; unfold MEMORY_SIZE; lia).
  apply wp_bind, wp_apply_keystream; [lia|lia|rewrite Hm; unfold MEMORY_SIZE; lia|].
  intros g Hg. rewrite Hm in Hg. clear Hm. apply wp_bind.
  apply (wp_for_range (fun _ g => len g = MEMORY_SIZE)).
  { intros j s Hj Hl. apply fill_block_safe; [|done]. unfold NUM_BLOCKS in *. lia. }
  { done. }
  intros g' Hg'. apply wp_bind.
  apply (wp_while (fun '(i, g, d) => 0 <= i /\ i mod 2 = 0 /\ len g = MEMORY_SIZE /\ len d = 64)
    (fun '(i, _, _) => MEMORY_SIZE / 8 - i)).
  - intros [[i g0] d0] (Hi & He & Hg0 & Hd0) Hc.
    unfold MEMORY_SIZE in Hc. change (2097152 / 8) with 262144 in Hc.
    split; [unfold MEMORY_SIZE; change (2097152 / 8) with 262144; lia|].
    eapply wp_mono; [apply mix_words_safe; try done; unfold MEMORY_SIZE; change (2097152 / 8) with 262144|
      |done].
    + assert (i <> 262143) by (intros ->; done). lia.
    + intros [[j g1] d1] (-> & Hg1 & Hd1). split_and!; try done; try lia.
      rewrite <- Zplus_mod_idemp_l, He. done.
  - unfold MEMORY_SIZE in *. split_and!; done || lia.
  - unfold MEMORY_SIZE. change (2097152 / 8) with 262144. lia.
  - intros [[i g0] d0] (_ & _ & _ & Hd0) _. done.
Qed.

End Facts.

Lemma derive_address_ok d a : derive_address d = Some a ->
  u8 (byte_at d 0) < 17 /\ a = take 5 (drop 59 d) /\
  a <> replicate 5 "000"%byte /\ a <> replicate 5 "255"%byte.
Proof.
  unfold derive_address, HASHCASH_THRESHOLD. intros H.
  repeat case_match; try done; simplify_eq.
  repeat match goal with H : bool_decide _ = false |- _ => apply bool_decide_eq_false in H end.
  split_and!; [lia|done..].
Qed.

(** ** A concrete instance, to evaluate the constructions *)

Module Toy.

Definition pad (n : nat) (m : bytes) : bytes := take n (m ++ replicate n "000"%byte).

Lemma len_pad n m : len (pad n m) = Z.of_nat n.
Proof. unfold pad. len_lia. Qed.

Definition checksum (m : bytes) : Z := fold_left (fun a b => a * 31 + u8 b + 7) m 0.

Definition sign (s m : bytes) : bytes := pad 32 s ++ pad 32 m.

#[export] Instance prims : Prims := {
  sha512 m := map (fun i => b8 (checksum m + i)) (seqZ 0 64);
  hmac_sha384 k m := pad 48 (m ++ k);
  x25519_public s := s;
  x25519 a b := xor_bytes a b;
  ed25519_public s := s;
  ed25519_sign := sign;
  ed25519_key_ok _ := true;
  ed25519_verify k m sg := bool_decide (sg = sign k m);
  salsa12_ks k n i := b8 (checksum k + checksum n + Z.of_nat i);
  salsa20_ks k n i := b8 (checksum k + checksum n + 3 * Z.of_nat i);
  poly1305 k m := map (fun i => b8 (checksum m + checksum k + i)) (seqZ 0 16);
  aes256_enc k b := xor_bytes b (pad 16 k);
  aes256_dec k b := xor_bytes b (pad 16 k);
  ghash h bs := map (fun i => b8 (checksum (concat bs) + checksum h + i)) (seqZ 0 16);
}.

Lemma xor_bytes_comm a b : xor_bytes a b = xor_bytes b a.
Proof.
  unfold xor_bytes. revert b. induction a as [|x a IH]; intros [|y b]; simpl; try done.
  rewrite IH. f_equal. unfold bxor. by rewrite Z.lxor_comm.
Qed.

Lemma len_mapZ {A} (f : Z -> A) n : 0 <= n -> len (map f (seqZ 0 n)) = n.
Proof. intros. unfold len. rewrite length_map, length_seqZ. lia. Qed.

#[export] Instance laws : PrimLaws prims.
Proof.
  split; intros; unfold sha512, hmac_sha384, x25519_public, x25519, ed25519_public, ed25519_sign,
    ed25519_key_ok, ed25519_verify, poly1305, aes256_enc, aes256_dec, ghash, prims, sign;
    rewrite ?len_mapZ by lia; rewrite ?len_app, ?len_pad, ?len_xor_bytes; try lia; try done.
  - apply xor_bytes_comm.
  - by apply bool_decide_eq_true.
  - rewrite len_pad. lia.
  - apply xor_bytes_cancel. pose proof (len_pad 16 k). unfold len in *. lia.
Qed.

End Toy.
