(* ===== verification/Armor.v ===== *)
(** * Armor: packet encryption and authentication with Salsa20/12 and Poly1305
    (zerotier-crypto: salsa.rs), and the relay's hop counter
    (zerotier-node: switch.rs, [increment_hops]). *)
From S2P Require Export Crypto Wire.

Definition PACKET_IV_OFFSET : Z := 0.
Definition PACKET_IV_LEN : Z := 8.
Definition PACKET_FLAGS_OFFSET : Z := 18.
Definition PACKET_MAC_OFFSET : Z := 19.
Definition PACKET_MAC_LEN : Z := 8.
Definition PACKET_VERB_OFFSET : Z := 27.
Definition PACKET_MIN_LEN : Z := 28.

Module Armor.
Section Armor.
Context {P : Prims}.

Definition mangle_key (shared_secret packet_header : bytes) (packet_size : Z)
    : res CryptoError bytes :=
  let* s18 := slice shared_secret 0 18 in
  let* h18 := slice packet_header 0 18 in
  let* s := get shared_secret 18 in
  let* f := get packet_header 18 in
  let size := wrap 16 packet_size in
  let* s19 := get shared_secret 19 in
  let* s20 := get shared_secret 20 in
  let* rest := slice shared_secret 21 32 in
  Ok (xor_bytes s18 h18 ++
      [bxor s (b8 (Z.land (u8 f) 0xf8))] ++
      [bxor s19 (b8 size)] ++
      [bxor s20 (b8 (Z.shiftr size 8))] ++
      rest).

(** [extract_poly1305_key_and_advance]: the first 32 bytes of a fresh stream;
    32 more are discarded, so the payload starts at position [PAYLOAD_POS]. *)
Definition poly1305_key (ks : nat -> byte) : bytes := keystream ks 0 32.
Definition PAYLOAD_POS : nat := 64.

Definition armor_packet (shared_secret packet : bytes) (encrypt_payload : bool)
    : res CryptoError bytes :=
  if len packet <? PACKET_MIN_LEN then Err InvalidFormat else
  let* mangled := mangle_key shared_secret packet (len packet) in
  let* nonce := array_at 8 packet PACKET_IV_OFFSET (PACKET_IV_OFFSET + PACKET_IV_LEN) in
  let cipher := salsa12_ks mangled nonce in
  let poly_key := poly1305_key cipher in
  let* packet :=
    if encrypt_payload && (PACKET_VERB_OFFSET <? len packet)
    then apply_keystream cipher PAYLOAD_POS packet PACKET_VERB_OFFSET (len packet)
    else Ok packet in
  let* body := slice_from packet PACKET_VERB_OFFSET in
  let mac := compute_mac poly_key body in
  copy_into packet PACKET_MAC_OFFSET (PACKET_MAC_OFFSET + PACKET_MAC_LEN) mac.

Definition dearmor_packet_unmangled (key packet : bytes) : res CryptoError bytes :=
  if len packet <? PACKET_MIN_LEN then Err InvalidFormat else
  let* saved_mac := array_at 8 packet PACKET_MAC_OFFSET (PACKET_MAC_OFFSET + PACKET_MAC_LEN) in
  let* nonce := array_at 8 packet PACKET_IV_OFFSET (PACKET_IV_OFFSET + PACKET_IV_LEN) in
  let poly_key := poly1305_key (salsa12_ks key nonce) in
  let* body := slice_from packet PACKET_VERB_OFFSET in
  if negb (verify_mac poly_key body saved_mac) then Err MacVerificationFailed else
  Ok packet.

Definition armor_packet_unmangled (key packet : bytes) (encrypt_payload : bool)
    : res CryptoError bytes :=
  if len packet <? PACKET_MIN_LEN then Err InvalidFormat else
  let* nonce := array_at 8 packet PACKET_IV_OFFSET (PACKET_IV_OFFSET + PACKET_IV_LEN) in
  let cipher := salsa12_ks key nonce in
  let poly_key := poly1305_key cipher in
  let* packet :=
    if encrypt_payload && (PACKET_VERB_OFFSET <? len packet)
    then apply_keystream cipher PAYLOAD_POS packet PACKET_VERB_OFFSET (len packet)
    else Ok packet in
  let* body := slice_from packet PACKET_VERB_OFFSET in
  let mac := compute_mac poly_key body in
  copy_into packet PACKET_MAC_OFFSET (PACKET_MAC_OFFSET + PACKET_MAC_LEN) mac.

Definition dearmor_packet (shared_secret packet : bytes) : res CryptoError bytes :=
  if len packet <? PACKET_MIN_LEN then Err InvalidFormat else
  let* saved_mac := array_at 8 packet PACKET_MAC_OFFSET (PACKET_MAC_OFFSET + PACKET_MAC_LEN) in
  let* mangled := mangle_key shared_secret packet (len packet) in
  let* nonce := array_at 8 packet PACKET_IV_OFFSET (PACKET_IV_OFFSET + PACKET_IV_LEN) in
  let cipher := salsa12_ks mangled nonce in
  let poly_key := poly1305_key cipher in
  let* body := slice_from packet PACKET_VERB_OFFSET in
  if negb (verify_mac poly_key body saved_mac) then Err MacVerificationFailed else
  let* flags := get packet PACKET_FLAGS_OFFSET in
  let cipher_suite := Z.land (Z.shiftr (u8 flags) 3) 0x07 in
  if cipher_suite =? 1
  then apply_keystream cipher PAYLOAD_POS packet PACKET_VERB_OFFSET (len packet)
  else Ok packet.

(** [start + len] is computed on [usize]s far below the word size. *)
Definition crypt_packet_field (shared_secret packet : bytes) (start ln : Z)
    : res CryptoError bytes :=
  if (len packet <? PACKET_MIN_LEN) || (len packet <? start) || (len packet <? start + ln)
  then Err InvalidFormat else
  let* nonce := array_at 8 packet PACKET_IV_OFFSET (PACKET_IV_OFFSET + PACKET_IV_LEN) in
  let nonce := take 7 nonce ++ [b8 (Z.land (u8 (byte_at nonce 7)) 0xf8)] in
  let* key := slice shared_secret 0 32 in
  apply_keystream (salsa12_ks key nonce) 0 packet start (start + ln).

(** ** switch.rs: the hop counter a relay rewrites *)

(** The packet afterwards and whether it may be forwarded. *)
Definition increment_hops (packet : bytes) : bytes * bool :=
  if len packet <? 19 then (packet, false) else
  let flags := u8 (byte_at packet 18) in
  let hops := Z.land flags 0x07 in
  if ZT_RELAY_MAX_HOPS <=? hops then (packet, false) else
  (<[18%nat := b8 (Z.lor (Z.land flags 0xf8) (hops + 1))]> packet, true).

(** ** Packets as fields *)

(** Header up to the flags, flags, MAC, and the authenticated body. *)
Definition frame (h : bytes) (f : byte) (m b : bytes) : bytes := h ++ [f] ++ m ++ b.

Lemma packet_view p : PACKET_MIN_LEN <= len p ->
  exists h f m b, p = frame h f m b /\ len h = 18 /\ len m = 8 /\ 1 <= len b.
Proof.
  unfold PACKET_MIN_LEN. intros Hp.
  exists (take 18 p), (byte_at p 18), (take 8 (drop 19 p)), (drop 27 p).
  split_and!; [|len_lia..]. unfold frame, byte_at.
  destruct (p !! 18%nat) as [x|] eqn:E.
  - simpl. rewrite <- (take_drop 18 p) at 1. f_equal.
    rewrite (drop_S p x 18) by done. f_equal.
    rewrite <- (take_drop 8 (drop 19 p)) at 1. by rewrite drop_drop.
  - apply lookup_ge_None in E. unfold len in Hp. lia.
Qed.

Lemma len_frame h f m b : len (frame h f m b) = len h + 1 + len m + len b.
Proof. unfold frame. len_lia. Qed.

(** The per-packet key as a function of the fields: only [f & 0xf8] matters. *)
Definition packet_key (ss h : bytes) (f : byte) (size : Z) : bytes :=
  xor_bytes (take 18 ss) h ++
  [bxor (byte_at ss 18) (b8 (Z.land (u8 f) 0xf8))] ++
  [bxor (byte_at ss 19) (b8 (wrap 16 size))] ++
  [bxor (byte_at ss 20) (b8 (Z.shiftr (wrap 16 size) 8))] ++
  take 11 (drop 21 ss).

Lemma get_byte_at {E} d i : 0 <= i < len d -> @get E d i = Ok (byte_at d (Z.to_nat i)).
Proof. intros Hi. destruct (@get_ok E d i Hi) as (x & -> & Hx). unfold byte_at. by rewrite Hx. Qed.

Lemma mangle_key_frame ss h f m b size : 32 <= len ss -> len h = 18 ->
  mangle_key ss (frame h f m b) size = Ok (packet_key ss h f size).
Proof.
  intros Hs Hh. unfold mangle_key. rewrite (slice_ok ss 0 18), rbind_ok by lia.
  unfold frame. rewrite slice_here, rbind_ok by len_lia.
  rewrite get_byte_at, rbind_ok by lia.
  rewrite get_skip, get_here, rbind_ok by len_lia.
  rewrite !get_byte_at, !rbind_ok by lia. rewrite slice_ok, rbind_ok by lia.
  unfold packet_key. by rewrite drop_0.
Qed.

Lemma apply_keystream_suffix {E} ks pos pre b n :
  n = len pre + len b ->
  @apply_keystream E ks pos (pre ++ b) (len pre) n =
  Ok (pre ++ xor_bytes b (keystream ks pos (length b))).
Proof.
  intros ->. pose proof (len_nonneg pre). pose proof (len_nonneg b).
  unfold apply_keystream. rewrite slice_app_skip by lia.
  rewrite !Z.sub_diag, Z.add_simpl_l, slice_all, rbind_ok.
  erewrite (copy_into_mid _ pre b []); [by rewrite app_nil_r|by rewrite app_nil_r|done|lia|].
  rewrite len_xor_bytes, len_keystream. unfold len. lia.
Qed.

Definition crypt_body (encrypt : bool) (ks : nat -> byte) (b : bytes) : bytes :=
  if encrypt then xor_bytes b (keystream ks PAYLOAD_POS (length b)) else b.

Lemma len_crypt_body e ks b : len (crypt_body e ks b) = len b.
Proof.
  destruct e; [|done]. simpl. rewrite len_xor_bytes, len_keystream. unfold len. lia.
Qed.

Lemma crypt_body_involutive e ks b : crypt_body e ks (crypt_body e ks b) = b.
Proof.
  destruct e; [|done]. simpl. pose proof (len_crypt_body true ks b) as Hl. simpl in Hl.
  unfold len in Hl. apply Nat2Z.inj in Hl. rewrite Hl. apply xor_bytes_cancel.
  by rewrite length_keystream.
Qed.

Definition cipher_of (ss h : bytes) (f : byte) (size : Z) : nat -> byte :=
  salsa12_ks (packet_key ss h f size) (take 8 h).

Lemma frame_iv {E} h f m b : len h = 18 -> @array_at E 8 (frame h f m b) 0 8 = Ok (take 8 h).
Proof.
  intros Hh. unfold frame. rewrite <- (take_drop 8 h) at 1. rewrite <- app_assoc.
  apply array_at_here; len_lia.
Qed.

Lemma frame_mac {E} h f m b : len h = 18 -> len m = 8 ->
  @array_at E 8 (frame h f m b) 19 27 = Ok m.
Proof. intros. unfold frame. by read_fields. Qed.

Lemma frame_body {E} h f m b : len h = 18 -> len m = 8 -> @slice_from E (frame h f m b) 27 = Ok b.
Proof. intros. unfold frame. by read_fields. Qed.

Lemma frame_flags {E} h f m b : len h = 18 -> @get E (frame h f m b) 18 = Ok f.
Proof. intros. unfold frame. by read_fields. Qed.

Lemma frame_encrypt {E} (e : bool) ks h f m b n : len h = 18 -> len m = 8 ->
  n = len (frame h f m b) -> 1 <= len b ->
  (if e && (27 <? n) then @apply_keystream E ks PAYLOAD_POS (frame h f m b) 27 n
   else Ok (frame h f m b)) = Ok (frame h f m (crypt_body e ks b)).
Proof.
  intros Hh Hm -> Hb. rewrite len_frame.
  replace (27 <? len h + 1 + len m + len b) with true by lia. rewrite andb_true_r.
  destruct e; [|done]. unfold frame. rewrite !app_assoc.
  rewrite <- (apply_keystream_suffix ks PAYLOAD_POS ((h ++ [f]) ++ m) b (len h + 1 + len m + len b)).
  - f_equal. len_lia.
  - len_lia.
Qed.

Lemma frame_set_mac {E} h f m b mac : len h = 18 -> len m = 8 -> len mac = 8 ->
  @copy_into E (frame h f m b) 19 27 mac = Ok (frame h f mac b).
Proof.
  intros. unfold frame. rewrite !(app_assoc h).
  rewrite (copy_into_mid _ (h ++ [f]) m b mac); [done|done|len_lia..].
Qed.

(** ** What the operations compute *)

Context {L : PrimLaws P}.

Lemma armor_frame ss h f m b e :
  32 <= len ss -> len h = 18 -> len m = 8 -> 1 <= len b ->
  let ks := cipher_of ss h f (len h + 1 + len m + len b) in
  let c := crypt_body e ks b in
  armor_packet ss (frame h f m b) e = Ok (frame h f (compute_mac (poly1305_key ks) c) c).
Proof.
  intros Hs Hh Hm Hb ks c. unfold armor_packet, PACKET_MIN_LEN.
  rewrite if_false by (rewrite len_frame; lia). rewrite mangle_key_frame, rbind_ok by done.
  change PACKET_IV_OFFSET with 0. change (0 + PACKET_IV_LEN) with 8.
  change PACKET_VERB_OFFSET with 27. change PACKET_MAC_OFFSET with 19.
  change (19 + PACKET_MAC_LEN) with 27.
  rewrite frame_iv, rbind_ok by done. rewrite frame_encrypt, rbind_ok by done.
  rewrite frame_body, rbind_ok by done. rewrite frame_set_mac by (done || apply len_compute_mac).
  unfold c, ks, cipher_of. by rewrite len_frame.
Qed.

Definition suite_of (f : byte) : Z := Z.land (Z.shiftr (u8 f) 3) 0x07.

Lemma dearmor_frame ss h f m b :
  32 <= len ss -> len h = 18 -> len m = 8 -> 1 <= len b ->
  let ks := cipher_of ss h f (len h + 1 + len m + len b) in
  dearmor_packet ss (frame h f m b) =
  if bool_decide (m = compute_mac (poly1305_key ks) b)
  then Ok (frame h f m (crypt_body (suite_of f =? 1) ks b))
  else Err MacVerificationFailed.
Proof.
  intros Hs Hh Hm Hb ks. unfold dearmor_packet, PACKET_MIN_LEN.
  rewrite if_false by (rewrite len_frame; lia).
  change PACKET_IV_OFFSET with 0. change (0 + PACKET_IV_LEN) with 8.
  change PACKET_VERB_OFFSET with 27. change PACKET_MAC_OFFSET with 19.
  change (19 + PACKET_MAC_LEN) with 27. change PACKET_FLAGS_OFFSET with 18.
  rewrite frame_mac, rbind_ok, mangle_key_frame, rbind_ok by done.
  rewrite frame_iv, rbind_ok, frame_body, rbind_ok by done.
  assert (salsa12_ks (packet_key ss h f (len (frame h f m b))) (take 8 h) = ks) as ->
    by (unfold ks, cipher_of; by rewrite len_frame).
  pose proof (verify_mac_iff (poly1305_key ks) b m Hm) as Hv.
  destruct (verify_mac _ _ _); simpl negb; cbv iota.
  - rewrite bool_decide_true by (by apply Hv). rewrite frame_flags, rbind_ok by done.
    fold (suite_of f). pose proof (frame_encrypt (E := CryptoError) (suite_of f =? 1) ks h f m b _ Hh Hm eq_refl Hb) as He.
    rewrite <- He. rewrite len_frame.
    replace (27 <? len h + 1 + len m + len b) with true by lia. by rewrite andb_true_r.
  - rewrite bool_decide_false; [done|]. intros ?%Hv. done.
Qed.

(** ** The relay *)

Definition bump (f : byte) : byte :=
  if ZT_RELAY_MAX_HOPS <=? Z.land (u8 f) 0x07 then f
  else b8 (Z.lor (Z.land (u8 f) 0xf8) (Z.land (u8 f) 0x07 + 1)).

Lemma bump_facts f :
  Z.land (u8 (bump f)) 0xf8 = Z.land (u8 f) 0xf8 /\
  Z.land (u8 (bump f)) 0x07 = (if 3 <=? Z.land (u8 f) 0x07 then Z.land (u8 f) 0x07
                               else Z.land (u8 f) 0x07 + 1) /\
  suite_of f = Z.land (Z.shiftr (Z.land (u8 f) 0xf8) 3) 0x07.
Proof. destruct f; vm_compute; repeat split. Qed.

Lemma increment_hops_frame h f m b : len h = 18 -> len m = 8 ->
  increment_hops (frame h f m b) = (frame h (bump f) m b, negb (3 <=? Z.land (u8 f) 0x07)).
Proof.
  intros Hh Hm. unfold increment_hops.
  rewrite if_false by (rewrite len_frame; pose proof (len_nonneg b); lia).
  assert (byte_at (frame h f m b) 18 = f) as ->.
  { unfold byte_at, frame. rewrite lookup_app_r by (unfold len in Hh; lia).
    by replace (18 - length h)%nat with 0%nat by (unfold len in Hh; lia). }
  unfold bump. change ZT_RELAY_MAX_HOPS with 3. destruct (3 <=? _); [done|]. simpl. f_equal.
  unfold frame. replace 18%nat with (length h + 0)%nat by (unfold len in Hh; lia).
  by rewrite insert_app_r.
Qed.

Definition relay (k : nat) (p : bytes) : bytes := Nat.iter k (fun p => fst (increment_hops p)) p.

Lemma relay_frame k h f m b : len h = 18 -> len m = 8 ->
  relay k (frame h f m b) = frame h (Nat.iter k bump f) m b.
Proof.
  intros Hh Hm. unfold relay. induction k as [|k IH]; [done|]. simpl Nat.iter.
  by rewrite IH, increment_hops_frame.
Qed.

Lemma bump_iter k f :
  Z.land (u8 (Nat.iter k bump f)) 0xf8 = Z.land (u8 f) 0xf8 /\
  Z.land (u8 (Nat.iter k bump f)) 0x07 =
    Z.max (Z.land (u8 f) 0x07) (Z.min 3 (Z.land (u8 f) 0x07 + Z.of_nat k)).
Proof.
  assert (0 <= Z.land (u8 f) 0x07) as H0 by (apply Z.land_nonneg; by right).
  induction k as [|k [IH1 IH2]].
  { change (Nat.iter 0 bump f) with f. change (Z.of_nat 0) with 0. split; [done|lia]. }
  change (Nat.iter (S k) bump f) with (bump (Nat.iter k bump f)).
  destruct (bump_facts (Nat.iter k bump f)) as (H1 & H2 & _).
  rewrite H1, IH1. split; [done|]. rewrite H2, IH2.
  clear - H0. case_match; lia.
Qed.

Lemma cipher_of_masked ss h f f' n : Z.land (u8 f') 0xf8 = Z.land (u8 f) 0xf8 ->
  cipher_of ss h f' n = cipher_of ss h f n.
Proof. intros H. unfold cipher_of, packet_key. by rewrite H. Qed.

Lemma suite_masked f f' : Z.land (u8 f') 0xf8 = Z.land (u8 f) 0xf8 -> suite_of f' = suite_of f.
Proof.
  intros H. destruct (bump_facts f) as (_ & _ & ->), (bump_facts f') as (_ & _ & ->). by rewrite H.
Qed.

End Armor.

Section Theorems.
Context {P : Prims} {L : PrimLaws P}.

(** C17. End to end through relays: a packet armored with the cipher suite its
    flags announce, forwarded by any number of relays that bump its hop counter,
    is accepted by the receiver, which recovers every byte of the header
    before the flags and of the verb and payload; the flags differ in the hop
    count only, which never passes three by relaying. *)
Theorem armor_relay_dearmor (ss p : bytes) (k : nat) :
  len ss = 48 -> PACKET_MIN_LEN <= len p ->
  exists q r,
    armor_packet ss p (suite_of (byte_at p 18) =? 1) = Ok q /\
    dearmor_packet ss (relay k q) = Ok r /\
    len q = len p /\ take 18 r = take 18 p /\ drop 27 r = drop 27 p /\
    Z.land (u8 (byte_at r 18)) 0xf8 = Z.land (u8 (byte_at p 18)) 0xf8 /\
    Z.land (u8 (byte_at r 18)) 0x07 =
      Z.max (Z.land (u8 (byte_at p 18)) 0x07) (Z.min 3 (Z.land (u8 (byte_at p 18)) 0x07 + Z.of_nat k)).
Proof.
  intros Hs Hp. destruct (packet_view p Hp) as (h & f & m & b & -> & Hh & Hm & Hb).
  assert (forall f m b, len m = 8 -> take 18 (frame h f m b) = h /\ byte_at (frame h f m b) 18 = f /\
    drop 27 (frame h f m b) = b) as Hview.
  { intros f' m' b' Hm'. unfold frame, byte_at. unfold len in Hh, Hm'. split_and!.
    - by rewrite take_app_length' by lia.
    - rewrite lookup_app_r by lia. by replace (18 - length h)%nat with 0%nat by lia.
    - rewrite !app_assoc, drop_app_length'; [done|]. rewrite !length_app. simpl. lia. }
  pose proof (bump_iter k f) as [Hk1 Hk2].
  set (e := suite_of f =? 1). set (ks := cipher_of ss h f (len h + 1 + len m + len b)).
  assert (len (compute_mac (poly1305_key ks) (crypt_body e ks b)) = 8) as Hmac by apply len_compute_mac.
  destruct (Hview f m b Hm) as (-> & -> & ->). eexists _, _. split_and!.
  - apply armor_frame; (done || lia).
  - rewrite relay_frame by done. fold ks e. rewrite dearmor_frame by (done || rewrite ?len_crypt_body; lia).
    rewrite len_crypt_body, Hmac, (cipher_of_masked ss h f _ _ Hk1), (suite_masked f _ Hk1).
    replace (len h + 1 + 8 + len b) with (len h + 1 + len m + len b) by lia. fold ks e.
    rewrite bool_decide_true by done. by rewrite crypt_body_involutive.
  - rewrite !len_frame, len_crypt_body, len_compute_mac. lia.
  - by apply Hview.
  - by apply Hview.
  - destruct (Hview (Nat.iter k bump f) _ b Hmac) as (_ & -> & _). done.
  - destruct (Hview (Nat.iter k bump f) _ b Hmac) as (_ & -> & _). done.
Qed.

(** C18. Authentication: [dearmor_packet] is total; a packet under 28 bytes is
    rejected as malformed, one whose MAC field is not the Poly1305 tag of the body under
    the key derived from the header and size is rejected, and every other one is
    accepted with its header and MAC untouched and, in cipher suite 1, its body decrypted. *)
Theorem dearmor_packet_spec (ss p : bytes) :
  len ss = 48 ->
  if len p <? 28 then dearmor_packet ss p = Err InvalidFormat else
  let ks := salsa12_ks (packet_key ss (take 18 p) (byte_at p 18) (len p)) (take 8 p) in
  if bool_decide (take 8 (drop 19 p) = compute_mac (poly1305_key ks) (drop 27 p))
  then dearmor_packet ss p =
    Ok (take 27 p ++ crypt_body (suite_of (byte_at p 18) =? 1) ks (drop 27 p))
  else dearmor_packet ss p = Err MacVerificationFailed.
Proof.
  intros Hs. destruct (len p <? 28) eqn:Hp; [unfold dearmor_packet, PACKET_MIN_LEN; by rewrite Hp|].
  destruct (packet_view p) as (h & f & m & b & -> & Hh & Hm & Hb); [unfold PACKET_MIN_LEN; lia|].
  assert (take 18 (frame h f m b) = h /\ byte_at (frame h f m b) 18 = f /\
    take 8 (frame h f m b) = take 8 h /\ take 8 (drop 19 (frame h f m b)) = m /\
    drop 27 (frame h f m b) = b /\ take 27 (frame h f m b) = (h ++ [f] ++ m))
    as (-> & -> & -> & -> & -> & ->).
  { unfold frame, byte_at, len in *. split_and!.
    - by rewrite take_app_length' by lia.
    - rewrite lookup_app_r by lia. by replace (18 - length h)%nat with 0%nat by lia.
    - by rewrite take_app_le by lia.
    - rewrite app_assoc, drop_app_length' by (rewrite length_app; simpl; lia).
      by rewrite take_app_length' by lia.
    - rewrite !app_assoc, drop_app_length'; [done|]. rewrite !length_app. simpl. lia.
    - rewrite !app_assoc, take_app_length'; [done|]. rewrite !length_app. simpl. lia. }
  cbv zeta. rewrite dearmor_frame, len_frame by (done || lia). fold (cipher_of ss h f (len h + 1 + len m + len b)).
  destruct (bool_decide _); [|done]. unfold frame. by rewrite <- !app_assoc.
Qed.

(** [crypt_packet_field] undoes itself: applied twice to a range after the
    IV it restores the packet, and one application changes nothing outside the range. *)
Theorem crypt_packet_field_involution (ss p : bytes) (start n : Z) :
  len ss = 48 -> PACKET_MIN_LEN <= len p -> 8 <= start -> 0 <= n -> start + n <= len p ->
  exists q, crypt_packet_field ss p start n = Ok q /\
    take (Z.to_nat start) q = take (Z.to_nat start) p /\
    drop (Z.to_nat (start + n)) q = drop (Z.to_nat (start + n)) p /\
    len q = len p /\ crypt_packet_field ss q start n = Ok p.
Proof.
  unfold PACKET_MIN_LEN. intros Hs Hp Hst Hn Hl.
  set (iv := take 8 p). set (a := take (Z.to_nat start - 8) (drop 8 p)).
  set (x := take (Z.to_nat n) (drop (Z.to_nat start) p)). set (c := drop (Z.to_nat (start + n)) p).
  assert (p = (iv ++ a) ++ x ++ c) as Hpe.
  { unfold iv, a, x, c. rewrite (split_at p 8 (Z.to_nat start)) at 1 by lia.
    rewrite <- app_assoc. do 2 f_equal.
    rewrite <- (take_drop (Z.to_nat n) (drop (Z.to_nat start) p)) at 1.
    rewrite drop_drop. do 2 f_equal. lia. }
  assert (len iv = 8) as Hiv by (unfold iv; len_lia).
  assert (len a = start - 8) as Ha by (unfold a; len_lia).
  assert (len x = n) as Hx by (unfold x; len_lia).
  clearbody iv a x c. subst p.
  set (ks := keystream (salsa12_ks (take 32 ss)
    (take 7 iv ++ [b8 (Z.land (u8 (byte_at iv 7)) 0xf8)])) 0 (Z.to_nat n)).
  assert (len ks = n) as Hks by (unfold ks; rewrite len_keystream; lia).
  assert (forall x', len x' = n -> crypt_packet_field ss ((iv ++ a) ++ x' ++ c) start n =
    Ok ((iv ++ a) ++ xor_bytes x' ks ++ c)) as Hstep.
  { intros x' Hx'. unfold crypt_packet_field, PACKET_MIN_LEN.
    change (PACKET_IV_OFFSET + PACKET_IV_LEN) with 8. change PACKET_IV_OFFSET with 0.
    rewrite !len_app in *. rewrite if_false by lia.
    rewrite <- (app_assoc iv), array_at_here, rbind_ok by done. rewrite slice_ok, rbind_ok by lia.
    rewrite app_assoc. unfold apply_keystream. rewrite slice_app_skip, slice_here by len_lia.
    rewrite rbind_ok, drop_0. change (Z.to_nat (32 - 0)) with 32%nat.
    replace (length x') with (Z.to_nat n) by (unfold len in Hx'; lia). fold ks.
    rewrite (copy_into_mid _ (iv ++ a) x' c); [done|done|len_lia..]. }
  assert (len (xor_bytes x ks) = n) as Hxl by (rewrite len_xor_bytes; lia).
  eexists. split; [by apply Hstep|]. split_and!.
  - by rewrite !take_app_length' by (rewrite length_app; unfold len in *; lia).
  - rewrite !(app_assoc (iv ++ a)).
    by rewrite !drop_app_length' by (rewrite !length_app; unfold len in *; lia).
  - rewrite !len_app. lia.
  - rewrite Hstep by done. do 3 f_equal. apply xor_bytes_cancel. unfold len in *. lia.
Qed.

(** The hop counter: a packet whose counter reached the limit (or too short to
    hold one) is refused unchanged; otherwise the counter grows by exactly one and no
    other bit of the packet changes. *)
Theorem increment_hops_spec (p : bytes) :
  let hops q := Z.land (u8 (byte_at q 18)) 0x07 in
  if (len p <? 19) || (3 <=? hops p) then increment_hops p = (p, false) else
  exists q, increment_hops p = (q, true) /\ hops q = hops p + 1 /\ hops q <= 3 /\
    Z.land (u8 (byte_at q 18)) 0xf8 = Z.land (u8 (byte_at p 18)) 0xf8 /\
    len q = len p /\ forall i, i <> 18%nat -> q !! i = p !! i.
Proof.
  intros hops. unfold increment_hops, hops. change ZT_RELAY_MAX_HOPS with 3.
  destruct (len p <? 19) eqn:Hl; [done|]. simpl.
  pose proof (bump_facts (byte_at p 18)) as (H1 & H2 & _). unfold bump in H1, H2.
  change ZT_RELAY_MAX_HOPS with 3 in *.
  destruct (3 <=? Z.land (u8 (byte_at p 18)) 7) eqn:Hh; [done|].
  eexists. split; [done|].
  assert (byte_at (<[18%nat:=b8 (Z.lor (Z.land (u8 (byte_at p 18)) 248)
    (Z.land (u8 (byte_at p 18)) 7 + 1))]> p) 18 =
    b8 (Z.lor (Z.land (u8 (byte_at p 18)) 248) (Z.land (u8 (byte_at p 18)) 7 + 1))) as ->.
  { unfold byte_at at 1. rewrite list_lookup_insert_eq; [done|]. unfold len in Hl. lia. }
  rewrite H1, H2. split_and!; try lia.
  - unfold len. by rewrite length_insert.
  - intros i Hi. by rewrite list_lookup_insert_ne.
Qed.
End Theorems.

(** A 40-byte packet of cipher suite 1 and a session secret. *)
Definition sample_secret : bytes := map b8 (seqZ 100 48).
Definition sample_packet : bytes := map b8 (seqZ 0 18) ++ [b8 0x08] ++ map b8 (seqZ 19 21).

Lemma armor_relay_dearmor_witness :
  exists q r,
    @armor_packet Toy.prims sample_secret sample_packet (suite_of (byte_at sample_packet 18) =? 1) = Ok q /\
    @dearmor_packet Toy.prims sample_secret (relay 2 q) = Ok r /\
    drop 27 r = drop 27 sample_packet /\ Z.land (u8 (byte_at r 18)) 0x07 = 2.
Proof.
  destruct (@armor_relay_dearmor Toy.prims Toy.laws sample_secret sample_packet 2)
    as (q & r & Hq & Hr & _ & _ & Hd & _ & Hh); [reflexivity|vm_compute; discriminate|].
  exists q, r. split; [exact Hq|]. split; [exact Hr|]. split; [exact Hd|exact Hh].
Defined.

Lemma dearmor_packet_spec_witness :
  @dearmor_packet Toy.prims sample_secret (take 20 sample_packet) = Err InvalidFormat /\
  @dearmor_packet Toy.prims sample_secret sample_packet = Err MacVerificationFailed.
Proof.
  split.
  - exact (@dearmor_packet_spec Toy.prims Toy.laws sample_secret (take 20 sample_packet) eq_refl).
  - exact (@dearmor_packet_spec Toy.prims Toy.laws sample_secret sample_packet eq_refl).
Defined.

Lemma crypt_packet_field_involution_witness :
  exists q, @crypt_packet_field Toy.prims sample_secret sample_packet 30 6 = Ok q /\
    q <> sample_packet /\ @crypt_packet_field Toy.prims sample_secret q 30 6 = Ok sample_packet.
Proof.
  destruct (@crypt_packet_field_involution Toy.prims sample_secret sample_packet 30 6)
    as (q & Hq & _ & _ & _ & Hd); [reflexivity|vm_compute; discriminate|lia|lia|vm_compute; discriminate|].
  exists q. split; [exact Hq|]. split; [|exact Hd].
  assert (q = match @crypt_packet_field Toy.prims sample_secret sample_packet 30 6 with Ok x => x | _ => [] end) as ->
    by (by rewrite Hq).
  vm_compute. discriminate.
Defined.
End Armor.
