(* ===== verification/Siv.v ===== *)
(** * Siv: the AES-GMAC-SIV packet construction, cipher suite 3
    (zerotier-crypto: aes_gmac_siv.rs). *)
From S2P Require Export Armor.

Module Siv.
Section Siv.
Context {P : Prims}.

(** Big-endian increment of the low 32 bits of the counter block. *)
Definition incr_counter (nonce_counter : bytes) : bytes :=
  take 12 nonce_counter ++ to_be 4 (wrap 32 (from_be (drop 12 nonce_counter) + 1)).

Fixpoint ctr_chunks (key nonce_counter : bytes) (chunks : list bytes) : list bytes :=
  match chunks with
  | [] => []
  | chunk :: chunks =>
      xor_bytes chunk (aes256_enc key nonce_counter) ::
      ctr_chunks key (incr_counter nonce_counter) chunks
  end.

Definition aes_ctr_encrypt (key nonce_counter data : bytes) : bytes :=
  concat (ctr_chunks key nonce_counter (chunks 16 data)).

(** The blocks [feed_padded] hands to GHASH. *)
Definition feed_padded (data : bytes) : list bytes :=
  let full_blocks := (length data / 16)%nat in
  let full := map (fun i => take 16 (drop (i * 16) data)) (seq 0 full_blocks) in
  let remainder := (length data mod 16)%nat in
  if (0 <? remainder)%nat
  then full ++ [drop (full_blocks * 16) data ++ replicate (16 - remainder) "000"%byte]
  else full.

Definition gmac_compute (k0 iv aad data : bytes) : bytes :=
  let h_block := aes256_enc k0 (replicate 16 "000"%byte) in
  let padded_aad_len := if len aad =? 0 then 0 else (len aad + 15) / 16 * 16 in
  let combined_bits := (padded_aad_len + len data) * 8 in
  let len_block := to_be 8 combined_bits ++ replicate 8 "000"%byte in
  let ghash_bytes := ghash h_block (feed_padded aad ++ feed_padded data ++ [len_block]) in
  let j0 := iv ++ replicate 7 "000"%byte ++ ["001"%byte] in
  xor_bytes ghash_bytes (aes256_enc k0 j0).

Definition shorten_tag (tag128 : bytes) : bytes := xor_bytes (take 8 tag128) (drop 8 tag128).

(** [nonce_counter\[12\] &= 0x7f]. *)
Definition mask_counter (encrypted_tag : bytes) : bytes :=
  <[12%nat := b8 (Z.land (u8 (byte_at encrypted_tag 12)) 0x7f)]> encrypted_tag.

Definition armor_packet (k0 k1 packet aad : bytes) : res CryptoError bytes :=
  if len packet <? PACKET_MIN_LEN then Err CryptoTooShort else
  let payload_start := PACKET_VERB_OFFSET in
  let payload_len := len packet - payload_start in
  let* original_iv := array_at 8 packet PACKET_IV_OFFSET (PACKET_IV_OFFSET + PACKET_IV_LEN) in
  let* payload := slice_from packet payload_start in
  let mac := shorten_tag (gmac_compute k0 original_iv aad payload) in
  let* packet := copy_into packet PACKET_MAC_OFFSET (PACKET_MAC_OFFSET + PACKET_MAC_LEN) mac in
  let encrypted_tag := aes256_enc k1 (original_iv ++ mac) in
  let* packet := copy_into packet PACKET_IV_OFFSET (PACKET_IV_OFFSET + PACKET_IV_LEN)
                   (take 8 encrypted_tag) in
  let* packet := copy_into packet PACKET_MAC_OFFSET (PACKET_MAC_OFFSET + PACKET_MAC_LEN)
                   (drop 8 encrypted_tag) in
  let nonce_counter := mask_counter encrypted_tag in
  if 0 <? payload_len then
    let* payload := slice_from packet payload_start in
    copy_into packet payload_start (len packet) (aes_ctr_encrypt k1 nonce_counter payload)
  else Ok packet.

(** The packet after decryption and whether its MAC is valid. *)
Definition dearmor_packet (k0 k1 packet aad : bytes) : res CryptoError (bytes * bool) :=
  if len packet <? PACKET_MIN_LEN then Err CryptoTooShort else
  let payload_start := PACKET_VERB_OFFSET in
  let payload_len := len packet - payload_start in
  let* e_iv := slice packet PACKET_IV_OFFSET (PACKET_IV_OFFSET + PACKET_IV_LEN) in
  let* e_mac := slice packet PACKET_MAC_OFFSET (PACKET_MAC_OFFSET + PACKET_MAC_LEN) in
  let encrypted_tag := e_iv ++ e_mac in
  let decrypted_tag := aes256_dec k1 encrypted_tag in
  let original_iv := take 8 decrypted_tag in
  let original_mac := drop 8 decrypted_tag in
  let nonce_counter := mask_counter encrypted_tag in
  let* packet :=
    if 0 <? payload_len then
      let* payload := slice_from packet payload_start in
      copy_into packet payload_start (len packet) (aes_ctr_encrypt k1 nonce_counter payload)
    else Ok packet in
  let* payload := slice_from packet payload_start in
  let computed_mac := shorten_tag (gmac_compute k0 original_iv aad payload) in
  Ok (packet, ct_eq computed_mac original_mac).

(** ** Counter mode *)

Lemma aes_ctr_nil key nc : aes_ctr_encrypt key nc [] = [].
Proof. done. Qed.

Lemma aes_ctr_cons key nc data : data <> [] ->
  aes_ctr_encrypt key nc data =
  xor_bytes (take 16 data) (aes256_enc key nc) ++
  aes_ctr_encrypt key (incr_counter nc) (drop 16 data).
Proof. intros. unfold aes_ctr_encrypt. by rewrite chunks_cons by (done || lia). Qed.

Context {L : PrimLaws P}.

Lemma len_incr_counter nc : len nc = 16 -> len (incr_counter nc) = 16.
Proof. intros. unfold incr_counter. len_lia. Qed.

Lemma len_aes_ctr key nc data : len nc = 16 -> len (aes_ctr_encrypt key nc data) = len data.
Proof.
  revert nc. induction data as [|data Hd IH] using (chunks_ind 16 ltac:(lia)); [done|]. intros nc Hn.
  rewrite aes_ctr_cons by done. pose proof (aes256_enc_len key nc Hn) as Hb.
  rewrite len_app, IH by (by apply len_incr_counter). rewrite len_xor_bytes, Hb.
  rewrite len_take, len_drop. pose proof (len_nonneg data). lia.
Qed.

(** Counter mode is its own inverse. *)
Lemma aes_ctr_involutive key nc data : len nc = 16 ->
  aes_ctr_encrypt key nc (aes_ctr_encrypt key nc data) = data.
Proof.
  revert nc. induction data as [|data Hd IH] using (chunks_ind 16 ltac:(lia)); [done|]. intros nc Hn.
  pose proof (aes256_enc_len key nc Hn) as Hb. pose proof (len_incr_counter nc Hn) as Hi.
  assert (0 < length data)%nat as Hp by (destruct data; [done|simpl; lia]).
  assert (aes_ctr_encrypt key nc data <> []) as Hne.
  { pose proof (len_aes_ctr key nc data Hn) as Hl. intros Hnil. rewrite Hnil in Hl.
    unfold len in Hl. simpl in Hl. lia. }
  rewrite (aes_ctr_cons key nc (aes_ctr_encrypt key nc data)) by done.
  rewrite (aes_ctr_cons key nc data) by done.
  set (x := xor_bytes (take 16 data) (aes256_enc key nc)).
  set (rest := aes_ctr_encrypt key (incr_counter nc) (drop 16 data)).
  assert (length x = (16 `min` length data)%nat) as Hx.
  { unfold x, xor_bytes. rewrite length_zip_with, length_take. unfold len in Hb. lia. }
  assert (take 16 (x ++ rest) = x /\ drop 16 (x ++ rest) = rest) as [-> ->].
  { destruct (decide (length data <= 16)%nat).
    - assert (rest = []) as -> by (unfold rest; by rewrite (drop_ge data 16)).
      rewrite app_nil_r. split; [apply take_ge|apply drop_ge]; lia.
    - split; [apply take_app_length'|apply drop_app_length']; lia. }
  unfold rest. rewrite IH by done. unfold x. rewrite xor_bytes_cancel; [apply take_drop|].
  rewrite length_take. unfold len in Hb. lia.
Qed.

Lemma len_shorten_tag t : len t = 16 -> len (shorten_tag t) = 8.
Proof. intros. unfold shorten_tag. len_lia. Qed.

Lemma len_gmac k0 iv aad data : len iv = 8 -> len (gmac_compute k0 iv aad data) = 16.
Proof.
  intros. unfold gmac_compute. rewrite len_xor_bytes, ghash_len, aes256_enc_len; [lia|].
  rewrite !len_app, len_replicate. change (len ["001"%byte]) with 1. lia.
Qed.

Lemma len_mask_counter t : len (mask_counter t) = len t.
Proof. unfold mask_counter, len. by rewrite length_insert. Qed.
End Siv.

Section Theorems.
Context {P : Prims} {L : PrimLaws P}.

(** IV, addresses and flags, MAC, payload. *)
Definition sframe (iv h m b : bytes) : bytes := iv ++ h ++ m ++ b.

Lemma sframe_view p : 28 <= len p ->
  exists iv h m b, p = sframe iv h m b /\ len iv = 8 /\ len h = 11 /\ len m = 8 /\ 1 <= len b.
Proof.
  intros Hp. exists (take 8 p), (take 11 (drop 8 p)), (take 8 (drop 19 p)), (drop 27 p).
  split_and!; [|len_lia..]. unfold sframe.
  rewrite (split_at p 8 19) at 1 by lia. do 2 f_equal.
  rewrite (split_at (drop 19 p) 0 8) at 1 by lia. rewrite take_0, drop_0, drop_drop. done.
Qed.

Lemma armor_sframe k0 k1 iv h m b aad :
  len iv = 8 -> len h = 11 -> len m = 8 -> 1 <= len b ->
  let mac := shorten_tag (gmac_compute k0 iv aad b) in
  let tag := aes256_enc k1 (iv ++ mac) in
  armor_packet k0 k1 (sframe iv h m b) aad =
  Ok (sframe (take 8 tag) h (drop 8 tag) (aes_ctr_encrypt k1 (mask_counter tag) b)).
Proof.
  intros Hi Hh Hm Hb mac tag.
  assert (len mac = 8) as Hmac by (by apply len_shorten_tag, len_gmac).
  assert (len tag = 16) as Htag by (apply aes256_enc_len; rewrite len_app; lia).
  unfold armor_packet, PACKET_MIN_LEN, PACKET_IV_LEN, PACKET_MAC_LEN, PACKET_IV_OFFSET,
    PACKET_MAC_OFFSET, PACKET_VERB_OFFSET, sframe.
  rewrite if_false by len_lia.
  change (0 + 8) with 8. rewrite array_at_here, rbind_ok by done.
  rewrite !slice_from_skip by len_lia. rewrite slice_from_here, rbind_ok by lia. fold mac.
  rewrite (copy_into_mid _ (iv ++ h) m b mac), rbind_ok; [|by rewrite <- app_assoc|len_lia..].
  fold tag. rewrite (copy_into_mid _ [] iv (h ++ mac ++ b) (take 8 tag)), rbind_ok;
    [|by rewrite <- app_assoc|len_lia..].
  rewrite (copy_into_mid _ (take 8 tag ++ h) mac b (drop 8 tag)), rbind_ok;
    [|by rewrite <- app_assoc|len_lia..].
  rewrite if_true by len_lia.
  rewrite <- !app_assoc. rewrite !slice_from_skip by len_lia. rewrite slice_from_here, rbind_ok by len_lia.
  rewrite (copy_into_mid _ (take 8 tag ++ h ++ drop 8 tag) b []); [|by rewrite <- !app_assoc, app_nil_r|len_lia..|].
  - by rewrite <- !app_assoc, app_nil_r.
  - apply len_aes_ctr. by rewrite len_mask_counter.
Qed.

Lemma dearmor_sframe k0 k1 eiv h em b aad :
  len eiv = 8 -> len h = 11 -> len em = 8 -> 1 <= len b ->
  let tag := eiv ++ em in
  let dec := aes256_dec k1 tag in
  let pt := aes_ctr_encrypt k1 (mask_counter tag) b in
  dearmor_packet k0 k1 (sframe eiv h em b) aad =
  Ok (sframe eiv h em pt, ct_eq (shorten_tag (gmac_compute k0 (take 8 dec) aad pt)) (drop 8 dec)).
Proof.
  intros Hi Hh Hm Hb tag dec pt.
  assert (len pt = len b) as Hpt by (apply len_aes_ctr; rewrite len_mask_counter; unfold tag; len_lia).
  unfold dearmor_packet, PACKET_MIN_LEN, PACKET_IV_LEN, PACKET_MAC_LEN, PACKET_IV_OFFSET,
    PACKET_MAC_OFFSET, PACKET_VERB_OFFSET, sframe.
  rewrite if_false by len_lia. change (0 + 8) with 8. change (19 + 8) with 27.
  rewrite slice_here, rbind_ok by done. rewrite !slice_app_skip, slice_here, rbind_ok by len_lia.
  fold tag. fold dec. rewrite if_true by len_lia.
  rewrite !slice_from_skip by len_lia. rewrite slice_from_here, rbind_ok by len_lia. fold pt.
  rewrite (copy_into_mid _ (eiv ++ h ++ em) b [] pt), rbind_ok;
    [|by rewrite <- !app_assoc, app_nil_r|len_lia..].
  rewrite <- !app_assoc, app_nil_r. rewrite !slice_from_skip by len_lia.
  by rewrite slice_from_here, rbind_ok by len_lia.
Qed.

(** Cipher suite 3 end to end: the receiver with the same keys and
    associated data accepts the armored packet and recovers the verb and payload;
    destination, source and flags travel unchanged. *)
Theorem siv_armor_dearmor (k0 k1 p aad : bytes) :
  28 <= len p ->
  exists q r, armor_packet k0 k1 p aad = Ok q /\ dearmor_packet k0 k1 q aad = Ok (r, true) /\
    len q = len p /\ drop 27 r = drop 27 p /\
    take 11 (drop 8 r) = take 11 (drop 8 p).
Proof.
  intros Hp. destruct (sframe_view p Hp) as (iv & h & m & b & -> & Hi & Hh & Hm & Hb).
  set (mac := shorten_tag (gmac_compute k0 iv aad b)). set (tag := aes256_enc k1 (iv ++ mac)).
  assert (len mac = 8) as Hmac by (by apply len_shorten_tag, len_gmac).
  assert (len tag = 16) as Htag by (apply aes256_enc_len; rewrite len_app; lia).
  set (nc := mask_counter tag).
  assert (len nc = 16) as Hnc by (unfold nc; by rewrite len_mask_counter).
  assert (forall iv m b, len iv = 8 -> len m = 8 ->
    drop 27 (sframe iv h m b) = b /\ take 11 (drop 8 (sframe iv h m b)) = h) as Hv.
  { intros iv' m' b' H1 H2. unfold sframe, len in *. split.
    - rewrite !app_assoc, drop_app_length'; [done|]. rewrite !length_app. lia.
    - rewrite drop_app_length' by lia. by rewrite take_app_length' by lia. }
  exists (sframe (take 8 tag) h (drop 8 tag) (aes_ctr_encrypt k1 nc b)),
    (sframe (take 8 tag) h (drop 8 tag) b). split_and!.
  - by apply armor_sframe.
  - rewrite dearmor_sframe by (rewrite ?len_aes_ctr by done; len_lia).
    rewrite take_drop. fold nc. rewrite aes_ctr_involutive by done. do 2 f_equal.
    unfold tag. rewrite aes256_dec_enc by (rewrite len_app; lia).
    rewrite take_app_length', drop_app_length' by (unfold len in Hi; lia).
    by apply ct_eq_spec.
  - unfold sframe. rewrite !len_app, len_aes_ctr by done. len_lia.
  - destruct (Hv (take 8 tag) (drop 8 tag) b) as [-> _]; [len_lia..|].
    by destruct (Hv iv m b) as [-> _].
  - destruct (Hv (take 8 tag) (drop 8 tag) b) as [_ ->]; [len_lia..|].
    by destruct (Hv iv m b) as [_ ->].
Qed.
End Theorems.

Lemma siv_armor_dearmor_witness :
  exists q r, @armor_packet Toy.prims (replicate 32 (b8 3)) (replicate 32 (b8 9)) (map b8 (seqZ 0 50)) [b8 1] = Ok q /\
    @dearmor_packet Toy.prims (replicate 32 (b8 3)) (replicate 32 (b8 9)) q [b8 1] = Ok (r, true) /\
    drop 27 r = drop 27 (map b8 (seqZ 0 50)).
Proof.
  destruct (@siv_armor_dearmor Toy.prims Toy.laws (replicate 32 (b8 3)) (replicate 32 (b8 9)) (map b8 (seqZ 0 50)) [b8 1])
    as (q & r & Hq & Hr & _ & Hd & _); [vm_compute; discriminate|].
  exists q, r. split; [exact Hq|]. split; [exact Hr|exact Hd].
Defined.
End Siv.
