(* ===== verification/Identity.v ===== *)
(** * Identity: addresses, key pairs, identities, their string and wire formats
    (zerotier-crypto: hex_util.rs, identity.rs; zerotier-protocol:
    identity_wire.rs). *)
From S2P Require Export Crypto Wire.

(** ** hex_util.rs *)

Module Hex.

Definition HEX_CHARS : bytes := str "0123456789abcdef".

Definition encode (bs : bytes) : bytes :=
  flat_map (fun b => [byte_at HEX_CHARS (Z.to_nat (Z.shiftr (u8 b) 4));
                      byte_at HEX_CHARS (Z.to_nat (Z.land (u8 b) 0x0f))]) bs.

Definition nibble (c : byte) : res CryptoError Z :=
  let c := u8 c in
  if (48 <=? c) && (c <=? 57) then Ok (c - 48)                 (* '0'..='9' *)
  else if (97 <=? c) && (c <=? 102) then Ok (c - 97 + 10)      (* 'a'..='f' *)
  else if (65 <=? c) && (c <=? 70) then Ok (c - 65 + 10)       (* 'A'..='F' *)
  else Err InvalidFormat.

Fixpoint decode_pairs (hex : bytes) : res CryptoError bytes :=
  match hex with
  | [] => Ok []
  | [_] => Panic
  | h :: l :: rest =>
      let* high := nibble h in
      let* low := nibble l in
      let* bs := decode_pairs rest in
      Ok (b8 (Z.lor (Z.shiftl high 4) low) :: bs)
  end.

Definition decode (hex : bytes) : res CryptoError bytes :=
  if negb (len hex mod 2 =? 0) then Err InvalidFormat else decode_pairs hex.

Lemma encode_cons b bs :
  encode (b :: bs) = byte_at HEX_CHARS (Z.to_nat (Z.shiftr (u8 b) 4)) ::
                     byte_at HEX_CHARS (Z.to_nat (Z.land (u8 b) 0x0f)) :: encode bs.
Proof. done. Qed.

Lemma hex_len_encode bs : len (encode bs) = 2 * len bs.
Proof. induction bs as [|b bs IH]; [done|]. rewrite encode_cons, !len_cons, IH. lia. Qed.

Lemma encode_ascii bs : Forall (fun c => u8 c <= 0x7f) (encode bs).
Proof.
  induction bs as [|b bs IH]; [constructor|]. rewrite encode_cons.
  assert (u8 (byte_at HEX_CHARS (Z.to_nat (Z.shiftr (u8 b) 4))) <= 0x7f /\ u8 (byte_at HEX_CHARS (Z.to_nat (Z.land (u8 b) 0x0f))) <= 0x7f)
    as [? ?] by (destruct b; vm_compute; split; discriminate).
  by repeat constructor.
Qed.

Lemma nibble_encode b :
  nibble (byte_at HEX_CHARS (Z.to_nat (Z.shiftr (u8 b) 4))) = Ok (Z.shiftr (u8 b) 4) /\
  nibble (byte_at HEX_CHARS (Z.to_nat (Z.land (u8 b) 0x0f))) = Ok (Z.land (u8 b) 0x0f) /\
  b8 (Z.lor (Z.shiftl (Z.shiftr (u8 b) 4) 4) (Z.land (u8 b) 0x0f)) = b.
Proof. destruct b; vm_compute; repeat split. Qed.

Lemma decode_encode bs : decode (encode bs) = Ok bs.
Proof.
  unfold decode. rewrite hex_len_encode, Z.mul_comm, Z.mod_mul by lia. simpl.
  induction bs as [|b bs IH]; [done|]. rewrite encode_cons. cbn [decode_pairs].
  destruct (nibble_encode b) as (-> & -> & Hb). rewrite !rbind_ok, IH. simpl. by rewrite Hb.
Qed.

Lemma nibble_safe c (R : CryptoError -> Prop) : R InvalidFormat ->
  wp (nibble c) (fun z => 0 <= z < 16) R.
Proof. intros. unfold nibble. repeat case_match; simpl; first [zlia | done]. Qed.

(** Decoding halves the length; every error is [InvalidFormat]. *)
Lemma decode_safe hex : wp (decode hex) (fun bs => 2 * len bs = len hex) (eq InvalidFormat).
Proof.
  unfold decode. destruct (negb _) eqn:He; [done|]. apply negb_false_iff, Z.eqb_eq in He.
  remember (length hex) as n eqn:Hn. revert hex He Hn.
  induction (lt_wf n) as [n _ IH]. intros [|h [|l rest]] He ->; cbn [decode_pairs]; [done..|].
  apply wp_bind. eapply wp_mono; [by apply (nibble_safe h (eq InvalidFormat))| |done]. intros hi _.
  apply wp_bind. eapply wp_mono; [by apply (nibble_safe l (eq InvalidFormat))| |done]. intros lo _.
  apply wp_bind. rewrite !len_cons in *. eapply wp_mono; [eapply IH; [| |done]| |done].
  - simpl. lia.
  - by rewrite Z.add_assoc, <- Zplus_mod_idemp_l in He.
  - intros bs Hb. apply wp_ret. cbv beta in *. rewrite ?len_cons. lia.
Qed.

(** Hex digits never collide with the field separator. *)
Lemma colon_notin_encode bs : ":"%byte ∉ encode bs.
Proof.
  induction bs as [|b bs IH]; [apply not_elem_of_nil|]. rewrite encode_cons.
  rewrite !not_elem_of_cons. split_and!; [..|done]; by destruct b.
Qed.

End Hex.

(** ** identity.rs *)

Record PublicKey := mkPublicKey { pk_dh : bytes; pk_signing : bytes }.
Record SecretKey := mkSecretKey { sk_dh : bytes; sk_signing : bytes }.

Record Identity := mkIdentity {
  id_address : bytes;
  id_public : PublicKey;
  id_secret : option SecretKey;
}.

#[export] Instance PublicKey_eq_dec : EqDecision PublicKey.
Proof. solve_decision. Defined.
#[export] Instance SecretKey_eq_dec : EqDecision SecretKey.
Proof. solve_decision. Defined.
#[export] Instance Identity_eq_dec : EqDecision Identity.
Proof. solve_decision. Defined.

Module Ident.
Section Ident.
Context {P : Prims}.

(** [Address::new]. *)
Definition new_address (b : bytes) : res CryptoError bytes :=
  if bool_decide (b = replicate 5 "000"%byte) then Err CryptoInvalidAddress else
  if bool_decide (b = replicate 5 "255"%byte) then Err CryptoInvalidAddress else
  Ok b.

Definition address_from_hex (hex : bytes) : res CryptoError bytes :=
  if negb (len hex =? 10) then Err InvalidFormat else
  let* bs := Hex.decode hex in
  if negb (len bs =? 5) then Err InvalidFormat else
  new_address bs.

Definition address_to_hex (a : bytes) : bytes := Hex.encode a.

Definition public_from_bytes (b : bytes) : res CryptoError PublicKey :=
  if negb (len b =? 64) then Err InvalidKeyLength else
  Ok {| pk_dh := take 32 b; pk_signing := drop 32 b |}.

Definition public_to_bytes (k : PublicKey) : bytes := pk_dh k ++ pk_signing k.

Definition public_from_hex (hex : bytes) : res CryptoError PublicKey :=
  if negb (len hex =? 128) then Err InvalidKeyLength else
  let* b := Hex.decode hex in public_from_bytes b.

Definition public_to_hex (k : PublicKey) : bytes := Hex.encode (public_to_bytes k).

Definition secret_from_bytes (b : bytes) : res CryptoError SecretKey :=
  if negb (len b =? 64) then Err InvalidKeyLength else
  Ok {| sk_dh := take 32 b; sk_signing := drop 32 b |}.

Definition secret_to_bytes (k : SecretKey) : bytes := sk_dh k ++ sk_signing k.
Definition secret_to_hex (k : SecretKey) : bytes := Hex.encode (secret_to_bytes k).

(** [Identity::generate]: [rng pos] are the bytes the generator yields from
    [pos]; the result carries the generator's new position. The source loops
    until a key pair satisfies the proof of work. *)
Fixpoint generate (fuel : nat) (rng : nat -> byte) (pos : nat) : res CryptoError (Identity * nat) :=
  match fuel with
  | O => Hang
  | S fuel =>
      let dh_secret := keystream rng pos 32 in
      let dh_public := x25519_public dh_secret in
      let signing_key := keystream rng (pos + 32) 32 in
      let verifying_key := ed25519_public signing_key in
      let* digest := compute_memory_hard_hash (dh_public ++ verifying_key) in
      match derive_address digest with
      | Some addr_bytes =>
          match new_address addr_bytes with
          | Ok address =>
              Ok ({| id_address := address;
                     id_public := {| pk_dh := dh_public; pk_signing := verifying_key |};
                     id_secret := Some {| sk_dh := dh_secret; sk_signing := signing_key |} |},
                  (pos + 64)%nat)
          | _ => generate fuel rng (pos + 64)
          end
      | None => generate fuel rng (pos + 64)
      end
  end.

Definition validate_address (id : Identity) : res CryptoError bool :=
  let* digest := compute_memory_hard_hash (public_to_bytes (id_public id)) in
  match derive_address digest with
  | Some addr_bytes => Ok (bool_decide (addr_bytes = id_address id))
  | None => Ok false
  end.

Definition to_public_string (id : Identity) : bytes :=
  address_to_hex (id_address id) ++ str ":0:" ++ public_to_hex (id_public id).

Definition to_secret_string (id : Identity) : option bytes :=
  secret ← id_secret id;
  Some (address_to_hex (id_address id) ++ str ":0:" ++ public_to_hex (id_public id) ++
        str ":" ++ secret_to_hex secret).

(** The two accepted part counts, 3 and 4, are the two patterns. *)
Definition parse (s : bytes) : res CryptoError Identity :=
  let fields part0 part1 part2 (secret : res CryptoError (option SecretKey)) :=
    let* address := address_from_hex part0 in
    if negb (bool_decide (part1 = str "0")) then Err UnsupportedIdentityType else
    let* public_key := public_from_hex part2 in
    let* secret := secret in
    Ok {| id_address := address; id_public := public_key; id_secret := secret |} in
  match split_on ":"%byte s with
  | [p0; p1; p2] => fields p0 p1 p2 (Ok None)
  | [p0; p1; p2; p3] =>
      fields p0 p1 p2
        (let* b := map_err (fun _ => InvalidFormat) (Hex.decode p3) in
         let* k := secret_from_bytes b in Ok (Some k))
  | _ => Err InvalidFormat
  end.

(** ** identity_wire.rs *)

Definition IDENTITY_TYPE_C25519 : Z := 0.
Definition IDENTITY_PUBLIC_WIRE_LEN : Z := 71.

Definition serialize_identity_public (id : Identity) : W Z :=
  put 0 5 (id_address id);*
  set 5 (b8 IDENTITY_TYPE_C25519);*
  put 6 38 (pk_dh (id_public id));*
  put 38 70 (pk_signing (id_public id));*
  set 70 (b8 0x00);*
  wret IDENTITY_PUBLIC_WIRE_LEN.

Definition deserialize_identity (data : bytes) : res ProtocolError (Identity * Z) :=
  if len data <? IDENTITY_PUBLIC_WIRE_LEN
  then Err (TooShort IDENTITY_PUBLIC_WIRE_LEN (len data)) else
  let* addr_bytes := array_at 5 data 0 5 in
  let* address := map_err (fun _ => InvalidAddress) (new_address addr_bytes) in
  let* id_type := get data 5 in
  if negb (u8 id_type =? IDENTITY_TYPE_C25519) then Err InvalidPacket else
  let* dh := array_at 32 data 6 38 in
  let* signing := array_at 32 data 38 70 in
  let* public_key := map_err PCryptoError (public_from_bytes (dh ++ signing)) in
  let* secret_len := get data 70 in
  let consumed := IDENTITY_PUBLIC_WIRE_LEN + u8 secret_len in
  if len data <? consumed then Err (TooShort consumed (len data)) else
  Ok ({| id_address := address; id_public := public_key; id_secret := None |}, consumed).

(** ** Well-formed identities *)

Definition address_ok (a : bytes) : Prop :=
  len a = 5 /\ a <> replicate 5 "000"%byte /\ a <> replicate 5 "255"%byte.

(** What the Rust types guarantee: array lengths. *)
Definition shape (id : Identity) : Prop :=
  len (id_address id) = 5 /\ len (pk_dh (id_public id)) = 32 /\
  len (pk_signing (id_public id)) = 32.

Definition wf (id : Identity) : Prop :=
  address_ok (id_address id) /\ len (pk_dh (id_public id)) = 32 /\
  len (pk_signing (id_public id)) = 32 /\
  match id_secret id with
  | Some k => len (sk_dh k) = 32 /\ len (sk_signing k) = 32
  | None => True
  end.

Definition public_wf (id : Identity) : Prop := wf id /\ id_secret id = None.

Definition encode (id : Identity) : bytes :=
  id_address id ++ [b8 0] ++ pk_dh (id_public id) ++ pk_signing (id_public id) ++ [b8 0].

Lemma public_wf_shape id : public_wf id -> shape id.
Proof. by intros [((? & _ & _) & ? & ? & _) _]. Qed.

Lemma ident_len_encode id : shape id -> len (encode id) = 71.
Proof. intros (Ha & Hd & Hs). unfold encode. len_lia. Qed.

Lemma new_address_ok a : address_ok a -> new_address a = Ok a.
Proof. intros (_ & H0 & H1). unfold new_address. by rewrite !bool_decide_false. Qed.

Lemma wp_new_address a (Q : bytes -> Prop) (R : CryptoError -> Prop) :
  len a = 5 -> (address_ok a -> Q a) -> R CryptoInvalidAddress -> wp (new_address a) Q R.
Proof.
  intros Hl HQ HR. unfold new_address. repeat case_bool_decide; simpl; try done.
  by apply HQ.
Qed.

Lemma wp_public_from_bytes b (Q : PublicKey -> Prop) (R : CryptoError -> Prop) :
  len b = 64 -> (forall d s, len d = 32 -> len s = 32 -> b = d ++ s -> Q (mkPublicKey d s)) ->
  wp (public_from_bytes b) Q R.
Proof.
  intros Hl HQ. unfold public_from_bytes. rewrite Hl. simpl. apply HQ; [len_lia..|].
  by rewrite take_drop.
Qed.

Lemma public_roundtrip k : len (pk_dh k) = 32 -> len (pk_signing k) = 32 ->
  public_from_bytes (public_to_bytes k) = Ok k.
Proof.
  intros Hd Hs. unfold public_from_bytes, public_to_bytes.
  rewrite len_app, Hd, Hs. destruct k as [d s]. simpl in *.
  by rewrite take_app_length', drop_app_length' by (unfold len in Hd; lia).
Qed.

Lemma secret_roundtrip k : len (sk_dh k) = 32 -> len (sk_signing k) = 32 ->
  secret_from_bytes (secret_to_bytes k) = Ok k.
Proof.
  intros Hd Hs. unfold secret_from_bytes, secret_to_bytes.
  rewrite len_app, Hd, Hs. destruct k as [d s]. simpl in *.
  by rewrite take_app_length', drop_app_length' by (unfold len in Hd; lia).
Qed.

Lemma address_hex_roundtrip a : address_ok a -> address_from_hex (address_to_hex a) = Ok a.
Proof.
  intros Ha. pose proof Ha as (Hl & _). unfold address_from_hex, address_to_hex.
  rewrite Hex.hex_len_encode, Hl, Hex.decode_encode, rbind_ok, Hl. by apply new_address_ok.
Qed.

Lemma public_hex_roundtrip k : len (pk_dh k) = 32 -> len (pk_signing k) = 32 ->
  public_from_hex (public_to_hex k) = Ok k.
Proof.
  intros Hd Hs. unfold public_from_hex, public_to_hex.
  rewrite Hex.hex_len_encode, Hex.decode_encode. unfold public_to_bytes at 1.
  rewrite len_app, Hd, Hs. simpl. by apply public_roundtrip.
Qed.

Lemma ident_serialize_emits id : shape id ->
  emits (serialize_identity_public id) 0 (encode id) (len (encode id)).
Proof.
  intros (Ha & Hd & Hs). unfold serialize_identity_public, encode, IDENTITY_PUBLIC_WIRE_LEN.
  emits_fields.
Qed.

Lemma ident_deserialize_total d :
  safe (deserialize_identity d) (fun '(id, n) => public_wf id /\ 0 < n <= len d).
Proof.
  unfold deserialize_identity, IDENTITY_PUBLIC_WIRE_LEN. wp_reads.
  apply wp_map_err, wp_new_address; [done| |done]. wp_reads.
  apply wp_map_err, wp_public_from_bytes; [len_lia|]. wp_reads. unfold public_wf, wf.
  match goal with |- context [u8 ?x] => pose proof (u8_range x) end. simpl. split_and!; done || lia.
Qed.

Lemma ident_deserialize_encode id tl : public_wf id ->
  deserialize_identity (encode id ++ tl) = Ok (id, len (encode id)).
Proof.
  intros Hw. pose proof (public_wf_shape _ Hw) as Hsh. rewrite (ident_len_encode id Hsh).
  destruct Hsh as (Ha & Hd & Hs), Hw as [(Hok & _) Hn].
  unfold deserialize_identity, encode, IDENTITY_PUBLIC_WIRE_LEN.
  rewrite <- !app_assoc. read_fields. rewrite new_address_ok by done. simpl map_err.
  read_fields. change (u8 (b8 0)) with 0. simpl (negb _). cbv iota. read_fields.
  change (pk_dh (id_public id) ++ pk_signing (id_public id)) with (public_to_bytes (id_public id)).
  rewrite public_roundtrip by done. simpl map_err. read_fields.
  change (u8 (b8 0)) with 0. rewrite if_false by len_lia. destruct id; simpl in *. by rewrite Hn.
Qed.

Lemma ident_parse_total s : safe (parse s) wf.
Proof.
  unfold parse.
  assert (forall p0 p1 p2 (m : res CryptoError (option SecretKey)),
    safe m (fun o => match o with Some k => len (sk_dh k) = 32 /\ len (sk_signing k) = 32 | None => True end) ->
    safe (let* address := address_from_hex p0 in
          if negb (bool_decide (p1 = str "0")) then Err UnsupportedIdentityType else
          let* public_key := public_from_hex p2 in
          let* secret := m in
          Ok {| id_address := address; id_public := public_key; id_secret := secret |}) wf) as Hf.
  { intros p0 p1 p2 m Hm. apply wp_bind. unfold address_from_hex. apply wp_if; [done|].
    intros H0. apply wp_bind. eapply wp_mono; [apply Hex.decode_safe| |done]. intros bs Hbs.
    apply wp_if; [done|]. intros H5. apply wp_new_address; [zlia| |done]. intros Ha.
    apply wp_if; [done|]. intros _. apply wp_bind. unfold public_from_hex. apply wp_if; [done|].
    intros H2. apply wp_bind. eapply wp_mono; [apply Hex.decode_safe| |done]. intros pb Hpb.
    cbv beta in Hpb. apply wp_public_from_bytes; [zlia|]. intros d sg Hd Hs _.
    apply wp_bind. eapply wp_mono; [apply Hm| |done]. intros o Ho. apply wp_ret.
    unfold wf. simpl. done. }
  destruct (split_on _ s) as [|p0 [|p1 [|p2 [|p3 [|]]]]]; try done; apply Hf; [done|].
  apply wp_bind, wp_map_err. eapply wp_mono; [apply Hex.decode_safe| |done]. intros b _.
  apply wp_bind. unfold secret_from_bytes. apply wp_if; [done|]. intros Hb. simpl. len_lia.
Qed.

End Ident.

Section Theorems.
Context {P : Prims} {L : PrimLaws P}.

(** String round trip: parsing the public string of a well-formed identity gives
    it back without its secret, and parsing its secret string, which exists exactly
    when it has a secret, gives back all of it. *)
Lemma identity_string_roundtrip (id : Identity) :
  wf id ->
  parse (to_public_string id) =
    Ok {| id_address := id_address id; id_public := id_public id; id_secret := None |} /\
  match to_secret_string id with
  | Some s => parse s = Ok id /\ id_secret id <> None
  | None => id_secret id = None
  end.
Proof.
  intros (Ha & Hd & Hs & Hk). unfold to_public_string, to_secret_string.
  pose proof (Hex.colon_notin_encode (id_address id)) as Hca.
  pose proof (Hex.colon_notin_encode (public_to_bytes (id_public id))) as Hcp.
  assert (forall rest, split_on ":"%byte (address_to_hex (id_address id) ++ str ":0:" ++ rest) =
    address_to_hex (id_address id) :: str "0" :: split_on ":"%byte rest) as Hsp.
  { intros rest. change (str ":0:") with (":"%byte :: (str "0" ++ [":"%byte])).
    simpl. unfold address_to_hex. by rewrite split_on_app. }
  split.
  - unfold parse. rewrite Hsp. unfold public_to_hex at 1. rewrite split_on_single by done.
    rewrite address_hex_roundtrip, rbind_ok by done. rewrite bool_decide_true by done. simpl negb.
    cbv iota. fold (public_to_hex (id_public id)). by rewrite public_hex_roundtrip.
  - destruct (id_secret id) as [k|] eqn:Hid; cbn [mbind option_bind]; [|done]. destruct Hk as [Hkd Hks]. split; [|done].
    unfold parse. rewrite Hsp. change (str ":" ++ secret_to_hex k) with (":"%byte :: secret_to_hex k).
    unfold public_to_hex at 1. rewrite split_on_app by done.
    unfold secret_to_hex at 1. rewrite split_on_single by apply Hex.colon_notin_encode.
    rewrite address_hex_roundtrip, rbind_ok by done. rewrite bool_decide_true by done. simpl negb.
    cbv iota. fold (public_to_hex (id_public id)). rewrite public_hex_roundtrip, rbind_ok by done.
    rewrite Hex.decode_encode. simpl. rewrite secret_roundtrip by done. simpl.
    destruct id; simpl in *. by rewrite Hid.
Qed.

Lemma secret_string_ascii id s : to_secret_string id = Some s -> Forall (fun b => u8 b <= 0x7f) s.
Proof.
  unfold to_secret_string. destruct (id_secret id) as [k|]; [|done]. intros [= <-].
  unfold address_to_hex, public_to_hex, secret_to_hex.
  repeat first [apply Forall_app; split | apply Hex.encode_ascii | apply Forall_cons; split; [by vm_compute|]].
Qed.

(** The key pair drawn from the generator at [pos], and whether its hash has the proof
    of work and an unreserved address. *)
Definition drawn_public (rng : nat -> byte) (pos : nat) : PublicKey :=
  {| pk_dh := x25519_public (keystream rng pos 32);
     pk_signing := ed25519_public (keystream rng (pos + 32) 32) |}.
Definition drawn_secret (rng : nat -> byte) (pos : nat) : SecretKey :=
  {| sk_dh := keystream rng pos 32; sk_signing := keystream rng (pos + 32) 32 |}.
Definition draw_passes (rng : nat -> byte) (pos : nat) : Prop :=
  exists digest address, compute_memory_hard_hash (public_to_bytes (drawn_public rng pos)) = Ok digest /\
    derive_address digest = Some address.

(** A draw that passes is a well-formed identity that validates. *)
Lemma drawn_ok rng pos digest a :
  compute_memory_hard_hash (public_to_bytes (drawn_public rng pos)) = Ok digest -> derive_address digest = Some a ->
  let id := {| id_address := a; id_public := drawn_public rng pos; id_secret := Some (drawn_secret rng pos) |} in
  new_address a = Ok a /\ wf id /\ validate_address id = Ok true.
Proof.
  intros Hdig Hda. destruct (derive_address_ok _ _ Hda) as (_ & Ha & Hn0 & Hn1).
  pose proof (memory_hard_safe (public_to_bytes (drawn_public rng pos))) as Hm. rewrite Hdig in Hm. simpl in Hm.
  assert (address_ok a) as Hok by (split_and!; [subst a; len_lia|done..]). split; [by apply new_address_ok|]. split.
  - split_and!; simpl; try done; [by apply x25519_public_len, len_keystream|
      by apply ed25519_public_len, len_keystream|by rewrite len_keystream..].
  - unfold validate_address. cbn [id_public id_address]. rewrite Hdig, rbind_ok, Hda. by rewrite bool_decide_true.
Qed.

(** What is generated is well formed, has its secret and validates. *)
Lemma generate_wf fuel rng pos id pos' : generate fuel rng pos = Ok (id, pos') ->
  wf id /\ validate_address id = Ok true /\ is_Some (id_secret id).
Proof.
  revert pos. induction fuel as [|fuel IH]; intros pos; [done|]. cbn [generate].
  change (x25519_public (keystream rng pos 32) ++ ed25519_public (keystream rng (pos + 32) 32))
    with (public_to_bytes (drawn_public rng pos)).
  destruct (compute_memory_hard_hash _) as [digest|?| |] eqn:Hdig; [|done..]. rewrite rbind_ok.
  destruct (derive_address digest) as [a|] eqn:Hda; [|apply IH]. destruct (drawn_ok rng pos digest a Hdig Hda) as (Hnew & Hw & Hv).
  rewrite Hnew. intros [= <- <-]. split; [exact Hw|]. split; [exact Hv|by eexists].
Qed.

Lemma generate_runs fuel rng pos : match generate fuel rng pos with Ok _ | Hang => True | Err _ | Panic => False end.
Proof.
  revert pos. induction fuel as [|fuel IH]; intros pos; [done|]. cbn [generate].
  change (x25519_public (keystream rng pos 32) ++ ed25519_public (keystream rng (pos + 32) 32))
    with (public_to_bytes (drawn_public rng pos)).
  pose proof (memory_hard_safe (public_to_bytes (drawn_public rng pos))) as Hm.
  destruct (compute_memory_hard_hash _) as [digest|?| |]; simpl in Hm; try done.
  rewrite rbind_ok. destruct (derive_address digest); [|apply IH]. by destruct (new_address _); [|apply IH..].
Qed.

(** C24. Identity generation never fails or panics: it returns the first drawn key pair
    whose memory-hard hash has the proof of work, as a well-formed identity that carries
    its secret and passes its own address validation, and keeps searching only while every
    pair drawn so far fails; so it returns as soon as the generator yields a passing pair. *)
Theorem generate_validates (fuel : nat) (rng : nat -> byte) (pos : nat) :
  match generate fuel rng pos with
  | Ok (id, pos') =>
      wf id /\ validate_address id = Ok true /\
      exists k, (k < fuel)%nat /\ pos' = (pos + 64 * (k + 1))%nat /\
        id_public id = drawn_public rng (pos + 64 * k) /\
        id_secret id = Some (drawn_secret rng (pos + 64 * k)) /\
        forall j, (j < k)%nat -> ~ draw_passes rng (pos + 64 * j)
  | Hang => forall j, (j < fuel)%nat -> ~ draw_passes rng (pos + 64 * j)
  | Err _ | Panic => False
  end.
Proof.
  revert pos. induction fuel as [|fuel IH]; intros pos; [simpl; lia|]. cbn [generate].
  fold (public_to_bytes (drawn_public rng pos)).
  change (x25519_public (keystream rng pos 32) ++ ed25519_public (keystream rng (pos + 32) 32))
    with (public_to_bytes (drawn_public rng pos)).
  pose proof (memory_hard_safe (public_to_bytes (drawn_public rng pos))) as Hm.
  destruct (compute_memory_hard_hash _) as [digest|?| |] eqn:Hdig; simpl in Hm; try done.
  rewrite rbind_ok. destruct (derive_address digest) as [a|] eqn:Hda.
  - destruct (drawn_ok rng pos digest a Hdig Hda) as (Hnew & Hw & Hv). rewrite Hnew. split; [exact Hw|]. split; [exact Hv|].
    exists 0%nat. rewrite Nat.mul_0_r, Nat.add_0_r. split_and!; [lia|lia|done|done|lia].
  - assert (~ draw_passes rng pos) as Hfail by (intros (d & a & Hd & Ha'); congruence).
    assert (forall m, (forall j, (j < m)%nat -> ~ draw_passes rng (pos + 64 + 64 * j)) ->
      forall j, (j < S m)%nat -> ~ draw_passes rng (pos + 64 * j)) as Hshift.
    { intros m H [|j] Hj; [by rewrite Nat.mul_0_r, Nat.add_0_r|].
      replace (pos + 64 * S j)%nat with (pos + 64 + 64 * j)%nat by lia. apply H. lia. }
    specialize (IH (pos + 64)%nat). destruct (generate fuel rng (pos + 64)) as [[id pos']|?| |]; [|exact IH|exact IH|by apply Hshift].
    destruct IH as (Hw & Hv & k & Hk & -> & Hp & Hs & Hj). split; [exact Hw|]. split; [exact Hv|].
    exists (S k). replace (pos + 64 * S k)%nat with (pos + 64 + 64 * k)%nat by lia.
    split; [lia|]. split; [lia|]. split; [exact Hp|]. split; [exact Hs|by apply Hshift].
Qed.

End Theorems.

Definition sample : Identity :=
  {| id_address := map b8 [0x12; 0x34; 0x56; 0x78; 0x9a];
     id_public := {| pk_dh := map b8 (seqZ 0 32); pk_signing := map b8 (seqZ 32 32) |};
     id_secret := None |}.
Definition sample_with_secret : Identity :=
  {| id_address := id_address sample; id_public := id_public sample;
     id_secret := Some {| sk_dh := map b8 (seqZ 64 32); sk_signing := map b8 (seqZ 96 32) |} |}.

Lemma sample_wf : wf sample_with_secret.
Proof. by split_and!. Qed.

Lemma sample_public_wf : public_wf sample.
Proof. by split; [split_and!|]. Qed.

Lemma generate_validates_witness :
  match @generate Toy.prims 3 (fun i => b8 (Z.of_nat i)) 0 with
  | Ok (id, pos') =>
      wf id /\ @validate_address Toy.prims id = Ok true /\
      exists k, (k < 3)%nat /\ pos' = (0 + 64 * (k + 1))%nat /\
        id_public id = @drawn_public Toy.prims (fun i => b8 (Z.of_nat i)) (0 + 64 * k) /\
        id_secret id = Some (drawn_secret (fun i => b8 (Z.of_nat i)) (0 + 64 * k)) /\
        forall j, (j < k)%nat -> ~ @draw_passes Toy.prims (fun i => b8 (Z.of_nat i)) (0 + 64 * j)
  | Hang => forall j, (j < 3)%nat -> ~ @draw_passes Toy.prims (fun i => b8 (Z.of_nat i)) (0 + 64 * j)
  | Err _ | Panic => False
  end.
Proof. apply (@generate_validates Toy.prims Toy.laws 3 (fun i => b8 (Z.of_nat i)) 0). Defined.

Lemma identity_string_roundtrip_witness :
  parse (to_public_string sample_with_secret) = Ok sample /\
  exists s, to_secret_string sample_with_secret = Some s /\ parse s = Ok sample_with_secret.
Proof.
  destruct (identity_string_roundtrip sample_with_secret sample_wf) as [Hp Hs].
  split; [exact Hp|]. eexists. split; [reflexivity|]. exact (proj1 Hs).
Defined.
End Ident.

#[export] Instance Identity_codec : WireCodec Identity := {|
  wc_shape := Ident.shape;
  wc_wf := Ident.public_wf;
  wc_encode := Ident.encode;
  wc_serialize := Ident.serialize_identity_public;
  wc_deserialize := Ident.deserialize_identity;
  wc_wf_shape := Ident.public_wf_shape;
  wc_emits := Ident.ident_serialize_emits;
  wc_total := Ident.ident_deserialize_total;
  wc_roundtrip := Ident.ident_deserialize_encode;
|}.
