(* ===== verification/Provider.v ===== *)
(** * Provider: the crypto interface of the node crate and its implementation by the service
    (zerotier-node: traits/crypto.rs; zerotier-service: platform/crypto.rs): byte slices checked
    for their length, handed to zerotier-crypto. *)
From S2P Require Export Text Armor Identity.

(** ** traits/crypto.rs

    Packets are changed in place: the operations return what they leave. *)
Class CryptoProvider (E : Type) := {
  generate_identity : nat -> (nat -> byte) -> res E bytes;
  validate_identity : bytes -> res E bool;
  key_agreement : bytes -> bytes -> res E bytes;
  encrypt_packet : bytes -> bytes -> bool -> res E bytes;
  decrypt_packet : bytes -> bytes -> res E (bool * bytes);
  sign : bytes -> bytes -> res E bytes;
  verify : bytes -> bytes -> bytes -> res E bool;
  protocol_version : Z;
}.

(** What a caller may rely on, [public_of] and [agree_of] being the public halves of a signing and
    of an agreement key. *)
Class CryptoProviderLaws (E : Type) `{CryptoProvider E} := {
  public_of : bytes -> bytes;
  agree_of : bytes -> bytes;
  signing_key : bytes -> Prop;
  agreement_key : bytes -> Prop;
  generated_valid fuel rng bs : generate_identity fuel rng = Ok bs -> validate_identity bs = Ok true;
  agreement_symmetric a b : agreement_key a -> agreement_key b ->
    exists secret, key_agreement a (agree_of b) = Ok secret /\ key_agreement b (agree_of a) = Ok secret /\ len secret = 48;
  packet_roundtrip secret packet encrypt : len secret = 48 -> 28 <= len packet ->
    Armor.suite_of (byte_at packet 18) = (if encrypt : bool then 1 else 0) ->
    exists q r, encrypt_packet secret packet encrypt = Ok q /\ decrypt_packet secret q = Ok (true, r) /\
      take 19 r = take 19 packet /\ drop 27 r = drop 27 packet;
  signature_verifies key message : signing_key key ->
    exists signature, sign key message = Ok signature /\ verify (public_of key) message signature = Ok true;
}.

Module NativeCryptoProvider.

(** The bytes the operating system's [getrandom] gives, in order. *)
Class SystemRandom := getrandom : nat -> byte.

Section Native.
Context {P : Prims} {os : SystemRandom}.

(** [try_into] an array of [n] bytes. *)
Definition sized (n : Z) (b : bytes) : res CryptoError bytes := if len b =? n then Ok b else Err InvalidKeyLength.

(** The generator of the caller is left aside. *)
Definition native_generate_identity (fuel : nat) (_rng : nat -> byte) : res CryptoError bytes :=
  let* ' (identity, _) := Ident.generate fuel getrandom 0 in
  match Ident.to_secret_string identity with Some s => Ok s | None => Panic end.

Definition native_validate_identity (identity_bytes : bytes) : res CryptoError bool :=
  let* identity := if utf8_valid identity_bytes then Ident.parse identity_bytes else Err InvalidFormat in
  Ident.validate_address identity.

Definition native_key_agreement (our_secret their_public : bytes) : res CryptoError bytes :=
  let* our_secret := sized 32 our_secret in
  let* their_public := sized 32 their_public in
  Ok (key_agree our_secret their_public).

Definition native_encrypt_packet (shared_secret packet : bytes) (encrypt_payload : bool) : res CryptoError bytes :=
  let* shared_secret := sized 48 shared_secret in
  Armor.armor_packet shared_secret packet encrypt_payload.

Definition native_decrypt_packet (shared_secret packet : bytes) : res CryptoError (bool * bytes) :=
  let* shared_secret := sized 48 shared_secret in
  match Armor.dearmor_packet shared_secret packet with
  | Ok packet => Ok (true, packet)
  | Err MacVerificationFailed => Ok (false, packet)
  | Err error => Err error
  | Panic => Panic
  | Hang => Hang
  end.

Definition native_sign (secret_key message : bytes) : res CryptoError bytes :=
  let* signing_key :=
    if len secret_key =? 32 then Ok secret_key
    else if len secret_key =? 64 then let* k := Ident.secret_from_bytes secret_key in Ok (sk_signing k)
    else Err InvalidKeyLength in
  Ok (Crypto.sign signing_key message).

Definition verifying_key (b : bytes) : res CryptoError bytes := if ed25519_key_ok b then Ok b else Err InvalidKeyLength.

Definition native_verify (public_key message signature : bytes) : res CryptoError bool :=
  let* key :=
    if len public_key =? 32 then verifying_key public_key
    else if len public_key =? 64 then let* k := Ident.public_from_bytes public_key in verifying_key (pk_signing k)
    else Err InvalidKeyLength in
  let* signature := sized 96 signature in
  match Crypto.verify key message signature with
  | Ok _ => Ok true
  | Err SignatureError => Ok false
  | Err error => Err error
  | Panic => Panic
  | Hang => Hang
  end.

#[export] Instance native : CryptoProvider CryptoError := {|
  generate_identity := native_generate_identity;
  validate_identity := native_validate_identity;
  key_agreement := native_key_agreement;
  encrypt_packet := native_encrypt_packet;
  decrypt_packet := native_decrypt_packet;
  sign := native_sign;
  verify := native_verify;
  protocol_version := 1;
|}.

End Native.

Section Laws.
Context {P : Prims} {L : PrimLaws P} {os : SystemRandom}.

Lemma sized_ok n b : len b = n -> sized n b = Ok b.
Proof. intros <-. unfold sized. by rewrite Z.eqb_refl. Qed.

Lemma native_generated fuel rng bs : native_generate_identity fuel rng = Ok bs -> native_validate_identity bs = Ok true.
Proof.
  unfold native_generate_identity. destruct (Ident.generate fuel getrandom 0) as [[id pos']| | |] eqn:E; cbn [rbind]; try done.
  destruct (Ident.generate_wf _ _ _ _ _ E) as (Hw & Hv & _). pose proof (Ident.identity_string_roundtrip id Hw) as [_ Hs].
  destruct (Ident.to_secret_string id) as [s|] eqn:Es; [|done]. destruct Hs as [Hp _]. intros [= <-].
  unfold native_validate_identity. rewrite (utf8_ascii s (Ident.secret_string_ascii id s Es)). by rewrite Hp.
Qed.

Lemma native_agreement a b : len a = 32 -> len b = 32 ->
  exists secret, native_key_agreement a (x25519_public b) = Ok secret /\ native_key_agreement b (x25519_public a) = Ok secret /\ len secret = 48.
Proof.
  intros Ha Hb. exists (key_agree a (x25519_public b)). unfold native_key_agreement.
  rewrite !sized_ok by (done || by apply x25519_public_len). cbn [rbind]. rewrite (key_agree_sym b a) by done.
  split_and!; [done|done|apply len_key_agree].
Qed.

Lemma native_packet secret packet (encrypt : bool) : len secret = 48 -> 28 <= len packet ->
  Armor.suite_of (byte_at packet 18) = (if encrypt then 1 else 0) ->
  exists q r, native_encrypt_packet secret packet encrypt = Ok q /\ native_decrypt_packet secret q = Ok (true, r) /\
    take 19 r = take 19 packet /\ drop 27 r = drop 27 packet.
Proof.
  intros Hs Hp Hsuite. destruct (Armor.packet_view packet Hp) as (h & f & m & b & -> & Hh & Hm & Hb).
  assert (byte_at (Armor.frame h f m b) 18 = f) as Hf.
  { unfold Armor.frame, byte_at. unfold len in Hh. rewrite lookup_app_r by lia. by replace (18 - length h)%nat with O by lia. }
  rewrite Hf in Hsuite. set (ks := Armor.cipher_of secret h f (len h + 1 + len m + len b)).
  assert (len (compute_mac (Armor.poly1305_key ks) (Armor.crypt_body encrypt ks b)) = 8) as Hmac by apply len_compute_mac.
  unfold native_encrypt_packet, native_decrypt_packet. rewrite sized_ok by done. cbn [rbind].
  rewrite Armor.armor_frame by (done || lia). fold ks. eexists _, _. split; [reflexivity|].
  rewrite Armor.dearmor_frame by (done || rewrite ?Armor.len_crypt_body; lia). rewrite Armor.len_crypt_body, Hmac.
  replace (len h + 1 + 8 + len b) with (len h + 1 + len m + len b) by lia. fold ks. rewrite bool_decide_true by done.
  rewrite Hsuite. replace ((if encrypt then 1 else 0) =? 1) with encrypt by by destruct encrypt. rewrite Armor.crypt_body_involutive.
  split; [reflexivity|].
  assert (forall m' b', len m' = 8 -> take 19 (Armor.frame h f m' b') = h ++ [f] /\ drop 27 (Armor.frame h f m' b') = b') as Hview.
  { intros m' b' Hm'. unfold Armor.frame. unfold len in Hh, Hm'. split.
    - rewrite app_assoc. apply take_app_length'. rewrite length_app. cbn. lia.
    - rewrite !app_assoc. apply drop_app_length'. rewrite !length_app. cbn. lia. }
  destruct (Hview m b Hm) as [-> ->]. split; by apply Hview.
Qed.

(** The seed alone, or after the secret of key agreement. *)
Definition signing_half (key : bytes) : bytes := if len key =? 32 then key else drop 32 key.

Lemma native_signature key message : len key = 32 \/ len key = 64 ->
  exists signature, native_sign key message = Ok signature /\
    native_verify (ed25519_public (signing_half key)) message signature = Ok true.
Proof.
  intros Hk. assert (len (signing_half key) = 32) as Hh.
  { unfold signing_half. destruct (len key =? 32) eqn:E; [lia|]. rewrite len_drop. destruct Hk; lia. }
  exists (Crypto.sign (signing_half key) message). split.
  - unfold native_sign, signing_half. destruct (len key =? 32) eqn:E; [done|]. destruct Hk as [?|Hk]; [lia|].
    unfold Ident.secret_from_bytes. by rewrite Hk.
  - unfold native_verify. rewrite ed25519_public_len by done. cbn [Z.eqb Pos.eqb]. unfold verifying_key.
    rewrite ed25519_public_ok by done. cbn [rbind]. rewrite sized_ok by by apply len_sign. cbn [rbind]. by rewrite verify_sign.
Qed.

(** The service's provider keeps what the interface promises. *)
#[export] Instance native_laws : CryptoProviderLaws CryptoError := {|
  public_of key := ed25519_public (signing_half key);
  agree_of := x25519_public;
  signing_key key := len key = 32 \/ len key = 64;
  agreement_key key := len key = 32;
  generated_valid := native_generated;
  agreement_symmetric := native_agreement;
  packet_roundtrip := native_packet;
  signature_verifies := native_signature;
|}.

(** No key, packet or signature of a wrong length gets anywhere. *)
Theorem native_lengths (secret public packet message signature : bytes) (encrypt : bool) :
  (len secret <> 48 -> native_encrypt_packet secret packet encrypt = Err InvalidKeyLength /\
                       native_decrypt_packet secret packet = Err InvalidKeyLength) /\
  (len secret <> 32 \/ len public <> 32 -> native_key_agreement secret public = Err InvalidKeyLength) /\
  (len secret <> 32 /\ len secret <> 64 -> native_sign secret message = Err InvalidKeyLength) /\
  (len public <> 32 /\ len public <> 64 \/ len signature <> 96 -> native_verify public message signature = Err InvalidKeyLength).
Proof.
  assert (forall n b, len b <> n -> sized n b = Err InvalidKeyLength) as Hsized.
  { intros n b Hn. unfold sized. by rewrite (if_false (len b =? n)) by lia. }
  split_and!.
  - intros Hs. unfold native_encrypt_packet, native_decrypt_packet. by rewrite Hsized.
  - unfold native_key_agreement. intros [Hs|Hp]; [by rewrite Hsized|].
    destruct (decide (len secret = 32)) as [Hs|Hs]; [rewrite sized_ok by done; cbn [rbind]; by rewrite Hsized|by rewrite Hsized].
  - intros [H1' H2']. unfold native_sign. by rewrite !if_false by lia.
  - unfold native_verify. intros [[H1' H2']|Hs]; [by rewrite !if_false by lia|].
    unfold verifying_key, Ident.public_from_bytes. destruct (len public =? 32).
    { destruct (ed25519_key_ok public); cbn [rbind]; [by rewrite Hsized|done]. }
    destruct (len public =? 64); cbn [rbind negb pk_signing]; [|done].
    destruct (ed25519_key_ok _); cbn [rbind]; [by rewrite Hsized|done].
Qed.

End Laws.
End NativeCryptoProvider.
