(* ===== verification/Verbs.v ===== *)
(** * Verbs: the payload codecs of the small verbs (zerotier-protocol: verbs/nop.rs,
    ack.rs, qos.rs, user_message.rs, remote_trace.rs, path_negotiation.rs, frame.rs,
    rendezvous.rs, push_direct.rs, whois.rs).

    Each module has the payload's record, its abstract encoding, its serializer and
    its parser, and ends with the [PayloadCodec] instance that states what the
    three have to do with each other. *)
From S2P Require Export Inet Identity.

(** [pos + data.len()] style bookkeeping of the serializers is explicit: [put pos
    (pos + 8) x;* let pos := pos + 8 in ...]. *)

(** ** nop.rs *)

Module NopP.
Record t := mk {}.

#[global] Instance t_eq_dec : EqDecision t.
Proof. solve_decision. Defined.

Definition serialize (_ : t) : W Z := wret 0.

Definition deserialize (data : bytes) : res ProtocolError t :=
  if negb (len data =? 0) then Err InvalidPacket else Ok (mk).

#[global] Instance codec : PayloadCodec t.
Proof.
  refine {| pc_shape := fun _ => True; pc_wf := fun _ => True; pc_encode := fun _ => [];
            pc_serialize := serialize; pc_deserialize := deserialize |}.
  - done.
  - intros x _. apply emits_ret.
  - intros d. unfold deserialize. wp_reads. done.
  - by intros [] _.
Defined.
End NopP.

(** ** ack.rs *)

Module AckP.
Record t := mk { bytes_acked : Z }.

Definition serialize (p : t) : W Z :=
  put 0 4 (to_be 4 (bytes_acked p));*
  wret 4.

Definition deserialize (data : bytes) : res ProtocolError t :=
  if len data <? 4 then Err (TooShort 4 (len data)) else
  let* bytes_acked := be_at 4 data 0 in
  Ok (mk bytes_acked).

Definition shape (p : t) : Prop := u32_ok (bytes_acked p).
Definition encode (p : t) : bytes := to_be 4 (bytes_acked p).

#[global] Instance codec : PayloadCodec t.
Proof.
  refine {| pc_shape := shape; pc_wf := shape; pc_encode := encode;
            pc_serialize := serialize; pc_deserialize := deserialize |}.
  - done.
  - intros x _. unfold serialize, encode. emits_fields.
  - intros d. unfold deserialize. wp_reads. done.
  - intros p Hp. unfold deserialize, encode, shape in *.
    rewrite <- (app_nil_r (to_be 4 _)). read_fields. rewrite from_be_u32 by done. by destruct p.
Defined.
End AckP.

(** ** qos.rs *)

Module QosP.
Record QosRecord := mkRec { packet_id : Z; sojourn_time : Z }.
Record t := mk { records : list QosRecord }.

Definition serialize (p : t) : W Z :=
  wfor (records p) 0 (fun rec offset =>
    put offset (offset + 8) (to_be 8 (packet_id rec));*
    let offset := offset + 8 in
    put offset (offset + 2) (to_be 2 (sojourn_time rec));*
    wret (offset + 2)).

Definition read_record (data : bytes) (offset : Z) : res ProtocolError (QosRecord * Z) :=
  let* packet_id := be_at 8 data offset in
  let offset := offset + 8 in
  let* sojourn_time := be_at 2 data offset in
  Ok (mkRec packet_id sojourn_time, offset + 2).

Definition deserialize (data : bytes) : res ProtocolError t :=
  if negb (len data mod 10 =? 0) then Err InvalidPacket else
  let count := len data / 10 in
  let* ' (records, _) := rfor (Z.to_nat count) 0 (read_record data) in
  Ok (mk records).

Definition rec_ok (r : QosRecord) : Prop := u64_ok (packet_id r) /\ u16_ok (sojourn_time r).
Definition shape (p : t) : Prop := Forall rec_ok (records p).
Definition encode_rec (r : QosRecord) : bytes := to_be 8 (packet_id r) ++ to_be 2 (sojourn_time r).
Definition encode (p : t) : bytes := concat (map encode_rec (records p)).

Lemma qos_serialize_emits p : emits (serialize p) 0 (encode p) (len (encode p)).
Proof. apply (emits_for encode_rec). intros r pos _. unfold encode_rec. emits_fields. Qed.

Lemma qos_deserialize_total d : safe (deserialize d) shape.
Proof.
  unfold deserialize. wp_reads. pose proof (len_nonneg d).
  apply (wp_rfor _ _ _ (fun k p => 0 <= p /\ p + 10 * Z.of_nat k <= len d) rec_ok).
  - intros k p [Hp Hk]. unfold read_record. wp_reads. split; [done|lia].
  - pose proof (Z.mul_div_le (len d) 10 ltac:(lia)). pose proof (Z.div_pos (len d) 10). lia.
  - done.
Qed.

Lemma qos_len_encode p : len (encode p) = 10 * len (records p).
Proof.
  unfold encode. induction (records p) as [|r l IH]; [done|].
  cbn [map concat]. rewrite len_app, IH.
  unfold encode_rec. len_lia.
Qed.

Lemma qos_deserialize_encode p : shape p -> deserialize (encode p) = Ok p.
Proof.
  intros Hp. unfold deserialize. rewrite qos_len_encode, Z.mul_comm, Z.mod_mul, Z.div_mul by lia.
  rewrite if_false by done. replace (Z.to_nat (len (records p))) with (length (records p)) by (unfold len; lia).
  rewrite (rfor_spec encode_rec _ _ _ (encode p) [] []); [by destruct p|by rewrite app_nil_r|done|].
  intros r pos a b Hr -> ->. unfold read_record, encode_rec. rewrite <- !app_assoc.
  unfold shape in Hp. rewrite Forall_forall in Hp.
  destruct (Hp r Hr) as [H1 H2]. read_fields.
  rewrite from_be_u64, from_be_u16 by done. destruct r; simpl. do 2 f_equal. len_lia.
Qed.

#[global] Instance codec : PayloadCodec t :=
  {| pc_shape := shape; pc_wf := shape; pc_encode := encode; pc_serialize := serialize;
     pc_deserialize := deserialize; pc_wf_shape := fun _ H => H;
     pc_emits := fun x _ => qos_serialize_emits x; pc_total := qos_deserialize_total;
     pc_roundtrip := qos_deserialize_encode |}.
End QosP.

(** ** user_message.rs *)

Module UserMessageP.
Record t := mk { type_id : Z; data : bytes }.

Definition serialize (p : t) : W Z :=
  put 0 8 (to_be 8 (type_id p));*
  let dlen := len (data p) in
  put 8 (8 + dlen) (data p);*
  wret (8 + dlen).

Definition deserialize (d : bytes) : res ProtocolError t :=
  if len d <? 8 then Err (TooShort 8 (len d)) else
  let* type_id := be_at 8 d 0 in
  let* payload_data := slice_from d 8 in
  Ok (mk type_id payload_data).

Definition shape (p : t) : Prop := u64_ok (type_id p).
Definition encode (p : t) : bytes := to_be 8 (type_id p) ++ data p.

#[global] Instance codec : PayloadCodec t.
Proof.
  refine {| pc_shape := shape; pc_wf := shape; pc_encode := encode;
            pc_serialize := serialize; pc_deserialize := deserialize |}.
  - done.
  - intros x _. unfold serialize, encode. emits_fields.
  - intros d. unfold deserialize. pose proof (len_nonneg d). wp_reads. done.
  - intros p Hp. unfold deserialize, encode, shape in *.
    pose proof (len_nonneg (data p)). read_fields. rewrite from_be_u64 by done. by destruct p.
Defined.
End UserMessageP.

(** ** remote_trace.rs *)

Module RemoteTraceP.
Record t := mk { data : bytes }.

Definition serialize (p : t) : W Z :=
  let dlen := len (data p) in
  put 0 dlen (data p);*
  wret dlen.

Definition deserialize (d : bytes) : res ProtocolError t :=
  if len d =? 0 then Err (TooShort 1 0) else Ok (mk d).

#[global] Instance codec : PayloadCodec t.
Proof.
  refine {| pc_shape := fun _ => True; pc_wf := fun p => data p <> []; pc_encode := data;
            pc_serialize := serialize; pc_deserialize := deserialize |}.
  - done.
  - intros x _. unfold serialize. emits_fields.
  - intros d. unfold deserialize. wp_reads. done.
  - intros [[|x l]] Ha; [done|]. unfold deserialize. cbn [data]. by rewrite if_false by len_lia.
Defined.
End RemoteTraceP.

(** ** path_negotiation.rs *)

Module PathNegotiationP.
Record t := mk { utility : Z (* i16 *) }.

(** [u16 as i16]. *)
Definition i16_of (z : Z) : Z := if 32768 <=? z then z - 65536 else z.

Definition serialize (p : t) : W Z :=
  put 0 2 (to_be 2 (wrap 16 (utility p)));*
  wret 2.

Definition deserialize (data : bytes) : res ProtocolError t :=
  if len data <? 2 then Err (TooShort 2 (len data)) else
  let* u := be_at 2 data 0 in
  Ok (mk (i16_of u)).

Definition shape (p : t) : Prop := -32768 <= utility p <= 32767.
Definition encode (p : t) : bytes := to_be 2 (wrap 16 (utility p)).

#[global] Instance codec : PayloadCodec t.
Proof.
  refine {| pc_shape := shape; pc_wf := shape; pc_encode := encode;
            pc_serialize := serialize; pc_deserialize := deserialize |}.
  - done.
  - intros x _. unfold serialize, encode. emits_fields.
  - intros d. unfold deserialize. wp_reads. unfold shape, i16_of, u16_ok, U16_MAX in *. simpl.
    case_match; lia.
  - intros [u] Hu. unfold deserialize, encode, shape in *. cbn [utility] in *.
    rewrite <- (app_nil_r (to_be 2 _)). read_fields. unfold wrap. change (2 ^ 16) with 65536.
    pose proof (Z.mod_pos_bound u 65536 ltac:(lia)).
    rewrite from_be_u16 by (unfold u16_ok, U16_MAX; lia). do 2 f_equal. unfold i16_of.
    pose proof (Z.div_mod u 65536 ltac:(lia)). case_match; lia.
Defined.
End PathNegotiationP.

(** ** frame.rs *)

Module FrameP.
Record t := mk { network_id : Z; ethertype : Z; payload : bytes }.

Definition parse (data : bytes) : res ProtocolError t :=
  if len data <? 10 then Err (TooShort 10 (len data)) else
  let* network_id := be_at 8 data 0 in
  let* ethertype := be_at 2 data 8 in
  let* payload := slice_from data 10 in
  Ok (mk network_id ethertype payload).

Definition serialize (p : t) : W Z :=
  put 0 8 (to_be 8 (network_id p));*
  put 8 10 (to_be 2 (ethertype p));*
  let plen := len (payload p) in
  put 10 (10 + plen) (payload p);*
  wret (10 + plen).

Definition shape (p : t) : Prop := u64_ok (network_id p) /\ u16_ok (ethertype p).
Definition encode (p : t) : bytes :=
  to_be 8 (network_id p) ++ to_be 2 (ethertype p) ++ payload p.

#[global] Instance codec : PayloadCodec t.
Proof.
  refine {| pc_shape := shape; pc_wf := shape; pc_encode := encode;
            pc_serialize := serialize; pc_deserialize := parse |}.
  - done.
  - intros x _. unfold serialize, encode. emits_fields.
  - intros d. unfold parse. pose proof (len_nonneg d). wp_reads. done.
  - intros p [Hn He]. unfold parse, encode. pose proof (len_nonneg (payload p)).
    read_fields. rewrite from_be_u64, from_be_u16 by done. by destruct p.
Defined.
End FrameP.

Module ExtFrameP.
Record t := mk {
  network_id : Z; flags : byte; dest_mac : bytes; src_mac : bytes; ethertype : Z; payload : bytes
}.

Definition parse (data : bytes) : res ProtocolError t :=
  if len data <? 23 then Err (TooShort 23 (len data)) else
  let* network_id := be_at 8 data 0 in
  let* flags := get data 8 in
  let* dest_mac := array_at 6 data 9 15 in
  let* src_mac := array_at 6 data 15 21 in
  let* ethertype := be_at 2 data 21 in
  let* payload := slice_from data 23 in
  Ok (mk network_id flags dest_mac src_mac ethertype payload).

Definition serialize (p : t) : W Z :=
  put 0 8 (to_be 8 (network_id p));*
  set 8 (flags p);*
  put 9 15 (dest_mac p);*
  put 15 21 (src_mac p);*
  put 21 23 (to_be 2 (ethertype p));*
  let plen := len (payload p) in
  put 23 (23 + plen) (payload p);*
  wret (23 + plen).

Definition shape (p : t) : Prop :=
  u64_ok (network_id p) /\ len (dest_mac p) = 6 /\ len (src_mac p) = 6 /\ u16_ok (ethertype p).
Definition encode (p : t) : bytes :=
  to_be 8 (network_id p) ++ [flags p] ++ dest_mac p ++ src_mac p ++ to_be 2 (ethertype p) ++ payload p.

#[global] Instance codec : PayloadCodec t.
Proof.
  refine {| pc_shape := shape; pc_wf := shape; pc_encode := encode;
            pc_serialize := serialize; pc_deserialize := parse |}.
  - done.
  - intros x (_ & Hd & Hs & _). unfold serialize, encode. emits_fields.
  - intros d. unfold parse. pose proof (len_nonneg d). wp_reads. done.
  - intros p (Hn & Hd & Hs & He). unfold parse, encode. pose proof (len_nonneg (payload p)).
    read_fields. rewrite from_be_u64, from_be_u16 by done. by destruct p.
Defined.
End ExtFrameP.

(** ** Socket addresses with a length byte, as RENDEZVOUS and PUSH_DIRECT_PATHS write
    them. *)

Module AddrTail.
(** Type byte, length byte, address. *)
Definition encode (a : InetAddress) : bytes :=
  match a with
  | V4 ip port => [b8 4] ++ [b8 6] ++ ip ++ to_be 2 port
  | V6 ip port => [b8 6] ++ [b8 18] ++ ip ++ to_be 2 port
  | Null => [b8 0] ++ [b8 0]
  end.

(** The bytes after the length byte. *)
Definition body (a : InetAddress) : bytes :=
  match a with V4 ip port | V6 ip port => ip ++ to_be 2 port | Null => [] end.

Lemma encode_split a : encode a = [b8 (match a with V4 _ _ => 4 | V6 _ _ => 6 | Null => 0 end)] ++
  [b8 (match a with V4 _ _ => 6 | V6 _ _ => 18 | Null => 0 end)] ++ body a.
Proof. by destruct a. Qed.

(** [match addr_len] at [pos]. *)
Definition read (data : bytes) (addr_len pos : Z) : res ProtocolError InetAddress :=
  match addr_len with
  | 6 =>
      let* ip := array_at 4 data pos (pos + 4) in
      let* port := be_at 2 data (pos + 4) in
      Ok (V4 ip port)
  | 18 =>
      let* ip := array_at 16 data pos (pos + 16) in
      let* port := be_at 2 data (pos + 16) in
      Ok (V6 ip port)
  | 0 => Ok Null
  | _ => Err InvalidPacket
  end.

Lemma read_total data n pos : 0 <= pos -> pos + n <= len data -> 0 <= n ->
  safe (read data n pos) Inet.wf.
Proof.
  intros Hp Hn H0. unfold read.
  repeat match goal with |- wp (match ?x with _ => _ end) _ _ => destruct x end; wp_reads; simpl; done.
Qed.

Lemma read_body a (pre tl : bytes) pos : Inet.wf a -> pos = len pre ->
  read (pre ++ body a ++ tl) (len (body a)) pos = Ok a.
Proof.
  intros Ha ->. destruct a as [|ip port|ip port]; simpl in Ha; unfold read, body; [done|..];
    destruct Ha as [Hl Hport]; rewrite len_app, Hl, len_to_be2;
    first [change (4 + 2) with 6 | change (16 + 2) with 18]; cbv iota;
    rewrite <- !app_assoc; read_fields; by rewrite from_be_u16.
Qed.
End AddrTail.

(** ** rendezvous.rs *)

Module RendezvousP.
Record t := mk { flags : byte; peer_address : bytes; address : InetAddress }.

Definition serialize (p : t) : W Z :=
  set 0 (flags p);*
  put 1 6 (peer_address p);*
  match address p with
  | V4 ip port =>
      set 6 (b8 4);*
      set 7 (b8 6);*
      put 8 12 ip;*
      put 12 14 (to_be 2 port);*
      wret 14
  | V6 ip port =>
      set 6 (b8 6);*
      set 7 (b8 18);*
      put 8 24 ip;*
      put 24 26 (to_be 2 port);*
      wret 26
  | Null =>
      set 6 (b8 0);*
      set 7 (b8 0);*
      wret 8
  end.

Definition deserialize (data : bytes) : res ProtocolError t :=
  if len data <? 8 then Err (TooShort 8 (len data)) else
  let* flags := get data 0 in
  let* peer_address := array_at 5 data 1 6 in
  let* _addr_type := get data 6 in
  let* addr_len := get data 7 in
  let addr_len := u8 addr_len in
  if len data <? 8 + addr_len then Err (TooShort (8 + addr_len) (len data)) else
  let* address := AddrTail.read data addr_len 8 in
  Ok (mk flags peer_address address).

Definition shape (p : t) : Prop := len (peer_address p) = 5 /\ Inet.wf (address p).
Definition encode (p : t) : bytes :=
  [flags p] ++ peer_address p ++ AddrTail.encode (address p).

#[global] Instance codec : PayloadCodec t.
Proof.
  refine {| pc_shape := shape; pc_wf := shape; pc_encode := encode;
            pc_serialize := serialize; pc_deserialize := deserialize |}.
  - done.
  - intros [f pa a] [Hp Ha]. unfold serialize, encode. cbn [flags peer_address address] in *.
    destruct a; simpl in Ha; destruct_and?; unfold AddrTail.encode; emits_fields.
  - intros d. unfold deserialize. pose proof (len_nonneg d). wp_reads.
    eapply wp_mono; [apply AddrTail.read_total; [lia| |apply u8_range]| |done]; [lia|].
    intros a Ha. by apply wp_ret.
  - intros [f pa a] [Hp Ha]. unfold deserialize, encode. cbn [flags peer_address address] in *.
    rewrite AddrTail.encode_split.
    set (ty := b8 _). set (ln := b8 _).
    assert (u8 ln = len (AddrTail.body a)) as Hln
      by (destruct a; simpl in Ha; destruct_and?; unfold ln, AddrTail.body; rewrite u8_b8, Z.mod_small by lia; len_lia).
    pose proof (len_nonneg (AddrTail.body a)).
    read_fields. rewrite Hln.
    rewrite <- (app_nil_r (AddrTail.body a)) at 1. rewrite !app_assoc, <- (app_assoc _ (AddrTail.body a)).
    by rewrite AddrTail.read_body by (done || len_lia).
Defined.
End RendezvousP.

(** ** push_direct.rs *)

Module PushDirectP.
Record DirectPath := mkPath { dp_flags : Z; dp_address : InetAddress }.
Record t := mk { paths : list DirectPath }.

Definition write_path (path : DirectPath) (offset : Z) : W Z :=
  put offset (offset + 2) (to_be 2 (dp_flags path));*
  let offset := offset + 2 in
  put offset (offset + 2) (to_be 2 0);*
  let offset := offset + 2 in
  match dp_address path with
  | V4 ip port =>
      set offset (b8 4);*
      let offset := offset + 1 in
      set offset (b8 6);*
      let offset := offset + 1 in
      put offset (offset + 4) ip;*
      let offset := offset + 4 in
      put offset (offset + 2) (to_be 2 port);*
      wret (offset + 2)
  | V6 ip port =>
      set offset (b8 6);*
      let offset := offset + 1 in
      set offset (b8 18);*
      let offset := offset + 1 in
      put offset (offset + 16) ip;*
      let offset := offset + 16 in
      put offset (offset + 2) (to_be 2 port);*
      wret (offset + 2)
  | Null =>
      set offset (b8 0);*
      let offset := offset + 1 in
      set offset (b8 0);*
      wret (offset + 1)
  end.

Definition serialize (p : t) : W Z :=
  let count := wrap 16 (len (paths p)) in
  put 0 2 (to_be 2 count);*
  wfor (paths p) 2 write_path.

Definition read_path (data : bytes) (offset : Z) : res ProtocolError (DirectPath * Z) :=
  if len data <? offset + 4 then Err (TooShort (offset + 4) (len data)) else
  let* flags := be_at 2 data offset in
  let offset := offset + 2 in
  let* ext_len := be_at 2 data offset in
  let offset := offset + 2 in
  let offset := offset + ext_len in
  if len data <? offset + 2 then Err (TooShort (offset + 2) (len data)) else
  let* _addr_type := get data offset in
  let offset := offset + 1 in
  let* addr_len := get data offset in
  let addr_len := u8 addr_len in
  let offset := offset + 1 in
  if len data <? offset + addr_len then Err (TooShort (offset + addr_len) (len data)) else
  let* address := AddrTail.read data addr_len offset in
  Ok (mkPath flags address, offset + addr_len).

Definition deserialize (data : bytes) : res ProtocolError t :=
  if len data <? 2 then Err (TooShort 2 (len data)) else
  let* path_count := be_at 2 data 0 in
  let* ' (paths, _) := rfor (Z.to_nat path_count) 2 (read_path data) in
  Ok (mk paths).

Definition path_ok (p : DirectPath) : Prop := u16_ok (dp_flags p) /\ Inet.wf (dp_address p).
Definition shape (p : t) : Prop := Forall path_ok (paths p).
Definition wf (p : t) : Prop := shape p /\ len (paths p) <= U16_MAX.
Definition encode_path (p : DirectPath) : bytes :=
  to_be 2 (dp_flags p) ++ to_be 2 0 ++ AddrTail.encode (dp_address p).
Definition encode (p : t) : bytes :=
  to_be 2 (wrap 16 (len (paths p))) ++ concat (map encode_path (paths p)).

Lemma write_path_emits p pos : path_ok p ->
  emits (write_path p pos) pos (encode_path p) (pos + len (encode_path p)).
Proof.
  intros [_ Ha]. unfold write_path, encode_path. destruct (dp_address p); simpl in Ha; destruct_and?;
    unfold AddrTail.encode; emits_fields.
Qed.

Lemma read_path_total data pos : 0 <= pos ->
  safe (read_path data pos) (fun '(p, pos') => path_ok p /\ 0 <= pos').
Proof.
  intros Hp. unfold read_path. pose proof (len_nonneg data).
  wp_reads. unfold u16_ok in *. wp_reads.
  eapply wp_mono; [apply AddrTail.read_total; [lia|lia|apply u8_range]| |done].
  intros a' Ha. apply wp_ret. match goal with |- context [u8 ?x] => pose proof (u8_range x) end.
  split; [done|lia].
Qed.

Lemma read_path_encode pre p post : path_ok p ->
  read_path (pre ++ encode_path p ++ post) (len pre) = Ok (p, len pre + len (encode_path p)).
Proof.
  intros [Hf Ha]. unfold encode_path. rewrite AddrTail.encode_split.
  set (ty := b8 _). set (ln := b8 _).
  assert (u8 ln = len (AddrTail.body (dp_address p))) as Hln
    by (destruct (dp_address p); simpl in Ha; destruct_and?; unfold ln, AddrTail.body; rewrite u8_b8, Z.mod_small by lia; len_lia).
  pose proof (len_nonneg (AddrTail.body (dp_address p))). pose proof (len_nonneg post).
  pose proof (len_nonneg pre).
  rewrite <- !app_assoc. unfold read_path. rewrite if_false by len_lia.
  read_fields. rewrite (from_be_u16 0) by done. read_fields. rewrite Hln.
  rewrite from_be_u16 by done. rewrite ?if_false by len_lia.
  rewrite !app_assoc, <- (app_assoc _ (AddrTail.body _)).
  rewrite AddrTail.read_body by (done || len_lia). rewrite rbind_ok.
  destruct p. simpl. do 2 f_equal. len_lia.
Qed.

#[global] Instance codec : PayloadCodec t.
Proof.
  refine {| pc_shape := shape; pc_wf := wf; pc_encode := encode;
            pc_serialize := serialize; pc_deserialize := deserialize |}.
  - by intros x [? _].
  - intros [ps] Hs. unfold serialize, encode. cbn [paths]. eapply emits_conv.
    + eapply emits_bind; [apply emits_put; len_lia|].
      apply (emits_for encode_path). intros x p Hx. apply write_path_emits.
      unfold shape in Hs. rewrite Forall_forall in Hs. by apply Hs.
    + done.
    + len_lia.
  - intros d. unfold deserialize. pose proof (len_nonneg d). wp_reads.
    apply (wp_rfor _ _ _ (fun _ p => 0 <= p) path_ok); [|lia|done].
    intros k p Hp. by apply read_path_total.
  - intros [ps] [Hs Hl]. unfold deserialize, encode, shape in *. cbn [paths] in *.
    pose proof (len_nonneg ps). pose proof (len_nonneg (concat (map encode_path ps))).
    assert (wrap 16 (len ps) = len ps) as -> by (unfold wrap, U16_MAX in *; apply Z.mod_small; lia).
    read_fields. rewrite from_be_u16 by (unfold u16_ok; lia).
    replace (Z.to_nat (len ps)) with (length ps) by (unfold len; lia).
    erewrite (rfor_spec encode_path _ _ _ _ (to_be 2 (len ps)) []); [done|by rewrite app_nil_r|len_lia|].
    intros x p a b Hx -> ->. rewrite Forall_forall in Hs. by apply read_path_encode, Hs.
Defined.
End PushDirectP.

(** ** whois.rs *)

Module WhoisP.
Record Request := mkReq { addresses : list bytes }.
Record Response := mkResp { identities : list Identity }.

Definition serialize_request (r : Request) : W Z :=
  wfor (addresses r) 0 (fun addr pos => put pos (pos + 5) addr;* wret (pos + 5)).

(** [i]-th address; trailing partial bytes are ignored. *)
Definition deserialize_request (data : bytes) : res ProtocolError Request :=
  let count := len data / 5 in
  let* ' (addresses, _) := rfor (Z.to_nat count) 0 (fun pos =>
    let* addr := array_at 5 data pos (pos + 5) in Ok (addr, pos + 5)) in
  Ok (mkReq addresses).

Definition serialize_response (r : Response) : W Z :=
  wfor (identities r) 0 (fun id pos =>
    do* n := on_tail pos (Ident.serialize_identity_public id) in wret (pos + n)).

Definition deserialize_response (data : bytes) : res ProtocolError Response :=
  let* identities := decode_all Ident.deserialize_identity data in
  Ok (mkResp identities).

Definition encode_ids (ids : list Identity) : bytes := concat (map Ident.encode ids).

Lemma write_ids_emits ids pos : Forall Ident.shape ids ->
  emits (wfor ids pos (fun id pos =>
    do* n := on_tail pos (Ident.serialize_identity_public id) in wret (pos + n)))
    pos (encode_ids ids) (pos + len (encode_ids ids)).
Proof.
  intros Hids. apply (emits_for Ident.encode). intros id p Hid. rewrite Forall_forall in Hids.
  eapply emits_conv.
  - eapply emits_bind; [apply emits_on_tail; [done|]; by apply Ident.ident_serialize_emits, Hids|].
    apply emits_ret.
  - apply app_nil_r.
  - done.
Qed.

Definition req_shape (r : Request) : Prop := Forall (fun a => len a = 5) (addresses r).

#[global] Instance request_codec : PayloadCodec Request.
Proof.
  refine {| pc_shape := req_shape; pc_wf := req_shape; pc_encode := fun r => concat (addresses r);
            pc_serialize := serialize_request; pc_deserialize := deserialize_request |}.
  - done.
  - intros [l] Hl. unfold serialize_request, req_shape in *. cbn [addresses] in *.
    rewrite <- (map_id l) at 2 3. apply (emits_for Datatypes.id). intros x p Hx.
    rewrite Forall_forall in Hl. specialize (Hl x Hx). unfold Datatypes.id. emits_fields.
  - intros d. unfold deserialize_request. pose proof (len_nonneg d). wp_reads.
    apply (wp_rfor _ _ _ (fun k p => 0 <= p /\ p + 5 * Z.of_nat k <= len d) (fun a => len a = 5)).
    + intros k p [Hp Hk]. wp_reads. split; [done|lia].
    + pose proof (Z.mul_div_le (len d) 5 ltac:(lia)). pose proof (Z.div_pos (len d) 5). lia.
    + done.
  - intros [l] Hl. unfold deserialize_request, req_shape in *. cbn [addresses] in *.
    assert (len (concat l) = len l * 5) as ->.
    { induction l as [|x l IH]; [done|]. apply Forall_cons in Hl as [Hx Hl]. simpl.
      rewrite len_app, len_cons, IH by done. lia. }
    rewrite Z.div_mul by lia. replace (Z.to_nat (len l)) with (length l) by (unfold len; lia).
    erewrite (rfor_spec Datatypes.id _ _ _ (concat l) [] []); [done|by rewrite map_id, app_nil_r|done|].
    intros x p a b Hx -> ->. rewrite Forall_forall in Hl. specialize (Hl x Hx). unfold Datatypes.id.
    read_fields. do 2 f_equal. lia.
Defined.

#[global] Instance response_codec : PayloadCodec Response.
Proof.
  refine {| pc_shape := fun r => Forall Ident.shape (identities r);
            pc_wf := fun r => Forall Ident.public_wf (identities r);
            pc_encode := fun r => encode_ids (identities r);
            pc_serialize := serialize_response; pc_deserialize := deserialize_response |}.
  - intros x Hx. eapply Forall_impl; [exact Hx|]. apply Ident.public_wf_shape.
  - intros [l] Hl. by apply (write_ids_emits l 0).
  - intros d. unfold deserialize_response. apply wp_bind.
    eapply wp_mono; [apply (@decode_all_total Identity Identity_codec d)| |done]. intros ids Hids. simpl in *.
    eapply Forall_impl; [exact Hids|]. apply Ident.public_wf_shape.
  - intros [l] Hl. unfold deserialize_response, encode_ids. cbn [identities] in *.
    pose proof (@decode_all_roundtrip Identity Identity_codec l Hl) as Hr. cbn in Hr. by rewrite Hr.
Defined.
End WhoisP.
