(* ===== verification/HelloOk.v ===== *)
(** * HelloOk: the HELLO, OK and ERROR payload codecs (zerotier-protocol:
    verbs/hello.rs, verbs/ok.rs, verbs/error.rs). *)
From S2P Require Export Verbs.

(** ** hello.rs *)

Module HelloP.
Definition MANYTIER_ADVERTISED_PROTOCOL_VERSION : Z := 11.
Definition MANYTIER_MAJOR : Z := 1.
Definition MANYTIER_MINOR : Z := 14.
Definition MANYTIER_REVISION : Z := 2.

Record t := mk {
  protocol_version : byte;
  major_version : byte;
  minor_version : byte;
  revision : Z;
  timestamp : Z;
  identity : Identity;
  dest_address : InetAddress;
  planet_world_id : Z;
  planet_world_timestamp : Z;
  moon_records : list (Z * Z);
}.

Definition new (id : Identity) (ts : Z) (dest : InetAddress) : t :=
  {| protocol_version := b8 MANYTIER_ADVERTISED_PROTOCOL_VERSION;
     major_version := b8 MANYTIER_MAJOR;
     minor_version := b8 MANYTIER_MINOR;
     revision := MANYTIER_REVISION;
     timestamp := ts;
     identity := id;
     dest_address := dest;
     planet_world_id := WORLD_ID_EARTH;
     planet_world_timestamp := 0;
     moon_records := [] |}.

Definition werr {A} (e : ProtocolError) : W A := fun _ => Err e.
Definition wlen : W Z := fun buf => Ok (len buf, buf).

(** The writes after the length check. *)
Definition serialize_body (p : t) : W Z :=
  let pos := 0 in
  set pos (protocol_version p);*
  let pos := pos + 1 in
  set pos (major_version p);*
  let pos := pos + 1 in
  set pos (minor_version p);*
  let pos := pos + 1 in
  put pos (pos + 2) (to_be 2 (revision p));*
  let pos := pos + 2 in
  put pos (pos + 8) (to_be 8 (timestamp p));*
  let pos := pos + 8 in
  do* id_len := on_tail pos (Ident.serialize_identity_public (identity p)) in
  let pos := pos + id_len in
  do* addr_len := on_tail pos (Inet.serialize (dest_address p)) in
  let pos := pos + addr_len in
  put pos (pos + 8) (to_be 8 (planet_world_id p));*
  let pos := pos + 8 in
  put pos (pos + 8) (to_be 8 (planet_world_timestamp p));*
  let pos := pos + 8 in
  wfor (moon_records p) pos (fun '(world_id, ts) pos =>
    put pos (pos + 8) (to_be 8 world_id);*
    let pos := pos + 8 in
    put pos (pos + 8) (to_be 8 ts);*
    wret (pos + 8)).

Definition serialize (p : t) : W Z :=
  do* n := wlen in
  if n <? 5 + 8 then werr (TooShort 13 n) else serialize_body p.

Definition read_moon (data : bytes) (pos : Z) : res ProtocolError ((Z * Z) * Z) :=
  let* world_id := be_at 8 data pos in
  let pos := pos + 8 in
  let* ts := be_at 8 data pos in
  Ok ((world_id, ts), pos + 8).

Definition deserialize (data : bytes) : res ProtocolError (t * Z) :=
  if len data <? 13 then Err (TooShort 13 (len data)) else
  let pos := 0 in
  let* protocol_version := get data pos in
  let pos := pos + 1 in
  let* major_version := get data pos in
  let pos := pos + 1 in
  let* minor_version := get data pos in
  let pos := pos + 1 in
  let* revision := be_at 2 data pos in
  let pos := pos + 2 in
  let* timestamp := be_at 8 data pos in
  let pos := pos + 8 in
  let* rest := slice_from data pos in
  let* ' (identity, id_consumed) := Ident.deserialize_identity rest in
  let pos := pos + id_consumed in
  let* rest := slice_from data pos in
  let* ' (dest_address, addr_consumed) := Inet.deserialize rest in
  let pos := pos + addr_consumed in
  if len data <? pos + 16 then Err (TooShort (pos + 16) (len data)) else
  let* planet_world_id := be_at 8 data pos in
  let pos := pos + 8 in
  let* planet_world_timestamp := be_at 8 data pos in
  let pos := pos + 8 in
  let* ' (moon_records, pos) :=
    rwhile (length data) (fun pos => pos + 16 <=? len data) pos (read_moon data) in
  Ok (mk protocol_version major_version minor_version revision timestamp identity dest_address
        planet_world_id planet_world_timestamp moon_records, pos).

Definition moon_ok (m : Z * Z) : Prop := u64_ok m.1 /\ u64_ok m.2.

Definition shape (p : t) : Prop :=
  u16_ok (revision p) /\ u64_ok (timestamp p) /\ Ident.shape (identity p) /\
  Inet.wf (dest_address p) /\ u64_ok (planet_world_id p) /\ u64_ok (planet_world_timestamp p) /\
  Forall moon_ok (moon_records p).

Definition wf (p : t) : Prop := shape p /\ Ident.public_wf (identity p).

Definition encode_moon (m : Z * Z) : bytes := to_be 8 m.1 ++ to_be 8 m.2.

Definition encode_head (p : t) : bytes :=
  [protocol_version p] ++ [major_version p] ++ [minor_version p] ++ to_be 2 (revision p) ++
  to_be 8 (timestamp p).

Definition encode (p : t) : bytes :=
  [protocol_version p] ++ [major_version p] ++ [minor_version p] ++ to_be 2 (revision p) ++
  to_be 8 (timestamp p) ++ Ident.encode (identity p) ++ Inet.encode (dest_address p) ++
  to_be 8 (planet_world_id p) ++ to_be 8 (planet_world_timestamp p) ++
  concat (map encode_moon (moon_records p)).

Lemma serialize_body_emits p : shape p ->
  emits (serialize_body p) 0 (encode p) (len (encode p)).
Proof.
  intros (_ & _ & Hid & Ha & _ & _ & _). unfold serialize_body, encode. eapply emits_conv.
  - repeat first [eapply emits_bind | apply emits_set; len_lia | apply emits_put; len_lia
      | apply emits_on_tail; [len_lia|]; first [by apply Ident.ident_serialize_emits | by apply Inet.inet_serialize_emits]].
    eapply emits_conv; [apply (emits_for encode_moon)|reflexivity|reflexivity].
    intros [w ts] pos _. unfold encode_moon. emits_fields.
  - by rewrite <- ?app_assoc.
  - len_lia.
Qed.

(** From 13 bytes on the check passes. *)
Lemma serialize_long p buf : 13 <= len buf -> serialize p buf = serialize_body p buf.
Proof. intros. unfold serialize, wlen, wbind at 1. by rewrite if_false by lia. Qed.

(** Writing HELLO: with fewer than 13 bytes of buffer the serializer reports
    [TooShort]; from 13 bytes on it writes exactly the wire layout and returns its length
    when the buffer holds it, and panics on a slice index when it does not. *)
Theorem hello_serialize_spec (p : t) (buf : bytes) :
  shape p ->
  serialize p buf =
  if len buf <? 13 then Err (TooShort 13 (len buf))
  else if len (encode p) <=? len buf
  then Ok (len (encode p), encode p ++ drop (length (encode p)) buf)
  else Panic.
Proof.
  intros Hp. unfold serialize, wlen, wbind at 1. change (5 + 8) with 13.
  destruct (len buf <? 13); [done|]. apply emits_run. by apply serialize_body_emits.
Qed.

Lemma read_moon_total d pos : 0 <= pos -> pos + 16 <= len d ->
  safe (read_moon d pos) (fun '(m, pos') => moon_ok m /\ pos' = pos + 16).
Proof. intros. unfold read_moon. wp_reads. split; [done|lia]. Qed.

(** Parsing HELLO never panics and always terminates, whatever the bytes; an
    accepted payload is well formed (an unreserved address, in-range integers, no
    secret) and the number of bytes consumed is within the data. *)
Theorem hello_deserialize_total (d : bytes) :
  safe (deserialize d) (fun '(p, n) => wf p /\ 0 < n <= len d).
Proof.
  unfold deserialize. pose proof (len_nonneg d). wp_reads.
  eapply wp_mono; [apply Ident.ident_deserialize_total| |done]. intros [id n] [Hid Hn]. cbv beta iota.
  wp_reads. eapply wp_mono; [apply Inet.inet_deserialize_total| |done].
  intros [ad m] [Had Hm]. cbv beta iota. wp_reads.
  apply (wp_rwhile _ _ _ _ (len d) (fun pos => 0 + 1 + 1 + 1 + 2 + 8 + n + m + 8 + 8 <= pos <= len d) moon_ok).
  - intros pos Hpos Hc. split; [lia|]. eapply wp_mono; [apply read_moon_total; lia| |done].
    intros [mo pos'] [Hmo ->]. split; [done|lia].
  - lia.
  - unfold len. lia.
  - intros ms pos Hms Hpos _. apply wp_ret. unfold wf, shape. simpl.
    pose proof (Ident.public_wf_shape _ Hid). destruct Hid. split; [|lia]. by split_and!.
Qed.

Lemma hello_deserialize_encode p tl : wf p -> len tl < 16 ->
  deserialize (encode p ++ tl) = Ok (p, len (encode p)).
Proof.
  intros [(Hr & Ht & Hids & Ha & Hpi & Hpt & Hm) Hid] Htl.
  pose proof (Ident.ident_len_encode _ Hids) as Hil. pose proof (Inet.encode_len _ Ha) as Hal.
  set (ms := concat (map encode_moon (moon_records p))).
  pose proof (len_nonneg ms). pose proof (len_nonneg tl).
  assert (len (encode p) = 13 + 71 + len (Inet.encode (dest_address p)) + 16 + len ms) as Hlen
    by (unfold encode; fold ms; len_lia).
  pose proof (len_app (encode p) tl) as Hlt.
  assert (forall pre, encode p ++ tl = pre ++ ms ++ tl -> len pre = 13 + 71 + len (Inet.encode (dest_address p)) + 16 ->
    rwhile (length (encode p ++ tl)) (fun pos => pos + 16 <=? len (encode p ++ tl)) (len pre) (read_moon (encode p ++ tl)) =
    Ok (moon_records p, len (encode p))) as Hloop.
  { intros pre Hpre Hl. rewrite (rwhile_spec encode_moon (moon_records p) _ _ _ _ (encode p ++ tl) pre tl);
      [do 2 f_equal; fold ms; lia|done|done|..].
    - intros x pos a b Hx -> ->. rewrite Forall_forall in Hm. destruct (Hm x Hx) as [H1 H2].
      pose proof (len_nonneg b). unfold encode_moon. rewrite <- !app_assoc. split; [len_lia|].
      unfold read_moon. read_fields. rewrite !from_be_u64 by done. destruct x. simpl. do 2 f_equal. len_lia.
    - lia.
    - assert (len (moon_records p) <= len ms); [|unfold len in *; lia]. unfold ms.
      clear. induction (moon_records p) as [|m l IH]; [done|]. cbn [map concat].
      unfold encode_moon at 1. len_lia. }
  assert (encode p ++ tl = [protocol_version p] ++ [major_version p] ++ [minor_version p] ++
    to_be 2 (revision p) ++ to_be 8 (timestamp p) ++ Ident.encode (identity p) ++
    Inet.encode (dest_address p) ++ to_be 8 (planet_world_id p) ++ to_be 8 (planet_world_timestamp p) ++
    ms ++ tl) as Heq by (unfold encode; fold ms; by rewrite <- !app_assoc).
  specialize (Hloop ([protocol_version p] ++ [major_version p] ++ [minor_version p] ++
    to_be 2 (revision p) ++ to_be 8 (timestamp p) ++ Ident.encode (identity p) ++
    Inet.encode (dest_address p) ++ to_be 8 (planet_world_id p) ++ to_be 8 (planet_world_timestamp p))).
  rewrite <- !app_assoc in Hloop. specialize (Hloop Heq ltac:(len_lia)).
  rewrite Heq in *. unfold deserialize. rewrite if_false by len_lia. cbv zeta.
  read_fields. rewrite (Ident.ident_deserialize_encode _ _ Hid). read_fields.
  rewrite (Inet.inet_deserialize_encode _ _ Ha). read_fields.
  rewrite !from_be_u64, from_be_u16 by done.
  match type of Hloop with rwhile _ _ ?x _ = _ =>
    match goal with |- context [rwhile _ _ ?y _] => replace y with x by len_lia end end.
  rewrite Hloop, rbind_ok. by destruct p.
Qed.

Definition sample : t := new Ident.sample 1700000000000 (V4 (map b8 [10; 0; 0; 1]) 9993).

Lemma sample_shape : shape sample.
Proof. split_and!; try done; constructor. Qed.

Lemma hello_serialize_spec_witness :
  serialize sample (replicate 12 (b8 0)) = Err (TooShort 13 12) /\
  serialize sample (replicate 101 (b8 0)) = Panic /\
  serialize sample (replicate 107 (b8 0)) = Ok (107, encode sample).
Proof.
  split; [exact (hello_serialize_spec sample (replicate 12 (b8 0)) sample_shape)|].
  split; [exact (hello_serialize_spec sample (replicate 101 (b8 0)) sample_shape)|].
  exact (hello_serialize_spec sample (replicate 107 (b8 0)) sample_shape).
Defined.
End HelloP.

(** ** ok.rs *)

Module OkP.
Inductive OkSubPayload : Type :=
  | SubHello (timestamp_echo : Z) (protocol_version major_version minor_version : byte)
      (revision : Z) (world_update : option bytes)
  | SubWhois (identities : list Identity)
  | SubGeneric (data : bytes).

Record t := mk { in_re_verb : Verb; in_re_packet_id : Z; sub_payload : OkSubPayload }.

Definition serialize (p : t) : W Z :=
  let pos := 0 in
  set pos (VerbOps.to_byte (in_re_verb p));*
  let pos := pos + 1 in
  put pos (pos + 8) (to_be 8 (in_re_packet_id p));*
  let pos := pos + 8 in
  match sub_payload p with
  | SubHello timestamp_echo protocol_version major_version minor_version revision world_update =>
      put pos (pos + 8) (to_be 8 timestamp_echo);*
      let pos := pos + 8 in
      set pos protocol_version;*
      let pos := pos + 1 in
      set pos major_version;*
      let pos := pos + 1 in
      set pos minor_version;*
      let pos := pos + 1 in
      put pos (pos + 2) (to_be 2 revision);*
      let pos := pos + 2 in
      match world_update with
      | Some world => put pos (pos + len world) world;* wret (pos + len world)
      | None => wret pos
      end
  | SubWhois identities =>
      wfor identities pos (fun id pos =>
        do* n := on_tail pos (Ident.serialize_identity_public id) in wret (pos + n))
  | SubGeneric data => put pos (pos + len data) data;* wret (pos + len data)
  end.

Definition deserialize (data : bytes) : res ProtocolError t :=
  if len data <? 9 then Err (TooShort 9 (len data)) else
  let* b := get data 0 in
  let* in_re_verb := ok_or (InvalidVerb b) (VerbOps.from_byte b) in
  let* in_re_packet_id := be_at 8 data 1 in
  let* sub_data := slice_from data 9 in
  let* sub_payload :=
    match in_re_verb with
    | Hello =>
        if len sub_data <? 13 then Err (TooShort (9 + 13) (len data)) else
        let* timestamp_echo := be_at 8 sub_data 0 in
        let* protocol_version := get sub_data 8 in
        let* major_version := get sub_data 9 in
        let* minor_version := get sub_data 10 in
        let* revision := be_at 2 sub_data 11 in
        let* world_update :=
          if 13 <? len sub_data then let* w := slice_from sub_data 13 in Ok (Some w) else Ok None in
        Ok (SubHello timestamp_echo protocol_version major_version minor_version revision world_update)
    | Whois =>
        let* identities := decode_all Ident.deserialize_identity sub_data in
        Ok (SubWhois identities)
    | _ => Ok (SubGeneric sub_data)
    end in
  Ok (mk in_re_verb in_re_packet_id sub_payload).

(** The sub-payload a parser picks for a verb. *)
Definition sub_ok (v : Verb) (s : OkSubPayload) : Prop :=
  match v, s with
  | Hello, SubHello ts _ _ _ r w => u64_ok ts /\ u16_ok r /\ w <> Some []
  | Whois, SubWhois ids => Forall Ident.public_wf ids
  | Hello, _ | Whois, _ => False
  | _, SubGeneric _ => True
  | _, _ => False
  end.

Definition shape (p : t) : Prop :=
  u64_ok (in_re_packet_id p) /\
  match sub_payload p with SubWhois ids => Forall Ident.shape ids | _ => True end.

Definition wf (p : t) : Prop :=
  u64_ok (in_re_packet_id p) /\ sub_ok (in_re_verb p) (sub_payload p).

Definition encode_sub (s : OkSubPayload) : bytes :=
  match s with
  | SubHello ts pv ma mi r w => to_be 8 ts ++ [pv] ++ [ma] ++ [mi] ++ to_be 2 r ++ default [] w
  | SubWhois ids => WhoisP.encode_ids ids
  | SubGeneric data => data
  end.

Definition encode (p : t) : bytes :=
  [VerbOps.to_byte (in_re_verb p)] ++ to_be 8 (in_re_packet_id p) ++ encode_sub (sub_payload p).

Lemma okmsg_wf_shape p : wf p -> shape p.
Proof.
  intros [Hid Hs]. split; [done|]. destruct (sub_payload p); try done.
  eapply Forall_impl; [|apply Ident.public_wf_shape]. by destruct (in_re_verb p).
Qed.

Lemma okmsg_serialize_emits p : shape p -> emits (serialize p) 0 (encode p) (len (encode p)).
Proof.
  intros [_ Hs]. unfold serialize, encode. destruct (sub_payload p) as [ts pv ma mi r [w|]|ids|data];
    unfold encode_sub, default; cbn [from_option]; unfold Datatypes.id; [emits_fields|emits_fields| |emits_fields].
  eapply emits_conv.
  - eapply emits_bind; [apply emits_set; len_lia|]. eapply emits_bind; [apply emits_put; len_lia|].
    eapply emits_conv; [by apply WhoisP.write_ids_emits|done|done].
  - done.
  - len_lia.
Qed.

Lemma okmsg_deserialize_total d : safe (deserialize d) wf.
Proof.
  unfold deserialize. pose proof (len_nonneg d). wp_reads.
  match goal with |- wp (match ?v with _ => _ end) _ _ => destruct v end;
    try (apply wp_ret; apply wp_ret; done).
  - wp_reads; pose proof (len_nonneg s); (split; [done|]); simpl; split_and!; try done.
    intros [= ->]. len_lia.
  - apply wp_bind. eapply wp_mono; [apply (@decode_all_total Identity Identity_codec)| |done].
    intros ids Hids. by repeat apply wp_ret.
Qed.

Lemma okmsg_deserialize_encode p : wf p -> deserialize (encode p) = Ok p.
Proof.
  intros [Hid Hs]. unfold deserialize, encode. pose proof (len_nonneg (encode_sub (sub_payload p))).
  read_fields. rewrite VerbOps.from_to_byte. cbn [ok_or]. read_fields. rewrite from_be_u64 by done.
  destruct p as [v id s]. cbn [in_re_verb in_re_packet_id sub_payload] in *.
  destruct v, s as [ts pv ma mi r w|ids|data]; try done; unfold encode_sub in *.
  - destruct Hs as (Hts & Hr & Hw). pose proof (len_nonneg (default [] w)). read_fields.
    rewrite from_be_u64, from_be_u16 by done. destruct w as [[|x w]|]; [done|..];
      cbn [default from_option] in *; unfold Datatypes.id in *.
    + rewrite if_true by len_lia. by read_fields.
    + by rewrite if_false by len_lia.
  - pose proof (@decode_all_roundtrip Identity Identity_codec ids Hs) as Hr. cbn in Hr.
    unfold WhoisP.encode_ids. by rewrite Hr.
Qed.

#[global] Instance codec : PayloadCodec t :=
  {| pc_shape := shape; pc_wf := wf; pc_encode := encode; pc_serialize := serialize;
     pc_deserialize := deserialize; pc_wf_shape := okmsg_wf_shape; pc_emits := okmsg_serialize_emits;
     pc_total := fun d => wp_mono _ _ _ _ _ (okmsg_deserialize_total d) okmsg_wf_shape (fun _ H => H);
     pc_roundtrip := okmsg_deserialize_encode |}.
End OkP.

(** ** error.rs *)

Inductive ErrorCode : Type :=
  | ENone | EInvalidRequest | EBadProtocolVersion | EObjectNotFound | EIdentityCollision
  | EUnsupportedOperation | ENeedMembershipCertificate | ENetworkAccessDenied
  | EUnwantedMulticast | ENetworkAuthenticationRequired.

#[export] Instance ErrorCode_eq_dec : EqDecision ErrorCode.
Proof. solve_decision. Defined.

Module ErrorP.
Definition code_to_byte (c : ErrorCode) : byte :=
  b8 match c with
     | ENone => 0x00 | EInvalidRequest => 0x01 | EBadProtocolVersion => 0x02
     | EObjectNotFound => 0x03 | EIdentityCollision => 0x04 | EUnsupportedOperation => 0x05
     | ENeedMembershipCertificate => 0x06 | ENetworkAccessDenied => 0x07
     | EUnwantedMulticast => 0x08 | ENetworkAuthenticationRequired => 0x09
     end.

Definition code_from_byte (b : byte) : option ErrorCode :=
  match u8 b with
  | 0x00 => Some ENone | 0x01 => Some EInvalidRequest | 0x02 => Some EBadProtocolVersion
  | 0x03 => Some EObjectNotFound | 0x04 => Some EIdentityCollision
  | 0x05 => Some EUnsupportedOperation | 0x06 => Some ENeedMembershipCertificate
  | 0x07 => Some ENetworkAccessDenied | 0x08 => Some EUnwantedMulticast
  | 0x09 => Some ENetworkAuthenticationRequired
  | _ => None
  end.

Record t := mk { in_re_verb : Verb; in_re_packet_id : Z; error_code : ErrorCode; payload : bytes }.

Definition serialize (p : t) : W Z :=
  set 0 (VerbOps.to_byte (in_re_verb p));*
  put 1 9 (to_be 8 (in_re_packet_id p));*
  set 9 (code_to_byte (error_code p));*
  let payload_len := len (payload p) in
  (if 0 <? payload_len then put 10 (10 + payload_len) (payload p) else wret tt);*
  wret (10 + payload_len).

Definition deserialize (data : bytes) : res ProtocolError t :=
  if len data <? 10 then Err (TooShort 10 (len data)) else
  let* b := get data 0 in
  let* in_re_verb := ok_or (InvalidVerb b) (VerbOps.from_byte b) in
  let* in_re_packet_id := be_at 8 data 1 in
  let* c := get data 9 in
  let* error_code := ok_or InvalidPacket (code_from_byte c) in
  let* payload := if 10 <? len data then slice_from data 10 else Ok [] in
  Ok (mk in_re_verb in_re_packet_id error_code payload).

Definition shape (p : t) : Prop := u64_ok (in_re_packet_id p).
Definition encode (p : t) : bytes :=
  [VerbOps.to_byte (in_re_verb p)] ++ to_be 8 (in_re_packet_id p) ++
  [code_to_byte (error_code p)] ++ payload p.

#[global] Instance codec : PayloadCodec t.
Proof.
  refine {| pc_shape := shape; pc_wf := shape; pc_encode := encode;
            pc_serialize := serialize; pc_deserialize := deserialize |}.
  - done.
  - intros x _. unfold serialize, encode. destruct (payload x) as [|y l]; cbv zeta.
    + rewrite if_false by len_lia. emits_fields.
    + rewrite if_true by len_lia. emits_fields.
  - intros d. unfold deserialize. pose proof (len_nonneg d). wp_reads; done.
  - intros p Hp. unfold deserialize, encode. pose proof (len_nonneg (payload p)). read_fields.
    rewrite VerbOps.from_to_byte. cbn [ok_or]. read_fields. rewrite from_be_u64 by done.
    assert (code_from_byte (code_to_byte (error_code p)) = Some (error_code p)) as ->
      by (by destruct (error_code p)).
    cbn [ok_or]. rewrite rbind_ok. destruct p as [v id c [|y l]]; cbn [payload] in *.
    + rewrite if_false by len_lia. done.
    + rewrite if_true by len_lia. by read_fields.
Defined.
End ErrorP.
