(* ===== verification/MulticastWire.v ===== *)
(** * MulticastWire: MULTICAST_LIKE, MULTICAST_GATHER and MULTICAST_FRAME payloads
    (zerotier-protocol: verbs/multicast.rs). *)
From S2P Require Export Wire.

Record MulticastGroup := mkMulticastGroup { mg_network_id : Z; mg_mac : bytes; mg_adi : Z }.

#[export] Instance MulticastGroup_eq_dec : EqDecision MulticastGroup.
Proof. solve_decision. Defined.

Definition group_ok (g : MulticastGroup) : Prop :=
  u64_ok (mg_network_id g) /\ len (mg_mac g) = 6 /\ u32_ok (mg_adi g).

Module LikeP.
Record t := mk { groups : list MulticastGroup }.

Definition serialize (p : t) : W Z :=
  wfor (groups p) 0 (fun group offset =>
    put offset (offset + 8) (to_be 8 (mg_network_id group));*
    let offset := offset + 8 in
    put offset (offset + 6) (mg_mac group);*
    let offset := offset + 6 in
    put offset (offset + 4) (to_be 4 (mg_adi group));*
    wret (offset + 4)).

Definition read_group (data : bytes) (offset : Z) : res ProtocolError (MulticastGroup * Z) :=
  let* network_id := be_at 8 data offset in
  let offset := offset + 8 in
  let* mac := array_at 6 data offset (offset + 6) in
  let offset := offset + 6 in
  let* adi := be_at 4 data offset in
  Ok (mkMulticastGroup network_id mac adi, offset + 4).

Definition deserialize (data : bytes) : res ProtocolError t :=
  if negb (len data mod 18 =? 0) then Err InvalidPacket else
  let count := len data / 18 in
  let* ' (groups, _) := rfor (Z.to_nat count) 0 (read_group data) in
  Ok (mk groups).

Definition shape (p : t) : Prop := Forall group_ok (groups p).
Definition encode_group (g : MulticastGroup) : bytes :=
  to_be 8 (mg_network_id g) ++ mg_mac g ++ to_be 4 (mg_adi g).
Definition encode (p : t) : bytes := concat (map encode_group (groups p)).

Lemma like_serialize_emits p : shape p -> emits (serialize p) 0 (encode p) (len (encode p)).
Proof.
  intros Hp. apply (emits_for encode_group). intros g pos Hg. unfold shape in Hp.
  rewrite Forall_forall in Hp. destruct (Hp g Hg) as (_ & Hm & _). unfold encode_group. emits_fields.
Qed.

Lemma like_deserialize_total d : safe (deserialize d) shape.
Proof.
  unfold deserialize. wp_reads. pose proof (len_nonneg d).
  apply (wp_rfor _ _ _ (fun k p => 0 <= p /\ p + 18 * Z.of_nat k <= len d) group_ok).
  - intros k p [Hp Hk]. unfold read_group. wp_reads. split; [done|lia].
  - pose proof (Z.mul_div_le (len d) 18 ltac:(lia)). pose proof (Z.div_pos (len d) 18). lia.
  - done.
Qed.

Lemma like_len_encode p : shape p -> len (encode p) = 18 * len (groups p).
Proof.
  unfold encode, shape. induction (groups p) as [|g l IH]; [done|]. intros [(_ & Hm & _) Hl]%Forall_cons.
  cbn [map concat]. rewrite len_app, IH by done. unfold encode_group. len_lia.
Qed.

Lemma like_deserialize_encode p : shape p -> deserialize (encode p) = Ok p.
Proof.
  intros Hp. unfold deserialize. rewrite like_len_encode, Z.mul_comm, Z.mod_mul, Z.div_mul by (done || lia).
  rewrite if_false by done. replace (Z.to_nat (len (groups p))) with (length (groups p)) by (unfold len; lia).
  rewrite (rfor_spec encode_group _ _ _ (encode p) [] []); [by destruct p|by rewrite app_nil_r|done|].
  intros g pos a b Hg -> ->. unfold read_group, encode_group. rewrite <- !app_assoc.
  unfold shape in Hp. rewrite Forall_forall in Hp. destruct (Hp g Hg) as (H1 & H2 & H3). read_fields.
  rewrite from_be_u64, from_be_u32 by done. destruct g; cbn in H2. simpl. do 2 f_equal. len_lia.
Qed.

#[global] Instance codec : PayloadCodec t :=
  {| pc_shape := shape; pc_wf := shape; pc_encode := encode; pc_serialize := serialize;
     pc_deserialize := deserialize; pc_wf_shape := fun _ H => H;
     pc_emits := like_serialize_emits; pc_total := like_deserialize_total;
     pc_roundtrip := like_deserialize_encode |}.
End LikeP.

Module GatherP.
Record t := mk {
  network_id : Z; flags : byte; mac : bytes; adi : Z; gather_limit : Z; com : option bytes
}.

Definition serialize (p : t) : W Z :=
  let offset := 0 in
  put offset (offset + 8) (to_be 8 (network_id p));*
  let offset := offset + 8 in
  set offset (flags p);*
  let offset := offset + 1 in
  put offset (offset + 6) (mac p);*
  let offset := offset + 6 in
  put offset (offset + 4) (to_be 4 (adi p));*
  let offset := offset + 4 in
  put offset (offset + 4) (to_be 4 (gather_limit p));*
  let offset := offset + 4 in
  match com p with
  | Some com => put offset (offset + len com) com;* wret (offset + len com)
  | None => wret offset
  end.

Definition deserialize (data : bytes) : res ProtocolError t :=
  if len data <? 23 then Err (TooShort 23 (len data)) else
  let* network_id := be_at 8 data 0 in
  let* flags := get data 8 in
  let* mac := array_at 6 data 9 15 in
  let* adi := be_at 4 data 15 in
  let* gather_limit := be_at 4 data 19 in
  let* com := if 23 <? len data then let* c := slice_from data 23 in Ok (Some c) else Ok None in
  Ok (mk network_id flags mac adi gather_limit com).

Definition shape (p : t) : Prop :=
  u64_ok (network_id p) /\ len (mac p) = 6 /\ u32_ok (adi p) /\ u32_ok (gather_limit p).
Definition wf (p : t) : Prop := shape p /\ com p <> Some [].
Definition encode (p : t) : bytes :=
  to_be 8 (network_id p) ++ [flags p] ++ mac p ++ to_be 4 (adi p) ++ to_be 4 (gather_limit p) ++
  default [] (com p).

#[global] Instance codec : PayloadCodec t.
Proof.
  refine {| pc_shape := shape; pc_wf := wf; pc_encode := encode;
            pc_serialize := serialize; pc_deserialize := deserialize |}.
  - by intros x [? _].
  - intros x (_ & Hm & _). unfold serialize, encode. destruct (com x) as [c|];
      cbn [default from_option]; unfold Datatypes.id; emits_fields.
  - intros d. unfold deserialize. pose proof (len_nonneg d). wp_reads; done.
  - intros p [(Hn & Hm & Ha & Hg) Hc]. unfold deserialize, encode.
    pose proof (len_nonneg (default [] (com p))). read_fields.
    rewrite from_be_u64, !from_be_u32 by done.
    destruct p as [n f m a g [[|x c]|]]; cbn [com mac network_id adi gather_limit flags default from_option] in *;
      unfold Datatypes.id in *; [done|..].
    + rewrite if_true by len_lia. by read_fields.
    + by rewrite if_false by len_lia.
Defined.
End GatherP.

Module MFrameP.
Record t := mk {
  network_id : Z; flags : byte; gather_limit : option Z; source_mac : option bytes;
  dest_mac : bytes; adi : Z; ethertype : Z; payload : bytes
}.

Definition parse (data : bytes) : res ProtocolError t :=
  if len data <? 9 then Err (TooShort 9 (len data)) else
  let* network_id := be_at 8 data 0 in
  let* flags := get data 8 in
  let offset := 9 in
  let* ' (gather_limit, offset) :=
    if negb (Z.land (u8 flags) 0x02 =? 0) then
      if len data <? offset + 4 then Err (TooShort (offset + 4) (len data)) else
      let* gl := be_at 4 data offset in
      Ok (Some gl, offset + 4)
    else Ok (None, offset) in
  let* ' (source_mac, offset) :=
    if negb (Z.land (u8 flags) 0x04 =? 0) then
      if len data <? offset + 6 then Err (TooShort (offset + 6) (len data)) else
      let* mac := array_at 6 data offset (offset + 6) in
      Ok (Some mac, offset + 6)
    else Ok (None, offset) in
  if len data <? offset + 12 then Err (TooShort (offset + 12) (len data)) else
  let* dest_mac := array_at 6 data offset (offset + 6) in
  let offset := offset + 6 in
  let* adi := be_at 4 data offset in
  let offset := offset + 4 in
  let* ethertype := be_at 2 data offset in
  let offset := offset + 2 in
  let* payload := slice_from data offset in
  Ok (mk network_id flags gather_limit source_mac dest_mac adi ethertype payload).

Definition serialize (p : t) : W Z :=
  let offset := 0 in
  put offset (offset + 8) (to_be 8 (network_id p));*
  let offset := offset + 8 in
  set offset (flags p);*
  let offset := offset + 1 in
  do* offset :=
    match gather_limit p with
    | Some gl => put offset (offset + 4) (to_be 4 gl);* wret (offset + 4)
    | None => wret offset
    end in
  do* offset :=
    match source_mac p with
    | Some mac => put offset (offset + 6) mac;* wret (offset + 6)
    | None => wret offset
    end in
  put offset (offset + 6) (dest_mac p);*
  let offset := offset + 6 in
  put offset (offset + 4) (to_be 4 (adi p));*
  let offset := offset + 4 in
  put offset (offset + 2) (to_be 2 (ethertype p));*
  let offset := offset + 2 in
  let plen := len (payload p) in
  put offset (offset + plen) (payload p);*
  wret (offset + plen).

Definition shape (p : t) : Prop :=
  u64_ok (network_id p) /\
  match gather_limit p with Some gl => u32_ok gl | None => True end /\
  match source_mac p with Some m => len m = 6 | None => True end /\
  len (dest_mac p) = 6 /\ u32_ok (adi p) /\ u16_ok (ethertype p).

(** The flags announce the optional fields. *)
Definition wf (p : t) : Prop :=
  shape p /\
  negb (Z.land (u8 (flags p)) 0x02 =? 0) = is_some (gather_limit p) /\
  negb (Z.land (u8 (flags p)) 0x04 =? 0) = is_some (source_mac p).

Definition encode (p : t) : bytes :=
  to_be 8 (network_id p) ++ [flags p] ++
  match gather_limit p with Some gl => to_be 4 gl | None => [] end ++
  default [] (source_mac p) ++
  dest_mac p ++ to_be 4 (adi p) ++ to_be 2 (ethertype p) ++ payload p.

Lemma mframe_serialize_emits p : shape p -> emits (serialize p) 0 (encode p) (len (encode p)).
Proof.
  intros (_ & _ & Hs & Hd & _). unfold serialize, encode.
  destruct (gather_limit p) as [gl|], (source_mac p) as [m|];
    cbn [default from_option]; unfold Datatypes.id; emits_fields.
Qed.

Lemma mframe_parse_total d : safe (parse d) wf.
Proof.
  unfold parse. pose proof (len_nonneg d). wp_reads; unfold wf, shape; simpl;
    (split; [by split_and!|]); split;
    repeat match goal with H : negb _ = _ |- _ => rewrite H; clear H end; done.
Qed.

Lemma parse_encode p : wf p -> parse (encode p) = Ok p.
Proof.
  intros [(Hn & Hg & Hs & Hd & Ha & He) [Hfg Hfs]]. unfold parse, encode.
  pose proof (len_nonneg (payload p)).
  destruct p as [n f [gl|] [m|] dm a e pl];
    cbn [network_id flags gather_limit source_mac dest_mac adi ethertype payload default from_option is_some] in *;
    unfold Datatypes.id in *; rewrite ?app_nil_l;
    rewrite if_false by len_lia; do 2 read_fields; rewrite ?Hfg, ?Hfs;
    cbv iota; read_fields; by rewrite from_be_u64, ?from_be_u32, from_be_u16 by done.
Qed.

#[global] Instance codec : PayloadCodec t :=
  {| pc_shape := shape; pc_wf := wf; pc_encode := encode; pc_serialize := serialize;
     pc_deserialize := parse; pc_wf_shape := fun _ H => proj1 H;
     pc_emits := mframe_serialize_emits;
     pc_total := fun d => wp_mono _ _ _ _ _ (mframe_parse_total d) (fun _ H => proj1 H) (fun _ H => H);
     pc_roundtrip := parse_encode |}.
End MFrameP.
