(* ===== verification/NetConfWire.v ===== *)
(** * NetConfWire: NETWORK_CONFIG_REQUEST, NETWORK_CONFIG and NETWORK_CREDENTIALS
    payloads and the certificate of membership (zerotier-protocol:
    verbs/network_config.rs). *)
From S2P Require Export Wire.

Module NcrP.
Record t := mk { network_id : Z; dict_data : bytes }.

Definition serialize (p : t) : W Z :=
  put 0 8 (to_be 8 (network_id p));*
  let dict_len := wrap 16 (len (dict_data p)) in
  put 8 10 (to_be 2 dict_len);*
  put 10 (10 + len (dict_data p)) (dict_data p);*
  wret (10 + len (dict_data p)).

Definition deserialize (data : bytes) : res ProtocolError t :=
  if len data <? 10 then Err (TooShort 10 (len data)) else
  let* network_id := be_at 8 data 0 in
  let* dict_len := be_at 2 data 8 in
  if len data <? 10 + dict_len then Err (TooShort (10 + dict_len) (len data)) else
  let* dict_data := slice data 10 (10 + dict_len) in
  Ok (mk network_id dict_data).

Definition shape (p : t) : Prop := u64_ok (network_id p).
Definition wf (p : t) : Prop := shape p /\ len (dict_data p) <= U16_MAX.
Definition encode (p : t) : bytes :=
  to_be 8 (network_id p) ++ to_be 2 (wrap 16 (len (dict_data p))) ++ dict_data p.

Lemma ncr_deserialize_encode p tl : wf p -> deserialize (encode p ++ tl) = Ok p.
Proof.
  intros [Hn Hd]. pose proof (len_nonneg (dict_data p)). pose proof (len_nonneg tl).
  unfold deserialize, encode. rewrite <- !app_assoc. read_fields.
  rewrite from_be_u64, !from_be_len by done. read_fields. by destruct p.
Qed.

#[global] Instance codec : PayloadCodec t.
Proof.
  refine {| pc_shape := shape; pc_wf := wf; pc_encode := encode;
            pc_serialize := serialize; pc_deserialize := deserialize |}.
  - by intros x [? _].
  - intros x _. unfold serialize, encode. emits_fields.
  - intros d. unfold deserialize. pose proof (len_nonneg d). wp_reads. unfold u16_ok in *. by wp_reads.
  - intros p Hp. rewrite <- (app_nil_r (encode p)). by apply ncr_deserialize_encode.
Defined.
End NcrP.

Module NetConfP.
Record t := mk {
  network_id : Z;
  dict_data : bytes;
  flags : option byte;
  config_update_id : option Z;
  total_length : option Z;
  chunk_index : option Z;
  signature_type : option byte;
  signature : option bytes;
}.

Definition serialize (p : t) : W Z :=
  put 0 8 (to_be 8 (network_id p));*
  let dict_len := wrap 16 (len (dict_data p)) in
  put 8 10 (to_be 2 dict_len);*
  let dict_end := 10 + len (dict_data p) in
  put 10 dict_end (dict_data p);*
  let offset := dict_end in
  match flags p, config_update_id p, total_length p, chunk_index p, signature_type p, signature p with
  | Some flags, Some config_update_id, Some total_length, Some chunk_index,
    Some signature_type, Some signature =>
      set offset flags;*
      let offset := offset + 1 in
      put offset (offset + 8) (to_be 8 config_update_id);*
      let offset := offset + 8 in
      put offset (offset + 4) (to_be 4 total_length);*
      let offset := offset + 4 in
      put offset (offset + 4) (to_be 4 chunk_index);*
      let offset := offset + 4 in
      set offset signature_type;*
      let offset := offset + 1 in
      let signature_len := wrap 16 (len signature) in
      put offset (offset + 2) (to_be 2 signature_len);*
      let offset := offset + 2 in
      put offset (offset + len signature) signature;*
      wret (offset + len signature)
  | _, _, _, _, _, _ => wret offset
  end.

Definition deserialize (data : bytes) : res ProtocolError t :=
  if len data <? 10 then Err (TooShort 10 (len data)) else
  let* network_id := be_at 8 data 0 in
  let* dict_len := be_at 2 data 8 in
  if len data <? 10 + dict_len then Err (TooShort (10 + dict_len) (len data)) else
  let* dict_data := slice data 10 (10 + dict_len) in
  let dict_end := 10 + dict_len in
  if len data =? dict_end then
    Ok (mk network_id dict_data None None None None None None)
  else
    if len data <? dict_end + 20 then Err (TooShort (dict_end + 20) (len data)) else
    let* flags := get data dict_end in
    let* config_update_id := be_at 8 data (dict_end + 1) in
    let* total_length := be_at 4 data (dict_end + 9) in
    let* chunk_index := be_at 4 data (dict_end + 13) in
    let* signature_type := get data (dict_end + 17) in
    let* signature_len := be_at 2 data (dict_end + 18) in
    if len data <? dict_end + 20 + signature_len
    then Err (TooShort (dict_end + 20 + signature_len) (len data)) else
    let* signature := slice data (dict_end + 20) (dict_end + 20 + signature_len) in
    Ok (mk network_id dict_data (Some flags) (Some config_update_id) (Some total_length)
          (Some chunk_index) (Some signature_type) (Some signature)).

Definition u_opt (P : Z -> Prop) (o : option Z) : Prop := match o with Some z => P z | None => True end.

Definition shape (p : t) : Prop :=
  u64_ok (network_id p) /\ u_opt u64_ok (config_update_id p) /\ u_opt u32_ok (total_length p) /\
  u_opt u32_ok (chunk_index p).

(** Either no chunk fields or all of them, and blobs their length prefix can
    announce. *)
Definition wf (p : t) : Prop :=
  shape p /\ len (dict_data p) <= U16_MAX /\
  match flags p, config_update_id p, total_length p, chunk_index p, signature_type p, signature p with
  | Some _, Some _, Some _, Some _, Some _, Some sg => len sg <= U16_MAX
  | None, None, None, None, None, None => True
  | _, _, _, _, _, _ => False
  end.

Definition encode_chunk (p : t) : bytes :=
  match flags p, config_update_id p, total_length p, chunk_index p, signature_type p, signature p with
  | Some f, Some u, Some t, Some c, Some st, Some sg =>
      [f] ++ to_be 8 u ++ to_be 4 t ++ to_be 4 c ++ [st] ++ to_be 2 (wrap 16 (len sg)) ++ sg
  | _, _, _, _, _, _ => []
  end.

Definition encode (p : t) : bytes :=
  to_be 8 (network_id p) ++ to_be 2 (wrap 16 (len (dict_data p))) ++ dict_data p ++ encode_chunk p.

Lemma netconf_serialize_emits p : emits (serialize p) 0 (encode p) (len (encode p)).
Proof.
  unfold serialize, encode, encode_chunk.
  destruct (flags p), (config_update_id p), (total_length p), (chunk_index p), (signature_type p),
    (signature p); emits_fields.
Qed.

Lemma netconf_deserialize_total d : safe (deserialize d) wf.
Proof.
  unfold deserialize. pose proof (len_nonneg d). wp_reads. unfold u16_ok in *.
  wp_reads; unfold u16_ok in *; wp_reads; unfold wf, shape; simpl; split_and!; done || lia.
Qed.

Lemma netconf_deserialize_encode p : wf p -> deserialize (encode p) = Ok p.
Proof.
  intros ((Hn & Hu & Ht & Hc) & Hd & Hs). pose proof (len_nonneg (dict_data p)).
  pose proof (len_nonneg (encode_chunk p)).
  unfold deserialize, encode. read_fields. rewrite from_be_u64, !from_be_len by done. read_fields.
  unfold encode_chunk in *.
  destruct p as [n dd [f|] [u|] [t|] [c|] [st|] [sg|]];
    cbn [network_id dict_data flags config_update_id total_length chunk_index signature_type signature u_opt] in *;
    try done.
  - pose proof (len_nonneg sg). read_fields. rewrite !from_be_len by done. read_fields.
    by rewrite from_be_u64, !from_be_u32 by done.
  - by rewrite if_true by len_lia.
Qed.

#[global] Instance codec : PayloadCodec t :=
  {| pc_shape := shape; pc_wf := wf; pc_encode := encode; pc_serialize := serialize;
     pc_deserialize := deserialize; pc_wf_shape := fun _ H => proj1 H;
     pc_emits := fun x _ => netconf_serialize_emits x;
     pc_total := fun d => wp_mono _ _ _ _ _ (netconf_deserialize_total d) (fun _ H => proj1 H) (fun _ H => H);
     pc_roundtrip := netconf_deserialize_encode |}.
End NetConfP.

(** ** The certificate of membership *)

Record ComQualifier := mkComQualifier { q_id : Z; q_value : Z; q_max_delta : Z }.

Record CertificateOfMembership := mkCom {
  com_issued_to : bytes;
  com_qualifiers : list ComQualifier;
  com_signer_address : bytes;
  com_signature : bytes;
}.

#[export] Instance ComQualifier_eq_dec : EqDecision ComQualifier.
Proof. solve_decision. Defined.
#[export] Instance CertificateOfMembership_eq_dec : EqDecision CertificateOfMembership.
Proof. solve_decision. Defined.

Module Com.
(** [\[0; n\]]. *)
Definition zeros (n : nat) : bytes := replicate n "000"%byte.

Definition u64_to_zt_address (value : Z) : bytes := drop 3 (to_be 8 value).

Definition serialize (c : CertificateOfMembership) : W Z :=
  set 0 (b8 1);*
  let count := wrap 16 (len (com_qualifiers c)) in
  put 1 3 (to_be 2 count);*
  do* offset := wfor (com_qualifiers c) 3 (fun q offset =>
    put offset (offset + 8) (to_be 8 (q_id q));*
    let offset := offset + 8 in
    put offset (offset + 8) (to_be 8 (q_value q));*
    let offset := offset + 8 in
    put offset (offset + 8) (to_be 8 (q_max_delta q));*
    wret (offset + 8)) in
  put offset (offset + 5) (com_signer_address c);*
  let offset := offset + 5 in
  if negb (bool_decide (com_signer_address c = zeros 5)) then
    put offset (offset + 96) (com_signature c);*
    wret (offset + 96)
  else wret offset.

Definition read_qualifier (data : bytes) (offset : Z) : res ProtocolError (ComQualifier * Z) :=
  let* id := be_at 8 data offset in
  let offset := offset + 8 in
  let* value := be_at 8 data offset in
  let offset := offset + 8 in
  let* max_delta := be_at 8 data offset in
  Ok (mkComQualifier id value max_delta, offset + 8).

(** [qualifiers.iter().find(|q| q.id == id)]. *)
Definition find_qualifier (id : Z) (qs : list ComQualifier) : option ComQualifier :=
  find (fun q => q_id q =? id) qs.

Definition issued_to_of (qs : list ComQualifier) : bytes :=
  match find_qualifier 2 qs with
  | Some q => u64_to_zt_address (q_value q)
  | None => zeros 5
  end.

Definition deserialize (data : bytes) : res ProtocolError (CertificateOfMembership * Z) :=
  if len data <? 8 then Err (TooShort 8 (len data)) else
  let* v := get data 0 in
  if negb (u8 v =? 1) then Err InvalidPacket else
  let* count := be_at 2 data 1 in
  let base_needed := 3 + count * 24 + 5 in
  if len data <? base_needed then Err (TooShort base_needed (len data)) else
  let* ' (qualifiers, offset) := rfor (Z.to_nat count) 3 (read_qualifier data) in
  let issued_to := issued_to_of qualifiers in
  let* signer_address := array_at 5 data offset (offset + 5) in
  let offset := offset + 5 in
  if negb (bool_decide (signer_address = zeros 5)) then
    let needed := offset + 96 in
    if len data <? needed then Err (TooShort needed (len data)) else
    let* signature := array_at 96 data offset (offset + 96) in
    Ok (mkCom issued_to qualifiers signer_address signature, offset + 96)
  else Ok (mkCom issued_to qualifiers signer_address (zeros 96), offset).

Definition qualifier_ok (q : ComQualifier) : Prop :=
  u64_ok (q_id q) /\ u64_ok (q_value q) /\ u64_ok (q_max_delta q).

Definition shape (c : CertificateOfMembership) : Prop :=
  Forall qualifier_ok (com_qualifiers c) /\ len (com_signer_address c) = 5 /\
  len (com_signature c) = 96.

(** What the decoder yields: the subject read off the qualifiers, and no stray
    signature on an unsigned certificate. *)
Definition wf (c : CertificateOfMembership) : Prop :=
  shape c /\ len (com_qualifiers c) <= U16_MAX /\
  com_issued_to c = issued_to_of (com_qualifiers c) /\
  (com_signer_address c = zeros 5 -> com_signature c = zeros 96).

Definition encode_qualifier (q : ComQualifier) : bytes :=
  to_be 8 (q_id q) ++ to_be 8 (q_value q) ++ to_be 8 (q_max_delta q).

Definition signed (c : CertificateOfMembership) : bool :=
  negb (bool_decide (com_signer_address c = zeros 5)).

Definition encode (c : CertificateOfMembership) : bytes :=
  [b8 1] ++ to_be 2 (wrap 16 (len (com_qualifiers c))) ++
  concat (map encode_qualifier (com_qualifiers c)) ++ com_signer_address c ++
  (if signed c then com_signature c else []).

Lemma write_qualifiers_emits qs pos :
  emits (wfor qs pos (fun q offset =>
    put offset (offset + 8) (to_be 8 (q_id q));*
    let offset := offset + 8 in
    put offset (offset + 8) (to_be 8 (q_value q));*
    let offset := offset + 8 in
    put offset (offset + 8) (to_be 8 (q_max_delta q));*
    wret (offset + 8))) pos (concat (map encode_qualifier qs))
    (pos + len (concat (map encode_qualifier qs))).
Proof. apply (emits_for encode_qualifier). intros q p _. unfold encode_qualifier. emits_fields. Qed.

Lemma com_serialize_emits c : shape c -> emits (serialize c) 0 (encode c) (len (encode c)).
Proof.
  intros (_ & Ha & Hs). unfold serialize, encode, signed.
  destruct (negb _); eapply emits_conv;
    [ eapply emits_bind; [apply emits_set; len_lia|]; eapply emits_bind; [apply emits_put; len_lia|];
      eapply emits_bind; [eapply emits_conv; [apply write_qualifiers_emits|done|reflexivity]|];
      repeat emits_step
    | by rewrite ?app_nil_r, <- ?app_assoc | len_lia
    | eapply emits_bind; [apply emits_set; len_lia|]; eapply emits_bind; [apply emits_put; len_lia|];
      eapply emits_bind; [eapply emits_conv; [apply write_qualifiers_emits|done|reflexivity]|];
      repeat emits_step
    | by rewrite ?app_nil_r, <- ?app_assoc | len_lia ].
Qed.

Lemma len_zeros n : len (zeros n) = Z.of_nat n.
Proof. apply len_replicate. Qed.

Lemma len_quals qs : len (concat (map encode_qualifier qs)) = 24 * len qs.
Proof.
  induction qs as [|q qs IH]; [done|]. cbn [map concat]. rewrite len_app, IH.
  unfold encode_qualifier. len_lia.
Qed.

Lemma com_deserialize_total d : safe (deserialize d) (fun '(c, n) => wf c /\ 0 < n <= len d).
Proof.
  unfold deserialize. pose proof (len_nonneg d). wp_reads. unfold u16_ok, U16_MAX in *.
  apply (wp_rfor _ _ _ (fun k p => 3 <= p /\ p + 24 * Z.of_nat k + 5 <= len d) qualifier_ok).
  { intros k p [Hp Hk]. unfold read_qualifier. wp_reads. split; [done|lia]. }
  { lia. }
  intros qs p Hl Hqs [Hp Hb]. cbv beta iota. wp_reads; unfold wf, shape; simpl.
  - split; [|lia]. split_and!; try done; [unfold U16_MAX, len; lia|]. intros ->.
    by rewrite bool_decide_true in * by done.
  - split; [|lia]. rewrite len_zeros. split_and!; try done. unfold U16_MAX, len; lia.
Qed.

Lemma com_deserialize_encode c tl : wf c -> deserialize (encode c ++ tl) = Ok (c, len (encode c)).
Proof.
  intros ((Hq & Ha & Hs) & Hl & Hi & Hz). pose proof (len_nonneg tl).
  pose proof (len_quals (com_qualifiers c)) as Hqs. pose proof (len_nonneg (com_qualifiers c)).
  set (qs := concat (map encode_qualifier (com_qualifiers c))) in *.
  set (sg := if signed c then com_signature c else []).
  pose proof (len_nonneg sg).
  assert (encode c ++ tl = [b8 1] ++ to_be 2 (wrap 16 (len (com_qualifiers c))) ++ qs ++
    com_signer_address c ++ sg ++ tl) as Heq by (unfold encode; by rewrite <- !app_assoc).
  assert (len (encode c) = 3 + len qs + 5 + len sg) as Hlen by (unfold encode; fold qs sg; len_lia).
  assert (rfor (length (com_qualifiers c)) 3 (read_qualifier (encode c ++ tl)) =
    Ok (com_qualifiers c, 3 + len qs)) as Hloop.
  { unfold qs. rewrite (rfor_spec encode_qualifier (com_qualifiers c) 3 _ (encode c ++ tl)
      ([b8 1] ++ to_be 2 (wrap 16 (len (com_qualifiers c)))) (com_signer_address c ++ sg ++ tl));
      [done|by rewrite Heq, <- !app_assoc|len_lia|].
    intros q pos a b Hx -> ->. rewrite Forall_forall in Hq. destruct (Hq q Hx) as (? & ? & ?).
    unfold read_qualifier, encode_qualifier. rewrite <- !app_assoc. read_fields.
    rewrite !from_be_u64 by done. destruct q. simpl. do 2 f_equal. len_lia. }
  rewrite Heq in *. unfold deserialize. rewrite if_false by len_lia. read_fields.
  change (u8 (b8 1)) with 1. rewrite if_false by done. read_fields.
  rewrite from_be_len by done. rewrite if_false by len_lia.
  replace (Z.to_nat (len (com_qualifiers c))) with (length (com_qualifiers c)) by (unfold len; lia).
  rewrite Hloop, rbind_ok. read_fields. fold (signed c). unfold sg in *.
  destruct c as [it cq sa cs]. unfold signed in *. cbn [com_issued_to com_qualifiers com_signer_address com_signature] in *.
  case_bool_decide as Hsa; cbn [negb] in *; cbv iota in *.
  - rewrite Hlen, Hz, Hi by done. do 2 f_equal. len_lia.
  - rewrite if_false by len_lia. read_fields. rewrite Hlen, Hi. do 2 f_equal. lia.
Qed.

#[global] Instance codec : WireCodec CertificateOfMembership :=
  {| wc_shape := shape; wc_wf := wf; wc_encode := encode; wc_serialize := serialize;
     wc_deserialize := deserialize; wc_wf_shape := fun _ H => proj1 H;
     wc_emits := com_serialize_emits; wc_total := com_deserialize_total; wc_roundtrip := com_deserialize_encode |}.
End Com.

(** ** NETWORK_CREDENTIALS *)

Module CredP.
Record t := mk {
  com : option CertificateOfMembership;
  capabilities_raw : bytes;
  tags_raw : bytes;
  revocations_raw : bytes;
  coo_raw : bytes;
}.

(** One blob with its length prefix; the serializer has this block four times. *)
Definition write_section (raw : bytes) (offset : Z) : W Z :=
  let n := wrap 16 (len raw) in
  put offset (offset + 2) (to_be 2 n);*
  let offset := offset + 2 in
  if negb (len raw =? 0) then
    put offset (offset + len raw) raw;*
    wret (offset + len raw)
  else wret offset.

Definition serialize (p : t) : W Z :=
  let offset := 0 in
  do* offset :=
    match com p with
    | Some com =>
        set offset (b8 1);*
        let offset := offset + 1 in
        do* com_len := on_tail offset (Com.serialize com) in
        wret (offset + com_len)
    | None =>
        set offset (b8 0);*
        wret (offset + 1)
    end in
  do* offset := write_section (capabilities_raw p) offset in
  do* offset := write_section (tags_raw p) offset in
  do* offset := write_section (revocations_raw p) offset in
  write_section (coo_raw p) offset.

Definition read_raw_section (data : bytes) (offset : Z) : res ProtocolError (bytes * Z) :=
  if len data <? offset + 2 then Err (TooShort (offset + 2) (len data)) else
  let* n := be_at 2 data offset in
  let offset := offset + 2 in
  if len data <? offset + n then Err (TooShort (offset + n) (len data)) else
  let* raw := slice data offset (offset + n) in
  Ok (raw, offset + n).

Definition deserialize (data : bytes) : res ProtocolError t :=
  if len data =? 0 then Err (TooShort 1 0) else
  let offset := 0 in
  let* has_com := get data offset in
  let offset := offset + 1 in
  let* ' (com, offset) :=
    if negb (u8 has_com =? 0) then
      let* rest := slice_from data offset in
      let* ' (com, consumed) := Com.deserialize rest in
      Ok (Some com, offset + consumed)
    else Ok (None, offset) in
  let* ' (capabilities_raw, offset) := read_raw_section data offset in
  let* ' (tags_raw, offset) := read_raw_section data offset in
  let* ' (revocations_raw, offset) := read_raw_section data offset in
  let* ' (coo_raw, offset) := read_raw_section data offset in
  Ok (mk com capabilities_raw tags_raw revocations_raw coo_raw).

Definition com_opt (Q : CertificateOfMembership -> Prop) (p : t) : Prop :=
  match com p with Some c => Q c | None => True end.

Definition wf (p : t) : Prop :=
  com_opt Com.wf p /\ len (capabilities_raw p) <= U16_MAX /\ len (tags_raw p) <= U16_MAX /\
  len (revocations_raw p) <= U16_MAX /\ len (coo_raw p) <= U16_MAX.

Definition encode_section (raw : bytes) : bytes := to_be 2 (wrap 16 (len raw)) ++ raw.

Definition encode_com (o : option CertificateOfMembership) : bytes :=
  match o with Some c => [b8 1] ++ Com.encode c | None => [b8 0] end.

Definition encode (p : t) : bytes :=
  encode_com (com p) ++ encode_section (capabilities_raw p) ++ encode_section (tags_raw p) ++
  encode_section (revocations_raw p) ++ encode_section (coo_raw p).

Lemma write_section_emits raw pos :
  emits (write_section raw pos) pos (encode_section raw) (pos + len (encode_section raw)).
Proof.
  unfold write_section, encode_section. destruct raw as [|x l]; cbv zeta.
  - rewrite if_false by done. emits_fields.
  - rewrite if_true by len_lia. emits_fields.
Qed.

Lemma cred_serialize_emits p : com_opt Com.shape p -> emits (serialize p) 0 (encode p) (len (encode p)).
Proof.
  intros Hc. unfold serialize, encode. eapply emits_conv.
  - eapply (emits_bind _ _ _ (encode_com (com p)) _ (0 + len (encode_com (com p)))).
    + unfold com_opt in Hc. destruct (com p) as [c|]; unfold encode_com; [|emits_fields].
      eapply emits_conv.
      * eapply emits_bind; [apply emits_set; len_lia|].
        eapply emits_bind; [apply emits_on_tail; [len_lia|by apply Com.com_serialize_emits]|]. apply emits_ret.
      * by rewrite app_nil_r.
      * len_lia.
    + eapply emits_bind; [apply write_section_emits|]. eapply emits_bind; [apply write_section_emits|].
      eapply emits_bind; [apply write_section_emits|]. apply write_section_emits.
  - done.
  - len_lia.
Qed.

Lemma read_section_total data pos (Q : bytes * Z -> Prop) : 0 <= pos ->
  (forall raw pos', len raw <= U16_MAX -> 0 <= pos' -> Q (raw, pos')) ->
  safe (read_raw_section data pos) Q.
Proof.
  intros Hp HQ. unfold read_raw_section. pose proof (len_nonneg data). wp_reads.
  unfold u16_ok in *. wp_reads. apply HQ; lia.
Qed.

Lemma read_section_encode pre raw post pos : len raw <= U16_MAX -> pos = len pre ->
  read_raw_section (pre ++ encode_section raw ++ post) pos = Ok (raw, pos + len (encode_section raw)).
Proof.
  intros Hr ->. pose proof (len_nonneg raw). pose proof (len_nonneg post). pose proof (len_nonneg pre).
  unfold read_raw_section, encode_section. rewrite <- !app_assoc. read_fields.
  rewrite from_be_len by done. read_fields. do 2 f_equal. len_lia.
Qed.

Lemma cred_deserialize_total d : safe (deserialize d) wf.
Proof.
  unfold deserialize. pose proof (len_nonneg d).
  apply wp_if; [done|]. intros Hd. apply wp_bind, wp_get; [lia|]. intros b _.
  assert (forall o pos, 0 <= pos -> match o with Some c => Com.wf c | None => True end ->
    safe (let* ' (capabilities_raw, offset) := read_raw_section d pos in
          let* ' (tags_raw, offset) := read_raw_section d offset in
          let* ' (revocations_raw, offset) := read_raw_section d offset in
          let* ' (coo_raw, offset) := read_raw_section d offset in
          Ok (mk o capabilities_raw tags_raw revocations_raw coo_raw)) wf) as Hrest.
  { intros o pos Hpos Ho. do 4 (apply wp_bind, read_section_total; [done|]; intros; cbv beta iota).
    apply wp_ret. by split_and!. }
  apply wp_bind. apply wp_if; intros _; [|by apply Hrest].
  apply wp_bind, wp_slice_from; [lia|]. intros s Hs. apply wp_bind.
  eapply wp_mono; [apply Com.com_deserialize_total| |done]. intros [c n] [Hc Hn]. apply wp_ret.
  apply Hrest; [lia|done].
Qed.

Lemma cred_deserialize_encode p : wf p -> deserialize (encode p) = Ok p.
Proof.
  intros (Hc & H1 & H2 & H3 & H4). unfold deserialize.
  set (secs := encode_section (capabilities_raw p) ++ encode_section (tags_raw p) ++
    encode_section (revocations_raw p) ++ encode_section (coo_raw p)).
  pose proof (len_nonneg secs).
  assert (encode p = encode_com (com p) ++ secs) as -> by done.
  assert ((let* has_com := get (encode_com (com p) ++ secs) 0 in
    if negb (u8 has_com =? 0) then
      let* rest := slice_from (encode_com (com p) ++ secs) (0 + 1) in
      let* ' (com, consumed) := Com.deserialize rest in Ok (Some com, 0 + 1 + consumed)
    else Ok (None, 0 + 1)) = @Ok ProtocolError _ (com p, len (encode_com (com p)))) as Hcom.
  { unfold com_opt in Hc. destruct (com p) as [c|]; unfold encode_com.
    - rewrite <- app_assoc. read_fields. change (u8 (b8 1)) with 1. rewrite if_true by done.
      read_fields. rewrite Com.com_deserialize_encode by done. rewrite rbind_ok. do 2 f_equal. len_lia.
    - by read_fields. }
  rewrite if_false by (destruct (com p); unfold encode_com; len_lia). cbv zeta.
  match type of Hcom with rbind ?g ?k = _ =>
    destruct g as [b|?| |] eqn:Hg; rewrite ?rbind_ok in Hcom; [|done..] end.
  rewrite rbind_ok, Hcom, rbind_ok. unfold secs.
  rewrite read_section_encode, rbind_ok by done.
  rewrite (app_assoc (encode_com (com p))).
  rewrite read_section_encode, rbind_ok by (done || len_lia).
  rewrite (app_assoc (encode_com (com p) ++ _)).
  rewrite read_section_encode, rbind_ok by (done || len_lia).
  rewrite (app_assoc ((encode_com (com p) ++ _) ++ _)).
  rewrite <- (app_nil_r (encode_section (coo_raw p))).
  rewrite read_section_encode, rbind_ok by (done || len_lia). by destruct p.
Qed.

#[global] Instance codec : PayloadCodec t.
Proof.
  refine {| pc_shape := com_opt Com.shape; pc_wf := wf; pc_encode := encode; pc_serialize := serialize;
            pc_deserialize := deserialize; pc_emits := cred_serialize_emits;
            pc_roundtrip := cred_deserialize_encode |}.
  - intros x [Hc _]. unfold com_opt in *. destruct (com x); [apply Hc|done].
  - intros d. eapply wp_mono; [apply cred_deserialize_total| |done]. intros x [Hc _].
    unfold com_opt in *. destruct (com x); [apply Hc|done].
Defined.
End CredP.
