(* ===== verification/Payloads.v ===== *)
(** * Payloads: one type of packet payloads over the codecs of the verbs, and the
    codec theorems for all of them. *)
From S2P Require Export HelloOk MulticastWire NetConfWire.

(** The payloads of the verbs. ECHO alone has none: its bytes are sent back as they came. *)
Inductive Payload : Type :=
  | PHello (p : HelloP.t)
  | PNop (p : NopP.t)
  | PError (p : ErrorP.t)
  | POk (p : OkP.t)
  | PWhois (p : WhoisP.Request)
  | PWhoisResponse (p : WhoisP.Response)
  | PRendezvous (p : RendezvousP.t)
  | PFrame (p : FrameP.t)
  | PExtFrame (p : ExtFrameP.t)
  | PMulticastLike (p : LikeP.t)
  | PCredentials (p : CredP.t)
  | PConfigRequest (p : NcrP.t)
  | PConfig (p : NetConfP.t)
  | PGather (p : GatherP.t)
  | PMulticastFrame (p : MFrameP.t)
  | PPushDirect (p : PushDirectP.t)
  | PAck (p : AckP.t)
  | PQos (p : QosP.t)
  | PUserMessage (p : UserMessageP.t)
  | PRemoteTrace (p : RemoteTraceP.t)
  | PPathNegotiation (p : PathNegotiationP.t).

(** What a payload is parsed as. *)
Inductive Kind : Type :=
  | KHello
  | KNop
  | KError
  | KOk
  | KWhois
  | KWhoisResponse
  | KRendezvous
  | KFrame
  | KExtFrame
  | KMulticastLike
  | KCredentials
  | KConfigRequest
  | KConfig
  | KGather
  | KMulticastFrame
  | KPushDirect
  | KAck
  | KQos
  | KUserMessage
  | KRemoteTrace
  | KPathNegotiation.

Module PayloadOps.

Definition kind_of (p : Payload) : Kind :=
  match p with
  | PHello _ => KHello
  | PNop _ => KNop
  | PError _ => KError
  | POk _ => KOk
  | PWhois _ => KWhois
  | PWhoisResponse _ => KWhoisResponse
  | PRendezvous _ => KRendezvous
  | PFrame _ => KFrame
  | PExtFrame _ => KExtFrame
  | PMulticastLike _ => KMulticastLike
  | PCredentials _ => KCredentials
  | PConfigRequest _ => KConfigRequest
  | PConfig _ => KConfig
  | PGather _ => KGather
  | PMulticastFrame _ => KMulticastFrame
  | PPushDirect _ => KPushDirect
  | PAck _ => KAck
  | PQos _ => KQos
  | PUserMessage _ => KUserMessage
  | PRemoteTrace _ => KRemoteTrace
  | PPathNegotiation _ => KPathNegotiation
  end.

(** The payload of a verb; the WHOIS response is the body of an OK. *)
Definition verb_kind (v : Verb) : option Kind :=
  match v with
  | Hello => Some KHello
  | Nop => Some KNop
  | VError => Some KError
  | VOk => Some KOk
  | Whois => Some KWhois
  | Rendezvous => Some KRendezvous
  | Frame => Some KFrame
  | ExtFrame => Some KExtFrame
  | MulticastLike => Some KMulticastLike
  | NetworkCredentials => Some KCredentials
  | NetworkConfigRequest => Some KConfigRequest
  | NetworkConfig => Some KConfig
  | MulticastGather => Some KGather
  | MulticastFrame => Some KMulticastFrame
  | PushDirectPaths => Some KPushDirect
  | Ack => Some KAck
  | QosMeasurement => Some KQos
  | UserMessage => Some KUserMessage
  | RemoteTrace => Some KRemoteTrace
  | PathNegotiationRequest => Some KPathNegotiation
  | Echo => None
  end.

Definition serialize (p : Payload) : W Z :=
  match p with
  | PHello p => HelloP.serialize p
  | PNop p => NopP.serialize p | PError p => ErrorP.serialize p | POk p => OkP.serialize p
  | PWhois p => WhoisP.serialize_request p | PWhoisResponse p => WhoisP.serialize_response p
  | PRendezvous p => RendezvousP.serialize p | PFrame p => FrameP.serialize p
  | PExtFrame p => ExtFrameP.serialize p | PMulticastLike p => LikeP.serialize p
  | PCredentials p => CredP.serialize p | PConfigRequest p => NcrP.serialize p
  | PConfig p => NetConfP.serialize p | PGather p => GatherP.serialize p
  | PMulticastFrame p => MFrameP.serialize p | PPushDirect p => PushDirectP.serialize p
  | PAck p => AckP.serialize p | PQos p => QosP.serialize p
  | PUserMessage p => UserMessageP.serialize p | PRemoteTrace p => RemoteTraceP.serialize p
  | PPathNegotiation p => PathNegotiationP.serialize p
  end.

(** [wrap f m]: [f] of what [m] parsed. *)
Definition parsed {A} (f : A -> Payload) (m : res ProtocolError A) : res ProtocolError Payload :=
  let* x := m in Ok (f x).

Definition parse (k : Kind) (d : bytes) : res ProtocolError Payload :=
  match k with
  | KHello => let* ' (p, _) := HelloP.deserialize d in Ok (PHello p)
  | KNop => parsed PNop (NopP.deserialize d)
  | KError => parsed PError (ErrorP.deserialize d)
  | KOk => parsed POk (OkP.deserialize d)
  | KWhois => parsed PWhois (WhoisP.deserialize_request d)
  | KWhoisResponse => parsed PWhoisResponse (WhoisP.deserialize_response d)
  | KRendezvous => parsed PRendezvous (RendezvousP.deserialize d)
  | KFrame => parsed PFrame (FrameP.parse d)
  | KExtFrame => parsed PExtFrame (ExtFrameP.parse d)
  | KMulticastLike => parsed PMulticastLike (LikeP.deserialize d)
  | KCredentials => parsed PCredentials (CredP.deserialize d)
  | KConfigRequest => parsed PConfigRequest (NcrP.deserialize d)
  | KConfig => parsed PConfig (NetConfP.deserialize d)
  | KGather => parsed PGather (GatherP.deserialize d)
  | KMulticastFrame => parsed PMulticastFrame (MFrameP.parse d)
  | KPushDirect => parsed PPushDirect (PushDirectP.deserialize d)
  | KAck => parsed PAck (AckP.deserialize d)
  | KQos => parsed PQos (QosP.deserialize d)
  | KUserMessage => parsed PUserMessage (UserMessageP.deserialize d)
  | KRemoteTrace => parsed PRemoteTrace (RemoteTraceP.deserialize d)
  | KPathNegotiation => parsed PPathNegotiation (PathNegotiationP.deserialize d)
  end.

(** What the Rust types guarantee, and the payloads that survive the wire. *)
Definition shape (p : Payload) : Prop :=
  match p with
  | PHello p => HelloP.shape p
  | PNop p => pc_shape p | PError p => pc_shape p | POk p => pc_shape p | PWhois p => pc_shape p
  | PWhoisResponse p => pc_shape p | PRendezvous p => pc_shape p | PFrame p => pc_shape p
  | PExtFrame p => pc_shape p | PMulticastLike p => pc_shape p | PCredentials p => pc_shape p
  | PConfigRequest p => pc_shape p | PConfig p => pc_shape p | PGather p => pc_shape p
  | PMulticastFrame p => pc_shape p | PPushDirect p => pc_shape p | PAck p => pc_shape p
  | PQos p => pc_shape p | PUserMessage p => pc_shape p | PRemoteTrace p => pc_shape p
  | PPathNegotiation p => pc_shape p
  end.

Definition wf (p : Payload) : Prop :=
  match p with
  | PHello p => HelloP.wf p
  | PNop p => pc_wf p | PError p => pc_wf p | POk p => pc_wf p | PWhois p => pc_wf p
  | PWhoisResponse p => pc_wf p | PRendezvous p => pc_wf p | PFrame p => pc_wf p
  | PExtFrame p => pc_wf p | PMulticastLike p => pc_wf p | PCredentials p => pc_wf p
  | PConfigRequest p => pc_wf p | PConfig p => pc_wf p | PGather p => pc_wf p
  | PMulticastFrame p => pc_wf p | PPushDirect p => pc_wf p | PAck p => pc_wf p
  | PQos p => pc_wf p | PUserMessage p => pc_wf p | PRemoteTrace p => pc_wf p
  | PPathNegotiation p => pc_wf p
  end.

Definition encode (p : Payload) : bytes :=
  match p with
  | PHello p => HelloP.encode p
  | PNop p => pc_encode p | PError p => pc_encode p | POk p => pc_encode p | PWhois p => pc_encode p
  | PWhoisResponse p => pc_encode p | PRendezvous p => pc_encode p | PFrame p => pc_encode p
  | PExtFrame p => pc_encode p | PMulticastLike p => pc_encode p | PCredentials p => pc_encode p
  | PConfigRequest p => pc_encode p | PConfig p => pc_encode p | PGather p => pc_encode p
  | PMulticastFrame p => pc_encode p | PPushDirect p => pc_encode p | PAck p => pc_encode p
  | PQos p => pc_encode p | PUserMessage p => pc_encode p | PRemoteTrace p => pc_encode p
  | PPathNegotiation p => pc_encode p
  end.

(** Writing into a buffer that does not hold the payload. *)
Definition overrun (p : Payload) (buf : bytes) : res ProtocolError (Z * bytes) :=
  match p with
  | PHello _ => if len buf <? 13 then Err (TooShort 13 (len buf)) else Panic
  | _ => Panic
  end.

Lemma hello_encode_long p : 13 <= len (HelloP.encode p).
Proof.
  unfold HelloP.encode. rewrite !len_app, !len_to_be. pose proof (len_nonneg (Ident.encode (HelloP.identity p))).
  pose proof (len_nonneg (Inet.encode (HelloP.dest_address p))). pose proof (len_nonneg (concat (map HelloP.encode_moon (HelloP.moon_records p)))).
  len_lia.
Qed.

Lemma payload_serialize p buf : shape p ->
  serialize p buf = if len (encode p) <=? len buf then Ok (len (encode p), encode p ++ drop (length (encode p)) buf) else overrun p buf.
Proof.
  destruct p as [p|p|p|p|p|p|p|p|p|p|p|p|p|p|p|p|p|p|p|p|p]; [|intros Hs; exact (emits_run _ _ _ buf (pc_emits p Hs))..].
  intros Hs. cbn [serialize encode overrun shape] in *. rewrite HelloP.hello_serialize_spec by done. pose proof (hello_encode_long p).
  destruct (Z.ltb_spec (len buf) 13); [by rewrite if_false by lia|done].
Qed.

Lemma payload_wf_shape p : wf p -> shape p.
Proof. destruct p as [p|p|p|p|p|p|p|p|p|p|p|p|p|p|p|p|p|p|p|p|p]; [by intros []|exact (pc_wf_shape p)..]. Qed.

Lemma parsed_safe {A} (f : A -> Payload) m (Q : A -> Prop) (R : Payload -> Prop) :
  safe m Q -> (forall x, Q x -> R (f x)) -> safe (parsed f m) R.
Proof. intros Hm HR. apply wp_bind. eapply wp_mono; [exact Hm| |done]. intros x Hx. by apply HR. Qed.

Lemma parsed_ok {A} (f : A -> Payload) m x : m = Ok x -> parsed f m = Ok (f x).
Proof. by intros ->. Qed.

(** The parser of a kind, as its codec's. *)
Lemma parsed_total {A} `{PayloadCodec A} (f : A -> Payload) (k : Kind) d :
  (forall x, kind_of (f x) = k) -> (forall x, pc_shape x -> shape (f x)) ->
  safe (parsed f (pc_deserialize d)) (fun p => kind_of p = k /\ shape p).
Proof. intros Hk Hs. eapply parsed_safe; [apply pc_total|]. intros x Hx. auto. Qed.

(** C21. The payload parsers of the verbs (all but ECHO's bytes, which are opaque, have one),
    whatever the bytes: none panics or loops; it rejects them with an error or yields a payload
    of its own format whose arrays and integers have the sizes of the Rust type. *)
Theorem payload_parse_total (k : Kind) (d : bytes) :
  safe (parse k d) (fun p => kind_of p = k /\ shape p).
Proof.
  destruct k; [
    apply wp_bind; eapply wp_mono; [apply HelloP.hello_deserialize_total|intros [p n] [[Hs _] _]; by split|done] |
    exact (parsed_total PNop _ d (fun _ => eq_refl) (fun _ H => H)) |
    exact (parsed_total PError _ d (fun _ => eq_refl) (fun _ H => H)) |
    exact (parsed_total POk _ d (fun _ => eq_refl) (fun _ H => H)) |
    exact (parsed_total PWhois _ d (fun _ => eq_refl) (fun _ H => H)) |
    exact (parsed_total PWhoisResponse _ d (fun _ => eq_refl) (fun _ H => H)) |
    exact (parsed_total PRendezvous _ d (fun _ => eq_refl) (fun _ H => H)) |
    exact (parsed_total PFrame _ d (fun _ => eq_refl) (fun _ H => H)) |
    exact (parsed_total PExtFrame _ d (fun _ => eq_refl) (fun _ H => H)) |
    exact (parsed_total PMulticastLike _ d (fun _ => eq_refl) (fun _ H => H)) |
    exact (parsed_total PCredentials _ d (fun _ => eq_refl) (fun _ H => H)) |
    exact (parsed_total PConfigRequest _ d (fun _ => eq_refl) (fun _ H => H)) |
    exact (parsed_total PConfig _ d (fun _ => eq_refl) (fun _ H => H)) |
    exact (parsed_total PGather _ d (fun _ => eq_refl) (fun _ H => H)) |
    exact (parsed_total PMulticastFrame _ d (fun _ => eq_refl) (fun _ H => H)) |
    exact (parsed_total PPushDirect _ d (fun _ => eq_refl) (fun _ H => H)) |
    exact (parsed_total PAck _ d (fun _ => eq_refl) (fun _ H => H)) |
    exact (parsed_total PQos _ d (fun _ => eq_refl) (fun _ H => H)) |
    exact (parsed_total PUserMessage _ d (fun _ => eq_refl) (fun _ H => H)) |
    exact (parsed_total PRemoteTrace _ d (fun _ => eq_refl) (fun _ H => H)) |
    exact (parsed_total PPathNegotiation _ d (fun _ => eq_refl) (fun _ H => H))].
Qed.

(** C22. Every well-formed payload of every verb survives the wire: written into a buffer that
    holds it, the writer reports its length and parsing the written prefix under its verb gives
    the payload back; a shorter buffer makes the writer panic (or, HELLO's below 13 bytes, report
    it). Well formed: integers and lists fit their fields, identities are valid public ones, no
    optional part is empty, and those present are the ones the flags and verbs announce. *)
Theorem payload_roundtrip (p : Payload) (buf : bytes) :
  wf p ->
  if len (encode p) <=? len buf then
    exists buf', serialize p buf = Ok (len (encode p), buf') /\ len buf' = len buf /\
      (let* d := slice buf' 0 (len (encode p)) in parse (kind_of p) d) = Ok p
  else serialize p buf = overrun p buf.
Proof.
  intros Hp. pose proof (payload_wf_shape p Hp) as Hs. rewrite (payload_serialize p buf Hs).
  destruct (len (encode p) <=? len buf) eqn:Hl; [|done].
  eexists. split; [done|]. split; [rewrite len_app, len_drop; unfold len in *; lia|]. rewrite slice_app_hit by done. rewrite rbind_ok.
  destruct p as [p|p|p|p|p|p|p|p|p|p|p|p|p|p|p|p|p|p|p|p|p]; [|apply parsed_ok; exact (pc_roundtrip p Hp)..].
  cbn [parse kind_of encode wf] in *. pose proof (HelloP.hello_deserialize_encode p [] Hp ltac:(done)) as He.
  rewrite app_nil_r in He. by rewrite He.
Qed.

Lemma hello_sample_wf : wf (PHello HelloP.sample).
Proof. split; [exact HelloP.sample_shape|exact Ident.sample_public_wf]. Qed.

Lemma payload_roundtrip_witness :
  (exists buf', serialize (PWhoisResponse {| WhoisP.identities := [Ident.sample; Ident.sample] |})
      (replicate 150 (b8 0)) = Ok (142, buf') /\ len buf' = 150 /\
    (let* d := slice buf' 0 142 in parse KWhoisResponse d) =
      Ok (PWhoisResponse {| WhoisP.identities := [Ident.sample; Ident.sample] |})) /\
  (exists buf', serialize (PHello HelloP.sample) (replicate 120 (b8 0)) = Ok (107, buf') /\ len buf' = 120 /\
    (let* d := slice buf' 0 107 in parse KHello d) = Ok (PHello HelloP.sample)) /\
  serialize (PHello HelloP.sample) (replicate 12 (b8 0)) = Err (TooShort 13 12).
Proof.
  split; [|split].
  - exact (payload_roundtrip (PWhoisResponse {| WhoisP.identities := [Ident.sample; Ident.sample] |})
      (replicate 150 (b8 0)) ltac:(repeat constructor; apply Ident.sample_public_wf)).
  - exact (payload_roundtrip (PHello HelloP.sample) (replicate 120 (b8 0)) hello_sample_wf).
  - exact (payload_roundtrip (PHello HelloP.sample) (replicate 12 (b8 0)) hello_sample_wf).
Defined.
End PayloadOps.
