(* ===== verification/World.v ===== *)
(** * World: planet and moon definitions, their binary format and signature
    (zerotier-protocol: world.rs). *)
From S2P Require Export Inet Identity.

Inductive WorldType : Type := WNull | WPlanet | WMoon.

#[export] Instance WorldType_eq_dec : EqDecision WorldType.
Proof. solve_decision. Defined.

Record WorldRoot := mkWorldRoot { wr_identity : Identity; wr_endpoints : list InetAddress }.

Record World := mkWorld {
  w_type : WorldType;
  w_id : Z;
  w_timestamp : Z;
  w_signing_key : bytes;    (* [u8; 64] *)
  w_signature : bytes;      (* [u8; 96] *)
  w_roots : list WorldRoot;
  w_dict_data : option bytes;
}.

Module WorldP.
Definition WORLD_START_SENTINEL : bytes := replicate 8 (b8 0x7f).
Definition WORLD_END_SENTINEL : bytes := replicate 8 (b8 0xf7).
Definition WORLD_MIN_SIZE : Z := 194.

Definition type_from_byte (b : byte) : option WorldType :=
  match u8 b with
  | 0 => Some WNull
  | 1 => Some WPlanet
  | 127 => Some WMoon
  | _ => None
  end.

Definition type_to_byte (t : WorldType) : byte :=
  b8 match t with WNull => 0 | WPlanet => 1 | WMoon => 127 end.

(** One endpoint: decoded inside [data\[..end_pos\]]. *)
Definition read_endpoint (data : bytes) (end_pos pos : Z) : res ProtocolError (InetAddress * Z) :=
  if end_pos <=? pos then Err (TooShort (pos + 1) end_pos) else
  let* s := slice data pos end_pos in
  let* ' (addr, addr_consumed) := Inet.deserialize s in
  Ok (addr, pos + addr_consumed).

Definition read_root (data : bytes) (end_pos pos : Z) : res ProtocolError (WorldRoot * Z) :=
  if end_pos <=? pos then Err (TooShort (pos + 1) end_pos) else
  let* s := slice_from data pos in
  let* ' (identity, id_consumed) := Ident.deserialize_identity s in
  let pos := pos + id_consumed in
  if end_pos <=? pos then Err (TooShort (pos + 1) end_pos) else
  let* ep_count := get data pos in
  let ep_count := u8 ep_count in
  if WORLD_MAX_ENDPOINTS_PER_ROOT <? ep_count then Err InvalidPacket else
  let pos := pos + 1 in
  let* ' (endpoints, pos) := rfor (Z.to_nat ep_count) pos (read_endpoint data end_pos) in
  Ok (mkWorldRoot identity endpoints, pos).

Definition deserialize (data : bytes) : res ProtocolError World :=
  if len data <? WORLD_MIN_SIZE then Err (TooShort WORLD_MIN_SIZE (len data)) else
  let* s0 := slice data 0 8 in
  if negb (bool_decide (s0 = WORLD_START_SENTINEL)) then Err InvalidPacket else
  let* s1 := slice_from data (len data - 8) in
  if negb (bool_decide (s1 = WORLD_END_SENTINEL)) then Err InvalidPacket else
  let* tb := get data 8 in
  let* world_type := ok_or InvalidPacket (type_from_byte tb) in
  let* id := be_at 8 data 9 in
  let* timestamp := be_at 8 data 17 in
  let* signing_key := array_at 64 data 25 89 in
  let* signature := array_at 96 data 89 185 in
  let* root_count := get data 185 in
  let root_count := u8 root_count in
  if WORLD_MAX_ROOTS <? root_count then Err InvalidPacket else
  let end_pos := len data - 8 in
  let* ' (roots, pos) := rfor (Z.to_nat root_count) 186 (read_root data end_pos) in
  let* dict_data :=
    if bool_decide (world_type = WMoon) then
      if end_pos <? pos + 2 then Err (TooShort (pos + 2) end_pos) else
      let* dict_len := be_at 2 data pos in
      let pos := pos + 2 in
      if end_pos <? pos + dict_len then Err (TooShort (pos + dict_len) end_pos) else
      let* dict := slice data pos (pos + dict_len) in
      Ok (Some dict)
    else Ok None in
  Ok (mkWorld world_type id timestamp signing_key signature roots dict_data).

Definition write_root (root : WorldRoot) (pos : Z) : W Z :=
  do* id_written := on_tail pos (Ident.serialize_identity_public (wr_identity root)) in
  let pos := pos + id_written in
  set pos (b8 (len (wr_endpoints root)));*
  let pos := pos + 1 in
  wfor (wr_endpoints root) pos (fun ep pos =>
    do* ep_written := on_tail pos (Inet.serialize ep) in wret (pos + ep_written)).

(** The moon dictionary, written by both serializers. *)
Definition write_dict (w : World) (pos : Z) : W Z :=
  if bool_decide (w_type w = WMoon) then
    match w_dict_data w with
    | Some dict =>
        put pos (pos + 2) (to_be 2 (wrap 16 (len dict)));*
        let pos := pos + 2 in
        put pos (pos + len dict) dict;*
        wret (pos + len dict)
    | None =>
        put pos (pos + 2) (to_be 2 0);*
        wret (pos + 2)
    end
  else wret pos.

Definition serialize (w : World) : W Z :=
  let pos := 0 in
  put pos (pos + 8) WORLD_START_SENTINEL;*
  let pos := pos + 8 in
  set pos (type_to_byte (w_type w));*
  let pos := pos + 1 in
  put pos (pos + 8) (to_be 8 (w_id w));*
  let pos := pos + 8 in
  put pos (pos + 8) (to_be 8 (w_timestamp w));*
  let pos := pos + 8 in
  put pos (pos + 64) (w_signing_key w);*
  let pos := pos + 64 in
  put pos (pos + 96) (w_signature w);*
  let pos := pos + 96 in
  set pos (b8 (len (w_roots w)));*
  let pos := pos + 1 in
  do* pos := wfor (w_roots w) pos write_root in
  do* pos := write_dict w pos in
  put pos (pos + 8) WORLD_END_SENTINEL;*
  let pos := pos + 8 in
  wret pos.

Definition signed_portion (w : World) : W Z :=
  let pos := 0 in
  set pos (type_to_byte (w_type w));*
  let pos := pos + 1 in
  put pos (pos + 8) (to_be 8 (w_id w));*
  let pos := pos + 8 in
  put pos (pos + 8) (to_be 8 (w_timestamp w));*
  let pos := pos + 8 in
  put pos (pos + 64) (w_signing_key w);*
  let pos := pos + 64 in
  set pos (b8 (len (w_roots w)));*
  let pos := pos + 1 in
  do* pos := wfor (w_roots w) pos write_root in
  write_dict w pos.

(** [verify_signature]: the signed portion is laid out in a 4096-byte buffer. *)
Definition verify_signature `{Prims} (w : World) : res ProtocolError unit :=
  let* key := slice (w_signing_key w) 32 64 in
  if negb (ed25519_key_ok key) then Err InvalidPacket else
  let* ' (n, buf) := signed_portion w (replicate 4096 "000"%byte) in
  let* msg := slice buf 0 n in
  map_err PCryptoError (verify key msg (w_signature w)).

(** ** The layout *)

Definition root_shape (r : WorldRoot) : Prop :=
  Ident.shape (wr_identity r) /\ Forall Inet.wf (wr_endpoints r).

Definition shape (w : World) : Prop :=
  u64_ok (w_id w) /\ u64_ok (w_timestamp w) /\ len (w_signing_key w) = 64 /\
  len (w_signature w) = 96 /\ Forall root_shape (w_roots w).

Definition root_wf (r : WorldRoot) : Prop :=
  Ident.public_wf (wr_identity r) /\ Forall Inet.wf (wr_endpoints r) /\
  len (wr_endpoints r) <= WORLD_MAX_ENDPOINTS_PER_ROOT.

(** What the parser yields: bounded counts, a dictionary exactly in moons. *)
Definition wf (w : World) : Prop :=
  u64_ok (w_id w) /\ u64_ok (w_timestamp w) /\ len (w_signing_key w) = 64 /\
  len (w_signature w) = 96 /\ Forall root_wf (w_roots w) /\ len (w_roots w) <= WORLD_MAX_ROOTS /\
  match w_type w, w_dict_data w with
  | WMoon, Some d => len d <= U16_MAX
  | WMoon, None => False
  | _, Some _ => False
  | _, None => True
  end.

Definition encode_root (r : WorldRoot) : bytes :=
  Ident.encode (wr_identity r) ++ [b8 (len (wr_endpoints r))] ++
  concat (map Inet.encode (wr_endpoints r)).

Definition encode_dict (w : World) : bytes :=
  if bool_decide (w_type w = WMoon) then
    to_be 2 (wrap 16 (len (default [] (w_dict_data w)))) ++ default [] (w_dict_data w)
  else [].

Definition encode_head (w : World) : bytes :=
  [type_to_byte (w_type w)] ++ to_be 8 (w_id w) ++ to_be 8 (w_timestamp w) ++ w_signing_key w.

Definition encode_tail (w : World) : bytes :=
  [b8 (len (w_roots w))] ++ concat (map encode_root (w_roots w)) ++ encode_dict w.

(** The whole file, and the part a signature covers: all of it but the sentinels and
    the signature. *)
Definition encode (w : World) : bytes :=
  WORLD_START_SENTINEL ++ encode_head w ++ w_signature w ++ encode_tail w ++ WORLD_END_SENTINEL.
Definition encode_signed (w : World) : bytes := encode_head w ++ encode_tail w.

Lemma root_wf_shape r : root_wf r -> root_shape r.
Proof. intros (Hi & He & _). split; [by apply Ident.public_wf_shape|done]. Qed.

Lemma world_wf_shape w : wf w -> shape w.
Proof.
  intros (H1 & H2 & H3 & H4 & H5 & _). split_and!; try done.
  eapply Forall_impl; [done|apply root_wf_shape].
Qed.

Lemma write_root_emits r pos : root_shape r ->
  emits (write_root r pos) pos (encode_root r) (pos + len (encode_root r)).
Proof.
  intros [Hi He]. unfold write_root, encode_root. eapply emits_conv.
  - eapply emits_bind; [apply emits_on_tail; [done|by apply Ident.ident_serialize_emits]|].
    eapply emits_bind; [apply emits_set; done|].
    eapply emits_conv; [apply (emits_for Inet.encode)|reflexivity|reflexivity].
    intros ep p Hep. rewrite Forall_forall in He. eapply emits_conv.
    + eapply emits_bind; [apply emits_on_tail; [done|by apply Inet.inet_serialize_emits, He]|]. apply emits_ret.
    + apply app_nil_r.
    + done.
  - done.
  - len_lia.
Qed.

Lemma write_dict_emits w pos :
  emits (write_dict w pos) pos (encode_dict w) (pos + len (encode_dict w)).
Proof.
  unfold write_dict, encode_dict. case_bool_decide; [|emits_fields].
  destruct (w_dict_data w); cbn [default from_option]; unfold Datatypes.id; emits_fields.
Qed.

Lemma write_roots_emits w pos : Forall root_shape (w_roots w) ->
  emits (wfor (w_roots w) pos write_root) pos (concat (map encode_root (w_roots w)))
    (pos + len (concat (map encode_root (w_roots w)))).
Proof.
  intros Hr. apply emits_for. intros r p Hin. rewrite Forall_forall in Hr.
  by apply write_root_emits, Hr.
Qed.

Ltac emits_world :=
  repeat lazymatch goal with
  | |- emits (wfor _ ?p _) _ _ _ =>
      apply (emits_pos _ p); [len_lia|]; by apply write_roots_emits
  | |- emits (write_dict _ ?p) _ _ _ =>
      apply (emits_pos _ p); [len_lia|]; apply write_dict_emits
  | _ => emits_step
  end.

Lemma world_serialize_emits w : shape w -> emits (serialize w) 0 (encode w) (len (encode w)).
Proof.
  intros (_ & _ & Hk & Hs & Hr). unfold serialize, encode, encode_head, encode_tail.
  assert (len WORLD_START_SENTINEL = 8 /\ len WORLD_END_SENTINEL = 8) as [Hss Hes] by done.
  eapply emits_conv; [emits_world|by rewrite ?app_nil_r, <- ?app_assoc|len_lia].
Qed.

Lemma signed_portion_emits w : shape w ->
  emits (signed_portion w) 0 (encode_signed w) (len (encode_signed w)).
Proof.
  intros (_ & _ & Hk & Hs & Hr). unfold signed_portion, encode_signed, encode_head, encode_tail.
  eapply emits_conv; [emits_world|by rewrite ?app_nil_r, <- ?app_assoc|len_lia].
Qed.

(** ** Parsing *)

Lemma read_endpoint_total d e pos : 0 <= pos -> e <= len d ->
  safe (read_endpoint d e pos) (fun '(a, p) => Inet.wf a /\ pos < p <= e).
Proof.
  intros Hp He. unfold read_endpoint. wp_reads.
  eapply wp_mono; [apply Inet.inet_deserialize_total| |done]. intros [a n] [Ha Hn]. apply wp_ret.
  split; [done|lia].
Qed.

Lemma read_root_total d e pos : 0 <= pos -> e <= len d ->
  safe (read_root d e pos) (fun '(r, p) => root_wf r /\ pos < p <= e).
Proof.
  intros Hp He. unfold read_root, WORLD_MAX_ENDPOINTS_PER_ROOT. wp_reads.
  eapply wp_mono; [apply Ident.ident_deserialize_total| |done]. intros [id n] [Hid Hn]. cbv beta iota.
  wp_reads. match goal with |- context [u8 ?x] => pose proof (u8_range x) end.
  apply (wp_rfor _ _ _ (fun _ p => pos + n < p <= e) Inet.wf).
  - intros k p Hk. eapply wp_mono; [apply read_endpoint_total; lia| |done].
    intros [ad p'] [Had Hp']. split; [done|lia].
  - lia.
  - intros eps p Hl Heps Hk. apply wp_ret. split; [|lia]. split_and!; try done.
    simpl. unfold WORLD_MAX_ENDPOINTS_PER_ROOT, len. lia.
Qed.

(** Parsing a world file never panics and always terminates, whatever the bytes,
    and what it accepts is well formed: at most four roots with at most 32 endpoints,
    valid public identities, and a dictionary exactly in moons. *)
Lemma world_deserialize_total (d : bytes) : safe (deserialize d) wf.
Proof.
  unfold deserialize, WORLD_MIN_SIZE, WORLD_MAX_ROOTS. pose proof (len_nonneg d). wp_reads.
  match goal with |- context [u8 ?x] => pose proof (u8_range x) end.
  apply (wp_rfor _ _ _ (fun _ p => 186 <= p <= len d - 8) root_wf).
  - intros k p Hk. eapply wp_mono; [apply read_root_total; lia| |done].
    intros [r p'] [Hr Hp']. split; [done|lia].
  - lia.
  - intros roots p Hl Hroots Hk. cbv beta iota.
    assert (len roots <= 4) as Hl4 by (unfold len; lia).
    apply wp_bind, wp_if; intros Hm.
    + apply bool_decide_eq_true in Hm as ->. wp_reads. unfold u16_ok in *. wp_reads.
      unfold wf. simpl. split_and!; try done. lia.
    + apply bool_decide_eq_false in Hm. wp_reads. unfold wf. simpl. split_and!; try done.
      by destruct a.
Qed.

Lemma read_endpoint_encode pre a post e : Inet.wf a ->
  len pre + len (Inet.encode a) <= e <= len (pre ++ Inet.encode a ++ post) ->
  read_endpoint (pre ++ Inet.encode a ++ post) e (len pre) = Ok (a, len pre + len (Inet.encode a)).
Proof.
  intros Ha He. pose proof (Inet.encode_len a Ha). unfold read_endpoint. rewrite if_false by len_lia.
  rewrite !len_app in He. pose proof (len_nonneg pre). rewrite slice_app_skip by lia. rewrite Z.sub_diag.
  rewrite slice_ok, rbind_ok by (rewrite ?len_app; lia). rewrite drop_0, take_app_ge by (unfold len in *; lia).
  by rewrite Inet.inet_deserialize_encode.
Qed.

Lemma read_root_encode pre r post e : root_wf r ->
  len pre + len (encode_root r) <= e <= len (pre ++ encode_root r ++ post) ->
  read_root (pre ++ encode_root r ++ post) e (len pre) = Ok (r, len pre + len (encode_root r)).
Proof.
  intros (Hi & He & Hl) Hb. pose proof (Ident.ident_len_encode _ (Ident.public_wf_shape _ Hi)) as Hil.
  unfold WORLD_MAX_ENDPOINTS_PER_ROOT in Hl. pose proof (len_nonneg (wr_endpoints r)).
  set (eps := concat (map Inet.encode (wr_endpoints r))).
  set (cnt := b8 (len (wr_endpoints r))).
  assert (u8 cnt = len (wr_endpoints r)) as Hcnt by (unfold cnt; rewrite u8_b8, Z.mod_small; lia).
  assert (encode_root r = Ident.encode (wr_identity r) ++ [cnt] ++ eps) as Her by done.
  assert (len (encode_root r) = 72 + len eps) as Hlr by (rewrite Her; len_lia).
  pose proof (len_nonneg eps). pose proof (len_nonneg pre). pose proof (len_nonneg post).
  assert (forall p, p = len pre + 72 ->
    rfor (length (wr_endpoints r)) p (read_endpoint (pre ++ encode_root r ++ post) e) =
    Ok (wr_endpoints r, len pre + len (encode_root r))) as Hloop.
  { intros p ->. replace (len pre + len (encode_root r)) with (len pre + 72 + len eps) by lia.
    apply (rfor_spec_in Inet.encode (wr_endpoints r) _ _ (pre ++ encode_root r ++ post)
      (pre ++ Ident.encode (wr_identity r) ++ [cnt]) post).
    - fold eps. rewrite Her. by rewrite <- !app_assoc.
    - len_lia.
    - intros x p a b Hx Hd -> Hpb. rewrite Hd in *. apply read_endpoint_encode.
      + rewrite Forall_forall in He. by apply He.
      + assert (len pre + len (encode_root r) + len post = len a + len (Inet.encode x) + len b)
          by (rewrite <- Z.add_assoc, <- !len_app, Hd, !len_app; lia). lia. }
  unfold read_root. rewrite if_false by lia. rewrite slice_from_skip, slice_from_here by len_lia.
  rewrite rbind_ok, Her, <- app_assoc. rewrite Ident.ident_deserialize_encode, rbind_ok by done.
  rewrite if_false by lia. rewrite get_skip, <- !app_assoc, get_skip, get_here by len_lia.
  rewrite rbind_ok, Hcnt. unfold WORLD_MAX_ENDPOINTS_PER_ROOT. rewrite if_false by lia.
  replace (Z.to_nat (len (wr_endpoints r))) with (length (wr_endpoints r)) by (unfold len; lia).
  rewrite Her, <- !app_assoc in Hloop. rewrite Hloop by lia. rewrite rbind_ok. by destruct r.
Qed.

Lemma len_root r : root_wf r -> 72 <= len (encode_root r).
Proof.
  intros (Hi & _). unfold encode_root. pose proof (Ident.ident_len_encode _ (Ident.public_wf_shape _ Hi)). len_lia.
Qed.

Lemma world_layout (w : World) (buf : bytes) :
  wf w -> len (encode w) <= len buf ->
  exists buf', serialize w buf = Ok (len (encode w), buf') /\
    take (length (encode w)) buf' = encode w /\ deserialize (encode w) = Ok w.
Proof.
  intros Hw Hbuf. pose proof (world_wf_shape w Hw) as Hsh.
  eexists. split; [apply emits_ok; [by apply world_serialize_emits|done]|].
  split; [by apply take_app_length'|].
  destruct Hw as (H1 & H2 & H3 & H4 & H5 & H6 & H7). unfold WORLD_MAX_ROOTS in H6.
  set (rs := concat (map encode_root (w_roots w))). set (dt := encode_dict w).
  set (cnt := b8 (len (w_roots w))). pose proof (len_nonneg (w_roots w)).
  assert (u8 cnt = len (w_roots w)) as Hcnt by (unfold cnt; rewrite u8_b8, Z.mod_small; lia).
  assert (encode w = WORLD_START_SENTINEL ++ [type_to_byte (w_type w)] ++ to_be 8 (w_id w) ++
    to_be 8 (w_timestamp w) ++ w_signing_key w ++ w_signature w ++ [cnt] ++ rs ++ dt ++ WORLD_END_SENTINEL)
    as Heq by (unfold encode, encode_head, encode_tail; fold cnt rs dt; by rewrite <- !app_assoc).
  assert (len WORLD_START_SENTINEL = 8 /\ len WORLD_END_SENTINEL = 8) as [Hss Hes] by done.
  pose proof (len_nonneg rs). pose proof (len_nonneg dt).
  assert (len (encode w) = 194 + len rs + len dt) as Hlen by (rewrite Heq; len_lia).
  assert (rfor (length (w_roots w)) 186 (read_root (encode w) (len (encode w) - 8)) =
    Ok (w_roots w, 186 + len rs)) as Hloop.
  { apply (rfor_spec_in encode_root (w_roots w) _ _ (encode w) (WORLD_START_SENTINEL ++
      [type_to_byte (w_type w)] ++ to_be 8 (w_id w) ++ to_be 8 (w_timestamp w) ++ w_signing_key w ++
      w_signature w ++ [cnt]) (dt ++ WORLD_END_SENTINEL)).
    - fold rs. rewrite Heq. by rewrite <- !app_assoc.
    - len_lia.
    - intros r p a b Hr Hd -> Hb. rewrite Hd in *. rewrite Forall_forall in H5.
      apply read_root_encode; [by apply H5|]. rewrite !len_app in *. lia. }
  assert (type_from_byte (type_to_byte (w_type w)) = Some (w_type w)) as Hty by (by destruct (w_type w)).
  assert (forall n, n = 186 + len rs ->
    (if bool_decide (w_type w = WMoon) then
       if len (encode w) - 8 <? n + 2 then Err (TooShort (n + 2) (len (encode w) - 8)) else
       let* dict_len := be_at 2 (encode w) n in
       let pos := n + 2 in
       if len (encode w) - 8 <? pos + dict_len then Err (TooShort (pos + dict_len) (len (encode w) - 8)) else
       let* dict := slice (encode w) pos (pos + dict_len) in
       Ok (Some dict)
     else Ok None) = Ok (w_dict_data w)) as Hdict.
  { intros n ->. rewrite Hlen, Heq. unfold dt, encode_dict in *.
    destruct (w_type w), (w_dict_data w) as [d|]; try done. rewrite !bool_decide_true in * by done.
    cbn [default from_option] in *. unfold Datatypes.id in *. pose proof (len_nonneg d).
    rewrite <- !app_assoc. rewrite if_false by len_lia. read_fields.
    rewrite from_be_len by done. rewrite if_false by len_lia. by read_fields. }
  rewrite Hlen in *. rewrite Heq in *. unfold deserialize, WORLD_MIN_SIZE, WORLD_MAX_ROOTS.
  rewrite Hlen. rewrite if_false by lia. rewrite slice_here, rbind_ok by done.
  rewrite bool_decide_true by done. simpl negb. cbv iota.
  rewrite !slice_from_skip, slice_from_here, rbind_ok by len_lia.
  rewrite bool_decide_true by done. simpl negb. cbv iota.
  do 8 read_step. rewrite Hty. cbn [ok_or]. read_fields.
  rewrite Hcnt. rewrite ?if_false by lia.
  replace (Z.to_nat (len (w_roots w))) with (length (w_roots w)) by (unfold len; lia).
  rewrite Hloop, rbind_ok, Hdict, rbind_ok by lia. rewrite !from_be_u64 by done. by destruct w.
Qed.

(** Round trip of the binary world format: a well-formed world serialized into a
    large enough buffer is parsed back from the written prefix, identical. *)
Lemma world_roundtrip (w : World) (buf : bytes) :
  wf w -> len (encode w) <= len buf ->
  exists buf', serialize w buf = Ok (len (encode w), buf') /\
    take (length (encode w)) buf' = encode w /\ deserialize (encode w) = Ok w.
Proof. apply world_layout. Qed.

Lemma signature_check `{Prims} (w : World) :
  shape w ->
  let key := drop 32 (w_signing_key w) in
  verify_signature w =
  if negb (ed25519_key_ok key) then Err InvalidPacket
  else if len (encode_signed w) <=? 4096
  then map_err PCryptoError (verify key (encode_signed w) (w_signature w))
  else Panic.
Proof.
  intros Hw key. pose proof Hw as (_ & _ & Hk & _). unfold verify_signature.
  rewrite slice_ok, rbind_ok by lia.
  replace (take (Z.to_nat (64 - 32)) (drop (Z.to_nat 32) (w_signing_key w))) with key
    by (symmetry; apply take_ge; unfold key, len in *; rewrite length_drop; lia).
  destruct (ed25519_key_ok key); [|done]. simpl negb. cbv iota.
  rewrite (emits_run _ _ _ _ (signed_portion_emits w Hw)).
  rewrite len_replicate. change (Z.of_nat 4096) with 4096.
  destruct (_ <=? 4096) eqn:Hl; [|done]. rewrite rbind_ok. by rewrite slice_here.
Qed.

(** The signature check: it covers the layout of every field but the signature and the
    sentinels. A world whose signed portion fits the 4096-byte scratch buffer is accepted
    exactly when its embedded key is a curve point that verifies the signature; a larger
    one makes the check panic instead of failing. *)
Theorem verify_signature_spec `{Prims} (w : World) :
  shape w ->
  let key := drop 32 (w_signing_key w) in
  verify_signature w =
  if negb (ed25519_key_ok key) then Err InvalidPacket
  else if len (encode_signed w) <=? 4096
  then map_err PCryptoError (verify key (encode_signed w) (w_signature w))
  else Panic.
Proof. apply signature_check. Qed.

Lemma len_signed w : len (encode_signed w) = len (encode w) - 16 - len (w_signature w).
Proof.
  unfold encode_signed, encode. assert (len WORLD_START_SENTINEL = 8 /\ len WORLD_END_SENTINEL = 8)
    as [Hss Hes] by done. len_lia.
Qed.

Definition sample : World :=
  {| w_type := WPlanet; w_id := 7; w_timestamp := 9; w_signing_key := map b8 (seqZ 0 64);
     w_signature := map b8 (seqZ 0 96);
     w_roots := [mkWorldRoot Ident.sample [V4 (map b8 [10; 0; 0; 1]) 9993; Null]];
     w_dict_data := None |}.

Lemma world_sample_wf : wf sample.
Proof.
  split_and!; try done. constructor; [|constructor]. split; [apply Ident.sample_public_wf|].
  split; [|done]. apply Forall_cons_2; [by split|]. by apply Forall_cons_2.
Qed.

Lemma world_roundtrip_witness :
  exists buf', serialize sample (replicate 300 (b8 0)) = Ok (len (encode sample), buf') /\
    take (length (encode sample)) buf' = encode sample /\ deserialize (encode sample) = Ok sample.
Proof. apply (world_roundtrip sample (replicate 300 (b8 0)) world_sample_wf). vm_compute. discriminate. Defined.

(** [n] roots, of 72 bytes each. *)
Definition sample_of_size (n : nat) : World :=
  {| w_type := WPlanet; w_id := 7; w_timestamp := 9; w_signing_key := map b8 (seqZ 0 64);
     w_signature := map b8 (seqZ 0 96); w_roots := replicate n (mkWorldRoot Ident.sample []);
     w_dict_data := None |}.

Lemma sample_of_size_shape n : shape (sample_of_size n).
Proof. split_and!; try done. apply Forall_replicate. by split. Qed.

Lemma verify_signature_spec_witness :
  @verify_signature Toy.prims (sample_of_size 3) = Err (PCryptoError SignatureError) /\
  @verify_signature Toy.prims (sample_of_size 57) = Panic.
Proof.
  split.
  - exact (@verify_signature_spec Toy.prims _ (sample_of_size_shape 3)).
  - exact (@verify_signature_spec Toy.prims _ (sample_of_size_shape 57)).
Defined.
End WorldP.
