(* ===== verification/WorldGen.v ===== *)
(** * World files signed by a controller (zerotier-node: controller/world_gen.rs). *)
From S2P Require Export World.

Module WorldGen.
Section WorldGen.
Context `{PL : PrimLaws}.

(** [generate_world]: the signature covers the signed portion, laid out in a scratch buffer;
    a serializer that does not fit its buffer panics inside, an error panics in [expect]. *)
Definition generate_world (world_type : WorldType) (id timestamp : Z) (roots : list WorldRoot)
    (signing_key public_key_bytes : bytes) (dict_data : option bytes) : res ProtocolError bytes :=
  let world := {| w_type := world_type; w_id := id; w_timestamp := timestamp;
    w_signing_key := public_key_bytes; w_signature := replicate 96 (b8 0);
    w_roots := roots; w_dict_data := dict_data |} in
  let* ' (sign_len, sign_buf) := WorldP.signed_portion world (replicate 4096 (b8 0)) in
  let* msg := slice sign_buf 0 sign_len in
  let signature := sign signing_key msg in
  let world := {| w_type := world_type; w_id := id; w_timestamp := timestamp;
    w_signing_key := public_key_bytes; w_signature := signature;
    w_roots := roots; w_dict_data := dict_data |} in
  match WorldP.serialize world (replicate 8192 (b8 0)) with
  | Ok (n, out_buf) => slice out_buf 0 n
  | Err _ => Panic
  | Panic => Panic
  | Hang => Hang
  end.

Definition generate_moon (moon_id timestamp : Z) (roots : list WorldRoot)
    (signing_key public_key_bytes : bytes) : res ProtocolError bytes :=
  generate_world WMoon moon_id timestamp roots signing_key public_key_bytes (Some []).

Definition generate_planet (planet_id timestamp : Z) (roots : list WorldRoot)
    (signing_key public_key_bytes : bytes) : res ProtocolError bytes :=
  generate_world WPlanet planet_id timestamp roots signing_key public_key_bytes None.

(** The world that a generated file stands for. *)
Definition signed_world (t : WorldType) (id ts : Z) (roots : list WorldRoot) (sk pk : bytes)
    (dict : option bytes) : World :=
  let w s := {| w_type := t; w_id := id; w_timestamp := ts; w_signing_key := pk;
    w_signature := s; w_roots := roots; w_dict_data := dict |} in
  w (sign sk (WorldP.encode_signed (w []))).

Lemma generate_world_run t id ts roots sk pk dict :
  let w := signed_world t id ts roots sk pk dict in
  len sk = 32 -> u64_ok id -> u64_ok ts -> len pk = 64 -> Forall WorldP.root_shape roots ->
  generate_world t id ts roots sk pk dict =
  if len (WorldP.encode_signed w) <=? 4096 then Ok (WorldP.encode w) else Panic.
Proof.
  intros w Hsk Hid Hts Hpk Hr. unfold generate_world. set (w0 := mkWorld t id ts pk _ roots dict).
  assert (WorldP.shape w0) as Hw0 by (by split_and!).
  rewrite (emits_run _ _ _ _ (WorldP.signed_portion_emits w0 Hw0)), len_replicate.
  change (WorldP.encode_signed w0) with (WorldP.encode_signed w). change (Z.of_nat 4096) with 4096.
  destruct (_ <=? 4096) eqn:Hl; [|done]. rewrite rbind_ok, slice_here, rbind_ok by done.
  set (w1 := mkWorld _ _ _ _ _ _ _). change w1 with w. clear w1.
  assert (WorldP.shape w) as Hw by (split_and!; try done; by apply len_sign).
  pose proof (WorldP.len_signed w) as Hlen. change (w_signature w) with (sign sk (WorldP.encode_signed w)) in Hlen.
  rewrite len_sign in Hlen by done. apply Z.leb_le in Hl.
  assert (len (WorldP.encode w) <= len (replicate 8192 (b8 0))) as Hfit
    by (rewrite len_replicate; change (Z.of_nat 8192) with 8192; lia).
  rewrite (emits_ok _ _ _ _ (WorldP.world_serialize_emits w Hw)) by done.
  by rewrite slice_here.
Qed.

(** What the world generator hands out. For roots the world format can carry, a planet or
    moon file is produced exactly when its signed portion fits the 4096-byte scratch buffer
    (the generator panics otherwise), and then the file is parsed back to the requested world,
    whose signature the world check accepts whenever the second half of the embedded public
    key is the public key of the signing key. *)
Theorem generated_worlds_verify (moon : bool) (id ts : Z) (roots : list WorldRoot) (sk pk : bytes) :
  let w := if moon then signed_world WMoon id ts roots sk pk (Some [])
           else signed_world WPlanet id ts roots sk pk None in
  len sk = 32 -> u64_ok id -> u64_ok ts -> len pk = 64 ->
  Forall WorldP.root_wf roots -> len roots <= WORLD_MAX_ROOTS ->
  let file := (if moon then generate_moon else generate_planet) id ts roots sk pk in
  (4096 < len (WorldP.encode_signed w) -> file = Panic) /\
  (len (WorldP.encode_signed w) <= 4096 ->
    exists out, file = Ok out /\ WorldP.deserialize out = Ok w /\
      (drop 32 pk = ed25519_public sk -> WorldP.verify_signature w = Ok tt)).
Proof.
  intros w Hsk Hid Hts Hpk Hr Hn file.
  assert (Forall WorldP.root_shape roots) as Hsh by (eapply Forall_impl; [done|apply WorldP.root_wf_shape]).
  assert (WorldP.wf w) as Hw by (destruct moon; split_and!; try done; by apply len_sign).
  assert (file = if len (WorldP.encode_signed w) <=? 4096 then Ok (WorldP.encode w) else Panic) as ->
    by (destruct moon; exact (generate_world_run _ id ts roots sk pk _ Hsk Hid Hts Hpk Hsh)).
  split; intros Hl; [by rewrite if_false by lia|]. rewrite if_true by lia. eexists. split; [done|].
  pose proof (WorldP.len_signed w) as Hlen.
  assert (len (w_signature w) = 96) as Hsg by (destruct moon; by apply len_sign).
  split.
  - destruct (WorldP.world_layout w (replicate 8192 (b8 0)) Hw) as (? & _ & _ & H'); [|done].
    rewrite len_replicate. change (Z.of_nat 8192) with 8192. lia.
  - intros Hkey. rewrite WorldP.signature_check by (by apply WorldP.world_wf_shape).
    assert (w_signing_key w = pk) as -> by (by destruct moon). rewrite Hkey, ed25519_public_ok by done.
    simpl negb. cbv iota. rewrite if_true by lia.
    assert (w_signature w = sign sk (WorldP.encode_signed w)) as -> by (by destruct moon).
    by rewrite verify_sign.
Qed.
End WorldGen.

Definition sample_roots : list WorldRoot :=
  [mkWorldRoot Ident.sample [V4 (map b8 [10; 0; 0; 1]) 9993; Null]].
Definition sample_key : bytes := replicate 32 (b8 7).
Definition sample_public : bytes := replicate 64 (b8 7).

Lemma generated_worlds_verify_witness :
  exists out, generate_moon (P := Toy.prims) 9 10 sample_roots sample_key sample_public = Ok out /\
    (forall w, WorldP.deserialize out = Ok w -> WorldP.verify_signature (H := Toy.prims) w = Ok tt).
Proof.
  destruct (generated_worlds_verify (PL := Toy.laws) true 9 10 sample_roots sample_key sample_public)
    as [_ Hf].
  - done.
  - done.
  - done.
  - done.
  - constructor; [|constructor]. split; [apply Ident.sample_public_wf|]. split; [|done].
    apply Forall_cons_2; [by split|]. by apply Forall_cons_2.
  - done.
  - destruct Hf as (out & Ho & Hd & Hv); [by vm_compute|]. exists out. split; [exact Ho|].
    intros w. rewrite Hd. intros [= <-]. by apply Hv.
Defined.
End WorldGen.
