(* ===== verification/Peer.v ===== *)
(** * Peer: network paths and the session state machine of a remote node
    (zerotier-node: path.rs, peer.rs). *)
From S2P Require Export Inet Identity.

Record Path := mkPath {
  path_address : SocketAddr;
  path_last_send : Z;
  path_last_receive : Z;
  path_latency_ms : Z;
  path_is_direct : bool;
}.

#[export] Instance Path_eq_dec : EqDecision Path.
Proof. solve_decision. Defined.

Inductive PeerState : Type :=
  | Unknown
  | HelloSent (sent_at packet_id retry_backoff_ms : Z)
  | Active (shared_secret k0 k1 : bytes) (latency_ms last_receive last_send : Z)
  | Stale (last_active retry_backoff_ms next_retry_at : Z).

Record Peer := mkPeer {
  peer_identity : Identity;
  peer_state : PeerState;
  peer_paths : list Path;
  peer_is_root : bool;
  peer_last_direct_path_push : Z;
}.

(** The mutable fields, updated. *)
Definition with_state (p : Peer) (s : PeerState) : Peer :=
  {| peer_identity := peer_identity p; peer_state := s; peer_paths := peer_paths p;
     peer_is_root := peer_is_root p; peer_last_direct_path_push := peer_last_direct_path_push p |}.
Definition with_paths (p : Peer) (ps : list Path) : Peer :=
  {| peer_identity := peer_identity p; peer_state := peer_state p; peer_paths := ps;
     peer_is_root := peer_is_root p; peer_last_direct_path_push := peer_last_direct_path_push p |}.
Definition with_push (p : Peer) (t : Z) : Peer :=
  {| peer_identity := peer_identity p; peer_state := peer_state p; peer_paths := peer_paths p;
     peer_is_root := peer_is_root p; peer_last_direct_path_push := t |}.

Module PathOps.
Definition new (address : SocketAddr) (now_ms : Z) : Path :=
  {| path_address := address; path_last_send := 0; path_last_receive := now_ms;
     path_latency_ms := 0; path_is_direct := true |}.

Definition is_alive (p : Path) (now_ms : Z) : bool :=
  sat_sub now_ms (path_last_receive p) <? ZT_PEER_PATH_EXPIRATION.

Definition received (p : Path) (now_ms : Z) : Path :=
  {| path_address := path_address p; path_last_send := path_last_send p;
     path_last_receive := now_ms; path_latency_ms := path_latency_ms p;
     path_is_direct := path_is_direct p |}.

Definition sent (p : Path) (now_ms : Z) : Path :=
  {| path_address := path_address p; path_last_send := now_ms;
     path_last_receive := path_last_receive p; path_latency_ms := path_latency_ms p;
     path_is_direct := path_is_direct p |}.

Definition set_direct (p : Path) (d : bool) : Path :=
  {| path_address := path_address p; path_last_send := path_last_send p;
     path_last_receive := path_last_receive p; path_latency_ms := path_latency_ms p;
     path_is_direct := d |}.

Definition quality_score (p : Path) (now_ms : Z) : Z :=
  if negb (is_alive p now_ms) then U32_MAX else
  let age_ms := wrap 32 (sat_sub now_ms (path_last_receive p)) in
  let age_penalty := age_ms / 1000 in
  let relay_penalty := if path_is_direct p then 0 else 10000 in
  sat_add U32_MAX (sat_add U32_MAX (path_latency_ms p) relay_penalty) age_penalty.

Definition needs_heartbeat (p : Path) (now_ms : Z) : bool :=
  ZT_PATH_HEARTBEAT_PERIOD <=? sat_sub now_ms (path_last_send p).
End PathOps.

Module PeerOps.
Section PeerOps.
Context {P : Prims}.

Definition HELLO_RETRY_BACKOFF_MAX_MS : Z := 30000.

Definition clamp (z lo hi : Z) : Z := if z <? lo then lo else if hi <? z then hi else z.

(** [PeerState::new_active]. *)
Definition new_active (shared_secret : bytes) (latency_ms last_receive last_send : Z) : PeerState :=
  let k0_full := derive_k0 shared_secret in
  let k1_full := derive_k1 shared_secret in
  Active shared_secret (take 32 k0_full) (take 32 k1_full) latency_ms last_receive last_send.

Definition new (identity : Identity) (is_root : bool) : Peer :=
  {| peer_identity := identity; peer_state := Unknown; peer_paths := []; peer_is_root := is_root;
     peer_last_direct_path_push := 0 |}.

Definition establish_session (p : Peer) (our_secret : bytes) (latency_ms now_ms : Z) : Peer :=
  let their_dh_pubkey := pk_dh (id_public (peer_identity p)) in
  let shared_secret := key_agree our_secret their_dh_pubkey in
  with_state p (new_active shared_secret latency_ms now_ms now_ms).

Definition best_path (p : Peer) (now_ms : Z) : option Path :=
  min_by_key (fun x => PathOps.quality_score x now_ms)
    (filter (fun x => Is_true (PathOps.is_alive x now_ms)) (peer_paths p)).

Definition has_path (p : Peer) (addr : SocketAddr) : bool :=
  existsb (fun x => bool_decide (path_address x = addr)) (peer_paths p).

Definition add_path (p : Peer) (addr : SocketAddr) (is_direct : bool) (now_ms : Z) : Peer :=
  with_paths p
    (if has_path p addr
     then update_first (fun x => bool_decide (path_address x = addr))
            (fun x => PathOps.set_direct (PathOps.received x now_ms) is_direct) (peer_paths p)
     else peer_paths p ++ [PathOps.set_direct (PathOps.new addr now_ms) is_direct]).

Definition needs_ping (p : Peer) (now_ms : Z) : bool :=
  match peer_state p with
  | Active _ _ _ _ _ last_send => ZT_PEER_PING_PERIOD <=? sat_sub now_ms last_send
  | HelloSent sent_at _ retry_backoff_ms => retry_backoff_ms <=? sat_sub now_ms sent_at
  | _ => false
  end.

Definition needs_reconnect (p : Peer) (now_ms : Z) : bool :=
  match peer_state p with
  | Stale _ _ next_retry_at => next_retry_at <=? now_ms
  | _ => false
  end.

Definition on_hello_sent (p : Peer) (packet_id now_ms : Z) : Peer :=
  with_state p
    match peer_state p with
    | Active ss k0 k1 latency_ms last_receive _ => Active ss k0 k1 latency_ms last_receive now_ms
    | HelloSent _ _ retry_backoff_ms =>
        HelloSent now_ms packet_id
          (clamp (sat_mul U64_MAX retry_backoff_ms 2) ZT_PATH_HELLO_RATE_LIMIT HELLO_RETRY_BACKOFF_MAX_MS)
    | Stale _ retry_backoff_ms _ =>
        HelloSent now_ms packet_id
          (clamp retry_backoff_ms ZT_PATH_HELLO_RATE_LIMIT HELLO_RETRY_BACKOFF_MAX_MS)
    | Unknown => HelloSent now_ms packet_id ZT_PATH_HELLO_RATE_LIMIT
    end.

Definition is_stale (p : Peer) (now_ms : Z) : bool :=
  match peer_state p with
  | Active _ _ _ _ last_receive _ => ZT_PEER_ACTIVITY_TIMEOUT <=? sat_sub now_ms last_receive
  | HelloSent sent_at _ _ => ZT_PEER_ACTIVITY_TIMEOUT <=? sat_sub now_ms sent_at
  | Stale _ _ _ => true
  | Unknown => false
  end.

Definition shared_secret (p : Peer) : option bytes :=
  match peer_state p with Active ss _ _ _ _ _ => Some ss | _ => None end.

Definition aes_keys (p : Peer) : option (bytes * bytes) :=
  match peer_state p with Active _ k0 k1 _ _ _ => Some (k0, k1) | _ => None end.

Definition promote_path (p : Peer) (addr : SocketAddr) (now_ms : Z) : Peer :=
  if has_path p addr then
    with_paths p
      (update_first (fun x => bool_decide (path_address x = addr))
         (fun x => PathOps.received (PathOps.set_direct x true) now_ms) (peer_paths p))
  else add_path p addr true now_ms.

Definition mark_stale (p : Peer) (now_ms : Z) : Peer :=
  match peer_state p with
  | Active _ _ _ _ last_receive _ =>
      with_state p (Stale last_receive ZT_PATH_HELLO_RATE_LIMIT now_ms)
  | _ => p
  end.

(** ** The state machine *)

(** One call of a peer operation; times are the caller's clock. *)
Inductive peer_step : Peer -> Peer -> Prop :=
  | step_establish p secret latency now :
      len secret = 32 -> u32_ok latency -> peer_step p (establish_session p secret latency now)
  | step_hello p packet_id now : peer_step p (on_hello_sent p packet_id now)
  | step_stale p now : peer_step p (mark_stale p now)
  | step_add_path p addr direct now : peer_step p (add_path p addr direct now)
  | step_promote p addr now : peer_step p (promote_path p addr now)
  | step_push p now : peer_step p (with_push p now).

Inductive peer_reachable (identity : Identity) (is_root : bool) : Peer -> Prop :=
  | reach_new : peer_reachable identity is_root (new identity is_root)
  | reach_step p q : peer_reachable identity is_root p -> peer_step p q ->
      peer_reachable identity is_root q.

Definition backoff_ok (s : PeerState) : Prop :=
  match s with
  | HelloSent _ _ b | Stale _ b _ => ZT_PATH_HELLO_RATE_LIMIT <= b <= HELLO_RETRY_BACKOFF_MAX_MS
  | _ => True
  end.

Definition keys_ok (s : PeerState) : Prop :=
  match s with
  | Active ss k0 k1 _ _ _ =>
      len ss = 48 /\ k0 = take 32 (derive_k0 ss) /\ k1 = take 32 (derive_k1 ss)
  | _ => True
  end.

Record peer_ok (p : Peer) : Prop := {
  po_backoff : backoff_ok (peer_state p);
  po_keys : keys_ok (peer_state p);
  po_paths : NoDup (map path_address (peer_paths p));
}.

Lemma clamp_range z lo hi : lo <= hi -> lo <= clamp z lo hi <= hi.
Proof. unfold clamp. intros. repeat case_match; lia. Qed.

Lemma best_path_Some p now x : best_path p now = Some x ->
  x ∈ peer_paths p /\ PathOps.is_alive x now = true /\
  forall y, y ∈ peer_paths p -> PathOps.is_alive y now = true ->
    PathOps.quality_score x now <= PathOps.quality_score y now.
Proof.
  unfold best_path. intros [Hx Hmin]%min_by_key_spec. apply list_elem_of_filter in Hx as [Ha Hx].
  apply Is_true_true in Ha. split_and!; [done..|].
  intros y Hy Hya. apply Hmin, list_elem_of_filter. by rewrite Is_true_true.
Qed.

Lemma best_path_None p now : best_path p now = None ->
  forall y, y ∈ peer_paths p -> PathOps.is_alive y now = false.
Proof.
  unfold best_path. intros E%min_by_key_None y Hy. destruct (PathOps.is_alive y now) eqn:Ha; [|done].
  exfalso. assert (y ∈ (filter (fun x => Is_true (PathOps.is_alive x now)) (peer_paths p))) as Hin
    by (apply list_elem_of_filter; by rewrite Is_true_true).
  rewrite E in Hin. by apply elem_of_nil in Hin.
Qed.

Lemma has_path_spec p addr : has_path p addr = true <-> addr ∈ map path_address (peer_paths p).
Proof.
  unfold has_path. rewrite existsb_exists, list_elem_of_In, in_map_iff. split.
  - intros (x & Hx & Hd%bool_decide_eq_true). eauto.
  - intros (x & Hd & Hx). exists x. by rewrite bool_decide_eq_true.
Qed.

Lemma add_path_addresses p addr d now :
  map path_address (peer_paths (add_path p addr d now)) =
  if has_path p addr then map path_address (peer_paths p) else map path_address (peer_paths p) ++ [addr].
Proof.
  unfold add_path. simpl. destruct (has_path p addr); [by apply update_first_map|by rewrite map_app].
Qed.

Lemma add_path_nodup p addr d now :
  NoDup (map path_address (peer_paths p)) -> NoDup (map path_address (peer_paths (add_path p addr d now))).
Proof.
  intros Hp. rewrite add_path_addresses. destruct (has_path p addr) eqn:E; [done|].
  apply NoDup_app. split_and!; [done| |by apply NoDup_singleton].
  intros x Hx ->%list_elem_of_singleton. apply has_path_spec in Hx. congruence.
Qed.

Context {L : PrimLaws P}.

Lemma new_active_keys ss l r s : len ss = 48 -> keys_ok (new_active ss l r s).
Proof. done. Qed.

Lemma on_hello_sent_ok p pid now : peer_ok p -> peer_ok (on_hello_sent p pid now).
Proof.
  intros [Hb Hk Hn]. split; simpl; [| |done]; destruct (peer_state p); simpl in *; try done;
    by apply clamp_range.
Qed.

Lemma mark_stale_ok p now : peer_ok p -> peer_ok (mark_stale p now).
Proof.
  intros Hp. unfold mark_stale. destruct (peer_state p) eqn:E; try done.
  by split; [..|apply Hp].
Qed.

Lemma promote_path_ok p addr now : peer_ok p -> peer_ok (promote_path p addr now).
Proof.
  intros [Hb Hk Hn]. unfold promote_path. destruct (has_path _ _) eqn:E.
  - split; simpl; [done..|]. by rewrite update_first_map.
  - split; [done..|by apply add_path_nodup].
Qed.

Lemma peer_step_ok p q : peer_ok p -> peer_step p q -> peer_ok q.
Proof.
  intros Hp Hstep. revert Hp.
  destruct Hstep as [p secret latency now Hs Hl|p pid now|p now|p addr d now|p addr now|p now]; intros Hp.
  - split; simpl; [done| |apply Hp]. split_and!; [apply len_key_agree|done..].
  - by apply on_hello_sent_ok.
  - by apply mark_stale_ok.
  - destruct Hp. split; [done..|by apply add_path_nodup].
  - by apply promote_path_ok.
  - by destruct Hp; split.
Qed.

End PeerOps.

Section Theorems.
Context {P : Prims} {L : PrimLaws P}.

(** C23. Every peer the node can reach: however its operations are interleaved, the HELLO
    retry backoff stays between one and thirty seconds, an active session's AES keys are the
    KBKDF halves of its 48-byte shared secret, and no two paths share an address. *)
Theorem peer_reachable_ok (identity : Identity) (is_root : bool) (p : Peer) :
  peer_reachable identity is_root p -> peer_ok p.
Proof.
  induction 1 as [|p q _ IH Hstep]; [|by eapply peer_step_ok].
  split; simpl; [done|done|constructor].
Qed.

Fixpoint send_hellos (p : Peer) (hellos : list (Z * Z)) : Peer :=
  match hellos with
  | [] => p
  | (packet_id, now) :: hellos => send_hellos (on_hello_sent p packet_id now) hellos
  end.

Lemma send_hellos_snoc p hellos pid now :
  send_hellos p (hellos ++ [(pid, now)]) = on_hello_sent (send_hellos p hellos) pid now.
Proof. revert p. induction hellos as [|[a b] l IH]; intros p; [done|]. simpl. apply IH. Qed.

(** Exponential backoff: a new peer that has been sent [n + 1] HELLOs without an
    answer is waiting [min(30000, 1000 * 2^n)] milliseconds since the last one, records its
    packet id, and asks for another HELLO exactly when that time has passed. *)
Lemma hello_backoff (id : Identity) (root : bool) (hellos : list (Z * Z)) (pid now t : Z) :
  let p := send_hellos (new id root) (hellos ++ [(pid, now)]) in
  let wait := Z.min 30000 (1000 * 2 ^ len hellos) in
  peer_state p = HelloSent now pid wait /\
  needs_ping p t = (wait <=? sat_sub t now).
Proof.
  cbv zeta. enough (peer_state (send_hellos (new id root) (hellos ++ [(pid, now)])) =
    HelloSent now pid (Z.min 30000 (1000 * 2 ^ len hellos))) as H.
  { split; [done|]. unfold needs_ping. by rewrite H. }
  revert pid now. induction hellos as [|[pid0 now0] hellos IH] using rev_ind; intros pid now; [done|].
  rewrite send_hellos_snoc. unfold on_hello_sent. rewrite IH. simpl.
  rewrite len_app. change (len [(pid0, now0)]) with 1. pose proof (len_nonneg hellos).
  rewrite Z.pow_add_r, Z.pow_1_r by lia. pose proof (Z.pow_pos_nonneg 2 (len hellos) ltac:(lia) ltac:(lia)).
  unfold sat_mul, clamp, U64_MAX, ZT_PATH_HELLO_RATE_LIMIT, HELLO_RETRY_BACKOFF_MAX_MS.
  f_equal. set (x := 2 ^ len hellos) in *. clearbody x.
  repeat case_match; lia.
Qed.

(** Path selection: [best_path] returns a live path of the peer that no other live path
    beats on quality, and nothing exactly when no path is alive; among live paths of equal
    age and latency a relayed one is never preferred to a direct one. *)
Lemma best_path_spec (p : Peer) (now : Z) :
  match best_path p now with
  | Some x =>
      x ∈ peer_paths p /\ PathOps.is_alive x now = true /\
      (forall y, y ∈ peer_paths p -> PathOps.is_alive y now = true ->
         PathOps.quality_score x now <= PathOps.quality_score y now) /\
      (forall y, y ∈ peer_paths p -> PathOps.is_alive y now = true ->
         path_is_direct y = true -> path_last_receive y = path_last_receive x ->
         path_latency_ms y = path_latency_ms x -> 0 <= path_latency_ms x <= U32_MAX - 20000 ->
         path_is_direct x = true)
  | None => forall y, y ∈ peer_paths p -> PathOps.is_alive y now = false
  end.
Proof.
  destruct (best_path p now) as [x|] eqn:E; [|by apply best_path_None].
  destruct (best_path_Some _ _ _ E) as (Hx & Ha & Hle). split_and!; try done.
  intros y Hy Hya Hdir Hrec Hlat Hrange.
  specialize (Hle y Hy Hya). unfold PathOps.quality_score in Hle. rewrite Ha, Hya, Hdir, Hrec, Hlat in Hle.
  simpl in Hle. destruct (path_is_direct x); [done|]. exfalso.
  unfold PathOps.is_alive in Ha.
  unfold wrap, sat_add, sat_sub, U32_MAX, ZT_PEER_PATH_EXPIRATION in *.
  assert (Z.max 0 (now - path_last_receive x) mod 2 ^ 32 = Z.max 0 (now - path_last_receive x)) as Hm
    by (apply Z.mod_small; lia).
  rewrite Hm in Hle.
  pose proof (Z.div_pos (Z.max 0 (now - path_last_receive x)) 1000 ltac:(lia) ltac:(lia)).
  pose proof (Z.div_le_upper_bound (Z.max 0 (now - path_last_receive x)) 1000 243 ltac:(lia) ltac:(lia)).
  lia.
Qed.

End Theorems.

Lemma peer_reachable_ok_witness :
  @peer_ok Toy.prims (@on_hello_sent (@promote_path (new Ident.sample true) (SockV4 (map b8 [10; 0; 0; 1]) 9993) 5) 1 77).
Proof.
  apply (@peer_reachable_ok Toy.prims Toy.laws Ident.sample true).
  eapply reach_step; [eapply reach_step; [apply reach_new|]|]; constructor.
Defined.
End PeerOps.
