(* ===== verification/Topology.v ===== *)
(** * Topology: the peer table, the root set of planet and moons, and the routing
    decision (zerotier-node: topology.rs, switch.rs). *)
From S2P Require Export Peer World.

Record Topology := mkTopology {
  t_peers : gmap bytes Peer;
  t_roots : list bytes;
  t_planet : option World;
  t_moons : list World;
  t_pending_whois : gmap bytes (Z * Z);
}.

Definition with_peers (t : Topology) (ps : gmap bytes Peer) : Topology :=
  {| t_peers := ps; t_roots := t_roots t; t_planet := t_planet t; t_moons := t_moons t;
     t_pending_whois := t_pending_whois t |}.
Definition with_roots (t : Topology) (rs : list bytes) : Topology :=
  {| t_peers := t_peers t; t_roots := rs; t_planet := t_planet t; t_moons := t_moons t;
     t_pending_whois := t_pending_whois t |}.
Definition with_planet (t : Topology) (w : option World) : Topology :=
  {| t_peers := t_peers t; t_roots := t_roots t; t_planet := w; t_moons := t_moons t;
     t_pending_whois := t_pending_whois t |}.
Definition with_moons (t : Topology) (ws : list World) : Topology :=
  {| t_peers := t_peers t; t_roots := t_roots t; t_planet := t_planet t; t_moons := ws;
     t_pending_whois := t_pending_whois t |}.
Definition with_pending (t : Topology) (m : gmap bytes (Z * Z)) : Topology :=
  {| t_peers := t_peers t; t_roots := t_roots t; t_planet := t_planet t; t_moons := t_moons t;
     t_pending_whois := m |}.

Module Topo.

Definition new : Topology :=
  {| t_peers := ∅; t_roots := []; t_planet := None; t_moons := []; t_pending_whois := ∅ |}.

Definition root_address (r : WorldRoot) : bytes := id_address (wr_identity r).

(** The peer entry made for a root: public identity and one direct path per endpoint. *)
Definition root_peer (r : WorldRoot) : Peer :=
  let id := wr_identity r in
  fold_left
    (fun p e => match Inet.to_socket_addr e with
                | Some a => PeerOps.add_path p a true 0
                | None => p
                end)
    (wr_endpoints r)
    (PeerOps.new {| id_address := id_address id; id_public := id_public id; id_secret := None |} true).

(** One turn of the loop over [world.roots]. *)
Definition add_root (t : Topology) (r : WorldRoot) : Topology :=
  let addr_bytes := root_address r in
  let t := if bool_decide (addr_bytes ∈ t_roots t) then t
           else with_roots t (t_roots t ++ [addr_bytes]) in
  with_peers t (<[addr_bytes := root_peer r]> (t_peers t)).

Definition load_planet (t : Topology) (world : World) : Topology :=
  with_planet (fold_left add_root (w_roots world) t) (Some world).

Definition load_moon `{Prims} (t : Topology) (moon : World) : res ProtocolError Topology :=
  let* _ := WorldP.verify_signature moon in
  let t := fold_left add_root (w_roots moon) t in
  Ok (with_moons t (t_moons t ++ [moon])).

Definition has_root (w : World) (addr : bytes) : bool :=
  existsb (fun r => bool_decide (root_address r = addr)) (w_roots w).

(** One turn of the loop of [unload_moon] over the removed moon's roots. *)
Definition drop_root (t : Topology) (r : WorldRoot) : Topology :=
  let addr_bytes := root_address r in
  let still_a_root :=
    match t_planet t with Some p => has_root p addr_bytes | None => false end
    || existsb (fun m => has_root m addr_bytes) (t_moons t) in
  if still_a_root then t
  else with_roots t (filter (fun a => a <> addr_bytes) (t_roots t)).

Definition unload_moon (t : Topology) (moon_id : Z) : Topology * bool :=
  match list_find (fun m => w_id m = moon_id) (t_moons t) with
  | None => (t, false)
  | Some (index, moon) =>
      let t := with_moons t (delete index (t_moons t)) in
      (fold_left drop_root (w_roots moon) t, true)
  end.

Definition get_peer (t : Topology) (address : bytes) : option Peer := t_peers t !! address.

Definition get_root (t : Topology) : option Peer :=
  head (omap (fun a => t_peers t !! a) (t_roots t)).

Definition get_root_mut (t : Topology) : option Peer :=
  match t_roots t with
  | [] => None
  | root_addr :: _ => t_peers t !! root_addr
  end.

Definition add_peer (t : Topology) (identity : Identity) : Topology :=
  let addr_bytes := id_address identity in
  match t_peers t !! addr_bytes with
  | Some _ => t
  | None => with_peers t (<[addr_bytes := PeerOps.new identity false]> (t_peers t))
  end.

(** An update through [get_peer_mut]. *)
Definition update_peer (t : Topology) (address : bytes) (f : Peer -> Peer) : Topology :=
  with_peers t (alter f address (t_peers t)).

(** ** The topology's state machine *)

Definition world_roots (w : World) : list bytes := map root_address (w_roots w).

(** The addresses the loaded worlds name as roots. *)
Definition declared_roots (t : Topology) : list bytes :=
  match t_planet t with Some p => world_roots p | None => [] end
  ++ concat (map world_roots (t_moons t)).

Section Steps.
Context {P : Prims}.

Inductive topo_step : Topology -> Topology -> Prop :=
  | step_moon t moon t' : load_moon t moon = Ok t' -> topo_step t t'
  | step_unload t id : topo_step t (unload_moon t id).1
  | step_peer t identity : topo_step t (add_peer t identity)
  | step_update t address p q :
      t_peers t !! address = Some p -> PeerOps.peer_step p q ->
      topo_step t (update_peer t address (fun _ => q))
  | step_whois t m : topo_step t (with_pending t m).

(** A node's topology: the planet is loaded once, when the node is made. *)
Inductive topo_reachable (planet : World) : Topology -> Prop :=
  | topo_init : topo_reachable planet (load_planet new planet)
  | topo_next t t' : topo_reachable planet t -> topo_step t t' -> topo_reachable planet t'.
End Steps.

Record topo_ok `{Prims} (t : Topology) : Prop := {
  to_nodup : NoDup (t_roots t);
  to_roots : forall a, a ∈ t_roots t <-> a ∈ declared_roots t;
  to_root_peer : forall a, a ∈ t_roots t -> is_Some (t_peers t !! a);
  to_peers : map_Forall (fun a p => id_address (peer_identity p) = a /\ PeerOps.peer_ok p) (t_peers t);
}.

End Topo.

(** ** switch.rs *)

Inductive RouteDecision : Type :=
  | Direct (address : SocketAddr)
  | Relay (root_address : SocketAddr) (dest_zt_address : bytes)
  | Drop.

Module Switch.

Definition route (t : Topology) (dest : bytes) (now_ms : Z) : RouteDecision :=
  let relay :=
    match Topo.get_root t with
    | Some root =>
        match PeerOps.best_path root now_ms with
        | Some root_path => Relay (path_address root_path) dest
        | None =>
            match peer_paths root with
            | first_path :: _ => Relay (path_address first_path) dest
            | [] => Drop
            end
        end
    | None => Drop
    end in
  match Topo.get_peer t dest with
  | Some peer =>
      match PeerOps.best_path peer now_ms with
      | Some path => if path_is_direct path then Direct (path_address path) else relay
      | None => relay
      end
  | None => relay
  end.

End Switch.

(** ** Facts *)

Module TopoFacts.
Section TopoFacts.
Import Topo.
Context {P : Prims} {L : PrimLaws P}.

Lemma peer_step_identity p q : PeerOps.peer_step p q -> peer_identity q = peer_identity p.
Proof.
  destruct 1 as [|p pid now|p now| |p a now|]; simpl; try done.
  - unfold PeerOps.mark_stale. by destruct (peer_state p).
  - unfold PeerOps.promote_path. by destruct (PeerOps.has_path p a).
Qed.

Lemma root_peer_ok r :
  PeerOps.peer_ok (root_peer r) /\ id_address (peer_identity (root_peer r)) = root_address r.
Proof.
  unfold root_peer. generalize (wr_endpoints r). intros es.
  set (p0 := PeerOps.new _ _).
  assert (PeerOps.peer_ok p0 /\ id_address (peer_identity p0) = root_address r) as H0
    by (split; [split; simpl; [done|done|constructor]|done]).
  clearbody p0. revert p0 H0. induction es as [|e es IH]; intros p0 H0; [done|]. simpl. apply IH.
  destruct (Inet.to_socket_addr e) as [a|]; [|done]. destruct H0 as [Hok Ha].
  split; [|done]. eapply PeerOps.peer_step_ok; [done|constructor].
Qed.

(** What loading roots keeps. *)
Record extends (rs : list WorldRoot) (t t' : Topology) : Prop := {
  ex_planet : t_planet t' = t_planet t;
  ex_moons : t_moons t' = t_moons t;
  ex_nodup : NoDup (t_roots t) -> NoDup (t_roots t');
  ex_roots : forall a, a ∈ t_roots t' <-> a ∈ t_roots t \/ a ∈ map root_address rs;
  ex_some : forall a, is_Some (t_peers t' !! a) <-> is_Some (t_peers t !! a) \/ a ∈ map root_address rs;
  ex_peers : forall R : bytes -> Peer -> Prop, (forall r, R (root_address r) (root_peer r)) ->
    map_Forall R (t_peers t) -> map_Forall R (t_peers t');
}.

Lemma add_root_extends t r : extends [r] t (add_root t r).
Proof.
  unfold add_root. case_bool_decide as Hin; split; simpl; try done.
  - intros a. set_solver.
  - intros a. rewrite lookup_insert_is_Some. destruct (decide (root_address r = a)); set_solver.
  - intros R HR Hm. by apply map_Forall_insert_2.
  - intros Hn. apply NoDup_app. split_and!; [done|set_solver|apply NoDup_singleton].
  - intros a. set_solver.
  - intros a. rewrite lookup_insert_is_Some. destruct (decide (root_address r = a)); set_solver.
  - intros R HR Hm. by apply map_Forall_insert_2.
Qed.

Lemma add_roots_extends rs t : extends rs t (fold_left add_root rs t).
Proof.
  revert t. induction rs as [|r rs IH]; intros t; [split; simpl; try done; set_solver|].
  simpl. destruct (add_root_extends t r) as [H1 H2 H3 H4 H5 H6], (IH (add_root t r)) as [K1 K2 K3 K4 K5 K6].
  split.
  - congruence.
  - congruence.
  - auto.
  - intros a. rewrite K4, H4. set_solver.
  - intros a. rewrite K5, H5. set_solver.
  - auto.
Qed.

Lemma has_root_spec w a : has_root w a = true <-> a ∈ world_roots w.
Proof.
  unfold has_root, world_roots. rewrite existsb_exists, list_elem_of_In, in_map_iff. split.
  - intros (x & Hx & Hd%bool_decide_eq_true). eauto.
  - intros (x & Hd & Hx). exists x. by rewrite bool_decide_eq_true.
Qed.

Lemma existsb_has_root ms a :
  existsb (fun m => has_root m a) ms = true <-> a ∈ concat (map world_roots ms).
Proof.
  induction ms as [|m ms IH]; simpl; [split; [done|by intros ?%elem_of_nil]|].
  by rewrite orb_true_iff, IH, has_root_spec, elem_of_app.
Qed.

Lemma still_root_spec t a :
  match t_planet t with Some p => has_root p a | None => false end
    || existsb (fun m => has_root m a) (t_moons t) = true <-> a ∈ declared_roots t.
Proof.
  unfold declared_roots. rewrite orb_true_iff, existsb_has_root, elem_of_app.
  destruct (t_planet t); [by rewrite has_root_spec|rewrite elem_of_nil; naive_solver].
Qed.

Lemma drop_roots_spec rs t :
  let t' := fold_left drop_root rs t in
  t_planet t' = t_planet t /\ t_moons t' = t_moons t /\ t_peers t' = t_peers t /\
  (NoDup (t_roots t) -> NoDup (t_roots t')) /\
  (forall a, a ∈ t_roots t' <->
     a ∈ t_roots t /\ (a ∈ map root_address rs -> a ∈ declared_roots t)).
Proof.
  revert t. induction rs as [|r rs IH]; intros t; cbv zeta; simpl; [set_solver|].
  assert (t_planet (drop_root t r) = t_planet t /\ t_moons (drop_root t r) = t_moons t /\
    t_peers (drop_root t r) = t_peers t /\
    (NoDup (t_roots t) -> NoDup (t_roots (drop_root t r))) /\
    (forall a, a ∈ t_roots (drop_root t r) <->
       a ∈ t_roots t /\ (a = root_address r -> a ∈ declared_roots t))) as (H1 & H2 & H3 & H4 & H5).
  { unfold drop_root. pose proof (still_root_spec t (root_address r)) as Hs.
    destruct (_ || _) eqn:E; simpl; split_and!; try done.
    - intros a. split; [|by intros [? _]]. intros Ha. split; [done|]. intros ->. by apply Hs.
    - apply NoDup_filter.
    - intros a. rewrite list_elem_of_filter. split.
      + intros [Ha Hb]. done.
      + intros [Ha Hb]. split; [|done]. intros ->. apply Hs in Hb; done. }
  destruct (IH (drop_root t r)) as (K1 & K2 & K3 & K4 & K5).
  assert (declared_roots (drop_root t r) = declared_roots t) as Hd
    by (unfold declared_roots; by rewrite H1, H2).
  split_and!; [congruence..|auto|]. intros a. rewrite K5, H5, Hd. set_solver.
Qed.

Lemma delete_moon_roots ms i m a : ms !! i = Some m ->
  a ∈ concat (map world_roots ms) <->
  a ∈ concat (map world_roots (delete i ms)) \/ a ∈ world_roots m.
Proof.
  revert i. induction ms as [|x ms IH]; intros [|i]; simpl; [done..| |].
  - intros [= ->]. rewrite elem_of_app. tauto.
  - intros Hi. rewrite !elem_of_app, (IH i Hi). tauto.
Qed.

Lemma load_planet_ok planet : topo_ok (load_planet new planet).
Proof.
  unfold load_planet. destruct (add_roots_extends (w_roots planet) new) as [H1 H2 H3 H4 H5 H6].
  split; simpl.
  - apply H3, NoDup_nil_2.
  - intros a. rewrite H4. unfold declared_roots. simpl. rewrite H2. simpl. rewrite app_nil_r. set_solver.
  - intros a Ha. apply H5. right. apply H4 in Ha as [Ha|]; [by apply elem_of_nil in Ha|done].
  - apply H6; [|apply map_Forall_empty]. intros r. destruct (root_peer_ok r). done.
Qed.

Lemma load_moon_ok t moon t' : topo_ok t -> load_moon t moon = Ok t' -> topo_ok t'.
Proof.
  intros [Hn Hr Hp Hq]. unfold load_moon. destruct (WorldP.verify_signature moon) as [u| | |]; try done.
  simpl. intros [= <-]. destruct (add_roots_extends (w_roots moon) t) as [H1 H2 H3 H4 H5 H6].
  split; simpl.
  - auto.
  - intros a. rewrite H4, Hr. unfold declared_roots. simpl. rewrite H1, H2, map_app, concat_app. simpl.
    rewrite !elem_of_app, elem_of_nil. unfold world_roots. tauto.
  - intros a. rewrite H4, H5. intros [Ha|Ha]; [left; by apply Hp|by right].
  - apply H6; [|done]. intros r. destruct (root_peer_ok r). done.
Qed.

Lemma unload_moon_ok t id : topo_ok t -> topo_ok (unload_moon t id).1.
Proof.
  intros [Hn Hr Hp Hq]. unfold unload_moon. destruct (list_find _ _) as [[i m]|] eqn:E; [|done].
  apply list_find_Some in E as (Hi & _ & _). simpl.
  set (t1 := with_moons t (delete i (t_moons t))).
  destruct (drop_roots_spec (w_roots m) t1) as (H1 & H2 & H3 & H4 & H5).
  assert (forall a, a ∈ declared_roots t <-> a ∈ declared_roots t1 \/ a ∈ world_roots m) as Hd.
  { intros a. unfold declared_roots. simpl. rewrite !elem_of_app, (delete_moon_roots _ i m a Hi). tauto. }
  assert (declared_roots (fold_left drop_root (w_roots m) t1) = declared_roots t1) as Hd'
    by (unfold declared_roots; by rewrite H1, H2).
  split.
  - auto.
  - intros a. rewrite H5, Hd'. change (t_roots t1) with (t_roots t). rewrite Hr, Hd.
    fold (world_roots m). destruct (decide (a ∈ world_roots m)); tauto.
  - intros b Hb. apply H5 in Hb as [Hb _]. rewrite H3. by apply Hp.
  - by rewrite H3.
Qed.

(** What keeps a topology well formed: peers changed in place. *)
Lemma update_peer_ok t address f : topo_ok t ->
  (forall p, t_peers t !! address = Some p -> PeerOps.peer_ok p ->
     PeerOps.peer_ok (f p) /\ peer_identity (f p) = peer_identity p) ->
  topo_ok (update_peer t address f).
Proof.
  intros [Hn Hr Hp Hq] Hf. split; simpl; try done.
  - intros b Hb. rewrite lookup_alter_is_Some. auto.
  - intros b r. destruct (decide (address = b)) as [<-|Hab].
    + rewrite lookup_alter_eq. intros (p & Hl & ->)%fmap_Some. destruct (Hq address p Hl) as [Hi Hpo].
      destruct (Hf p Hl Hpo) as [Hok Hid]. by rewrite Hid.
    + rewrite lookup_alter_ne by done. apply Hq.
Qed.

Lemma topo_step_ok t t' : topo_ok t -> topo_step t t' -> topo_ok t'.
Proof.
  intros Hok Hstep. revert Hok.
  destruct Hstep as [t moon t' Hm|t id|t id|t a p q Hl Hs|t m]; intros Hok.
  - by eapply load_moon_ok.
  - by apply unload_moon_ok.
  - unfold add_peer. destruct (t_peers t !! id_address id) eqn:E; [done|].
    destruct Hok as [Hn Hr Hp Hq]. split; simpl; try done.
    + intros a Ha. rewrite lookup_insert_is_Some. destruct (decide (id_address id = a)); auto.
    + apply map_Forall_insert_2; [|done]. split; [done|]. split; simpl; [done|done|constructor].
  - apply update_peer_ok; [done|]. intros p' Hp' Hpok. rewrite Hl in Hp'. injection Hp' as <-.
    split; [by eapply PeerOps.peer_step_ok|by apply peer_step_identity].
  - by destruct Hok; split.
Qed.

Lemma get_root_ok t : topo_ok t -> get_root t = get_root_mut t.
Proof.
  intros [_ _ Hp _]. unfold get_root, get_root_mut. destruct (t_roots t) as [|a rs]; [done|].
  simpl. destruct (Hp a ltac:(left)) as [p ->]. done.
Qed.

End TopoFacts.

Section Theorems.
Import Topo.
Context {P : Prims} {L : PrimLaws P}.

(** C20. Root tracking: whatever moons are loaded and unloaded and whatever happens to the
    peers, the root list has no duplicates, holds exactly the addresses named by the planet
    and the loaded moons, every root has an entry in the peer table, and every table entry
    is keyed by its identity's address and is a well-formed peer. *)
Theorem topo_reachable_ok (planet : World) (t : Topology) :
  topo_reachable planet t -> topo_ok t.
Proof.
  induction 1 as [|t t' _ IH Hstep]; [apply load_planet_ok|by eapply topo_step_ok].
Qed.

(** Routing: on a node's topology, a direct decision names the address of a live direct
    path of the destination that no live path beats; otherwise the packet goes through the
    first root, to its best live path or else to its first one; it is dropped only when
    there is no root or the first root has no path at all. *)
Theorem route_spec (planet : World) (t : Topology) (dest : bytes) (now : Z) :
  topo_reachable planet t ->
  let direct p x := t_peers t !! dest = Some p /\ PeerOps.best_path p now = Some x /\
    path_is_direct x = true in
  match Switch.route t dest now with
  | Direct a => exists p x, direct p x /\ path_address x = a /\ x ∈ peer_paths p /\
      PathOps.is_alive x now = true
  | Relay a d => d = dest /\ ~ (exists p x, direct p x) /\
      exists r root x, head (t_roots t) = Some r /\ t_peers t !! r = Some root /\
        x ∈ peer_paths root /\ path_address x = a /\
        (PeerOps.best_path root now = Some x \/
         (forall y, y ∈ peer_paths root -> PathOps.is_alive y now = false))
  | Drop => ~ (exists p x, direct p x) /\
      forall r, head (t_roots t) = Some r ->
        exists root, t_peers t !! r = Some root /\ peer_paths root = []
  end.
Proof.
  intros Hreach. pose proof (topo_reachable_ok _ _ Hreach) as Hok. cbv zeta.
  unfold Switch.route. rewrite (get_root_ok t Hok). unfold get_root_mut, get_peer.
  assert (forall relay : RouteDecision,
    relay = match match t_roots t with [] => None | r :: _ => t_peers t !! r end with
            | Some root =>
                match PeerOps.best_path root now with
                | Some root_path => Relay (path_address root_path) dest
                | None => match peer_paths root with
                          | first_path :: _ => Relay (path_address first_path) dest
                          | [] => Drop
                          end
                end
            | None => Drop
            end ->
    match relay with
    | Direct _ => False
    | Relay a d => d = dest /\ exists r root x, head (t_roots t) = Some r /\ t_peers t !! r = Some root /\
        x ∈ peer_paths root /\ path_address x = a /\
        (PeerOps.best_path root now = Some x \/
         (forall y, y ∈ peer_paths root -> PathOps.is_alive y now = false))
    | Drop => forall r, head (t_roots t) = Some r ->
        exists root, t_peers t !! r = Some root /\ peer_paths root = []
    end) as Hrelay.
  { intros relay ->. destruct (t_roots t) as [|r rs] eqn:Er; [done|].
    destruct (to_root_peer t Hok r) as [root Hroot]; [rewrite Er; left|]. rewrite Hroot.
    destruct (PeerOps.best_path root now) as [x|] eqn:Eb.
    { destruct (PeerOps.best_path_Some _ _ _ Eb) as (Hx & _). split; [done|]. exists r, root, x. by auto 10. }
    pose proof (PeerOps.best_path_None _ _ Eb) as Hdead.
    destruct (peer_paths root) as [|x xs] eqn:Ex.
    - intros ? [= <-]. eauto.
    - split; [done|]. exists r, root, x. rewrite Ex. split_and!; auto. by left. }
  set (relay := match _ with Some root => _ | None => Drop end).
  specialize (Hrelay relay eq_refl). clearbody relay.
  set (no_direct := ~ exists p x, _).
  assert (no_direct -> match relay with
    | Direct a => exists p x, (t_peers t !! dest = Some p /\ PeerOps.best_path p now = Some x /\
        path_is_direct x = true) /\ path_address x = a /\ x ∈ peer_paths p /\ PathOps.is_alive x now = true
    | Relay a d => d = dest /\ no_direct /\ exists r root x, head (t_roots t) = Some r /\
        t_peers t !! r = Some root /\ x ∈ peer_paths root /\ path_address x = a /\
        (PeerOps.best_path root now = Some x \/
         (forall y, y ∈ peer_paths root -> PathOps.is_alive y now = false))
    | Drop => no_direct /\ forall r, head (t_roots t) = Some r ->
        exists root, t_peers t !! r = Some root /\ peer_paths root = []
    end) as Hfin by (destruct relay; tauto).
  clear Hrelay. subst no_direct.
  destruct (t_peers t !! dest) as [p|] eqn:Ep; [|apply Hfin; intros (? & ? & ? & ? & ?); simplify_eq; congruence].
  destruct (PeerOps.best_path p now) as [x|] eqn:Eb; [|apply Hfin; intros (? & ? & ? & ? & ?); simplify_eq; congruence].
  destruct (path_is_direct x) eqn:Ed; [|apply Hfin; intros (? & ? & ? & ? & ?); simplify_eq; congruence].
  destruct (PeerOps.best_path_Some _ _ _ Eb) as (Hx & Ha & _). exists p, x. auto.
Qed.

End Theorems.

Definition sample_root : Peer := Topo.root_peer (mkWorldRoot Ident.sample [V4 (map b8 [10; 0; 0; 1]) 9993; Null]).
Definition sample_topology : Topology := Topo.add_peer (Topo.load_planet Topo.new WorldP.sample) Ident.sample.

Lemma sample_reachable : @Topo.topo_reachable Toy.prims WorldP.sample sample_topology.
Proof. eapply Topo.topo_next; [apply Topo.topo_init|apply Topo.step_peer]. Qed.

Lemma topo_reachable_ok_witness :
  @Topo.topo_ok Toy.prims sample_topology /\ t_roots sample_topology = [id_address Ident.sample].
Proof.
  split; [|reflexivity]. exact (@topo_reachable_ok Toy.prims Toy.laws _ _ sample_reachable).
Defined.

(** A stranger's packets go through the planet's root. *)
Lemma route_spec_witness :
  Switch.route sample_topology (map b8 [9; 9; 9; 9; 9]) 1000 =
    Relay (SockV4 (map b8 [10; 0; 0; 1]) 9993) (map b8 [9; 9; 9; 9; 9]) /\
  exists r root, head (t_roots sample_topology) = Some r /\ t_peers sample_topology !! r = Some root.
Proof.
  assert (Switch.route sample_topology (map b8 [9; 9; 9; 9; 9]) 1000 =
    Relay (SockV4 (map b8 [10; 0; 0; 1]) 9993) (map b8 [9; 9; 9; 9; 9])) as Hr by (vm_compute; reflexivity).
  split; [exact Hr|].
  pose proof (@route_spec Toy.prims Toy.laws _ _ (map b8 [9; 9; 9; 9; 9]) 1000 sample_reachable) as H.
  rewrite Hr in H. destruct H as (_ & _ & r & root & x & Hh & Hl & _). exists r, root. split; [exact Hh|exact Hl].
Defined.
End TopoFacts.
