(* ===== verification/Ethernet.v ===== *)
(** * Ethernet: frames and the MAC address a node derives from its ZeroTier address
    (zerotier-node: ethernet.rs). *)
From S2P Require Export Wire.

Definition ETHERTYPE_IPV4 : Z := 0x0800.
Definition ETHERTYPE_IPV6 : Z := 0x86DD.
Definition ETHERTYPE_ARP : Z := 0x0806.

Record EthernetFrame := mkEthernetFrame {
  ef_dest_mac : bytes;    (* [u8; 6] *)
  ef_src_mac : bytes;     (* [u8; 6] *)
  ef_ethertype : Z;
  ef_payload : bytes;
}.

Module Ethernet.

(** The first octet: locally administered, unicast, never 0x52. *)
Definition first_octet (network_id : Z) : Z :=
  let a := Z.lor (Z.land (wrap 8 network_id) 0xfe) 0x02 in
  if a =? 0x52 then 0x32 else a.

Definition derive_mac (zt_address : bytes) (network_id : Z) : bytes :=
  let first := first_octet network_id in
  let zt_val := from_be (replicate 3 "000"%byte ++ zt_address) in
  let m := Z.shiftl first 40 in
  let m := Z.lor m zt_val in
  let m := Z.lxor m (Z.shiftl (Z.land (Z.shiftr network_id 8) 0xff) 32) in
  let m := Z.lxor m (Z.shiftl (Z.land (Z.shiftr network_id 16) 0xff) 24) in
  let m := Z.lxor m (Z.shiftl (Z.land (Z.shiftr network_id 24) 0xff) 16) in
  let m := Z.lxor m (Z.shiftl (Z.land (Z.shiftr network_id 32) 0xff) 8) in
  let m := Z.lxor m (Z.land (Z.shiftr network_id 40) 0xff) in
  [b8 (Z.shiftr m 40); b8 (Z.shiftr m 32); b8 (Z.shiftr m 24); b8 (Z.shiftr m 16);
   b8 (Z.shiftr m 8); b8 m].

(** [EthernetFrame::parse]. *)
Definition parse (data : bytes) : option EthernetFrame :=
  if len data <? 14 then None else
  Some {| ef_dest_mac := take 6 data;
          ef_src_mac := take 6 (drop 6 data);
          ef_ethertype := from_be (take 2 (drop 12 data));
          ef_payload := drop 14 data |}.

Definition serialize (f : EthernetFrame) : W Z :=
  let total := 14 + len (ef_payload f) in
  put 0 6 (ef_dest_mac f);*
  put 6 12 (ef_src_mac f);*
  put 12 14 (to_be 2 (ef_ethertype f));*
  put 14 total (ef_payload f);*
  wret total.

Definition is_arp (f : EthernetFrame) : bool := ef_ethertype f =? ETHERTYPE_ARP.
Definition is_ipv4 (f : EthernetFrame) : bool := ef_ethertype f =? ETHERTYPE_IPV4.
Definition is_ipv6 (f : EthernetFrame) : bool := ef_ethertype f =? ETHERTYPE_IPV6.
Definition is_multicast (f : EthernetFrame) : bool :=
  negb (Z.land (u8 (byte_at (ef_dest_mac f) 0)) 0x01 =? 0).

(** ** Facts *)

(** The bytes of the network id that are mixed into the address, from the second lowest. *)
Definition network_bytes (network_id : Z) : bytes :=
  map (fun i => b8 (Z.shiftr network_id i)) [8; 16; 24; 32; 40].

Lemma first_octet_range n : 0 <= first_octet n < 256.
Proof.
  unfold first_octet. destruct (_ =? _); [lia|].
  assert (0 <= wrap 8 n < 256) as H by (unfold wrap; apply Z.mod_pos_bound; lia).
  revert H. generalize (wrap 8 n). intros x Hx.
  assert (forallb (fun x => (0 <=? Z.lor (Z.land x 0xfe) 0x02) && (Z.lor (Z.land x 0xfe) 0x02 <? 256)) (seqZ 0 256) = true)
    as H by (vm_compute; reflexivity).
  rewrite forallb_forall in H. specialize (H x ltac:(apply list_elem_of_In, elem_of_seqZ; lia)). zlia.
Qed.

Lemma first_octet_bits n : Z.land (first_octet n) 0x03 = 0x02 /\ first_octet n <> 0x52.
Proof.
  assert (0 <= wrap 8 n < 256) as H by (unfold wrap; apply Z.mod_pos_bound; lia).
  unfold first_octet. revert H. generalize (wrap 8 n). intros x Hx.
  assert (forallb (fun x => let a := Z.lor (Z.land x 0xfe) 0x02 in
    (Z.land (if a =? 0x52 then 0x32 else a) 0x03 =? 0x02)) (seqZ 0 256) = true)
    as H by (vm_compute; reflexivity).
  rewrite forallb_forall in H. specialize (H x ltac:(apply list_elem_of_In, elem_of_seqZ; lia)).
  split; [by apply Z.eqb_eq|]. destruct (_ =? 0x52) eqn:E; lia.
Qed.

Lemma derive_mac_xor a n : len a = 5 ->
  derive_mac a n = b8 (first_octet n) :: xor_bytes a (network_bytes n).
Proof.
  intros Ha. pose proof (first_octet_range n) as Hf.
  assert (from_be (replicate 3 "000"%byte ++ a) = from_be a) as Hz.
  { unfold from_be. by rewrite fold_left_app. }
  pose proof (from_be_range a) as Hr. rewrite Ha in Hr. change (256 ^ 5) with (2 ^ 40) in Hr.
  unfold derive_mac. cbv zeta. rewrite Hz, lor_shiftl_add by lia.
  set (m := Z.lxor _ _).
  transitivity (to_be 6 m).
  { unfold to_be. rewrite !Z.div_div by lia. simpl. rewrite !Z.shiftr_div_pow2 by lia. done. }
  subst m. rewrite !to_be_lxor.
  assert (forall v, 0 <= Z.land v 0xff < 256) as Hb.
  { intros v. change 0xff with (Z.ones 8). rewrite Z.land_ones by lia. by apply Z.mod_pos_bound. }
  assert (forall v, b8 (Z.land v 0xff) = b8 v) as Hb8.
  { intros v. change 0xff with (Z.ones 8). rewrite Z.land_ones by lia. apply b8_mod. }
  rewrite !Z.shiftl_mul_pow2 by lia.
  change (2 ^ 32) with (256 ^ Z.of_nat 4). change (2 ^ 24) with (256 ^ Z.of_nat 3).
  change (2 ^ 16) with (256 ^ Z.of_nat 2). change (2 ^ 8) with (256 ^ Z.of_nat 1).
  rewrite (to_be_shift 2 4), (to_be_shift 3 3), (to_be_shift 4 2), (to_be_shift 5 1).
  assert (to_be 6 (first_octet n * 2 ^ 40 + from_be a) = b8 (first_octet n) :: a) as ->.
  { rewrite <- (to_be_from_be (b8 (first_octet n) :: a)). replace (length (b8 (first_octet n) :: a)) with 6%nat
      by (unfold len in Ha; simpl; lia).
    f_equal. change (b8 (first_octet n) :: a) with ([b8 (first_octet n)] ++ a). rewrite from_be_app, Ha. unfold from_be at 2. simpl fold_left.
    rewrite u8_b8, Z.mod_small by done. lia. }
  rewrite !to_be_byte by apply Hb. rewrite !Hb8.
  destruct a as [|a0 [|a1 [|a2 [|a3 [|a4 [|]]]]]]; try (unfold len in Ha; simpl in Ha; lia).
  unfold xor_bytes, network_bytes. simpl. by rewrite !bxor_0_r.
Qed.

(** The MAC a member gets on a network: six octets, unicast and locally administered,
    never in the 0x52 range, the ZeroTier address masked with bits of the network id. On
    one network different addresses get different MACs, and the address can be read back
    from the MAC. *)
Theorem derive_mac_spec (a : bytes) (network_id : Z) :
  len a = 5 ->
  let mac := derive_mac a network_id in
  len mac = 6 /\ Z.land (u8 (byte_at mac 0)) 0x03 = 0x02 /\ u8 (byte_at mac 0) <> 0x52 /\
  xor_bytes (drop 1 mac) (network_bytes network_id) = a /\
  (forall b, len b = 5 -> derive_mac b network_id = mac -> b = a).
Proof.
  intros Ha. cbv zeta. rewrite derive_mac_xor by done.
  assert (forall b, len b = 5 -> xor_bytes (xor_bytes b (network_bytes network_id)) (network_bytes network_id) = b)
    as Hback by (intros b Hb; apply xor_bytes_cancel; unfold len in Hb; simpl; lia).
  assert (u8 (byte_at (b8 (first_octet network_id) :: xor_bytes a (network_bytes network_id)) 0)
    = first_octet network_id) as ->.
  { unfold byte_at. simpl. rewrite u8_b8. apply Z.mod_small, first_octet_range. }
  destruct (first_octet_bits network_id) as [Hbits Hne].
  split_and!; [|done|done|by apply Hback|].
  - rewrite len_cons, len_xor_bytes. change (len (network_bytes network_id)) with 5. lia.
  - intros b Hb. rewrite derive_mac_xor by done. intros [= Hx].
    by rewrite <- (Hback b Hb), Hx, Hback.
Qed.

(** An Ethernet frame survives serialization into a buffer of at least its size and is
    classified by its ethertype; a smaller buffer panics, as documented. *)
Theorem frame_roundtrip (f : EthernetFrame) (buf : bytes) :
  len (ef_dest_mac f) = 6 -> len (ef_src_mac f) = 6 -> u16_ok (ef_ethertype f) ->
  if 14 + len (ef_payload f) <=? len buf then
    exists buf', serialize f buf = Ok (14 + len (ef_payload f), buf') /\
      parse (take (Z.to_nat (14 + len (ef_payload f))) buf') = Some f
  else serialize f buf = Panic.
Proof.
  intros Hd Hs He.
  set (enc := ef_dest_mac f ++ ef_src_mac f ++ to_be 2 (ef_ethertype f) ++ ef_payload f).
  assert (len enc = 14 + len (ef_payload f)) as Hl by (unfold enc; len_lia).
  rewrite <- Hl. assert (emits (serialize f) 0 enc (len enc)) as Hem.
  { unfold serialize. rewrite Hl. emits_fields. }
  rewrite (emits_run _ _ _ _ Hem). destruct (_ <=? _) eqn:E; [|done]. eexists. split; [done|].
  replace (Z.to_nat (len enc)) with (length enc) by (unfold len; lia). rewrite take_app_length.
  unfold parse. rewrite Hl. rewrite if_false by (pose proof (len_nonneg (ef_payload f)); lia).
  unfold enc. destruct f as [d s t p]. unfold len in Hd, Hs. simpl in *. f_equal.
  assert (length d = 6%nat /\ length s = 6%nat) as [Hd' Hs'] by lia.
  destruct d as [|d0 [|d1 [|d2 [|d3 [|d4 [|d5 [|]]]]]]]; try (simpl in Hd'; lia).
  destruct s as [|s0 [|s1 [|s2 [|s3 [|s4 [|s5 [|]]]]]]]; try (simpl in Hs'; lia).
  simpl. f_equal. exact (from_be_u16 t He).
Qed.

Lemma derive_mac_spec_witness :
  derive_mac (map b8 [0x52; 0x11; 0x22; 0x33; 0x44]) 0x8056c2e21c000050 =
    map b8 [0x32; 0x52; 0x11; 0x3e; 0xd1; 0x86] /\
  forall b, len b = 5 -> derive_mac b 0x8056c2e21c000050 = map b8 [0x32; 0x52; 0x11; 0x3e; 0xd1; 0x86] ->
    b = map b8 [0x52; 0x11; 0x22; 0x33; 0x44].
Proof.
  assert (derive_mac (map b8 [0x52; 0x11; 0x22; 0x33; 0x44]) 0x8056c2e21c000050 =
    map b8 [0x32; 0x52; 0x11; 0x3e; 0xd1; 0x86]) as H by (vm_compute; reflexivity).
  split; [exact H|]. rewrite <- H.
  apply (derive_mac_spec (map b8 [0x52; 0x11; 0x22; 0x33; 0x44]) 0x8056c2e21c000050). reflexivity.
Defined.

Lemma frame_roundtrip_witness :
  exists buf', serialize (mkEthernetFrame (replicate 6 (b8 1)) (replicate 6 (b8 2)) ETHERTYPE_ARP [b8 7; b8 8])
      (replicate 20 (b8 0)) = Ok (16, buf') /\
    parse (take 16 buf') = Some (mkEthernetFrame (replicate 6 (b8 1)) (replicate 6 (b8 2)) ETHERTYPE_ARP [b8 7; b8 8]).
Proof.
  apply (frame_roundtrip (mkEthernetFrame (replicate 6 (b8 1)) (replicate 6 (b8 2)) ETHERTYPE_ARP [b8 7; b8 8])
    (replicate 20 (b8 0))); [reflexivity|reflexivity|done].
Defined.

End Ethernet.
