(* ===== verification/Network.v ===== *)
(** * Network: membership of a virtual network and the certificates of membership its
    members show each other (zerotier-node: network.rs). *)
From S2P Require Export Ethernet Crypto NetConfWire.

Definition COM_QUALIFIER_TIMESTAMP_ID : Z := 0.
Definition COM_REFRESH_MARGIN_CAP_MS : Z := 60000.

(** Addresses are their octets: [Ipv4Addr] 4 of them, [Ipv6Addr] 16. *)
Record NetworkMember := mkMember {
  nm_zt_address : bytes;
  nm_mac : bytes;
  nm_ipv4 : option (bytes * Z);
  nm_ipv6 : option (bytes * Z);
  nm_authorized : bool;
}.

Record Route := mkRoute { rt_target : bytes }.

Record NetworkMembership := mkMembership {
  nw_network_id : Z;
  nw_members : list NetworkMember;
  nw_our_com : option CertificateOfMembership;
  nw_peer_coms : list (bytes * CertificateOfMembership);
  nw_mtu : Z;
  nw_assigned_ipv4 : option bytes;
  nw_assigned_ipv6 : option bytes;
  nw_routes : list Route;
  nw_pending_config_request : bool;
  nw_last_config_request : Z;
  nw_last_multicast_like : Z;
  nw_last_multicast_gather : Z;
}.

Module Network.

Definition new (network_id mtu : Z) : NetworkMembership :=
  {| nw_network_id := network_id; nw_members := []; nw_our_com := None; nw_peer_coms := [];
     nw_mtu := mtu; nw_assigned_ipv4 := None; nw_assigned_ipv6 := None; nw_routes := [];
     nw_pending_config_request := false; nw_last_config_request := 0;
     nw_last_multicast_like := 0; nw_last_multicast_gather := 0 |}.

Definition has_ip (o : option (bytes * Z)) (ip : bytes) : bool :=
  match o with Some (addr, _) => bool_decide (addr = ip) | None => false end.

Definition lookup_ipv4 (n : NetworkMembership) (ip : bytes) : option NetworkMember :=
  find (fun m => has_ip (nm_ipv4 m) ip) (nw_members n).

Definition lookup_ipv6 (n : NetworkMembership) (ip : bytes) : option NetworkMember :=
  find (fun m => has_ip (nm_ipv6 m) ip) (nw_members n).

Definition lookup_mac (n : NetworkMembership) (mac : bytes) : option NetworkMember :=
  find (fun m => bool_decide (nm_mac m = mac)) (nw_members n).

Definition our_mac (n : NetworkMembership) (our_zt_address : bytes) : bytes :=
  Ethernet.derive_mac our_zt_address (nw_network_id n).

(** ** Certificates *)

Definition abs_diff (a b : Z) : Z := Z.abs (a - b).

(** The check of one of our qualifiers against the other certificate's. *)
Definition qualifier_agrees (theirs : list ComQualifier) (our_q : ComQualifier) : bool :=
  match Com.find_qualifier (q_id our_q) theirs with
  | None => false
  | Some other_q => abs_diff (q_value our_q) (q_value other_q) <=? q_max_delta our_q
  end.

Definition peer_com_agrees_with (ours theirs : CertificateOfMembership) : bool :=
  forallb (fun our_q => (q_id our_q =? 2) || qualifier_agrees (com_qualifiers theirs) our_q)
    (com_qualifiers ours).

Definition com_agrees_with (ours theirs : CertificateOfMembership) : bool :=
  forallb (qualifier_agrees (com_qualifiers theirs)) (com_qualifiers ours).

(** [sort_by_key]: stable. *)
Fixpoint insert_by_id (q : ComQualifier) (l : list ComQualifier) : list ComQualifier :=
  match l with
  | [] => [q]
  | x :: l => if q_id q <=? q_id x then q :: x :: l else x :: insert_by_id q l
  end.
Definition sort_by_id (l : list ComQualifier) : list ComQualifier := foldr insert_by_id [] l.

Definition signed_qualifier (q : ComQualifier) : bytes :=
  to_be 8 (q_id q) ++ to_be 8 (q_value q) ++ to_be 8 (q_max_delta q).

Section Com.
Context `{Prims}.

Definition com_verify_signature (com : CertificateOfMembership) (signer_verifying_key : bytes) : bool :=
  let signed_data := concat (map signed_qualifier (sort_by_id (com_qualifiers com))) in
  match verify signer_verifying_key signed_data (com_signature com) with Ok _ => true | _ => false end.

Definition verify_peer_com (n : NetworkMembership) (peer_address : bytes)
    (peer_com : CertificateOfMembership) (controller_address : bytes)
    (controller_verifying_key : option bytes) : bool :=
  match nw_our_com n with
  | None => false
  | Some our =>
      if negb (peer_com_agrees_with our peer_com) then false else
      match controller_verifying_key with
      | None => false
      | Some verifying_key =>
          bool_decide (com_signer_address peer_com = controller_address)
          && com_verify_signature peer_com verifying_key
      end
  end.
End Com.

(** ** When to renew our own certificate *)

Definition our_com_timestamp_qualifier (n : NetworkMembership) : option ComQualifier :=
  match nw_our_com n with
  | None => None
  | Some com => Com.find_qualifier COM_QUALIFIER_TIMESTAMP_ID (com_qualifiers com)
  end.

Definition refresh_margin (q : ComQualifier) : Z :=
  let m := q_max_delta q / 4 in
  if m <? 1000 then 1000 else if COM_REFRESH_MARGIN_CAP_MS <? m then COM_REFRESH_MARGIN_CAP_MS else m.

Definition our_com_refresh_margin_ms (n : NetworkMembership) : option Z :=
  refresh_margin <$> our_com_timestamp_qualifier n.

Definition our_com_refresh_due (n : NetworkMembership) (now_ms : Z) : bool :=
  match our_com_timestamp_qualifier n with
  | None => negb (is_some (nw_our_com n))
  | Some qualifier =>
      let refresh_margin := default 0 (our_com_refresh_margin_ms n) in
      let refresh_at := sat_add U64_MAX (q_value qualifier)
                          (sat_sub (q_max_delta qualifier) refresh_margin) in
      refresh_at <=? now_ms
  end.

(** ** Facts *)

Lemma insert_by_id_perm q l : insert_by_id q l ≡ₚ q :: l.
Proof.
  induction l as [|x l IH]; [done|]. simpl. destruct (_ <=? _); [done|]. rewrite IH. constructor.
Qed.

Lemma sort_by_id_perm l : sort_by_id l ≡ₚ l.
Proof. induction l as [|q l IH]; [done|]. simpl. by rewrite insert_by_id_perm, IH. Qed.

Definition id_le (a b : ComQualifier) : Prop := q_id a <= q_id b.

Lemma insert_by_id_sorted q l : StronglySorted id_le l -> StronglySorted id_le (insert_by_id q l).
Proof.
  induction 1 as [|x l Hs IH Hx]; simpl; [repeat constructor|].
  destruct (q_id q <=? q_id x) eqn:E.
  - constructor; [by constructor|]. constructor; [unfold id_le; lia|].
    eapply Forall_impl; [exact Hx|]. unfold id_le. simpl. lia.
  - constructor; [done|]. rewrite insert_by_id_perm. constructor; [unfold id_le; lia|done].
Qed.

Lemma sort_by_id_sorted l : StronglySorted id_le (sort_by_id l).
Proof. induction l; simpl; [constructor|by apply insert_by_id_sorted]. Qed.

(** With distinct ids the sorted list does not depend on the order. *)
Lemma sort_by_id_unique l1 l2 : l1 ≡ₚ l2 -> NoDup (map q_id l1) -> sort_by_id l1 = sort_by_id l2.
Proof.
  intros Hp Hn. assert (sort_by_id l1 ≡ₚ sort_by_id l2) as Hs by (by rewrite !sort_by_id_perm).
  assert (NoDup (map q_id (sort_by_id l1))) as Hn1 by (by rewrite sort_by_id_perm).
  pose proof (sort_by_id_sorted l1) as S1. pose proof (sort_by_id_sorted l2) as S2.
  revert Hs Hn1 S1 S2. generalize (sort_by_id l1) (sort_by_id l2). clear.
  induction l as [|a l IH]; intros l2 Hs Hn S1 S2; [by apply Permutation_nil_l in Hs|].
  destruct l2 as [|b l2]; [by apply symmetry, Permutation_nil_l in Hs|].
  inversion S1 as [|? ? S1' H1]; subst. inversion S2 as [|? ? S2' H2]; subst.
  inversion Hn as [|? ? Hna Hn']; subst.
  assert (a = b) as ->.
  { assert (a ∈ b :: l2) as Ha by (rewrite <- Hs; left).
    assert (b ∈ a :: l) as Hb by (rewrite Hs; left).
    apply elem_of_cons in Ha as [->|Ha]; [done|]. apply elem_of_cons in Hb as [->|Hb]; [done|].
    rewrite Forall_forall in H1, H2. specialize (H1 b Hb). specialize (H2 a Ha). unfold id_le in *.
    exfalso. apply Hna. rewrite list_elem_of_In, in_map_iff. exists b. split; [lia|by apply list_elem_of_In]. }
  f_equal. apply IH; [by eapply Permutation_cons_inv|done..].
Qed.

Lemma qualifier_agrees_spec theirs q : qualifier_agrees theirs q = true <->
  exists q', Com.find_qualifier (q_id q) theirs = Some q' /\ Z.abs (q_value q - q_value q') <= q_max_delta q.
Proof.
  unfold qualifier_agrees, abs_diff. destruct (Com.find_qualifier _ _) as [q'|]; split.
  - intros H. exists q'. split; [done|lia].
  - intros (? & [= <-] & ?). lia.
  - done.
  - by intros (? & ? & _).
Qed.

Lemma peer_com_agrees_spec ours theirs : peer_com_agrees_with ours theirs = true <->
  forall q, q ∈ com_qualifiers ours -> q_id q <> 2 ->
    exists q', Com.find_qualifier (q_id q) (com_qualifiers theirs) = Some q' /\
      Z.abs (q_value q - q_value q') <= q_max_delta q.
Proof.
  unfold peer_com_agrees_with. rewrite forallb_forall. split; intros H q Hq.
  - intros Hne. apply list_elem_of_In in Hq. specialize (H q Hq).
    apply orb_true_iff in H as [H|H]; [lia|]. by apply qualifier_agrees_spec.
  - apply list_elem_of_In in Hq. destruct (q_id q =? 2) eqn:E; [done|]. simpl.
    apply qualifier_agrees_spec. apply H; [done|lia].
Qed.

Section Theorems.
Context `{P : Prims}.

Lemma com_signature_spec com key : com_verify_signature com key = true <->
  let digest := take 32 (sha512 (concat (map signed_qualifier (sort_by_id (com_qualifiers com))))) in
  drop 64 (com_signature com) = digest /\ ed25519_verify key digest (take 64 (com_signature com)) = true.
Proof.
  unfold com_verify_signature, verify. cbv zeta.
  case_bool_decide as Hd; simpl; [|split; [done|by intros [? _]]].
  destruct (ed25519_verify _ _ _); split; try done. by intros [_ ?].
Qed.

(** C25. Which certificates of membership a member accepts from a peer: exactly those that
    agree with its own certificate on every qualifier but the address one, within that
    qualifier's tolerance, name the network's controller as their signer, and carry its
    signature over the qualifiers sorted by id; none before the own certificate or the
    controller's key is known. The order in which the qualifiers are sent does not matter,
    and neither does the peer that shows the certificate. *)
Theorem verify_peer_com_spec (n : NetworkMembership) (peer : bytes) (com : CertificateOfMembership)
    (controller : bytes) (key : option bytes) :
  (verify_peer_com n peer com controller key = true <->
   exists our k, nw_our_com n = Some our /\ key = Some k /\
     (forall q, q ∈ com_qualifiers our -> q_id q <> 2 ->
        exists q', Com.find_qualifier (q_id q) (com_qualifiers com) = Some q' /\
          Z.abs (q_value q - q_value q') <= q_max_delta q) /\
     com_signer_address com = controller /\
     let digest := take 32 (sha512 (concat (map signed_qualifier (sort_by_id (com_qualifiers com))))) in
     drop 64 (com_signature com) = digest /\ ed25519_verify k digest (take 64 (com_signature com)) = true) /\
  (forall qs, qs ≡ₚ com_qualifiers com -> NoDup (map q_id qs) ->
     com_verify_signature com (default [] key) =
     com_verify_signature {| com_issued_to := com_issued_to com; com_qualifiers := qs;
       com_signer_address := com_signer_address com; com_signature := com_signature com |} (default [] key)) /\
  (forall other, verify_peer_com n other com controller key = verify_peer_com n peer com controller key).
Proof.
  split_and!; [|intros qs Hp Hn; unfold com_verify_signature; simpl; by rewrite (sort_by_id_unique qs (com_qualifiers com))|done].
  unfold verify_peer_com. split.
  - destruct (nw_our_com n) as [our|]; [|done].
    destruct (peer_com_agrees_with our com) eqn:Ha; [|done]. simpl.
    destruct key as [k|]; [|done]. intros [Hs%bool_decide_eq_true Hv]%andb_true_iff.
    exists our, k. split; [done|]. split; [done|]. split; [by apply peer_com_agrees_spec|].
    split; [done|by apply com_signature_spec].
  - intros (our & k & -> & -> & Ha & Hs & Hv). apply peer_com_agrees_spec in Ha. rewrite Ha. simpl.
    rewrite bool_decide_true by done. by apply com_signature_spec.
Qed.

(** Renewal: a member without a certificate asks for one; with a certificate issued at
    [t] for [d] milliseconds it asks from a moment on that is not after the expiry and not
    before the last quarter of the lifetime (of the last minute, for long lifetimes; of the
    last second, for short ones), and never stops being due. *)
Theorem com_refresh_spec (n : NetworkMembership) (now : Z) :
  match nw_our_com n, our_com_timestamp_qualifier n with
  | None, _ => our_com_refresh_due n now = true
  | Some _, None => our_com_refresh_due n now = false
  | Some _, Some q =>
      u64_ok (q_value q) -> 0 <= q_max_delta q -> q_value q + q_max_delta q <= U64_MAX ->
      exists due, (our_com_refresh_due n now = true <-> due <= now) /\
        due <= q_value q + q_max_delta q /\ q_value q <= due /\
        q_value q + q_max_delta q - Z.max 1000 (Z.min 60000 (q_max_delta q / 4)) <= due
  end.
Proof.
  unfold our_com_refresh_due, our_com_refresh_margin_ms.
  destruct (nw_our_com n) as [com|] eqn:Ec;
    [|unfold our_com_timestamp_qualifier; by rewrite Ec].
  destruct (our_com_timestamp_qualifier n) as [q|]; [|done]. simpl.
  intros Hv Hd Hs. unfold u64_ok, U64_MAX, refresh_margin, COM_REFRESH_MARGIN_CAP_MS, sat_add, sat_sub in *.
  eexists. split; [apply Z.leb_le|]. repeat case_match; lia.
Qed.

End Theorems.

(** A certificate for member 12 34 56 78 9a of network 5, signed by the controller. *)
Definition sample_qualifiers : list ComQualifier :=
  [mkComQualifier 0 1000000 7200000; mkComQualifier 1 5 0; mkComQualifier 2 0x123456789a U64_MAX].
Definition sample_key : bytes := replicate 32 (b8 7).
Definition sample_com (qs : list ComQualifier) : CertificateOfMembership :=
  {| com_issued_to := map b8 [0x12; 0x34; 0x56; 0x78; 0x9a]; com_qualifiers := qs;
     com_signer_address := map b8 [1; 2; 3; 4; 5];
     com_signature := @sign Toy.prims sample_key (concat (map signed_qualifier (sort_by_id qs))) |}.
Definition sample_membership : NetworkMembership :=
  {| nw_network_id := 5;
     nw_members := [mkMember (map b8 [0x12; 0x34; 0x56; 0x78; 0x9a]) (map b8 [2; 0; 0; 0; 0; 1])
       (Some (map b8 [10; 0; 0; 9], 24)) (Some (map b8 (seqZ 0 16), 64)) true];
     nw_our_com := Some (sample_com sample_qualifiers); nw_peer_coms := []; nw_mtu := 2800;
     nw_assigned_ipv4 := None; nw_assigned_ipv6 := None; nw_routes := [];
     nw_pending_config_request := false; nw_last_config_request := 0;
     nw_last_multicast_like := 0; nw_last_multicast_gather := 0 |}.

Definition sample_peer_qualifiers : list ComQualifier :=
  [mkComQualifier 1 5 0; mkComQualifier 2 0x99 U64_MAX; mkComQualifier 0 1000500 7200000].

Lemma verify_peer_com_spec_witness :
  @verify_peer_com Toy.prims sample_membership (map b8 [9; 9; 9; 9; 9]) (sample_com sample_peer_qualifiers)
    (map b8 [1; 2; 3; 4; 5]) (Some sample_key) = true /\
  @com_verify_signature Toy.prims (sample_com sample_peer_qualifiers) sample_key =
  @com_verify_signature Toy.prims
    {| com_issued_to := com_issued_to (sample_com sample_peer_qualifiers);
       com_qualifiers := reverse sample_peer_qualifiers;
       com_signer_address := com_signer_address (sample_com sample_peer_qualifiers);
       com_signature := com_signature (sample_com sample_peer_qualifiers) |} sample_key.
Proof.
  destruct (@verify_peer_com_spec Toy.prims sample_membership (map b8 [9; 9; 9; 9; 9])
    (sample_com sample_peer_qualifiers) (map b8 [1; 2; 3; 4; 5]) (Some sample_key)) as (Hv & Hp & _).
  split; [vm_compute; reflexivity|]. apply Hp; [by rewrite reverse_Permutation|].
  apply (bool_decide_unpack _). vm_compute. exact I.
Defined.

Lemma com_refresh_spec_witness :
  exists due, (our_com_refresh_due sample_membership 8150000 = true <-> due <= 8150000) /\
    due <= 1000000 + 7200000 /\ 1000000 <= due /\ 1000000 + 7200000 - Z.max 1000 (Z.min 60000 (7200000 / 4)) <= due.
Proof.
  apply (com_refresh_spec sample_membership 8150000); [split|..]; vm_compute; discriminate.
Defined.

End Network.
