(* ===== verification/Neighbor.v ===== *)
(** * Neighbor: address resolution answered locally, for IPv4 (zerotier-node: arp.rs) and
    IPv6 (zerotier-node: ndp.rs). *)
From S2P Require Export Network.

(** ** arp.rs *)

Definition ARP_OP_REQUEST : Z := 1.
Definition ARP_OP_REPLY : Z := 2.

Record ArpPacket := mkArp {
  arp_hw_type : Z;
  arp_proto_type : Z;
  arp_hw_len : byte;
  arp_proto_len : byte;
  arp_operation : Z;
  arp_sender_hw : bytes;      (* [u8; 6] *)
  arp_sender_proto : bytes;   (* [u8; 4] *)
  arp_target_hw : bytes;      (* [u8; 6] *)
  arp_target_proto : bytes;   (* [u8; 4] *)
}.

#[export] Instance ArpPacket_eq_dec : EqDecision ArpPacket.
Proof. solve_decision. Defined.

Module Arp.

(** [None] of the source is [Err tt]. *)
Definition parse (data : bytes) : res unit ArpPacket :=
  if len data <? 28 then Err tt else
  let* hw_type := be_at 2 data 0 in
  let* proto_type := be_at 2 data 2 in
  let* hw_len := get data 4 in
  let* proto_len := get data 5 in
  if negb (hw_type =? 0x0001) || negb (proto_type =? 0x0800) || negb (u8 hw_len =? 6)
     || negb (u8 proto_len =? 4) then Err tt else
  let* operation := be_at 2 data 6 in
  let* sender_hw := array_at 6 data 8 14 in
  let* sender_proto := array_at 4 data 14 18 in
  let* target_hw := array_at 6 data 18 24 in
  let* target_proto := array_at 4 data 24 28 in
  Ok (mkArp hw_type proto_type hw_len proto_len operation sender_hw sender_proto target_hw target_proto).

Definition serialize (p : ArpPacket) : W Z :=
  put 0 2 (to_be 2 (arp_hw_type p));*
  put 2 4 (to_be 2 (arp_proto_type p));*
  set 4 (arp_hw_len p);*
  set 5 (arp_proto_len p);*
  put 6 8 (to_be 2 (arp_operation p));*
  put 8 14 (arp_sender_hw p);*
  put 14 18 (arp_sender_proto p);*
  put 18 24 (arp_target_hw p);*
  put 24 28 (arp_target_proto p);*
  wret 28.

Definition handle_arp_request (arp : ArpPacket) (membership : NetworkMembership) : option ArpPacket :=
  if negb (arp_operation arp =? ARP_OP_REQUEST) then None else
  match Network.lookup_ipv4 membership (arp_target_proto arp) with
  | None => None
  | Some member =>
      Some {| arp_hw_type := 0x0001; arp_proto_type := 0x0800; arp_hw_len := b8 6; arp_proto_len := b8 4;
              arp_operation := ARP_OP_REPLY; arp_sender_hw := nm_mac member;
              arp_sender_proto := arp_target_proto arp; arp_target_hw := arp_sender_hw arp;
              arp_target_proto := arp_sender_proto arp |}
  end.

(** What the Rust type guarantees, and IPv4 over Ethernet. *)
Definition wf (p : ArpPacket) : Prop :=
  arp_hw_type p = 1 /\ arp_proto_type p = 0x0800 /\ arp_hw_len p = b8 6 /\ arp_proto_len p = b8 4 /\
  u16_ok (arp_operation p) /\ len (arp_sender_hw p) = 6 /\ len (arp_sender_proto p) = 4 /\
  len (arp_target_hw p) = 6 /\ len (arp_target_proto p) = 4.

Definition encode (p : ArpPacket) : bytes :=
  to_be 2 (arp_hw_type p) ++ to_be 2 (arp_proto_type p) ++ [arp_hw_len p] ++ [arp_proto_len p] ++
  to_be 2 (arp_operation p) ++ arp_sender_hw p ++ arp_sender_proto p ++ arp_target_hw p ++
  arp_target_proto p.

Lemma arp_serialize_emits p : wf p -> emits (serialize p) 0 (encode p) 28.
Proof. intros (_ & _ & _ & _ & _ & H1 & H2 & H3 & H4). unfold serialize, encode. emits_fields. Qed.

Lemma arp_parse_total d : safe (parse d) wf.
Proof.
  unfold parse. destruct (len d <? 28) eqn:E; [done|]. wp_reads.
  bools. split_and!; simpl; try done; try lia; apply u8_inj;
    change (u8 (b8 6)) with 6; change (u8 (b8 4)) with 4; lia.
Qed.

Lemma arp_parse_encode p tl : wf p -> parse (encode p ++ tl) = Ok p.
Proof.
  intros (Ht & Hp & Hl & Hm & Ho & H1 & H2 & H3 & H4). unfold parse, encode.
  rewrite <- !app_assoc. rewrite if_false by len_lia. read_fields.
  rewrite !from_be_u16, Ht, Hp, Hl, Hm by (rewrite ?Ht, ?Hp; done). simpl negb. simpl orb. cbv iota.
  destruct p; simpl in *. by subst.
Qed.

(** The hardware addresses of the member table are MAC addresses. *)
Definition macs_ok (n : NetworkMembership) : Prop := Forall (fun m => len (nm_mac m) = 6) (nw_members n).

Lemma lookup_ipv4_spec n ip m : Network.lookup_ipv4 n ip = Some m ->
  m ∈ nw_members n /\ exists prefix, nm_ipv4 m = Some (ip, prefix).
Proof.
  intros [Hm Hi]%find_Some. split; [done|]. unfold Network.has_ip in Hi.
  destruct (nm_ipv4 m) as [[a k]|]; [|done]. apply bool_decide_eq_true in Hi as ->. eauto.
Qed.

Lemma lookup_ipv6_spec n ip m : Network.lookup_ipv6 n ip = Some m ->
  m ∈ nw_members n /\ exists prefix, nm_ipv6 m = Some (ip, prefix).
Proof.
  intros [Hm Hi]%find_Some. split; [done|]. unfold Network.has_ip in Hi.
  destruct (nm_ipv6 m) as [[a k]|]; [|done]. apply bool_decide_eq_true in Hi as ->. eauto.
Qed.

(** ARP on the virtual network: any bytes parse to a well-formed IPv4-over-Ethernet
    packet or are refused; a request for a member's address is answered with that member's
    MAC, addressed back to the asker, in a 28-byte packet that parses to itself; nothing
    else is answered. *)
Theorem arp_spec (data : bytes) (n : NetworkMembership) :
  macs_ok n ->
  match parse data with
  | Ok arp =>
      wf arp /\
      match handle_arp_request arp n with
      | Some r =>
          exists member prefix w, member ∈ nw_members n /\
            nm_ipv4 member = Some (arp_target_proto arp, prefix) /\ arp_operation arp = ARP_OP_REQUEST /\
            arp_operation r = ARP_OP_REPLY /\ arp_sender_hw r = nm_mac member /\
            arp_sender_proto r = arp_target_proto arp /\ arp_target_hw r = arp_sender_hw arp /\
            arp_target_proto r = arp_sender_proto arp /\
            serialize r (replicate 28 "000"%byte) = Ok (28, w) /\ len w = 28 /\ parse w = Ok r
      | None =>
          arp_operation arp <> ARP_OP_REQUEST \/
          forall member prefix, member ∈ nw_members n -> nm_ipv4 member <> Some (arp_target_proto arp, prefix)
      end
  | Err _ => forall arp tl, wf arp -> data <> encode arp ++ tl
  | _ => False
  end.
Proof.
  intros Hmacs. pose proof (arp_parse_total data) as Ht.
  destruct (parse data) as [arp|e| |] eqn:Hp; simpl in Ht; try done.
  2:{ intros arp tl Hw ->. by rewrite arp_parse_encode in Hp. }
  split; [done|]. destruct Ht as (_ & _ & _ & _ & _ & H1 & H2 & H3 & H4).
  unfold handle_arp_request. destruct (arp_operation arp =? ARP_OP_REQUEST) eqn:Eo; simpl; [|left; lia].
  destruct (Network.lookup_ipv4 n (arp_target_proto arp)) as [m|] eqn:Em.
  - destruct (lookup_ipv4_spec _ _ _ Em) as (Hm & prefix & Hip).
    set (r := mkArp _ _ _ _ _ _ _ _ _).
    assert (wf r) as Hr.
    { unfold macs_ok in Hmacs. rewrite Forall_forall in Hmacs. specialize (Hmacs m Hm). by split_and!. }
    pose proof (arp_serialize_emits r Hr) as Hem.
    assert (len (encode r) = 28) as Hl by (destruct Hr as (_ & _ & _ & _ & _ & ? & ? & ? & ?); unfold encode; len_lia).
    exists m, prefix, (encode r). split_and!; try done; [lia| |by rewrite <- (app_nil_r (encode r)), arp_parse_encode].
    rewrite (emits_ok _ _ _ _ Hem) by (rewrite Hl; done).
    replace (length (encode r)) with 28%nat by (unfold len in Hl; lia). by rewrite drop_ge, app_nil_r.
  - right. intros m prefix Hm Hip. unfold Network.lookup_ipv4 in Em.
    pose proof (proj1 (find_None _ _) Em m Hm) as Hf. unfold Network.has_ip in Hf. rewrite Hip in Hf.
    by apply bool_decide_eq_false in Hf.
Qed.

Lemma sample_macs : macs_ok Network.sample_membership.
Proof. repeat constructor. Qed.

(** A request for 10.0.0.9 on the sample network. *)
Definition sample_request : bytes :=
  encode (mkArp 1 0x0800 (b8 6) (b8 4) ARP_OP_REQUEST (replicate 6 (b8 0xaa)) (map b8 [10; 0; 0; 1])
            (replicate 6 (b8 0)) (map b8 [10; 0; 0; 9])).

Lemma arp_spec_witness :
  exists arp r, parse sample_request = Ok arp /\ handle_arp_request arp Network.sample_membership = Some r /\
    arp_sender_hw r = map b8 [2; 0; 0; 0; 0; 1] /\
    exists w, serialize r (replicate 28 "000"%byte) = Ok (28, w) /\ parse w = Ok r.
Proof.
  pose proof (arp_spec sample_request Network.sample_membership sample_macs) as H.
  destruct (parse sample_request) as [arp|e| |] eqn:Hp; [|vm_compute in Hp; discriminate..].
  destruct H as [_ H]. exists arp.
  assert (exists r, handle_arp_request arp Network.sample_membership = Some r /\
    arp_sender_hw r = map b8 [2; 0; 0; 0; 0; 1]) as (r & Hr & Hmac).
  { vm_compute in Hp. injection Hp as <-. eexists. split; vm_compute; reflexivity. }
  rewrite Hr in H. destruct H as (_ & _ & w & _ & _ & _ & _ & _ & _ & _ & _ & Hw & _ & Hpw).
  exists r. split; [reflexivity|]. split; [exact Hr|]. split; [exact Hmac|]. exists w. split; [exact Hw|exact Hpw].
Defined.

End Arp.

(** ** ndp.rs *)

Definition ICMPV6_RS : Z := 133.
Definition ICMPV6_RA : Z := 134.
Definition ICMPV6_NS : Z := 135.
Definition ICMPV6_NA : Z := 136.
Definition ICMPV6_REDIRECT : Z := 137.
Definition IPV6_NEXT_HEADER_ICMPV6 : Z := 58.

Inductive NdpAction : Type :=
  | Reply (body : bytes)
  | Ignore.

Module Ndp.

(** [sum += x] on a [u32]. *)
Definition add32 (sum x : Z) : Z := wrap 32 (sum + x).

(** Add the 16-bit words of an address or body; an odd last byte is the high half of a
    word. *)
Fixpoint add_words (sum : Z) (data : bytes) : Z :=
  match data with
  | a :: b :: data => add_words (add32 sum (from_be [a; b])) data
  | [a] => add32 sum (Z.shiftl (u8 a) 8)
  | [] => sum
  end.

(** [while sum >> 16 != 0 { sum = (sum & 0xFFFF) + (sum >> 16) }]: a 32-bit sum needs two
    turns ([fold_carries_spec]). *)
Fixpoint fold_carries (fuel : nat) (sum : Z) : Z :=
  if Z.shiftr sum 16 =? 0 then sum else
  match fuel with
  | O => sum
  | S fuel => fold_carries fuel (Z.land sum 0xFFFF + Z.shiftr sum 16)
  end.

Definition icmpv6_checksum (src dst icmpv6_body : bytes) : Z :=
  let sum := add_words 0 src in
  let sum := add_words sum dst in
  let ln := wrap 32 (len icmpv6_body) in
  let sum := add32 sum (Z.shiftr ln 16) in
  let sum := add32 sum (Z.land ln 0xFFFF) in
  let sum := add32 sum IPV6_NEXT_HEADER_ICMPV6 in
  let sum := add_words sum icmpv6_body in
  U16_MAX - wrap 16 (fold_carries 2 sum).

(** [buf\[2\] = checksum >> 8; buf\[3\] = checksum & 0xFF]. *)
Definition set_checksum (checksum : Z) (buf : bytes) : bytes :=
  <[3%nat := b8 (Z.land checksum 0xFF)]> (<[2%nat := b8 (Z.shiftr checksum 8)]> buf).

Definition na_body (target_ip target_mac : bytes) (solicited override_flag : bool) : bytes :=
  let flags := 0 in
  let flags := if solicited then Z.lor flags 0x40 else flags in
  let flags := if override_flag then Z.lor flags 0x20 else flags in
  [b8 ICMPV6_NA; b8 0; b8 0; b8 0; b8 flags; b8 0; b8 0; b8 0] ++ target_ip ++ [b8 2; b8 1] ++ target_mac.

Definition build_na (target_ip target_mac : bytes) (solicited override_flag : bool)
    (src_ip dst_ip : bytes) : bytes :=
  let buf := na_body target_ip target_mac solicited override_flag in
  set_checksum (icmpv6_checksum src_ip dst_ip buf) buf.

Definition ra_body (prefix : bytes) (prefix_len : byte) : bytes :=
  [b8 ICMPV6_RA; b8 0; b8 0; b8 0; b8 64; b8 0] ++ to_be 2 1800 ++ to_be 4 0 ++ to_be 4 0 ++
  [b8 3; b8 4; prefix_len; b8 0xC0] ++ to_be 4 86400 ++ to_be 4 14400 ++ to_be 4 0 ++ prefix.

Definition build_ra (our_ip dst_ip prefix : bytes) (prefix_len : byte) : bytes :=
  let buf := ra_body prefix prefix_len in
  set_checksum (icmpv6_checksum our_ip dst_ip buf) buf.

Definition all_nodes : bytes := map b8 [0xff; 0x02] ++ replicate 13 (b8 0) ++ [b8 1].
Definition router_ip : bytes := map b8 [0xfe; 0x80] ++ replicate 13 (b8 0) ++ [b8 1].

Definition handle_ns (icmpv6_body src_ip : bytes) (membership : NetworkMembership) : NdpAction :=
  if len icmpv6_body <? 24 then Ignore else
  let target_bytes := take 16 (drop 8 icmpv6_body) in
  match Network.lookup_ipv6 membership target_bytes with
  | None => Ignore
  | Some member =>
      let is_dad := bool_decide (src_ip = replicate 16 (b8 0)) in
      let solicited := negb is_dad in
      let reply_dst := if is_dad then all_nodes else src_ip in
      Reply (build_na target_bytes (nm_mac member) solicited true target_bytes reply_dst)
  end.

Definition handle_rs (our_ipv6_prefix : option (bytes * byte)) : NdpAction :=
  match our_ipv6_prefix with
  | None => Ignore
  | Some (prefix_addr, prefix_len) => Reply (build_ra router_ip all_nodes prefix_addr prefix_len)
  end.

Definition handle_ndp (icmpv6_body src_ip : bytes) (membership : NetworkMembership)
    (our_ipv6_prefix : option (bytes * byte)) : NdpAction :=
  match icmpv6_body with
  | [] => Ignore
  | icmp_type :: _ =>
      if u8 icmp_type =? ICMPV6_NS then handle_ns icmpv6_body src_ip membership
      else if u8 icmp_type =? ICMPV6_RS then handle_rs our_ipv6_prefix
      else Ignore
  end.

(** ** One's complement arithmetic *)

(** The unbounded sum of the words. *)
Fixpoint words (data : bytes) : Z :=
  match data with
  | a :: b :: data => from_be [a; b] + words data
  | [a] => 256 * u8 a
  | [] => 0
  end.

Lemma pair_ind (Q : bytes -> Prop) :
  Q [] -> (forall a, Q [a]) -> (forall a b l, Q l -> Q (a :: b :: l)) -> forall l, Q l.
Proof.
  intros H0 H1 H2. fix IH 1. intros [|a [|b l]]; [exact H0|apply H1|apply H2, IH].
Qed.

Lemma from_be_pair a b : from_be [a; b] = 256 * u8 a + u8 b.
Proof. unfold from_be. simpl. lia. Qed.

Lemma words_bound l : 0 <= words l <= 65535 * len l.
Proof.
  unfold len. induction l as [|a|a b l IH] using pair_ind; cbn [words length]; [done|..].
  - pose proof (u8_range a). lia.
  - rewrite from_be_pair. pose proof (u8_range a). pose proof (u8_range b). lia.
Qed.

Lemma add_words_sum s l : 0 <= s -> s + words l < 2 ^ 32 -> add_words s l = s + words l.
Proof.
  revert s. induction l as [|a|a b l IH] using pair_ind; intros s Hs Hl; cbn [words add_words] in *; [lia|..].
  - unfold add32, wrap. rewrite Z.shiftl_mul_pow2 by lia. change (2 ^ 8) with 256.
    pose proof (u8_range a). rewrite Z.mod_small; lia.
  - pose proof (words_bound l). pose proof (len_nonneg l).
    rewrite from_be_pair in *. pose proof (u8_range a). pose proof (u8_range b).
    assert (add32 s (256 * u8 a + u8 b) = s + (256 * u8 a + u8 b)) as Ha
      by (unfold add32, wrap; apply Z.mod_small; lia).
    rewrite Ha, IH; lia.
Qed.

Lemma fold_carries_step n s : 0 <= s ->
  fold_carries n s =
  if s / 65536 =? 0 then s
  else match n with O => s | S n => fold_carries n (s - 65535 * (s / 65536)) end.
Proof.
  intros Hs. assert (Z.land s 0xFFFF + Z.shiftr s 16 = s - 65535 * (s / 65536)) as Hstep.
  { change (Z.land s 0xFFFF) with (Z.land s (Z.ones 16)). rewrite Z.land_ones, Z.shiftr_div_pow2 by lia.
    change (2 ^ 16) with 65536. div_lia. }
  destruct n; cbn [fold_carries]; rewrite ?Hstep, Z.shiftr_div_pow2 by lia; done.
Qed.

Lemma fold_carries_spec s : 0 <= s < 2 ^ 32 ->
  0 <= fold_carries 2 s <= 65535 /\ (exists k, s = fold_carries 2 s + 65535 * k) /\
  (0 < s -> 0 < fold_carries 2 s).
Proof.
  intros Hs. set (q := s / 65536).
  assert (0 <= q < 65536 /\ 65536 * q <= s < 65536 * q + 65536) as [Hq Hsq] by (unfold q; div_lia).
  rewrite fold_carries_step by lia. fold q.
  destruct (q =? 0) eqn:E0; [split; [lia|split; [exists 0; lia|lia]]|].
  set (s1 := s - 65535 * q). assert (0 < s1 < 2 * 65536 - 1) as Hs1 by (unfold s1; lia).
  rewrite fold_carries_step by lia. set (q1 := s1 / 65536).
  assert (0 <= q1 <= 1 /\ 65536 * q1 <= s1 < 65536 * q1 + 65536) as [Hq1 Hsq1]
    by (clearbody s1; unfold q1; div_lia).
  destruct (q1 =? 0) eqn:E1; [split; [lia|split; [exists q; lia|lia]]|].
  rewrite fold_carries_step by lia.
  set (s2 := s1 - 65535 * q1). assert (0 < s2 <= 65535) as Hs2 by (unfold s2; lia).
  assert ((if s2 / 65536 =? 0 then s2 else s2) = s2) as -> by (by case_match).
  split; [lia|split; [exists (q + q1); unfold s2, s1; lia|lia]].
Qed.

(** Everything but the body's own words. *)
Definition pseudo_sum (src dst : bytes) (ln : Z) : Z :=
  words src + words dst + ln / 65536 + ln mod 65536 + IPV6_NEXT_HEADER_ICMPV6.

Lemma checksum_sum src dst body : len src = 16 -> len dst = 16 -> len body <= 32768 ->
  let s := pseudo_sum src dst (len body) + words body in
  icmpv6_checksum src dst body = 65535 - fold_carries 2 s /\ 0 < s < 2 ^ 32.
Proof.
  intros Hs Hd Hb s. pose proof (words_bound src). pose proof (words_bound dst). pose proof (words_bound body).
  pose proof (len_nonneg body).
  assert (0 <= len body / 65536 <= 1 /\ 0 <= len body mod 65536 <= 65535) as [Hh Hm] by (split; div_lia).
  assert (0 < s < 2 ^ 32) as Hrange by (unfold s, pseudo_sum, IPV6_NEXT_HEADER_ICMPV6; lia).
  split; [|done]. unfold icmpv6_checksum. cbv zeta.
  assert (wrap 32 (len body) = len body) as -> by (unfold wrap; apply Z.mod_small; lia).
  change 0xFFFF with (Z.ones 16). rewrite Z.land_ones, Z.shiftr_div_pow2 by lia. change (2 ^ 16) with 65536.
  rewrite (add_words_sum 0 src), (add_words_sum _ dst) by lia.
  assert (forall a b, 0 <= a -> 0 <= b -> a + b < 2 ^ 32 -> add32 a b = a + b) as Hadd
    by (intros; unfold add32, wrap; apply Z.mod_small; lia).
  unfold IPV6_NEXT_HEADER_ICMPV6 in *. do 3 (rewrite (Hadd (_ + _)) by lia).
  rewrite add_words_sum by lia.
  match goal with |- context [fold_carries 2 ?x] => replace x with s by (unfold s, pseudo_sum, IPV6_NEXT_HEADER_ICMPV6; lia) end.
  destruct (fold_carries_spec s) as (Hf & _ & _); [lia|].
  unfold wrap, U16_MAX. rewrite (Z.mod_small (fold_carries 2 s)) by lia. done.
Qed.

Lemma words_set_checksum c a b x y l : 0 <= c <= 65535 ->
  words (set_checksum c (a :: b :: x :: y :: l)) = words (a :: b :: x :: y :: l) - from_be [x; y] + c.
Proof.
  intros Hc. unfold set_checksum. cbn [list_insert insert words]. simpl insert. cbn [words].
  rewrite !from_be_pair, !u8_b8. change 0xFF with (Z.ones 8). rewrite Z.land_ones, Z.shiftr_div_pow2 by lia.
  change (2 ^ 8) with 256. div_lia.
Qed.

Lemma len_set_checksum c l : len (set_checksum c l) = len l.
Proof. unfold set_checksum, len. by rewrite !length_insert. Qed.

(** A body with a zero checksum field, once checksummed, checks. *)
Lemma checksum_verifies src dst a b l :
  len src = 16 -> len dst = 16 -> len l <= 32764 ->
  let buf := a :: b :: "000"%byte :: "000"%byte :: l in
  icmpv6_checksum src dst (set_checksum (icmpv6_checksum src dst buf) buf) = 0.
Proof.
  intros Hs Hd Hl buf.
  assert (len buf = 4 + len l) as Hb by (unfold buf; rewrite !len_cons; lia).
  destruct (checksum_sum src dst buf Hs Hd ltac:(lia)) as [-> Hr].
  set (s := pseudo_sum src dst (len buf) + words buf) in *.
  destruct (fold_carries_spec s) as (Hf & [k Hk] & Hp); [lia|]. specialize (Hp ltac:(lia)).
  set (c := 65535 - fold_carries 2 s). assert (0 <= c < 65535) as Hc by (unfold c; lia).
  assert (len (set_checksum c buf) = len buf) as Hlen by apply len_set_checksum.
  destruct (checksum_sum src dst (set_checksum c buf) Hs Hd ltac:(lia)) as [-> Hr2]. rewrite Hlen in Hr2 |- *.
  unfold buf in Hr2 |- * at 2. rewrite words_set_checksum in Hr2 |- * by lia. fold buf in Hr2 |- *.
  change (from_be [_; _]) with 0 in Hr2 |- *. rewrite Z.sub_0_r, Z.add_assoc in Hr2 |- *. fold s in Hr2 |- *.
  destruct (fold_carries_spec (s + c)) as (Hf2 & [k2 Hk2] & Hp2); [lia|]. specialize (Hp2 ltac:(lia)).
  unfold c in *. assert (s + (65535 - fold_carries 2 s) = 65535 * (k + 1)) by lia. lia.
Qed.

Lemma na_checks ip mac sol ov src dst :
  len ip = 16 -> len mac = 6 -> len src = 16 -> len dst = 16 ->
  let r := build_na ip mac sol ov src dst in
  icmpv6_checksum src dst r = 0 /\ len r = 32 /\ take 2 r = [b8 ICMPV6_NA; b8 0] /\
  drop 4 r = [b8 ((if sol then 0x40 else 0) + (if ov then 0x20 else 0)); b8 0; b8 0; b8 0] ++
    ip ++ [b8 2; b8 1] ++ mac.
Proof.
  intros Hi Hm Hs Hd. unfold build_na. cbv zeta.
  unfold na_body. cbv zeta. split; [|split; [|split]].
  - simpl app. apply checksum_verifies; [done|done|]. len_lia.
  - rewrite len_set_checksum. len_lia.
  - done.
  - by destruct sol, ov.
Qed.

Lemma ra_checks prefix plen src dst :
  len prefix = 16 -> len src = 16 -> len dst = 16 ->
  let r := build_ra src dst prefix plen in
  icmpv6_checksum src dst r = 0 /\ len r = 48 /\ take 2 r = [b8 ICMPV6_RA; b8 0] /\ drop 32 r = prefix.
Proof.
  intros Hp Hs Hd. unfold build_ra, ra_body. cbv zeta. split; [|split; [|split]].
  - simpl app. apply checksum_verifies; [done|done|]. len_lia.
  - rewrite len_set_checksum. len_lia.
  - done.
  - done.
Qed.

(** IPv6 neighbour discovery: a neighbour solicitation for a member's address is
    answered with a 32-byte advertisement of that member's MAC (solicited unless the asker is
    probing for duplicates, which is answered to all nodes), a router solicitation with a
    48-byte advertisement of the configured prefix; every answer has a checksum its receiver
    accepts, and nothing else is answered. *)
Theorem handle_ndp_spec (body src : bytes) (n : NetworkMembership) (prefix : option (bytes * byte)) :
  len src = 16 -> Arp.macs_ok n ->
  match prefix with Some (p, _) => len p = 16 | None => True end ->
  let typ := u8 (byte_at body 0) in
  let target := take 16 (drop 8 body) in
  match handle_ndp body src n prefix with
  | Reply r =>
      (exists member plen, typ = ICMPV6_NS /\ 24 <= len body /\
         member ∈ nw_members n /\ nm_ipv6 member = Some (target, plen) /\ len r = 32 /\
         let dad := bool_decide (src = replicate 16 (b8 0)) in
         take 2 r = [b8 ICMPV6_NA; b8 0] /\
         drop 4 r = [b8 (if dad then 0x20 else 0x60); b8 0; b8 0; b8 0] ++ target ++ [b8 2; b8 1] ++ nm_mac member /\
         icmpv6_checksum target (if dad then all_nodes else src) r = 0) \/
      (exists p plen, typ = ICMPV6_RS /\ prefix = Some (p, plen) /\ len r = 48 /\
         take 2 r = [b8 ICMPV6_RA; b8 0] /\ drop 32 r = p /\ icmpv6_checksum router_ip all_nodes r = 0)
  | Ignore =>
      body = [] \/ (typ <> ICMPV6_NS /\ typ <> ICMPV6_RS) \/ (typ = ICMPV6_RS /\ prefix = None) \/
      (typ = ICMPV6_NS /\ (len body < 24 \/
         forall member plen, member ∈ nw_members n -> nm_ipv6 member <> Some (target, plen)))
  end.
Proof.
  intros Hs Hmacs Hpre. cbv zeta. unfold handle_ndp. destruct body as [|b body]; [by left|].
  change (byte_at (b :: body) 0) with b. set (bs := b :: body). set (target := take 16 (drop 8 bs)).
  destruct (u8 b =? ICMPV6_NS) eqn:E1; [|destruct (u8 b =? ICMPV6_RS) eqn:E2].
  - unfold handle_ns. fold target. destruct (len bs <? 24) eqn:El.
    { right; right; right. split; [lia|left; lia]. }
    destruct (Network.lookup_ipv6 n target) as [m|] eqn:Em.
    + destruct (Arp.lookup_ipv6_spec _ _ _ Em) as (Hm & plen & Hip). left. exists m, plen.
      assert (len (nm_mac m) = 6) as Hmac by (unfold Arp.macs_ok in Hmacs; rewrite Forall_forall in Hmacs; auto).
      assert (len target = 16) as Ht by (unfold target; len_lia).
      set (dad := bool_decide _).
      destruct (na_checks target (nm_mac m) (negb dad) true target (if dad then all_nodes else src))
        as (Hc & Hl & Ht2 & Hd4); [done|done|done|by destruct dad|].
      split; [lia|]. split; [lia|]. do 3 (split; [done|]). split; [done|]. split; [|done].
      rewrite Hd4. by destruct dad.
    + right; right; right. split; [lia|right]. intros m plen Hm Hip. unfold Network.lookup_ipv6 in Em.
      pose proof (proj1 (find_None _ _) Em m Hm) as Hf. unfold Network.has_ip in Hf. rewrite Hip in Hf.
      by apply bool_decide_eq_false in Hf.
  - unfold handle_rs. destruct prefix as [[p plen]|]; [|right; right; left; split; [lia|done]].
    right. exists p, plen. destruct (ra_checks p plen router_ip all_nodes) as (Hc & Hl & Ht2 & Hd); try done.
    split; [lia|]. auto.
  - right; left. lia.
Qed.

(** A solicitation for the sample member's IPv6 address. *)
Definition sample_solicitation : bytes :=
  map b8 [135; 0; 0; 0; 0; 0; 0; 0] ++ map b8 (seqZ 0 16) ++ map b8 [1; 1; 2; 0; 0; 0; 0; 7].

Lemma handle_ndp_spec_witness :
  exists r, handle_ndp sample_solicitation (map b8 (seqZ 64 16)) Network.sample_membership None = Reply r /\
    len r = 32 /\ icmpv6_checksum (map b8 (seqZ 0 16)) (map b8 (seqZ 64 16)) r = 0.
Proof.
  pose proof (handle_ndp_spec sample_solicitation (map b8 (seqZ 64 16)) Network.sample_membership None
    eq_refl Arp.sample_macs I) as H. cbv zeta in H.
  destruct (handle_ndp _ _ _ _) as [r|] eqn:E; [|vm_compute in E; discriminate].
  exists r. split; [reflexivity|].
  destruct H as [(m & plen & _ & _ & _ & _ & Hl & _ & _ & Hc)|(p & plen & _ & Hp & _)]; [|discriminate Hp].
  split; [exact Hl|exact Hc].
Defined.

End Ndp.
