(* ===== verification/Multicast.v ===== *)
(** * Multicast: who is subscribed to which multicast group (zerotier-node: multicast.rs,
    and the subscription handling of vl2.rs). *)
From S2P Require Export Ethernet MulticastWire.

Record MulticastGroupKey := mkKey { k_network_id : Z; k_mac : bytes; k_adi : Z }.

#[export] Instance MulticastGroupKey_eq_dec : EqDecision MulticastGroupKey.
Proof. solve_decision. Defined.

(** A subscriber and the time of its last announcement. *)
Abbreviation Subscriber := (bytes * Z)%type.

Record MulticastManager := mkManager { subscriptions : list (MulticastGroupKey * list Subscriber) }.

(** ** Association lists *)

Module Assoc.
Section Assoc.
Context {K A : Type} `{EqDecision K}.

Definition has_key (k : K) (x : K * A) : bool := bool_decide (x.1 = k).

(** [iter().find(|(k, _)| k == key)]. *)
Definition lookup (k : K) (l : list (K * A)) : option A := snd <$> find (has_key k) l.

(** Find the entry of [k], creating it from [d], and update it. *)
Definition upsert (k : K) (d : A) (f : A -> A) (l : list (K * A)) : list (K * A) :=
  if existsb (has_key k) l then update_first (has_key k) (fun x => (x.1, f x.2)) l else l ++ [(k, f d)].

Definition keys (l : list (K * A)) : list K := map fst l.

Lemma lookup_elem k l a : lookup k l = Some a -> (k, a) ∈ l.
Proof.
  unfold lookup. destruct (find _ l) as [[k' a']|] eqn:E; [|done]. simpl. intros [= <-].
  apply find_Some in E as [Hin Hk]. unfold has_key in Hk. by apply bool_decide_eq_true in Hk as <-.
Qed.

Lemma lookup_None k l : lookup k l = None <-> k ∉ keys l.
Proof.
  unfold lookup, keys. rewrite fmap_None, find_None. split.
  - intros H Hk. apply list_elem_of_In, in_map_iff in Hk as ([k' a] & <- & Hx).
    apply list_elem_of_In in Hx. specialize (H _ Hx). unfold has_key in H.
    by apply bool_decide_eq_false in H.
  - intros H x Hx. apply bool_decide_eq_false. intros <-. apply H. apply list_elem_of_In, in_map.
    by apply list_elem_of_In.
Qed.

Lemma elem_lookup k l a : NoDup (keys l) -> (k, a) ∈ l -> lookup k l = Some a.
Proof.
  unfold lookup, keys. induction l as [|[k' a'] l IH]; [by intros _ ?%elem_of_nil|].
  simpl. inversion 1 as [|? ? Hn Hnd]; subst. intros [[= <- <-]|Hin]%elem_of_cons.
  - unfold has_key at 1. by rewrite bool_decide_true.
  - unfold has_key at 1. rewrite bool_decide_false; [by apply IH|]. simpl. intros <-.
    apply Hn. change k' with (k', a).1. by apply list_elem_of_In, in_map, list_elem_of_In.
Qed.

Lemma existsb_has_key k l : existsb (has_key k) l = true <-> k ∈ keys l.
Proof.
  unfold keys. rewrite existsb_exists, list_elem_of_In, in_map_iff. split.
  - intros (x & Hx & Hk%bool_decide_eq_true). eauto.
  - intros (x & Hk & Hx). exists x. split; [done|]. by apply bool_decide_eq_true.
Qed.

Lemma keys_upsert k d f l : keys (upsert k d f l) = if existsb (has_key k) l then keys l else keys l ++ [k].
Proof.
  unfold upsert, keys. destruct (existsb _ l); [by apply update_first_map|by rewrite map_app].
Qed.

Lemma upsert_nodup k d f l : NoDup (keys l) -> NoDup (keys (upsert k d f l)).
Proof.
  intros Hn. rewrite keys_upsert. destruct (existsb _ l) eqn:E; [done|].
  apply NoDup_app. split_and!; [done| |apply NoDup_singleton].
  intros x Hx ->%list_elem_of_singleton. apply existsb_has_key in Hx. congruence.
Qed.

Lemma lookup_cons k k1 a1 l :
  lookup k ((k1, a1) :: l) = if decide (k1 = k) then Some a1 else lookup k l.
Proof.
  unfold lookup, has_key. simpl. destruct (decide (k1 = k)); [by rewrite bool_decide_true|by rewrite bool_decide_false].
Qed.

Lemma lookup_app k l1 l2 :
  lookup k (l1 ++ l2) = match lookup k l1 with Some a => Some a | None => lookup k l2 end.
Proof.
  induction l1 as [|[k1 a1] l1 IH]; [done|]. simpl app. rewrite !lookup_cons. by destruct (decide _).
Qed.

Lemma lookup_update k f l k' :
  lookup k' (update_first (has_key k) (fun x => (x.1, f x.2)) l) =
  if decide (k' = k) then f <$> lookup k l else lookup k' l.
Proof.
  induction l as [|[k1 a1] l IH]; [simpl; by destruct (decide _)|].
  simpl update_first. unfold has_key at 1. simpl. destruct (decide (k1 = k)) as [->|H1].
  - rewrite bool_decide_true by done. rewrite !lookup_cons. destruct (decide (k' = k)) as [->|H2].
    + by rewrite !decide_True.
    + by rewrite !decide_False.
  - rewrite bool_decide_false by done. rewrite !lookup_cons, IH.
    destruct (decide (k' = k)) as [->|H2]; [by rewrite !(decide_False (P := k1 = k))|done].
Qed.

Lemma lookup_upsert k d f l k' :
  lookup k' (upsert k d f l) = if decide (k' = k) then Some (f (default d (lookup k l))) else lookup k' l.
Proof.
  unfold upsert. destruct (existsb (has_key k) l) eqn:E.
  - rewrite lookup_update. destruct (decide (k' = k)); [|done].
    apply existsb_has_key in E. destruct (lookup k l) eqn:El; [done|].
    by apply lookup_None in El.
  - rewrite lookup_app, lookup_cons. assert (lookup k l = None) as Hk.
    { apply lookup_None. intros Hx. apply existsb_has_key in Hx. congruence. }
    rewrite Hk. destruct (decide (k' = k)) as [->|Hne].
    + by rewrite Hk, decide_True.
    + rewrite (decide_False (P := k = k')) by congruence. by destruct (lookup k' l).
Qed.

(** [retain]. *)
Lemma lookup_filter (p : K * A -> bool) l k : NoDup (keys l) ->
  lookup k (filter (fun x => p x = true) l) =
  match lookup k l with Some a => if p (k, a) then Some a else None | None => None end.
Proof.
  unfold keys. induction l as [|[k1 a1] l IH]; [done|]. simpl. inversion 1 as [|? ? Hn Hnd]; subst.
  rewrite filter_cons, lookup_cons. destruct (decide (k1 = k)) as [->|Hk].
  - destruct (decide (p (k, a1) = true)) as [Hp|Hp].
    + rewrite lookup_cons, decide_True by done. by rewrite Hp.
    + rewrite IH by done. assert (lookup k l = None) as -> by (by apply lookup_None).
      by destruct (p (k, a1)).
  - destruct (decide _); [rewrite lookup_cons, decide_False by done|]; by apply IH.
Qed.

Lemma filter_nodup (p : K * A -> bool) l : NoDup (keys l) -> NoDup (keys (filter (fun x => p x = true) l)).
Proof.
  unfold keys. induction l as [|[k1 a1] l IH]; [done|]. simpl. inversion 1 as [|? ? Hn Hnd]; subst.
  rewrite filter_cons. destruct (decide _); [|by apply IH]. simpl. constructor; [|by apply IH].
  intros Hin. apply Hn. apply list_elem_of_In, in_map_iff in Hin as (x & Hx & Hin%list_elem_of_In).
  apply list_elem_of_filter in Hin as [_ Hin]. apply list_elem_of_In, in_map_iff.
  exists x. split; [done|by apply list_elem_of_In].
Qed.

End Assoc.

Lemma lookup_map {K A B} `{EqDecision K} (g : K -> A -> B) (l : list (K * A)) k :
  lookup k (map (fun x => (x.1, g x.1 x.2)) l) = g k <$> lookup k l.
Proof.
  induction l as [|[k1 a1] l IH]; [done|]. simpl. rewrite !lookup_cons. simpl.
  destruct (decide (k1 = k)) as [->|]; [done|apply IH].
Qed.

Lemma keys_map {K A B} (g : K -> A -> B) (l : list (K * A)) :
  keys (map (fun x => (x.1, g x.1 x.2)) l) = keys l.
Proof. unfold keys. rewrite map_map. done. Qed.
End Assoc.


(** ** The manager *)

Module Multicast.

Definition new : MulticastManager := mkManager [].

(** [is_empty]. *)
Definition is_nil {A} (l : list A) : bool := match l with [] => true | _ => false end.

Definition subscribe (m : MulticastManager) (network_id : Z) (mac : bytes) (adi : Z)
    (zt_address : bytes) (now_ms : Z) : MulticastManager :=
  let key := mkKey network_id mac adi in
  mkManager (Assoc.upsert key [] (Assoc.upsert zt_address now_ms (fun _ => now_ms)) (subscriptions m)).

(** [retain(|(_, subs)| !subs.is_empty())]. *)
Definition drop_empty (l : list (MulticastGroupKey * list Subscriber)) :=
  filter (fun x => negb (is_nil x.2) = true) l.

(** Keep the subscribers that satisfy [keep], then the groups that have some. *)
Definition kept (keep : MulticastGroupKey -> Subscriber -> bool) (key : MulticastGroupKey)
    (subs : list Subscriber) : list Subscriber := filter (fun s => keep key s = true) subs.
Definition retain (keep : MulticastGroupKey -> Subscriber -> bool) (m : MulticastManager) : MulticastManager :=
  mkManager (drop_empty (map (fun x => (x.1, kept keep x.1 x.2)) (subscriptions m))).

Definition key_of (g : MulticastGroup) : MulticastGroupKey := mkKey (mg_network_id g) (mg_mac g) (mg_adi g).

Definition replace_subscriptions (m : MulticastManager) (network_id : Z) (zt_address : bytes)
    (groups : list MulticastGroup) (now_ms : Z) : MulticastManager :=
  let m := retain (fun key subscriber =>
    negb (k_network_id key =? network_id)
    || existsb (fun group => bool_decide (key_of group = key)) groups
    || negb (bool_decide (subscriber.1 = zt_address))) m in
  fold_left (fun m group => subscribe m (mg_network_id group) (mg_mac group) (mg_adi group) zt_address now_ms)
    groups m.

Definition unsubscribe_all (m : MulticastManager) (zt_address : bytes) : MulticastManager :=
  retain (fun _ s => negb (bool_decide (s.1 = zt_address))) m.

Definition expire_old (m : MulticastManager) (now_ms max_age_ms : Z) : MulticastManager :=
  retain (fun _ s => sat_sub now_ms s.2 <=? max_age_ms) m.

Definition get_subscribers (m : MulticastManager) (network_id : Z) (mac : bytes) (adi limit : Z) : list bytes :=
  match Assoc.lookup (mkKey network_id mac adi) (subscriptions m) with
  | Some subs => map fst (take (Z.to_nat limit) subs)
  | None => []
  end.

Definition get_replication_targets (m : MulticastManager) (network_id : Z) (mac : bytes) (adi : Z)
    (exclude : bytes) (limit : Z) : list bytes :=
  match Assoc.lookup (mkKey network_id mac adi) (subscriptions m) with
  | Some subs => map fst (take (Z.to_nat limit) (filter (fun s => negb (bool_decide (s.1 = exclude)) = true) subs))
  | None => []
  end.

Definition groups_for_network (m : MulticastManager) (network_id : Z) : list MulticastGroupKey :=
  map fst (filter (fun x => k_network_id x.1 = network_id) (subscriptions m)).

Definition groups_for_subscriber (m : MulticastManager) (network_id : Z) (zt_address : bytes)
    : list MulticastGroupKey :=
  map fst (filter (fun x => (k_network_id x.1 =? network_id)
                            && existsb (fun s => bool_decide (s.1 = zt_address)) x.2 = true)
             (subscriptions m)).

Definition build_multicast_like (m : MulticastManager) (network_id : Z) (zt_address : bytes) : LikeP.t :=
  LikeP.mk (map (fun k => mkMulticastGroup (k_network_id k) (k_mac k) (k_adi k))
    (groups_for_subscriber m network_id zt_address)).

Definition arp_multicast_group (network_id : Z) : MulticastGroupKey :=
  mkKey network_id (replicate 6 (b8 0xff)) ETHERTYPE_ARP.

(** vl2.rs: the networks a MULTICAST_LIKE names, in order of appearance, and its effect on
    the subscriptions. *)
Definition like_networks (groups : list MulticastGroup) : list Z :=
  fold_left (fun ids g => if bool_decide (mg_network_id g ∈ ids) then ids else ids ++ [mg_network_id g]) groups [].

Definition handle_multicast_like (m : MulticastManager) (sender_address payload_data : bytes) (now_ms : Z)
    : MulticastManager :=
  match LikeP.deserialize payload_data with
  | Ok like =>
      fold_left (fun m network_id =>
        replace_subscriptions m network_id sender_address
          (filter (fun g => mg_network_id g = network_id) (LikeP.groups like)) now_ms)
        (like_networks (LikeP.groups like)) m
  | _ => m
  end.

(** ** The specification: when each address last announced each group *)

Definition subs_spec : Type := MulticastGroupKey -> bytes -> option Z.

Definition sub_at (m : MulticastManager) : subs_spec := fun key a =>
  match Assoc.lookup key (subscriptions m) with Some subs => Assoc.lookup a subs | None => None end.

Inductive Op : Type :=
  | OpSubscribe (key : MulticastGroupKey) (a : bytes) (now : Z)
  | OpReplace (network_id : Z) (a : bytes) (groups : list MulticastGroup) (now : Z)
  | OpUnsubscribe (a : bytes)
  | OpExpire (now max_age : Z).

Definition run_op (m : MulticastManager) (o : Op) : MulticastManager :=
  match o with
  | OpSubscribe k a now => subscribe m (k_network_id k) (k_mac k) (k_adi k) a now
  | OpReplace n a groups now => replace_subscriptions m n a groups now
  | OpUnsubscribe a => unsubscribe_all m a
  | OpExpire now age => expire_old m now age
  end.

Definition spec_op (f : subs_spec) (o : Op) : subs_spec := fun key b =>
  match o with
  | OpSubscribe k a now => if decide (key = k /\ b = a) then Some now else f key b
  | OpReplace n a groups now =>
      if decide (b = a /\ key ∈ map key_of groups) then Some now
      else if decide (b = a /\ k_network_id key = n) then None else f key b
  | OpUnsubscribe a => if decide (b = a) then None else f key b
  | OpExpire now age => t ← f key b; if decide (sat_sub now t <= age) then Some t else None
  end.

(** No group twice, no address twice in a group. *)
Record manager_ok (m : MulticastManager) : Prop := {
  mo_keys : NoDup (Assoc.keys (subscriptions m));
  mo_subs : Forall (fun x => NoDup (Assoc.keys x.2)) (subscriptions m);
}.

Lemma lookup_subs_nodup m key subs : manager_ok m ->
  Assoc.lookup key (subscriptions m) = Some subs -> NoDup (Assoc.keys subs).
Proof.
  intros [_ Hs] H%Assoc.lookup_elem. rewrite Forall_forall in Hs. by apply (Hs _ H).
Qed.

Lemma manager_ok_insert key a now m : manager_ok m ->
  manager_ok (mkManager (Assoc.upsert key [] (Assoc.upsert a now (fun _ => now)) (subscriptions m))).
Proof.
  intros Hm. pose proof Hm as [Hk Hs]. split; simpl; [by apply Assoc.upsert_nodup|].
  rewrite Forall_forall. intros [k subs] Hin. simpl.
  assert (NoDup (Assoc.keys (Assoc.upsert key [] (Assoc.upsert a now (fun _ => now)) (subscriptions m)))) as Hn
    by (by apply Assoc.upsert_nodup).
  apply (Assoc.elem_lookup _ _ _ Hn) in Hin. rewrite Assoc.lookup_upsert in Hin.
  destruct (decide (k = key)) as [->|].
  - injection Hin as <-. apply Assoc.upsert_nodup. destruct (Assoc.lookup key (subscriptions m)) as [l|] eqn:E; simpl;
      [exact (lookup_subs_nodup _ _ _ Hm E)|constructor].
  - exact (lookup_subs_nodup _ _ _ Hm Hin).
Qed.

Lemma subscribe_sub_at m n mac adi a now key b :
  sub_at (subscribe m n mac adi a now) key b =
  if decide (key = mkKey n mac adi /\ b = a) then Some now else sub_at m key b.
Proof.
  unfold sub_at, subscribe. simpl. rewrite Assoc.lookup_upsert.
  destruct (decide (key = mkKey n mac adi)) as [->|Hne];
    [|rewrite decide_False by tauto; done].
  rewrite Assoc.lookup_upsert. destruct (decide (b = a)) as [->|Hb]; [by rewrite decide_True by done|].
  rewrite decide_False by tauto. by destruct (Assoc.lookup (mkKey n mac adi) (subscriptions m)).
Qed.

Lemma subscribe_ok m n mac adi a now : manager_ok m -> manager_ok (subscribe m n mac adi a now).
Proof. apply manager_ok_insert. Qed.

Lemma retain_ok keep m : manager_ok m -> manager_ok (retain keep m).
Proof.
  intros [Hk Hs]. unfold retain, drop_empty. split; simpl.
  - apply (Assoc.filter_nodup (fun x => negb (is_nil x.2))).
    by rewrite (Assoc.keys_map (kept keep)).
  - rewrite Forall_forall in Hs |- *. intros x [_ Hx]%list_elem_of_filter.
    apply list_elem_of_In, in_map_iff in Hx as (y & <- & Hy%list_elem_of_In). simpl.
    by apply Assoc.filter_nodup, Hs.
Qed.

Lemma retain_sub_at keep m key a : manager_ok m ->
  sub_at (retain keep m) key a = t ← sub_at m key a; if keep key (a, t) then Some t else None.
Proof.
  intros Hm. pose proof Hm as [Hk Hs]. unfold retain, drop_empty, sub_at. simpl.
  rewrite (Assoc.lookup_filter (fun x => negb (is_nil x.2)))
    by (by rewrite (Assoc.keys_map (kept keep))).
  rewrite (Assoc.lookup_map (kept keep)).
  destruct (Assoc.lookup key (subscriptions m)) as [subs|] eqn:E; [|done]. simpl.
  pose proof (Assoc.lookup_filter (keep key) subs a (lookup_subs_nodup _ _ _ Hm E)) as Hf.
  fold (kept keep key subs) in Hf. destruct (kept keep key subs) as [|x l] eqn:Ef; simpl.
  - change (Assoc.lookup a []) with (@None Z) in Hf. by destruct (Assoc.lookup a subs).
  - rewrite Hf. by destruct (Assoc.lookup a subs).
Qed.

Lemma subscribe_groups_sub_at groups a now m key b :
  sub_at (fold_left (fun m group => subscribe m (mg_network_id group) (mg_mac group) (mg_adi group) a now) groups m)
    key b = if decide (b = a /\ key ∈ map key_of groups) then Some now else sub_at m key b.
Proof.
  revert m. induction groups as [|g groups IH]; intros m; simpl.
  { rewrite decide_False; [done|]. intros [_ H]. by apply elem_of_nil in H. }
  rewrite IH, subscribe_sub_at. fold (key_of g).
  repeat case_decide; try done; set_solver.
Qed.

Lemma subscribe_groups_ok groups a now m : manager_ok m ->
  manager_ok (fold_left (fun m group => subscribe m (mg_network_id group) (mg_mac group) (mg_adi group) a now) groups m).
Proof.
  revert m. induction groups as [|g groups IH]; intros m Hm; [done|]. simpl. apply IH. by apply subscribe_ok.
Qed.

Lemma run_op_refines m o : manager_ok m ->
  manager_ok (run_op m o) /\ forall key a, sub_at (run_op m o) key a = spec_op (sub_at m) o key a.
Proof.
  intros Hm. destruct o as [k a now|n a groups now|a|now age]; simpl.
  - split; [by apply subscribe_ok|]. intros key b. rewrite subscribe_sub_at. by destruct k.
  - unfold replace_subscriptions. split; [by apply subscribe_groups_ok, retain_ok|].
    intros key b. rewrite subscribe_groups_sub_at. case_decide as H1; [done|].
    rewrite retain_sub_at by done. simpl.
    destruct (decide (k_network_id key = n)) as [Hn|Hn].
    + assert (existsb (fun group => bool_decide (key_of group = key)) groups = bool_decide (key ∈ map key_of groups)) as ->.
      { apply eq_true_iff_eq. rewrite existsb_exists, bool_decide_eq_true, list_elem_of_In, in_map_iff.
        split; intros (g & H & H'); exists g; rewrite ?bool_decide_eq_true in *; auto. }
      replace (k_network_id key =? n) with true by lia. simpl.
      destruct (decide (b = a)) as [->|Hb].
      * rewrite bool_decide_false by tauto. rewrite bool_decide_true by done. simpl.
        rewrite decide_True by done. by destruct (sub_at m key a).
      * rewrite (bool_decide_false (b = a)) by done. rewrite orb_true_r. rewrite decide_False by tauto.
        by destruct (sub_at m key b).
    + replace (k_network_id key =? n) with false by lia. simpl. rewrite decide_False by tauto.
      by destruct (sub_at m key b).
  - split; [by apply retain_ok|]. intros key b. unfold unsubscribe_all. rewrite retain_sub_at by done. simpl.
    case_decide as Hb; [rewrite bool_decide_true by done|rewrite bool_decide_false by done]; simpl;
      by destruct (sub_at m key b).
  - split; [by apply retain_ok|]. intros key b. unfold expire_old. rewrite retain_sub_at by done. simpl.
    destruct (sub_at m key b); [|done]. simpl. case_decide; repeat case_match; lia || done.
Qed.

(** The subscription table implements its specification: after any sequence of
    announcements, withdrawals and expiries on a new manager, no group is listed twice, no
    address is listed twice in a group, and each address's last announcement of each group is
    the one the specification computes. *)
Theorem multicast_refines (ops : list Op) :
  let m := fold_left run_op ops new in
  manager_ok m /\ forall key a, sub_at m key a = fold_left spec_op ops (fun _ _ => None) key a.
Proof.
  cbv zeta. assert (forall m f, manager_ok m -> (forall key a, sub_at m key a = f key a) ->
    manager_ok (fold_left run_op ops m) /\
    forall key a, sub_at (fold_left run_op ops m) key a = fold_left spec_op ops f key a) as Hgen.
  { induction ops as [|o ops IH]; intros m f Hm Hf; [done|]. simpl.
    destruct (run_op_refines m o Hm) as [Hm' Hs]. apply IH; [done|].
    intros key a. rewrite Hs. destruct o; simpl; by rewrite ?Hf. }
  apply Hgen; [|done]. split; constructor.
Qed.

Lemma keys_lookup (l : list Subscriber) a : a ∈ Assoc.keys l <-> is_Some (Assoc.lookup a l).
Proof.
  destruct (Assoc.lookup a l) eqn:E.
  - split; [done|]. intros _. apply Assoc.lookup_elem in E. unfold Assoc.keys.
    apply list_elem_of_In, in_map_iff. eexists (_, _). split; [done|]. by apply list_elem_of_In.
  - apply Assoc.lookup_None in E. split; [done|by intros [? ?]].
Qed.

(** The first [n] addresses of a list without repetitions. *)
Lemma take_keys n (l : list Subscriber) : NoDup (Assoc.keys l) -> 0 <= n ->
  let t := map fst (take (Z.to_nat n) l) in
  NoDup t /\ len t <= n /\ (forall a, a ∈ t -> is_Some (Assoc.lookup a l)) /\
  (len t < n -> forall a, is_Some (Assoc.lookup a l) -> a ∈ t).
Proof.
  intros Hn H0 t. assert (t = take (Z.to_nat n) (Assoc.keys l)) as -> by (unfold t, Assoc.keys; by rewrite firstn_map).
  rewrite <- (take_drop (Z.to_nat n) (Assoc.keys l)) in Hn. apply NoDup_app in Hn as (Hn & _ & _).
  split_and!; [done|len_lia|..].
  - intros a Ha. apply keys_lookup. rewrite <- (take_drop (Z.to_nat n) (Assoc.keys l)). set_solver.
  - rewrite len_take. intros Hlt a Ha. rewrite take_ge by (unfold len in Hlt; lia). by apply keys_lookup.
Qed.

(** Delivery lists: the subscribers returned for a group are distinct, at most as many
    as asked for, all of them current subscribers (and never the excluded sender of a
    replicated frame), and all of them when the limit allows; a node's own announcement
    payload lists exactly its groups on the network. *)
Theorem get_subscribers_spec (m : MulticastManager) (network_id : Z) (mac : bytes) (adi limit : Z) (who : bytes) :
  manager_ok m -> 0 <= limit ->
  let key := mkKey network_id mac adi in
  let subs := get_subscribers m network_id mac adi limit in
  let targets := get_replication_targets m network_id mac adi who limit in
  (NoDup subs /\ len subs <= limit /\ (forall a, a ∈ subs -> is_Some (sub_at m key a)) /\
   (len subs < limit -> forall a, is_Some (sub_at m key a) -> a ∈ subs)) /\
  (NoDup targets /\ len targets <= limit /\ (forall a, a ∈ targets -> a <> who /\ is_Some (sub_at m key a)) /\
   (len targets < limit -> forall a, a <> who -> is_Some (sub_at m key a) -> a ∈ targets)) /\
  (forall g, g ∈ LikeP.groups (build_multicast_like m network_id who) <->
     mg_network_id g = network_id /\ is_Some (sub_at m (key_of g) who)).
Proof.
  intros Hm Hl. cbv zeta. set (key := mkKey network_id mac adi).
  unfold get_subscribers, get_replication_targets. fold key. split; [|split].
  - unfold sub_at. destruct (Assoc.lookup key (subscriptions m)) as [subs|] eqn:E.
    + apply take_keys; [|done]. exact (lookup_subs_nodup _ _ _ Hm E).
    + split_and!; [constructor|done|by intros a ?%elem_of_nil|by intros _ a [? ?]].
  - unfold sub_at. destruct (Assoc.lookup key (subscriptions m)) as [subs|] eqn:E.
    + pose proof (lookup_subs_nodup _ _ _ Hm E) as Hn. set (p := fun s : Subscriber => negb (bool_decide (s.1 = who))).
      destruct (take_keys limit (filter (fun s => p s = true) subs)) as (H1 & H2 & H3 & H4);
        [by apply Assoc.filter_nodup|done|].
      assert (forall a, is_Some (Assoc.lookup a (filter (fun s => p s = true) subs)) <->
        a <> who /\ is_Some (Assoc.lookup a subs)) as Hp.
      { intros a. rewrite Assoc.lookup_filter by done. destruct (Assoc.lookup a subs) as [t|]; unfold p; simpl.
        - case_bool_decide; simpl; [split; [by intros [? ?]|tauto]|]. split; [done|eauto].
        - split; [by intros [? ?]|by intros [_ [? ?]]]. }
      split_and!; [done|done|intros a Ha; by apply Hp, H3|]. intros Hlt a Ha Hs. apply H4; [done|by apply Hp].
    + split_and!; [constructor|done|by intros a ?%elem_of_nil|by intros _ a _ [? ?]].
  - intros g. unfold build_multicast_like, groups_for_subscriber. simpl.
    rewrite list_elem_of_In, in_map_iff. split.
    + intros (k & <- & Hk). apply in_map_iff in Hk as ([k' subs] & <- & Hin%list_elem_of_In).
      apply list_elem_of_filter in Hin as [[Hnet Hex]%andb_true_iff Hin]. simpl in *.
      assert (key_of (mkMulticastGroup (k_network_id k') (k_mac k') (k_adi k')) = k') as -> by (by destruct k').
      split; [lia|]. unfold sub_at. rewrite (Assoc.elem_lookup _ _ _ (mo_keys _ Hm) Hin).
      apply keys_lookup. by apply Assoc.existsb_has_key.
    + intros [Hnet Hs]. unfold sub_at in Hs. destruct (Assoc.lookup (key_of g) (subscriptions m)) as [subs|] eqn:E;
        [|by destruct Hs]. exists (key_of g). split; [by destruct g|].
      apply in_map_iff. exists (key_of g, subs). split; [done|]. apply list_elem_of_In, list_elem_of_filter.
      split; [|by apply Assoc.lookup_elem]. simpl. apply andb_true_iff. split; [lia|].
      by apply Assoc.existsb_has_key, keys_lookup.
Qed.

(** Two peers in one group, the first announcing it again later. *)
Definition sample_manager : MulticastManager :=
  fold_left run_op [OpSubscribe (mkKey 5 (replicate 6 (b8 0xff)) ETHERTYPE_ARP) [b8 1] 10;
                    OpSubscribe (mkKey 5 (replicate 6 (b8 0xff)) ETHERTYPE_ARP) [b8 2] 20;
                    OpSubscribe (mkKey 5 (replicate 6 (b8 0xff)) ETHERTYPE_ARP) [b8 1] 30] new.

Lemma sample_manager_ok : manager_ok sample_manager.
Proof.
  unfold sample_manager, fold_left. do 3 apply run_op_refines. split; constructor.
Qed.

Lemma get_subscribers_spec_witness :
  get_subscribers sample_manager 5 (replicate 6 (b8 0xff)) ETHERTYPE_ARP 8 = [[b8 1]; [b8 2]] /\
  (forall a, is_Some (sub_at sample_manager (mkKey 5 (replicate 6 (b8 0xff)) ETHERTYPE_ARP) a) ->
     a ∈ get_subscribers sample_manager 5 (replicate 6 (b8 0xff)) ETHERTYPE_ARP 8).
Proof.
  destruct (get_subscribers_spec sample_manager 5 (replicate 6 (b8 0xff)) ETHERTYPE_ARP 8 [b8 1] sample_manager_ok)
    as ((_ & _ & _ & H) & _); [lia|].
  split; [vm_compute; reflexivity|]. apply H. vm_compute. reflexivity.
Defined.

End Multicast.
