(* ===== verification/Root.v ===== *)
(** * Root: the control packets a node builds (zerotier-node: root.rs), and that their
    addressee accepts and reads them. *)
From S2P Require Export Armor HelloOk.

Record RootManager := mkRootManager { last_hello_sent : Z }.

Module Root.
Section Root.
Context {P : Prims}.

Definition new : RootManager := mkRootManager 0.

(** [f(&mut buf\[..n\])?]. *)
Definition on_head (n : Z) (f : bytes -> res CryptoError bytes) : W unit := fun buf =>
  if (0 <=? n) && (n <=? len buf)
  then let* head := map_err PCryptoError (f (take (Z.to_nat n) buf)) in
       Ok (tt, head ++ drop (Z.to_nat n) buf)
  else Panic.

Definition wneed (n : Z) : W unit := fun buf =>
  if len buf <? n then Err (TooShort n (len buf)) else Ok (tt, buf).

(** The writes of the 28-byte header, common to the builders: packet id, destination,
    source, cipher suite and hops, an empty MAC field, the verb. *)
Definition write_header (packet_id : Z) (dest source : bytes) (flags : Z) (verb : Verb) : W unit :=
  put 0 8 (to_be 8 packet_id);*
  put 8 13 dest;*
  put 13 18 source;*
  set 18 (b8 flags);*
  put 19 27 (replicate 8 (b8 0));*
  set 27 (VerbOps.to_byte verb).

Definition public_only (id : Identity) : Identity :=
  {| id_address := id_address id; id_public := id_public id; id_secret := None |}.

Definition hello_of (our_identity : Identity) (dest_physical : SocketAddr) (now_ms : Z)
    (planet_world_id planet_world_timestamp : Z) : HelloP.t :=
  let hello := HelloP.new (public_only our_identity) now_ms (Inet.from_socket_addr dest_physical) in
  {| HelloP.protocol_version := HelloP.protocol_version hello;
     HelloP.major_version := HelloP.major_version hello;
     HelloP.minor_version := HelloP.minor_version hello;
     HelloP.revision := HelloP.revision hello;
     HelloP.timestamp := HelloP.timestamp hello;
     HelloP.identity := HelloP.identity hello;
     HelloP.dest_address := HelloP.dest_address hello;
     HelloP.planet_world_id := planet_world_id;
     HelloP.planet_world_timestamp := planet_world_timestamp;
     HelloP.moon_records := HelloP.moon_records hello |}.

(** Everything [build_hello] writes before the cryptography; the total length and the
    offset of the moon count. *)
Definition write_hello (our_identity : Identity) (dest_address : bytes) (dest_physical : SocketAddr)
    (now_ms planet_world_id planet_world_timestamp : Z) : W (Z * Z) :=
  let packet_id := now_ms in
  write_header packet_id dest_address (id_address our_identity)
    (Z.shiftl CIPHER_SUITE_C25519_POLY1305_NONE 3) Hello;*
  do* payload_len := on_tail 28 (HelloP.serialize
    (hello_of our_identity dest_physical now_ms planet_world_id planet_world_timestamp)) in
  let moon_count_offset := 28 + payload_len in
  put moon_count_offset (moon_count_offset + 2) (to_be 2 0);*
  let cor_offset := moon_count_offset + 2 in
  set cor_offset (b8 0);*
  set (cor_offset + 1) (b8 0);*
  wret (cor_offset + 2, moon_count_offset).

Definition build_hello (our_identity : Identity) (dest_address : bytes) (dest_physical : SocketAddr)
    (now_ms : Z) (shared_secret : bytes) (planet_world_id planet_world_timestamp : Z) : W (Z * Z) :=
  wneed (ZT_PROTO_MIN_PACKET_LENGTH + 128);*
  do* r := write_hello our_identity dest_address dest_physical now_ms planet_world_id planet_world_timestamp in
  let total_len := r.1 in
  let moon_count_offset := r.2 in
  on_head total_len (fun p => Armor.crypt_packet_field shared_secret p moon_count_offset 2);*
  on_head total_len (fun p => Armor.armor_packet shared_secret p false);*
  wret (total_len, now_ms).

Definition build_whois (our_identity : Identity) (dest_address : bytes) (addresses : list bytes)
    (shared_secret : bytes) (now_ms : Z) : W (Z * Z) :=
  wneed (ZT_PROTO_MIN_PACKET_LENGTH + len addresses * 5);*
  let packet_id := now_ms in
  write_header packet_id dest_address (id_address our_identity)
    (Z.shiftl CIPHER_SUITE_C25519_POLY1305_SALSA2012 3) Whois;*
  do* payload_len := on_tail 28 (WhoisP.serialize_request (WhoisP.mkReq addresses)) in
  let total_len := 28 + payload_len in
  on_head total_len (fun p => Armor.armor_packet shared_secret p true);*
  wret (total_len, packet_id).

Definition ok_hello (in_re_packet_id timestamp_echo : Z) : OkP.t :=
  OkP.mk Hello in_re_packet_id
    (OkP.SubHello timestamp_echo (b8 HelloP.MANYTIER_ADVERTISED_PROTOCOL_VERSION) (b8 0) (b8 1) 0 None).

Definition build_ok_hello (our_identity : Identity) (dest_address : bytes)
    (in_re_packet_id timestamp_echo : Z) (shared_secret : bytes) (now_ms : Z)
    (use_unmangled_null : bool) : W Z :=
  wneed (ZT_PROTO_MIN_PACKET_LENGTH + 32);*
  let packet_id := now_ms in
  write_header packet_id dest_address (id_address our_identity)
    (Z.shiftl CIPHER_SUITE_C25519_POLY1305_SALSA2012 3) VOk;*
  do* payload_len := on_tail 28 (OkP.serialize (ok_hello in_re_packet_id timestamp_echo)) in
  let total_len := 28 + payload_len in
  (if use_unmangled_null
   then on_head total_len (fun p => Armor.armor_packet_unmangled (replicate 32 (b8 0)) p false)
   else on_head total_len (fun p => Armor.armor_packet shared_secret p true));*
  wret total_len.

Definition build_rendezvous (our_identity : Identity) (dest_address target_peer_address : bytes)
    (target_physical : InetAddress) (shared_secret : bytes) (now_ms : Z) : W Z :=
  wneed (ZT_PROTO_MIN_PACKET_LENGTH + 32);*
  let packet_id := now_ms in
  write_header packet_id dest_address (id_address our_identity)
    (Z.shiftl CIPHER_SUITE_C25519_POLY1305_SALSA2012 3) Rendezvous;*
  do* payload_len := on_tail 28
    (RendezvousP.serialize (RendezvousP.mk (b8 0) target_peer_address target_physical)) in
  let total_len := 28 + payload_len in
  on_head total_len (fun p => Armor.armor_packet shared_secret p true);*
  wret total_len.

End Root.

(** ** Sealed packets *)

(** The bytes in front of the flags: what authenticates a packet's endpoints. *)
Definition route_bytes (packet_id : Z) (dest source : bytes) : bytes := to_be 8 packet_id ++ dest ++ source.
Definition no_mac : bytes := replicate 8 (b8 0).
Definition suite_flags (suite : Z) : byte := b8 (Z.shiftl suite 3).

Section Sealed.
Context {P : Prims} {L : PrimLaws P}.

(** [q] is the packet with these fields under the key [ss]: its addressee authenticates it and
    recovers [payload]. *)
Definition sealed (ss : bytes) (packet_id : Z) (dest source : bytes) (suite : Z) (verb : Verb)
    (payload q : bytes) : Prop :=
  exists mac c, len mac = 8 /\ len c = 1 + len payload /\
    q = Armor.frame (route_bytes packet_id dest source) (suite_flags suite) mac c /\
    Armor.dearmor_packet ss q =
      Ok (Armor.frame (route_bytes packet_id dest source) (suite_flags suite) mac
            (VerbOps.to_byte verb :: payload)).

Lemma len_route pid dest source : len dest = 5 -> len source = 5 -> len (route_bytes pid dest source) = 18.
Proof. unfold route_bytes. intros. len_lia. Qed.

Lemma suite_of_flags suite : 0 <= suite <= 1 -> Armor.suite_of (suite_flags suite) = suite.
Proof. intros H. assert (suite = 0 \/ suite = 1) as [-> | ->] by lia; done. Qed.

(** Armoring any body, and what the receiver of the packet makes of it. *)
Lemma armor_body ss h f b : 32 <= len ss -> len h = 18 -> 1 <= len b ->
  exists mac c, len mac = 8 /\ len c = len b /\
    Armor.armor_packet ss (Armor.frame h f no_mac b) (Armor.suite_of f =? 1) = Ok (Armor.frame h f mac c) /\
    Armor.dearmor_packet ss (Armor.frame h f mac c) = Ok (Armor.frame h f mac b).
Proof.
  intros Hss Hh Hb. assert (len no_mac = 8) as Hm by done.
  rewrite (Armor.armor_frame ss h f no_mac b) by (done || lia).
  set (ks := Armor.cipher_of _ _ _ _). set (c := Armor.crypt_body _ _ _).
  assert (len c = len b) as Hc by apply Armor.len_crypt_body.
  set (mac := compute_mac _ _). assert (len mac = 8) as Hmac by apply len_compute_mac.
  exists mac, c. split_and!; [done..|]. rewrite (Armor.dearmor_frame ss) by (done || lia).
  replace (Armor.cipher_of ss h f _) with ks by (unfold ks; f_equal; lia).
  rewrite bool_decide_true by done. by unfold c; rewrite Armor.crypt_body_involutive.
Qed.

Lemma armor_sealed ss pid dest source suite verb payload :
  32 <= len ss -> len dest = 5 -> len source = 5 -> 0 <= suite <= 1 ->
  exists q, Armor.armor_packet ss (Armor.frame (route_bytes pid dest source) (suite_flags suite) no_mac
      (VerbOps.to_byte verb :: payload)) (suite =? 1) = Ok q /\
    len q = 28 + len payload /\ sealed ss pid dest source suite verb payload q.
Proof.
  intros Hss Hd Hs Hsu. pose proof (len_route pid dest source Hd Hs) as Hr. pose proof (len_nonneg payload).
  assert (len (VerbOps.to_byte verb :: payload) = 1 + len payload) as Hb by len_lia.
  destruct (armor_body ss (route_bytes pid dest source) (suite_flags suite) (VerbOps.to_byte verb :: payload))
    as (mac & c & Hm & Hc & Ha & Hd'); [lia..|]. rewrite suite_of_flags in Ha by done.
  eexists. split; [exact Ha|]. split; [rewrite Armor.len_frame; lia|]. exists mac, c. split_and!; [done|lia|done..].
Qed.

(** ** The builders *)

Lemma header_emits pid dest source flags verb : len dest = 5 -> len source = 5 ->
  emits (write_header pid dest source flags verb) 0
    (route_bytes pid dest source ++ [b8 flags] ++ no_mac ++ [VerbOps.to_byte verb]) tt.
Proof.
  intros Hd Hs. unfold write_header, route_bytes, no_mac.
  eapply emits_conv; [repeat emits_step|by rewrite <- ?app_assoc|done].
Qed.

Lemma write_header_emits pid dest source suite verb : len dest = 5 -> len source = 5 ->
  emits (write_header pid dest source (Z.shiftl suite 3) verb) 0
    (route_bytes pid dest source ++ [suite_flags suite] ++ no_mac ++ [VerbOps.to_byte verb]) tt.
Proof. apply header_emits. Qed.

Lemma wbind_ok {A B} (m : W A) (k : A -> W B) buf a buf' :
  m buf = Ok (a, buf') -> wbind m k buf = k a buf'.
Proof. unfold wbind. by intros ->. Qed.

Lemma len_overwrite (enc buf : bytes) : len enc <= len buf -> len (enc ++ drop (length enc) buf) = len buf.
Proof. intros H. rewrite len_app, len_drop. unfold len in *. lia. Qed.

(** A header and a payload written after it. *)
Lemma packet_emits {A} pid dest source flags verb (m : W A) payload r :
  len dest = 5 -> len source = 5 -> emits m 0 payload r ->
  emits (write_header pid dest source flags verb;* on_tail 28 m) 0
    (Armor.frame (route_bytes pid dest source) (b8 flags) no_mac (VerbOps.to_byte verb :: payload)) r.
Proof.
  intros Hd Hs Hm. pose proof (len_route pid dest source Hd Hs) as Hr. assert (len no_mac = 8) by done.
  eapply emits_conv; [eapply emits_bind; [by apply header_emits|]|..].
  - apply emits_on_tail; [len_lia|exact Hm].
  - unfold Armor.frame. by rewrite <- !app_assoc.
  - done.
Qed.

Lemma on_head_run n f enc rest :
  n = len enc ->
  on_head n f (enc ++ rest) = let* head := map_err PCryptoError (f enc) in Ok (tt, head ++ rest).
Proof.
  intros ->. unfold on_head. pose proof (len_nonneg enc). pose proof (len_nonneg rest).
  rewrite if_true by len_lia. by rewrite take_app_length', drop_app_length' by (unfold len; lia).
Qed.

(** A packet of cipher suite 1 built into a buffer that holds it. *)
Lemma build_sealed ss pid dest source verb (m : W Z) payload buf {A} (k : Z -> W A) :
  32 <= len ss -> len dest = 5 -> len source = 5 -> emits m 0 payload (len payload) ->
  28 + len payload <= len buf ->
  exists q, len q = 28 + len payload /\ sealed ss pid dest source 1 verb payload q /\
    (write_header pid dest source (Z.shiftl CIPHER_SUITE_C25519_POLY1305_SALSA2012 3) verb;*
     do* payload_len := on_tail 28 m in
     on_head (28 + payload_len) (fun p => Armor.armor_packet ss p true);* k payload_len) buf =
    k (len payload) (q ++ drop (length q) buf).
Proof.
  intros Hss Hd Hs Hm Hl. pose proof (len_nonneg payload).
  destruct (armor_sealed ss pid dest source 1 verb payload) as (q & Hq & Hlq & Hsq); [done..|].
  exists q. split_and!; [done|done|].
  pose proof (packet_emits pid dest source (Z.shiftl 1 3) verb m payload (len payload) Hd Hs Hm) as He.
  fold (suite_flags 1) in He.
  set (p := Armor.frame _ _ _ _) in *.
  assert (len p = 28 + len payload) as Hp
    by (unfold p; rewrite Armor.len_frame, len_route by done; change (len no_mac) with 8; len_lia).
  assert (len p <= len buf) as Hfit by lia.
  pose proof (emits_ok _ _ _ buf He Hfit) as Hr.
  unfold wbind at 1 in Hr. unfold wbind at 1. unfold CIPHER_SUITE_C25519_POLY1305_SALSA2012.
  destruct (write_header _ _ _ _ _ buf) as [[[] b1]| | |]; try done. unfold wbind at 1. rewrite Hr.
  unfold wbind at 1. rewrite on_head_run by done. change (1 =? 1) with true in Hq. rewrite Hq.
  simpl map_err. rewrite rbind_ok. by replace (length q) with (length p) by (unfold len in *; lia).
Qed.

(** The control packets by kind. *)
Inductive Control : Type :=
  | CHello (dest_physical : SocketAddr) (planet_world_id planet_world_timestamp : Z)
  | CWhois (addresses : list bytes)
  | COkHello (in_re_packet_id timestamp_echo : Z)
  | CRendezvous (target_peer_address : bytes) (target_physical : InetAddress).

Definition build (c : Control) (our_identity : Identity) (dest : bytes) (ss : bytes) (now_ms : Z) : W Z :=
  match c with
  | CHello phys wid wts =>
      do* r := build_hello our_identity dest phys now_ms ss wid wts in wret r.1
  | CWhois l => do* r := build_whois our_identity dest l ss now_ms in wret r.1
  | COkHello pid echo => build_ok_hello our_identity dest pid echo ss now_ms false
  | CRendezvous peer target => build_rendezvous our_identity dest peer target ss now_ms
  end.

Definition control_ok (c : Control) : Prop :=
  match c with
  | CHello phys wid wts => Inet.wf (Inet.from_socket_addr phys) /\ u64_ok wid /\ u64_ok wts
  | CWhois l => Forall (fun a => len a = 5) l
  | COkHello pid echo => u64_ok pid /\ u64_ok echo
  | CRendezvous peer target => len peer = 5 /\ Inet.wf target
  end.

Definition control_need (c : Control) : Z :=
  match c with
  | CHello _ _ _ => 156
  | CWhois l => 28 + len l * 5
  | COkHello _ _ | CRendezvous _ _ => 60
  end.

Definition control_suite (c : Control) : Z := match c with CHello _ _ _ => 0 | _ => 1 end.
Definition control_verb (c : Control) : Verb :=
  match c with CHello _ _ _ => Hello | CWhois _ => Whois | COkHello _ _ => VOk | CRendezvous _ _ => Rendezvous end.

(** What the addressee parses. *)
Definition control_reads (c : Control) (our_identity : Identity) (now_ms : Z) (payload : bytes) : Prop :=
  match c with
  | CHello phys wid wts =>
      exists n, HelloP.deserialize payload = Ok (hello_of our_identity phys now_ms wid wts, n)
  | CWhois l => WhoisP.deserialize_request payload = Ok (WhoisP.mkReq l)
  | COkHello pid echo => OkP.deserialize payload = Ok (ok_hello pid echo)
  | CRendezvous peer target => RendezvousP.deserialize payload = Ok (RendezvousP.mk (b8 0) peer target)
  end.

Lemma hello_of_wf our phys now wid wts : Ident.public_wf (public_only our) ->
  Inet.wf (Inet.from_socket_addr phys) -> u64_ok now -> u64_ok wid -> u64_ok wts ->
  HelloP.wf (hello_of our phys now wid wts).
Proof.
  intros Hid Ha Hn Hw Ht. pose proof (Ident.public_wf_shape _ Hid).
  split; [split_and!; try done; constructor|done].
Qed.

Lemma hello_payload_len our phys now wid wts : HelloP.wf (hello_of our phys now wid wts) ->
  len (HelloP.encode (hello_of our phys now wid wts)) <= 119.
Proof.
  intros [(_ & _ & Hid & Ha & _) _]. pose proof (Inet.encode_len _ Ha). pose proof (Ident.ident_len_encode _ Hid).
  unfold HelloP.encode. unfold hello_of in *. cbn [HelloP.moon_records HelloP.new map concat HelloP.identity
    HelloP.dest_address] in *. len_lia.
Qed.

Lemma write_hello_emits our dest phys now wid wts :
  let hello := hello_of our phys now wid wts in
  HelloP.wf hello -> len dest = 5 -> len (id_address our) = 5 ->
  forall buf, 156 <= len buf ->
  let p := Armor.frame (route_bytes now dest (id_address our)) (suite_flags 0) no_mac
    (VerbOps.to_byte Hello :: HelloP.encode hello ++ replicate 4 (b8 0)) in
  write_hello our dest phys now wid wts buf =
  Ok ((28 + len (HelloP.encode hello) + 4, 28 + len (HelloP.encode hello)), p ++ drop (length p) buf).
Proof.
  intros hello Hw Hd Hs buf Hb p. pose proof Hw as [Hsh _]. pose proof (hello_payload_len _ _ _ _ _ Hw) as Hl.
  fold hello in Hl. pose proof (len_nonneg (HelloP.encode hello)).
  pose proof (len_route now dest (id_address our) Hd Hs) as Hr. assert (len no_mac = 8) as Hm by done.
  assert (len p = 28 + len (HelloP.encode hello) + 4) as Hp
    by (unfold p; rewrite Armor.len_frame, len_cons, len_app, len_replicate; lia).
  assert (emits (write_header now dest (id_address our) (Z.shiftl 0 3) Hello;*
    do* payload_len := on_tail 28 (HelloP.serialize_body hello) in
    put (28 + payload_len) (28 + payload_len + 2) (to_be 2 0);*
    set (28 + payload_len + 2) (b8 0);* set (28 + payload_len + 2 + 1) (b8 0);*
    wret (28 + payload_len + 2 + 2, 28 + payload_len)) 0 p
    (28 + len (HelloP.encode hello) + 4, 28 + len (HelloP.encode hello))) as He.
  { eapply emits_conv; [eapply emits_bind; [by apply write_header_emits|]; eapply emits_bind;
      [apply emits_on_tail; [len_lia|by apply HelloP.serialize_body_emits]|];
      repeat emits_step|..].
    - unfold p, Armor.frame. rewrite <- !app_assoc. cbn [app]. by do 4 f_equal.
    - f_equal; lia. }
  assert (len p <= len buf) as Hfit by lia. pose proof (emits_ok _ _ _ buf He Hfit) as Hrun.
  pose proof (write_header_emits now dest (id_address our) 0 Hello Hd Hs) as Hh.
  match type of Hh with emits _ _ ?h _ => assert (len h <= len buf) as Hfh by len_lia end.
  pose proof (emits_ok _ _ _ buf Hh Hfh) as Hrh.
  rewrite <- Hrun. unfold write_hello, CIPHER_SUITE_C25519_POLY1305_NONE. fold hello.
  rewrite !(wbind_ok _ _ _ _ _ Hrh). unfold wbind at 1. unfold wbind at 4.
  assert (forall b, len b = len buf -> on_tail 28 (HelloP.serialize hello) b = on_tail 28 (HelloP.serialize_body hello) b)
    as -> ; [|done|by apply len_overwrite].
  intros b Hlb. unfold on_tail. rewrite !if_true by lia.
  rewrite HelloP.serialize_long; [done|]. rewrite len_drop. lia.
Qed.

(** The HELLO's encrypted moon count changes nothing in front of it. *)
Lemma build_hello_sealed our dest phys ss now wid wts buf :
  let hello := hello_of our phys now wid wts in
  HelloP.wf hello -> len dest = 5 -> len (id_address our) = 5 -> len ss = 48 -> 156 <= len buf ->
  exists q tl, len tl = 4 /\ len q = 28 + len (HelloP.encode hello) + 4 /\
    sealed ss now dest (id_address our) 0 Hello (HelloP.encode hello ++ tl) q /\
    build_hello our dest phys now ss wid wts buf = Ok ((len q, now), q ++ drop (length q) buf).
Proof.
  intros hello Hw Hd Hs Hss Hb. pose proof (len_nonneg (HelloP.encode hello)).
  pose proof (len_route now dest (id_address our) Hd Hs) as Hr. assert (len no_mac = 8) as Hm by done.
  set (p := Armor.frame (route_bytes now dest (id_address our)) (suite_flags 0) no_mac
    (VerbOps.to_byte Hello :: HelloP.encode hello ++ replicate 4 (b8 0))).
  assert (len p = 28 + len (HelloP.encode hello) + 4) as Hp
    by (unfold p; rewrite Armor.len_frame, len_cons, len_app, len_replicate; lia).
  destruct (Armor.crypt_packet_field_involution ss p (28 + len (HelloP.encode hello)) 2)
    as (p2 & Hc & Htk & _ & Hl2 & _); [done|unfold PACKET_MIN_LEN; lia|lia..|].
  set (tl := drop (Z.to_nat (28 + len (HelloP.encode hello))) p2).
  assert (p2 = Armor.frame (route_bytes now dest (id_address our)) (suite_flags 0) no_mac
    (VerbOps.to_byte Hello :: HelloP.encode hello ++ tl)) as Hp2.
  { rewrite <- (take_drop (Z.to_nat (28 + len (HelloP.encode hello))) p2), Htk. fold tl.
    unfold p, Armor.frame.
    transitivity ((route_bytes now dest (id_address our) ++ [suite_flags 0] ++ no_mac ++
      VerbOps.to_byte Hello :: HelloP.encode hello) ++ tl); [|by rewrite <- !app_assoc].
    f_equal. rewrite (app_comm_cons _ _ (VerbOps.to_byte Hello)), !app_assoc. apply take_app_length'.
    rewrite <- !app_assoc, !length_app, !length_cons, length_nil.
    unfold len in *. lia. }
  destruct (armor_sealed ss now dest (id_address our) 0 Hello (HelloP.encode hello ++ tl)) as (q & Hq & Hlq & Hsq);
    [lia|done..|].
  assert (len tl = 4) as Htl by (unfold tl; rewrite len_drop; lia).
  exists q, tl. split_and!; [done|rewrite Hlq, len_app; lia|done|].
  unfold build_hello. unfold wbind at 1, wneed. change (ZT_PROTO_MIN_PACKET_LENGTH + 128) with 156.
  rewrite if_false by lia. rewrite (wbind_ok _ _ _ _ _ (write_hello_emits our dest phys now wid wts Hw Hd Hs buf Hb)).
  fold hello p. cbn [fst snd]. rewrite (wbind_ok _ _ _ tt (p2 ++ drop (length p) buf))
    by (rewrite on_head_run by lia; by rewrite Hc).
  rewrite (wbind_ok _ _ _ tt (q ++ drop (length p) buf)).
  - unfold wret. rewrite len_app in Hlq. do 3 f_equal; [lia|]. f_equal. unfold len in *. lia.
  - rewrite on_head_run by lia. rewrite Hp2. change (0 =? 1) with false in Hq. by rewrite Hq.
Qed.

Lemma wbind_err {A B} (m : W A) (k : A -> W B) buf e : m buf = Err e -> wbind m k buf = Err e.
Proof. unfold wbind. by intros ->. Qed.

Lemma wneed_ok n buf : n <= len buf -> wneed n buf = Ok (tt, buf).
Proof. intros. unfold wneed. by rewrite if_false by lia. Qed.

(** A builder of cipher suite 1: the size check, the header, a payload, the armor. *)
Lemma build_checked ss now dest our verb (m : W Z) payload buf need {A} (k : Z -> W A) :
  len ss = 48 -> len dest = 5 -> len (id_address our) = 5 -> emits m 0 payload (len payload) ->
  28 + len payload <= need ->
  let w := wneed need;* write_header now dest (id_address our) (Z.shiftl CIPHER_SUITE_C25519_POLY1305_SALSA2012 3) verb;*
     do* payload_len := on_tail 28 m in
     on_head (28 + payload_len) (fun p => Armor.armor_packet ss p true);* k payload_len in
  (len buf < need -> w buf = Err (TooShort need (len buf))) /\
  (need <= len buf -> exists q, len q = 28 + len payload /\ w buf = k (len payload) (q ++ drop (length q) buf) /\
    sealed ss now dest (id_address our) 1 verb payload q).
Proof.
  intros Hss Hd Hs Hm Hl w. unfold w. split; intros Hb.
  - apply wbind_err. unfold wneed. by rewrite if_true by lia.
  - rewrite (wbind_ok _ _ _ _ _ (wneed_ok _ _ Hb)).
    destruct (build_sealed ss now dest (id_address our) verb m payload buf k)
      as (q & Hlq & Hsq & Hrun); [lia|done..|lia|]. by exists q.
Qed.

Lemma build_whois_sealed our dest l ss now buf :
  len ss = 48 -> len dest = 5 -> len (id_address our) = 5 -> Forall (fun a => len a = 5) l ->
  (len buf < 28 + len l * 5 -> build_whois our dest l ss now buf = Err (TooShort (28 + len l * 5) (len buf))) /\
  (28 + len l * 5 <= len buf -> exists q, build_whois our dest l ss now buf = Ok ((len q, now), q ++ drop (length q) buf) /\
    sealed ss now dest (id_address our) 1 Whois (concat l) q).
Proof.
  intros Hss Hd Hs Hc. assert (len (concat l) = len l * 5) as Hl.
  { clear -Hc. induction l as [|x l IH]; [done|]. apply Forall_cons in Hc as [Hx Hc]. simpl.
    rewrite len_app, len_cons, IH by done. lia. }
  destruct (build_checked ss now dest our Whois _ _ buf (28 + len l * 5) (fun n => wret (28 + n, now)) Hss Hd Hs
    (@pc_emits _ WhoisP.request_codec (WhoisP.mkReq l) Hc)) as [Hshort Hfit]; [cbn; lia|].
  split; [exact Hshort|]. intros Hb. destruct (Hfit Hb) as (q & Hq & Hr & Hsq). exists q. split; [|exact Hsq].
  unfold build_whois. etransitivity; [exact Hr|]. unfold wret. by rewrite Hq.
Qed.

Lemma build_ok_hello_sealed our dest pid echo ss now buf :
  len ss = 48 -> len dest = 5 -> len (id_address our) = 5 -> OkP.wf (ok_hello pid echo) ->
  (len buf < 60 -> build_ok_hello our dest pid echo ss now false buf = Err (TooShort 60 (len buf))) /\
  (60 <= len buf -> exists q, build_ok_hello our dest pid echo ss now false buf = Ok (len q, q ++ drop (length q) buf) /\
    sealed ss now dest (id_address our) 1 VOk (OkP.encode (ok_hello pid echo)) q).
Proof.
  intros Hss Hd Hs Hw.
  destruct (build_checked ss now dest our VOk _ _ buf 60 (fun n => wret (28 + n)) Hss Hd Hs
    (OkP.okmsg_serialize_emits (ok_hello pid echo) (OkP.okmsg_wf_shape _ Hw))) as [Hshort Hfit]; [done|].
  split; [exact Hshort|]. intros Hb. destruct (Hfit Hb) as (q & Hq & Hr & Hsq). exists q. split; [|exact Hsq].
  unfold build_ok_hello. etransitivity; [exact Hr|]. unfold wret. by rewrite Hq.
Qed.

Lemma build_rendezvous_sealed our dest peer target ss now buf : let msg := RendezvousP.mk (b8 0) peer target in
  len ss = 48 -> len dest = 5 -> len (id_address our) = 5 -> RendezvousP.shape msg ->
  (len buf < 60 -> build_rendezvous our dest peer target ss now buf = Err (TooShort 60 (len buf))) /\
  (60 <= len buf -> exists q, build_rendezvous our dest peer target ss now buf = Ok (len q, q ++ drop (length q) buf) /\
    sealed ss now dest (id_address our) 1 Rendezvous (RendezvousP.encode msg) q).
Proof.
  intros msg Hss Hd Hs Hw. assert (len (RendezvousP.encode msg) <= 26) as Hlen
    by (destruct Hw as [Hp Ht]; unfold RendezvousP.encode, AddrTail.encode; destruct target; cbn in *; destruct_and?; len_lia).
  destruct (build_checked ss now dest our Rendezvous _ _ buf 60 (fun n => wret (28 + n)) Hss Hd Hs
    (@pc_emits _ RendezvousP.codec msg Hw)) as [Hshort Hfit]; [change (28 + len (RendezvousP.encode msg) <= 60); lia|].
  split; [exact Hshort|]. intros Hb. destruct (Hfit Hb) as (q & Hq & Hr & Hsq). exists q. split; [|exact Hsq].
  unfold build_rendezvous. etransitivity; [exact Hr|]. unfold wret. by rewrite Hq.
Qed.

(** Every control packet a node builds (HELLO, WHOIS, OK(HELLO), RENDEZVOUS) reaches its
    addressee intact: a buffer below the builder's size check is refused with [TooShort], and
    in any other buffer the packet laid down is authenticated and decrypted under the shared
    secret to the very header that was written (id, destination, source, suite, verb), with a
    payload that parses to what the builder was asked to say. *)
Theorem control_packets_accepted (c : Control) (our : Identity) (dest ss buf : bytes) (now : Z) :
  Ident.public_wf (public_only our) -> len dest = 5 -> len ss = 48 -> u64_ok now -> control_ok c ->
  if len buf <? control_need c
  then build c our dest ss now buf = Err (TooShort (control_need c) (len buf))
  else exists q payload, build c our dest ss now buf = Ok (len q, q ++ drop (length q) buf) /\
    sealed ss now dest (id_address our) (control_suite c) (control_verb c) payload q /\
    control_reads c our now payload.
Proof.
  intros Hid Hd Hss Hnow Hc. pose proof Hid as [((Hs & _) & _) _]. cbn [id_address public_only] in Hs.
  destruct c as [phys wid wts|l|pid echo|peer target]; unfold build; cbn [control_need control_ok] in *.
  - destruct Hc as (Ha & Hwid & Hwts). pose proof (hello_of_wf _ _ _ _ _ Hid Ha Hnow Hwid Hwts) as Hw.
    destruct (_ <? _) eqn:Hb.
    { do 2 apply wbind_err. unfold wneed, ZT_PROTO_MIN_PACKET_LENGTH. change (28 + 128) with 156. by rewrite Hb. }
    destruct (build_hello_sealed our dest phys ss now wid wts buf Hw Hd Hs Hss) as (q & tl & Htl & Hq & Hsq & Hr); [lia|].
    exists q. eexists. split; [rewrite (wbind_ok _ _ _ _ _ Hr); done|]. split; [exact Hsq|].
    eexists. apply HelloP.hello_deserialize_encode; [done|lia].
  - destruct (build_whois_sealed our dest l ss now buf Hss Hd Hs Hc) as [Hshort Hfit].
    destruct (_ <? _) eqn:Hb; [apply wbind_err, Hshort; lia|]. destruct Hfit as (q & Hr & Hsq); [lia|].
    exists q, (concat l). split_and!; [by rewrite (wbind_ok _ _ _ _ _ Hr)|exact Hsq|].
    exact (@pc_roundtrip _ WhoisP.request_codec (WhoisP.mkReq l) Hc).
  - assert (OkP.wf (ok_hello pid echo)) as Hw by (destruct Hc; split_and!; done).
    destruct (build_ok_hello_sealed our dest pid echo ss now buf Hss Hd Hs Hw) as [Hshort Hfit].
    destruct (_ <? _) eqn:Hb; [apply Hshort; lia|]. destruct Hfit as (q & Hr & Hsq); [lia|].
    exists q, (OkP.encode (ok_hello pid echo)). split_and!; [exact Hr|exact Hsq|by apply OkP.okmsg_deserialize_encode].
  - destruct (build_rendezvous_sealed our dest peer target ss now buf Hss Hd Hs Hc) as [Hshort Hfit].
    destruct (_ <? _) eqn:Hb; [apply Hshort; lia|]. destruct Hfit as (q & Hr & Hsq); [lia|].
    exists q, (RendezvousP.encode (RendezvousP.mk (b8 0) peer target)).
    split_and!; [exact Hr|exact Hsq|exact (@pc_roundtrip _ RendezvousP.codec (RendezvousP.mk (b8 0) peer target) Hc)].
Qed.
End Sealed.

Lemma control_packets_accepted_witness :
  let our := Ident.sample in
  let ss := replicate 48 (b8 3) in
  let phys := SockV4 (map b8 [10; 0; 0; 1]) 9993 in
  build (P := Toy.prims) (CWhois [replicate 5 (b8 9)]) our (replicate 5 (b8 2)) ss 17 (replicate 32 (b8 0))
    = Err (TooShort 33 32) /\
  (exists q payload, build (P := Toy.prims) (CHello phys 4 5) our (replicate 5 (b8 2)) ss 17 (replicate 512 (b8 0))
     = Ok (len q, q ++ drop (length q) (replicate 512 (b8 0))) /\
   sealed (P := Toy.prims) ss 17 (replicate 5 (b8 2)) (id_address our) 0 Hello payload q /\
   exists n, HelloP.deserialize payload = Ok (hello_of our phys 17 4 5, n)).
Proof.
  intros our ss phys. split.
  - apply (control_packets_accepted (P := Toy.prims) (L := Toy.laws) (CWhois [replicate 5 (b8 9)]) our
      (replicate 5 (b8 2)) ss (replicate 32 (b8 0)) 17).
    + apply Ident.sample_public_wf.
    + done.
    + done.
    + done.
    + repeat constructor.
  - apply (control_packets_accepted (P := Toy.prims) (L := Toy.laws) (CHello phys 4 5) our
      (replicate 5 (b8 2)) ss (replicate 512 (b8 0)) 17).
    + apply Ident.sample_public_wf.
    + done.
    + done.
    + done.
    + done.
Defined.
End Root.
