(* ===== verification/Dictionary.v ===== *)
(** * Dictionary: the key/value format of network configurations
    (zerotier-node: controller/dictionary.rs). *)
From S2P Require Export Text.

(** A [String] holds UTF-8; [wf] below says so. *)
Record DictEntry := mkEntry { de_key : bytes; de_value : bytes }.
Record Dictionary := mkDictionary { entries : list DictEntry }.

#[export] Instance DictEntry_eq_dec : EqDecision DictEntry.
Proof. solve_decision. Defined.

Inductive DictionaryError := InvalidKey | MissingEquals.

Module Dict.

Definition new : Dictionary := mkDictionary [].
Definition add_binary (d : Dictionary) (key data : bytes) : Dictionary :=
  mkDictionary (entries d ++ [mkEntry key data]).
Definition add_text (d : Dictionary) (key value : bytes) : Dictionary := add_binary d key value.
Definition add_hex (d : Dictionary) (key : bytes) (value : Z) : Dictionary := add_text d key (format_hex value).
Definition add_int : Dictionary -> bytes -> Z -> Dictionary := add_hex.

Definition CR : byte := b8 13.
Definition LF : byte := b8 10.
Definition BACKSLASH : byte := b8 92.

Definition escape (b : byte) : bytes :=
  if bool_decide (b = b8 0) then [BACKSLASH; "0"%byte]
  else if bool_decide (b = CR) then [BACKSLASH; "r"%byte]
  else if bool_decide (b = LF) then [BACKSLASH; "n"%byte]
  else if bool_decide (b = BACKSLASH) then [BACKSLASH; BACKSLASH]
  else if bool_decide (b = "="%byte) then [BACKSLASH; "e"%byte]
  else [b].

Definition serialize_entry (e : DictEntry) : bytes := de_key e ++ "="%byte :: flat_map escape (de_value e).

(** The loop over the entries, from the entry number [index] on. *)
Fixpoint serialize_from (index : Z) (es : list DictEntry) : bytes :=
  match es with
  | [] => []
  | e :: es => (if 0 <? index then [LF] else []) ++ serialize_entry e ++ serialize_from (index + 1) es
  end.
Definition serialize (d : Dictionary) : bytes := serialize_from 0 (entries d).

(** The parser's position is represented by the bytes that are left, [data[pos..]]. *)
Definition is_eol (b : byte) : bool := bool_decide (b = CR) || bool_decide (b = LF).

Fixpoint skip_eol (data : bytes) : bytes :=
  match data with
  | b :: rest => if is_eol b then skip_eol rest else data
  | [] => []
  end.

(** The key: up to a separator or a line end; what is left starts with that byte. *)
Fixpoint scan_key (data : bytes) : bytes * bytes :=
  match data with
  | b :: rest =>
      if bool_decide (b = "="%byte) || is_eol b then ([], data)
      else let '(key, rest) := scan_key rest in (b :: key, rest)
  | [] => ([], [])
  end.

Definition unescape (b : byte) : byte :=
  if bool_decide (b = "r"%byte) then CR
  else if bool_decide (b = "n"%byte) then LF
  else if bool_decide (b = "0"%byte) then b8 0
  else if bool_decide (b = "e"%byte) then "="%byte
  else b.

(** The value: up to a line end that is not escaped. *)
Fixpoint scan_value (escape : bool) (data : bytes) : bytes * bytes :=
  match data with
  | [] => ([], [])
  | b :: rest =>
      if escape then let '(value, rest) := scan_value false rest in (unescape b :: value, rest)
      else if bool_decide (b = BACKSLASH) then scan_value true rest
      else if is_eol b then ([], data)
      else let '(value, rest) := scan_value false rest in (b :: value, rest)
  end.

(** The line end after an entry: CR LF, CR or LF. *)
Definition skip_line_end (data : bytes) : bytes :=
  match data with
  | [] => []
  | b :: rest =>
      if bool_decide (b = CR) then
        match rest with
        | c :: rest' => if bool_decide (c = LF) then rest' else rest
        | [] => []
        end
      else rest
  end.

Fixpoint deserialize_loop (fuel : nat) (data : bytes) (es : list DictEntry)
    : res DictionaryError (list DictEntry) :=
  match fuel with
  | O => Hang
  | S fuel =>
      match data with
      | [] => Ok es
      | _ =>
          match skip_eol data with
          | [] => Ok es
          | data =>
              let '(key, rest) := scan_key data in
              match rest with
              | [] => Err MissingEquals
              | b :: rest =>
                  if negb (bool_decide (b = "="%byte)) then Err MissingEquals else
                  if negb (utf8_valid key) then Err InvalidKey else
                  let '(value, rest) := scan_value false rest in
                  deserialize_loop fuel (skip_line_end rest) (es ++ [mkEntry key value])
              end
          end
      end
  end.

(** Each round reads at least the [=] of an entry. *)
Definition deserialize (data : bytes) : res DictionaryError Dictionary :=
  let* es := deserialize_loop (S (length data)) data [] in Ok (mkDictionary es).

Definition value_as_text (e : DictEntry) : option bytes := if utf8_valid (de_value e) then Some (de_value e) else None.

Definition find_entry (d : Dictionary) (key : bytes) : option DictEntry :=
  find (fun e => bool_decide (de_key e = key)) (entries d).
Definition get_text (d : Dictionary) (key : bytes) : option bytes :=
  match find_entry d key with Some e => value_as_text e | None => None end.
Definition get_binary (d : Dictionary) (key : bytes) : option bytes := de_value <$> find_entry d key.
Definition get_hex_u64 (d : Dictionary) (key : bytes) : option Z :=
  match get_text d key with Some s => from_str_radix 16 U64_MAX s | None => None end.

(** ** Properties *)

(** Keys the format can carry: text without separators or line ends. *)
Definition key_ok (key : bytes) : Prop :=
  utf8_valid key = true /\ "="%byte ∉ key /\ CR ∉ key /\ LF ∉ key.
Definition wf (d : Dictionary) : Prop := Forall (fun e => key_ok (de_key e)) (entries d).

Lemma scan_key_app key data : "="%byte ∉ key -> CR ∉ key -> LF ∉ key ->
  scan_key (key ++ "="%byte :: data) = (key, "="%byte :: data).
Proof.
  induction key as [|b key IH]; cbn [app scan_key]; [done|].
  rewrite !not_elem_of_cons. intros [? ?] [? ?] [? ?]. unfold is_eol.
  rewrite !bool_decide_false by congruence. simpl. by rewrite IH.
Qed.

Lemma scan_key_spec data key rest : scan_key data = (key, rest) ->
  data = key ++ rest /\ "="%byte ∉ key /\ CR ∉ key /\ LF ∉ key.
Proof.
  revert key. induction data as [|b data IH]; cbn [scan_key]; intros key.
  - intros [= <- <-]. split_and!; [done|apply not_elem_of_nil..].
  - unfold is_eol. destruct (_ || _) eqn:E.
    + intros [= <- <-]. split_and!; [done|apply not_elem_of_nil..].
    + destruct (scan_key data) as [key' rest']. intros [= <- <-].
      destruct (IH key' eq_refl) as (-> & ? & ? & ?).
      apply orb_false_iff in E as [E1 E2]. apply orb_false_iff in E2 as [E2 E3].
      repeat match goal with H : bool_decide _ = false |- _ => apply bool_decide_eq_false in H end.
      split_and!; [done|rewrite not_elem_of_cons; split; congruence..].
Qed.

#[local] Arguments scan_key : simpl never.

(** The end of a value: of the data or a line end. *)
Definition at_eol (data : bytes) : Prop := match data with [] => True | b :: _ => is_eol b = true end.

Lemma scan_value_app value data : at_eol data ->
  scan_value false (flat_map escape value ++ data) = (value, data).
Proof.
  intros Hd. induction value as [|b value IH]; cbn [flat_map].
  - destruct data as [|c data]; [done|]. simpl in *. rewrite Hd.
    rewrite bool_decide_false; [done|]. by intros ->.
  - rewrite <- app_assoc. unfold escape at 1.
    destruct (decide (b = b8 0)) as [->|H0]; [exact (f_equal (fun '(v, r) => (_ :: v, r)) IH)|].
    destruct (decide (b = CR)) as [->|H1]; [exact (f_equal (fun '(v, r) => (_ :: v, r)) IH)|].
    destruct (decide (b = LF)) as [->|H2]; [exact (f_equal (fun '(v, r) => (_ :: v, r)) IH)|].
    destruct (decide (b = BACKSLASH)) as [->|H3]; [exact (f_equal (fun '(v, r) => (_ :: v, r)) IH)|].
    destruct (decide (b = "="%byte)) as [->|H4]; [exact (f_equal (fun '(v, r) => (_ :: v, r)) IH)|].
    rewrite !(bool_decide_false (b = _)) by done. cbn [app scan_value]. unfold is_eol.
    rewrite !bool_decide_false by done. cbn [orb]. by rewrite IH.
Qed.

Lemma scan_value_len escape data : len (scan_value escape data).2 <= len data.
Proof.
  revert escape. induction data as [|b data IH]; intros escape; cbn [scan_value]; [done|].
  pose proof (IH true). pose proof (IH false).
  destruct (scan_value true data), (scan_value false data). repeat case_match; simpl in *; len_lia.
Qed.

Lemma skip_eol_len data : len (skip_eol data) <= len data.
Proof. induction data as [|b data IH]; simpl; [done|]. case_match; len_lia. Qed.

Lemma skip_line_end_len data : len (skip_line_end data) <= len data.
Proof. unfold skip_line_end. repeat case_match; simplify_eq; len_lia. Qed.

(** One entry at the front of the data. *)
Lemma deserialize_entry fuel e data es : key_ok (de_key e) -> at_eol data ->
  deserialize_loop (S fuel) (serialize_entry e ++ data) es =
  deserialize_loop fuel (skip_line_end data) (es ++ [e]).
Proof.
  intros (Hu & He & Hc & Hl) Hd. destruct e as [key value]. unfold serialize_entry. simpl in *.
  rewrite <- app_assoc. simpl.
  assert (exists c r, key ++ "="%byte :: flat_map escape value ++ data = c :: r /\ is_eol c = false) as (c & r & E & Hc').
  { destruct key as [|c key]; simpl; eexists _, _; (split; [reflexivity|]); [done|].
    rewrite not_elem_of_cons in Hc, Hl. unfold is_eol. by rewrite !bool_decide_false by naive_solver. }
  assert (skip_eol (c :: r) = c :: r) as Hs by (simpl; by rewrite Hc').
  cbn [deserialize_loop]. rewrite E. cbv match. rewrite Hs. cbv match. rewrite <- E.
  rewrite scan_key_app by done. cbv match. rewrite bool_decide_true by done. simpl. rewrite Hu. simpl.
  by rewrite scan_value_app.
Qed.

Lemma deserialize_from fuel index es acc : 0 < index -> Forall (fun e => key_ok (de_key e)) es ->
  (length es < fuel)%nat ->
  deserialize_loop fuel (skip_line_end (serialize_from index es)) acc = Ok (acc ++ es).
Proof.
  revert fuel index acc. induction es as [|e es IH]; intros fuel index acc Hi Hw Hf.
  - destruct fuel; [lia|]. simpl. by rewrite app_nil_r.
  - apply Forall_cons_1 in Hw as [He Hw]. simpl in Hf. destruct fuel; [lia|].
    cbn [serialize_from]. rewrite if_true by lia. cbn [app skip_line_end].
    rewrite bool_decide_false by done. rewrite deserialize_entry; [|done|].
    + rewrite IH by (try done; lia). by rewrite <- app_assoc.
    + destruct es; [done|]. cbn [serialize_from]. by rewrite if_true by lia.
Qed.

Lemma len_serialize_from index es : len es <= len (serialize_from index es).
Proof.
  revert index. induction es as [|e es IH]; intros index; cbn [serialize_from]; [done|].
  specialize (IH (index + 1)). unfold serialize_entry. len_lia.
Qed.

Lemma deserialize_serialize d : wf d -> deserialize (serialize d) = Ok d.
Proof.
  destruct d as [es]. unfold wf, deserialize, serialize. cbn [entries]. intros Hw.
  destruct es as [|e es]; [done|]. apply Forall_cons_1 in Hw as [He Hw]. cbn [serialize_from].
  rewrite if_false by done. cbn [app]. rewrite deserialize_entry; [|done|].
  - rewrite deserialize_from; [done|lia|done|]. pose proof (len_serialize_from (0 + 1) es).
    unfold serialize_entry, len in *. rewrite !length_app. simpl. lia.
  - destruct es; [done|]. by cbn [serialize_from].
Qed.

Lemma deserialize_loop_safe fuel data es : len data < Z.of_nat fuel ->
  Forall (fun e => key_ok (de_key e)) es ->
  wp (deserialize_loop fuel data es) (Forall (fun e => key_ok (de_key e))) (fun _ => True).
Proof.
  revert data es. induction fuel as [|fuel IH]; intros data es Hf Hw; [len_facts; lia|].
  cbn [deserialize_loop]. destruct data as [|b0 data]; [done|].
  pose proof (skip_eol_len (b0 :: data)). destruct (skip_eol _) as [|b1 data1] eqn:E1; [done|].
  destruct (scan_key _) as [key rest] eqn:E2. apply scan_key_spec in E2 as (E2 & Hk).
  destruct rest as [|b rest]; [done|]. rewrite E2, len_app, !len_cons in *.
  destruct (negb (bool_decide _)); [done|]. destruct (utf8_valid key) eqn:Hu; simpl; [|done].
  pose proof (scan_value_len false rest). destruct (scan_value false rest) as [value rest']. simpl in *.
  apply IH.
  - pose proof (skip_line_end_len rest'). len_facts. lia.
  - apply Forall_app. split; [done|]. constructor; [done|constructor].
Qed.

Lemma deserialize_safe data : wp (deserialize data) wf (fun _ => True).
Proof.
  unfold deserialize. apply wp_bind. eapply wp_mono; [apply deserialize_loop_safe| |done].
  - unfold len. lia.
  - constructor.
  - by intros es Hes.
Qed.

Lemma escape_no_nul b c : c ∈ escape b -> c <> b8 0 /\ c <> CR /\ c <> LF /\ c <> "="%byte.
Proof.
  unfold escape. repeat case_bool_decide; simplify_eq; rewrite ?elem_of_cons, ?elem_of_nil;
    intros ?; destruct_or?; try done; subst; (split_and!; first [done|vm_compute; discriminate]).
Qed.

(** ** Lookups *)

Lemma find_entry_app d e key :
  find_entry (mkDictionary (entries d ++ [e])) key =
  match find_entry d key with
  | Some x => Some x
  | None => if bool_decide (de_key e = key) then Some e else None
  end.
Proof.
  unfold find_entry. simpl. induction (entries d) as [|x l IH]; simpl; [done|].
  destruct (bool_decide (de_key x = key)); [done|exact IH].
Qed.

Lemma get_hex_format d key v : u64_ok v -> find_entry d key = Some (mkEntry key (format_hex v)) ->
  get_hex_u64 d key = Some v.
Proof.
  intros Hv Hf. unfold get_hex_u64, get_text. rewrite Hf. unfold value_as_text. simpl.
  unfold format_hex. rewrite utf8_format by lia. apply from_str_format; unfold u64_ok in *; lia.
Qed.

Lemma keys_no_nul index es : Forall (fun e => b8 0 ∉ de_key e) es -> b8 0 ∉ serialize_from index es.
Proof.
  intros Hw. revert index. induction Hw as [|e es He _ IH]; intros index; cbn [serialize_from].
  - apply not_elem_of_nil.
  - unfold serialize_entry. rewrite !not_elem_of_app, not_elem_of_cons. split_and!; [|done|done| |apply IH].
    + case_match; [|apply not_elem_of_nil]. by apply not_elem_of_cons; split; [|apply not_elem_of_nil].
    + rewrite list_elem_of_In, in_flat_map. intros (b & _ & Hb%list_elem_of_In%escape_no_nul). naive_solver.
Qed.

(** Any dictionary whose keys are text without separators or line ends, whatever bytes
    its values hold, parses back from its serialized form to exactly the same entries in the
    same order, and the serialized form has no NUL byte when the keys have none (it is a C
    string). *)
Theorem dictionary_roundtrip (d : Dictionary) : wf d ->
  deserialize (serialize d) = Ok d /\
  (Forall (fun e => b8 0 ∉ de_key e) (entries d) -> b8 0 ∉ serialize d).
Proof. intros Hw. split; [by apply deserialize_serialize|apply keys_no_nul]. Qed.

Definition sample : Dictionary :=
  mkDictionary [mkEntry (str "nwid") (str "8056c2e21c000001"); mkEntry (str "C") [b8 0; LF; CR; BACKSLASH; "="%byte];
                mkEntry [] []].

Lemma dict_sample_wf : wf sample.
Proof. unfold wf, key_ok. repeat constructor; by apply (bool_decide_unpack _). Qed.

Lemma dictionary_roundtrip_witness :
  len (serialize sample) = 36 /\ deserialize (serialize sample) = Ok sample.
Proof. split; [reflexivity|]. apply (dictionary_roundtrip sample dict_sample_wf). Defined.

(** Any bytes parse to a dictionary or to one of the two errors, in a number of rounds
    bounded by the length of the data; a dictionary that was parsed is one the format can
    carry, so that it survives being written again. *)
Lemma dictionary_deserialize_total (data : bytes) :
  match deserialize data with
  | Ok d => wf d /\ deserialize (serialize d) = Ok d
  | Err _ => True
  | Panic | Hang => False
  end.
Proof.
  pose proof (deserialize_safe data) as H. destruct (deserialize data) as [d| | |]; [|done..].
  simpl in H. split; [done|by apply deserialize_serialize].
Qed.

End Dict.
