(* ===== verification/Pools.v ===== *)
(** * Pools: automatic IPv4 assignment (zerotier-node: controller/ip_pool.rs). *)
From S2P Require Export Text.

Record IpPool := mkPool { range_start : bytes; range_end : bytes }.

Module Pools.

(** [parts[0].parse().ok()? ...]: exactly four octets. *)
Definition octets (parts : list bytes) : option bytes :=
  match parts with
  | [a; b; c; d] =>
      match parse_u8 a, parse_u8 b, parse_u8 c, parse_u8 d with
      | Some a, Some b, Some c, Some d => Some [b8 a; b8 b; b8 c; b8 d]
      | _, _, _, _ => None
      end
  | _ => None
  end.

(** The part before the first [/]. *)
Definition before_slash (s : bytes) : bytes := hd [] (split_on "/"%byte s).

Definition parse_ipv4_from_assignment (s : bytes) : option bytes := octets (split_on "."%byte (before_slash s)).

Definition format_ipv4 (ip : bytes) : bytes :=
  match ip with
  | [a; b; c; d] =>
      format_dec (u8 a) ++ "."%byte :: format_dec (u8 b) ++ "."%byte ::
      format_dec (u8 c) ++ "."%byte :: format_dec (u8 d)
  | _ => []
  end.

(** [for addr in start..=end], [n] addresses from [addr] on. *)
Fixpoint first_free (n : nat) (addr : Z) (assigned_ips : list bytes) : option bytes :=
  match n with
  | O => None
  | S n =>
      let ip_bytes := to_be 4 addr in
      if existsb (fun a => bool_decide (a = ip_bytes)) assigned_ips
      then first_free n (addr + 1) assigned_ips
      else Some ip_bytes
  end.

Fixpoint scan_pools (pools : list IpPool) (assigned_ips : list bytes) : option bytes :=
  match pools with
  | [] => None
  | pool :: pools =>
      let start := from_be (range_start pool) in
      let end_ := from_be (range_end pool) in
      match first_free (Z.to_nat (end_ - start + 1)) start assigned_ips with
      | Some ip => Some ip
      | None => scan_pools pools assigned_ips
      end
  end.

Definition allocate_ipv4 (pools : list IpPool) (assigned : list bytes) : option bytes :=
  scan_pools pools (omap parse_ipv4_from_assignment assigned).

(** ** Properties *)

Lemma octets_format a b c d :
  octets [format_dec (u8 a); format_dec (u8 b); format_dec (u8 c); format_dec (u8 d)] = Some [a; b; c; d].
Proof.
  simpl. pose proof (u8_range a). pose proof (u8_range b). pose proof (u8_range c). pose proof (u8_range d).
  rewrite !parse_u8_format by lia. by rewrite !b8_u8.
Qed.

Lemma notin_dec z c : c = "."%byte \/ c = "/"%byte \/ c = ":"%byte -> c ∉ format_dec z.
Proof.
  intros Hc. apply notin_format; [lia|]. intros Hd%digit_ascii. destruct_or! Hc; subst; naive_solver.
Qed.

Lemma split_dots ip : len ip = 4 ->
  exists a b c d, ip = [a; b; c; d] /\ split_on "."%byte (format_ipv4 ip) =
    [format_dec (u8 a); format_dec (u8 b); format_dec (u8 c); format_dec (u8 d)].
Proof.
  destruct ip as [|a [|b [|c [|d [|]]]]]; unfold len; simpl; try lia. intros _.
  exists a, b, c, d. split; [done|].
  rewrite !split_on_app by (apply notin_dec; auto). by rewrite split_on_single by (apply notin_dec; auto).
Qed.

Lemma no_slash ip : "/"%byte ∉ format_ipv4 ip /\ ":"%byte ∉ format_ipv4 ip.
Proof.
  destruct ip as [|a [|b [|c [|d [|]]]]]; try (split; apply not_elem_of_nil).
  unfold format_ipv4. rewrite !not_elem_of_app, !not_elem_of_cons, !not_elem_of_app, !not_elem_of_cons,
    !not_elem_of_app, !not_elem_of_cons.
  split_and!; first [done | apply notin_dec; auto].
Qed.

(** An address survives formatting as an assignment, whatever follows the slash. *)
Lemma parse_format ip suffix : len ip = 4 ->
  parse_ipv4_from_assignment (format_ipv4 ip) = Some ip /\
  parse_ipv4_from_assignment (format_ipv4 ip ++ "/"%byte :: suffix) = Some ip.
Proof.
  intros Hl. destruct (no_slash ip) as [Hs _]. destruct (split_dots ip Hl) as (a & b & c & d & -> & H).
  unfold parse_ipv4_from_assignment, before_slash.
  rewrite (split_on_single "/"%byte), (split_on_app "/"%byte) by done. cbn [hd]. by rewrite H, octets_format.
Qed.

Lemma octets_len parts ip : octets parts = Some ip -> len ip = 4.
Proof. unfold octets. intros H. repeat case_match; simplify_eq; reflexivity. Qed.

(** [a] is an address of the pool. *)
Definition in_pool (p : IpPool) (ip : bytes) : Prop :=
  len ip = 4 /\ from_be (range_start p) <= from_be ip <= from_be (range_end p).
Definition pool_wf (p : IpPool) : Prop := len (range_start p) = 4 /\ len (range_end p) = 4.
(** Some assignment is of the address [ip]. *)
Definition taken (assigned : list bytes) (ip : bytes) : Prop :=
  exists s, s ∈ assigned /\ parse_ipv4_from_assignment s = Some ip.

(** An assignment as it is recorded is text. *)
Lemma format_text ip : utf8_valid (format_ipv4 ip ++ str "/24") = true.
Proof.
  apply utf8_ascii. apply Forall_app. split; [|by repeat constructor].
  assert (forall n, Forall (fun b => u8 b <= 0x7f) (format_dec n)) as Hd.
  { intros n. eapply Forall_impl; [apply (format_digits 10 n ltac:(lia))|]. intros c Hc. by apply digit_ascii. }
  unfold format_ipv4. destruct ip as [|a [|b [|c [|d [|]]]]]; try constructor.
  repeat (apply Forall_app; split; [apply Hd|apply Forall_cons; split; [done|]]). apply Hd.
Qed.

Lemma taken_omap assigned ip : ip ∈ omap parse_ipv4_from_assignment assigned <-> taken assigned ip.
Proof. apply list_elem_of_omap. Qed.

Lemma existsb_elem ip (l : list bytes) : existsb (fun a => bool_decide (a = ip)) l = true <-> ip ∈ l.
Proof.
  rewrite existsb_exists. split.
  - intros (x & Hx%list_elem_of_In & ->%bool_decide_eq_true). done.
  - intros H. exists ip. split; [by apply list_elem_of_In|by apply bool_decide_eq_true].
Qed.

Lemma first_free_spec n addr l : 0 <= addr -> addr + Z.of_nat n <= 2 ^ 32 ->
  match first_free n addr l with
  | Some ip => len ip = 4 /\ addr <= from_be ip < addr + Z.of_nat n /\ ip ∉ l /\
               forall x, len x = 4 -> addr <= from_be x < from_be ip -> x ∈ l
  | None => forall x, len x = 4 -> addr <= from_be x < addr + Z.of_nat n -> x ∈ l
  end.
Proof.
  revert addr. induction n as [|n IH]; intros addr H0 Hn; cbn [first_free]; [intros; lia|].
  assert (from_be (to_be 4 addr) = addr) as Ha by (apply from_be_to_be_small; lia).
  assert (forall x, len x = 4 -> from_be x = addr -> x = to_be 4 addr) as Hx.
  { intros x Hl He. apply from_be_inj; [|by rewrite Ha]. rewrite length_to_be. unfold len in Hl. lia. }
  destruct (existsb _ l) eqn:E.
  - apply existsb_elem in E. specialize (IH (addr + 1) ltac:(lia) ltac:(lia)).
    destruct (first_free n (addr + 1) l) as [ip|].
    + destruct IH as (? & ? & ? & IH). split_and!; [done|lia..|done|]. intros x Hl Hr.
      destruct (decide (from_be x = addr)) as [He|]; [by rewrite (Hx x Hl He)|apply IH; [done|lia]].
    + intros x Hl Hr. destruct (decide (from_be x = addr)) as [He|]; [by rewrite (Hx x Hl He)|apply IH; [done|lia]].
  - split_and!; [apply len_to_be4|lia..| |intros; lia].
    intros Hin. by rewrite (proj2 (existsb_elem _ _) Hin) in E.
Qed.

Lemma scan_pools_spec pools l : Forall pool_wf pools ->
  match scan_pools pools l with
  | Some ip => ip ∉ l /\ exists pre p post, pools = pre ++ p :: post /\ in_pool p ip /\
      (forall q x, q ∈ pre -> in_pool q x -> x ∈ l) /\
      (forall x, in_pool p x -> from_be x < from_be ip -> x ∈ l)
  | None => forall q x, q ∈ pools -> in_pool q x -> x ∈ l
  end.
Proof.
  induction 1 as [|p pools [Hs He] _ IH]; cbn [scan_pools]; [by intros ? ? ?%elem_of_nil|].
  pose proof (from_be_range (range_start p)) as Rs. pose proof (from_be_range (range_end p)) as Re.
  rewrite Hs in Rs. rewrite He in Re. change (256 ^ 4) with (2 ^ 32) in *.
  pose proof (first_free_spec (Z.to_nat (from_be (range_end p) - from_be (range_start p) + 1))
    (from_be (range_start p)) l ltac:(lia)) as H.
  destruct (decide (from_be (range_start p) <= from_be (range_end p))) as [Hle|Hle].
  2: { replace (Z.to_nat _) with O by lia. cbn [first_free].
       destruct (scan_pools pools l) as [ip|].
       - destruct IH as (Hip & pre & q & post & -> & Hq & Hpre & Hlt). split; [done|].
         exists (p :: pre), q, post. split_and!; [done|done| |done].
         intros r x [->|Hr]%elem_of_cons Hx; [unfold in_pool in Hx; lia|by eapply Hpre].
       - intros q x [->|Hq]%elem_of_cons Hx; [unfold in_pool in Hx; lia|by eapply IH]. }
  specialize (H ltac:(lia)). destruct (first_free _ _ _) as [ip|].
  - destruct H as (Hl & Hr & Hn & Hf). split; [done|]. exists [], p, pools. split_and!; [done|split; [done|lia]| |].
    + by intros ? ? ?%elem_of_nil.
    + intros x [Hx1 Hx2] Hx. apply Hf; [done|lia].
  - destruct (scan_pools pools l) as [ip|].
    + destruct IH as (Hip & pre & q & post & -> & Hq & Hpre & Hlt). split; [done|].
      exists (p :: pre), q, post. split_and!; [done|done| |done].
      intros r x [->|Hr]%elem_of_cons [Hx1 Hx2]; [apply H; [done|lia]|by eapply Hpre].
    + intros q x [->|Hq]%elem_of_cons [Hx1 Hx2]; [apply H; [done|lia]|by eapply IH].
Qed.

Lemma allocate_free pools assigned ip : Forall pool_wf pools ->
  allocate_ipv4 pools assigned = Some ip -> len ip = 4 /\ ~ taken assigned ip.
Proof.
  intros Hw E. pose proof (scan_pools_spec pools (omap parse_ipv4_from_assignment assigned) Hw) as Hs.
  unfold allocate_ipv4 in E. rewrite E in Hs. destruct Hs as (Hn & pre & p & post & _ & [Hl _] & _).
  split; [done|]. by rewrite taken_omap in Hn.
Qed.

(** Automatic assignment hands out the first free address: it lies in a pool, no existing
    assignment is of it, every address of the earlier pools and every lower address of its
    own pool is taken; it refuses only when every address of every pool is taken. Once the
    address is recorded with a prefix it is not handed out again. *)
Theorem allocate_ipv4_spec (pools : list IpPool) (assigned : list bytes) : Forall pool_wf pools ->
  match allocate_ipv4 pools assigned with
  | Some ip =>
      ~ taken assigned ip /\
      (exists pre p post, pools = pre ++ p :: post /\ in_pool p ip /\
        (forall q x, q ∈ pre -> in_pool q x -> taken assigned x) /\
        (forall x, in_pool p x -> from_be x < from_be ip -> taken assigned x)) /\
      (forall assigned', (format_ipv4 ip ++ str "/24") ∈ assigned' -> allocate_ipv4 pools assigned' <> Some ip)
  | None => forall q x, q ∈ pools -> in_pool q x -> taken assigned x
  end.
Proof.
  intros Hw. unfold allocate_ipv4. pose proof (scan_pools_spec pools (omap parse_ipv4_from_assignment assigned) Hw) as H.
  destruct (scan_pools pools (omap parse_ipv4_from_assignment assigned)) as [ip|].
  - destruct H as (Hn & pre & p & post & -> & Hp & Hpre & Hlt). rewrite taken_omap in Hn. split; [done|]. split.
    + exists pre, p, post. split_and!; [done|done|..]; intros; apply taken_omap; eauto.
    + intros assigned' Hin He. pose proof (scan_pools_spec _ (omap parse_ipv4_from_assignment assigned') Hw) as H.
      rewrite He in H. destruct H as [H _]. apply H, taken_omap. eexists. split; [exact Hin|].
      apply parse_format. apply Hp.
  - intros q x Hq Hx. apply taken_omap. by eapply H.
Qed.

Definition sample_pools : list IpPool := [mkPool (map b8 [10; 0; 0; 1]) (map b8 [10; 0; 0; 2]);
                                          mkPool (map b8 [172; 16; 0; 1]) (map b8 [172; 16; 0; 5])].

Lemma allocate_ipv4_spec_witness :
  allocate_ipv4 sample_pools [str "10.0.0.1/24"; str "x"; str "10.0.0.2"] = Some (map b8 [172; 16; 0; 1]) /\
  ~ taken [str "10.0.0.1/24"; str "x"; str "10.0.0.2"] (map b8 [172; 16; 0; 1]).
Proof.
  pose proof (allocate_ipv4_spec sample_pools [str "10.0.0.1/24"; str "x"; str "10.0.0.2"]) as H.
  assert (allocate_ipv4 sample_pools [str "10.0.0.1/24"; str "x"; str "10.0.0.2"] = Some (map b8 [172; 16; 0; 1]))
    as E by (vm_compute; reflexivity).
  rewrite E in H. split; [exact E|]. apply H. repeat constructor.
Defined.

End Pools.
