(* ===== verification/IpDisplay.v ===== *)
(** * IpDisplay: the text of an [Ipv6Addr], and that it is parsed back to the same address. *)
From S2P Require Export Pools.

Module IpDisplay.
Import IpText.

(** [Ipv6Addr::segments]. *)
Fixpoint segments (ip : bytes) : list Z :=
  match ip with a :: b :: ip => from_be [a; b] :: segments ip | _ => [] end.

(** The first of the longest runs of zeros, from [i] on: where it starts and how long it is. *)
Fixpoint longest_run (i : nat) (current longest : nat * nat) (gs : list Z) : nat * nat :=
  match gs with
  | [] => longest
  | g :: gs =>
      if g =? 0 then
        let current := (if bool_decide (current.2 = O) then i else current.1, S current.2) in
        longest_run (S i) current (if (longest.2 <? current.2)%nat then current else longest) gs
      else longest_run (S i) (O, O) longest gs
  end.

(** The groups in hexadecimal, a colon before each but the first of the text. *)
Fixpoint fmt_groups (index : nat) (gs : list Z) : bytes :=
  match gs with
  | [] => []
  | g :: gs => (if bool_decide (index = O) then [] else [":"%byte]) ++ format_hex g ++ fmt_groups (S index) gs
  end.

Definition V4_MAPPED : bytes := replicate 10 (b8 0) ++ [b8 0xff; b8 0xff].

Definition display_ipv6 (ip : bytes) : bytes :=
  if bool_decide (take 12 ip = V4_MAPPED) then str "::ffff:" ++ Pools.format_ipv4 (drop 12 ip)
  else let gs := segments ip in
       let '(start, n) := longest_run 0 (O, O) (O, O) gs in
       if (1 <? n)%nat then fmt_groups 0 (take start gs) ++ str "::" ++ fmt_groups 0 (drop (start + n) gs)
       else fmt_groups 0 gs.

Example display_samples :
  display_ipv6 (map b8 [0xfd; 0; 0; 0; 0; 0; 0; 0; 0; 0; 0; 0; 0; 0; 0; 1]) = str "fd00::1" /\
  display_ipv6 (map b8 [0; 0; 0; 0; 0; 0; 0; 0; 0; 0; 0xff; 0xff; 10; 0; 0; 1]) = str "::ffff:10.0.0.1" /\
  display_ipv6 (replicate 16 (b8 0)) = str "::" /\
  display_ipv6 (map b8 [0x20; 1; 0xd; 0xb8; 0; 0; 0; 1; 0; 0; 0; 0; 0; 1; 0; 1]) = str "2001:db8:0:1::1:1".
Proof. by vm_compute. Qed.

(** ** Numbers *)

(** What may follow a number of [radix]. *)
Definition ends_number (radix : Z) (rest : bytes) : Prop :=
  match rest with c :: _ => digit_of radix c = None | [] => True end.

Lemma read_digits_spec radix max n acc count s v rest : digits radix max acc s = Some v -> (length s <= n)%nat ->
  ends_number radix rest -> read_digits radix n acc count (s ++ rest) = Some (v, (count + length s)%nat, rest).
Proof.
  revert n acc count. induction s as [|c s IH]; intros n acc count; cbn [digits app length].
  - intros [= <-] _ Hr. rewrite Nat.add_0_r. destruct n, rest as [|c rest]; cbn [read_digits]; try done; cbn in Hr; by rewrite Hr.
  - destruct (digit_of radix c) as [d|] eqn:E; [|done]. destruct (_ <=? max); [|done]. intros Hd Hl Hr.
    destruct n as [|n]; [lia|]. cbn [read_digits]. rewrite E. rewrite (IH n) by (first [done|lia]). f_equal. f_equal. f_equal. lia.
Qed.

Lemma fmt_radix_length fuel radix n acc k : 1 < radix -> 0 <= n < radix ^ Z.of_nat k -> (0 < k)%nat ->
  (length (fmt_radix fuel radix n acc) <= k + length acc)%nat.
Proof.
  intros Hr. revert n acc k. induction fuel as [|fuel IH]; intros n acc k Hn Hk; cbn [fmt_radix]; [lia|].
  destruct (Z.ltb_spec n radix) as [|Hge]; cbn [length]; [lia|]. destruct k as [|[|k]]; [lia| |].
  - change (radix ^ Z.of_nat 1) with (radix ^ 1) in Hn. rewrite Z.pow_1_r in Hn. lia.
  - etransitivity; [apply (IH _ _ (S k)); [|lia]|cbn [length]; lia].
    split; [apply Z.div_pos; lia|]. apply Z.div_lt_upper_bound; [lia|].
    rewrite <- Z.pow_succ_r by lia. rewrite <- Nat2Z.inj_succ. apply Hn.
Qed.

Lemma format_digits_value radix n : 10 <= radix <= 16 -> 0 <= n <= U64_MAX -> digits radix U64_MAX 0 (format_radix radix n) = Some n.
Proof.
  intros Hr Hn. unfold format_radix. rewrite digits_fmt; [done|lia|done|]. unfold U64_MAX in Hn.
  assert (10 ^ 64 <= radix ^ Z.of_nat 64) by (apply Z.pow_le_mono_l; lia). lia.
Qed.

Lemma format_nonempty radix n : format_radix radix n <> [].
Proof. unfold format_radix. by destruct (fmt_radix_cons 63 radix n []) as (c & s & ->). Qed.

Lemma read_hex_group g rest : u16_ok g -> ends_number 16 rest ->
  read_number 16 4 U16_MAX true (format_hex g ++ rest) = Some (g, rest).
Proof.
  intros Hg Hr. unfold u16_ok, U16_MAX in *. unfold read_number.
  assert (length (format_hex g) <= 4)%nat as Hl.
  { pose proof (fmt_radix_length 64 16 g [] 4 ltac:(lia) ltac:(lia) ltac:(lia)) as H. cbn [length] in H.
    unfold format_hex, format_radix. lia. }
  rewrite (read_digits_spec 16 U64_MAX 4 0 0 _ g) by
    (first [done | apply (format_digits_value 16); unfold U64_MAX; lia]).
  rewrite bool_decide_false; [cbn [negb andb]; by rewrite if_true by (unfold U16_MAX; lia)|].
  pose proof (format_nonempty 16 g). unfold format_hex. destruct (format_radix 16 g); [done|]. cbn. lia.
Qed.

(** A text that starts with a hexadecimal group and no dot after it is no IPv4 address. *)
Lemma read_digits_no_dot n acc count w rest v c rest' : Forall (is_digit 16) w ->
  match rest with [] => True | x :: _ => x = ":"%byte end ->
  read_digits 10 n acc count (w ++ rest) = Some (v, c, rest') ->
  match rest' with [] => True | x :: _ => x <> "."%byte end.
Proof.
  intros Hw Hr. revert n acc count. induction Hw as [|x w Hx _ IH]; intros n acc count; cbn [app].
  - destruct n, rest as [|x rest]; cbn [read_digits]; try (by intros [= _ _ <-]); subst x; by intros [= _ _ <-].
  - destruct n as [|n]; cbn [read_digits]; (destruct (digit_of 10 x) as [d|]; [first [done|apply IH]|]);
      intros [= _ _ <-]; by apply digit_ascii in Hx as (_ & _ & Hx & _).
Qed.

Lemma read_ipv4_group g rest : match rest with [] => True | x :: _ => x = ":"%byte end ->
  read_ipv4_addr (format_hex g ++ rest) = None.
Proof.
  intros Hr. unfold read_ipv4_addr. cbn [read_octets read_separator].
  destruct (read_number 10 3 255 false (format_hex g ++ rest)) as [[o s]|] eqn:E; [|done].
  assert (match s with [] => True | x :: _ => x <> "."%byte end) as Hs.
  { unfold read_number in E. destruct (read_digits 10 3 0 0 (format_hex g ++ rest)) as [[[v c] s']|] eqn:Ed; [|done].
    assert (s' = s) as -> by (repeat case_match; try discriminate; by injection E as _ ->).
    eapply read_digits_no_dot; [|exact Hr|exact Ed]. apply (format_digits 16); lia. }
  cbn [read_given_char]. destruct s as [|x s]; [done|]. cbn [read_given_char]. by rewrite bool_decide_false.
Qed.

(** ** Groups *)

Definition stops (rest : bytes) : Prop := rest = [] \/ exists r, rest = str "::" ++ r.

Lemma stops_number rest : stops rest -> ends_number 16 rest /\ match rest with [] => True | x :: _ => x = ":"%byte end.
Proof. by intros [->|[r ->]]. Qed.

(** Nothing more is read where the text stops. *)
Lemma read_groups_stop slots limit index rest : stops rest -> read_groups slots limit index rest = ([], false, rest).
Proof.
  intros Hr. destruct slots as [|slots]; [done|]. cbn [read_groups].
  assert (forall A (inner : Reader A), (forall s, match s with [] => True | x :: _ => x = ":"%byte end -> inner s = None) ->
    read_separator ":"%byte index inner rest = None) as Hsep.
  { intros A inner Hi. destruct Hr as [->|[r ->]]; destruct index; cbn; try done; by apply Hi. }
  assert ((if (index <? limit - 1)%nat then read_separator ":"%byte index read_ipv4_addr rest else None) = None) as ->.
  { case_match; [|done]. apply Hsep. intros s Hs. destruct s as [|x s]; [done|]. by subst x. }
  rewrite Hsep; [done|]. intros s Hs. destruct s as [|x s]; [done|]. by subst x.
Qed.

Lemma read_separator_at {A} index (inner : Reader A) s :
  read_separator ":"%byte index inner ((if bool_decide (index = O) then [] else [":"%byte]) ++ s) = inner s.
Proof. destruct index; cbn; [done|]. done. Qed.

Lemma follow_group index gs rest : stops rest ->
  ends_number 16 (fmt_groups (S index) gs ++ rest) /\
  match fmt_groups (S index) gs ++ rest with [] => True | x :: _ => x = ":"%byte end.
Proof. intros Hr. destruct gs as [|g gs]; cbn [fmt_groups app]; [by apply stops_number|]. by rewrite bool_decide_false. Qed.

Lemma read_groups_fmt gs slots limit index rest : Forall u16_ok gs -> (length gs <= slots)%nat -> stops rest ->
  read_groups slots limit index (fmt_groups index gs ++ rest) = (gs, false, rest).
Proof.
  intros Hg. revert slots index. induction Hg as [|g gs Hg _ IH]; intros slots index Hl Hr; [by apply read_groups_stop|].
  destruct slots as [|slots]; cbn [length] in Hl; [lia|]. cbn [fmt_groups read_groups]. rewrite <- !app_assoc, !read_separator_at.
  destruct (follow_group index gs rest Hr) as [He Hc]. rewrite read_ipv4_group by done.
  assert ((if (index <? limit - 1)%nat then None else None) = @None (bytes * bytes)) as -> by (destruct (index <? limit - 1)%nat; reflexivity).
  rewrite read_hex_group by done. by rewrite IH by (first [done|lia]).
Qed.

(** ** Runs of zeros *)

Definition zeros_at (gs : list Z) (span : nat * nat) : Prop := take span.2 (drop span.1 gs) = replicate span.2 0.

Lemma zeros_extend gs start n : zeros_at gs (start, n) -> gs !! (start + n)%nat = Some 0 -> zeros_at gs (start, S n).
Proof.
  unfold zeros_at. cbn [fst snd]. intros Hz Hg.
  assert (drop start gs !! n = Some 0) as Hd by (by rewrite lookup_drop).
  rewrite (take_S_r _ _ _ Hd), Hz. symmetry. apply (replicate_S_end n 0).
Qed.

Lemma longest_run_zeros all gs i current longest : gs = drop i all ->
  (current.2 = O \/ (current.1 + current.2 = i)%nat) -> zeros_at all current -> zeros_at all longest ->
  zeros_at all (longest_run i current longest gs).
Proof.
  revert i current longest. induction gs as [|g gs IH]; intros i current longest Hg Hc Hz Hl; [done|]. cbn [longest_run].
  assert (gs = drop (S i) all) as Hg' by (by rewrite <- Nat.add_1_r, <- drop_drop, <- Hg).
  assert (all !! i = Some g) as Hi by (rewrite <- (Nat.add_0_r i), <- lookup_drop, <- Hg; done).
  destruct (Z.eqb_spec g 0) as [->|Hne].
  - set (start := if bool_decide (current.2 = O) then i else current.1).
    assert (start + current.2 = i)%nat as Hs.
    { unfold start. destruct (decide (current.2 = O)) as [E|E]; [rewrite bool_decide_true by done; lia|].
      rewrite bool_decide_false by done. lia. }
    assert (zeros_at all (start, S current.2)) as Hz'.
    { apply zeros_extend; [|by rewrite Hs]. unfold start. destruct (decide (current.2 = O)) as [E|E].
      - unfold zeros_at. cbn [fst snd]. by rewrite E.
      - rewrite bool_decide_false by done. by destruct current. }
    apply IH; [done|right; cbn; lia|done|]. by case_match.
  - apply IH; [done|by left|done|done].
Qed.

Lemma run_splits gs start n : longest_run 0 (O, O) (O, O) gs = (start, n) -> (0 < n)%nat ->
  gs = take start gs ++ replicate n 0 ++ drop (start + n) gs /\ (start + n <= length gs)%nat.
Proof.
  intros Hr Hn. pose proof (longest_run_zeros gs gs 0 (O, O) (O, O) eq_refl ltac:(by left) eq_refl eq_refl) as Hz. rewrite Hr in Hz.
  unfold zeros_at in Hz. cbn [fst snd] in Hz. split.
  - rewrite <- Hz, <- drop_drop, take_drop. by rewrite take_drop.
  - apply (f_equal length) in Hz. rewrite length_take, length_drop, length_replicate in Hz. lia.
Qed.

(** ** The round trip *)

Lemma segments_octets ip n : length ip = (2 * n)%nat ->
  group_octets (segments ip) = ip /\ length (segments ip) = n /\ Forall u16_ok (segments ip).
Proof.
  revert ip. induction n as [|n IH]; intros ip Hl; [by destruct ip|]. destruct ip as [|a [|b ip]]; cbn [length] in Hl; try lia.
  destruct (IH ip ltac:(lia)) as (Ho & Hn & Hu). cbn [segments]. assert (u16_ok (from_be [a; b])) as Hab by (by apply from_be_u16_ok).
  split_and!; [|cbn; lia|by constructor]. unfold group_octets in *. cbn [flat_map]. rewrite Ho.
  by rewrite (to_be_from_be [a; b] : to_be 2 (from_be [a; b]) = [a; b]).
Qed.

(** The numbers of an IPv4 address in text. *)
Lemma octet_text o : (length (format_dec (u8 o)) <= 3)%nat /\ (u8 o = 0 \/ head (format_dec (u8 o)) <> Some "0"%byte).
Proof.
  pose proof (u8_range o) as Hu. split.
  - pose proof (fmt_radix_length 64 10 (u8 o) [] 3 ltac:(lia) ltac:(lia) ltac:(lia)) as H. cbn [length] in H.
    unfold format_dec, format_radix. lia.
  - assert (forallb (fun z => (z =? 0) || negb (bool_decide (head (format_dec z) = Some "0"%byte))) (seqZ 0 256) = true) as H by (vm_compute; reflexivity).
    rewrite forallb_forall in H. specialize (H (u8 o)). rewrite <- list_elem_of_In, elem_of_seqZ in H. specialize (H ltac:(lia)).
    apply orb_true_iff in H as [H|H]; [left; lia|right]. apply negb_true_iff in H. by apply bool_decide_eq_false in H.
Qed.

Lemma read_octet o rest : ends_number 10 rest -> read_number 10 3 255 false (format_dec (u8 o) ++ rest) = Some (u8 o, rest).
Proof.
  intros Hr. pose proof (u8_range o) as Hu. destruct (octet_text o) as [Hl H0]. unfold read_number.
  rewrite (read_digits_spec 10 U64_MAX 3 0 0 _ (u8 o)) by
    (first [done | apply (format_digits_value 10); unfold U64_MAX; lia]).
  pose proof (format_nonempty 10 (u8 o)) as Hne. unfold format_dec in *.
  rewrite bool_decide_false by (destruct (format_radix 10 (u8 o)); cbn; [done|lia]). cbn [Nat.add].
  assert ((negb false && match format_radix 10 (u8 o) ++ rest with c :: _ => bool_decide (c = "0"%byte) | [] => false end &&
    (1 <? length (format_radix 10 (u8 o)))%nat) = false) as ->; [|by rewrite if_true by lia].
  destruct H0 as [->|H0]; [by rewrite andb_false_r|]. destruct (format_radix 10 (u8 o)) as [|c s]; [done|]. cbn [head app] in *.
  rewrite bool_decide_false by congruence. done.
Qed.

Lemma read_ipv4_format ip rest : len ip = 4 -> ends_number 10 rest -> read_ipv4_addr (Pools.format_ipv4 ip ++ rest) = Some (ip, rest).
Proof.
  intros Hl Hr. unfold len in Hl. destruct ip as [|a [|b [|c [|d [|]]]]]; cbn [length] in Hl; try lia.
  unfold Pools.format_ipv4, read_ipv4_addr. cbn [read_octets read_separator]. rewrite <- ?app_assoc. cbn [app].
  rewrite read_octet by done. cbn [read_given_char]. rewrite bool_decide_true by done. rewrite <- ?app_assoc. cbn [app].
  rewrite read_octet by done. cbn [read_given_char]. rewrite bool_decide_true by done. rewrite <- ?app_assoc. cbn [app].
  rewrite read_octet by done. cbn [read_given_char]. rewrite bool_decide_true by done.
  rewrite read_octet by done. by rewrite !b8_u8.
Qed.

(** What follows the two colons of an IPv4-mapped address. *)
Lemma read_mapped_tail v4 : len v4 = 4 ->
  read_groups 7 7 0 (str "ffff" ++ [":"%byte] ++ Pools.format_ipv4 v4) =
  ([0xffff; from_be (take 2 v4); from_be (drop 2 v4)], true, []).
Proof.
  intros Hl. cbn [read_groups]. change (str "ffff") with (format_hex 0xffff).
  change (if (0 <? 7 - 1)%nat then ?x else None) with x. cbn [read_separator].
  rewrite read_ipv4_group, read_hex_group by done.
  change (if (1 <? 7 - 1)%nat then ?x else None) with x. cbn [read_separator app read_given_char].
  rewrite bool_decide_true by done. rewrite <- (app_nil_r (Pools.format_ipv4 v4)). by rewrite read_ipv4_format.
Qed.

Lemma mapped_octets v4 : len v4 = 4 ->
  Some (group_octets (replicate 5 0 ++ [0xffff; from_be (take 2 v4); from_be (drop 2 v4)])) = Some (V4_MAPPED ++ v4).
Proof.
  intros Hl. unfold len in Hl. destruct v4 as [|a [|b [|c [|d [|]]]]]; cbn [length] in Hl; try lia. f_equal.
  unfold group_octets. cbn [replicate app flat_map take drop].
  rewrite (to_be_from_be [a; b] : to_be 2 (from_be [a; b]) = [a; b]), (to_be_from_be [c; d] : to_be 2 (from_be [c; d]) = [c; d]).
  reflexivity.
Qed.

Lemma read_ipv6_display ip : len ip = 16 -> parse_ipv6_addr (display_ipv6 ip) = Some ip.
Proof.
  intros Hl. assert (length ip = (2 * 8)%nat) as Hl' by (unfold len in Hl; lia).
  destruct (segments_octets ip 8 Hl') as (Ho & Hn & Hu). unfold parse_ipv6_addr, parse_with, display_ipv6.
  case_bool_decide as Hm.
  - assert (len (drop 12 ip) = 4) as H4 by len_lia. unfold read_ipv6_addr.
    rewrite (read_groups_stop 8 8 0) by (right; by eexists). cbn [length].
    rewrite bool_decide_false by done. pose proof (read_mapped_tail (drop 12 ip) H4) as Ht.
    set (text := Pools.format_ipv4 (drop 12 ip)) in *.
    change (str "::ffff:" ++ text) with (":"%byte :: ":"%byte :: str "ffff" ++ [":"%byte] ++ text).
    do 2 (cbn [read_given_char]; rewrite bool_decide_true by done). cbn [length Nat.sub Nat.add]. rewrite Ht. cbn [length Nat.sub app]. transitivity (Some (V4_MAPPED ++ drop 12 ip)); [by apply mapped_octets|].
    by rewrite <- Hm, take_drop.
  - destruct (longest_run 0 (O, O) (O, O) (segments ip)) as [start n] eqn:Er. destruct (Nat.ltb_spec 1 n) as [Hlt|Hge].
    + destruct (run_splits _ _ _ Er ltac:(lia)) as [Hs Hle]. unfold read_ipv6_addr.
      rewrite read_groups_fmt; [|by apply Forall_take|rewrite length_take; lia|right; by eexists].
      rewrite bool_decide_false by (rewrite length_take; lia). change (str "::" ++ ?x) with (":"%byte :: ":"%byte :: x).
      do 2 (cbn [read_given_char]; rewrite bool_decide_true by done). set (tail := drop (start + n) (segments ip)) in *.
      assert (length tail = 8 - (start + n))%nat as Ht by (unfold tail; rewrite length_drop; lia).
      rewrite length_take, (Nat.min_l start) by lia.
      rewrite <- (app_nil_r (fmt_groups 0 tail)), read_groups_fmt; [|by apply Forall_drop|lia|by left].
      replace (8 - start - length tail)%nat with n by lia. by rewrite <- Hs, Ho.
    + unfold read_ipv6_addr. pose proof (read_groups_fmt (segments ip) 8 8 0 [] Hu ltac:(lia) ltac:(by left)) as Hr.
      rewrite app_nil_r in Hr. rewrite Hr, bool_decide_true by done. by rewrite Ho.
Qed.
End IpDisplay.
