(* ===== verification/Rules.v ===== *)
(** * Rules: network rules, tags and capabilities (zerotier-node: controller/rules.rs). *)
From S2P Require Export Crypto.

Record Rule := mkRule { r_type : Z; r_not : bool; r_or : bool; r_value : bytes }.
Record Tag := mkTag { tag_id : Z; tag_value : Z }.
Record Capability := mkCapability { cap_id : Z; cap_rules : list Rule }.
Record TagDefinition := mkTagDefinition { td_id : Z; td_name : bytes; td_default : option Z; td_enums : list (bytes * Z) }.

Definition ACTION_DROP : Z := 0x00.
Definition ACTION_ACCEPT : Z := 0x01.
Definition ACTION_TEE : Z := 0x02.
Definition ACTION_WATCH : Z := 0x03.
Definition ACTION_REDIRECT : Z := 0x04.
Definition ACTION_BREAK : Z := 0x05.
Definition ACTION_PRIORITY : Z := 0x06.
Definition MATCH_SOURCE_ZEROTIER_ADDRESS : Z := 0x18.
Definition MATCH_DEST_ZEROTIER_ADDRESS : Z := 0x19.
Definition MATCH_VLAN_ID : Z := 0x1a.
Definition MATCH_VLAN_PCP : Z := 0x1b.
Definition MATCH_VLAN_DEI : Z := 0x1c.
Definition MATCH_MAC_SOURCE : Z := 0x1d.
Definition MATCH_MAC_DEST : Z := 0x1e.
Definition MATCH_IPV4_SOURCE : Z := 0x1f.
Definition MATCH_IPV4_DEST : Z := 0x20.
Definition MATCH_IPV6_SOURCE : Z := 0x21.
Definition MATCH_IPV6_DEST : Z := 0x22.
Definition MATCH_IP_TOS : Z := 0x23.
Definition MATCH_IP_PROTOCOL : Z := 0x24.
Definition MATCH_ETHERTYPE : Z := 0x25.
Definition MATCH_ICMP : Z := 0x26.
Definition MATCH_IP_SOURCE_PORT_RANGE : Z := 0x27.
Definition MATCH_IP_DEST_PORT_RANGE : Z := 0x28.
Definition MATCH_CHARACTERISTICS : Z := 0x29.
Definition MATCH_FRAME_SIZE_RANGE : Z := 0x2a.
Definition MATCH_RANDOM : Z := 0x2b.
Definition MATCH_TAGS_DIFFERENCE : Z := 0x2c.
Definition MATCH_TAGS_BITWISE_AND : Z := 0x2d.
Definition MATCH_TAGS_BITWISE_OR : Z := 0x2e.
Definition MATCH_TAGS_BITWISE_XOR : Z := 0x2f.
Definition MATCH_TAGS_EQUAL : Z := 0x30.
Definition MATCH_TAG_SENDER : Z := 0x31.
Definition MATCH_TAG_RECEIVER : Z := 0x32.
Definition MATCH_INTEGER_RANGE : Z := 0x33.

Inductive RuleFields : Type :=
  | Forward (address flags length_ : Z)
  | ZtAddress (addr : Z)
  | VlanId (v : Z)
  | VlanPcp (v : byte)
  | VlanDei (v : byte)
  | Mac (mac : bytes)
  | Ipv4 (ip : bytes) (mask : byte)
  | Ipv6 (ip : bytes) (mask : byte)
  | IpTos (mask start end_ : byte)
  | IpProtocol (v : byte)
  | EtherType (v : Z)
  | Icmp (icmp_type : byte) (icmp_code : option byte)
  | PortRange (start end_ : Z)
  | Characteristics (v : Z)
  | FrameSizeRange (start end_ : Z)
  | RandomProbability (v : Z)
  | TagMatch (id value : Z)
  | IntegerRange (start end_ idx : Z) (little : bool) (bits : Z).

Module Rules.

(** [value[i]] and [value[a..a+n]]; the guards of [decode_rule_fields] keep both in bounds. *)
Definition at_ (value : bytes) (i : nat) : byte := nth i value (b8 0).
Definition sub (value : bytes) (a n : nat) : bytes := take n (drop a value).

Definition one_of (t : Z) (ts : list Z) : bool := existsb (Z.eqb t) ts.

Definition decode_rule_fields (rule_type : Z) (value : bytes) : option RuleFields :=
  let t := Z.land rule_type 0x3F in
  let n := len value in
  if one_of t [ACTION_TEE; ACTION_WATCH; ACTION_REDIRECT] && (14 <=? n) then
    Some (Forward (from_be (sub value 0 8)) (from_be (sub value 8 4)) (from_be (sub value 12 2)))
  else if one_of t [MATCH_SOURCE_ZEROTIER_ADDRESS; MATCH_DEST_ZEROTIER_ADDRESS] && (5 <=? n) then
    Some (ZtAddress (from_be (sub value 0 5)))
  else if (t =? MATCH_VLAN_ID) && (2 <=? n) then Some (VlanId (from_be (sub value 0 2)))
  else if (t =? MATCH_VLAN_PCP) && negb (n =? 0) then Some (VlanPcp (at_ value 0))
  else if (t =? MATCH_VLAN_DEI) && negb (n =? 0) then Some (VlanDei (at_ value 0))
  else if one_of t [MATCH_MAC_SOURCE; MATCH_MAC_DEST] && (6 <=? n) then Some (Mac (sub value 0 6))
  else if one_of t [MATCH_IPV4_SOURCE; MATCH_IPV4_DEST] && (5 <=? n) then
    Some (Ipv4 (sub value 0 4) (at_ value 4))
  else if one_of t [MATCH_IPV6_SOURCE; MATCH_IPV6_DEST] && (17 <=? n) then
    Some (Ipv6 (sub value 0 16) (at_ value 16))
  else if (t =? MATCH_IP_TOS) && (3 <=? n) then Some (IpTos (at_ value 0) (at_ value 1) (at_ value 2))
  else if (t =? MATCH_IP_PROTOCOL) && negb (n =? 0) then Some (IpProtocol (at_ value 0))
  else if (t =? MATCH_ETHERTYPE) && (2 <=? n) then Some (EtherType (from_be (sub value 0 2)))
  else if (t =? MATCH_ICMP) && (3 <=? n) then
    Some (Icmp (at_ value 0)
      (if negb (Z.land (u8 (at_ value 2)) 0x01 =? 0) then Some (at_ value 1) else None))
  else if one_of t [MATCH_IP_SOURCE_PORT_RANGE; MATCH_IP_DEST_PORT_RANGE] && (4 <=? n) then
    Some (PortRange (from_be (sub value 0 2)) (from_be (sub value 2 2)))
  else if (t =? MATCH_CHARACTERISTICS) && (8 <=? n) then Some (Characteristics (from_be (sub value 0 8)))
  else if (t =? MATCH_FRAME_SIZE_RANGE) && (4 <=? n) then
    Some (FrameSizeRange (from_be (sub value 0 2)) (from_be (sub value 2 2)))
  else if (t =? MATCH_RANDOM) && (4 <=? n) then Some (RandomProbability (from_be (sub value 0 4)))
  else if one_of t [MATCH_TAGS_DIFFERENCE; MATCH_TAGS_BITWISE_AND; MATCH_TAGS_BITWISE_OR;
                    MATCH_TAGS_BITWISE_XOR; MATCH_TAGS_EQUAL; MATCH_TAG_SENDER; MATCH_TAG_RECEIVER]
          && (8 <=? n) then
    Some (TagMatch (from_be (sub value 0 4)) (from_be (sub value 4 4)))
  else if (t =? MATCH_INTEGER_RANGE) && (19 <=? n) then
    let format := u8 (at_ value 18) in
    Some (IntegerRange (from_be (sub value 0 8)) (from_be (sub value 8 8)) (from_be (sub value 16 2))
      (negb (Z.land format 0x80 =? 0)) (Z.land format 0x3F + 1))
  else None.

(** The only operation that can fail is the subtraction [bits - 1]. *)
Definition encode_rule_fields (fields : RuleFields) : res unit bytes :=
  match fields with
  | Forward address flags length => Ok (to_be 8 address ++ to_be 4 flags ++ to_be 2 length)
  | ZtAddress addr => Ok (drop 3 (to_be 8 addr))
  | VlanId v => Ok (to_be 2 v)
  | VlanPcp v => Ok [v]
  | VlanDei v => Ok [v]
  | Mac mac => Ok mac
  | Ipv4 ip mask => Ok (ip ++ [mask])
  | Ipv6 ip mask => Ok (ip ++ [mask])
  | IpTos mask start end_ => Ok [mask; start; end_]
  | IpProtocol v => Ok [v]
  | EtherType v => Ok (to_be 2 v)
  | Icmp icmp_type icmp_code =>
      Ok [icmp_type; default (b8 0) icmp_code; if is_some icmp_code then b8 0x01 else b8 0x00]
  | PortRange start end_ => Ok (to_be 2 start ++ to_be 2 end_)
  | Characteristics v => Ok (to_be 8 v)
  | FrameSizeRange start end_ => Ok (to_be 2 start ++ to_be 2 end_)
  | RandomProbability v => Ok (to_be 4 v)
  | TagMatch id value => Ok (to_be 4 id ++ to_be 4 value)
  | IntegerRange start end_ idx little bits =>
      if bits <? 1 then Panic else
      let format := Z.lor (Z.land (bits - 1) 0x3F) (if little then 0x80 else 0) in
      Ok (to_be 8 start ++ to_be 8 end_ ++ to_be 2 idx ++ [b8 format])
  end.

Definition SIGNATURE_TYPE_ED25519 : byte := b8 1.
Definition SIGNATURE_LEN : Z := 96.
Definition SIGN_MARKER : Z := 0x7f7f7f7f7f7f7f7f.

Definition type_byte (rule : Rule) : byte :=
  b8 (Z.lor (Z.lor (Z.land (r_type rule) 0x3F) (if r_or rule then 0x40 else 0)) (if r_not rule then 0x80 else 0)).

Definition serialize_rules (rules : list Rule) : bytes :=
  flat_map (fun rule => [type_byte rule; b8 (len (r_value rule))] ++ r_value rule) rules.

Definition default_allow_all : list Rule := [mkRule ACTION_ACCEPT false false []].

(** The stub forms without a signature. *)
Definition serialize_tags (tags : list Tag) (network_id : Z) (issued_to : bytes) (timestamp : Z) : bytes :=
  flat_map (fun tag =>
    to_be 8 network_id ++ to_be 8 timestamp ++ to_be 4 (tag_id tag) ++ to_be 4 (tag_value tag)
    ++ issued_to ++ replicate 5 (b8 0) ++ [b8 0] ++ to_be 2 SIGNATURE_LEN
    ++ replicate 96 (b8 0) ++ to_be 2 0) tags.

Definition serialize_capabilities (caps : list Capability) (network_id : Z) (issued_to : bytes)
    (timestamp : Z) : bytes :=
  flat_map (fun cap =>
    to_be 8 network_id ++ to_be 8 timestamp ++ to_be 4 (cap_id cap)
    ++ to_be 2 (wrap 16 (len (cap_rules cap))) ++ serialize_rules (cap_rules cap)
    ++ [b8 1] ++ replicate 5 (b8 0) ++ to_be 2 0) caps.

Definition tag_signed_data (network_id : Z) (issued_to signed_by : bytes) (timestamp : Z) (tag : Tag) : bytes :=
  to_be 8 SIGN_MARKER ++ to_be 8 network_id ++ to_be 8 timestamp ++ to_be 4 (tag_id tag)
  ++ to_be 4 (tag_value tag) ++ issued_to ++ signed_by ++ to_be 2 0 ++ to_be 8 SIGN_MARKER.

Definition capability_signed_data (network_id timestamp : Z) (cap : Capability) : bytes :=
  to_be 8 SIGN_MARKER ++ to_be 8 network_id ++ to_be 8 timestamp ++ to_be 4 (cap_id cap)
  ++ to_be 2 (wrap 16 (len (cap_rules cap))) ++ serialize_rules (cap_rules cap) ++ [b8 1] ++ to_be 2 0
  ++ to_be 8 SIGN_MARKER.

Section Signed.
Context `{Prims}.

Definition signed_tag (network_id : Z) (issued_to signed_by : bytes) (timestamp : Z) (signing_key : bytes)
    (tag : Tag) : bytes :=
  let signature := sign signing_key (tag_signed_data network_id issued_to signed_by timestamp tag) in
  to_be 8 network_id ++ to_be 8 timestamp ++ to_be 4 (tag_id tag) ++ to_be 4 (tag_value tag)
  ++ issued_to ++ signed_by ++ [SIGNATURE_TYPE_ED25519] ++ to_be 2 SIGNATURE_LEN ++ signature ++ to_be 2 0.

Definition serialize_tags_signed (tags : list Tag) (network_id : Z) (issued_to signed_by : bytes)
    (timestamp : Z) (signing_key : bytes) : bytes :=
  flat_map (signed_tag network_id issued_to signed_by timestamp signing_key) tags.

Definition signed_capability (network_id : Z) (issued_to signed_by : bytes) (timestamp : Z)
    (signing_key : bytes) (cap : Capability) : bytes :=
  let signature := sign signing_key (capability_signed_data network_id timestamp cap) in
  to_be 8 network_id ++ to_be 8 timestamp ++ to_be 4 (cap_id cap)
  ++ to_be 2 (wrap 16 (len (cap_rules cap))) ++ serialize_rules (cap_rules cap)
  ++ [b8 1] ++ issued_to ++ signed_by ++ [SIGNATURE_TYPE_ED25519] ++ to_be 2 SIGNATURE_LEN ++ signature
  ++ replicate 5 (b8 0) ++ to_be 2 0.

Definition serialize_capabilities_signed (caps : list Capability) (network_id : Z) (issued_to signed_by : bytes)
    (timestamp : Z) (signing_key : bytes) : bytes :=
  flat_map (signed_capability network_id issued_to signed_by timestamp signing_key) caps.

End Signed.

(** ** Fields and their wire form *)

(** The rule types whose value has the layout of these fields. *)
Definition field_types (f : RuleFields) : list Z :=
  match f with
  | Forward _ _ _ => [ACTION_TEE; ACTION_WATCH; ACTION_REDIRECT]
  | ZtAddress _ => [MATCH_SOURCE_ZEROTIER_ADDRESS; MATCH_DEST_ZEROTIER_ADDRESS]
  | VlanId _ => [MATCH_VLAN_ID]
  | VlanPcp _ => [MATCH_VLAN_PCP]
  | VlanDei _ => [MATCH_VLAN_DEI]
  | Mac _ => [MATCH_MAC_SOURCE; MATCH_MAC_DEST]
  | Ipv4 _ _ => [MATCH_IPV4_SOURCE; MATCH_IPV4_DEST]
  | Ipv6 _ _ => [MATCH_IPV6_SOURCE; MATCH_IPV6_DEST]
  | IpTos _ _ _ => [MATCH_IP_TOS]
  | IpProtocol _ => [MATCH_IP_PROTOCOL]
  | EtherType _ => [MATCH_ETHERTYPE]
  | Icmp _ _ => [MATCH_ICMP]
  | PortRange _ _ => [MATCH_IP_SOURCE_PORT_RANGE; MATCH_IP_DEST_PORT_RANGE]
  | Characteristics _ => [MATCH_CHARACTERISTICS]
  | FrameSizeRange _ _ => [MATCH_FRAME_SIZE_RANGE]
  | RandomProbability _ => [MATCH_RANDOM]
  | TagMatch _ _ => [MATCH_TAGS_DIFFERENCE; MATCH_TAGS_BITWISE_AND; MATCH_TAGS_BITWISE_OR;
                     MATCH_TAGS_BITWISE_XOR; MATCH_TAGS_EQUAL; MATCH_TAG_SENDER; MATCH_TAG_RECEIVER]
  | IntegerRange _ _ _ _ _ => [MATCH_INTEGER_RANGE]
  end.

(** Field values that fit their width on the wire. *)
Definition fields_wf (f : RuleFields) : Prop :=
  match f with
  | Forward address flags length => u64_ok address /\ u32_ok flags /\ u16_ok length
  | ZtAddress addr => 0 <= addr < 2 ^ 40
  | VlanId v | EtherType v => u16_ok v
  | VlanPcp _ | VlanDei _ | IpTos _ _ _ | IpProtocol _ | Icmp _ _ => True
  | Mac mac => len mac = 6
  | Ipv4 ip _ => len ip = 4
  | Ipv6 ip _ => len ip = 16
  | PortRange start end_ | FrameSizeRange start end_ => u16_ok start /\ u16_ok end_
  | Characteristics v => u64_ok v
  | RandomProbability v => u32_ok v
  | TagMatch id value => u32_ok id /\ u32_ok value
  | IntegerRange start end_ idx _ bits => u64_ok start /\ u64_ok end_ /\ u16_ok idx /\ 1 <= bits <= 64
  end.

Lemma sub_hit (s d : bytes) n : len s = Z.of_nat n -> sub (s ++ d) 0 n = s.
Proof. intros H. unfold sub. rewrite drop_0. apply take_app_length'. unfold len in H. lia. Qed.

Lemma sub_skip (p d : bytes) a n : len p <= Z.of_nat a -> sub (p ++ d) a n = sub d (a - length p) n.
Proof. intros H. unfold sub. by rewrite drop_app_ge by (unfold len in H; lia). Qed.

Lemma at_skip (p d : bytes) i : len p <= Z.of_nat i -> at_ (p ++ d) i = at_ d (i - length p).
Proof. intros H. unfold at_. apply app_nth2. unfold len in H. lia. Qed.

Lemma len_sub value a n : Z.of_nat a + Z.of_nat n <= len value -> len (sub value a n) = Z.of_nat n.
Proof. intros. unfold sub. len_lia. Qed.

Lemma to_be_drop k n z : drop k (to_be (k + n) z) = to_be n z.
Proof.
  assert (forall m, exists p, length p = m /\ to_be (m + n) z = p ++ to_be n z) as H.
  { revert z. induction n as [|n IH]; intros z m.
    - exists (to_be m z). rewrite length_to_be, Nat.add_0_r. split; [done|]. by rewrite app_nil_r.
    - destruct (IH (z / 256) m) as (p & Hp & E). exists p. split; [done|].
      rewrite Nat.add_succ_r. unfold to_be; fold to_be. by rewrite E, app_assoc. }
  destruct (H k) as (p & Hp & ->). by apply drop_app_length'.
Qed.

Lemma format_byte bits (little : bool) : 1 <= bits <= 64 ->
  let f := u8 (b8 (Z.lor (Z.land (bits - 1) 0x3F) (if little then 0x80 else 0))) in
  negb (Z.land f 0x80 =? 0) = little /\ Z.land f 0x3F + 1 = bits.
Proof.
  intros Hb.
  assert (forallb (fun bits => let f := u8 (b8 (Z.lor (Z.land (bits - 1) 0x3F) (if little then 0x80 else 0))) in
    Bool.eqb (negb (Z.land f 0x80 =? 0)) little && (Z.land f 0x3F + 1 =? bits)) (seqZ 1 64) = true) as H
    by (destruct little; vm_compute; reflexivity).
  rewrite forallb_forall in H. specialize (H bits). rewrite <- list_elem_of_In, elem_of_seqZ in H.
  specialize (H ltac:(lia)). apply andb_true_iff in H as [H1 H2]. apply eqb_prop in H1. cbv zeta. split; [done|lia].
Qed.

(** Pick the branch of [decode_rule_fields], then read its fields. *)
Lemma len_to_be5 z : len (to_be 5 z) = 5.
Proof. by rewrite len_to_be. Qed.
Ltac side := cbn [length Nat.sub]; rewrite ?length_to_be; autorewrite with len; rewrite ?len_to_be5;
  cbn [Nat.sub]; len_lia.
Ltac pick_branch :=
  repeat rewrite if_false by reflexivity;
  rewrite if_true by (apply andb_true_iff; split; [reflexivity|side]).
Ltac read_value :=
  repeat (match goal with
    | |- context [sub (?p ++ ?d) 0 ?n] => rewrite (sub_hit p d n) by side
    | |- context [sub (?p ++ ?d) ?a ?n] => rewrite (sub_skip p d a n) by side
    | |- context [at_ (?p ++ ?d) ?i] => rewrite (at_skip p d i) by side
    | H : len ?l = _ |- context [(_ - length ?l)%nat] => 
        replace (length l) with (Z.to_nat (len l)) by (unfold len; lia); rewrite H
    end; rewrite ?length_to_be; cbn [Nat.sub]);
  rewrite ?from_be_u16, ?from_be_u32, ?from_be_u64, ?from_be_to_be_small by (assumption || lia).

Lemma rule_decode_encode f t extra : fields_wf f -> one_of (Z.land t 0x3F) (field_types f) = true ->
  exists v, encode_rule_fields f = Ok v /\ decode_rule_fields t (v ++ extra) = Some f.
Proof.
  intros Hw Ht. unfold decode_rule_fields. generalize dependent (Z.land t 0x3F). intros x Hx. clear t.
  unfold one_of in Hx. apply existsb_exists in Hx as (y & Hy & ->%Z.eqb_eq). apply list_elem_of_In in Hy.
  destruct f; cbn [field_types] in Hy; rewrite ?elem_of_cons, elem_of_nil in Hy; cbn [encode_rule_fields fields_wf] in *;
    try rewrite if_false by lia;
    try (change 8%nat with (3 + 5)%nat; rewrite to_be_drop);
    (eexists; split; [reflexivity|]); destruct_and? Hw; destruct_or? Hy; subst y; try done;
    rewrite <- ?app_assoc; cbn [app]; pick_branch; try reflexivity; try (read_value; reflexivity).
  - by destruct icmp_code.
  - read_value. destruct (format_byte bits little) as [E1 E2]; [done|]. unfold at_. cbn [nth].
    by rewrite E1, E2.
Qed.

Lemma one_of_single t x : (t =? x) = true -> one_of t [x] = true.
Proof. intros H. simpl. by rewrite H. Qed.

(** What is decoded fits its fields and the type it was read at. *)
Lemma decode_wf t value f : decode_rule_fields t value = Some f ->
  fields_wf f /\ one_of (Z.land t 0x3F) (field_types f) = true.
Proof.
  unfold decode_rule_fields. intros H.
  repeat match type of H with
  | (if ?b then Some _ else _) = _ =>
      let E := fresh in destruct b eqn:E;
      [apply andb_true_iff in E as [? ?]; injection H as <- | clear E]
  end; try discriminate; cbn [fields_wf field_types];
  (split; [|first [assumption | by apply one_of_single]]).
  all: split_and?; try done.
  all: try (first [apply from_be_u16_ok|apply from_be_u32_ok|apply from_be_u64_ok]; by rewrite len_sub by zlia).
  all: try (by rewrite len_sub by zlia).
  1-2: (pose proof (from_be_range (sub value 0 5)) as Hr; rewrite len_sub in Hr by zlia;
        change (256 ^ Z.of_nat 5) with (2 ^ 40) in Hr; lia).
  all: change 0x3F with (Z.ones 6); rewrite Z.land_ones by lia;
    pose proof (Z.mod_pos_bound (u8 (at_ value 18)) (2 ^ 6) ltac:(lia)); lia.
Qed.

(** Typed rule fields: fields that fit their widths are encoded without a panic and
    decode from the encoded value, whatever follows it and whatever the flag bits of the
    rule type are, to themselves; everything decoded from any bytes is such fields. The one
    panic is an integer range of zero bits. *)
Theorem rule_fields_roundtrip (f : RuleFields) (t : Z) (extra value : bytes) :
  (fields_wf f -> one_of (Z.land t 0x3F) (field_types f) = true ->
   exists v, encode_rule_fields f = Ok v /\ decode_rule_fields t (v ++ extra) = Some f) /\
  (decode_rule_fields t value = Some f ->
   exists v, encode_rule_fields f = Ok v /\ decode_rule_fields t v = Some f) /\
  (encode_rule_fields f = Panic <-> exists start end_ idx little bits,
     f = IntegerRange start end_ idx little bits /\ bits < 1).
Proof.
  split_and!.
  - apply rule_decode_encode.
  - intros H. apply decode_wf in H as [Hw Ht]. destruct (rule_decode_encode f t [] Hw Ht) as (v & Hv & Hd).
    exists v. by rewrite app_nil_r in Hd.
  - destruct f; cbn [encode_rule_fields]; try (split; [done|by intros (? & ? & ? & ? & ? & ? & _)]).
    destruct (bits <? 1) eqn:E; split; try done.
    + intros _. repeat eexists. lia.
    + intros (? & ? & ? & ? & ? & [= <- <- <- <- <-] & Hb). lia.
Qed.

Lemma rule_fields_roundtrip_witness :
  exists v, encode_rule_fields (IntegerRange 5 9 7 true 64) = Ok v /\
    decode_rule_fields 0xB3 (v ++ [b8 1]) = Some (IntegerRange 5 9 7 true 64).
Proof.
  apply (rule_fields_roundtrip (IntegerRange 5 9 7 true 64) 0xB3 [b8 1] []); [|reflexivity].
  cbn. unfold u64_ok, u16_ok, U64_MAX, U16_MAX. lia.
Defined.

(** ** Rule chains and credentials *)

(** What a reader of the [R] key recovers. *)
Fixpoint parse_rules (fuel : nat) (data : bytes) : option (list Rule) :=
  match fuel, data with
  | _, [] => Some []
  | S fuel, t :: n :: data =>
      if u8 n <=? len data then
        (fun rules => mkRule (Z.land (u8 t) 0x3F) (Z.testbit (u8 t) 7) (Z.testbit (u8 t) 6)
                       (take (Z.to_nat (u8 n)) data) :: rules)
        <$> parse_rules fuel (drop (Z.to_nat (u8 n)) data)
      else None
  | _, _ => None
  end.

Definition rule_wf (r : Rule) : Prop := 0 <= r_type r < 64 /\ len (r_value r) < 256.

Lemma type_byte_spec r : 0 <= r_type r < 64 ->
  Z.land (u8 (type_byte r)) 0x3F = r_type r /\ Z.testbit (u8 (type_byte r)) 7 = r_not r /\
  Z.testbit (u8 (type_byte r)) 6 = r_or r.
Proof.
  intros Ht. destruct r as [t n o v]. unfold type_byte. cbn [r_type r_not r_or] in *.
  assert (forallb (fun t => let f := u8 (b8 (Z.lor (Z.lor (Z.land t 0x3F) (if o then 0x40 else 0)) (if n then 0x80 else 0))) in
    (Z.land f 0x3F =? t) && Bool.eqb (Z.testbit f 7) n && Bool.eqb (Z.testbit f 6) o) (seqZ 0 64) = true) as H
    by (destruct n, o; vm_compute; reflexivity).
  rewrite forallb_forall in H. specialize (H t). rewrite <- list_elem_of_In, elem_of_seqZ in H.
  specialize (H ltac:(lia)). apply andb_true_iff in H as [H1 H3]. apply andb_true_iff in H1 as [H1 H2].
  apply eqb_prop in H2, H3. split_and!; [lia|done..].
Qed.

Lemma parse_serialize rules : Forall rule_wf rules ->
  parse_rules (length rules) (serialize_rules rules) = Some rules.
Proof.
  induction 1 as [|r rules [Ht Hv] _ IH]; [done|].
  unfold serialize_rules. cbn [flat_map app length parse_rules].
  change (flat_map _ rules) with (serialize_rules rules).
  rewrite u8_b8, Z.mod_small by len_lia. rewrite if_true by len_lia.
  destruct (type_byte_spec r Ht) as (-> & -> & ->).
  rewrite drop_app_length', take_app_length' by (unfold len; lia).
  rewrite IH. by destruct r.
Qed.

(** What a holder of the wire form of a tag, or of a capability with [n] bytes of rules,
    checks against the controller's key: the signature over the leading fields. *)
Definition wire_signed_data (fields : bytes) : bytes :=
  to_be 8 SIGN_MARKER ++ fields ++ to_be 2 0 ++ to_be 8 SIGN_MARKER.
Definition tag_checks `{Prims} (key wire : bytes) : bool :=
  match verify key (wire_signed_data (take 34 wire)) (sub wire 37 96) with Ok _ => true | _ => false end.
Definition capability_checks `{Prims} (key : bytes) (n : nat) (wire : bytes) : bool :=
  match verify key (wire_signed_data (take (23 + n) wire)) (sub wire (36 + n) 96) with
  | Ok _ => true | _ => false end.

Section Credentials.
Context `{PrimLaws}.

Lemma tag_ok network_id issued_to signed_by timestamp sk tag :
  len sk = 32 -> len issued_to = 5 -> len signed_by = 5 ->
  let w := signed_tag network_id issued_to signed_by timestamp sk tag in
  len w = 135 /\ tag_checks (ed25519_public sk) w = true.
Proof.
  intros Hk Hi Hs. cbv zeta.
  set (hd := to_be 8 network_id ++ to_be 8 timestamp ++ to_be 4 (tag_id tag) ++ to_be 4 (tag_value tag)
              ++ issued_to ++ signed_by).
  assert (len hd = 34) as Hh by (unfold hd; len_lia).
  set (data := tag_signed_data network_id issued_to signed_by timestamp tag).
  pose proof (len_sign sk data Hk) as Hl.
  assert (signed_tag network_id issued_to signed_by timestamp sk tag =
    hd ++ ([SIGNATURE_TYPE_ED25519] ++ to_be 2 SIGNATURE_LEN) ++ sign sk data ++ to_be 2 0) as ->
    by (unfold signed_tag, hd, data; by rewrite <- !app_assoc).
  split; [rewrite !len_app, Hl; len_lia|].
  unfold tag_checks, wire_signed_data. rewrite take_app_length' by (unfold len in Hh; lia).
  rewrite sub_skip by len_lia. replace (37 - length hd)%nat with 3%nat by (unfold len in Hh; lia).
  rewrite sub_skip by side. cbn [length app Nat.sub]. rewrite length_to_be. cbn [Nat.sub]. rewrite sub_hit by done.
  assert (data = to_be 8 SIGN_MARKER ++ hd ++ to_be 2 0 ++ to_be 8 SIGN_MARKER) as <-
    by (unfold data, hd, tag_signed_data; by rewrite <- !app_assoc).
  by rewrite verify_sign.
Qed.

Lemma capability_ok network_id issued_to signed_by timestamp sk cap :
  len sk = 32 -> len issued_to = 5 -> len signed_by = 5 ->
  let w := signed_capability network_id issued_to signed_by timestamp sk cap in
  let n := length (serialize_rules (cap_rules cap)) in
  len w = 139 + Z.of_nat n /\ capability_checks (ed25519_public sk) n w = true.
Proof.
  intros Hk Hi Hs. cbv zeta. set (n := length (serialize_rules (cap_rules cap))).
  set (hd := to_be 8 network_id ++ to_be 8 timestamp ++ to_be 4 (cap_id cap)
              ++ to_be 2 (wrap 16 (len (cap_rules cap))) ++ serialize_rules (cap_rules cap) ++ [b8 1]).
  assert (len hd = 23 + Z.of_nat n) as Hh by (unfold hd, n; autorewrite with len; fold (len (serialize_rules (cap_rules cap))); len_lia).
  set (data := capability_signed_data network_id timestamp cap).
  pose proof (len_sign sk data Hk) as Hl.
  assert (signed_capability network_id issued_to signed_by timestamp sk cap =
    hd ++ (issued_to ++ signed_by ++ [SIGNATURE_TYPE_ED25519] ++ to_be 2 SIGNATURE_LEN) ++ sign sk data
    ++ replicate 5 (b8 0) ++ to_be 2 0) as ->
    by (unfold signed_capability, hd, data; by rewrite <- !app_assoc).
  split; [rewrite !len_app, Hl, Hh; len_lia|].
  unfold capability_checks, wire_signed_data. rewrite take_app_length' by (unfold len in Hh; lia).
  rewrite sub_skip by len_lia. replace (36 + n - length hd)%nat with 13%nat by (unfold len in Hh; lia).
  rewrite sub_skip by side. rewrite !length_app, length_to_be. unfold len in Hi, Hs.
  replace (length issued_to) with 5%nat by lia. replace (length signed_by) with 5%nat by lia.
  cbn [length Nat.add Nat.sub]. rewrite sub_hit by done.
  assert (data = to_be 8 SIGN_MARKER ++ hd ++ to_be 2 0 ++ to_be 8 SIGN_MARKER) as <-
    by (unfold data, hd, capability_signed_data; by rewrite <- !app_assoc).
  by rewrite verify_sign.
Qed.

(** Rule chains and credentials on the wire: a chain of rules with known types and values
    under 256 bytes can be read back from the [R] bytes; every signed tag and every signed
    capability carries a signature that holds, under the controller's public key, of the
    fields that precede it on the wire, and both lists are the concatenation of such objects
    (135 bytes per tag). *)
Theorem signed_credentials_spec (tags : list Tag) (caps : list Capability) (rules : list Rule)
    (network_id timestamp : Z) (issued_to signed_by sk : bytes) :
  len sk = 32 -> len issued_to = 5 -> len signed_by = 5 ->
  (Forall rule_wf rules -> parse_rules (length rules) (serialize_rules rules) = Some rules) /\
  (exists ws, serialize_tags_signed tags network_id issued_to signed_by timestamp sk = concat ws /\
     length ws = length tags /\
     Forall (fun w => len w = 135 /\ tag_checks (ed25519_public sk) w = true) ws) /\
  (exists ws, serialize_capabilities_signed caps network_id issued_to signed_by timestamp sk = concat ws /\
     Forall2 (fun cap w => capability_checks (ed25519_public sk) (length (serialize_rules (cap_rules cap))) w = true)
       caps ws).
Proof.
  intros Hk Hi Hs. split_and!; [apply parse_serialize|..]; (eexists; split; [apply flat_map_concat_map|]).
  - split; [apply length_map|]. apply Forall_map, Forall_forall. intros tag _. by apply tag_ok.
  - induction caps as [|cap caps IH]; constructor; [by apply capability_ok|done].
Qed.
End Credentials.

Definition sample_rules : list Rule := [mkRule MATCH_ETHERTYPE true false (to_be 2 0x800); mkRule ACTION_ACCEPT false false []].

Lemma signed_credentials_spec_witness :
  let sk := replicate 32 (b8 3) in
  parse_rules 2 (serialize_rules sample_rules) = Some sample_rules /\
  exists w, @serialize_tags_signed Toy.prims [mkTag 1 2] 5 (replicate 5 (b8 1)) (replicate 5 (b8 2)) 9 sk = w /\
    len w = 135.
Proof.
  cbv zeta.
  destruct (@signed_credentials_spec Toy.prims Toy.laws [mkTag 1 2] [mkCapability 1 sample_rules] sample_rules 5 9
    (replicate 5 (b8 1)) (replicate 5 (b8 2)) (replicate 32 (b8 3)) eq_refl eq_refl eq_refl)
    as (Hr & (ws & E & Hl & Hw) & _).
  split; [apply Hr; repeat constructor; done|].
  exists (concat ws). split; [exact E|].
  destruct ws as [|w [|]]; try discriminate Hl. inversion Hw as [|? ? [Hw1 _] _]; subst.
  cbn [concat]. rewrite app_nil_r. exact Hw1.
Defined.

End Rules.
