(* ===== verification/Storage.v ===== *)
(** * Storage: the controller's records and its storage interface (zerotier-node:
    controller/types.rs, controller/storage.rs), with the in-memory backend
    (zerotier-service: storage/memory.rs). *)
From S2P Require Export Pools Rules.

(** ** types.rs *)

Record NetworkRecord := mkNetworkRecord {
  n_id : Z;
  n_name : bytes;
  n_private : bool;
  n_creation_time : Z;
  n_revision : Z;
  n_multicast_limit : Z;
  n_mtu : Z;
  n_v4_assign_mode : bytes;
  n_v6_assign_mode : bytes;
  n_rules : list Rule;
  n_capabilities : list Capability;
  n_tags : list TagDefinition;
  n_enable_broadcast : bool;
}.

Record MemberRecord := mkMemberRecord {
  m_network_id : Z;
  m_node_id : bytes;
  m_authorized : bool;
  m_ip_assignments : list bytes;
  m_creation_time : Z;
  m_last_seen : Z;
  m_name : bytes;
  m_revision : Z;
  m_last_authorized_time : Z;
  m_last_deauthorized_time : Z;
  m_active_bridge : bool;
  m_no_auto_assign_ips : bool;
  m_capabilities : list Z;
  m_tags : list Tag;
}.

Record ManagedRoute := mkManagedRoute { mr_target : bytes; mr_via : option bytes }.

(** What the Rust types say of the fields: integers in range, strings in UTF-8. *)
Definition text_ok (s : bytes) : Prop := utf8_valid s = true.
Definition rule_typed (r : Rule) : Prop := 0 <= r_type r <= 255.
Definition capability_typed (c : Capability) : Prop := u32_ok (cap_id c) /\ Forall rule_typed (cap_rules c).
Definition tag_typed (t : Tag) : Prop := u32_ok (tag_id t) /\ u32_ok (tag_value t).
Definition tag_definition_typed (t : TagDefinition) : Prop :=
  u32_ok (td_id t) /\ text_ok (td_name t) /\ match td_default t with Some x => u32_ok x | None => True end /\
  Forall (fun e => text_ok e.1 /\ u32_ok e.2) (td_enums t).

Record network_typed (n : NetworkRecord) : Prop := {
  nt_id : u64_ok (n_id n);
  nt_name : text_ok (n_name n);
  nt_times : u64_ok (n_creation_time n) /\ u64_ok (n_revision n);
  nt_limits : u32_ok (n_multicast_limit n) /\ u16_ok (n_mtu n);
  nt_modes : text_ok (n_v4_assign_mode n) /\ text_ok (n_v6_assign_mode n);
  nt_rules : Forall rule_typed (n_rules n);
  nt_capabilities : Forall capability_typed (n_capabilities n);
  nt_tags : Forall tag_definition_typed (n_tags n);
}.

Record member_typed (m : MemberRecord) : Prop := {
  mt_network : u64_ok (m_network_id m);
  mt_node : len (m_node_id m) = 5;
  mt_ips : Forall text_ok (m_ip_assignments m);
  mt_times : u64_ok (m_creation_time m) /\ u64_ok (m_last_seen m);
  mt_name : text_ok (m_name m);
  mt_revision : u64_ok (m_revision m);
  mt_changes : u64_ok (m_last_authorized_time m) /\ u64_ok (m_last_deauthorized_time m);
  mt_capabilities : Forall u32_ok (m_capabilities m);
  mt_tags : Forall tag_typed (m_tags m);
}.

Definition route_typed (r : ManagedRoute) : Prop :=
  text_ok (mr_target r) /\ match mr_via r with Some v => text_ok v | None => True end.

(** ** storage.rs: the interface

    Reads do not change the store; a write returns the new store with its result. *)
Class ControllerStorage (S Er : Type) := {
  get_network : S -> Z -> res Er (option NetworkRecord);
  create_network : S -> NetworkRecord -> S * res Er unit;
  update_network : S -> NetworkRecord -> S * res Er unit;
  delete_network : S -> Z -> S * res Er unit;
  list_networks : S -> res Er (list Z);
  get_member : S -> Z -> bytes -> res Er (option MemberRecord);
  upsert_member : S -> MemberRecord -> S * res Er unit;
  delete_member : S -> Z -> bytes -> S * res Er unit;
  list_members : S -> Z -> res Er (list bytes);
  get_ip_pools : S -> Z -> res Er (list IpPool);
  set_ip_pools : S -> Z -> list IpPool -> S * res Er unit;
  get_routes : S -> Z -> res Er (list ManagedRoute);
  set_routes : S -> Z -> list ManagedRoute -> S * res Er unit;
  get_assigned_ips : S -> Z -> res Er (list bytes);
  display_error : Er -> bytes;
}.

(** What the store holds, as the specification sees it. *)
Record View := mkView {
  v_network : Z -> option NetworkRecord;
  v_member : Z -> bytes -> option MemberRecord;
  v_pools : Z -> list IpPool;
  v_routes : Z -> list ManagedRoute;
}.

(** Two stores that hold the same. *)
Definition view_eq (v w : View) : Prop :=
  (forall id, v_network v id = v_network w id) /\ (forall id a, v_member v id a = v_member w id a) /\
  (forall id, v_pools v id = v_pools w id) /\ (forall id, v_routes v id = v_routes w id).

#[export] Instance view_eq_equivalence : Equivalence view_eq.
Proof.
  split.
  - intros v. done.
  - intros v w (H1 & H2 & H3 & H4). split_and!; intros; symmetry; auto.
  - intros u v w (H1 & H2 & H3 & H4) (G1 & G2 & G3 & G4). split_and!; intros; etransitivity; eauto.
Qed.

Definition put_member (v : View) (m : MemberRecord) : View :=
  mkView (v_network v)
    (fun id a => if decide (id = m_network_id m /\ a = m_node_id m) then Some m else v_member v id a)
    (v_pools v) (v_routes v).

#[export] Instance put_member_proper : Proper (view_eq ==> eq ==> view_eq) put_member.
Proof.
  intros v w (H1 & H2 & H3 & H4) m _ <-. split_and!; try done. intros id a. simpl. by case_decide.
Qed.

Definition add_network (v : View) (n : NetworkRecord) : View :=
  mkView (fun id => match v_network v id with
                    | Some x => Some x
                    | None => if id =? n_id n then Some n else None
                    end) (v_member v) (v_pools v) (v_routes v).

Definition put_pools (v : View) (network_id : Z) (ps : list IpPool) : View :=
  mkView (v_network v) (v_member v) (fun id => if id =? network_id then ps else v_pools v id) (v_routes v).

Definition replace_network (v : View) (n : NetworkRecord) : View :=
  mkView (fun id => match v_network v id with
                    | Some x => if id =? n_id n then Some n else Some x
                    | None => None
                    end) (v_member v) (v_pools v) (v_routes v).

(** The view with [n] under the identifier. *)
Definition set_network (v : View) (id : Z) (n : NetworkRecord) : View :=
  mkView (fun id' => if id' =? id then Some n else v_network v id') (v_member v) (v_pools v) (v_routes v).

(** A creation leaves an existing network in place, or replaces it. *)
Definition network_created (v w : View) (n : NetworkRecord) : Prop :=
  exists n0, (n0 = n \/ v_network v (n_id n) = Some n0) /\ view_eq w (set_network v (n_id n) n0).

(** An update replaces a network, or creates it; or there is none, and nothing happens. *)
Definition network_updated (v w : View) (n : NetworkRecord) : Prop :=
  view_eq w (set_network v (n_id n) n) \/ v_network v (n_id n) = None /\ view_eq w v.

Lemma add_creates v n : view_eq (add_network v n) (set_network v (n_id n) (default n (v_network v (n_id n)))).
Proof.
  split_and!; try done. intros id. cbn. destruct (id =? n_id n) eqn:E; [|by destruct (v_network v id)].
  apply Z.eqb_eq in E as ->. by destruct (v_network v (n_id n)).
Qed.

Lemma added_created v w n : view_eq w (add_network v n) -> network_created v w n.
Proof.
  intros Hw. exists (default n (v_network v (n_id n))). split; [destruct (v_network v (n_id n)); [by right|by left]|].
  etransitivity; [exact Hw|apply add_creates].
Qed.

Lemma replaced_updated v w n : view_eq w (replace_network v n) -> network_updated v w n.
Proof.
  intros Hw. destruct (v_network v (n_id n)) as [n0|] eqn:En; [left|right; split; [done|]]; (etransitivity; [exact Hw|]); split_and!; try done;
    intros id; cbn; destruct (id =? n_id n) eqn:E; try (apply Z.eqb_eq in E as ->; by rewrite En); by destruct (v_network v id).
Qed.

Definition remove_member (v : View) (network_id : Z) (node_id : bytes) : View :=
  mkView (v_network v) (fun id a => if decide (id = network_id /\ a = node_id) then None else v_member v id a)
    (v_pools v) (v_routes v).

Definition put_routes (v : View) (network_id : Z) (rs : list ManagedRoute) : View :=
  mkView (v_network v) (v_member v) (v_pools v) (fun id => if id =? network_id then rs else v_routes v id).

(** [w] is [v] without the network; its members, pools and routes are there still, or gone. *)
Definition network_removed (v w : View) (network_id : Z) : Prop :=
  (forall id, v_network w id = if id =? network_id then None else v_network v id) /\
  (forall id a, v_member w id a = v_member v id a \/ id = network_id /\ v_member w id a = None) /\
  (forall id, v_pools w id = v_pools v id \/ id = network_id /\ v_pools w id = []) /\
  (forall id, v_routes w id = v_routes v id \/ id = network_id /\ v_routes w id = []).

(** What the controller relies on, for identifiers and records as their types have them: a read
    that succeeds tells the truth, a write that succeeds changes what it says and nothing else,
    a write that fails changes nothing - but for the pools of the network, some of which may be
    gone -, and no operation panics. Whether a creation replaces a network that is there, whether
    one that is not there can be updated, and what is left of a deleted one, is the backend's
    business. [inv] is the backend's own invariant; [fallible] says whether its operations can
    fail at all. *)
Class StorageLaws (S Er : Type) `{ControllerStorage S Er} := {
  inv : S -> Prop;
  view : S -> View;
  fallible : Prop;
  get_network_ok s id : inv s -> u64_ok id ->
    wp (get_network s id) (fun r => r = v_network (view s) id) (fun _ => fallible);
  get_member_ok s id a : inv s -> u64_ok id ->
    wp (get_member s id a) (fun r => r = v_member (view s) id a) (fun _ => fallible);
  get_pools_ok s id : inv s -> u64_ok id -> wp (get_ip_pools s id) (fun r => r = v_pools (view s) id) (fun _ => fallible);
  get_routes_ok s id : inv s -> u64_ok id -> wp (get_routes s id) (fun r => r = v_routes (view s) id) (fun _ => fallible);
  list_members_ok s id : inv s -> u64_ok id ->
    wp (list_members s id) (fun l => NoDup l /\ forall a, a ∈ l <-> is_Some (v_member (view s) id a)) (fun _ => fallible);
  assigned_ips_ok s id : inv s -> u64_ok id ->
    wp (get_assigned_ips s id)
      (fun l => forall ip, ip ∈ l <-> exists a m, v_member (view s) id a = Some m /\ ip ∈ m_ip_assignments m)
      (fun _ => fallible);
  member_key s id a m : inv s -> v_member (view s) id a = Some m -> m_network_id m = id /\ m_node_id m = a;
  upsert_member_ok s m : inv s -> member_typed m ->
    let '(s', r) := upsert_member s m in
    inv s' /\ wp r (fun _ => view_eq (view s') (put_member (view s) m))
                   (fun _ => fallible /\ view_eq (view s') (view s));
  create_network_ok s n : inv s -> network_typed n ->
    let '(s', r) := create_network s n in
    inv s' /\ wp r (fun _ => network_created (view s) (view s') n)
                   (fun _ => fallible /\ view_eq (view s') (view s));
  set_pools_ok s id ps : inv s -> u64_ok id -> Forall Pools.pool_wf ps ->
    let '(s', r) := set_ip_pools s id ps in
    inv s' /\ wp r (fun _ => exists ps', ps' ≡ₚ ps /\ view_eq (view s') (put_pools (view s) id ps'))
                   (fun _ => fallible /\ (view_eq (view s') (view s) \/
                      exists ps', ps' ⊆+ ps /\ view_eq (view s') (put_pools (view s) id ps')));
  set_routes_ok s id rs : inv s -> u64_ok id -> Forall route_typed rs ->
    let '(s', r) := set_routes s id rs in
    inv s' /\ wp r (fun _ => exists rs', rs' ≡ₚ rs /\ view_eq (view s') (put_routes (view s) id rs'))
                   (fun _ => fallible /\ view_eq (view s') (view s));
  update_network_ok s n : inv s -> network_typed n ->
    let '(s', r) := update_network s n in
    inv s' /\ wp r (fun _ => network_updated (view s) (view s') n)
                   (fun _ => (fallible \/ v_network (view s) (n_id n) = None) /\ view_eq (view s') (view s));
  delete_network_ok s id : inv s -> u64_ok id ->
    let '(s', r) := delete_network s id in
    inv s' /\ wp r (fun _ => network_removed (view s) (view s') id) (fun _ => fallible /\ view_eq (view s') (view s));
  delete_member_ok s id a : inv s -> u64_ok id ->
    let '(s', r) := delete_member s id a in
    inv s' /\ wp r (fun _ => view_eq (view s') (remove_member (view s) id a))
                   (fun _ => fallible /\ view_eq (view s') (view s));
  list_networks_ok s : inv s ->
    wp (list_networks s) (fun l => forall id, u64_ok id -> id ∈ l <-> is_Some (v_network (view s) id)) (fun _ => fallible);
}.

(** ** storage/memory.rs: the in-memory backend *)

Inductive MemoryStorageError := NotFound.

Record InMemoryState := mkMemory {
  networks : list NetworkRecord;
  members : list MemberRecord;
  ip_pools : list (Z * IpPool);
  routes : list (Z * ManagedRoute);
}.

Module Memory.

Definition new : InMemoryState := mkMemory [] [] [] [].

Definition is_member (network_id : Z) (node_id : bytes) (m : MemberRecord) : bool :=
  (m_network_id m =? network_id) && bool_decide (m_node_id m = node_id).

Definition mem_get_network (s : InMemoryState) (id : Z) : option NetworkRecord :=
  find (fun n => n_id n =? id) (networks s).

Definition mem_create_network (s : InMemoryState) (network : NetworkRecord) : InMemoryState :=
  mkMemory (networks s ++ [network]) (members s) (ip_pools s) (routes s).

Definition mem_update_network (s : InMemoryState) (network : NetworkRecord)
    : InMemoryState * res MemoryStorageError unit :=
  if is_some (mem_get_network s (n_id network)) then
    (mkMemory (update_first (fun n => n_id n =? n_id network) (fun _ => network) (networks s))
       (members s) (ip_pools s) (routes s), Ok tt)
  else (s, Err NotFound).

Definition mem_delete_network (s : InMemoryState) (id : Z) : InMemoryState :=
  mkMemory (filter (fun n => n_id n <> id) (networks s)) (filter (fun m => m_network_id m <> id) (members s))
    (filter (fun x => x.1 <> id) (ip_pools s)) (filter (fun x => x.1 <> id) (routes s)).

Definition mem_get_member (s : InMemoryState) (network_id : Z) (node_id : bytes) : option MemberRecord :=
  find (is_member network_id node_id) (members s).

Definition mem_upsert_member (s : InMemoryState) (member : MemberRecord) : InMemoryState :=
  let same := is_member (m_network_id member) (m_node_id member) in
  mkMemory (networks s)
    (if is_some (find same (members s)) then update_first same (fun _ => member) (members s)
     else members s ++ [member])
    (ip_pools s) (routes s).

Definition mem_delete_member (s : InMemoryState) (network_id : Z) (node_id : bytes) : InMemoryState :=
  mkMemory (networks s) (filter (fun m => negb (is_member network_id node_id m) = true) (members s))
    (ip_pools s) (routes s).

Definition of_network {A} (network_id : Z) (l : list (Z * A)) : list A :=
  map snd (filter (fun x => x.1 = network_id) l).
Definition replace_of {A} (network_id : Z) (xs : list A) (l : list (Z * A)) : list (Z * A) :=
  filter (fun x => x.1 <> network_id) l ++ map (pair network_id) xs.

Definition network_members (s : InMemoryState) (network_id : Z) : list MemberRecord :=
  filter (fun m => m_network_id m = network_id) (members s).

Definition mem_set_ip_pools (s : InMemoryState) (network_id : Z) (pools : list IpPool) : InMemoryState :=
  mkMemory (networks s) (members s) (replace_of network_id pools (ip_pools s)) (routes s).
Definition mem_set_routes (s : InMemoryState) (network_id : Z) (rs : list ManagedRoute) : InMemoryState :=
  mkMemory (networks s) (members s) (ip_pools s) (replace_of network_id rs (routes s)).
Definition mem_get_assigned_ips (s : InMemoryState) (network_id : Z) : list bytes :=
  flat_map m_ip_assignments (network_members s network_id).

#[global] Instance memory_storage : ControllerStorage InMemoryState MemoryStorageError := {|
  get_network s id := Ok (mem_get_network s id);
  create_network s n := (mem_create_network s n, Ok tt);
  update_network := mem_update_network;
  delete_network s id := (mem_delete_network s id, Ok tt);
  list_networks s := Ok (map n_id (networks s));
  get_member s id a := Ok (mem_get_member s id a);
  upsert_member s m := (mem_upsert_member s m, Ok tt);
  delete_member s id a := (mem_delete_member s id a, Ok tt);
  list_members s id := Ok (map m_node_id (network_members s id));
  get_ip_pools s id := Ok (of_network id (ip_pools s));
  set_ip_pools s id ps := (mem_set_ip_pools s id ps, Ok tt);
  get_routes s id := Ok (of_network id (routes s));
  set_routes s id rs := (mem_set_routes s id rs, Ok tt);
  get_assigned_ips s id := Ok (mem_get_assigned_ips s id);
  display_error _ := str "not found";
|}.

(** ** Properties *)

Definition mem_view (s : InMemoryState) : View :=
  mkView (mem_get_network s) (mem_get_member s) (fun id => of_network id (ip_pools s))
    (fun id => of_network id (routes s)).

Definition member_id (m : MemberRecord) : Z * bytes := (m_network_id m, m_node_id m).

(** No member is stored twice. *)
Definition mem_inv (s : InMemoryState) : Prop := NoDup (map member_id (members s)).

Lemma is_member_spec id a m : is_member id a m = true <-> member_id m = (id, a).
Proof.
  unfold is_member, member_id. rewrite andb_true_iff, Z.eqb_eq, bool_decide_eq_true. split.
  - by intros [-> ->].
  - by intros [= <- <-].
Qed.

Lemma is_member_false id a m : is_member id a m = false <-> member_id m <> (id, a).
Proof. rewrite <- is_member_spec. by destruct (is_member id a m). Qed.

Lemma find_app {A} (p : A -> bool) l x :
  find p (l ++ [x]) = match find p l with Some y => Some y | None => if p x then Some x else None end.
Proof. induction l as [|y l IH]; simpl; [done|]. by destruct (p y). Qed.

(** Removing elements that [p] does not accept, or all those it accepts. *)
Lemma find_filter_keep {A} (p : A -> bool) (P : A -> Prop) `{forall x, Decision (P x)} l :
  (forall x, p x = true -> P x) -> find p (filter P l) = find p l.
Proof.
  intros Hp. induction l as [|x l IH]; [done|]. rewrite filter_cons. case_decide as Hx; simpl.
  - by rewrite IH.
  - rewrite IH. destruct (p x) eqn:E; [|done]. by apply Hp in E.
Qed.

Lemma find_filter_drop {A} (p : A -> bool) (P : A -> Prop) `{forall x, Decision (P x)} l :
  (forall x, p x = true -> ~ P x) -> find p (filter P l) = None.
Proof.
  intros Hp. apply find_None. intros x Hx%list_elem_of_filter. destruct (p x) eqn:E; [|done].
  apply Hp in E. tauto.
Qed.

Lemma find_update_same {A} (q : A -> bool) y l : q y = true -> is_some (find q l) = true ->
  find q (update_first q (fun _ => y) l) = Some y.
Proof.
  intros Hy. induction l as [|x l IH]; simpl; [done|]. destruct (q x) eqn:E; simpl; [by rewrite Hy|].
  rewrite E. apply IH.
Qed.

Lemma find_update_other {A} (p q : A -> bool) y l : p y = false -> (forall x, q x = true -> p x = false) ->
  find p (update_first q (fun _ => y) l) = find p l.
Proof.
  intros Hy Hq. induction l as [|x l IH]; simpl; [done|]. destruct (q x) eqn:E; simpl.
  - by rewrite Hy, (Hq x E).
  - by rewrite IH.
Qed.

Lemma nodup_key_inj {A B} (f : A -> B) l x y : NoDup (map f l) -> x ∈ l -> y ∈ l -> f x = f y -> x = y.
Proof.
  induction l as [|z l IH]; [by intros _ ?%elem_of_nil|]. cbn [map]. rewrite NoDup_cons.
  assert (forall w, w ∈ l -> f w ∈ map f l) as Hm by (intros w; rewrite !list_elem_of_In; apply in_map).
  intros [Hz Hn] [->|Hx]%elem_of_cons [->|Hy]%elem_of_cons He; [done|..|by apply IH].
  - destruct Hz. rewrite He. by apply Hm.
  - destruct Hz. rewrite <- He. by apply Hm.
Qed.

Lemma find_member_elem s id a m : mem_inv s ->
  mem_get_member s id a = Some m <-> m ∈ members s /\ member_id m = (id, a).
Proof.
  intros Hs. unfold mem_get_member. split.
  - intros H%find_Some. by rewrite is_member_spec in H.
  - intros [Hin Hid]. destruct (find _ _) as [m'|] eqn:E.
    + apply find_Some in E as [Hin' Hid'%is_member_spec]. f_equal.
      eapply nodup_key_inj; [exact Hs|done..|congruence].
    + rewrite find_None in E. specialize (E m Hin). by apply is_member_false in E.
Qed.

Lemma of_network_filter_ne {A} id id' (l : list (Z * A)) :
  of_network id (filter (fun x => x.1 <> id') l) = if id =? id' then [] else of_network id l.
Proof.
  unfold of_network. induction l as [|x l IH]; [by case_match|]. rewrite !filter_cons.
  destruct (decide (x.1 = id)) as [<-|Hne], (decide (x.1 <> id')) as [Hn|He].
  - rewrite filter_cons. rewrite decide_True by done. simpl. rewrite IH. rewrite !if_false by lia. done.
  - rewrite IH. rewrite !if_true by (apply dec_stable in He; lia). done.
  - rewrite filter_cons, decide_False by done. exact IH.
  - exact IH.
Qed.

Lemma of_network_pairs {A} id id' (xs : list A) :
  of_network id (map (pair id') xs) = if id =? id' then xs else [].
Proof.
  unfold of_network. induction xs as [|x xs IH]; [by case_match|]. cbn [map]. rewrite filter_cons. simpl.
  case_decide as Hd; simpl.
  - subst. rewrite IH, Z.eqb_refl. done.
  - rewrite IH. by rewrite !if_false by lia.
Qed.

Lemma of_network_app {A} id (l l' : list (Z * A)) : of_network id (l ++ l') = of_network id l ++ of_network id l'.
Proof. unfold of_network. by rewrite filter_app, map_app. Qed.

Lemma of_network_replace {A} id id' (xs : list A) l :
  of_network id (replace_of id' xs l) = if id =? id' then xs else of_network id l.
Proof.
  unfold replace_of. rewrite of_network_app, of_network_filter_ne, of_network_pairs.
  case_match; [done|]. by rewrite app_nil_r.
Qed.


(** *** The specification of every write *)

Inductive Op : Type :=
  | OpCreate (n : NetworkRecord)
  | OpUpdate (n : NetworkRecord)
  | OpDelete (id : Z)
  | OpUpsert (m : MemberRecord)
  | OpDeleteMember (id : Z) (a : bytes)
  | OpPools (id : Z) (ps : list IpPool)
  | OpRoutes (id : Z) (rs : list ManagedRoute).

Definition run_op (s : InMemoryState) (o : Op) : InMemoryState :=
  match o with
  | OpCreate n => (create_network s n).1
  | OpUpdate n => (update_network s n).1
  | OpDelete id => (delete_network s id).1
  | OpUpsert m => (upsert_member s m).1
  | OpDeleteMember id a => (delete_member s id a).1
  | OpPools id ps => (set_ip_pools s id ps).1
  | OpRoutes id rs => (set_routes s id rs).1
  end.

(** A network keeps its first record until it is updated or deleted; deleting it forgets
    everything about it. *)
Definition spec_op (v : View) (o : Op) : View :=
  match o with
  | OpCreate n => add_network v n
  | OpUpdate n => replace_network v n
  | OpDelete id' =>
      mkView (fun id => if id =? id' then None else v_network v id)
        (fun id a => if id =? id' then None else v_member v id a)
        (fun id => if id =? id' then [] else v_pools v id)
        (fun id => if id =? id' then [] else v_routes v id)
  | OpUpsert m => put_member v m
  | OpDeleteMember id' a' => remove_member v id' a'
  | OpPools id' ps => put_pools v id' ps
  | OpRoutes id' rs => put_routes v id' rs
  end.

#[global] Instance spec_op_proper : Proper (view_eq ==> eq ==> view_eq) spec_op.
Proof.
  intros v w (H1 & H2 & H3 & H4) o _ <-. destruct o; split_and!; intros; simpl; try done;
    first [by rewrite H1 | case_match; done | by case_decide].
Qed.

Lemma upsert_view s m : view_eq (mem_view (mem_upsert_member s m)) (put_member (mem_view s) m).
Proof.
  split_and!; try done. intros id a. simpl. unfold mem_get_member, mem_upsert_member. simpl.
  set (same := is_member (m_network_id m) (m_node_id m)).
  assert (same m = true) as Hm by (by apply is_member_spec).
  case_decide as Hd.
  - destruct Hd as [-> ->]. fold same. destruct (is_some (find same (members s))) eqn:E.
    + by apply find_update_same.
    + rewrite find_app, Hm. by destruct (find same (members s)).
  - assert (is_member id a m = false) as Hn by (apply is_member_false; unfold member_id; intros [= <- <-]; tauto).
    case_match.
    + apply find_update_other; [done|]. intros x Hx%is_member_spec. apply is_member_false. rewrite Hx.
      intros [= <- <-]. tauto.
    + rewrite find_app, Hn. by case_match.
Qed.

Lemma upsert_inv s m : mem_inv s -> mem_inv (mem_upsert_member s m).
Proof.
  unfold mem_inv, mem_upsert_member. simpl. set (same := is_member _ _). intros Hs. destruct (find same (members s)) as [x|] eqn:E; simpl.
  - replace (map member_id (update_first same (fun _ => m) (members s))) with (map member_id (members s)); [done|].
    clear -same. induction (members s) as [|y l IH]; [done|]. simpl. destruct (same y) eqn:Ey; simpl; [|by rewrite <- IH].
    apply is_member_spec in Ey. by rewrite Ey.
  - rewrite map_app. apply NoDup_app. split_and!; [done| |apply NoDup_singleton].
    intros k Hk Hm. apply list_elem_of_In, in_map_iff in Hk as (y & <- & Hy%list_elem_of_In).
    rewrite find_None in E. specialize (E y Hy). apply is_member_false in E. destruct E.
    by apply list_elem_of_singleton in Hm.
Qed.

Lemma nodup_map_filter {A B} (f : A -> B) (P : A -> Prop) `{forall x, Decision (P x)} l :
  NoDup (map f l) -> NoDup (map f (filter P l)).
Proof.
  induction l as [|x l IH]; [done|]. cbn [map]. rewrite NoDup_cons. intros [Hx Hn]. rewrite filter_cons.
  case_decide; [|by apply IH]. cbn [map]. apply NoDup_cons. split; [|by apply IH].
  intros Hin. apply Hx. apply list_elem_of_In in Hin. apply list_elem_of_In.
  apply in_map_iff in Hin as (y & Hy & Hin). apply in_map_iff. exists y. split; [done|].
  apply list_elem_of_In in Hin. apply list_elem_of_filter in Hin as [_ Hin]. by apply list_elem_of_In.
Qed.

Lemma mem_op_refines s o : mem_inv s ->
  mem_inv (run_op s o) /\ view_eq (mem_view (run_op s o)) (spec_op (mem_view s) o).
Proof.
  intros Hs. destruct o as [n|n|id'|m|id' a'|id' ps|id' rs]; cbn [run_op create_network update_network
    delete_network upsert_member delete_member set_ip_pools set_routes memory_storage fst].
  - split; [done|]. split_and!; try done. intros id. simpl. unfold mem_get_network. simpl.
    rewrite find_app, Z.eqb_sym. done.
  - unfold mem_update_network. destruct (is_some (mem_get_network s (n_id n))) eqn:E; simpl.
    + split; [done|]. split_and!; try done. intros id. simpl. unfold mem_get_network. simpl.
      destruct (id =? n_id n) eqn:Ei.
      * replace id with (n_id n) by lia. rewrite find_update_same; [|simpl; lia|done].
        unfold mem_get_network in E. by destruct (find _ _).
      * rewrite find_update_other; [by case_match|lia|intros x Hx; lia].
    + split; [done|]. split_and!; try done. intros id. simpl. destruct (mem_get_network s id) as [x|] eqn:Ex; [|done].
      case_match; [|done]. replace id with (n_id n) in Ex by lia. by rewrite Ex in E.
  - split; [by apply nodup_map_filter|]. split_and!; simpl.
    + intros id. unfold mem_get_network. simpl. destruct (id =? id') eqn:E.
      * apply find_filter_drop. intros x Hx. lia.
      * apply find_filter_keep. intros x Hx. lia.
    + intros id a. unfold mem_get_member. simpl. destruct (id =? id') eqn:E.
      * apply find_filter_drop. intros x Hx%is_member_spec. injection Hx. lia.
      * apply find_filter_keep. intros x Hx%is_member_spec. injection Hx. lia.
    + intros id. apply of_network_filter_ne.
    + intros id. apply of_network_filter_ne.
  - split; [by apply upsert_inv|apply upsert_view].
  - split; [by apply nodup_map_filter|]. split_and!; try done. intros id a. simpl. unfold mem_get_member. simpl.
    case_decide as Hd.
    + destruct Hd as [-> ->]. apply find_filter_drop. intros x ->. done.
    + apply find_filter_keep. intros x Hx%is_member_spec. apply negb_true_iff, is_member_false.
      rewrite Hx. intros [= <- <-]. tauto.
  - split; [done|]. split_and!; try done. intros id. apply of_network_replace.
  - split; [done|]. split_and!; try done. intros id. apply of_network_replace.
Qed.

Lemma list_members_view s id a : mem_inv s ->
  a ∈ map m_node_id (network_members s id) <-> is_Some (mem_get_member s id a).
Proof.
  intros Hs. rewrite list_elem_of_In, in_map_iff. split.
  - intros (m & <- & Hm%list_elem_of_In%list_elem_of_filter). exists m. apply find_member_elem; [done|].
    destruct Hm as [<- Hm]. done.
  - intros [m Hm]. apply find_member_elem in Hm as [Hm [= <- <-]]; [|done]. exists m. split; [done|].
    by apply list_elem_of_In, list_elem_of_filter.
Qed.

Lemma list_members_nodup s id : mem_inv s -> NoDup (map m_node_id (network_members s id)).
Proof.
  intros Hs. apply (nodup_map_filter member_id (fun m => m_network_id m = id)) in Hs. unfold network_members.
  assert (map member_id (filter (fun m => m_network_id m = id) (members s)) =
          pair id <$> map m_node_id (filter (fun m => m_network_id m = id) (members s))) as Heq.
  { rewrite map_map. apply map_ext_in. intros m [Hm _]%list_elem_of_In%list_elem_of_filter. unfold member_id. by rewrite Hm. }
  rewrite Heq in Hs. exact (NoDup_fmap_1 _ _ Hs).
Qed.

Lemma assigned_ips_view s id ip : mem_inv s ->
  ip ∈ mem_get_assigned_ips s id <-> exists a m, mem_get_member s id a = Some m /\ ip ∈ m_ip_assignments m.
Proof.
  intros Hs. unfold mem_get_assigned_ips. rewrite list_elem_of_In, in_flat_map. split.
  - intros (m & Hm%list_elem_of_In%list_elem_of_filter & Hip%list_elem_of_In). exists (m_node_id m), m.
    split; [|done]. apply find_member_elem; [done|]. destruct Hm as [<- Hm]. done.
  - intros (a & m & Hm & Hip%list_elem_of_In). exists m. split; [|done].
    apply find_member_elem in Hm as [Hm [= <- <-]]; [|done]. by apply list_elem_of_In, list_elem_of_filter.
Qed.

(** The in-memory backend keeps the promises the controller relies on. *)
#[global] Instance memory_laws : StorageLaws InMemoryState MemoryStorageError.
Proof.
  refine {| inv := mem_inv; view := mem_view; fallible := False |}; try (intros; reflexivity); cbn.
  - intros s id Hs _. split; [by apply list_members_nodup|]. intros a. by apply list_members_view.
  - intros s id Hs _ ip. by apply assigned_ips_view.
  - intros s id a m Hs Hm. apply find_member_elem in Hm as [_ [= <- <-]]; done.
  - intros s m Hs _. split; [by apply upsert_inv|apply upsert_view].
  - intros s n Hs _. destruct (mem_op_refines s (OpCreate n) Hs) as [Hs' Hv]. split; [exact Hs'|by apply added_created].
  - intros s id ps Hs _ _. destruct (mem_op_refines s (OpPools id ps) Hs) as [Hs' Hv]. split; [exact Hs'|]. by exists ps.
  - intros s id rs Hs _ _. destruct (mem_op_refines s (OpRoutes id rs) Hs) as [Hs' Hv]. split; [exact Hs'|]. by exists rs.
  - intros s n Hs _. pose proof (mem_op_refines s (OpUpdate n) Hs) as [Hs' Hv]. cbn in Hs', Hv. unfold mem_update_network in *.
    destruct (mem_get_network s (n_id n)) as [x|] eqn:E; cbn in *; (split; [done|]); [by apply replaced_updated|]. split; [by right|reflexivity].
  - intros s id Hs _. destruct (mem_op_refines s (OpDelete id) Hs) as [Hs' (E1 & E2 & E3 & E4)]. split; [exact Hs'|].
    split; [exact E1|].
    split_and!; [intros i a; specialize (E2 i a)|intros i; specialize (E3 i)|intros i; specialize (E4 i)]; simpl in *;
      (destruct (i =? id) eqn:E; [right; split; [lia|done]|by left]).
  - intros s id a Hs _. apply (mem_op_refines s (OpDeleteMember id a) Hs).
  - intros s Hs id _. rewrite list_elem_of_In, in_map_iff. unfold mem_get_network. split.
    + intros (n & <- & Hn%list_elem_of_In). destruct (find _ _) eqn:E; [by eexists|]. rewrite find_None in E. specialize (E n Hn). lia.
    + intros [n Hn]. apply find_Some in Hn as [Hn Hi]. exists n. split; [lia|by apply list_elem_of_In].
Defined.

(** C40. The in-memory backend implements its specification: after any sequence of writes no
    member is stored twice, the reads are those of the abstract store the same writes
    produce, and the member and address listings are exactly those of the store. *)
Theorem memory_storage_refines (ops : list Op) :
  let s := fold_left run_op ops new in
  let v := fold_left spec_op ops (mkView (fun _ => None) (fun _ _ => None) (fun _ => []) (fun _ => [])) in
  mem_inv s /\ view_eq (mem_view s) v /\
  (forall id a, a ∈ map m_node_id (network_members s id) <-> is_Some (v_member v id a)) /\
  (forall id ip, ip ∈ mem_get_assigned_ips s id <->
     exists a m, v_member v id a = Some m /\ ip ∈ m_ip_assignments m).
Proof.
  cbv zeta.
  assert (forall s v, mem_inv s -> view_eq (mem_view s) v ->
    mem_inv (fold_left run_op ops s) /\ view_eq (mem_view (fold_left run_op ops s)) (fold_left spec_op ops v)) as H.
  { induction ops as [|o ops IH]; intros s v Hs Hv; [done|]. simpl.
    destruct (mem_op_refines s o Hs) as [Hs' Hv']. apply IH; [done|]. etransitivity; [exact Hv'|].
    by apply spec_op_proper. }
  destruct (H new _ (NoDup_nil_2) (reflexivity _)) as [Hs Hv]. split; [done|]. split; [done|].
  destruct Hv as (_ & Hm & _ & _). simpl in Hm. split.
  - intros id a. rewrite list_members_view by done. by rewrite Hm.
  - intros id ip. rewrite assigned_ips_view by done. by setoid_rewrite Hm.
Qed.

End Memory.
