(* ===== verification/Sqlite.v ===== *)
(** * Sqlite: the SQLite backend of the controller's storage (zerotier-service:
    storage/sqlite.rs).

    The database engine and the JSON library are parameters. [Sql] is a connection: the tables
    it shows, the statements the backend executes, the queries it makes and its transactions;
    [SqlLaws] is what the engine documents of them. [Serde] and [SerdeLaws] are the JSON of the
    columns that hold lists. The rows, the casts, the statements of each operation, their order
    and what becomes of their errors are the backend's. *)
From S2P Require Export Storage.

(** ** Casts *)

(** [z as iw]. *)
Definition as_signed (w z : Z) : Z := if wrap w z <? 2 ^ (w - 1) then wrap w z else wrap w z - 2 ^ w.

Lemma wrap_as_signed w z : 0 < w -> 0 <= z < 2 ^ w -> wrap w (as_signed w z) = z.
Proof.
  intros Hw Hz. unfold as_signed, wrap. rewrite !(Z.mod_small z) by done. case_match; [by rewrite Z.mod_small|].
  rewrite <- (Z.mod_small z (2 ^ w)) at 2 by done. rewrite <- (Z.mod_add (z - 2 ^ w) 1 (2 ^ w)) by lia. f_equal. lia.
Qed.

Lemma as_signed_inj w y z : 0 < w -> 0 <= y < 2 ^ w -> 0 <= z < 2 ^ w -> as_signed w y = as_signed w z -> y = z.
Proof. intros Hw Hy Hz He. by rewrite <- (wrap_as_signed w y), He, wrap_as_signed. Qed.

Lemma as_signed_range w z : 0 < w -> 0 <= z < 2 ^ w -> - 2 ^ (w - 1) <= as_signed w z < 2 ^ (w - 1).
Proof.
  intros Hw Hz. unfold as_signed, wrap. rewrite !Z.mod_small by done.
  assert (2 ^ w = 2 * 2 ^ (w - 1)) by (rewrite <- Z.pow_succ_r by lia; f_equal; lia).
  destruct (Z.ltb_spec z (2 ^ (w - 1))); lia.
Qed.

(** ** Rows

    An INTEGER cell is an i64, a TEXT or BLOB cell its bytes. *)
Record NetworkRow := mkNetworkRow {
  nr_id : Z;
  nr_name : bytes;
  nr_private : Z;
  nr_creation_time : Z;
  nr_revision : Z;
  nr_multicast_limit : Z;
  nr_mtu : Z;
  nr_v4_assign_mode : bytes;
  nr_v6_assign_mode : bytes;
  nr_rules_json : bytes;
  nr_capabilities_json : bytes;
  nr_tag_definitions_json : bytes;
  nr_enable_broadcast : Z;
}.

Record MemberRow := mkMemberRow {
  mr_network_id : Z;
  mr_node_id : bytes;
  mr_authorized : Z;
  mr_ip_assignments : bytes;
  mr_creation_time : Z;
  mr_last_seen : Z;
  mr_name : bytes;
  mr_revision : Z;
  mr_last_authorized_time : Z;
  mr_last_deauthorized_time : Z;
  mr_active_bridge : Z;
  mr_no_auto_assign_ips : Z;
  mr_capabilities_json : bytes;
  mr_tags_json : bytes;
}.

Record PoolRow := mkPoolRow { pr_network_id : Z; pr_range_start : bytes; pr_range_end : bytes }.
Record RouteRow := mkRouteRow { rr_network_id : Z; rr_target : bytes; rr_via : option bytes }.

(** The tables, in the order a scan visits their rows. *)
Record Db := mkDb {
  t_networks : list NetworkRow;
  t_members : list MemberRow;
  t_pools : list PoolRow;
  t_routes : list RouteRow;
}.

Definition member_row_key (r : MemberRow) : Z * bytes := (mr_network_id r, mr_node_id r).
Definition pool_row_key (r : PoolRow) : Z * bytes * bytes := (pr_network_id r, pr_range_start r, pr_range_end r).
Definition route_row_key (r : RouteRow) : Z * bytes := (rr_network_id r, rr_target r).

(** The statements of the backend that write. *)
Inductive Statement :=
  | InsertNetwork (row : NetworkRow)
  | UpdateNetwork (row : NetworkRow)
  | DeleteNetwork (id : Z)
  | ReplaceMember (row : MemberRow)
  | DeleteMember (network_id : Z) (node_id : bytes)
  | DeletePools (network_id : Z)
  | InsertPool (row : PoolRow)
  | DeleteRoutes (network_id : Z)
  | InsertRoute (row : RouteRow).

(** ** The database engine *)

Class Sql (C SE : Type) := {
  execute : C -> Statement -> C * option SE;
  select_networks : C -> option Z -> SE + list NetworkRow;
  select_members : C -> Z -> option bytes -> SE + list MemberRow;
  select_pools : C -> Z -> SE + list PoolRow;
  select_routes : C -> Z -> SE + list RouteRow;
  transaction : C -> C * option SE;
  commit : C -> C * option SE;
  rollback : C -> C;
  get_i32 : Z -> SE + Z;
  get_text : bytes -> SE + bytes;
  sql_display : SE -> bytes;
  rows : C -> Db;
  saved : C -> option Db;
}.

(** A row that is put somewhere among the others. *)
Definition inserted {A} (x : A) (l l' : list A) : Prop := exists l1 l2, l = l1 ++ l2 /\ l' = l1 ++ x :: l2.

Definition with_networks (d : Db) l := mkDb l (t_members d) (t_pools d) (t_routes d).
Definition with_members (d : Db) l := mkDb (t_networks d) l (t_pools d) (t_routes d).
Definition with_pools (d : Db) l := mkDb (t_networks d) (t_members d) l (t_routes d).
Definition with_routes (d : Db) l := mkDb (t_networks d) (t_members d) (t_pools d) l.

(** What a statement that succeeds does to the tables. The primary keys are networks (id),
    members (network_id, node_id), ip_pools (network_id, range_start, range_end) and
    routes (network_id, target). *)
Inductive executes (d : Db) : Statement -> Db -> Prop :=
  | exec_insert_network row l : nr_id row ∉ map nr_id (t_networks d) -> inserted row (t_networks d) l ->
      executes d (InsertNetwork row) (with_networks d l)
  | exec_update_network row :
      executes d (UpdateNetwork row)
        (with_networks d (map (fun r => if bool_decide (nr_id r = nr_id row) then row else r) (t_networks d)))
  | exec_delete_network id :
      executes d (DeleteNetwork id) (with_networks d (filter (fun r => nr_id r <> id) (t_networks d)))
  | exec_replace_member row l :
      inserted row (filter (fun r => member_row_key r <> member_row_key row) (t_members d)) l ->
      executes d (ReplaceMember row) (with_members d l)
  | exec_delete_member network_id node_id :
      executes d (DeleteMember network_id node_id)
        (with_members d (filter (fun r => member_row_key r <> (network_id, node_id)) (t_members d)))
  | exec_delete_pools network_id :
      executes d (DeletePools network_id) (with_pools d (filter (fun r => pr_network_id r <> network_id) (t_pools d)))
  | exec_insert_pool row l : pool_row_key row ∉ map pool_row_key (t_pools d) -> inserted row (t_pools d) l ->
      executes d (InsertPool row) (with_pools d l)
  | exec_delete_routes network_id :
      executes d (DeleteRoutes network_id) (with_routes d (filter (fun r => rr_network_id r <> network_id) (t_routes d)))
  | exec_insert_route row l : route_row_key row ∉ map route_row_key (t_routes d) -> inserted row (t_routes d) l ->
      executes d (InsertRoute row) (with_routes d l).

(** A failed statement leaves no trace, unless the engine takes the whole transaction back. *)
Definition undone {C SE} `{Sql C SE} (c c' : C) : Prop :=
  (rows c' = rows c /\ saved c' = saved c) \/ (saved c = Some (rows c') /\ saved c' = None).

Class SqlLaws (C SE : Type) `{Sql C SE} := {
  execute_ok c st : let '(c', e) := execute c st in
    match e with
    | None => executes (rows c) st (rows c') /\ saved c' = saved c
    | Some _ => undone c c'
    end;
  select_networks_ok c id l : select_networks c id = inr l ->
    l = match id with
        | Some id => filter (fun r => nr_id r = id) (t_networks (rows c))
        | None => t_networks (rows c)
        end;
  select_members_ok c id node l : select_members c id node = inr l ->
    l = match node with
        | Some a => filter (fun r => member_row_key r = (id, a)) (t_members (rows c))
        | None => filter (fun r => mr_network_id r = id) (t_members (rows c))
        end;
  select_pools_ok c id l : select_pools c id = inr l -> l = filter (fun r => pr_network_id r = id) (t_pools (rows c));
  select_routes_ok c id l : select_routes c id = inr l -> l = filter (fun r => rr_network_id r = id) (t_routes (rows c));
  transaction_ok c : saved c = None -> let '(c', e) := transaction c in
    rows c' = rows c /\ saved c' = match e with None => Some (rows c) | Some _ => None end;
  commit_ok c : let '(c', e) := commit c in
    match e with None => rows c' = rows c /\ saved c' = None | Some _ => undone c c' end;
  rollback_ok c : saved (rollback c) = None /\
    rows (rollback c) = match saved c with Some d => d | None => rows c end;
  get_i32_ok z : - 2 ^ 31 <= z < 2 ^ 31 -> get_i32 z = inr z;
  get_text_ok s : text_ok s -> get_text s = inr s;
}.

(** ** JSON *)

Class Json (JE A : Type) := { to_string : A -> JE + bytes; from_str : bytes -> JE + A }.

Class Serde (JE : Type) := {
  json_rules :: Json JE (list Rule);
  json_capabilities :: Json JE (list Capability);
  json_tag_definitions :: Json JE (list TagDefinition);
  json_strings :: Json JE (list bytes);
  json_numbers :: Json JE (list Z);
  json_tags :: Json JE (list Tag);
  json_display : JE -> bytes;
  join_display : bytes;
}.

(** What was written reads back. *)
Definition json_law {JE A} `{Json JE A} (typed : A -> Prop) : Prop :=
  forall a s, typed a -> to_string a = inr s -> text_ok s /\ from_str s = inr a.

Class SerdeLaws (JE : Type) `{Serde JE} := {
  rules_law : json_law (A := list Rule) (Forall rule_typed);
  capabilities_law : json_law (A := list Capability) (Forall capability_typed);
  tag_definitions_law : json_law (A := list TagDefinition) (Forall tag_definition_typed);
  strings_law : json_law (A := list bytes) (Forall text_ok);
  numbers_law : json_law (A := list Z) (Forall u32_ok);
  tags_law : json_law (A := list Tag) (Forall tag_typed);
}.

(** ** sqlite.rs *)

Inductive SqliteStorageError (SE JE : Type) :=
  | SqliteError (e : SE)
  | JsonError (e : JE)
  | JoinError.
Arguments SqliteError {SE JE} _.
Arguments JsonError {SE JE} _.
Arguments JoinError {SE JE}.

(** The shared connection: a task that panics with the lock held poisons it. *)
Record SqliteStorage (C : Type) := mkSqlite { conn : C; poisoned : bool }.
Arguments mkSqlite {C} _ _.
Arguments conn {C} _.
Arguments poisoned {C} _.

Module Sqlite.

Section Backend.
Context {C SE JE : Type} `{Sql C SE} `{Serde JE}.
Notation Error := (SqliteStorageError SE JE).

(** [?] on an error of the engine, and of the JSON library. *)
Definition sql {A} (r : SE + A) : res Error A := match r with inl e => Err (SqliteError e) | inr a => Ok a end.
Definition json {A} (r : JE + A) : res Error A := match r with inl e => Err (JsonError e) | inr a => Ok a end.
Definition done (x : C * option SE) : C * res Error unit :=
  (x.1, match x.2 with Some e => Err (SqliteError e) | None => Ok tt end).

(** A blocking task that takes the lock and runs [body]. *)
Definition spawn_blocking {A} (body : C -> C * res Error A) (s : SqliteStorage C) : SqliteStorage C * res Error A :=
  if poisoned s then (s, Err JoinError)
  else let '(c', r) := body (conn s) in
       match r with
       | Panic => (mkSqlite c' true, Err JoinError)
       | _ => (mkSqlite c' false, r)
       end.

(** A task that only reads. *)
Definition reading {A} (body : C -> res Error A) : SqliteStorage C -> SqliteStorage C * res Error A :=
  spawn_blocking (fun c => (c, body c)).

(** [query_row]: the first row, or [QueryReturnedNoRows], which the callers take for none. *)
Definition query_row {R A} (selected : SE + list R) (f : R -> res Error A) : res Error (option A) :=
  let* l := sql selected in
  match l with
  | [] => Ok None
  | r :: _ => let* a := f r in Ok (Some a)
  end.

(** [query_map(..)?.collect()]. *)
Fixpoint collect {R A} (f : R -> res Error A) (l : list R) : res Error (list A) :=
  match l with
  | [] => Ok []
  | r :: l => let* a := f r in let* rest := collect f l in Ok (a :: rest)
  end.
Definition query_map {R A} (selected : SE + list R) (f : R -> res Error A) : res Error (list A) :=
  let* l := sql selected in collect f l.

(** [copy_from_slice(&blob[..n])]. *)
Definition first_bytes (n : nat) (blob : bytes) : res Error bytes :=
  if len blob <? Z.of_nat n then Panic else Ok (take n blob).

(** *** Networks *)

Definition network_row (network : NetworkRecord) (rules_json capabilities_json tag_definitions_json : bytes) : NetworkRow := {|
  nr_id := as_signed 64 (n_id network);
  nr_name := n_name network;
  nr_private := if n_private network then 1 else 0;
  nr_creation_time := as_signed 64 (n_creation_time network);
  nr_revision := as_signed 64 (n_revision network);
  nr_multicast_limit := as_signed 32 (n_multicast_limit network);
  nr_mtu := as_signed 32 (n_mtu network);
  nr_v4_assign_mode := n_v4_assign_mode network;
  nr_v6_assign_mode := n_v6_assign_mode network;
  nr_rules_json := rules_json;
  nr_capabilities_json := capabilities_json;
  nr_tag_definitions_json := tag_definitions_json;
  nr_enable_broadcast := if n_enable_broadcast network then 1 else 0;
|}.

Definition read_network (r : NetworkRow) : res Error NetworkRecord :=
  let* rules_json := sql (get_text (nr_rules_json r)) in
  let* capabilities_json := sql (get_text (nr_capabilities_json r)) in
  let* tag_definitions_json := sql (get_text (nr_tag_definitions_json r)) in
  let* name := sql (get_text (nr_name r)) in
  let* private := sql (get_i32 (nr_private r)) in
  let* multicast_limit := sql (get_i32 (nr_multicast_limit r)) in
  let* mtu := sql (get_i32 (nr_mtu r)) in
  let* v4_assign_mode := sql (get_text (nr_v4_assign_mode r)) in
  let* v6_assign_mode := sql (get_text (nr_v6_assign_mode r)) in
  let* enable_broadcast := sql (get_i32 (nr_enable_broadcast r)) in
  let* rules := json (from_str rules_json) in
  let* capabilities := json (from_str capabilities_json) in
  let* tags := json (from_str tag_definitions_json) in
  Ok {| n_id := wrap 64 (nr_id r);
        n_name := name;
        n_private := negb (private =? 0);
        n_creation_time := wrap 64 (nr_creation_time r);
        n_revision := wrap 64 (nr_revision r);
        n_multicast_limit := wrap 32 multicast_limit;
        n_mtu := wrap 16 mtu;
        n_v4_assign_mode := v4_assign_mode;
        n_v6_assign_mode := v6_assign_mode;
        n_rules := rules;
        n_capabilities := capabilities;
        n_tags := tags;
        n_enable_broadcast := negb (enable_broadcast =? 0) |}.

Definition sql_get_network (s : SqliteStorage C) (id : Z) : SqliteStorage C * res Error (option NetworkRecord) :=
  reading (fun c => query_row (select_networks c (Some (as_signed 64 id))) read_network) s.

(** The three columns of JSON, which a write prepares before it takes the lock. *)
Definition with_network_json (network : NetworkRecord) (statement : NetworkRow -> Statement) (s : SqliteStorage C)
    : SqliteStorage C * res Error unit :=
  match to_string (n_rules network), to_string (n_capabilities network), to_string (n_tags network) with
  | inl e, _, _ | _, inl e, _ | _, _, inl e => (s, Err (JsonError e))
  | inr rules_json, inr capabilities_json, inr tag_definitions_json =>
      spawn_blocking (fun c =>
        done (execute c (statement (network_row network rules_json capabilities_json tag_definitions_json)))) s
  end.

Definition sql_create_network (s : SqliteStorage C) (network : NetworkRecord) : SqliteStorage C * res Error unit :=
  with_network_json network InsertNetwork s.
Definition sql_update_network (s : SqliteStorage C) (network : NetworkRecord) : SqliteStorage C * res Error unit :=
  with_network_json network UpdateNetwork s.
Definition sql_delete_network (s : SqliteStorage C) (id : Z) : SqliteStorage C * res Error unit :=
  spawn_blocking (fun c => done (execute c (DeleteNetwork (as_signed 64 id)))) s.
Definition sql_list_networks (s : SqliteStorage C) : SqliteStorage C * res Error (list Z) :=
  reading (fun c => query_map (select_networks c None) (fun r => Ok (wrap 64 (nr_id r)))) s.

(** *** Members *)

Definition member_row (member : MemberRecord) (ip_json capabilities_json tags_json : bytes) : MemberRow := {|
  mr_network_id := as_signed 64 (m_network_id member);
  mr_node_id := m_node_id member;
  mr_authorized := if m_authorized member then 1 else 0;
  mr_ip_assignments := ip_json;
  mr_creation_time := as_signed 64 (m_creation_time member);
  mr_last_seen := as_signed 64 (m_last_seen member);
  mr_name := m_name member;
  mr_revision := as_signed 64 (m_revision member);
  mr_last_authorized_time := as_signed 64 (m_last_authorized_time member);
  mr_last_deauthorized_time := as_signed 64 (m_last_deauthorized_time member);
  mr_active_bridge := if m_active_bridge member then 1 else 0;
  mr_no_auto_assign_ips := if m_no_auto_assign_ips member then 1 else 0;
  mr_capabilities_json := capabilities_json;
  mr_tags_json := tags_json;
|}.

Definition read_member (r : MemberRow) : res Error MemberRecord :=
  let* nid := first_bytes 5 (mr_node_id r) in
  let* ip_json := sql (get_text (mr_ip_assignments r)) in
  let* authorized := sql (get_i32 (mr_authorized r)) in
  let* name := sql (get_text (mr_name r)) in
  let* active_bridge := sql (get_i32 (mr_active_bridge r)) in
  let* no_auto_assign_ips := sql (get_i32 (mr_no_auto_assign_ips r)) in
  let* capabilities_json := sql (get_text (mr_capabilities_json r)) in
  let* tags_json := sql (get_text (mr_tags_json r)) in
  let* ip_assignments := json (from_str ip_json) in
  let* capabilities := json (from_str capabilities_json) in
  let* tags := json (from_str tags_json) in
  Ok {| m_network_id := wrap 64 (mr_network_id r);
        m_node_id := nid;
        m_authorized := negb (authorized =? 0);
        m_ip_assignments := ip_assignments;
        m_creation_time := wrap 64 (mr_creation_time r);
        m_last_seen := wrap 64 (mr_last_seen r);
        m_name := name;
        m_revision := wrap 64 (mr_revision r);
        m_last_authorized_time := wrap 64 (mr_last_authorized_time r);
        m_last_deauthorized_time := wrap 64 (mr_last_deauthorized_time r);
        m_active_bridge := negb (active_bridge =? 0);
        m_no_auto_assign_ips := negb (no_auto_assign_ips =? 0);
        m_capabilities := capabilities;
        m_tags := tags |}.

Definition sql_get_member (s : SqliteStorage C) (network_id : Z) (node_id : bytes)
    : SqliteStorage C * res Error (option MemberRecord) :=
  reading (fun c => query_row (select_members c (as_signed 64 network_id) (Some node_id)) read_member) s.

Definition sql_upsert_member (s : SqliteStorage C) (member : MemberRecord) : SqliteStorage C * res Error unit :=
  match to_string (m_ip_assignments member), to_string (m_capabilities member), to_string (m_tags member) with
  | inl e, _, _ | _, inl e, _ | _, _, inl e => (s, Err (JsonError e))
  | inr ip_json, inr capabilities_json, inr tags_json =>
      spawn_blocking (fun c => done (execute c (ReplaceMember (member_row member ip_json capabilities_json tags_json)))) s
  end.

Definition sql_delete_member (s : SqliteStorage C) (network_id : Z) (node_id : bytes) : SqliteStorage C * res Error unit :=
  spawn_blocking (fun c => done (execute c (DeleteMember (as_signed 64 network_id) node_id))) s.

Definition sql_list_members (s : SqliteStorage C) (network_id : Z) : SqliteStorage C * res Error (list bytes) :=
  reading (fun c => query_map (select_members c (as_signed 64 network_id) None) (fun r => first_bytes 5 (mr_node_id r))) s.

(** Text that is not the JSON of a list of strings counts as the empty list. *)
Definition sql_get_assigned_ips (s : SqliteStorage C) (network_id : Z) : SqliteStorage C * res Error (list bytes) :=
  reading (fun c =>
    let* all := query_map (select_members c (as_signed 64 network_id) None)
      (fun r => let* ip_json := sql (get_text (mr_ip_assignments r)) in
                Ok (match from_str (JE := JE) (A := list bytes) ip_json with inr ips => ips | inl _ => [] end)) in
    Ok (concat all)) s.

(** *** Pools and routes *)

(** Statements one after the other, up to the first that fails. *)
Fixpoint execute_all (c : C) (statements : list Statement) : C * option SE :=
  match statements with
  | [] => (c, None)
  | st :: statements =>
      match execute c st with
      | (c', None) => execute_all c' statements
      | (c', Some e) => (c', Some e)
      end
  end.

Definition pool_row (network_id : Z) (pool : IpPool) : PoolRow :=
  mkPoolRow (as_signed 64 network_id) (range_start pool) (range_end pool).
Definition route_row (network_id : Z) (route : ManagedRoute) : RouteRow :=
  mkRouteRow (as_signed 64 network_id) (mr_target route) (mr_via route).

Definition read_pool (r : PoolRow) : res Error IpPool :=
  let* rs := first_bytes 4 (pr_range_start r) in
  let* re := first_bytes 4 (pr_range_end r) in
  Ok (mkPool rs re).

Definition read_route (r : RouteRow) : res Error ManagedRoute :=
  let* target := sql (get_text (rr_target r)) in
  match rr_via r with
  | None => Ok (mkManagedRoute target None)
  | Some via => let* via := sql (get_text via) in Ok (mkManagedRoute target (Some via))
  end.

Definition sql_get_ip_pools (s : SqliteStorage C) (network_id : Z) : SqliteStorage C * res Error (list IpPool) :=
  reading (fun c => query_map (select_pools c (as_signed 64 network_id)) read_pool) s.
Definition sql_get_routes (s : SqliteStorage C) (network_id : Z) : SqliteStorage C * res Error (list ManagedRoute) :=
  reading (fun c => query_map (select_routes c (as_signed 64 network_id)) read_route) s.

(** Each of these statements is a transaction of its own. *)
Definition sql_set_ip_pools (s : SqliteStorage C) (network_id : Z) (pools : list IpPool) : SqliteStorage C * res Error unit :=
  spawn_blocking (fun c =>
    done (execute_all c (DeletePools (as_signed 64 network_id) :: map (fun pool => InsertPool (pool_row network_id pool)) pools))) s.

(** These are one transaction, which is rolled back when it is dropped before it is committed. *)
Definition sql_set_routes (s : SqliteStorage C) (network_id : Z) (rs : list ManagedRoute) : SqliteStorage C * res Error unit :=
  spawn_blocking (fun c =>
    match transaction c with
    | (c, Some e) => (c, Err (SqliteError e))
    | (c, None) =>
        match execute_all c (DeleteRoutes (as_signed 64 network_id) :: map (fun route => InsertRoute (route_row network_id route)) rs) with
        | (c, Some e) => (rollback c, Err (SqliteError e))
        | (c, None) =>
            match commit c with
            | (c, Some e) => (rollback c, Err (SqliteError e))
            | (c, None) => (c, Ok tt)
            end
        end
    end) s.

Definition sql_display_error (e : Error) : bytes :=
  match e with
  | SqliteError e => str "sqlite error: " ++ sql_display e
  | JsonError e => str "json error: " ++ json_display e
  | JoinError => str "task join error: " ++ join_display
  end.

(** Reads leave the storage as it is unless they panic ([readings_keep]). *)
#[global] Instance sqlite_storage : ControllerStorage (SqliteStorage C) Error := {|
  get_network s id := (sql_get_network s id).2;
  create_network := sql_create_network;
  update_network := sql_update_network;
  delete_network := sql_delete_network;
  list_networks s := (sql_list_networks s).2;
  get_member s id a := (sql_get_member s id a).2;
  upsert_member := sql_upsert_member;
  delete_member := sql_delete_member;
  list_members s id := (sql_list_members s id).2;
  get_ip_pools s id := (sql_get_ip_pools s id).2;
  set_ip_pools := sql_set_ip_pools;
  get_routes s id := (sql_get_routes s id).2;
  set_routes := sql_set_routes;
  get_assigned_ips s id := (sql_get_assigned_ips s id).2;
  display_error := sql_display_error;
|}.

End Backend.

(** ** The schema *)

(** A table as [CREATE TABLE IF NOT EXISTS] declares it: its name, its columns, its primary key. *)
Record TableDef := mkTableDef { td_table : bytes; td_columns : list (bytes * bytes); td_primary_key : list bytes }.

(** The engine's data definition; [columns] are those of a table it has. *)
Class Ddl (C SE : Type) := {
  open : bytes -> SE + C;
  execute_batch : C -> list TableDef -> C * option SE;
  table_info : C -> bytes -> SE + list bytes;
  alter_table_add : C -> bytes -> bytes * bytes -> C * option SE;
  columns : C -> bytes -> option (list bytes);
}.

Class DdlLaws (C SE : Type) `{Ddl C SE} := {
  execute_batch_ok c defs c' : execute_batch c defs = (c', None) -> forall t,
    columns c' t = match columns c t with
                   | Some l => Some l
                   | None => (fun d => map fst (td_columns d)) <$> find (fun d => bool_decide (td_table d = t)) defs
                   end;
  table_info_ok c t l : table_info c t = inr l -> l = default [] (columns c t);
  alter_table_ok c t col c' : alter_table_add c t col = (c', None) -> exists l,
    columns c t = Some l /\ col.1 ∉ l /\ forall t', columns c' t' = if decide (t' = t) then Some (l ++ [col.1]) else columns c t';
}.

Definition NOT_NULL (decl : bytes) : bytes := decl ++ str " NOT NULL".
Definition INTEGER : bytes := NOT_NULL (str "INTEGER").
Definition TEXT : bytes := NOT_NULL (str "TEXT").
Definition BLOB : bytes := NOT_NULL (str "BLOB").
Definition DEFAULT_0 : bytes := INTEGER ++ str " DEFAULT 0".
Definition DEFAULT_LIST : bytes := TEXT ++ str " DEFAULT '[]'".

(** The columns introduced after the first shape of the tables. *)
Definition NEW_MEMBER_COLUMNS : list (bytes * bytes) :=
  [(str "revision", DEFAULT_0); (str "last_authorized_time", DEFAULT_0); (str "last_deauthorized_time", DEFAULT_0);
   (str "active_bridge", DEFAULT_0); (str "no_auto_assign_ips", DEFAULT_0);
   (str "capabilities_json", DEFAULT_LIST); (str "tags_json", DEFAULT_LIST)].
Definition NEW_NETWORK_COLUMNS : list (bytes * bytes) :=
  [(str "rules_json", DEFAULT_LIST); (str "capabilities_json", DEFAULT_LIST); (str "tag_definitions_json", DEFAULT_LIST)].

Definition SCHEMA : list TableDef := [
  mkTableDef (str "networks")
    [(str "id", str "INTEGER PRIMARY KEY"); (str "name", TEXT); (str "private", INTEGER); (str "creation_time", INTEGER);
     (str "revision", INTEGER); (str "multicast_limit", INTEGER); (str "mtu", INTEGER); (str "v4_assign_mode", TEXT);
     (str "v6_assign_mode", TEXT); (str "rules_json", DEFAULT_LIST); (str "capabilities_json", DEFAULT_LIST);
     (str "tag_definitions_json", DEFAULT_LIST); (str "enable_broadcast", INTEGER)]
    [str "id"];
  mkTableDef (str "members")
    ([(str "network_id", INTEGER); (str "node_id", BLOB); (str "authorized", INTEGER); (str "ip_assignments", TEXT);
      (str "creation_time", INTEGER); (str "last_seen", INTEGER); (str "name", TEXT)] ++ NEW_MEMBER_COLUMNS)
    [str "network_id"; str "node_id"];
  mkTableDef (str "ip_pools")
    [(str "network_id", INTEGER); (str "range_start", BLOB); (str "range_end", BLOB)]
    [str "network_id"; str "range_start"; str "range_end"];
  mkTableDef (str "routes")
    [(str "network_id", INTEGER); (str "target", TEXT); (str "via", str "TEXT")]
    [str "network_id"; str "target"] ].

Module Schema.
Section Schema.
Context {C SE : Type} `{DdlLaws C SE}.

Fixpoint alter_table (c : C) (table : bytes) (existing : list bytes) (new_columns : list (bytes * bytes)) : C * option SE :=
  match new_columns with
  | [] => (c, None)
  | col :: rest =>
      if bool_decide (col.1 ∈ existing) then alter_table c table existing rest
      else match alter_table_add c table col with
           | (c', None) => alter_table c' table existing rest
           | (c', Some e) => (c', Some e)
           end
  end.

Definition add_missing_columns (c : C) (table : bytes) (new_columns : list (bytes * bytes)) : C * option SE :=
  match table_info c table with
  | inl e => (c, Some e)
  | inr existing => alter_table c table existing new_columns
  end.

Definition new (path : bytes) : SE + SqliteStorage C :=
  match open path with
  | inl e => inl e
  | inr c =>
      match execute_batch c SCHEMA with
      | (_, Some e) => inl e
      | (c, None) =>
          match add_missing_columns c (str "members") NEW_MEMBER_COLUMNS with
          | (_, Some e) => inl e
          | (c, None) =>
              match add_missing_columns c (str "networks") NEW_NETWORK_COLUMNS with
              | (_, Some e) => inl e
              | (c, None) => inr (mkSqlite c false)
              end
          end
      end
  end.

(** *** Properties *)

Definition missing (existing : list bytes) (new_columns : list (bytes * bytes)) : list bytes :=
  filter (fun name => name ∉ existing) (map fst new_columns).

Lemma alter_table_spec c table existing new_columns c' l : columns c table = Some l ->
  alter_table c table existing new_columns = (c', None) ->
  forall t, columns c' t = if decide (t = table) then Some (l ++ missing existing new_columns) else columns c t.
Proof.
  unfold missing. revert c l. induction new_columns as [|col rest IH]; intros c l Hl; cbn [alter_table map].
  - intros [= <-] t. rewrite app_nil_r. case_decide; congruence.
  - destruct (bool_decide (col.1 ∈ existing)) eqn:E.
    + apply bool_decide_eq_true in E. rewrite filter_cons_False by tauto. by apply IH.
    + apply bool_decide_eq_false in E. rewrite filter_cons_True by done.
      destruct (alter_table_add c table col) as [c1 [e|]] eqn:Ea; [discriminate|]. intros Hr t.
      destruct (alter_table_ok _ _ _ _ Ea) as (l1 & Hl1 & _ & Hc1). rewrite Hl in Hl1. injection Hl1 as <-.
      rewrite (IH c1 (l ++ [col.1]) ltac:(by rewrite Hc1, decide_True) Hr t). rewrite <- app_assoc. case_decide; [done|].
      by rewrite Hc1, decide_False.
Qed.

(** Every column asked for is there afterwards, and those there were stay. *)
Lemma add_missing_spec c table new_columns c' l : columns c table = Some l ->
  add_missing_columns c table new_columns = (c', None) ->
  exists l', columns c' table = Some l' /\ l ⊆ l' /\ map fst new_columns ⊆ l' /\
    forall t, t <> table -> columns c' t = columns c t.
Proof.
  intros Hl. unfold add_missing_columns. destruct (table_info c table) as [e|ex] eqn:Et; [discriminate|].
  apply table_info_ok in Et. rewrite Hl in Et. cbn in Et. subst ex. intros Hr. pose proof (alter_table_spec _ _ _ _ _ _ Hl Hr) as Hc.
  exists (l ++ missing l new_columns). split_and!.
  - by rewrite Hc, decide_True.
  - intros x Hx. apply elem_of_app. by left.
  - intros x Hx. apply elem_of_app. destruct (decide (x ∈ l)); [by left|right]. by apply list_elem_of_filter.
  - intros t Ht. by rewrite Hc, decide_False.
Qed.

(** A database that is up to date is left alone. *)
Lemma add_missing_idle c table new_columns l : table_info c table = inr l -> map fst new_columns ⊆ l ->
  add_missing_columns c table new_columns = (c, None).
Proof.
  intros Ht Hs. unfold add_missing_columns. rewrite Ht. induction new_columns as [|col rest IH]; [done|]. cbn [alter_table map] in *.
  rewrite bool_decide_eq_true_2 by (apply Hs; left). apply IH. intros x Hx. apply Hs. by right.
Qed.

(** The columns of the tables as the statements use them. *)
Definition declared (t : bytes) : list bytes :=
  default [] ((fun d => map fst (td_columns d)) <$> find (fun d => bool_decide (td_table d = t)) SCHEMA).

(** What the database was when it was opened: a table it lacks, or one that has at least the columns
    of its first shape. *)
Definition first_shape (c : C) (t : bytes) (later : list (bytes * bytes)) : Prop :=
  forall l, columns c t = Some l -> forall x, x ∈ declared t -> x ∉ map fst later -> x ∈ l.

Lemma created c c' t : execute_batch c SCHEMA = (c', None) -> is_Some (find (fun d => bool_decide (td_table d = t)) SCHEMA) ->
  exists l, columns c' t = Some l /\ forall later, first_shape c t later -> forall x, x ∈ declared t -> x ∉ map fst later -> x ∈ l.
Proof.
  intros Hb [d Hd]. rewrite (execute_batch_ok _ _ _ Hb t). destruct (columns c t) as [l|] eqn:El.
  - exists l. split; [done|]. intros later Hf. by apply Hf.
  - rewrite Hd. exists (map fst (td_columns d)). split; [done|]. intros later _ x. unfold declared. by rewrite Hd.
Qed.

(** However old the database is, once it is open its tables have every column the backend names. *)
Lemma new_has_columns path c s :
  open path = inr c -> new path = inr s ->
  first_shape c (str "members") NEW_MEMBER_COLUMNS -> first_shape c (str "networks") NEW_NETWORK_COLUMNS ->
  first_shape c (str "ip_pools") [] -> first_shape c (str "routes") [] ->
  poisoned s = false /\
  forall t, t ∈ map td_table SCHEMA -> exists l, columns (conn s) t = Some l /\ declared t ⊆ l.
Proof.
  intros Ho Hn Hm Hnet Hp Hr. unfold new in Hn. rewrite Ho in Hn.
  destruct (execute_batch c SCHEMA) as [c1 [e|]] eqn:Eb; [discriminate|].
  destruct (created c c1 (str "members") Eb ltac:(by eexists)) as (lm & Em & Cm).
  destruct (created c c1 (str "networks") Eb ltac:(by eexists)) as (ln & En & Cn).
  destruct (created c c1 (str "ip_pools") Eb ltac:(by eexists)) as (lp & Ep & Cp).
  destruct (created c c1 (str "routes") Eb ltac:(by eexists)) as (lr & Er & Cr).
  destruct (add_missing_columns c1 _ _) as [c2 [e|]] eqn:E2; [discriminate|].
  destruct (add_missing_spec _ _ _ _ _ Em E2) as (lm' & Em' & Sm & Nm & O2).
  destruct (add_missing_columns c2 _ _) as [c3 [e|]] eqn:E3; [discriminate|]. injection Hn as <-. split; [done|]. cbn [conn].
  destruct (add_missing_spec c2 _ _ _ ln ltac:(by rewrite O2) E3) as (ln' & En' & Sn & Nn & O3).
  assert (forall t (l l' : list bytes) (later : list (bytes * bytes)), (forall x, x ∈ declared t -> x ∉ map fst later -> x ∈ l) -> l ⊆ l' -> map fst later ⊆ l' ->
    declared t ⊆ l') as Hall.
  { intros t l l' later Hl Hs Hla x Hx. destruct (decide (x ∈ map fst later)); [by apply Hla|]. by apply Hs, Hl. }
  intros t Ht. repeat (apply elem_of_cons in Ht as [->|Ht]); [| | | |by apply elem_of_nil in Ht]; cbn [td_table].
  - exists ln'. split; [done|]. by eapply Hall; [apply (Cn _ Hnet)| |].
  - exists lm'. split; [by rewrite O3|]. by eapply Hall; [apply (Cm _ Hm)| |].
  - exists lp. split; [by rewrite O3, O2|]. by eapply Hall; [apply (Cp _ Hp)| |intros ? ?%elem_of_nil].
  - exists lr. split; [by rewrite O3, O2|]. by eapply Hall; [apply (Cr _ Hr)| |intros ? ?%elem_of_nil].
Qed.
End Schema.

(** A database of before the new columns, on an engine that does what it is told. *)
Definition Columns : Type := bytes -> option (list bytes).

#[export] Instance columns_ddl : Ddl Columns unit := {|
  open path := inr (fun t => if bool_decide (t = str "members") then Some (take 7 (declared t)) else None);
  execute_batch c defs :=
    (fun t => match c t with
              | Some l => Some l
              | None => (fun d => map fst (td_columns d)) <$> find (fun d => bool_decide (td_table d = t)) defs
              end, None);
  table_info c t := inr (default [] (c t));
  alter_table_add c t col :=
    match c t with
    | Some l => if bool_decide (col.1 ∈ l) then (c, Some tt)
                else (fun t' => if bool_decide (t' = t) then Some (l ++ [col.1]) else c t', None)
    | None => (c, Some tt)
    end;
  columns c := c;
|}.

#[export] Instance columns_laws : DdlLaws Columns unit.
Proof.
  split; cbn.
  - by intros c defs c' [= <-] t.
  - by intros c t l [= <-].
  - intros c t col c'. destruct (c t) as [l|] eqn:E; [|discriminate]. case_bool_decide as Hc; [discriminate|]. intros [= <-].
    exists l. split_and!; [done..|]. intros t'. case_bool_decide; by case_decide.
Qed.

Example legacy_members :
  match new (C := Columns) (str "controller.db") with
  | inr s => columns (conn s) (str "members") = Some (declared (str "members"))
  | inl _ => False
  end.
Proof. vm_compute. reflexivity. Qed.
End Schema.

(** ** Rows by key *)

Section Keys.
Context {T K : Type} `{EqDecision K} (key : T -> K).

Definition row_at (k : K) (l : list T) : option T := find (fun r => bool_decide (key r = k)) l.

Lemma inserted_perm (x : T) l l' : inserted x l l' -> l' ≡ₚ x :: l.
Proof. intros (l1 & l2 & -> & ->). symmetry. apply Permutation_middle. Qed.

Lemma inserted_filter (P : T -> Prop) `{forall x, Decision (P x)} x l l' : inserted x l l' -> ~ P x ->
  filter P l' = filter P l.
Proof. intros (l1 & l2 & -> & ->) Hx. by rewrite !filter_app, filter_cons_False. Qed.

Lemma inserted_nodup x l l' : inserted x l l' -> key x ∉ map key l -> NoDup (map key l) -> NoDup (map key l').
Proof.
  intros Hi%inserted_perm Hx Hn. apply (Permutation_map key) in Hi. rewrite Hi. by apply NoDup_cons.
Qed.

Lemma row_at_elem k l r : row_at k l = Some r -> r ∈ l /\ key r = k.
Proof. intros [Hr Hk]%find_Some. by apply bool_decide_eq_true in Hk. Qed.

Lemma row_at_none k l : row_at k l = None <-> k ∉ map key l.
Proof.
  unfold row_at. rewrite find_None. split.
  - intros Hn Hk. apply list_elem_of_In, in_map_iff in Hk as (r & <- & Hr%list_elem_of_In). apply Hn in Hr.
    by apply bool_decide_eq_false in Hr.
  - intros Hn r Hr. apply bool_decide_eq_false. intros <-. apply Hn, list_elem_of_In, in_map. by apply list_elem_of_In.
Qed.

Lemma row_at_inserted k x l l' : key x ∉ map key l -> inserted x l l' ->
  row_at k l' = if decide (k = key x) then Some x else row_at k l.
Proof.
  intros Hx%row_at_none (l1 & l2 & -> & ->). unfold row_at in *. induction l1 as [|y l1 IH]; simpl in *.
  - destruct (decide (k = key x)) as [->|Hne]; [by rewrite bool_decide_eq_true_2|]. by rewrite bool_decide_eq_false_2.
  - destruct (bool_decide (key y = key x)) eqn:E; [done|]. rewrite IH by done. apply bool_decide_eq_false in E.
    destruct (decide (k = key x)) as [->|Hne]; [by rewrite bool_decide_eq_false_2|done].
Qed.

Lemma row_at_removed k k' l : row_at k (filter (fun r => key r <> k') l) = if decide (k = k') then None else row_at k l.
Proof.
  unfold row_at. destruct (decide (k = k')) as [->|Hne].
  - apply Memory.find_filter_drop. intros r Hr%bool_decide_eq_true. tauto.
  - apply Memory.find_filter_keep. intros r Hr%bool_decide_eq_true. congruence.
Qed.

Lemma row_at_replaced k x l l' : inserted x (filter (fun r => key r <> key x) l) l' ->
  row_at k l' = if decide (k = key x) then Some x else row_at k l.
Proof.
  intros Hi. rewrite (row_at_inserted k x _ _) by (first [done | apply row_at_none; by rewrite row_at_removed, decide_True]).
  rewrite row_at_removed. by case_decide.
Qed.

Lemma row_at_updated k x l :
  row_at k (map (fun r => if bool_decide (key r = key x) then x else r) l) =
  if decide (k = key x) then (fun _ => x) <$> row_at k l else row_at k l.
Proof.
  unfold row_at. induction l as [|y l IH]; simpl; [by case_decide|]. rewrite IH.
  destruct (decide (k = key x)) as [->|Hne].
  - destruct (bool_decide (key y = key x)) eqn:E; [by rewrite bool_decide_eq_true_2|]. by rewrite E.
  - destruct (bool_decide (key y = key x)) eqn:E; [|done]. apply bool_decide_eq_true in E.
    by rewrite !bool_decide_eq_false_2 by congruence.
Qed.

(** The first row a selection by key yields. *)
Lemma selected_at k l : head (filter (fun r => key r = k) l) = row_at k l.
Proof.
  unfold row_at. induction l as [|y l IH]; [done|]. destruct (decide (key y = k)) as [He|Hne].
  - rewrite filter_cons_True by done. simpl. by rewrite bool_decide_eq_true_2.
  - rewrite filter_cons_False by done. simpl. by rewrite bool_decide_eq_false_2.
Qed.

Lemma nodup_replaced x l l' : inserted x (filter (fun r => key r <> key x) l) l' -> NoDup (map key l) -> NoDup (map key l').
Proof.
  intros Hi Hn. eapply inserted_nodup; [exact Hi| |by apply Memory.nodup_map_filter].
  apply row_at_none. by rewrite row_at_removed, decide_True.
Qed.

Lemma nodup_updated x l : NoDup (map key l) -> NoDup (map key (map (fun r => if bool_decide (key r = key x) then x else r) l)).
Proof.
  intros Hn. rewrite map_map. erewrite map_ext; [exact Hn|]. intros r. simpl. case_bool_decide; congruence.
Qed.
End Keys.

(** ** A table's rows of one network replaced

    [set_ip_pools] and [set_routes] both delete the rows of a network and insert new ones. *)
Section Replacing.
Context {C SE : Type} `{SqlLaws C SE} {T K : Type} `{EqDecision K} (key : T -> K) (net : T -> Z).
Context (table : Db -> list T) (put : Db -> list T -> Db) (del : Z -> Statement) (ins : T -> Statement).
Hypothesis table_put : forall d l, table (put d l) = l.
Hypothesis put_put : forall d l l', put (put d l) l' = put d l'.
Hypothesis put_table : forall d, put d (table d) = d.
Hypothesis del_spec : forall d k d', executes d (del k) d' -> d' = put d (filter (fun r => net r <> k) (table d)).
Hypothesis ins_spec : forall d r d', executes d (ins r) d' ->
  key r ∉ map key (table d) /\ exists l, inserted r (table d) l /\ d' = put d l.

(** The table [l] that has the rows of [old] for the other networks, and [mine] for this one. *)
Definition replaced (k : Z) (old l mine : list T) : Prop :=
  filter (fun r => net r <> k) l = filter (fun r => net r <> k) old /\ filter (fun r => net r = k) l ≡ₚ mine /\
  (NoDup (map key old) -> NoDup (map key l)).

(** Where a list of statements may stop: at the end, or at a failure. *)
Definition stopped (c c' : C) (e : option SE) (outcome : list T -> Prop) (some : list T -> Prop) : Prop :=
  match e with
  | None => saved c' = saved c /\ exists l, rows c' = put (rows c) l /\ outcome l
  | Some _ => (saved c' = saved c /\ exists l, rows c' = put (rows c) l /\ some l) \/
              (saved c = Some (rows c') /\ saved c' = None)
  end.

Lemma execute_inserts k old mine new c d : Forall (fun r => net r = k) new -> saved c = saved d ->
  rows c = put (rows d) (table (rows c)) -> replaced k old (table (rows c)) mine ->
  let '(c', e) := execute_all c (map ins new) in
  stopped d c' e (fun l => replaced k old l (mine ++ new))
    (fun l => exists n, replaced k old l (mine ++ take n new)).
Proof.
  intros Hk. revert c mine. induction Hk as [|r new Hr Hk IH]; intros c mine Hs Hc Hl; cbn [map execute_all].
  { rewrite app_nil_r. split; [congruence|]. eauto. }
  pose proof (execute_ok c (ins r)) as He. destruct (execute c (ins r)) as [c1 [e|]].
  - destruct He as [[Hr1 Hs1]|[Hs1 Hn1]]; [left|right; split; congruence]. split; [congruence|].
    exists (table (rows c)). split; [congruence|]. exists 0%nat. by rewrite app_nil_r.
  - destruct He as [He Hs1]. apply ins_spec in He as (Hnew & l & Hi & Hr1).
    assert (table (rows c1) = l) as Ht by (by rewrite Hr1, table_put).
    assert (replaced k old (table (rows c1)) (mine ++ [r])) as Hrep.
    { rewrite Ht. destruct Hl as (Ho & Hm & Hn). split_and!.
      - rewrite (inserted_filter _ r _ l Hi); [done|tauto].
      - rewrite (inserted_perm _ _ _ Hi), filter_cons_True by done. rewrite Hm. by rewrite (Permutation_app_comm mine [r]).
      - intros Hd. eapply inserted_nodup; [exact Hi|exact Hnew|by apply Hn]. }
    specialize (IH c1 (mine ++ [r]) ltac:(congruence) ltac:(rewrite Ht, Hr1, Hc, put_put; done) Hrep).
    destruct (execute_all c1 (map ins new)) as [c' e]. unfold stopped in *. destruct e as [e|].
    + destruct IH as [(Hs' & l' & Hr' & n & Hn)|IH]; [|by right]. left. split; [done|]. exists l'. split; [done|].
      exists (S n). cbn [take]. by rewrite <- app_assoc in Hn.
    + destruct IH as (Hs' & l' & Hr' & Hn). split; [done|]. exists l'. split; [done|]. by rewrite <- app_assoc in Hn.
Qed.

Lemma removed_replaced k l : replaced k l (filter (fun r => net r <> k) l) [].
Proof.
  split_and!.
  - rewrite list_filter_filter. apply list_filter_iff. tauto.
  - rewrite (elem_of_nil_inv (filter _ _)); [done|]. intros r. rewrite !list_elem_of_filter. tauto.
  - intros Hn. by apply Memory.nodup_map_filter.
Qed.

Lemma execute_replacement k new c : Forall (fun r => net r = k) new ->
  let '(c', e) := execute_all c (del k :: map ins new) in
  stopped c c' e (fun l => replaced k (table (rows c)) l new)
    (fun l => l = table (rows c) \/ exists n, replaced k (table (rows c)) l (take n new)).
Proof.
  intros Hk. cbn [execute_all]. pose proof (execute_ok c (del k)) as He. destruct (execute c (del k)) as [c1 [e|]].
  - destruct He as [[Hr1 Hs1]|[Hs1 Hn1]]; [left|by right]. split; [done|]. exists (table (rows c)). split; [|by left].
    by rewrite put_table.
  - destruct He as [He Hs1]. apply del_spec in He.
    pose proof (execute_inserts k (table (rows c)) [] new c1 c Hk Hs1 ltac:(rewrite He, table_put; done)
      ltac:(rewrite He, table_put; apply removed_replaced)) as Hi.
    destruct (execute_all c1 (map ins new)) as [c' e]. unfold stopped in *. destruct e as [e|]; [|exact Hi].
    destruct Hi as [(Hs' & l & Hr & n & Hn)|Hi]; [left|by right]. split; [done|]. exists l. split; [done|]. right. by exists n.
Qed.
Lemma replaced_other k k' old l mine : replaced k old l mine -> k' <> k ->
  filter (fun r => net r = k') l = filter (fun r => net r = k') old.
Proof.
  intros (Ho & _) Hne.
  assert (forall l0 : list T, filter (fun r => net r = k') (filter (fun r => net r <> k) l0) = filter (fun r => net r = k') l0) as Hf.
  { intros l0. apply list_filter_filter_l. intros r Hr. congruence. }
  by rewrite <- Hf, Ho, Hf.
Qed.

Lemma replaced_Forall (Q : T -> Prop) k old l mine : replaced k old l mine -> Forall Q old -> Forall Q mine -> Forall Q l.
Proof.
  intros (Ho & Hm & _) Hq Hmine. rewrite Forall_forall in *. intros r Hr. destruct (decide (net r = k)) as [He|Hne].
  - apply Hmine. rewrite <- Hm. by apply list_elem_of_filter.
  - apply Hq. assert (r ∈ filter (fun r => net r <> k) l) as Hin by (by apply list_elem_of_filter).
    rewrite Ho in Hin. by apply list_elem_of_filter in Hin as [_ Hin].
Qed.

Lemma replaced_decoded {A} (f : A -> T) (dec : T -> option A) k old l xs : replaced k old l (map f xs) ->
  Forall (fun x => dec (f x) = Some x) xs -> omap dec (filter (fun r => net r = k) l) ≡ₚ xs.
Proof.
  intros (_ & Hm & _) Hd. rewrite Hm. clear Hm. induction Hd as [|x xs Hx _ IH]; [done|]. cbn. rewrite Hx. by constructor.
Qed.
End Replacing.

(** ** What the database holds *)

Section Laws.
Context {C SE JE : Type} `{SqlLaws C SE} `{SerdeLaws JE}.
Notation Error := (SqliteStorageError SE JE).

(** The rows the backend writes. *)
Definition network_stored (r : NetworkRow) : Prop := exists n rules_json capabilities_json tag_definitions_json,
  network_typed n /\ to_string (n_rules n) = inr rules_json /\ to_string (n_capabilities n) = inr capabilities_json /\
  to_string (n_tags n) = inr tag_definitions_json /\ r = network_row n rules_json capabilities_json tag_definitions_json.

Definition member_stored (r : MemberRow) : Prop := exists m ip_json capabilities_json tags_json,
  member_typed m /\ to_string (m_ip_assignments m) = inr ip_json /\ to_string (m_capabilities m) = inr capabilities_json /\
  to_string (m_tags m) = inr tags_json /\ r = member_row m ip_json capabilities_json tags_json.

Definition pool_stored (r : PoolRow) : Prop := exists id p, u64_ok id /\ Pools.pool_wf p /\ r = pool_row id p.
Definition route_stored (r : RouteRow) : Prop := exists id x, u64_ok id /\ route_typed x /\ r = route_row id x.

Record db_ok (d : Db) : Prop := {
  ok_networks : Forall network_stored (t_networks d);
  ok_members : Forall member_stored (t_members d);
  ok_pools : Forall pool_stored (t_pools d);
  ok_routes : Forall route_stored (t_routes d);
  ok_network_keys : NoDup (map nr_id (t_networks d));
  ok_member_keys : NoDup (map member_row_key (t_members d));
  ok_pool_keys : NoDup (map pool_row_key (t_pools d));
  ok_route_keys : NoDup (map route_row_key (t_routes d));
}.

(** No transaction is open, no task has panicked. *)
Record sql_inv (s : SqliteStorage C) : Prop := {
  si_free : poisoned s = false;
  si_closed : saved (conn s) = None;
  si_db : db_ok (rows (conn s));
}.

Definition decoded {A} (r : res Error A) : option A := match r with Ok a => Some a | _ => None end.

(** A key of the interface, if it is a [u64]. *)
Definition at_u64 {A} (id : Z) (none : A) (some : Z -> A) : A :=
  if decide (u64_ok id) then some (as_signed 64 id) else none.

Definition db_view (d : Db) : View := {|
  v_network id := at_u64 id None (fun k => r ← row_at nr_id k (t_networks d); decoded (read_network r));
  v_member id a := at_u64 id None (fun k => r ← row_at member_row_key (k, a) (t_members d); decoded (read_member r));
  v_pools id := at_u64 id [] (fun k => omap (fun r => decoded (read_pool r)) (filter (fun r => pr_network_id r = k) (t_pools d)));
  v_routes id := at_u64 id [] (fun k => omap (fun r => decoded (read_route r)) (filter (fun r => rr_network_id r = k) (t_routes d)));
|}.

Definition sql_view (s : SqliteStorage C) : View := db_view (rows (conn s)).

(** *** What was written reads back *)

Lemma signed_u64 z : u64_ok z -> wrap 64 (as_signed 64 z) = z.
Proof. intros [? ?]. apply wrap_as_signed; unfold U64_MAX in *; lia. Qed.

Lemma signed_u64_inj y z : u64_ok y -> u64_ok z -> as_signed 64 y = as_signed 64 z -> y = z.
Proof. intros [? ?] [? ?]. apply as_signed_inj; unfold U64_MAX in *; lia. Qed.

Lemma get_flag (b : bool) : get_i32 (if b then 1 else 0) = inr (A := SE) (if b then 1 else 0).
Proof. apply get_i32_ok. destruct b; lia. Qed.

Lemma flag_back (b : bool) : negb ((if b then 1 else 0) =? 0) = b.
Proof. by destruct b. Qed.

Lemma as_signed_small z : 0 <= z < 2 ^ 31 -> as_signed 32 z = z.
Proof. intros Hz. unfold as_signed, wrap. rewrite Z.mod_small by lia. by rewrite if_true by lia. Qed.

Lemma read_network_row n rules_json capabilities_json tag_definitions_json : network_typed n ->
  to_string (n_rules n) = inr rules_json -> to_string (n_capabilities n) = inr capabilities_json ->
  to_string (n_tags n) = inr tag_definitions_json ->
  read_network (network_row n rules_json capabilities_json tag_definitions_json) = Ok (E := Error) n.
Proof.
  intros [Hid Hname [Hc Hr] [Hl Hm] [H4 H6] Hru Hca Hta] Er Ec Et.
  destruct (rules_law _ _ Hru Er) as [Tr Fr]. destruct (capabilities_law _ _ Hca Ec) as [Tc Fc].
  destruct (tag_definitions_law _ _ Hta Et) as [Tt Ft]. unfold u32_ok, U32_MAX, u16_ok, U16_MAX in *.
  unfold read_network, network_row. cbn [nr_rules_json nr_capabilities_json nr_tag_definitions_json nr_name nr_private
    nr_multicast_limit nr_mtu nr_v4_assign_mode nr_v6_assign_mode nr_enable_broadcast nr_id nr_creation_time nr_revision].
  rewrite !get_text_ok by done. rewrite !get_flag. rewrite !get_i32_ok by (apply (as_signed_range 32); lia).
  unfold sql, json. rewrite !rbind_ok, Fr, Fc, Ft, !rbind_ok, !signed_u64, !flag_back by done.
  rewrite wrap_as_signed by lia. rewrite as_signed_small by lia. rewrite wrap16_small by (unfold U16_MAX; lia). by destruct n.
Qed.

Lemma read_member_row m ip_json capabilities_json tags_json : member_typed m ->
  to_string (m_ip_assignments m) = inr ip_json -> to_string (m_capabilities m) = inr capabilities_json ->
  to_string (m_tags m) = inr tags_json ->
  read_member (member_row m ip_json capabilities_json tags_json) = Ok (E := Error) m.
Proof.
  intros [Hid Hnode Hips [Hc Hl] Hname Hr [Ha Hd] Hca Hta] Ei Ec Et.
  destruct (strings_law _ _ Hips Ei) as [Ti Fi]. destruct (numbers_law _ _ Hca Ec) as [Tc Fc].
  destruct (tags_law _ _ Hta Et) as [Tt Ft].
  unfold read_member, member_row, first_bytes. cbn [mr_network_id mr_node_id mr_authorized mr_ip_assignments mr_creation_time
    mr_last_seen mr_name mr_revision mr_last_authorized_time mr_last_deauthorized_time mr_active_bridge mr_no_auto_assign_ips
    mr_capabilities_json mr_tags_json].
  change (Z.of_nat 5) with 5. rewrite (if_false (len _ <? _)) by lia. rewrite take_ge by (unfold len in Hnode; lia).
  rewrite !get_text_ok by done. rewrite !get_flag.
  unfold sql, json. rewrite !rbind_ok, Fi, Fc, Ft, !rbind_ok, !signed_u64, !flag_back by done. by destruct m.
Qed.

Lemma read_pool_row id p : Pools.pool_wf p -> read_pool (pool_row id p) = Ok (E := Error) p.
Proof.
  intros [Hs He]. unfold read_pool, first_bytes, pool_row. cbn [pr_range_start pr_range_end].
  change (Z.of_nat 4) with 4. rewrite !if_false by lia. rewrite !take_ge by (unfold len in *; lia). by destruct p.
Qed.

Lemma read_route_row id x : route_typed x -> read_route (route_row id x) = Ok (E := Error) x.
Proof.
  intros [Ht Hv]. unfold read_route, route_row. cbn [rr_target rr_via]. rewrite get_text_ok by done.
  unfold sql. rewrite rbind_ok. destruct x as [t [v|]]; cbn [mr_via mr_target] in *; [|done]. by rewrite get_text_ok, rbind_ok.
Qed.


(** *** What each statement does to the view *)

Lemma at_u64_in {A} id (none : A) some : u64_ok id -> at_u64 id none some = some (as_signed 64 id).
Proof. intros Hid. unfold at_u64. by rewrite decide_True. Qed.

(** Two keys of the interface are the same when their columns are. *)
Lemma at_u64_case {A} id key (f g : Z -> A) none yes : u64_ok key ->
  yes = f (as_signed 64 key) -> (forall k, k <> as_signed 64 key -> f k = g k) ->
  at_u64 id none f = if decide (id = key) then yes else at_u64 id none g.
Proof.
  intros Hk -> Hg. unfold at_u64. destruct (decide (u64_ok id)) as [Hid|Hid].
  - destruct (decide (id = key)) as [->|Hne]; [done|]. apply Hg. intros He. by apply signed_u64_inj in He.
  - by rewrite decide_False by congruence.
Qed.

Lemma Forall_kept {A} (P Q : A -> Prop) `{forall x, Decision (Q x)} l : Forall P l -> Forall P (filter Q l).
Proof. rewrite !Forall_forall. intros Hl x [_ Hx]%list_elem_of_filter. by apply Hl. Qed.

Lemma inserted_Forall {A} (P : A -> Prop) x l l' : inserted x l l' -> P x -> Forall P l -> Forall P l'.
Proof. intros Hi Hx Hl. rewrite (inserted_perm _ _ _ Hi). by constructor. Qed.

Lemma insert_network_view d d' n rules_json capabilities_json tag_definitions_json : db_ok d -> network_typed n ->
  to_string (n_rules n) = inr rules_json -> to_string (n_capabilities n) = inr capabilities_json ->
  to_string (n_tags n) = inr tag_definitions_json ->
  executes d (InsertNetwork (network_row n rules_json capabilities_json tag_definitions_json)) d' ->
  db_ok d' /\ v_network (db_view d) (n_id n) = None /\ view_eq (db_view d') (add_network (db_view d) n).
Proof.
  intros Hd Hn Er Ec Et. set (row := network_row _ _ _ _). inversion 1 as [? l Hnew Hi| | | | | | | |]; subst.
  pose proof (read_network_row n _ _ _ Hn Er Ec Et) as Hread. fold row in Hread.
  assert (v_network (db_view d) (n_id n) = None) as Hnone.
  { cbn. rewrite at_u64_in by apply Hn. by rewrite (proj2 (row_at_none nr_id _ _) Hnew). }
  split; [|split; [exact Hnone|split_and!; try done]].
  - destruct Hd. split; try done; cbn.
    + eapply inserted_Forall; [exact Hi| |done]. by exists n, rules_json, capabilities_json, tag_definitions_json.
    + by eapply inserted_nodup.
  - intros id. cbn [v_network add_network db_view t_networks with_networks].
    rewrite (at_u64_case id (n_id n) _ (fun k => r ← row_at nr_id k (t_networks d); decoded (read_network r)) None (Some n)).
    + destruct (decide (id = n_id n)) as [->|Hne].
      * cbn [v_network db_view] in Hnone. by rewrite Hnone, Z.eqb_refl.
      * rewrite (if_false (id =? n_id n)) by lia. by case_match.
    + apply Hn.
    + rewrite (row_at_inserted nr_id _ row _ _ Hnew Hi), decide_True by done. cbn [mbind option_bind]. by rewrite Hread.
    + intros k Hk. by rewrite (row_at_inserted nr_id _ row _ _ Hnew Hi), decide_False by done.
Qed.

Lemma update_network_view d d' n rules_json capabilities_json tag_definitions_json : db_ok d -> network_typed n ->
  to_string (n_rules n) = inr rules_json -> to_string (n_capabilities n) = inr capabilities_json ->
  to_string (n_tags n) = inr tag_definitions_json ->
  executes d (UpdateNetwork (network_row n rules_json capabilities_json tag_definitions_json)) d' ->
  db_ok d' /\ view_eq (db_view d') (Memory.spec_op (db_view d) (Memory.OpUpdate n)).
Proof.
  intros Hd Hn Er Ec Et. set (row := network_row _ _ _ _). inversion 1; subst.
  pose proof (read_network_row n _ _ _ Hn Er Ec Et) as Hread. fold row in Hread.
  split; [|split_and!; try done].
  - destruct Hd. split; try done; cbn.
    + apply List.Forall_map, Forall_forall. intros r Hr. case_bool_decide; [|by eapply Forall_forall].
      by exists n, rules_json, capabilities_json, tag_definitions_json.
    + by apply (nodup_updated nr_id row).
  - intros id. cbn [v_network Memory.spec_op replace_network db_view t_networks with_networks].
    rewrite (at_u64_case id (n_id n) _ (fun k => r ← row_at nr_id k (t_networks d); decoded (read_network r)) None
      ((fun _ => n) <$> v_network (db_view d) (n_id n))).
    + cbn [v_network db_view]. destruct (decide (id = n_id n)) as [->|Hne].
      * rewrite Z.eqb_refl. by destruct (at_u64 _ _ _).
      * destruct (at_u64 id _ _); [|done]. by rewrite (if_false (id =? n_id n)) by lia.
    + apply Hn.
    + cbn [v_network db_view]. rewrite at_u64_in by apply Hn. rewrite (row_at_updated nr_id _ row), decide_True by done.
      destruct (row_at nr_id _ _) as [r|] eqn:Er'; [|done]. cbn [fmap option_fmap option_map mbind option_bind]. rewrite Hread.
      apply row_at_elem in Er' as [Hin _]. destruct Hd as [Hst _ _ _ _ _ _ _]. rewrite Forall_forall in Hst.
      destruct (Hst _ Hin) as (n0 & r0 & c0 & t0 & Hn0 & E1 & E2 & E3 & ->). by rewrite read_network_row.
    + intros k Hk. by rewrite (row_at_updated nr_id _ row), decide_False by done.
Qed.

(** Deleting a network takes its record and nothing else. *)
Definition without_network (v : View) (id' : Z) : View :=
  mkView (fun id => if id =? id' then None else v_network v id) (v_member v) (v_pools v) (v_routes v).

Lemma delete_network_view d d' id' : db_ok d -> u64_ok id' -> executes d (DeleteNetwork (as_signed 64 id')) d' ->
  db_ok d' /\ view_eq (db_view d') (without_network (db_view d) id').
Proof.
  intros Hd Hid. inversion 1; subst. split; [|split_and!; try done].
  - destruct Hd. split; try done; cbn; [by apply Forall_kept|by apply Memory.nodup_map_filter].
  - intros id. cbn [v_network without_network db_view t_networks with_networks].
    rewrite (at_u64_case id id' _ (fun k => r ← row_at nr_id k (t_networks d); decoded (read_network r)) None None); [|done|..].
    + destruct (decide (id = id')) as [->|Hne]; [by rewrite Z.eqb_refl|]. by rewrite (if_false (id =? id')) by lia.
    + by rewrite row_at_removed, decide_True.
    + intros k Hk. by rewrite row_at_removed, decide_False.
Qed.

Lemma replace_member_view d d' m ip_json capabilities_json tags_json : db_ok d -> member_typed m ->
  to_string (m_ip_assignments m) = inr ip_json -> to_string (m_capabilities m) = inr capabilities_json ->
  to_string (m_tags m) = inr tags_json ->
  executes d (ReplaceMember (member_row m ip_json capabilities_json tags_json)) d' ->
  db_ok d' /\ view_eq (db_view d') (put_member (db_view d) m).
Proof.
  intros Hd Hm Ei Ec Et. set (row := member_row _ _ _ _). inversion 1 as [| | |? l Hi| | | | |]; subst.
  pose proof (read_member_row m _ _ _ Hm Ei Ec Et) as Hread. fold row in Hread.
  split; [|split_and!; try done].
  - destruct Hd. split; try done; cbn.
    + eapply inserted_Forall; [exact Hi| |by apply Forall_kept]. by exists m, ip_json, capabilities_json, tags_json.
    + by eapply nodup_replaced.
  - intros id a. cbn [v_member put_member db_view t_members with_members]. unfold at_u64.
    rewrite (row_at_replaced member_row_key _ row _ _ Hi). destruct (decide (u64_ok id)) as [Hid|Hid].
    + destruct (decide (id = m_network_id m /\ a = m_node_id m)) as [[-> ->]|Hne].
      * rewrite decide_True by done. cbn [mbind option_bind]. by rewrite Hread.
      * rewrite decide_False; [done|]. intros [= He Ha]. apply Hne. split; [|done]. by apply signed_u64_inj in He; [|done|apply Hm].
    + rewrite decide_False; [done|]. intros [-> _]. apply Hid, Hm.
Qed.

Lemma delete_member_view d d' id' a' : db_ok d -> u64_ok id' -> executes d (DeleteMember (as_signed 64 id') a') d' ->
  db_ok d' /\ view_eq (db_view d') (Memory.spec_op (db_view d) (Memory.OpDeleteMember id' a')).
Proof.
  intros Hd Hid'. inversion 1; subst. split; [|split_and!; try done].
  - destruct Hd. split; try done; cbn; [by apply Forall_kept|by apply Memory.nodup_map_filter].
  - intros id a. cbn [v_member Memory.spec_op remove_member db_view t_members with_members]. unfold at_u64.
    rewrite row_at_removed. destruct (decide (u64_ok id)) as [Hid|Hid].
    + destruct (decide (id = id' /\ a = a')) as [[-> ->]|Hne]; [by rewrite decide_True|].
      rewrite decide_False; [done|]. intros [= He Ha]. apply Hne. split; [|done]. by apply signed_u64_inj in He.
    + rewrite decide_False; [done|]. by intros [-> _].
Qed.


Lemma replaced_pools_view d l id' ps : db_ok d -> u64_ok id' -> Forall Pools.pool_wf ps ->
  replaced pool_row_key pr_network_id (as_signed 64 id') (t_pools d) l (map (pool_row id') ps) ->
  db_ok (with_pools d l) /\ exists ps', ps' ≡ₚ ps /\ view_eq (db_view (with_pools d l)) (put_pools (db_view d) id' ps').
Proof.
  intros Hd Hid Hps Hr. split.
  - destruct Hd. split; try done; cbn; [|by apply Hr]. eapply replaced_Forall; [exact Hr|done|].
    apply List.Forall_map. eapply Forall_impl; [exact Hps|]. intros p Hp. by exists id', p.
  - eexists. split.
    + eapply (replaced_decoded _ _ (pool_row id') (fun r => decoded (read_pool r))); [exact Hr|].
      eapply Forall_impl; [exact Hps|]. intros p Hp. cbn. by rewrite read_pool_row.
    + split_and!; try done. intros id. cbn [v_pools put_pools db_view with_pools t_pools].
      erewrite (at_u64_case id id' _ (fun k => omap (fun r => decoded (read_pool r)) (filter (fun r => pr_network_id r = k) (t_pools d))));
        [|done|reflexivity|].
      * destruct (decide (id = id')) as [->|Hne]; [by rewrite Z.eqb_refl|]. by rewrite (if_false (id =? id')) by lia.
      * intros k Hk. cbn. by rewrite (replaced_other _ _ _ _ _ _ _ Hr Hk).
Qed.

Lemma replaced_routes_view d l id' rs : db_ok d -> u64_ok id' -> Forall route_typed rs ->
  replaced route_row_key rr_network_id (as_signed 64 id') (t_routes d) l (map (route_row id') rs) ->
  db_ok (with_routes d l) /\ exists rs', rs' ≡ₚ rs /\ view_eq (db_view (with_routes d l)) (put_routes (db_view d) id' rs').
Proof.
  intros Hd Hid Hrs Hr. split.
  - destruct Hd. split; try done; cbn; [|by apply Hr]. eapply replaced_Forall; [exact Hr|done|].
    apply List.Forall_map. eapply Forall_impl; [exact Hrs|]. intros p Hp. by exists id', p.
  - eexists. split.
    + eapply (replaced_decoded _ _ (route_row id') (fun r => decoded (read_route r))); [exact Hr|].
      eapply Forall_impl; [exact Hrs|]. intros p Hp. cbn. by rewrite read_route_row.
    + split_and!; try done. intros id. cbn [v_routes put_routes db_view with_routes t_routes].
      erewrite (at_u64_case id id' _ (fun k => omap (fun r => decoded (read_route r)) (filter (fun r => rr_network_id r = k) (t_routes d))));
        [|done|reflexivity|].
      * destruct (decide (id = id')) as [->|Hne]; [by rewrite Z.eqb_refl|]. by rewrite (if_false (id =? id')) by lia.
      * intros k Hk. cbn. by rewrite (replaced_other _ _ _ _ _ _ _ Hr Hk).
Qed.

(** *** Reads *)

(** A read that does not panic leaves the storage as it is. *)
Lemma reading_keep {A} (body : C -> res Error A) (Q : A -> Prop) s : poisoned s = false ->
  wp (body (conn s)) Q (fun _ => True) ->
  (reading body s).1 = s /\ wp (reading body s).2 Q (fun _ => True).
Proof.
  intros Hp Hw. unfold reading, spawn_blocking. rewrite Hp. destruct s as [c p]. cbn in *. subst p.
  by destruct (body c).
Qed.

Lemma wp_query_row {R A} (selected : SE + list R) (f : R -> res Error A) (Q : option A -> Prop) :
  (forall l, selected = inr l -> match head l with
                                 | None => Q None
                                 | Some r => wp (f r) (fun a => Q (Some a)) (fun _ => True)
                                 end) ->
  wp (query_row selected f) Q (fun _ => True).
Proof.
  intros Hq. unfold query_row, sql. destruct selected as [e|l]; [exact I|]. rewrite rbind_ok. specialize (Hq l eq_refl).
  destruct l as [|r l]; [exact Hq|]. cbn [head] in Hq. apply wp_bind. eapply wp_mono; [exact Hq|by intros a Ha|done].
Qed.

(** Rows that read back: what [collect] makes of them. *)
Lemma collect_map {R A} (f : R -> res Error A) (g : R -> A) l : Forall (fun r => f r = Ok (g r)) l -> collect f l = Ok (map g l).
Proof. induction 1 as [|r l Hr _ IH]; [done|]. cbn [collect map]. by rewrite Hr, rbind_ok, IH, rbind_ok. Qed.

Lemma collect_omap {R A} (f : R -> res Error A) l : Forall (fun r => exists a, f r = Ok a) l ->
  collect f l = Ok (omap (fun r => decoded (f r)) l).
Proof. induction 1 as [|r l [a Hr] _ IH]; [done|]. cbn. by rewrite Hr, rbind_ok, IH, rbind_ok. Qed.

Lemma stored_network_reads r : network_stored r -> exists n, read_network r = Ok (E := Error) n /\ network_typed n /\ nr_id r = as_signed 64 (n_id n).
Proof. intros (n & r0 & c0 & t0 & Hn & E1 & E2 & E3 & ->). exists n. by rewrite read_network_row. Qed.

Lemma stored_member_reads r : member_stored r -> exists m, read_member r = Ok (E := Error) m /\ member_typed m /\
  member_row_key r = (as_signed 64 (m_network_id m), m_node_id m) /\
  get_text (mr_ip_assignments r) = inr (A := SE) (mr_ip_assignments r) /\ from_str (mr_ip_assignments r) = inr (A := JE) (m_ip_assignments m).
Proof.
  intros (m & i0 & c0 & t0 & Hm & E1 & E2 & E3 & ->). exists m. destruct (strings_law _ _ (mt_ips _ Hm) E1) as [Ht Hf].
  rewrite read_member_row by done. split_and!; try done. by apply get_text_ok.
Qed.


(** *** Writes *)

(** A write that ends: what it says of the view if it succeeds, and if it fails. *)
Definition ends (s : SqliteStorage C) (x : SqliteStorage C * res Error unit) (good bad : View -> Prop) : Prop :=
  sql_inv x.1 /\ wp x.2 (fun _ => good (sql_view x.1)) (fun _ => bad (sql_view x.1)).

Lemma undone_outside (c c' : C) : saved c = None -> undone c c' -> rows c' = rows c /\ saved c' = None.
Proof. intros Hs [[Hr Hc]|[Hs' _]]; [split; congruence|congruence]. Qed.

Lemma statement_ends s st (Q : View -> Prop) : sql_inv s ->
  (forall d', executes (rows (conn s)) st d' -> db_ok d' /\ Q (db_view d')) ->
  ends s (spawn_blocking (fun c => done (execute c st)) s) Q (fun v => view_eq v (sql_view s)).
Proof.
  intros [Hp Hs Hd] Hq. unfold ends, spawn_blocking, done. rewrite Hp. pose proof (execute_ok (conn s) st) as He.
  destruct (execute (conn s) st) as [c' [e|]]; cbn.
  - destruct (undone_outside _ _ Hs He) as [Hr Hs']. unfold sql_view. cbn. split; [by split; cbn; [..|rewrite Hr]|]. by rewrite Hr.
  - destruct He as [He Hs']. destruct (Hq _ He) as [Hd' Hv]. split; [split; cbn; [done|congruence|done]|exact Hv].
Qed.

Lemma json_fails s e (Q : View -> Prop) : sql_inv s -> ends s (s, Err (JsonError e)) Q (fun v => view_eq v (sql_view s)).
Proof. intros Hs. split; [exact Hs|]. cbn. reflexivity. Qed.

Lemma ends_create s n : sql_inv s -> network_typed n ->
  ends s (sql_create_network s n)
    (fun v => v_network (sql_view s) (n_id n) = None /\ view_eq v (add_network (sql_view s) n))
    (fun v => view_eq v (sql_view s)).
Proof.
  intros Hs Hn. unfold sql_create_network, with_network_json.
  destruct (to_string (n_rules n)) eqn:Er, (to_string (n_capabilities n)) eqn:Ec, (to_string (n_tags n)) eqn:Et;
    try (by apply json_fails).
  apply statement_ends; [exact Hs|]. intros d' He. by apply (insert_network_view _ _ _ _ _ _ (si_db _ Hs) Hn Er Ec Et).
Qed.

Lemma ends_update s n : sql_inv s -> network_typed n ->
  ends s (sql_update_network s n) (fun v => view_eq v (Memory.spec_op (sql_view s) (Memory.OpUpdate n)))
    (fun v => view_eq v (sql_view s)).
Proof.
  intros Hs Hn. unfold sql_update_network, with_network_json.
  destruct (to_string (n_rules n)) eqn:Er, (to_string (n_capabilities n)) eqn:Ec, (to_string (n_tags n)) eqn:Et;
    try (by apply json_fails).
  apply statement_ends; [exact Hs|]. intros d' He. by apply (update_network_view _ _ _ _ _ _ (si_db _ Hs) Hn Er Ec Et).
Qed.

Lemma ends_delete s id : sql_inv s -> u64_ok id ->
  ends s (sql_delete_network s id) (fun v => view_eq v (without_network (sql_view s) id)) (fun v => view_eq v (sql_view s)).
Proof. intros Hs Hid. apply statement_ends; [exact Hs|]. intros d' He. by apply delete_network_view; [apply Hs| |]. Qed.

Lemma ends_upsert s m : sql_inv s -> member_typed m ->
  ends s (sql_upsert_member s m) (fun v => view_eq v (put_member (sql_view s) m)) (fun v => view_eq v (sql_view s)).
Proof.
  intros Hs Hm. unfold sql_upsert_member.
  destruct (to_string (m_ip_assignments m)) eqn:Ei, (to_string (m_capabilities m)) eqn:Ec, (to_string (m_tags m)) eqn:Et;
    try (by apply json_fails).
  apply statement_ends; [exact Hs|]. intros d' He. by apply (replace_member_view _ _ _ _ _ _ (si_db _ Hs) Hm Ei Ec Et).
Qed.

Lemma ends_delete_member s id a : sql_inv s -> u64_ok id ->
  ends s (sql_delete_member s id a) (fun v => view_eq v (Memory.spec_op (sql_view s) (Memory.OpDeleteMember id a)))
    (fun v => view_eq v (sql_view s)).
Proof. intros Hs Hid. apply statement_ends; [exact Hs|]. intros d' He. by apply delete_member_view; [apply Hs| |]. Qed.

Lemma pools_executed c id ps : let '(c', e) := execute_all c (DeletePools (as_signed 64 id) :: map (fun pool => InsertPool (pool_row id pool)) ps) in
  stopped with_pools c c' e (fun l => replaced pool_row_key pr_network_id (as_signed 64 id) (t_pools (rows c)) l (map (pool_row id) ps))
    (fun l => l = t_pools (rows c) \/
       exists n, replaced pool_row_key pr_network_id (as_signed 64 id) (t_pools (rows c)) l (map (pool_row id) (take n ps))).
Proof.
  pose proof (execute_replacement pool_row_key pr_network_id t_pools with_pools DeletePools InsertPool
    ltac:(done) ltac:(done) ltac:(by intros []) ltac:(by inversion 1) ltac:(by inversion 1; eauto)
    (as_signed 64 id) (map (pool_row id) ps) c ltac:(by apply List.Forall_map, Forall_true)) as He.
  rewrite map_map in He. destruct (execute_all c _) as [c' [e|]]; [|exact He].
  destruct He as [(Hs & l & Hr & Hl)|He]; [left|by right]. split; [exact Hs|]. exists l. split; [exact Hr|].
  destruct Hl as [Hl|[n Hn]]; [by left|right]. exists n. by rewrite <- firstn_map.
Qed.

Lemma routes_executed c id rs : let '(c', e) := execute_all c (DeleteRoutes (as_signed 64 id) :: map (fun route => InsertRoute (route_row id route)) rs) in
  stopped with_routes c c' e (fun l => replaced route_row_key rr_network_id (as_signed 64 id) (t_routes (rows c)) l (map (route_row id) rs))
    (fun _ => True).
Proof.
  pose proof (execute_replacement route_row_key rr_network_id t_routes with_routes DeleteRoutes InsertRoute
    ltac:(done) ltac:(done) ltac:(by intros []) ltac:(by inversion 1) ltac:(by inversion 1; eauto)
    (as_signed 64 id) (map (route_row id) rs) c ltac:(by apply List.Forall_map, Forall_true)) as He.
  rewrite map_map in He. destruct (execute_all c _) as [c' [e|]]; [|exact He].
  destruct He as [(Hs & l & Hr & Hl)|He]; [left|by right]. by split; [|exists l].
Qed.

(** The pools after a failure: those there were, or the first few of the new ones. *)
Lemma ends_pools s id ps : sql_inv s -> u64_ok id -> Forall Pools.pool_wf ps ->
  ends s (sql_set_ip_pools s id ps)
    (fun v => exists ps', ps' ≡ₚ ps /\ view_eq v (put_pools (sql_view s) id ps'))
    (fun v => view_eq v (sql_view s) \/ exists n ps', ps' ≡ₚ take n ps /\ view_eq v (put_pools (sql_view s) id ps')).
Proof.
  intros [Hp Hs Hd] Hid Hps. unfold sql_set_ip_pools, ends, spawn_blocking, done. rewrite Hp.
  pose proof (pools_executed (conn s) id ps) as He. destruct (execute_all (conn s) _) as [c' [e|]]; cbn.
  - destruct He as [(Hs' & l & Hr & Hl)|[He _]]; [|congruence]. unfold sql_view. cbn.
    assert (saved c' = None) as Hs1 by congruence. destruct Hl as [->|[n Hl]].
    + assert (rows c' = rows (conn s)) as Hr' by (rewrite Hr; by destruct (rows (conn s))).
      rewrite Hr'. split; [split; cbn; [done..|by rewrite Hr']|by left].
    + destruct (replaced_pools_view _ _ _ _ Hd Hid (Forall_take _ n _ Hps) Hl) as (Hd' & ps' & Hp' & Hv). rewrite Hr.
      split; [split; cbn; [done..|by rewrite Hr]|]. right. by exists n, ps'.
  - destruct He as (Hs' & l & Hr & Hl). destruct (replaced_pools_view _ _ _ _ Hd Hid Hps Hl) as (Hd' & ps' & Hp' & Hv).
    unfold sql_view. cbn. rewrite Hr. split; [split; cbn; [done|congruence|by rewrite Hr]|]. by exists ps'.
Qed.

(** Routes are replaced all or not at all. *)
Lemma ends_routes s id rs : sql_inv s -> u64_ok id -> Forall route_typed rs ->
  ends s (sql_set_routes s id rs)
    (fun v => exists rs', rs' ≡ₚ rs /\ view_eq v (put_routes (sql_view s) id rs')) (fun v => view_eq v (sql_view s)).
Proof.
  intros [Hp Hs Hd] Hid Hrs. unfold sql_set_routes, ends, spawn_blocking. rewrite Hp.
  assert (forall c', rows c' = rows (conn s) -> saved c' = None ->
    sql_inv (mkSqlite c' false) /\ view_eq (sql_view (mkSqlite c' false)) (sql_view s)) as Hsame.
  { intros c' Hr Hs'. unfold sql_view. cbn. rewrite Hr. by split; [split; cbn; [..|rewrite Hr]|]. }
  pose proof (transaction_ok (conn s) Hs) as Ht. destruct (transaction (conn s)) as [c0 [e|]].
  { destruct Ht as [Hr Hs']. by apply Hsame. }
  destruct Ht as [Hr0 Hs0]. pose proof (routes_executed c0 id rs) as He. destruct (execute_all c0 _) as [c1 [e|]].
  - pose proof (rollback_ok c1) as [Hb1 Hb2]. apply Hsame; [|exact Hb1]. rewrite Hb2.
    destruct He as [(Hs1 & _)|[Hs1 Hn1]]; [by rewrite Hs1, Hs0|rewrite Hn1; congruence].
  - destruct He as (Hs1 & l & Hr1 & Hl). pose proof (commit_ok c1) as Hc. destruct (commit c1) as [c2 [e|]].
    + pose proof (rollback_ok c2) as [Hb1 Hb2]. apply Hsame; [|exact Hb1]. rewrite Hb2.
      destruct Hc as [[Hr2 Hs2]|[Hs2 Hn2]]; [by rewrite Hs2, Hs1, Hs0|rewrite Hn2; congruence].
    + destruct Hc as [Hr2 Hs2]. rewrite Hr0 in Hl, Hr1. destruct (replaced_routes_view _ _ _ _ Hd Hid Hrs Hl) as (Hd' & rs' & Hp' & Hv).
      unfold sql_view. cbn. rewrite Hr2, Hr1. split; [split; cbn; [done..|by rewrite Hr2, Hr1]|]. by exists rs'.
Qed.


(** *** What each read returns *)

Lemma get_network_reads s id : sql_inv s -> u64_ok id ->
  (sql_get_network s id).1 = s /\ wp (sql_get_network s id).2 (fun r => r = v_network (sql_view s) id) (fun _ => True).
Proof.
  intros [Hp _ Hd] Hid. apply reading_keep; [exact Hp|]. apply wp_query_row. intros l Hl%select_networks_ok. subst l.
  rewrite selected_at. cbn [v_network sql_view db_view]. rewrite at_u64_in by done.
  destruct (row_at nr_id _ _) as [r|] eqn:Er; [|done]. apply row_at_elem in Er as [Hr _].
  destruct (stored_network_reads r (proj1 (Forall_forall _ _) (ok_networks _ Hd) r Hr)) as (n & Hn & _).
  cbn [mbind option_bind]. by rewrite Hn.
Qed.

Lemma get_member_reads s id a : sql_inv s -> u64_ok id ->
  (sql_get_member s id a).1 = s /\ wp (sql_get_member s id a).2 (fun r => r = v_member (sql_view s) id a) (fun _ => True).
Proof.
  intros [Hp _ Hd] Hid. apply reading_keep; [exact Hp|]. apply wp_query_row. intros l Hl%select_members_ok. subst l.
  rewrite selected_at. cbn [v_member sql_view db_view]. rewrite at_u64_in by done.
  destruct (row_at member_row_key _ _) as [r|] eqn:Er; [|done]. apply row_at_elem in Er as [Hr _].
  destruct (stored_member_reads r (proj1 (Forall_forall _ _) (ok_members _ Hd) r Hr)) as (m & Hm & _).
  cbn [mbind option_bind]. by rewrite Hm.
Qed.

Lemma wp_query_map {R A} (selected : SE + list R) (f : R -> res Error A) (Q : list A -> Prop) l0 xs :
  (forall l, selected = inr l -> l = l0) -> collect f l0 = Ok xs -> Q xs -> wp (query_map selected f) Q (fun _ => True).
Proof.
  intros Hl Hc Hq. unfold query_map, sql. destruct selected as [e|l]; [exact I|]. rewrite rbind_ok, (Hl l eq_refl), Hc. exact Hq.
Qed.

Lemma get_pools_reads s id : sql_inv s -> u64_ok id ->
  (sql_get_ip_pools (JE := JE) s id).1 = s /\ wp (sql_get_ip_pools (JE := JE) s id).2 (fun r => r = v_pools (sql_view s) id) (fun _ => True).
Proof.
  intros [Hp _ Hd] Hid. apply reading_keep; [exact Hp|]. eapply wp_query_map; [by apply select_pools_ok| |].
  - apply collect_omap, Forall_kept. eapply Forall_impl; [apply Hd|]. intros r (i & p & _ & Hw & ->). exists p. by apply read_pool_row.
  - cbn [v_pools sql_view db_view]. by rewrite at_u64_in.
Qed.

Lemma get_routes_reads s id : sql_inv s -> u64_ok id ->
  (sql_get_routes (JE := JE) s id).1 = s /\ wp (sql_get_routes (JE := JE) s id).2 (fun r => r = v_routes (sql_view s) id) (fun _ => True).
Proof.
  intros [Hp _ Hd] Hid. apply reading_keep; [exact Hp|]. eapply wp_query_map; [by apply select_routes_ok| |].
  - apply collect_omap, Forall_kept. eapply Forall_impl; [apply Hd|]. intros r (i & p & _ & Hw & ->). exists p. by apply read_route_row.
  - cbn [v_routes sql_view db_view]. by rewrite at_u64_in.
Qed.

(** The rows of the members of a network, and its members. *)
Lemma member_rows d id r : db_ok d -> u64_ok id -> r ∈ t_members d -> mr_network_id r = as_signed 64 id ->
  exists m, member_stored r /\ read_member r = Ok (E := Error) m /\ v_member (db_view d) id (mr_node_id r) = Some m.
Proof.
  intros Hd Hid Hr Hk. pose proof (proj1 (Forall_forall _ _) (ok_members _ Hd) r Hr) as Hst.
  destruct (stored_member_reads r Hst) as (m & Hm & _). exists m. split_and!; [done..|].
  cbn [v_member db_view]. rewrite at_u64_in by done.
  destruct (row_at member_row_key (as_signed 64 id, mr_node_id r) (t_members d)) as [r'|] eqn:Er.
  - apply row_at_elem in Er as [Hr' Hk']. assert (r' = r) as ->.
    { eapply (Memory.nodup_key_inj member_row_key); [apply (ok_member_keys _ Hd)|done..|]. rewrite Hk'. unfold member_row_key. by rewrite Hk. }
    cbn [mbind option_bind]. by rewrite Hm.
  - apply row_at_none in Er. destruct Er. apply list_elem_of_In, in_map_iff. exists r. unfold member_row_key. rewrite Hk.
    split; [done|by apply list_elem_of_In].
Qed.

Lemma member_row_of d id a m : db_ok d -> u64_ok id -> v_member (db_view d) id a = Some m ->
  exists r, r ∈ t_members d /\ mr_network_id r = as_signed 64 id /\ mr_node_id r = a /\ read_member r = Ok (E := Error) m /\
    m_network_id m = id /\ m_node_id m = a.
Proof.
  intros Hd Hid. cbn [v_member db_view]. rewrite at_u64_in by done.
  destruct (row_at member_row_key _ _) as [r|] eqn:Er; [|discriminate]. apply row_at_elem in Er as [Hr Hk]. cbn [mbind option_bind].
  destruct (stored_member_reads r (proj1 (Forall_forall _ _) (ok_members _ Hd) r Hr)) as (m' & Hm & Hty & Hkey & _). rewrite Hm.
  intros [= ->]. rewrite Hk in Hkey. injection Hkey as Hkid Hka. exists r. unfold member_row_key in Hk. injection Hk as Hk1 Hk2.
  split_and!; try done. symmetry. apply signed_u64_inj; [done|apply Hty|done].
Qed.

Lemma nodes_of_nodup k l : NoDup (map member_row_key l) -> NoDup (map mr_node_id (filter (fun r => mr_network_id r = k) l)).
Proof.
  intros Hn%(Memory.nodup_map_filter member_row_key (fun r => mr_network_id r = k)).
  assert (map member_row_key (filter (fun r => mr_network_id r = k) l) =
          pair k <$> map mr_node_id (filter (fun r => mr_network_id r = k) l)) as Heq.
  { rewrite map_map. apply map_ext_in. intros r [Hr _]%list_elem_of_In%list_elem_of_filter. unfold member_row_key. by rewrite Hr. }
  rewrite Heq in Hn. exact (NoDup_fmap_1 _ _ Hn).
Qed.

Lemma list_members_reads s id : sql_inv s -> u64_ok id ->
  (sql_list_members (JE := JE) s id).1 = s /\
  wp (sql_list_members (JE := JE) s id).2 (fun l => NoDup l /\ forall a, a ∈ l <-> is_Some (v_member (sql_view s) id a)) (fun _ => True).
Proof.
  intros [Hp _ Hd] Hid. apply reading_keep; [exact Hp|]. set (sel := filter (fun r => mr_network_id r = as_signed 64 id) (t_members (rows (conn s)))).
  eapply (wp_query_map _ _ _ sel (map mr_node_id sel)).
  - intros l Hl%select_members_ok. exact Hl.
  - apply collect_map, Forall_kept. eapply Forall_impl; [apply Hd|]. intros r (m & i & c & t & Hm & _ & _ & _ & ->).
    unfold first_bytes, member_row. cbn [mr_node_id]. pose proof (mt_node _ Hm) as Hl. change (Z.of_nat 5) with 5.
    rewrite if_false by lia. by rewrite take_ge by (unfold len in Hl; lia).
  - split; [apply nodes_of_nodup, Hd|]. intros a. rewrite list_elem_of_In, in_map_iff. split.
    + intros (r & <- & Hr%list_elem_of_In%list_elem_of_filter). destruct Hr as [Hk Hr].
      destruct (member_rows _ id r Hd Hid Hr Hk) as (m & _ & _ & Hv). by exists m.
    + intros [m Hm]. destruct (member_row_of _ _ _ _ Hd Hid Hm) as (r & Hr & Hk & <- & _). exists r. split; [done|].
      by apply list_elem_of_In, list_elem_of_filter.
Qed.

Lemma assigned_ips_reads s id : sql_inv s -> u64_ok id ->
  (sql_get_assigned_ips s id).1 = s /\
  wp (sql_get_assigned_ips s id).2
    (fun l => forall ip, ip ∈ l <-> exists a m, v_member (sql_view s) id a = Some m /\ ip ∈ m_ip_assignments m) (fun _ => True).
Proof.
  intros [Hp _ Hd] Hid. apply reading_keep; [exact Hp|]. set (sel := filter (fun r => mr_network_id r = as_signed 64 id) (t_members (rows (conn s)))).
  set (ips := fun r => match read_member r : res Error MemberRecord with Ok m => m_ip_assignments m | _ => [] end).
  apply wp_bind. eapply (wp_query_map _ _ _ sel (map ips sel)).
  - intros l Hl%select_members_ok. exact Hl.
  - apply collect_map, Forall_kept. eapply Forall_impl; [apply Hd|]. intros r Hst.
    destruct (stored_member_reads r Hst) as (m & Hm & _ & _ & Ht & Hf). unfold sql, ips. by rewrite Ht, rbind_ok, Hf, Hm.
  - cbn. intros ip. rewrite list_elem_of_In, in_concat. split.
    + intros (l & Hl & Hip%list_elem_of_In). apply in_map_iff in Hl as (r & <- & Hr%list_elem_of_In%list_elem_of_filter).
      destruct Hr as [Hk Hr]. destruct (member_rows _ id r Hd Hid Hr Hk) as (m & _ & Hm & Hv). exists (mr_node_id r), m.
      split; [exact Hv|]. unfold ips in Hip. by rewrite Hm in Hip.
    + intros (a & m & Hv & Hip). destruct (member_row_of _ _ _ _ Hd Hid Hv) as (r & Hr & Hk & _ & Hm & _).
      exists (ips r). split; [|unfold ips; rewrite Hm; by apply list_elem_of_In]. apply in_map, list_elem_of_In. by apply list_elem_of_filter.
Qed.

Lemma list_networks_reads s : sql_inv s ->
  (sql_list_networks (JE := JE) s).1 = s /\
  wp (sql_list_networks (JE := JE) s).2 (fun l => NoDup l /\ forall id, u64_ok id -> id ∈ l <-> is_Some (v_network (sql_view s) id)) (fun _ => True).
Proof.
  intros [Hp _ Hd]. apply reading_keep; [exact Hp|]. set (ids := map (fun r => wrap 64 (nr_id r)) (t_networks (rows (conn s)))).
  assert (forall r, r ∈ t_networks (rows (conn s)) -> u64_ok (wrap 64 (nr_id r)) /\ nr_id r = as_signed 64 (wrap 64 (nr_id r)) /\
    exists n, read_network r = Ok (E := Error) n) as Hrow.
  { intros r Hr. destruct (stored_network_reads r (proj1 (Forall_forall _ _) (ok_networks _ Hd) r Hr)) as (n & Hn & Hty & Hk).
    rewrite Hk, signed_u64 by apply Hty. split_and!; [apply Hty|done|by exists n]. }
  eapply (wp_query_map _ _ _ (t_networks (rows (conn s))) ids).
  - intros l Hl%select_networks_ok. exact Hl.
  - apply collect_map, Forall_forall. done.
  - split.
    + assert (map nr_id (t_networks (rows (conn s))) = as_signed 64 <$> ids) as Heq.
      { unfold ids. rewrite <- list_fmap_compose. apply map_ext_in. intros r Hr%list_elem_of_In. cbn. by apply Hrow. }
      pose proof (ok_network_keys _ Hd) as Hn. rewrite Heq in Hn. exact (NoDup_fmap_1 _ _ Hn).
    + intros id Hid. cbn [v_network sql_view db_view]. rewrite at_u64_in by done. unfold ids. rewrite list_elem_of_In, in_map_iff. split.
      * intros (r & <- & Hr%list_elem_of_In). destruct (Hrow r Hr) as (Hu & <- & n & Hn).
        destruct (row_at nr_id (nr_id r) _) as [r'|] eqn:Er.
        -- apply row_at_elem in Er as [Hr' _]. destruct (Hrow r' Hr') as (_ & _ & n' & Hn'). cbn [mbind option_bind]. rewrite Hn'. by exists n'.
        -- apply row_at_none in Er. destruct Er. by apply list_elem_of_In, in_map, list_elem_of_In.
      * destruct (row_at nr_id _ _) as [r|] eqn:Er; [|by intros [? [=]]]. intros _. apply row_at_elem in Er as [Hr Hk].
        exists r. split; [by rewrite Hk, signed_u64|by apply list_elem_of_In].
Qed.

(** The SQLite backend keeps the promises the controller relies on, as long as the engine and the
    JSON library keep theirs. Any of its operations may fail. *)
#[global] Instance sqlite_laws : StorageLaws (SqliteStorage C) Error.
Proof.
  refine {| inv := sql_inv; view := sql_view; fallible := True |}.
  - intros. by apply get_network_reads.
  - intros. by apply get_member_reads.
  - intros. by apply get_pools_reads.
  - intros. by apply get_routes_reads.
  - intros. by apply list_members_reads.
  - intros. by apply assigned_ips_reads.
  - intros s id a m [_ _ Hd] Hm. assert (u64_ok id) as Hid.
    { cbn [v_member sql_view db_view] in Hm. unfold at_u64 in Hm. by case_decide. }
    destruct (member_row_of _ _ _ _ Hd Hid Hm) as (_ & _ & _ & _ & _ & ? & ?). done.
  - intros s m Hs Hm. destruct (ends_upsert s m Hs Hm) as [Hi Hw]. cbn. destruct (sql_upsert_member s m) as [s' r]. split; [exact Hi|].
    eapply wp_mono; [exact Hw|done|done].
  - intros s n Hs Hn. destruct (ends_create s n Hs Hn) as [Hi Hw]. cbn. destruct (sql_create_network s n) as [s' r]. split; [exact Hi|].
    eapply wp_mono; [exact Hw|intros ? []; by apply added_created|done].
  - intros s id ps Hs Hid Hps. destruct (ends_pools s id ps Hs Hid Hps) as [Hi Hw]. cbn. destruct (sql_set_ip_pools s id ps) as [s' r].
    split; [exact Hi|]. eapply wp_mono; [exact Hw|done|]. intros e [Hv|(n & ps' & Hp & Hv)]; (split; [done|]); [by left|right].
    exists ps'. split; [|exact Hv]. rewrite Hp. apply sublist_submseteq, sublist_take.
  - intros s id rs Hs Hid Hrs. destruct (ends_routes s id rs Hs Hid Hrs) as [Hi Hw]. cbn. destruct (sql_set_routes s id rs) as [s' r].
    split; [exact Hi|]. by eapply wp_mono; [exact Hw| |].
  - intros s n Hs Hn. destruct (ends_update s n Hs Hn) as [Hi Hw]. cbn. destruct (sql_update_network s n) as [s' r].
    split; [exact Hi|]. eapply wp_mono; [exact Hw|intros ? ?; by apply replaced_updated|]. intros e Hv. split; [by left|exact Hv].
  - intros s id Hs Hid. destruct (ends_delete s id Hs Hid) as [Hi Hw]. cbn. destruct (sql_delete_network s id) as [s' r].
    split; [exact Hi|]. eapply wp_mono; [exact Hw| |done]. intros _ (E1 & E2 & E3 & E4). split; [exact E1|].
    split_and!; intros *; left; [apply E2|apply E3|apply E4].
  - intros s id a Hs Hid. destruct (ends_delete_member s id a Hs Hid) as [Hi Hw]. cbn. destruct (sql_delete_member s id a) as [s' r].
    split; [exact Hi|]. by eapply wp_mono; [exact Hw| |].
  - intros s Hs. eapply wp_mono; [apply (proj2 (list_networks_reads s Hs))| |done]. by intros l [_ Hl].
Defined.


(** *** Any sequence of writes *)

Definition run_op (s : SqliteStorage C) (o : Memory.Op) : SqliteStorage C * res Error unit :=
  match o with
  | Memory.OpCreate n => create_network s n
  | Memory.OpUpdate n => update_network s n
  | Memory.OpDelete id => delete_network s id
  | Memory.OpUpsert m => upsert_member s m
  | Memory.OpDeleteMember id a => delete_member s id a
  | Memory.OpPools id ps => set_ip_pools s id ps
  | Memory.OpRoutes id rs => set_routes s id rs
  end.

(** The operands as their types have them. *)
Definition op_typed (o : Memory.Op) : Prop :=
  match o with
  | Memory.OpCreate n | Memory.OpUpdate n => network_typed n
  | Memory.OpDelete id | Memory.OpDeleteMember id _ => u64_ok id
  | Memory.OpUpsert m => member_typed m
  | Memory.OpPools id ps => u64_ok id /\ Forall Pools.pool_wf ps
  | Memory.OpRoutes id rs => u64_ok id /\ Forall route_typed rs
  end.

(** What a write that succeeds does: as in memory, but that only new networks are created, the
    rest of a deleted network stays, and the order of pools and routes is the engine's. *)
Definition written (v : View) (o : Memory.Op) (v' : View) : Prop :=
  match o with
  | Memory.OpCreate n => v_network v (n_id n) = None /\ view_eq v' (Memory.spec_op v o)
  | Memory.OpDelete id => view_eq v' (without_network v id)
  | Memory.OpPools id ps => exists ps', ps' ≡ₚ ps /\ view_eq v' (Memory.spec_op v (Memory.OpPools id ps'))
  | Memory.OpRoutes id rs => exists rs', rs' ≡ₚ rs /\ view_eq v' (Memory.spec_op v (Memory.OpRoutes id rs'))
  | _ => view_eq v' (Memory.spec_op v o)
  end.

(** What a write that fails leaves: what there was, or the first of the new pools. *)
Definition half_written (v : View) (o : Memory.Op) (v' : View) : Prop :=
  view_eq v' v \/
  match o with
  | Memory.OpPools id ps => exists n ps', ps' ≡ₚ take n ps /\ view_eq v' (Memory.spec_op v (Memory.OpPools id ps'))
  | _ => False
  end.

(** A run of writes, each with its outcome, seen from the outside. *)
Inductive runs_to (v : View) : list (Memory.Op * bool) -> View -> Prop :=
  | runs_none v' : view_eq v' v -> runs_to v [] v'
  | runs_op o (ok : bool) ops v1 v' : (if ok then written v o v1 else half_written v o v1) -> runs_to v1 ops v' ->
      runs_to v ((o, ok) :: ops) v'.

Definition succeeded {A} (r : res Error A) : bool := match r with Ok _ => true | _ => false end.

Fixpoint run_ops (s : SqliteStorage C) (ops : list Memory.Op) : SqliteStorage C * list (Memory.Op * bool) :=
  match ops with
  | [] => (s, [])
  | o :: ops =>
      let '(s1, r) := run_op s o in
      let '(s2, outcomes) := run_ops s1 ops in
      (s2, (o, succeeded r) :: outcomes)
  end.

Lemma op_ends s o : sql_inv s -> op_typed o ->
  ends s (run_op s o) (written (sql_view s) o) (half_written (sql_view s) o).
Proof.
  intros Hs Ho.
  assert (forall x (good : View -> Prop), ends s x good (fun v => view_eq v (sql_view s)) -> ends s x good (half_written (sql_view s) o)) as Hsame.
  { intros x good [Hi Hw]. split; [exact Hi|]. eapply wp_mono; [exact Hw|done|by left]. }
  destruct o as [n|n|id|m|id a|id ps|id rs]; cbn [run_op op_typed] in *.
  - by apply Hsame, ends_create.
  - by apply Hsame, ends_update.
  - by apply Hsame, ends_delete.
  - by apply Hsame, ends_upsert.
  - by apply Hsame, ends_delete_member.
  - destruct Ho. by apply ends_pools.
  - destruct Ho. by apply Hsame, ends_routes.
Qed.

Lemma runs_ops s ops : sql_inv s -> Forall op_typed ops ->
  sql_inv (run_ops s ops).1 /\ runs_to (sql_view s) (run_ops s ops).2 (sql_view (run_ops s ops).1).
Proof.
  intros Hs Ho. revert s Hs. induction Ho as [|o ops Ho _ IH]; intros s Hs; cbn [run_ops]; [split; [exact Hs|by constructor]|].
  pose proof (op_ends s o Hs Ho) as [Hi Hw]. destruct (run_op s o) as [s1 r]. cbn in Hi, Hw.
  destruct (IH s1 Hi) as [Hi2 Hr]. destruct (run_ops s1 ops) as [s2 out]. split; [exact Hi2|].
  eapply runs_op; [|exact Hr]. by destruct r.
Qed.

(** C30. The SQLite backend implements the controller's store. Whatever writes the controller
    makes, whichever of them the engine fails, no lock is poisoned and no transaction is left
    open; the store is the one the successful writes make of the abstract store - a failed write
    has changed nothing, except that replacing the pools may have lost the old ones and kept the
    first of the new -; and every read that succeeds returns what that store holds, and leaves
    it as it is. *)
Theorem sqlite_storage_refines (s : SqliteStorage C) (ops : list Memory.Op) : sql_inv s -> Forall op_typed ops ->
  let '(s', outcomes) := run_ops s ops in
  sql_inv s' /\ runs_to (sql_view s) outcomes (sql_view s') /\
  forall id a, u64_ok id ->
    (sql_get_network s' id).1 = s' /\ (sql_get_member s' id a).1 = s' /\
    wp (get_network s' id) (fun r => r = v_network (sql_view s') id) (fun _ => True) /\
    wp (get_member s' id a) (fun r => r = v_member (sql_view s') id a) (fun _ => True) /\
    wp (get_ip_pools s' id) (fun r => r = v_pools (sql_view s') id) (fun _ => True) /\
    wp (get_routes s' id) (fun r => r = v_routes (sql_view s') id) (fun _ => True) /\
    wp (list_members s' id) (fun l => NoDup l /\ forall b, b ∈ l <-> is_Some (v_member (sql_view s') id b)) (fun _ => True) /\
    wp (list_networks s') (fun l => NoDup l /\ (id ∈ l <-> is_Some (v_network (sql_view s') id))) (fun _ => True).
Proof.
  intros Hs Ho. pose proof (runs_ops s ops Hs Ho) as Hr. destruct (run_ops s ops) as [s' out]. destruct Hr as [Hi Hr].
  split; [exact Hi|]. split; [exact Hr|]. intros id a Hid. split_and!.
  - by apply get_network_reads.
  - by apply get_member_reads.
  - by apply get_network_reads.
  - by apply get_member_reads.
  - by apply get_pools_reads.
  - by apply get_routes_reads.
  - by apply list_members_reads.
  - eapply wp_mono; [apply (proj2 (list_networks_reads s' Hi))| |done]. intros l [Hn Hl]. split; [exact Hn|by apply Hl].
Qed.

End Laws.

(** ** An engine that runs out of space, and a JSON library *)

(** A connection in memory that fails once it has executed [budget] statements. *)
Record Engine := mkEngine { e_rows : Db; e_saved : option Db; e_budget : nat }.
Inductive EngineError := ConstraintViolation | DiskFull.

Definition run_statement (d : Db) (st : Statement) : option Db :=
  match st with
  | InsertNetwork row =>
      if is_some (row_at nr_id (nr_id row) (t_networks d)) then None else Some (with_networks d (t_networks d ++ [row]))
  | UpdateNetwork row =>
      Some (with_networks d (map (fun r => if bool_decide (nr_id r = nr_id row) then row else r) (t_networks d)))
  | DeleteNetwork id => Some (with_networks d (filter (fun r => nr_id r <> id) (t_networks d)))
  | ReplaceMember row =>
      Some (with_members d (filter (fun r => member_row_key r <> member_row_key row) (t_members d) ++ [row]))
  | DeleteMember id a => Some (with_members d (filter (fun r => member_row_key r <> (id, a)) (t_members d)))
  | DeletePools id => Some (with_pools d (filter (fun r => pr_network_id r <> id) (t_pools d)))
  | InsertPool row =>
      if is_some (row_at pool_row_key (pool_row_key row) (t_pools d)) then None else Some (with_pools d (t_pools d ++ [row]))
  | DeleteRoutes id => Some (with_routes d (filter (fun r => rr_network_id r <> id) (t_routes d)))
  | InsertRoute row =>
      if is_some (row_at route_row_key (route_row_key row) (t_routes d)) then None else Some (with_routes d (t_routes d ++ [row]))
  end.

Lemma run_statement_ok d st d' : run_statement d st = Some d' -> executes d st d'.
Proof.
  assert (forall A (x : A) l, inserted x l (l ++ [x])) as Hend by (intros A x l; exists l, []; by rewrite app_nil_r).
  destruct st; cbn [run_statement]; try (intros [= <-]; by constructor);
    (destruct (row_at _ _ _) eqn:E; [discriminate|]; apply row_at_none in E; intros [= <-]; by constructor).
Qed.

#[export] Instance engine_sql : Sql Engine EngineError := {|
  execute c st := match e_budget c with
                  | O => (c, Some DiskFull)
                  | S b => match run_statement (e_rows c) st with
                           | Some d => (mkEngine d (e_saved c) b, None)
                           | None => (c, Some ConstraintViolation)
                           end
                  end;
  select_networks c id := inr match id with
                              | Some id => filter (fun r => nr_id r = id) (t_networks (e_rows c))
                              | None => t_networks (e_rows c)
                              end;
  select_members c id node := inr match node with
                                  | Some a => filter (fun r => member_row_key r = (id, a)) (t_members (e_rows c))
                                  | None => filter (fun r => mr_network_id r = id) (t_members (e_rows c))
                                  end;
  select_pools c id := inr (filter (fun r => pr_network_id r = id) (t_pools (e_rows c)));
  select_routes c id := inr (filter (fun r => rr_network_id r = id) (t_routes (e_rows c)));
  transaction c := (mkEngine (e_rows c) (Some (e_rows c)) (e_budget c), None);
  commit c := (mkEngine (e_rows c) None (e_budget c), None);
  rollback c := mkEngine (default (e_rows c) (e_saved c)) None (e_budget c);
  get_i32 z := inr z;
  get_text s := inr s;
  sql_display e := str "constraint or disk";
  rows := e_rows;
  saved := e_saved;
|}.

#[export] Instance engine_laws : SqlLaws Engine EngineError.
Proof.
  split; cbn; try done.
  - intros c st. destruct (e_budget c) as [|b]; [by left|]. destruct (run_statement (e_rows c) st) as [d|] eqn:E; [|by left].
    split; [by apply run_statement_ok|done].
  - by intros c id l [= <-].
  - by intros c id node l [= <-].
  - by intros c id l [= <-].
  - by intros c id l [= <-].
Qed.

(** Numbers of values, in binary digits. *)
Fixpoint digits_of (p : positive) : bytes :=
  match p with xH => [] | xO p => "0"%byte :: digits_of p | xI p => "1"%byte :: digits_of p end.
Fixpoint of_digits (s : bytes) : positive :=
  match s with [] => xH | b :: s => if bool_decide (b = "0"%byte) then xO (of_digits s) else xI (of_digits s) end.

Lemma of_digits_of p : of_digits (digits_of p) = p.
Proof. induction p as [p IH|p IH|]; [| |done]; cbn; by rewrite IH. Qed.

Lemma digits_text p : text_ok (digits_of p).
Proof. unfold text_ok. induction p as [p IH|p IH|]; [..|done]; cbn [digits_of]; exact IH. Qed.

#[export] Instance Rule_eq_dec : EqDecision Rule.
Proof. solve_decision. Defined.
#[export] Instance Capability_eq_dec : EqDecision Capability.
Proof. solve_decision. Defined.
#[export] Instance TagDefinition_eq_dec : EqDecision TagDefinition.
Proof. solve_decision. Defined.
#[export] Instance Tag_eq_dec : EqDecision Tag.
Proof. solve_decision. Defined.

#[export] Instance Rule_countable : Countable Rule :=
  inj_countable' (fun r => (r_type r, r_not r, r_or r, r_value r)) (fun '(t, n, o, v) => mkRule t n o v) ltac:(by intros []).
#[export] Instance Capability_countable : Countable Capability :=
  inj_countable' (fun c => (cap_id c, cap_rules c)) (fun '(i, rs) => mkCapability i rs) ltac:(by intros []).
#[export] Instance TagDefinition_countable : Countable TagDefinition :=
  inj_countable' (fun t => (td_id t, td_name t, td_default t, td_enums t)) (fun '(i, n, d, e) => mkTagDefinition i n d e) ltac:(by intros []).
#[export] Instance Tag_countable : Countable Tag :=
  inj_countable' (fun t => (tag_id t, tag_value t)) (fun '(i, v) => mkTag i v) ltac:(by intros []).

#[local] Instance digits_json {A} `{Countable A} : Json unit A := {|
  to_string a := inr (digits_of (encode a));
  from_str s := match decode (of_digits s) with Some a => inr a | None => inl tt end;
|}.

Lemma digits_law {A} `{Countable A} (typed : A -> Prop) : json_law (JE := unit) (A := A) typed.
Proof. intros a s _ [= <-]. split; [apply digits_text|]. cbn. by rewrite of_digits_of, decode_encode. Qed.

#[export] Instance digits_serde : Serde unit := {| json_display _ := str "json"; join_display := str "task panicked" |}.
#[export] Instance digits_serde_laws : SerdeLaws unit.
Proof. split; apply digits_law. Qed.

(** ** A network, a member, and pools that repeat themselves *)

Definition open_engine (budget : nat) : SqliteStorage Engine := mkSqlite (mkEngine (mkDb [] [] [] []) None budget) false.

Lemma open_engine_inv budget : sql_inv (JE := unit) (open_engine budget).
Proof. split; [done..|]. split; cbn; constructor. Qed.

Definition sample_network : NetworkRecord :=
  mkNetworkRecord (2 ^ 63 + 1) (str "net") true 1 2 (2 ^ 32 - 1) 2800 (str "zt") (str "none")
    [mkRule 1 false true [b8 7]] [mkCapability 5 []] [mkTagDefinition 9 (str "role") (Some 2) [(str "admin", 1)]] true.
Definition sample_member : MemberRecord :=
  mkMemberRecord (2 ^ 63 + 1) (map b8 [1; 2; 3; 4; 5]) true [str "10.0.0.1/24"] 1000 2000 (str "member") 3 1500 0 true true [7] [mkTag 1 42].
Definition sample_pool (i : Z) : IpPool := mkPool (map b8 [10; i; 0; 1]) (map b8 [10; i; 0; 9]).

(** A network that is created twice, pools with one pool twice, and a deletion. *)
Definition sample_writes : list Memory.Op :=
  [Memory.OpCreate sample_network; Memory.OpCreate sample_network; Memory.OpUpsert sample_member;
   Memory.OpPools (2 ^ 63 + 1) [sample_pool 9]; Memory.OpPools (2 ^ 63 + 1) [sample_pool 1; sample_pool 1; sample_pool 2];
   Memory.OpDelete (2 ^ 63 + 1)].

Lemma sample_writes_typed : Forall op_typed sample_writes.
Proof.
  unfold u64_ok, U64_MAX. repeat constructor; unfold u64_ok, u32_ok, u16_ok, rule_typed, U64_MAX, U32_MAX, U16_MAX; cbn; try lia; done.
Qed.

(** The second creation and the second list of pools fail; the first of the new pools is kept; the
    member outlives its network. *)
Lemma sqlite_storage_refines_witness :
  let '(s', outcomes) := run_ops (JE := unit) (open_engine 100) sample_writes in
  map snd outcomes = [true; false; true; true; false; true] /\
  get_network (Er := SqliteStorageError EngineError unit) s' (2 ^ 63 + 1) = Ok None /\
  get_member (Er := SqliteStorageError EngineError unit) s' (2 ^ 63 + 1) (m_node_id sample_member) = Ok (Some sample_member) /\
  get_ip_pools (Er := SqliteStorageError EngineError unit) s' (2 ^ 63 + 1) = Ok [sample_pool 1] /\
  sql_inv (JE := unit) s'.
Proof.
  pose proof (sqlite_storage_refines (JE := unit) (open_engine 100) sample_writes (open_engine_inv 100) sample_writes_typed) as Hr.
  assert (let x := run_ops (JE := unit) (open_engine 100) sample_writes in
    map snd x.2 = [true; false; true; true; false; true] /\
    get_network (Er := SqliteStorageError EngineError unit) x.1 (2 ^ 63 + 1) = Ok None /\
    get_member (Er := SqliteStorageError EngineError unit) x.1 (2 ^ 63 + 1) (m_node_id sample_member) = Ok (Some sample_member) /\
    get_ip_pools (Er := SqliteStorageError EngineError unit) x.1 (2 ^ 63 + 1) = Ok [sample_pool 1]) as He.
  { split_and!; vm_compute; reflexivity. }
  destruct (run_ops (JE := unit) (open_engine 100) sample_writes) as [s' out]. destruct He as (H1 & H2 & H3 & H4).
  split; [exact H1|]. split; [exact H2|]. split; [exact H3|]. split; [exact H4|apply Hr].
Defined.

End Sqlite.
