(* ===== verification/FileStore.v ===== *)
(** * FileStore: the filesystem backend of the controller's storage (zerotier-service:
    storage/filesystem.rs): a JSON file per record, named after its identifiers, over any file
    system ([Files]) and any JSON library. *)
From S2P Require Export Files Sqlite.

(** The JSON of whole records, and the texts of errors. *)
Class FileJson (O JE : Type) := {
  json_network :: Json JE NetworkRecord;
  json_member :: Json JE MemberRecord;
  json_pools :: Json JE (list IpPool);
  json_routes :: Json JE (list ManagedRoute);
  os_text : O -> bytes;
  json_text : JE -> bytes;
}.

Class FileJsonLaws (O JE : Type) `{FileJson O JE} := {
  network_law : json_law network_typed;
  member_law : json_law member_typed;
  pools_law : json_law (A := list IpPool) (Forall Pools.pool_wf);
  routes_law : json_law (A := list ManagedRoute) (Forall route_typed);
}.

Inductive FsStorageError (O JE : Type) :=
  | FsIo (e : IoError O)
  | FsJson (e : JE).
Arguments FsIo {O JE}. Arguments FsJson {O JE}.

Module FileStore.

(** ** Paths *)

Definition json_file (stem : bytes) : bytes := stem ++ str ".json".
Definition hex_encode_5 (b : bytes) : bytes := flat_map (fun b => format_hex_pad 2 (u8 b)) b.

Definition network_path (id : Z) : path := [str "networks"; json_file (format_hex_pad 16 id)].
Definition member_dir (network_id : Z) : path := [str "members"; format_hex_pad 16 network_id].
Definition member_path (network_id : Z) (node_id : bytes) : path := member_dir network_id ++ [json_file (hex_encode_5 node_id)].
Definition pools_path (network_id : Z) : path := [str "pools"; json_file (format_hex_pad 16 network_id)].
Definition routes_path (network_id : Z) : path := [str "routes"; json_file (format_hex_pad 16 network_id)].

Definition hex_nibble (b : byte) : option Z :=
  if (0x30 <=? u8 b) && (u8 b <=? 0x39) then Some (u8 b - 0x30)
  else if (0x61 <=? u8 b) && (u8 b <=? 0x66) then Some (u8 b - 0x61 + 10)
  else if (0x41 <=? u8 b) && (u8 b <=? 0x46) then Some (u8 b - 0x41 + 10)
  else None.

Fixpoint hex_pairs (s : bytes) : option bytes :=
  match s with
  | a :: b :: s => hi ← hex_nibble a; lo ← hex_nibble b; rest ← hex_pairs s; Some (b8 (Z.lor (Z.shiftl hi 4) lo) :: rest)
  | _ => Some []
  end.
Definition hex_decode_5 (s : bytes) : option bytes := if negb (len s =? 10) then None else hex_pairs s.

Section Backend.
Context {F O JE : Type} `{FileSystem F O} `{FileJson O JE}.
Abbreviation Error := (FsStorageError O JE).
Abbreviation fs_step A := (F * res Error A)%type.

Definition io_error (x : F * option O) : fs_step unit :=
  (x.1, match x.2 with Some e => Err (FsIo (Os e)) | None => Ok tt end).
Definition json {A} (r : JE + A) : res Error A := match r with inl e => Err (FsJson e) | inr a => Ok a end.

(** A directory that is not there is made, those above it included. *)
Definition new (fs : F) : fs_step unit :=
  then_do (io_error (fs_mkdir fs [str "networks"])) (fun fs _ =>
  then_do (io_error (fs_mkdir fs [str "members"])) (fun fs _ =>
  then_do (io_error (fs_mkdir fs [str "pools"])) (fun fs _ =>
  io_error (fs_mkdir fs [str "routes"])))).

(** [read_to_string], [from_str], and nothing for a file that is not there. *)
Definition read_record {A} `{Json JE A} (fs : F) (p : path) : res Error (option A) :=
  match read_to_string fs p with
  | Ok data => let* a := json (from_str data) in Ok (Some a)
  | Err e => if kind_not_found e then Ok None else Err (FsIo e)
  | Panic => Panic
  | Hang => Hang
  end.

(** [to_string_pretty], then [write]. *)
Definition write_record {A} `{Json JE A} (fs : F) (p : path) (a : A) : fs_step unit :=
  then_do (fs, json (to_string a)) (fun fs data => io_error (fs_write fs p data)).

(** [remove_file]; a file that is not there is removed already. *)
Definition remove_record (fs : F) (p : path) : fs_step unit :=
  match fs_remove fs p with
  | (fs, None) => (fs, Ok tt)
  | (fs, Some e) => (fs, if not_found e then Ok tt else Err (FsIo (Os e)))
  end.

Definition fs_get_network (fs : F) (id : Z) : res Error (option NetworkRecord) := read_record fs (network_path id).
Definition fs_create_network (fs : F) (network : NetworkRecord) : fs_step unit := write_record fs (network_path (n_id network)) network.

Definition fs_delete_network (fs : F) (id : Z) : fs_step unit :=
  then_do (remove_record fs (network_path id)) (fun fs _ =>
  let fs := (fs_rmdir fs (member_dir id)).1 in
  let fs := (fs_remove fs (pools_path id)).1 in
  let fs := (fs_remove fs (routes_path id)).1 in
  (fs, Ok tt)).

Definition fs_list_networks (fs : F) : res Error (list Z) :=
  match fs_list fs [str "networks"] with
  | inl e => Err (FsIo (Os e))
  | inr entries => Ok (omap (fun e => hex ← Text.strip_suffix (str ".json") e.1; from_str_radix 16 U64_MAX hex) entries)
  end.

Definition fs_get_member (fs : F) (network_id : Z) (node_id : bytes) : res Error (option MemberRecord) :=
  read_record fs (member_path network_id node_id).

Definition fs_upsert_member (fs : F) (member : MemberRecord) : fs_step unit :=
  then_do (io_error (fs_mkdir fs (member_dir (m_network_id member)))) (fun fs _ =>
  write_record fs (member_path (m_network_id member) (m_node_id member)) member).

Definition fs_delete_member (fs : F) (network_id : Z) (node_id : bytes) : fs_step unit :=
  remove_record fs (member_path network_id node_id).

Definition fs_list_members (fs : F) (network_id : Z) : res Error (list bytes) :=
  match fs_list fs (member_dir network_id) with
  | inl e => if not_found e then Ok [] else Err (FsIo (Os e))
  | inr entries => Ok (omap (fun e => hex ← Text.strip_suffix (str ".json") e.1; hex_decode_5 hex) entries)
  end.

Definition fs_get_ip_pools (fs : F) (network_id : Z) : res Error (list IpPool) :=
  let* r := read_record fs (pools_path network_id) in Ok (default [] r).
Definition fs_set_ip_pools (fs : F) (network_id : Z) (pools : list IpPool) : fs_step unit := write_record fs (pools_path network_id) pools.
Definition fs_get_routes (fs : F) (network_id : Z) : res Error (list ManagedRoute) :=
  let* r := read_record fs (routes_path network_id) in Ok (default [] r).
Definition fs_set_routes (fs : F) (network_id : Z) (routes : list ManagedRoute) : fs_step unit := write_record fs (routes_path network_id) routes.

Definition fs_get_assigned_ips (fs : F) (network_id : Z) : res Error (list bytes) :=
  let* members := fs_list_members fs network_id in
  for_each members (fun nid all_ips =>
    let* member := fs_get_member fs network_id nid in
    Ok (match member with Some member => all_ips ++ m_ip_assignments member | None => all_ips end)) [].

Definition fs_display_error (e : Error) : bytes :=
  match e with
  | FsIo (Os e) => str "io error: " ++ os_text e
  | FsIo (InvalidInput message) => str "io error: " ++ message
  | FsIo InvalidData => str "io error: stream did not contain valid UTF-8"
  | FsJson e => str "json error: " ++ json_text e
  end.

#[export] Instance file_storage : ControllerStorage F Error := {|
  get_network := fs_get_network;
  create_network := fs_create_network;
  update_network := fs_create_network;
  delete_network := fs_delete_network;
  list_networks := fs_list_networks;
  get_member := fs_get_member;
  upsert_member := fs_upsert_member;
  delete_member := fs_delete_member;
  list_members := fs_list_members;
  get_ip_pools := fs_get_ip_pools;
  set_ip_pools := fs_set_ip_pools;
  get_routes := fs_get_routes;
  set_routes := fs_set_routes;
  get_assigned_ips := fs_get_assigned_ips;
  display_error := fs_display_error;
|}.
End Backend.

(** ** Names *)

Lemma pad_digits w n : Forall (is_digit 16) (format_hex_pad w n).
Proof.
  unfold format_hex_pad. apply Forall_app. split; [|apply (format_digits 16); lia].
  apply Forall_forall. intros b ->%elem_of_replicate_inv. exists 0. by split; [lia|].
Qed.

Lemma pad_inj a b : u64_ok a -> u64_ok b -> format_hex_pad 16 a = format_hex_pad 16 b -> a = b.
Proof. intros Ha Hb He. pose proof (from_str_pad 16 a Ha) as Hs. rewrite He, from_str_pad in Hs by done. by injection Hs. Qed.

Lemma hex_digits a : Forall (is_digit 16) (hex_encode_5 a).
Proof. induction a as [|b a IH]; [constructor|]. cbn [hex_encode_5 flat_map]. apply Forall_app. split; [apply pad_digits|exact IH]. Qed.

Lemma hex_back a : len a = 5 -> hex_decode_5 (hex_encode_5 a) = Some a.
Proof.
  intros Hl. assert (forall l, len (hex_encode_5 l) = 2 * len l /\ hex_pairs (hex_encode_5 l) = Some l) as Hall.
  { induction l as [|b l [IHl IHp]]; [done|]. cbn [hex_encode_5 flat_map]. fold (hex_encode_5 l).
    assert (exists x y, format_hex_pad 2 (u8 b) = [x; y] /\ exists h k, hex_nibble x = Some h /\ hex_nibble y = Some k /\ b8 (Z.lor (Z.shiftl h 4) k) = b)
      as (x & y & -> & h & k & Hx & Hy & Hb) by (destruct b; do 2 eexists; (split; [reflexivity|]); do 2 eexists; split_and!; reflexivity).
    cbn [app hex_pairs]. rewrite Hx, Hy, IHp. cbn [mbind option_bind]. rewrite Hb, !len_cons. split; [lia|done]. }
  destruct (Hall a) as [Hn Hp]. unfold hex_decode_5. rewrite Hn, Hl. exact Hp.
Qed.

Lemma hex_inj a b : hex_encode_5 a = hex_encode_5 b -> a = b.
Proof.
  revert b. induction a as [|x a IH]; intros [|y b]; cbn [hex_encode_5 flat_map]; try done.
  - by destruct y.
  - by destruct x.
  - fold (hex_encode_5 a) (hex_encode_5 b). assert (length (format_hex_pad 2 (u8 x)) = 2%nat /\ length (format_hex_pad 2 (u8 y)) = 2%nat) as [Hx Hy] by (split; [by destruct x|by destruct y]).
    intros [Hxy Hab]%app_inj_1; [|by rewrite Hx, Hy]. rewrite (IH b Hab). f_equal.
    pose proof (from_str_pad 2 (u8 x)) as Hs. rewrite Hxy, from_str_pad in Hs by (pose proof (u8_range y); unfold u64_ok, U64_MAX; lia).
    specialize (Hs ltac:(pose proof (u8_range x); unfold u64_ok, U64_MAX; lia)). injection Hs as Hs. by rewrite <- (b8_u8 x), <- Hs, b8_u8.
Qed.

Lemma json_file_inj a b : json_file a = json_file b -> a = b.
Proof. apply app_inv_tail. Qed.

Lemma digit_plain c : is_digit 16 c -> c <> "/"%byte /\ c <> "000"%byte.
Proof. intros (d & Hd & ->). digit_cases d; by vm_compute. Qed.

Lemma json_plain stem : Forall (is_digit 16) stem -> plain_name (json_file stem).
Proof.
  intros Hs. assert (forall c, c ∈ json_file stem -> c <> "/"%byte /\ c <> "000"%byte) as Hc.
  { intros c [Hc|Hc]%elem_of_app; [rewrite Forall_forall in Hs; by apply digit_plain, Hs|]. cbn in Hc.
    repeat (apply elem_of_cons in Hc as [->|Hc]; [done|]). by apply elem_of_nil in Hc. }
  assert (length (json_file stem) >= 5)%nat as Hl by (unfold json_file; rewrite length_app; cbn; lia).
  split_and!; [by intros E; rewrite E in Hl; cbn in Hl; lia..| |]; intros Hin; by apply Hc in Hin as [].
Qed.

Lemma pad_plain n : plain_name (format_hex_pad 16 n).
Proof.
  pose proof (pad_digits 16 n) as Hd. assert (length (format_hex_pad 16 n) >= 16)%nat as Hl by (unfold format_hex_pad; rewrite length_app, length_replicate; lia).
  split_and!; [by intros E; rewrite E in Hl; cbn in Hl; lia..| |]; intros Hin; rewrite Forall_forall in Hd; by apply Hd, digit_plain in Hin as [].
Qed.

Lemma dir_plain : plain_name (str "networks") /\ plain_name (str "members") /\ plain_name (str "pools") /\ plain_name (str "routes").
Proof. apply (bool_decide_unpack _). by vm_compute. Qed.

Lemma paths_plain id a : plain (network_path id) /\ plain (member_dir id) /\ plain (member_path id a) /\ plain (pools_path id) /\ plain (routes_path id).
Proof.
  pose proof dir_plain as (? & ? & ? & ?). pose proof (pad_plain id). pose proof (json_plain _ (pad_digits 16 id)). pose proof (json_plain _ (hex_digits a)).
  split_and!; unfold plain, member_path; cbn; repeat first [apply Forall_nil_2 | apply Forall_cons; split; [assumption|]].
Qed.

Lemma network_path_inj i j : u64_ok i -> u64_ok j -> network_path i = network_path j -> i = j.
Proof. intros Hi Hj [= He]. by apply pad_inj, json_file_inj. Qed.
Lemma pools_path_inj i j : u64_ok i -> u64_ok j -> pools_path i = pools_path j -> i = j.
Proof. intros Hi Hj [= He]. by apply pad_inj, json_file_inj. Qed.
Lemma routes_path_inj i j : u64_ok i -> u64_ok j -> routes_path i = routes_path j -> i = j.
Proof. intros Hi Hj [= He]. by apply pad_inj, json_file_inj. Qed.
Lemma member_path_inj i a j b : u64_ok i -> u64_ok j -> member_path i a = member_path j b -> i = j /\ a = b.
Proof. intros Hi Hj [= He Ha]. split; [by apply pad_inj|by apply hex_inj, json_file_inj]. Qed.

(** ** What the files hold *)

Section Laws.
Context {F O JE : Type} `{FileSystemLaws F O} `{FileJsonLaws O JE}.

#[local] Arguments network_path : simpl never.
#[local] Arguments member_path : simpl never.
#[local] Arguments member_dir : simpl never.
#[local] Arguments pools_path : simpl never.
#[local] Arguments routes_path : simpl never.

Definition data (fs : F) (p : path) : option bytes := f_data <$> files (tree fs) !! p.

Definition stored {A} `{Json JE A} (fs : F) (p : path) : option A :=
  d ← data fs p; match from_str d with inr a => Some a | inl _ => None end.

Definition of_u64 {A} (id : Z) (none x : A) : A := if decide (u64_ok id) then x else none.

Definition fs_view (fs : F) : View := {|
  v_network id := of_u64 id None (stored fs (network_path id));
  v_member id a := of_u64 id None (stored fs (member_path id a));
  v_pools id := of_u64 id [] (default [] (stored fs (pools_path id)));
  v_routes id := of_u64 id [] (default [] (stored fs (routes_path id)));
|}.

(** The files of records, and the record that a file holds as its path names it. *)
Inductive record_path : path -> Prop :=
  | network_name id : u64_ok id -> record_path (network_path id)
  | member_name id a : u64_ok id -> len a = 5 -> record_path (member_path id a)
  | pools_name id : u64_ok id -> record_path (pools_path id)
  | routes_name id : u64_ok id -> record_path (routes_path id).

Inductive record_at : path -> bytes -> Prop :=
  | network_at n d : network_typed n -> from_str d = inr n -> record_at (network_path (n_id n)) d
  | member_at m d : member_typed m -> from_str d = inr m -> record_at (member_path (m_network_id m) (m_node_id m)) d
  | pools_at id ps d : u64_ok id -> Forall Pools.pool_wf ps -> from_str d = inr ps -> record_at (pools_path id) d
  | routes_at id rs d : u64_ok id -> Forall route_typed rs -> from_str d = inr rs -> record_at (routes_path id) d.

Lemma record_at_path p d : record_at p d -> record_path p.
Proof. intros [n ? Hn _|m ? Hm _|id ps ? ? _ _|id rs ? ? _ _]; constructor; try done; first [apply Hn|apply Hm]. Qed.

(** Every file is that of a record, and holds it unless it is one of [damaged]. *)
Definition fs_inv (damaged : gset path) (fs : F) : Prop :=
  (forall p d, data fs p = Some d -> record_path p /\ (p ∉ damaged -> record_at p d)) /\
  forall q, q ∈ dirs (tree fs) -> (length q <= 1)%nat \/ exists id, q = member_dir id.

(** Other files than that at [p] hold what they held. *)
Definition but_at (fs fs' : F) (p : path) (x : option bytes) : Prop := forall q, data fs' q = if decide (q = p) then x else data fs q.

Lemma only_at_data fs fs' p : only_at (tree fs) (tree fs') p -> but_at fs fs' p (data fs' p).
Proof. intros [_ Hf] q. unfold data. case_decide as Hq; [by rewrite Hq|by rewrite Hf]. Qed.

Lemma same_view fs fs' : (forall q, data fs' q = data fs q) -> view_eq (fs_view fs') (fs_view fs).
Proof. intros Hd. split_and!; intros; cbn; unfold stored; by rewrite Hd. Qed.

(** A read tells what the file holds, or fails: with an error of the system, or on what does not parse. *)
Lemma read_spec {A} `{Json JE A} fs p : plain p -> wp (read_record fs p) (fun r => r = stored fs p)
  (fun e => (exists d x, data fs p = Some d /\ from_str (A := A) d = inl x) \/ exists x, e = FsIo x).
Proof.
  intros Hp. unfold read_record, read_to_string, stored, data. pose proof (read_law fs p Hp) as Hr. destruct (fs_read fs p) as [e|d]; cbn.
  - destruct (not_found e); cbn; [by rewrite Hr|by right; eexists].
  - destruct (utf8_valid d); cbn; [|by right; eexists]. rewrite Hr. cbn. destruct (from_str d) as [x|] eqn:Ex; cbn; [|done].
    left. by exists d, x.
Qed.

(** *** The records of one kind *)

Lemma record_at_decodes d id a : u64_ok id ->
  (record_at (network_path id) d -> exists n : NetworkRecord, from_str d = inr n) /\
  (record_at (member_path id a) d -> exists m : MemberRecord, from_str d = inr m) /\
  (record_at (pools_path id) d -> exists ps : list IpPool, from_str d = inr ps) /\
  (record_at (routes_path id) d -> exists rs : list ManagedRoute, from_str d = inr rs).
Proof.
  intros Hid. split_and!; intros Hr; [remember (network_path id) as p eqn:Ep|remember (member_path id a) as p eqn:Ep|remember (pools_path id) as p eqn:Ep|remember (routes_path id) as p eqn:Ep];
    destruct Hr as [n d Ht Hj|m d Ht Hj|i ps d Hi Ht Hj|i rs d Hi Ht Hj]; try discriminate Ep; eauto.
Qed.

(** What is not damaged is read or fails with an error of the system. *)
Lemma sound_read {A} `{Json JE A} damaged fs p : fs_inv damaged fs -> plain p ->
  (forall d, record_at p d -> exists x : A, from_str d = inr x) ->
  wp (read_record fs p) (fun r => r = stored (A := A) fs p) (fun e => p ∈ damaged \/ exists x, e = FsIo x).
Proof.
  intros [Hi _] Hp Hd. eapply wp_mono; [exact (read_spec fs p Hp)|done|]. intros e [(d & x & Hdata & Hx)|He]; [left|by right].
  destruct (decide (p ∈ damaged)) as [|Hno]; [done|]. destruct (Hd d (proj2 (Hi p d Hdata) Hno)) as [y Hy]. congruence.
Qed.

Lemma member_named damaged fs id a : fs_inv damaged fs -> u64_ok id -> is_Some (data fs (member_path id a)) -> len a = 5.
Proof.
  intros [Hi _] Hid [d Hd]. destruct (Hi _ _ Hd) as [Hn _]. remember (member_path id a) as p eqn:Ep.
  destruct Hn as [i ?|i b Hu Hl|i ?|i ?]; [discriminate Ep| |discriminate Ep..]. by apply member_path_inj in Ep as [_ <-].
Qed.

Lemma view_member fs id a m : v_member (fs_view fs) id a = Some m -> u64_ok id /\ is_Some (data fs (member_path id a)).
Proof.
  cbn. unfold of_u64, stored. case_decide; [|done]. destruct (data fs (member_path id a)); [|done]. by split; [|eexists].
Qed.

(** What changes at one path changes the view there. *)
Definition decoded {A} `{Json JE A} (x : option bytes) : option A :=
  d ← x; match from_str d with inr a => Some a | inl _ => None end.

Lemma view_at fs fs' p x : but_at fs fs' p x ->
  (forall id, p = network_path id -> u64_ok id -> view_eq (fs_view fs')
     (mkView (fun i => if i =? id then decoded x else v_network (fs_view fs) i) (v_member (fs_view fs)) (v_pools (fs_view fs)) (v_routes (fs_view fs)))) /\
  (forall id a, p = member_path id a -> u64_ok id -> view_eq (fs_view fs')
     (mkView (v_network (fs_view fs)) (fun i b => if decide (i = id /\ b = a) then decoded x else v_member (fs_view fs) i b) (v_pools (fs_view fs)) (v_routes (fs_view fs)))) /\
  (forall id, p = pools_path id -> u64_ok id -> view_eq (fs_view fs')
     (mkView (v_network (fs_view fs)) (v_member (fs_view fs)) (fun i => if i =? id then default [] (decoded x) else v_pools (fs_view fs) i) (v_routes (fs_view fs)))) /\
  (forall id, p = routes_path id -> u64_ok id -> view_eq (fs_view fs')
     (mkView (v_network (fs_view fs)) (v_member (fs_view fs)) (v_pools (fs_view fs)) (fun i => if i =? id then default [] (decoded x) else v_routes (fs_view fs) i))).
Proof.
  intros Hd.
  assert (forall A `{Json JE A} q, stored fs' q = if decide (q = p) then decoded x else stored (A := A) fs q) as Hs.
  { intros A ? q. unfold stored, decoded. rewrite Hd. by case_decide. }
  split_and!.
  - intros id -> Hid. split_and!; intros *; cbn; unfold of_u64; rewrite !Hs; [|by repeat (case_decide; try done)..].
    destruct (Z.eqb_spec id0 id) as [->|Hne]; [by rewrite !decide_True|]. case_decide; [|done]. rewrite decide_False; [done|].
    intros He%network_path_inj; done.
  - intros id a -> Hid. split_and!; intros *; cbn; unfold of_u64; rewrite !Hs; [by repeat (case_decide; try done)| |by repeat (case_decide; try done)..].
    destruct (decide (id0 = id /\ a0 = a)) as [[-> ->]|Hne]; [by rewrite !decide_True|]. case_decide; [|done]. rewrite decide_False; [done|].
    intros He%member_path_inj; done.
  - intros id -> Hid. split_and!; intros *; cbn; unfold of_u64; rewrite !Hs; [by repeat (case_decide; try done)..| |by repeat (case_decide; try done)].
    destruct (Z.eqb_spec id0 id) as [->|Hne]; [by rewrite !decide_True|]. case_decide; [|done]. rewrite decide_False; [done|].
    intros He%pools_path_inj; done.
  - intros id -> Hid. split_and!; intros *; cbn; unfold of_u64; rewrite !Hs; [by repeat (case_decide; try done)..|].
    destruct (Z.eqb_spec id0 id) as [->|Hne]; [by rewrite !decide_True|]. case_decide; [|done]. rewrite decide_False; [done|].
    intros He%routes_path_inj; done.
Qed.

(** ** The invariant *)

Lemma inv_more D D' fs : D ⊆ D' -> fs_inv D fs -> fs_inv D' fs.
Proof. intros Hs [Hi Hd]. split; [|exact Hd]. intros p d Hp. destruct (Hi p d Hp) as [? Hr]. split; [done|]. intros Hn. apply Hr. set_solver. Qed.

(** The file at [p] written, or removed: it is whole again. *)
Lemma inv_put D fs fs' p x : fs_inv D fs -> but_at fs fs' p x -> match x with Some d => record_at p d | None => True end ->
  dirs (tree fs') = dirs (tree fs) -> fs_inv (D ∖ {[p]}) fs'.
Proof.
  intros [Hi Hd] Hb Hx Hdirs. split; [|by rewrite Hdirs]. intros q d. rewrite Hb. case_decide as Hq.
  - intros ->. subst. split; [by eapply record_at_path|done].
  - intros Hq'. destruct (Hi q d Hq') as [? Hr]. split; [done|]. intros Hn. apply Hr. set_solver.
Qed.

(** The file at [p] written half way: it is damaged. *)
Lemma inv_torn D fs fs' p : fs_inv D fs -> but_at fs fs' p (data fs' p) -> record_path p ->
  dirs (tree fs') = dirs (tree fs) -> fs_inv (D ∪ {[p]}) fs'.
Proof.
  intros [Hi Hd] Hb Hp Hdirs. split; [|by rewrite Hdirs]. intros q d Hq. destruct (decide (q = p)) as [->|Hne].
  - split; [done|]. set_solver.
  - rewrite Hb, decide_False in Hq by done. destruct (Hi q d Hq) as [? Hr]. split; [done|]. intros Hn. apply Hr. set_solver.
Qed.

Lemma inv_less D fs fs' : fs_inv D fs -> (forall q, data fs' q = data fs q \/ data fs' q = None) -> dirs (tree fs') ⊆ dirs (tree fs) -> fs_inv D fs'.
Proof.
  intros [Hi Hd] Hl Hdirs. split; [|intros q Hq; by apply Hd, Hdirs]. intros q d Hq. destruct (Hl q) as [He|He]; rewrite He in Hq; [by apply Hi|done].
Qed.

(** ** The writes *)

(** The outcome of a write: the damaged files and the files themselves, when it succeeds and when it fails. *)
Definition op_ends {A} (x : F * res (FsStorageError O JE) A) (D : gset path) (good : F -> Prop) (D' : gset path) (bad : F -> Prop) : Prop :=
  wp x.2 (fun _ => fs_inv D x.1 /\ good x.1) (fun _ => fs_inv D' x.1 /\ bad x.1).

Lemma write_ends {A} `{Json JE A} (typed : A -> Prop) D fs p a : fs_inv D fs -> plain p -> record_path p ->
  json_law typed -> typed a -> (forall d, from_str d = inr a -> record_at p d) ->
  op_ends (write_record fs p a) (D ∖ {[p]}) (fun fs' => exists d, from_str d = inr a /\ but_at fs fs' p (Some d))
    (D ∪ {[p]}) (fun fs' => but_at fs fs' p (data fs' p)).
Proof.
  intros Hi Hp Hn Hj Ha Hr. unfold write_record. destruct (to_string a) as [e|d] eqn:Ed.
  { split; [by eapply inv_more; [|exact Hi]; set_solver|]. intros q. by case_decide; [subst|]. }
  cbn [json then_do]. destruct (Hj a d Ha Ed) as [_ Hback]. pose proof (write_law fs p d Hp) as Hw.
  destruct (fs_write fs p d) as [fs' e]. destruct Hw as [Ho Hw]. pose proof (only_at_data _ _ _ Ho) as Hb.
  unfold io_error, op_ends. cbn [fst snd]. destruct e as [e|]; cbn.
  - split; [|exact Hb]. eapply inv_torn; [exact Hi|exact Hb|exact Hn|apply Ho].
  - destruct Hw as [m Hw]. assert (data fs' p = Some d) as Hd by (unfold data; by rewrite Hw). rewrite Hd in Hb.
    split; [|by exists d]. eapply inv_put; [exact Hi|exact Hb|by apply Hr|apply Ho].
Qed.

Lemma remove_ends D fs p : fs_inv D fs -> plain p ->
  op_ends (remove_record fs p) (D ∖ {[p]}) (fun fs' => but_at fs fs' p None) D (fun fs' => forall q, data fs' q = data fs q).
Proof.
  intros Hi Hp. unfold remove_record. pose proof (remove_law fs p Hp) as Hr. destruct (fs_remove fs p) as [fs' e]. destruct Hr as [Ho Hr].
  pose proof (only_at_data _ _ _ Ho) as Hb. unfold op_ends. destruct e as [e|]; cbn [fst snd].
  - destruct Hr as [Hsame Hmiss]. assert (forall q, data fs' q = data fs q) as Hall.
    { intros q. rewrite Hb. case_decide as Hq; [|done]. subst q. unfold data. by rewrite Hsame. }
    destruct (not_found e); cbn; [|split; [eapply inv_less; [exact Hi|by left|by rewrite (proj1 Ho)]|exact Hall]].
    assert (but_at fs fs' p None) as Hnone.
    { intros q. rewrite Hall. case_decide as Hq; [|done]. subst q. unfold data. by rewrite Hmiss. }
    split; [|exact Hnone]. by eapply inv_put; [exact Hi|exact Hnone| |apply Ho].
  - assert (data fs' p = None) as Hd by (unfold data; by rewrite (proj2 Hr)). rewrite Hd in Hb. cbn. split; [|exact Hb].
    by eapply inv_put; [exact Hi|exact Hb| |apply Ho].
Qed.

Lemma op_ends_mono {A} (x : F * res (FsStorageError O JE) A) D D' (good good' bad bad' : F -> Prop) :
  op_ends x D good D' bad -> (forall fs', good fs' -> good' fs') -> (forall fs', bad fs' -> bad' fs') -> op_ends x D good' D' bad'.
Proof. intros Hw Hg Hb. eapply wp_mono; [exact Hw|intros ? [? ?]; split; [done|by apply Hg]|intros ? [? ?]; split; [done|by apply Hb]]. Qed.

(** The record a write is about. *)
Definition touched (o : Memory.Op) : path :=
  match o with
  | Memory.OpCreate n | Memory.OpUpdate n => network_path (n_id n)
  | Memory.OpDelete id => network_path id
  | Memory.OpUpsert m => member_path (m_network_id m) (m_node_id m)
  | Memory.OpDeleteMember id a => member_path id a
  | Memory.OpPools id _ => pools_path id
  | Memory.OpRoutes id _ => routes_path id
  end.

(** What a write that succeeds does: a network is put under its identifier whether there was one
    or not, and what the system cannot remove of a deleted one stays. *)
Definition written (v : View) (o : Memory.Op) (v' : View) : Prop :=
  match o with
  | Memory.OpCreate n | Memory.OpUpdate n => view_eq v' (set_network v (n_id n) n)
  | Memory.OpDelete id => network_removed v v' id
  | _ => view_eq v' (Memory.spec_op v o)
  end.

(** What a write that fails may change: the record it was to write; a deletion that fails, nothing. *)
Definition spared (v : View) (o : Memory.Op) (v' : View) : Prop :=
  match o with
  | Memory.OpCreate n | Memory.OpUpdate n => exists x, view_eq v' (mkView (fun i => if i =? n_id n then x else v_network v i) (v_member v) (v_pools v) (v_routes v))
  | Memory.OpUpsert m => exists x, view_eq v' (mkView (v_network v)
      (fun i b => if decide (i = m_network_id m /\ b = m_node_id m) then x else v_member v i b) (v_pools v) (v_routes v))
  | Memory.OpPools id _ => exists x, view_eq v' (mkView (v_network v) (v_member v) (fun i => if i =? id then x else v_pools v i) (v_routes v))
  | Memory.OpRoutes id _ => exists x, view_eq v' (mkView (v_network v) (v_member v) (v_pools v) (fun i => if i =? id then x else v_routes v i))
  | Memory.OpDelete _ | Memory.OpDeleteMember _ _ => view_eq v' v
  end.

(** The damaged files after a write: a success mends its record, a failed write leaves it in doubt. *)
Definition damage (D : gset path) (outcome : Memory.Op * bool) : gset path :=
  match outcome with
  | (o, true) => D ∖ {[touched o]}
  | ((Memory.OpDelete _ | Memory.OpDeleteMember _ _), false) => D
  | (o, false) => D ∪ {[touched o]}
  end.

(** What is claimed of every write. *)
Definition ends_as (D : gset path) (fs : F) (o : Memory.Op) (x : F * res (FsStorageError O JE) unit) : Prop :=
  op_ends x (damage D (o, true)) (fun fs' => written (fs_view fs) o (fs_view fs'))
    (damage D (o, false)) (fun fs' => spared (fs_view fs) o (fs_view fs')).

Lemma create_ends D fs n : fs_inv D fs -> network_typed n -> ends_as D fs (Memory.OpCreate n) (fs_create_network fs n).
Proof.
  intros Hi Hn. eapply op_ends_mono; [apply (write_ends network_typed); [done|apply (paths_plain (n_id n) [])|by constructor; apply Hn|exact network_law|done|]|..].
  - intros d Hd. by constructor.
  - intros fs' (d & Hd & Hb). destruct (view_at _ _ _ _ Hb) as [Hv _]. cbn. etransitivity; [by apply (Hv (n_id n)), Hn|].
    split_and!; try done. intros id. cbn. by rewrite Hd.
  - intros fs' Hb. destruct (view_at _ _ _ _ Hb) as [Hv _]. eexists. by apply (Hv (n_id n)), Hn.
Qed.

Lemma fs_pools_ends D fs id ps : fs_inv D fs -> u64_ok id -> Forall Pools.pool_wf ps ->
  ends_as D fs (Memory.OpPools id ps) (fs_set_ip_pools fs id ps).
Proof.
  intros Hi Hid Hps. eapply op_ends_mono; [apply (write_ends (A := list IpPool) (Forall Pools.pool_wf)); [done|apply (paths_plain id [])|by constructor|exact pools_law|done|]|..].
  - intros d Hd. by econstructor.
  - intros fs' (d & Hd & Hb). destruct (view_at _ _ _ _ Hb) as (_ & _ & Hv & _). cbn. etransitivity; [by apply (Hv id)|].
    split_and!; try done. intros id'. cbn. by rewrite Hd.
  - intros fs' Hb. destruct (view_at _ _ _ _ Hb) as (_ & _ & Hv & _). eexists. by apply (Hv id).
Qed.

Lemma fs_routes_ends D fs id rs : fs_inv D fs -> u64_ok id -> Forall route_typed rs ->
  ends_as D fs (Memory.OpRoutes id rs) (fs_set_routes fs id rs).
Proof.
  intros Hi Hid Hrs. eapply op_ends_mono; [apply (write_ends (A := list ManagedRoute) (Forall route_typed)); [done|apply (paths_plain id [])|by constructor|exact routes_law|done|]|..].
  - intros d Hd. by econstructor.
  - intros fs' (d & Hd & Hb). destruct (view_at _ _ _ _ Hb) as (_ & _ & _ & Hv). cbn. etransitivity; [by apply (Hv id)|].
    split_and!; try done. intros id'. cbn. by rewrite Hd.
  - intros fs' Hb. destruct (view_at _ _ _ _ Hb) as (_ & _ & _ & Hv). eexists. by apply (Hv id).
Qed.

Lemma member_removed_ends D fs id a : fs_inv D fs -> u64_ok id -> ends_as D fs (Memory.OpDeleteMember id a) (fs_delete_member fs id a).
Proof.
  intros Hi Hid. eapply op_ends_mono; [apply remove_ends; [done|apply (paths_plain id a)]| |apply same_view].
  intros fs' Hb. destruct (view_at _ _ _ _ Hb) as (_ & Hv & _). by apply (Hv id a).
Qed.

Lemma prefix_two {A} (q : list A) x y : q `prefix_of` [x; y] -> (length q <= 1)%nat \/ q = [x; y].
Proof. intros [r Hr]. destruct q as [|a [|b [|c q]]]; cbn; try (left; lia); injection Hr; intros; by subst; right. Qed.

Lemma put_member_eq v w m x : view_eq v w ->
  view_eq (mkView (v_network v) (fun i b => if decide (i = m_network_id m /\ b = m_node_id m) then x else v_member v i b) (v_pools v) (v_routes v))
    (mkView (v_network w) (fun i b => if decide (i = m_network_id m /\ b = m_node_id m) then x else v_member w i b) (v_pools w) (v_routes w)).
Proof. intros (E1 & E2 & E3 & E4). split_and!; intros *; cbn; [apply E1| |apply E3|apply E4]. by case_decide. Qed.

Lemma upsert_ends D fs m : fs_inv D fs -> member_typed m -> ends_as D fs (Memory.OpUpsert m) (fs_upsert_member fs m).
Proof.
  intros Hi Hm. unfold fs_upsert_member. pose proof (paths_plain (m_network_id m) (m_node_id m)) as (_ & Hdir & Hpath & _).
  pose proof (mkdir_law fs _ Hdir) as Hk. destruct (fs_mkdir fs (member_dir (m_network_id m))) as [fs1 e]. destruct Hk as (Hf & _ & Hnew & _).
  assert (forall q, data fs1 q = data fs q) as Hsame by (intros q; unfold data; by rewrite Hf).
  assert (fs_inv D fs1) as Hi1.
  { split; [intros q d; rewrite Hsame; apply Hi|]. intros q [Hq|Hq]%Hnew; [by apply Hi|]. apply prefix_two in Hq as [Hq| ->]; [by left|right].
    by exists (m_network_id m). }
  destruct e as [e|]; cbn [io_error then_do fst snd].
  { split; [by eapply inv_more; [|exact Hi1]; set_solver|]. eexists (v_member (fs_view fs) (m_network_id m) (m_node_id m)).
    etransitivity; [exact (same_view _ _ Hsame)|]. split_and!; try done. intros *; cbn [v_member]. by case_decide as Hd; [destruct Hd as [-> ->]|]. }
  eapply op_ends_mono; [apply (write_ends (A := MemberRecord) member_typed D fs1 (member_path (m_network_id m) (m_node_id m)) m);
    [done|done|by constructor; apply Hm|exact member_law|done|by constructor]|..].
  - intros fs' (d & Hd & Hb). destruct (view_at _ _ _ _ Hb) as (_ & Hv & _). cbn. etransitivity; [by apply (Hv _ _ eq_refl), Hm|].
    rewrite (put_member_eq _ _ m _ (same_view _ _ Hsame)). split_and!; try done. intros *; cbn. by case_decide; [rewrite Hd|].
  - intros fs' Hb. destruct (view_at _ _ _ _ Hb) as (_ & Hv & _). eexists. etransitivity; [by apply (Hv _ _ eq_refl), Hm|].
    exact (put_member_eq _ _ m _ (same_view _ _ Hsame)).
Qed.

(** Files that [P] holds of may be gone. *)
Definition gone (P : path -> Prop) (fs fs' : F) : Prop := forall q, data fs' q = data fs q \/ P q /\ data fs' q = None.

Lemma gone_trans P Q fs1 fs2 fs3 : gone P fs1 fs2 -> gone Q fs2 fs3 -> gone (fun q => P q \/ Q q) fs1 fs3.
Proof. intros G1 G2 q. destruct (G2 q) as [->|[? ?]]; [|tauto]. destruct (G1 q) as [->|[? ?]]; tauto. Qed.

Lemma removed_gone fs p : plain p -> gone (eq p) fs (fs_remove fs p).1 /\ dirs (tree (fs_remove fs p).1) ⊆ dirs (tree fs).
Proof.
  intros Hp. pose proof (remove_law fs p Hp) as Hr. destruct (fs_remove fs p) as [fs' e]. destruct Hr as [Ho Hr]. cbn [fst].
  split; [|by rewrite (proj1 Ho)]. intros q. rewrite (only_at_data _ _ _ Ho). case_decide as Hq; [|by left]. subst q. unfold data.
  destruct e as [e|]; [left; by rewrite (proj1 Hr)|right; by rewrite (proj2 Hr)].
Qed.

Lemma rmdir_gone fs p : plain p -> gone (fun q => p `prefix_of` q /\ q <> p) fs (fs_rmdir fs p).1 /\ dirs (tree (fs_rmdir fs p).1) ⊆ dirs (tree fs).
Proof.
  intros Hp. pose proof (rmdir_law fs p Hp) as Hr. destruct (fs_rmdir fs p) as [fs' e]. destruct Hr as [Hd Hf]. cbn [fst].
  split; [|exact Hd]. intros q. unfold data. destruct (Hf q) as [->|(? & ? & ->)]; [by left|by right].
Qed.

Definition of_network (id : Z) (q : path) : Prop :=
  q = network_path id \/ (exists n, q = member_dir id ++ n) \/ q = pools_path id \/ q = routes_path id.

Lemma gone_removed fs fs' id : u64_ok id -> gone (of_network id) fs fs' -> data fs' (network_path id) = None ->
  network_removed (fs_view fs) (fs_view fs') id.
Proof.
  intros Hid Hg Hn.
  assert (forall A `{Json JE A} q, stored (A := A) fs' q = stored fs q \/ of_network id q /\ stored (A := A) fs' q = None) as Hs.
  { intros A ? q. unfold stored. destruct (Hg q) as [->|[? ->]]; [by left|by right]. }
  unfold network_removed. cbn. unfold of_u64. split_and!.
  - intros i. destruct (Z.eqb_spec i id) as [->|Hne]; [rewrite decide_True by done; unfold stored; by rewrite Hn|]. case_decide as Hi; [|done].
    destruct (Hs NetworkRecord _ (network_path i)) as [|[[Hq|[[n Hq]|[Hq|Hq]]] _]]; [done| |discriminate Hq..]. by apply network_path_inj in Hq.
  - intros i a. case_decide as Hi; [|by left]. destruct (Hs MemberRecord _ (member_path i a)) as [|[[Hq|[[n Hq]|[Hq|Hq]]] Hnone]]; [by left|discriminate Hq| |discriminate Hq..].
    right. split; [|done]. injection Hq as Hq _. by apply pad_inj.
  - intros i. case_decide as Hi; [|by left]. destruct (Hs (list IpPool) _ (pools_path i)) as [->|[[Hq|[[n Hq]|[Hq|Hq]]] Hnone]]; [by left|discriminate Hq|discriminate Hq| |discriminate Hq].
    right. rewrite Hnone. split; [by apply pools_path_inj|done].
  - intros i. case_decide as Hi; [|by left]. destruct (Hs (list ManagedRoute) _ (routes_path i)) as [->|[[Hq|[[n Hq]|[Hq|Hq]]] Hnone]]; [by left|discriminate Hq|discriminate Hq|discriminate Hq|].
    right. rewrite Hnone. split; [by apply routes_path_inj|done].
Qed.

Lemma delete_ends D fs id : fs_inv D fs -> u64_ok id -> ends_as D fs (Memory.OpDelete id) (fs_delete_network fs id).
Proof.
  intros Hi Hid. pose proof (paths_plain id []) as (Hnp & Hdp & _ & Hpp & Hrp). unfold fs_delete_network, ends_as.
  pose proof (remove_ends D fs (network_path id) Hi Hnp) as Hr. unfold op_ends in Hr. destruct (remove_record fs (network_path id)) as [fs1 r]. cbn [fst snd] in *.
  destruct r as [[]|e| |]; cbn in Hr; try done; cbn [then_do]; [|by split; [apply Hr|apply same_view, Hr]]. destruct Hr as [Hi1 Hr].
  destruct (rmdir_gone fs1 _ Hdp) as [G2 D2]. set (fs2 := (fs_rmdir fs1 (member_dir id)).1) in *.
  destruct (removed_gone fs2 _ Hpp) as [G3 D3]. set (fs3 := (fs_remove fs2 (pools_path id)).1) in *.
  destruct (removed_gone fs3 _ Hrp) as [G4 D4]. set (fs4 := (fs_remove fs3 (routes_path id)).1) in *.
  pose proof (gone_trans _ _ _ _ _ G2 (gone_trans _ _ _ _ _ G3 G4)) as G. split; cbn [fst snd].
  - eapply inv_less; [exact Hi1| |by do 2 (etransitivity; [eassumption|])]. intros q. destruct (G q) as [?|[_ ?]]; tauto.
  - cbn. apply gone_removed; [done| |].
    + intros q. destruct (G q) as [->|[Hq Hnone]].
      * rewrite Hr. case_decide; [right; split; [by left|done]|by left].
      * right. split; [|done]. unfold of_network. destruct Hq as [[[n Hq] _]|[<-|<-]]; [right; left; by exists n|tauto..].
    + destruct (G (network_path id)) as [->|[_ ?]]; [|done]. rewrite Hr. by rewrite decide_True.
Qed.

(** ** The listings *)

Lemma omap_nodup {A B} (f : A -> option B) l : (forall x y b, x ∈ l -> y ∈ l -> f x = Some b -> f y = Some b -> x = y) ->
  NoDup l -> NoDup (omap f l).
Proof.
  intros Hf Hl. induction Hl as [|x l Hx _ IH]; [constructor|]. cbn. assert (NoDup (omap f l)) as Hn.
  { apply IH. intros y z b ? ?. apply Hf; by right. }
  destruct (f x) as [b|] eqn:E; [|done]. constructor; [|done]. intros (y & Hy & Ey)%list_elem_of_omap.
  apply Hx. replace x with y; [done|]. eapply Hf; [by right|by left|exact Ey|exact E].
Qed.

(** An entry of a network's directory is the file of a member. *)
Lemma member_entry D fs id l n k : fs_inv D fs -> u64_ok id -> fs_list fs (member_dir id) = inr l -> (n, k) ∈ l ->
  k = IsFile /\ exists a, len a = 5 /\ n = json_file (hex_encode_5 a) /\
    (is_Some (v_member (fs_view fs) id a) \/ member_path id a ∈ D).
Proof.
  intros [Hi Hdirs] Hid Hl Hin. pose proof (paths_plain id []) as (_ & Hdp & _). pose proof (list_law fs _ Hdp) as Hlaw. rewrite Hl in Hlaw.
  destruct (proj1 (proj2 Hlaw n k) Hin) as [_ Hk]. destruct k.
  - split; [done|]. destruct Hk as [f Hf]. assert (data fs (member_dir id ++ [n]) = Some (f_data f)) as Hd by (unfold data; by rewrite Hf).
    destruct (Hi _ _ Hd) as [Hname Hrec]. remember (member_dir id ++ [n]) as p eqn:Ep. destruct Hname as [? ?|i a Hu Hla|? ?|? ?];
      [discriminate Ep| |discriminate Ep..].
    injection Ep as Hpad Hn. apply pad_inj in Hpad as ->; [|done..]. exists a. split_and!; [done|done|].
    destruct (decide (member_path id a ∈ D)) as [|Hno]; [by right|left]. destruct (record_at_decodes (f_data f) id a Hid) as (_ & Hdec & _).
    destruct (Hdec (Hrec Hno)) as [m Hm]. exists m. cbn. unfold of_u64. rewrite decide_True by done. unfold stored. by rewrite Hd; cbn; rewrite Hm.
  - destruct (Hdirs _ Hk) as [Hlen|[j Hj]]; [unfold member_dir in Hlen; cbn in Hlen; lia|discriminate Hj].
Qed.

Lemma fs_members_reads D fs id : fs_inv D fs -> u64_ok id ->
  wp (fs_list_members (JE := JE) fs id) (fun l => NoDup l /\
    (forall a, is_Some (v_member (fs_view fs) id a) -> a ∈ l) /\
    forall a, a ∈ l -> is_Some (v_member (fs_view fs) id a) \/ member_path id a ∈ D) (fun _ => True).
Proof.
  intros Hi Hid. unfold fs_list_members. pose proof (paths_plain id []) as (_ & Hdp & _). pose proof (list_law fs _ Hdp) as Hlaw.
  destruct (fs_list fs (member_dir id)) as [e|l] eqn:El.
  { destruct (not_found e); [|done]. cbn. split; [constructor|]. split; [|by intros a ?%elem_of_nil]. intros a [m Hm].
    apply view_member in Hm as [_ [d Hd]]. unfold member_path, data in Hd. by rewrite Hlaw in Hd. }
  assert (forall n k a, (n, k) ∈ l -> (hex ← Text.strip_suffix (str ".json") (n, k).1; hex_decode_5 hex) = Some a ->
    n = json_file (hex_encode_5 a) /\ k = IsFile /\ (is_Some (v_member (fs_view fs) id a) \/ member_path id a ∈ D)) as Hdec.
  { intros n k a Hin Hf. destruct (member_entry D fs id l n k Hi Hid El Hin) as (-> & b & Hb & -> & Hm). cbn [fst] in Hf.
    unfold json_file in Hf. rewrite strip_app in Hf. cbn [mbind option_bind] in Hf. rewrite hex_back in Hf by done. injection Hf as ->. by split_and!. }
  cbn. split; [|split].
  - apply omap_nodup; [|apply Hlaw]. intros [n k] [n' k'] a H1' H2' E1 E2. destruct (Hdec _ _ _ H1' E1) as (-> & -> & _), (Hdec _ _ _ H2' E2) as (-> & -> & _). done.
  - intros a [m Hm]. apply view_member in Hm as [_ Hd]. pose proof (member_named D fs id a Hi Hid Hd) as Ha.
    apply list_elem_of_omap. exists (json_file (hex_encode_5 a), IsFile). split.
    + apply Hlaw. split; [apply json_plain, hex_digits|]. unfold data in Hd. by apply fmap_is_Some in Hd.
    + cbn [fst]. unfold json_file. rewrite strip_app. cbn [mbind option_bind]. by apply hex_back.
  - intros a ([n k] & Hin & Hf)%list_elem_of_omap. by apply (Hdec n k).
Qed.

Lemma fs_networks_reads D fs : fs_inv D fs ->
  wp (fs_list_networks (JE := JE) fs) (fun l => forall id, u64_ok id ->
    (is_Some (v_network (fs_view fs) id) -> id ∈ l) /\
    (id ∈ l -> is_Some (v_network (fs_view fs) id) \/ network_path id ∈ D)) (fun _ => True).
Proof.
  intros [Hi Hdirs]. unfold fs_list_networks. assert (plain [str "networks"]) as Hp by by repeat constructor; apply dir_plain.
  pose proof (list_law fs _ Hp) as Hlaw. destruct (fs_list fs _) as [e|l]; [done|]. cbn. intros id Hid. rewrite list_elem_of_omap. split.
  - intros [m Hm]. unfold of_u64, stored, data in Hm. rewrite decide_True in Hm by done. destruct (files (tree fs) !! network_path id) as [f|] eqn:Ef; [|done].
    exists (json_file (format_hex_pad 16 id), IsFile). split; [apply Hlaw; split; [apply json_plain, pad_digits|by eexists]|].
    cbn [fst]. unfold json_file. rewrite strip_app. cbn [mbind option_bind]. by apply from_str_pad.
  - intros ([n k] & Hin & Hf). apply Hlaw in Hin as [_ Hk]. destruct k.
    2: { destruct (Hdirs _ Hk) as [Hlen|[j Hj]]; [cbn in Hlen; lia|discriminate Hj]. }
    destruct Hk as [f Hk]. assert (data fs ([str "networks"] ++ [n]) = Some (f_data f)) as Hd by (unfold data; by rewrite Hk).
    destruct (Hi _ _ Hd) as [Hname Hrec]. remember ([str "networks"] ++ [n]) as p eqn:Ep. destruct Hname as [i Hu|? ? ? ?|? ?|? ?]; [|discriminate Ep..].
    injection Ep as <-. cbn [fst] in Hf. unfold json_file in Hf. rewrite strip_app in Hf. cbn [mbind option_bind] in Hf.
    rewrite from_str_pad in Hf by done. injection Hf as ->. destruct (decide (network_path id ∈ D)) as [|Hno]; [by right|left].
    destruct (record_at_decodes (f_data f) id [] Hid) as (Hdec & _). destruct (Hdec (Hrec Hno)) as [m Hm].
    exists m. unfold of_u64. rewrite decide_True by done. unfold stored. by rewrite Hd; cbn; rewrite Hm.
Qed.

(** *** Any sequence of writes *)

Definition run_op (fs : F) (o : Memory.Op) : F * res (FsStorageError O JE) unit :=
  match o with
  | Memory.OpCreate n => create_network fs n
  | Memory.OpUpdate n => update_network fs n
  | Memory.OpDelete id => delete_network fs id
  | Memory.OpUpsert m => upsert_member fs m
  | Memory.OpDeleteMember id a => delete_member fs id a
  | Memory.OpPools id ps => set_ip_pools fs id ps
  | Memory.OpRoutes id rs => set_routes fs id rs
  end.

Inductive runs_to (v : View) : list (Memory.Op * bool) -> View -> Prop :=
  | runs_none v' : view_eq v' v -> runs_to v [] v'
  | runs_op o (ok : bool) ops v1 v' : (if ok then written v o v1 else spared v o v1) -> runs_to v1 ops v' -> runs_to v ((o, ok) :: ops) v'.

Fixpoint run_ops (fs : F) (ops : list Memory.Op) : F * list (Memory.Op * bool) :=
  match ops with
  | [] => (fs, [])
  | o :: ops =>
      let '(fs1, r) := run_op fs o in
      let '(fs2, outcomes) := run_ops fs1 ops in
      (fs2, (o, match r with Ok _ => true | _ => false end) :: outcomes)
  end.

Lemma fs_op_ends D fs o : fs_inv D fs -> Sqlite.op_typed o -> ends_as D fs o (run_op fs o).
Proof.
  intros Hi Ho. destruct o as [n|n|id|m|id a|id ps|id rs]; cbn [run_op Sqlite.op_typed] in *.
  - by apply create_ends.
  - by apply create_ends.
  - by apply delete_ends.
  - by apply upsert_ends.
  - by apply member_removed_ends.
  - destruct Ho. by apply fs_pools_ends.
  - destruct Ho. by apply fs_routes_ends.
Qed.

Lemma fs_runs D fs ops : fs_inv D fs -> Forall Sqlite.op_typed ops ->
  fs_inv (fold_left damage (run_ops fs ops).2 D) (run_ops fs ops).1 /\ runs_to (fs_view fs) (run_ops fs ops).2 (fs_view (run_ops fs ops).1).
Proof.
  intros Hi Ho. revert D fs Hi. induction Ho as [|o ops Ho _ IH]; intros D fs Hi; cbn [run_ops]; [split; [exact Hi|by constructor]|].
  pose proof (fs_op_ends D fs o Hi Ho) as Hw. unfold ends_as, op_ends in Hw. destruct (run_op fs o) as [fs1 r]. cbn [fst snd] in *.
  assert (exists ok, match r with Ok _ => true | _ => false end = ok /\ fs_inv (damage D (o, ok)) fs1 /\
    (if ok then written (fs_view fs) o (fs_view fs1) else spared (fs_view fs) o (fs_view fs1))) as (ok & -> & Hi1 & Hv1)
    by (destruct r; cbn in Hw; [by exists true|by exists false|done..]).
  destruct (IH _ fs1 Hi1) as [Hi2 Hr]. destruct (run_ops fs1 ops) as [fs2 out]. cbn [fst snd fold_left] in *. split; [exact Hi2|].
  eapply runs_op; [exact Hv1|exact Hr].
Qed.

(** C31. The filesystem backend and the controller's store, whichever calls the system fails, and
    however much of a failed write reaches the disk. After any writes, the store is the one the
    abstract store makes of them: a write that succeeds does what it says, one that fails changes
    at most the record it was to write, a failed deletion nothing. Every file is that of a record
    and, but for those whose last write failed, holds it. Every read that succeeds returns what
    that store holds; one of an undamaged record fails only with an error of the system; the
    listings are complete, and list besides only the damaged. *)
Theorem file_storage_refines (D : gset path) (fs : F) (ops : list Memory.Op) : fs_inv D fs -> Forall Sqlite.op_typed ops ->
  let '(fs', outcomes) := run_ops fs ops in
  let damaged := fold_left damage outcomes D in
  let unless p (e : FsStorageError O JE) := p ∈ damaged \/ exists x, e = FsIo x in
  fs_inv damaged fs' /\ runs_to (fs_view fs) outcomes (fs_view fs') /\
  forall id a, u64_ok id ->
    wp (get_network fs' id) (fun r => r = v_network (fs_view fs') id) (unless (network_path id)) /\
    wp (get_member fs' id a) (fun r => r = v_member (fs_view fs') id a) (unless (member_path id a)) /\
    wp (get_ip_pools fs' id) (fun r => r = v_pools (fs_view fs') id) (unless (pools_path id)) /\
    wp (get_routes fs' id) (fun r => r = v_routes (fs_view fs') id) (unless (routes_path id)) /\
    wp (list_members fs' id) (fun l => NoDup l /\ (forall b, is_Some (v_member (fs_view fs') id b) -> b ∈ l) /\
      forall b, b ∈ l -> is_Some (v_member (fs_view fs') id b) \/ member_path id b ∈ damaged) (fun _ : FsStorageError O JE => True) /\
    wp (list_networks fs') (fun l => (is_Some (v_network (fs_view fs') id) -> id ∈ l) /\
      (id ∈ l -> is_Some (v_network (fs_view fs') id) \/ network_path id ∈ damaged)) (fun _ : FsStorageError O JE => True).
Proof.
  intros Hi Ho. pose proof (fs_runs D fs ops Hi Ho) as [Hi' Hr]. destruct (run_ops fs ops) as [fs' out]. cbn [fst snd] in *. cbv zeta.
  split; [exact Hi'|]. split; [exact Hr|]. intros id a Hid. pose proof (paths_plain id a) as (Hn & _ & Hm & Hp & Hrt).
  pose proof (fun d => record_at_decodes d id a Hid) as Hdec.
  assert (forall A (none x : A), of_u64 id none x = x) as Hof by (intros; unfold of_u64; by rewrite decide_True).
  split_and!; cbn [get_network get_member get_ip_pools get_routes list_members list_networks file_storage fs_view v_network v_pools v_routes];
    rewrite ?Hof.
  - apply sound_read; [exact Hi'|done|apply Hdec].
  - cbn. rewrite Hof. apply sound_read; [exact Hi'|done|apply Hdec].
  - apply wp_bind. eapply wp_mono; [apply (sound_read (A := list IpPool)); [exact Hi'|done|apply Hdec]|by intros ? ->|done].
  - apply wp_bind. eapply wp_mono; [apply (sound_read (A := list ManagedRoute)); [exact Hi'|done|apply Hdec]|by intros ? ->|done].
  - by apply fs_members_reads.
  - eapply wp_mono; [by eapply fs_networks_reads| |done]. intros l Hl. pose proof (Hl id Hid) as Hx. cbn in Hx. by rewrite Hof in Hx.
Qed.
End Laws.

(** ** Records in JSON, on a disk that fills up *)

#[local] Existing Instance Sqlite.Rule_eq_dec.
#[local] Existing Instance Sqlite.Rule_countable.
#[local] Existing Instance Sqlite.Capability_eq_dec.
#[local] Existing Instance Sqlite.Capability_countable.
#[local] Existing Instance Sqlite.TagDefinition_eq_dec.
#[local] Existing Instance Sqlite.TagDefinition_countable.
#[local] Existing Instance Sqlite.Tag_eq_dec.
#[local] Existing Instance Sqlite.Tag_countable.

#[export] Instance NetworkRecord_eq_dec : EqDecision NetworkRecord.
Proof. solve_decision. Defined.
#[export] Instance MemberRecord_eq_dec : EqDecision MemberRecord.
Proof. solve_decision. Defined.
#[export] Instance IpPool_eq_dec : EqDecision IpPool.
Proof. solve_decision. Defined.
#[export] Instance ManagedRoute_eq_dec : EqDecision ManagedRoute.
Proof. solve_decision. Defined.

#[export] Instance NetworkRecord_countable : Countable NetworkRecord :=
  inj_countable' (fun n => ((n_id n, n_name n, n_private n, n_creation_time n, n_revision n, n_multicast_limit n),
      (n_mtu n, n_v4_assign_mode n, n_v6_assign_mode n, n_rules n, n_capabilities n, n_tags n, n_enable_broadcast n)))
    (fun '((i, n, p, c, r, l), (u, v4, v6, rs, cs, ts, b)) => mkNetworkRecord i n p c r l u v4 v6 rs cs ts b) ltac:(by intros []).
#[export] Instance MemberRecord_countable : Countable MemberRecord :=
  inj_countable' (fun m => ((m_network_id m, m_node_id m, m_authorized m, m_ip_assignments m, m_creation_time m, m_last_seen m, m_name m),
      (m_revision m, m_last_authorized_time m, m_last_deauthorized_time m, m_active_bridge m, m_no_auto_assign_ips m, m_capabilities m, m_tags m)))
    (fun '((i, a, z, ips, c, l, n), (r, la, ld, b, x, cs, ts)) => mkMemberRecord i a z ips c l n r la ld b x cs ts) ltac:(by intros []).
#[export] Instance IpPool_countable : Countable IpPool :=
  inj_countable' (fun p => (range_start p, range_end p)) (fun '(a, b) => mkPool a b) ltac:(by intros []).
#[export] Instance ManagedRoute_countable : Countable ManagedRoute :=
  inj_countable' (fun r => (mr_target r, mr_via r)) (fun '(t, v) => mkManagedRoute t v) ltac:(by intros []).

#[local] Existing Instance Sqlite.digits_json.

#[export] Instance digits_file_json : FileJson DiskError unit := {|
  os_text e := match e with Missing => str "not found" | NoSpace => str "no space" end;
  json_text _ := str "json";
|}.
#[export] Instance digits_file_laws : FileJsonLaws DiskError unit.
Proof. split; apply Sqlite.digits_law. Qed.

(** The directories made, [space] writes left. *)
Definition fresh_disk (torn : bool) (space : nat) : Disk torn := (new (JE := unit) (mkDisk (mkTree ∅ ∅) space)).1.

Lemma fresh_inv torn space : fs_inv (JE := unit) ∅ (fresh_disk torn space).
Proof.
  split; [done|]. intros q Hq. left. cbn in Hq. rewrite !elem_of_union, !elem_of_singleton, !elem_of_empty in Hq. destruct_or!; subst; cbn; try lia; done.
Qed.

(** The second creation replaces the first; the pools fit once, the second time they are torn, and
    the deletion takes them and the member with it. *)
Lemma file_storage_refines_witness :
  let x := run_ops (JE := unit) (fresh_disk true 4) Sqlite.sample_writes in
  map snd x.2 = [true; true; true; true; false; true] /\
  get_network (Er := FsStorageError DiskError unit) x.1 (2 ^ 63 + 1) = Ok None /\
  get_member (Er := FsStorageError DiskError unit) x.1 (2 ^ 63 + 1) (m_node_id Sqlite.sample_member) = Ok None /\
  get_ip_pools (Er := FsStorageError DiskError unit) x.1 (2 ^ 63 + 1) = Ok [] /\
  fs_inv (JE := unit) (fold_left damage x.2 ∅) x.1.
Proof.
  pose proof (file_storage_refines (JE := unit) ∅ (fresh_disk true 4) Sqlite.sample_writes (fresh_inv true 4) Sqlite.sample_writes_typed) as Hr.
  cbv zeta. rewrite (surjective_pairing (run_ops (JE := unit) (fresh_disk true 4) Sqlite.sample_writes)) in Hr.
  destruct Hr as [Hi _].
  do 4 (split; [vm_compute; reflexivity|]). exact Hi.
Defined.

(** Writes are not atomic: on a full disk an update loses the network it was to change. *)
Example torn_update_loses :
  let d := (create_network (Er := FsStorageError DiskError unit) (fresh_disk true 1) Sqlite.sample_network).1 in
  let '(d', r) := update_network (Er := FsStorageError DiskError unit) d Sqlite.sample_network in
  get_network (Er := FsStorageError DiskError unit) d (2 ^ 63 + 1) = Ok (Some Sqlite.sample_network) /\
  r = Err (FsIo (Os NoSpace)) /\ get_network (Er := FsStorageError DiskError unit) d' (2 ^ 63 + 1) = Err (FsJson tt).
Proof. vm_compute. repeat split. Qed.
End FileStore.
