(* ===== verification/Config.v ===== *)
(** * Config: the network configuration a controller sends to a member (zerotier-node:
    controller/config_builder.rs). *)
From S2P Require Export Storage Dictionary NetConfWire Identity.

Module Config.

Definition SLASH : byte := "/"%byte.
Definition COLON : byte := ":"%byte.

Definition contains (c : byte) (s : bytes) : bool := existsb (fun x => bool_decide (x = c)) s.

(** [splitn(2, c)]: the two parts around the first [c], if there is one. *)
Fixpoint split_once (c : byte) (s : bytes) : option (bytes * bytes) :=
  match s with
  | [] => None
  | x :: s =>
      if bool_decide (x = c) then Some ([], s)
      else match split_once c s with Some (a, b) => Some (x :: a, b) | None => None end
  end.

(** [split("::")]. *)
Fixpoint split_double (s : bytes) : list bytes :=
  match s with
  | [] => [[]]
  | x :: rest =>
      let cons_head := match split_double rest with p :: ps => (x :: p) :: ps | [] => [[x]] end in
      match rest with
      | y :: rest' =>
          if bool_decide (x = COLON) && bool_decide (y = COLON) then [] :: split_double rest' else cons_head
      | [] => cons_head
      end
  end.

Definition parse_ip_prefix (s : bytes) : option (bytes * Z) :=
  match split_once SLASH s with
  | Some (ip, p) => match parse_u8 p with Some prefix => Some (ip, prefix) | None => None end
  | None => if contains COLON s then Some (s, 128) else Some (s, 32)
  end.

Definition parse_ipv4 (s : bytes) : option bytes := Pools.octets (split_on "."%byte s).

Definition parse_group : bytes -> option Z := from_str_radix 16 U16_MAX.
Definition parse_groups (segs : list bytes) : option (list Z) := mapM parse_group segs.

(** No group for an empty side of [::]. *)
Definition groups_of (part : bytes) : list bytes :=
  match part with [] => [] | _ => split_on COLON part end.

Definition group_bytes (groups : list Z) : bytes := flat_map (to_be 2) groups.

(** [8 - left.len() - right.len()] is a [usize] subtraction. *)
Definition parse_ipv6 {E} (s : bytes) : res E (option bytes) :=
  if negb (contains COLON s) then Ok None else
  match split_double s with
  | [_] =>
      let segs := split_on COLON s in
      if negb (len segs =? 8) then Ok None else Ok (group_bytes <$> parse_groups segs)
  | [l; r] =>
      let left := groups_of l in
      let right := groups_of r in
      let zeros := 8 - len left - len right in
      if zeros <? 0 then Panic else
      Ok (match parse_groups left, parse_groups right with
          | Some gl, Some gr => Some (group_bytes (gl ++ replicate (Z.to_nat zeros) 0 ++ gr))
          | _, _ => None
          end)
  | _ => Ok None
  end.

(** The two branches on an address text: what to do with IPv4 octets, with IPv6 octets, or
    with neither. *)
Definition by_family {E A} (ip : bytes) (v4 : bytes -> res E A) (v6 : bytes -> res E A) (none : res E A) : res E A :=
  match parse_ipv4 ip with
  | Some octets => v4 octets
  | None =>
      let* o := parse_ipv6 ip in
      match o with Some octets => v6 octets | None => none end
  end.

Definition inet_entry (family : Z) (octets : bytes) (port : Z) : bytes := [b8 family] ++ octets ++ to_be 2 port.

Definition serialize_inet_address {E} (ip : bytes) (prefix : Z) : res E bytes :=
  by_family ip (fun o => Ok (inet_entry 4 o prefix)) (fun o => Ok (inet_entry 6 o prefix)) (Ok []).

(** [for x in xs { buf.extend(f(x)) }]. *)
Fixpoint extend_all {E A} (f : A -> res E bytes) (xs : list A) : res E bytes :=
  match xs with
  | [] => Ok []
  | x :: xs => let* a := f x in let* b := extend_all f xs in Ok (a ++ b)
  end.

Definition serialize_ip_assignments {E} (ips : list bytes) : res E bytes :=
  extend_all (fun ip_str =>
    match parse_ip_prefix ip_str with
    | Some (addr, prefix) => serialize_inet_address addr prefix
    | None => Ok []
    end) ips.

(** [!0u32 << (32 - prefix)] on u8 and u32. *)
Definition apply_ipv4_mask {E} (octets : bytes) (prefix : Z) : res E bytes :=
  if prefix =? 0 then Ok (to_be 4 (Z.land (from_be octets) 0)) else
  if 32 <? prefix then Panic else
  Ok (to_be 4 (Z.land (from_be octets) (wrap 32 (Z.shiftl 0xFFFFFFFF (32 - prefix))))).

Definition mask_byte (prefix bit_pos : Z) (b : byte) : byte :=
  if prefix <=? bit_pos then b8 0
  else if prefix <? bit_pos + 8 then
    b8 (Z.land (u8 b) (wrap 8 (Z.shiftl 0xFF (8 - (prefix - bit_pos)))))
  else b.

Definition apply_ipv6_mask (octets : bytes) (prefix : Z) : bytes :=
  imap (fun i b => mask_byte prefix (Z.of_nat i * 8) b) octets.

(** Null gateway, no flags, metric 0. *)
Definition null_via : bytes := [b8 0].
Definition flags_metric : bytes := to_be 2 0 ++ to_be 2 0.

Definition serialize_via {E} (via : option bytes) : res E bytes :=
  match via with
  | Some via_str => by_family via_str (fun o => Ok (inet_entry 4 o 0)) (fun o => Ok (inet_entry 6 o 0)) (Ok null_via)
  | None => Ok null_via
  end.

Definition serialize_managed_route {E} (route : ManagedRoute) : res E bytes :=
  match parse_ip_prefix (mr_target route) with
  | None => Ok []
  | Some (target, prefix) =>
      let entry t := let* via := serialize_via (mr_via route) in Ok (t ++ via ++ flags_metric) in
      by_family target (fun o => entry (inet_entry 4 o prefix)) (fun o => entry (inet_entry 6 o prefix)) (Ok [])
  end.

Definition serialize_route_from_ip {E} (ip_str : bytes) : res E bytes :=
  match parse_ip_prefix ip_str with
  | None => Ok []
  | Some (addr, prefix) =>
      by_family addr
        (fun o => let* network := apply_ipv4_mask o prefix in
                  Ok (inet_entry 4 network prefix ++ null_via ++ flags_metric))
        (fun o => Ok (inet_entry 6 (apply_ipv6_mask o prefix) prefix ++ null_via ++ flags_metric))
        (Ok [])
  end.

Definition serialize_routes_from_ips {E} (ips : list bytes) : res E bytes := extend_all serialize_route_from_ip ips.

Definition serialize_routes {E} (managed : list ManagedRoute) (assignments : list bytes) : res E bytes :=
  let* a := extend_all serialize_managed_route managed in
  let* b := serialize_routes_from_ips assignments in
  Ok (a ++ b).

(** [com.serialize(&mut buf)] in a buffer of the size of the certificate; the serializer has
    no error result. *)
Definition serialize_com {E} (com : CertificateOfMembership) : res E bytes :=
  let size := 1 + 2 + len (com_qualifiers com) * 24 + 5
              + (if bool_decide (com_signer_address com = replicate 5 (b8 0)) then 0 else 96) in
  match Com.serialize com (replicate (Z.to_nat size) (b8 0)) with
  | Ok (written, buf) => Ok (take (Z.to_nat written) buf)
  | _ => Panic
  end.

Definition serialize_rules_allow_all : bytes := [b8 0x01; b8 0x00].

Definition format_address (addr : bytes) : bytes := flat_map (fun b => format_hex_pad 2 (u8 b)) addr.

(** [if !x.is_empty() { dict.add_binary(key, x) }]. *)
Definition add_nonempty (d : Dictionary) (key data : bytes) : Dictionary :=
  match data with [] => d | _ => Dict.add_binary d key data end.

Definition build_network_config {E} (network : NetworkRecord) (member : MemberRecord) (routes : list ManagedRoute)
    (com : CertificateOfMembership) (now_ms : Z) (capabilities_raw tags_raw : bytes) : res E bytes :=
  let dict := Dict.new in
  let dict := Dict.add_text dict (str "nwid") (format_hex_pad 16 (n_id network)) in
  let dict := Dict.add_text dict (str "n") (n_name network) in
  let net_type := if n_private network then 0 else 1 in
  let dict := Dict.add_hex dict (str "t") net_type in
  let dict := Dict.add_hex dict (str "v") 7 in
  let dict := Dict.add_hex dict (str "ts") now_ms in
  let dict := Dict.add_hex dict (str "r") (n_revision network) in
  let dict := Dict.add_text dict (str "id") (format_address (m_node_id member)) in
  let dict := Dict.add_hex dict (str "f") 0 in
  let dict := Dict.add_int dict (str "mtu") (n_mtu network) in
  let dict := Dict.add_hex dict (str "ml") (n_multicast_limit network) in
  let dict := Dict.add_hex dict (str "ctmd") 1800000 in
  let* com_raw := serialize_com com in
  let dict := Dict.add_binary dict (str "C") com_raw in
  let dict := Dict.add_binary dict (str "R")
    (match n_rules network with [] => serialize_rules_allow_all | rules => Rules.serialize_rules rules end) in
  let* dict :=
    match m_ip_assignments member with
    | [] => Ok dict
    | ips => let* raw := serialize_ip_assignments ips in Ok (Dict.add_binary dict (str "I") raw)
    end in
  let* rt := serialize_routes routes (m_ip_assignments member) in
  let dict := Dict.add_binary dict (str "RT") rt in
  let dict := add_nonempty dict (str "CAP") capabilities_raw in
  let dict := add_nonempty dict (str "TAG") tags_raw in
  Ok (Dict.serialize dict).

(** ** Subnet masks *)

Lemma land_high x w k : 0 <= x < 2 ^ w -> 0 <= k <= w ->
  Z.land x (wrap w (Z.shiftl (2 ^ w - 1) k)) = x / 2 ^ k * 2 ^ k.
Proof.
  intros Hx Hk. rewrite <- Z.shiftr_div_pow2, <- Z.shiftl_mul_pow2 by lia.
  replace (2 ^ w - 1) with (Z.ones w) by (rewrite Z.ones_equiv; lia).
  apply Z.bits_inj'. intros i Hi. rewrite Z.land_spec. unfold wrap.
  destruct (Z.lt_ge_cases i w) as [Hw|Hw].
  - rewrite Z.mod_pow2_bits_low by done. destruct (Z.lt_ge_cases i k).
    + by rewrite !Z.shiftl_spec_low, andb_false_r by lia.
    + rewrite !Z.shiftl_spec by lia. rewrite Z.ones_spec_low, andb_true_r, Z.shiftr_spec by lia. f_equal. lia.
  - rewrite Z.mod_pow2_bits_high, andb_false_r by lia. rewrite Z.shiftl_spec, Z.shiftr_spec by lia.
    replace (i - k + k) with i by lia. symmetry.
    destruct (decide (x = 0)) as [->|]; [apply Z.bits_0|].
    apply Z.bits_above_log2; [lia|]. apply Z.log2_lt_pow2; [lia|]. eapply Z.lt_le_trans; [apply Hx|].
    apply Z.pow_le_mono_r; lia.
Qed.

Lemma ipv4_mask {E} o p : len o = 4 -> 0 <= p <= 32 ->
  exists r, @apply_ipv4_mask E o p = Ok r /\ len r = 4 /\
    from_be r = from_be o / 2 ^ (32 - p) * 2 ^ (32 - p).
Proof.
  intros Ho Hp. pose proof (from_be_range o) as Hr. rewrite Ho in Hr. change (256 ^ 4) with (2 ^ 32) in Hr.
  assert (forall z, 0 <= z < 2 ^ 32 -> from_be (to_be 4 z) = z) as Hz by (intros; by apply from_be_to_be_small).
  unfold apply_ipv4_mask. destruct (p =? 0) eqn:E0.
  - eexists. split; [done|]. split; [apply len_to_be4|]. rewrite Z.land_0_r, Hz by lia.
    replace (32 - p) with 32 by lia. by rewrite Z.div_small by lia.
  - rewrite if_false by lia. eexists. split; [done|]. split; [apply len_to_be4|].
    change 0xFFFFFFFF with (2 ^ 32 - 1). rewrite land_high by lia. apply Hz.
    pose proof (Z.pow_pos_nonneg 2 (32 - p)). pose proof (Z.mul_div_le (from_be o) (2 ^ (32 - p))).
    pose proof (Z.div_pos (from_be o) (2 ^ (32 - p))). nia.
Qed.

Lemma len_imap {A B} (f : nat -> A -> B) l : len (imap f l) = len l.
Proof. unfold len. by rewrite length_imap. Qed.

Lemma div_shift x y k : 0 <= k -> (x * 256 + y) / (2 ^ k * 256) = (x + y / 256) / 2 ^ k.
Proof.
  intros Hk. pose proof (Z.pow_pos_nonneg 2 k). rewrite (Z.mul_comm (2 ^ k)), <- Z.div_div by lia.
  by rewrite Z.div_add_l by lia.
Qed.

Lemma mask_bytes o p : 0 <= p ->
  let k := Z.max 0 (8 * len o - p) in
  from_be (imap (fun i b => mask_byte p (Z.of_nat i * 8) b) o) = from_be o / 2 ^ k * 2 ^ k.
Proof.
  intros Hp. induction o as [|b l IH] using rev_ind; [done|]. cbv zeta in *.
  rewrite imap_app. cbn [imap]. rewrite !from_be_snoc, IH, len_app. change (len [b]) with 1.
  pose proof (u8_range b) as Hb. unfold mask_byte, compose. rewrite Nat.add_0_r.
  change (Z.of_nat (length l)) with (len l). pose proof (len_nonneg l).
  destruct (p <=? len l * 8) eqn:E1.
  - replace (Z.max 0 (8 * (len l + 1) - p)) with (Z.max 0 (8 * len l - p) + 8) by lia.
    rewrite Z.pow_add_r by lia. change (2 ^ 8) with 256. rewrite div_shift by lia.
    rewrite (Z.div_small (u8 b) 256) by lia. change (u8 (b8 0)) with 0. rewrite !Z.add_0_r. ring.
  - replace (Z.max 0 (8 * len l - p)) with 0 by lia. rewrite Z.pow_0_r, Z.div_1_r, Z.mul_1_r.
    destruct (p <? len l * 8 + 8) eqn:E2.
    + replace (Z.max 0 (8 * (len l + 1) - p)) with (8 - (p - len l * 8)) by lia.
      set (k := 8 - (p - len l * 8)). change 0xFF with (2 ^ 8 - 1). rewrite land_high by lia.
      assert (256 = 2 ^ (8 - k) * 2 ^ k) as H256 by (rewrite <- Z.pow_add_r by lia; by replace (8 - k + k) with 8 by lia).
      pose proof (Z.pow_pos_nonneg 2 k ltac:(lia) ltac:(lia)).
      assert ((from_be l * 256 + u8 b) / 2 ^ k = from_be l * 2 ^ (8 - k) + u8 b / 2 ^ k) as ->
        by (rewrite H256, Z.mul_assoc, Z.div_add_l by lia; done).
      rewrite u8_b8, Z.mul_add_distr_r, <- Z.mul_assoc, <- H256, Z.mod_small; [done|].
      pose proof (Z.mul_div_le (u8 b) (2 ^ k)). pose proof (Z.div_pos (u8 b) (2 ^ k)). nia.
    + replace (Z.max 0 (8 * (len l + 1) - p)) with 0 by lia. by rewrite Z.pow_0_r, Z.div_1_r, Z.mul_1_r.
Qed.

(** ** Which texts the builder can take *)

Lemma parse_groups_len segs gs : parse_groups segs = Some gs -> length gs = length segs.
Proof. intros H%mapM_Some. by apply Forall2_length in H. Qed.

Lemma len_group_bytes gs : len (group_bytes gs) = 2 * len gs.
Proof. unfold group_bytes. induction gs as [|g gs IH]; [done|]. cbn [flat_map]. rewrite len_app, IH. len_lia. Qed.

(** The parse ends for any text but one with a [::] and more than eight groups. *)
Definition v6_fits (s : bytes) : Prop := @parse_ipv6 unit s <> Panic.

Lemma parse_ipv6_safe {E} s : v6_fits s ->
  wp (@parse_ipv6 E s) (fun o => match o with Some b => len b = 16 | None => True end) (fun _ => False).
Proof.
  unfold v6_fits, parse_ipv6. destruct (negb _); [done|].
  destruct (split_double s) as [|l [|r [|]]]; try done.
  - intros _. destruct (negb _) eqn:E8; [done|]. simpl. destruct (parse_groups _) as [gs|] eqn:Eg; [|done].
    apply parse_groups_len in Eg. simpl. rewrite len_group_bytes. unfold len in *. zlia.
  - destruct (_ <? 0) eqn:Ez; [done|]. intros _. simpl.
    destruct (parse_groups (groups_of l)) as [gl|] eqn:El; [|done].
    destruct (parse_groups (groups_of r)) as [gr|] eqn:Er; [|done].
    apply parse_groups_len in El, Er. rewrite len_group_bytes, !len_app, len_replicate. unfold len in *. zlia.
Qed.

Lemma parse_ipv4_len s o : parse_ipv4 s = Some o -> len o = 4.
Proof. apply Pools.octets_len. Qed.

Definition addr_ok (ip : bytes) : Prop := parse_ipv4 ip = None -> v6_fits ip.

Lemma wp_by_family {E A} ip v4 v6 none (Q : A -> Prop) (R : E -> Prop) : addr_ok ip ->
  (forall o, parse_ipv4 ip = Some o -> len o = 4 -> wp (v4 o) Q R) -> (forall o, len o = 16 -> wp (v6 o) Q R) ->
  wp none Q R -> wp (by_family ip v4 v6 none) Q R.
Proof.
  intros Ha H4 H6 Hn. unfold by_family. destruct (parse_ipv4 ip) as [o|] eqn:E4.
  - apply H4; [done|by eapply parse_ipv4_len].
  - apply wp_bind. eapply wp_mono; [by apply parse_ipv6_safe, Ha| |done]. intros [o|] Ho; auto.
Qed.

Lemma wp_extend_all {E A} (f : A -> res E bytes) xs (Q : A -> Prop) : Forall Q xs ->
  (forall x, Q x -> wp (f x) (fun _ => True) (fun _ => False)) ->
  wp (extend_all f xs) (fun _ => True) (fun _ => False).
Proof.
  intros Hx Hf. induction Hx as [|x xs Hx _ IH]; [done|]. cbn [extend_all].
  apply wp_bind. eapply wp_mono; [by apply Hf| |done]. intros a _.
  apply wp_bind. eapply wp_mono; [exact IH| |done]. by intros b _.
Qed.

(** An address text the builder can parse, with an IPv4 prefix of at most 32. *)
Definition address_part (s : bytes) : bytes :=
  match split_once SLASH s with Some (ip, _) => ip | None => s end.
Definition assignment_ok (s : bytes) : Prop :=
  addr_ok (address_part s) /\
  match parse_ip_prefix s with Some (ip, p) => is_Some (parse_ipv4 ip) -> p <= 32 | None => True end.
Definition route_ok (r : ManagedRoute) : Prop :=
  match parse_ip_prefix (mr_target r) with
  | None => True
  | Some (ip, _) => addr_ok ip /\ match mr_via r with Some v => addr_ok v | None => True end
  end.

Lemma parse_ip_prefix_range s ip p : parse_ip_prefix s = Some (ip, p) -> 0 <= p <= 255.
Proof.
  unfold parse_ip_prefix. destruct (split_once _ _) as [[a b]|].
  - destruct (parse_u8 b) as [q|] eqn:E; [|done]. intros [= <- <-].
    apply from_str_range in E; lia.
  - case_match; intros [= <- <-]; lia.
Qed.

Lemma parse_ip_prefix_part s ip p : parse_ip_prefix s = Some (ip, p) -> ip = address_part s.
Proof.
  unfold parse_ip_prefix, address_part. destruct (split_once _ _) as [[a b]|].
  - destruct (parse_u8 b); [|done]. by intros [= <- _].
  - by case_match; intros [= <- _].
Qed.

Lemma wp_inet_address {E} ip p : addr_ok ip ->
  wp (@serialize_inet_address E ip p) (fun _ => True) (fun _ => False).
Proof. intros. by apply wp_by_family. Qed.

Lemma wp_ip_assignments {E} ips : Forall assignment_ok ips ->
  wp (@serialize_ip_assignments E ips) (fun _ => True) (fun _ => False).
Proof.
  intros H. eapply wp_extend_all; [exact H|]. intros s [Ha _].
  destruct (parse_ip_prefix s) as [[ip p]|] eqn:E1; [|done].
  apply parse_ip_prefix_part in E1 as ->. by apply wp_inet_address.
Qed.

Lemma wp_routes {E} managed ips : Forall route_ok managed -> Forall assignment_ok ips ->
  wp (@serialize_routes E managed ips) (fun _ => True) (fun _ => False).
Proof.
  intros Hm Hi. unfold serialize_routes. apply wp_bind, (wp_mono _ (fun _ => True) _ (fun _ => False)); [|intros a _|done].
  - eapply wp_extend_all; [exact Hm|]. intros r Hr. unfold route_ok in Hr. unfold serialize_managed_route.
    destruct (parse_ip_prefix _) as [[ip p]|]; [|done]. destruct Hr as [Ha Hv].
    assert (wp (@serialize_via E (mr_via r)) (fun _ => True) (fun _ => False)) as Hvia.
    { unfold serialize_via. destruct (mr_via r); [by apply wp_by_family|done]. }
    apply wp_by_family; try done; intros; apply wp_bind; (eapply wp_mono; [exact Hvia|done|done]).
  - apply wp_bind, (wp_mono _ (fun _ => True) _ (fun _ => False)); [|by intros b _|done].
    eapply wp_extend_all; [exact Hi|]. intros s [Ha Hp]. unfold serialize_route_from_ip.
    destruct (parse_ip_prefix s) as [[ip p]|] eqn:E1; [|done].
    pose proof (parse_ip_prefix_range _ _ _ E1). apply parse_ip_prefix_part in E1 as ->. apply wp_by_family; try done. intros o Ho Hl.
    rewrite Ho in Hp. destruct (@ipv4_mask E o p Hl) as (r & -> & _); [split; [lia|]; by apply Hp|]. done.
Qed.

(** What automatic assignment records is such a text. *)
Lemma split_once_app c a b : c ∉ a -> split_once c (a ++ c :: b) = Some (a, b).
Proof.
  induction a as [|x a IH]; cbn [app split_once].
  - by rewrite bool_decide_true.
  - intros [? ?]%not_elem_of_cons. rewrite bool_decide_false by congruence. by rewrite IH.
Qed.

Lemma format_assignment_ok ip : len ip = 4 -> assignment_ok (Pools.format_ipv4 ip ++ str "/24").
Proof.
  intros Hl. destruct (Pools.no_slash ip) as [Hs _]. destruct (Pools.parse_format ip [] Hl) as [Hp _].
  assert (split_once SLASH (Pools.format_ipv4 ip ++ str "/24") = Some (Pools.format_ipv4 ip, str "24")) as E
    by by apply split_once_app.
  assert (parse_ipv4 (Pools.format_ipv4 ip) = Some ip) as E4.
  { unfold Pools.parse_ipv4_from_assignment, Pools.before_slash in Hp. by rewrite (split_on_single "/"%byte) in Hp. }
  unfold assignment_ok, address_part, parse_ip_prefix. rewrite E. split.
  - intros H. by rewrite E4 in H.
  - intros _. by vm_compute.
Qed.

Lemma serialize_com_ok {E} com : Com.shape com -> @serialize_com E com = Ok (Com.encode com).
Proof.
  intros Hc. unfold serialize_com.
  assert (len (Com.encode com) = 1 + 2 + len (com_qualifiers com) * 24 + 5
    + (if bool_decide (com_signer_address com = replicate 5 (b8 0)) then 0 else 96)) as Hl.
  { destruct Hc as (_ & Ha & Hs). unfold Com.encode, Com.signed, Com.zeros. change "000"%byte with (b8 0).
    rewrite !len_app, Com.len_quals, Ha, len_to_be2. case_bool_decide; simpl; rewrite ?Hs; len_lia. }
  rewrite (emits_ok _ _ _ _ (Com.com_serialize_emits com Hc)).
  - do 2 f_equal. apply take_app_length'. unfold len. lia.
  - rewrite len_replicate. rewrite <- Hl. pose proof (len_nonneg (Com.encode com)). lia.
Qed.

Lemma format_address_hex addr : format_address addr = Hex.encode addr.
Proof.
  induction addr as [|b addr IH]; [done|]. unfold format_address. cbn [flat_map]. fold (format_address addr).
  rewrite Hex.encode_cons, IH. assert (format_hex_pad 2 (u8 b) = [byte_at Hex.HEX_CHARS (Z.to_nat (Z.shiftr (u8 b) 4));
    byte_at Hex.HEX_CHARS (Z.to_nat (Z.land (u8 b) 0x0f))]) as -> by (by destruct b). done.
Qed.

(** Derived routes: the network address written for an assignment keeps exactly the first
    [prefix] bits of the address and clears the others, for both families and every prefix
    up to the address width; an IPv4 prefix above 32 is the one panic. *)
Theorem route_mask_spec (octets : bytes) (prefix : Z) : 0 <= prefix <= 255 ->
  (len octets = 4 ->
   match @apply_ipv4_mask unit octets prefix with
   | Ok r => prefix <= 32 /\ len r = 4 /\ from_be r = from_be octets / 2 ^ (32 - prefix) * 2 ^ (32 - prefix)
   | Panic => 32 < prefix
   | _ => False
   end) /\
  (len octets = 16 ->
   let r := apply_ipv6_mask octets prefix in
   let k := Z.max 0 (128 - prefix) in
   len r = 16 /\ from_be r = from_be octets / 2 ^ k * 2 ^ k).
Proof.
  intros Hp. split; intros Hl.
  - destruct (decide (prefix <= 32)) as [Hle|Hgt].
    + destruct (@ipv4_mask unit octets prefix Hl ltac:(lia)) as (r & -> & ? & ?). done.
    + unfold apply_ipv4_mask. rewrite if_false, if_true by lia. lia.
  - cbv zeta. split; [unfold apply_ipv6_mask; by rewrite len_imap|].
    unfold apply_ipv6_mask. rewrite mask_bytes by lia. by rewrite Hl.
Qed.

Lemma route_mask_spec_witness :
  @apply_ipv4_mask unit (map b8 [192; 168; 77; 5]) 20 = Ok (map b8 [192; 168; 64; 0]) /\
  from_be (apply_ipv6_mask (map b8 [0xfd] ++ replicate 15 (b8 0xff)) 12) =
    from_be (map b8 [0xfd] ++ replicate 15 (b8 0xff)) / 2 ^ 116 * 2 ^ 116.
Proof.
  split; [vm_compute; reflexivity|].
  apply (route_mask_spec (map b8 [0xfd] ++ replicate 15 (b8 0xff)) 12); [lia|reflexivity].
Defined.


(** ** The dictionary as a reader sees it *)

Definition optional (key data : bytes) : list DictEntry :=
  match data with [] => [] | _ => [mkEntry key data] end.

Definition rules_raw (network : NetworkRecord) : bytes :=
  match n_rules network with [] => serialize_rules_allow_all | rules => Rules.serialize_rules rules end.

(** The entries of the configuration, given the bytes of the [I] and [RT] keys. *)
Definition config_entries (network : NetworkRecord) (member : MemberRecord) (com : CertificateOfMembership)
    (now_ms : Z) (i_raw : option bytes) (rt_raw capabilities_raw tags_raw : bytes) : list DictEntry :=
  [mkEntry (str "nwid") (format_hex_pad 16 (n_id network)); mkEntry (str "n") (n_name network);
   mkEntry (str "t") (format_hex (if n_private network then 0 else 1)); mkEntry (str "v") (format_hex 7);
   mkEntry (str "ts") (format_hex now_ms); mkEntry (str "r") (format_hex (n_revision network));
   mkEntry (str "id") (format_address (m_node_id member)); mkEntry (str "f") (format_hex 0);
   mkEntry (str "mtu") (format_hex (n_mtu network)); mkEntry (str "ml") (format_hex (n_multicast_limit network));
   mkEntry (str "ctmd") (format_hex 1800000); mkEntry (str "C") (Com.encode com);
   mkEntry (str "R") (rules_raw network)]
  ++ match i_raw with Some raw => [mkEntry (str "I") raw] | None => [] end
  ++ mkEntry (str "RT") rt_raw :: optional (str "CAP") capabilities_raw ++ optional (str "TAG") tags_raw.

(** The bytes of the [I] key. *)
Definition i_entry_of (E : Type) (member : MemberRecord) (i_raw : option bytes) : Prop :=
  exists raw, @serialize_ip_assignments E (m_ip_assignments member) = Ok raw /\
    i_raw = match m_ip_assignments member with [] => None | _ => Some raw end.

(** The build succeeds and is the serialization of those entries. *)
Lemma build_config {E} network member routes com now_ms caps tags :
  Forall assignment_ok (m_ip_assignments member) -> Forall route_ok routes -> Com.shape com ->
  exists i_raw rt_raw,
    i_entry_of E member i_raw /\
    @serialize_routes E routes (m_ip_assignments member) = Ok rt_raw /\
    @build_network_config E network member routes com now_ms caps tags =
      Ok (Dict.serialize (mkDictionary (config_entries network member com now_ms i_raw rt_raw caps tags))).
Proof.
  intros Hi Hr Hc. pose proof (@wp_ip_assignments E _ Hi) as Wi. pose proof (@wp_routes E _ _ Hr Hi) as Wr.
  destruct (serialize_ip_assignments (m_ip_assignments member)) as [i_raw| | |] eqn:Ei; try done.
  destruct (serialize_routes routes (m_ip_assignments member)) as [rt_raw| | |] eqn:Er; try done.
  exists (match m_ip_assignments member with [] => None | _ => Some i_raw end), rt_raw.
  split; [by exists i_raw|]. split; [done|].
  unfold build_network_config. rewrite serialize_com_ok, rbind_ok by done. rewrite Er.
  unfold config_entries, rules_raw, optional, add_nonempty.
  destruct (m_ip_assignments member) as [|ip ips].
  - rewrite !rbind_ok. destruct caps, tags; reflexivity.
  - rewrite Ei, !rbind_ok. destruct caps, tags; reflexivity.
Qed.

Lemma config_wf network member com now_ms i_raw rt_raw caps tags :
  Dict.wf (mkDictionary (config_entries network member com now_ms i_raw rt_raw caps tags)).
Proof.
  unfold Dict.wf, Dict.key_ok, config_entries, optional.
  destruct i_raw, caps, tags; cbn [entries app]; repeat constructor; by apply (bool_decide_unpack _).
Qed.

Lemma config_wf_ext network member com now_ms i_raw rt_raw caps tags extra :
  Dict.wf (mkDictionary (config_entries network member com now_ms i_raw rt_raw caps tags
                         ++ optional (str "PM") extra)).
Proof.
  apply (Forall_app_2 _ (config_entries network member com now_ms i_raw rt_raw caps tags)); [apply config_wf|].
  unfold optional. destruct extra; [constructor|]. constructor; [|constructor].
  unfold Dict.key_ok. split_and!; by apply (bool_decide_unpack _).
Qed.

(** What a member reads in a configuration [d]. *)
Record config_says {E} (d : Dictionary) (network : NetworkRecord) (member : MemberRecord) (routes : list ManagedRoute)
    (com : CertificateOfMembership) (now_ms : Z) (caps tags : bytes) : Prop := {
  says_nwid : Dict.get_hex_u64 d (str "nwid") = Some (n_id network);
  says_name : Dict.get_text d (str "n") = Some (n_name network);
  says_type : Dict.get_hex_u64 d (str "t") = Some (if n_private network then 0 else 1);
  says_ts : Dict.get_hex_u64 d (str "ts") = Some now_ms;
  says_revision : Dict.get_hex_u64 d (str "r") = Some (n_revision network);
  says_id : Dict.get_text d (str "id") = Some (Hex.encode (m_node_id member));
  says_mtu : Dict.get_hex_u64 d (str "mtu") = Some (n_mtu network);
  says_ml : Dict.get_hex_u64 d (str "ml") = Some (n_multicast_limit network);
  says_com : Dict.get_binary d (str "C") = Some (Com.encode com);
  says_rules : Dict.get_binary d (str "R") = Some (rules_raw network);
  says_ips : exists raw, @serialize_ip_assignments E (m_ip_assignments member) = Ok raw /\
    Dict.get_binary d (str "I") = match m_ip_assignments member with [] => None | _ => Some raw end;
  says_routes : exists raw, @serialize_routes E routes (m_ip_assignments member) = Ok raw /\
    Dict.get_binary d (str "RT") = Some raw;
  says_no_legacy : Dict.get_text d (str "v4s") = None /\ Dict.get_text d (str "v6s") = None;
  says_caps : Dict.get_binary d (str "CAP") = match caps with [] => None | _ => Some caps end;
  says_tags : Dict.get_binary d (str "TAG") = match tags with [] => None | _ => Some tags end;
}.

(** Field widths of a stored network. *)
Definition network_ok (n : NetworkRecord) : Prop :=
  u64_ok (n_id n) /\ utf8_valid (n_name n) = true /\ u64_ok (n_revision n) /\ u16_ok (n_mtu n) /\
  u32_ok (n_multicast_limit n).

Lemma get_text_find d key v : Dict.find_entry d key = Some (mkEntry key v) -> utf8_valid v = true ->
  Dict.get_text d key = Some v.
Proof. intros Hf Hv. unfold Dict.get_text. rewrite Hf. unfold Dict.value_as_text. simpl. by rewrite Hv. Qed.

(** A further entry under the key [PM] changes none of it. *)
Lemma entries_say {E} network member routes com now_ms i_raw rt_raw caps tags extra :
  network_ok network -> u64_ok now_ms -> i_entry_of E member i_raw ->
  @serialize_routes E routes (m_ip_assignments member) = Ok rt_raw ->
  @config_says E (mkDictionary (config_entries network member com now_ms i_raw rt_raw caps tags
                             ++ optional (str "PM") extra))
    network member routes com now_ms caps tags.
Proof.
  intros (Hid & Hname & Hrev & Hmtu & Hml) Hnow (raw & Hraw & Hi) Hrt.
  unfold u16_ok, u32_ok, U16_MAX, U32_MAX in *.
  assert (u64_ok (n_mtu network) /\ u64_ok (n_multicast_limit network)) as [? ?] by (unfold u64_ok, U64_MAX; lia).
  constructor.
  - unfold Dict.get_hex_u64. rewrite (get_text_find _ _ (format_hex_pad 16 (n_id network))); [by apply from_str_pad|done|].
    apply utf8_ascii, ascii_pad.
  - by apply get_text_find.
  - apply Dict.get_hex_format; [by destruct (n_private network)|reflexivity].
  - by apply Dict.get_hex_format.
  - by apply Dict.get_hex_format.
  - rewrite <- format_address_hex. apply get_text_find; [reflexivity|]. apply utf8_ascii.
    unfold format_address. induction (m_node_id member); [constructor|]. cbn [flat_map]. apply Forall_app.
    split; [apply ascii_pad|done].
  - by apply Dict.get_hex_format.
  - by apply Dict.get_hex_format.
  - reflexivity.
  - reflexivity.
  - exists raw. split; [done|]. rewrite <- Hi. unfold config_entries, optional.
    destruct i_raw, caps, tags, extra; reflexivity.
  - exists rt_raw. split; [done|]. unfold config_entries, optional. destruct i_raw; reflexivity.
  - unfold config_entries, optional. destruct i_raw, caps, tags, extra; split; reflexivity.
  - unfold config_entries, optional. destruct i_raw, caps, tags, extra; reflexivity.
  - unfold config_entries, optional. destruct i_raw, caps, tags, extra; reflexivity.
Qed.

Lemma get_directory network member com now_ms i_raw rt_raw caps tags dir : dir <> [] ->
  Dict.get_binary (mkDictionary (config_entries network member com now_ms i_raw rt_raw caps tags
                                 ++ optional (str "PM") dir)) (str "PM") = Some dir.
Proof. intros Hd. unfold config_entries, optional. destruct i_raw, caps, tags, dir; done || reflexivity. Qed.

(** A configuration a controller builds, for any network, any member whose assignments
    are addresses with a possible prefix, and any routes, is built without a panic and parses
    back to a dictionary that says what the records say: ids, name, type, revision, limits,
    the certificate and the rules, with the optional keys present exactly when there is
    something to say. *)
Theorem network_config_readable network member routes com now_ms caps tags :
  network_ok network -> u64_ok now_ms -> Forall assignment_ok (m_ip_assignments member) ->
  Forall route_ok routes -> Com.shape com ->
  exists raw d, @build_network_config unit network member routes com now_ms caps tags = Ok raw /\
    Dict.deserialize raw = Ok d /\ @config_says unit d network member routes com now_ms caps tags.
Proof.
  intros Hn Hnow Hi Hr Hc.
  destruct (@build_config unit network member routes com now_ms caps tags Hi Hr Hc) as (i_raw & rt_raw & He & Hrt & ->).
  eexists _, _. split; [done|]. split; [apply Dict.deserialize_serialize, config_wf|].
  rewrite <- (app_nil_r (config_entries _ _ _ _ _ _ _ _)). by apply (entries_say _ _ _ _ _ _ _ _ _ []).
Qed.

Definition sample_network : NetworkRecord :=
  mkNetworkRecord 0x8056c2e21c000001 (str "lab") true 1 1 32 2800 (str "zt") (str "none") [] [] [] true.
Definition sample_member : MemberRecord :=
  mkMemberRecord 0x8056c2e21c000001 (map b8 [1; 2; 3; 4; 5]) true [str "10.0.0.7/24"; str "fd00::7/64"] 1 1 [] 1 0 0
    false false [] [].
Definition sample_cert : CertificateOfMembership :=
  mkCom (map b8 [1; 2; 3; 4; 5]) [mkComQualifier 0 5 6] (replicate 5 (b8 9)) (replicate 96 (b8 1)).

Lemma network_config_readable_witness :
  exists raw d, @build_network_config unit sample_network sample_member [mkManagedRoute (str "10.1.0.0/16") (Some (str "10.0.0.1"))]
      sample_cert 77 [] [b8 1] = Ok raw /\
    Dict.deserialize raw = Ok d /\ @config_says unit d sample_network sample_member
      [mkManagedRoute (str "10.1.0.0/16") (Some (str "10.0.0.1"))] sample_cert 77 [] [b8 1].
Proof.
  apply network_config_readable.
  - unfold network_ok, u64_ok, u32_ok, u16_ok, U64_MAX, U32_MAX, U16_MAX. simpl. repeat split; lia.
  - unfold u64_ok, U64_MAX. lia.
  - repeat constructor; try discriminate; simpl; by intros [? ?].
  - repeat constructor; discriminate.
  - unfold Com.shape, Com.qualifier_ok, u64_ok, U64_MAX. simpl. repeat constructor; simpl; lia.
Defined.

End Config.
