(* ===== verification/RuleJson.v ===== *)
(** * RuleJson: rules as the REST API writes and reads them (zerotier-service:
    api/controller.rs; rule_type_name of controller/rules.rs).

    JSON values are a parameter, [JsonValue], with what the API relies on in [JsonValueLaws]. *)
From S2P Require Export Config IpDisplay.

(** ** serde_json::Value *)

Class JsonValue (V : Type) := {
  object : list (bytes * V) -> V;
  number : Z -> V;
  text : bytes -> V;
  boolean : bool -> V;
  null : V;
  get : V -> bytes -> option V;
  as_u64 : V -> option Z;
  as_str : V -> option bytes;
  as_bool : V -> option bool;
}.

Class JsonValueLaws (V : Type) `{JsonValue V} := {
  get_object l key : NoDup (map fst l) -> get (object l) key = snd <$> find (fun e => bool_decide (e.1 = key)) l;
  as_u64_number z : u64_ok z -> as_u64 (number z) = Some z;
  as_u64_null : as_u64 null = None;
  as_str_text s : as_str (text s) = Some s;
  as_bool_boolean b : as_bool (boolean b) = Some b;
}.

(** A value of the API's shapes. *)
Inductive Value :=
  | VNull
  | VBool (b : bool)
  | VNumber (z : Z)
  | VString (s : bytes)
  | VObject (l : list (bytes * Value)).

#[export] Instance value_json : JsonValue Value := {|
  object := VObject; number := VNumber; text := VString; boolean := VBool; null := VNull;
  get v key := match v with VObject l => snd <$> find (fun e => bool_decide (e.1 = key)) l | _ => None end;
  as_u64 v := match v with VNumber z => if (0 <=? z) && (z <=? U64_MAX) then Some z else None | _ => None end;
  as_str v := match v with VString s => Some s | _ => None end;
  as_bool v := match v with VBool b => Some b | _ => None end;
|}.

#[export] Instance value_json_laws : JsonValueLaws Value.
Proof. split; try done. intros z [? ?]. cbn. by rewrite if_true by lia. Qed.

(** ** types.rs *)

Record RuleResponse (V : Type) := mkRuleResponse {
  rr_rule_type : Z;
  rr_type_name : bytes;
  rr_not : bool;
  rr_or_flag : bool;
  rr_value : bytes;
  rr_fields : option V;
}.
Arguments mkRuleResponse {V}. Arguments rr_rule_type {V}. Arguments rr_type_name {V}. Arguments rr_not {V}.
Arguments rr_or_flag {V}. Arguments rr_value {V}. Arguments rr_fields {V}.

Record CapabilityResponse (V : Type) := mkCapabilityResponse { cr_id : Z; cr_rules : list (RuleResponse V) }.
Arguments mkCapabilityResponse {V}. Arguments cr_id {V}. Arguments cr_rules {V}.

Module RuleJson.

(** ** Identifiers in text *)

Definition format_network_id (id : Z) : bytes := format_hex_pad 16 id.
Definition format_node_id (addr : bytes) : bytes := flat_map (fun b => format_hex_pad 2 (u8 b)) addr.
(** [u64::from_str_radix(hex, 16)]. *)
Definition hex_u64_of (hex : bytes) : option Z := from_str_radix 16 U64_MAX hex.
Definition addr_u64_to_bytes (addr : Z) : bytes := map (fun shift => b8 (Z.shiftr addr shift)) [32; 24; 16; 8; 0].

(** [s.split(':').map(..).collect().ok()]. *)
Fixpoint all_some {A} (l : list (option A)) : option (list A) :=
  match l with
  | [] => Some []
  | o :: l => match o, all_some l with Some a, Some r => Some (a :: r) | _, _ => None end
  end.

(** ** rule_type_name *)

Definition RULE_TYPE_NAMES : list (Z * bytes) :=
  [(ACTION_DROP, str "ACTION_DROP"); (ACTION_ACCEPT, str "ACTION_ACCEPT"); (ACTION_TEE, str "ACTION_TEE");
   (ACTION_WATCH, str "ACTION_WATCH"); (ACTION_REDIRECT, str "ACTION_REDIRECT"); (ACTION_BREAK, str "ACTION_BREAK");
   (ACTION_PRIORITY, str "ACTION_PRIORITY");
   (MATCH_SOURCE_ZEROTIER_ADDRESS, str "MATCH_SOURCE_ZEROTIER_ADDRESS");
   (MATCH_DEST_ZEROTIER_ADDRESS, str "MATCH_DEST_ZEROTIER_ADDRESS"); (MATCH_VLAN_ID, str "MATCH_VLAN_ID");
   (MATCH_VLAN_PCP, str "MATCH_VLAN_PCP"); (MATCH_VLAN_DEI, str "MATCH_VLAN_DEI"); (MATCH_MAC_SOURCE, str "MATCH_MAC_SOURCE");
   (MATCH_MAC_DEST, str "MATCH_MAC_DEST"); (MATCH_IPV4_SOURCE, str "MATCH_IPV4_SOURCE"); (MATCH_IPV4_DEST, str "MATCH_IPV4_DEST");
   (MATCH_IPV6_SOURCE, str "MATCH_IPV6_SOURCE"); (MATCH_IPV6_DEST, str "MATCH_IPV6_DEST"); (MATCH_IP_TOS, str "MATCH_IP_TOS");
   (MATCH_IP_PROTOCOL, str "MATCH_IP_PROTOCOL"); (MATCH_ETHERTYPE, str "MATCH_ETHERTYPE"); (MATCH_ICMP, str "MATCH_ICMP");
   (MATCH_IP_SOURCE_PORT_RANGE, str "MATCH_IP_SOURCE_PORT_RANGE"); (MATCH_IP_DEST_PORT_RANGE, str "MATCH_IP_DEST_PORT_RANGE");
   (MATCH_CHARACTERISTICS, str "MATCH_CHARACTERISTICS"); (MATCH_FRAME_SIZE_RANGE, str "MATCH_FRAME_SIZE_RANGE");
   (MATCH_RANDOM, str "MATCH_RANDOM"); (MATCH_TAGS_DIFFERENCE, str "MATCH_TAGS_DIFFERENCE");
   (MATCH_TAGS_BITWISE_AND, str "MATCH_TAGS_BITWISE_AND"); (MATCH_TAGS_BITWISE_OR, str "MATCH_TAGS_BITWISE_OR");
   (MATCH_TAGS_BITWISE_XOR, str "MATCH_TAGS_BITWISE_XOR"); (MATCH_TAGS_EQUAL, str "MATCH_TAGS_EQUAL");
   (MATCH_TAG_SENDER, str "MATCH_TAG_SENDER"); (MATCH_TAG_RECEIVER, str "MATCH_TAG_RECEIVER");
   (MATCH_INTEGER_RANGE, str "MATCH_INTEGER_RANGE")].

Definition rule_type_name (rule_type : Z) : bytes :=
  match find (fun e => Z.land rule_type 0x3F =? e.1) RULE_TYPE_NAMES with Some (_, name) => name | None => str "UNKNOWN" end.

(** ** rule_fields_to_json and back *)

Section Fields.
Context {V : Type} `{JsonValue V}.

Definition rule_fields_to_json (fields : RuleFields) : V :=
  match fields with
  | Forward address flags length =>
      object [(str "address", text (format_node_id (addr_u64_to_bytes address))); (str "flags", number flags);
              (str "length", number length)]
  | ZtAddress addr => object [(str "zt", text (format_node_id (addr_u64_to_bytes addr)))]
  | VlanId v => object [(str "vlanId", number v)]
  | VlanPcp v => object [(str "vlanPcp", number (u8 v))]
  | VlanDei v => object [(str "vlanDei", number (u8 v))]
  | Mac mac =>
      object [(str "mac", text (format_hex_pad 2 (u8 (nth 0 mac (b8 0))) ++
        flat_map (fun i => [":"%byte] ++ format_hex_pad 2 (u8 (nth i mac (b8 0)))) [1; 2; 3; 4; 5]%nat))]
  | Ipv4 ip mask => object [(str "ip", text (Pools.format_ipv4 ip ++ ["/"%byte] ++ format_dec (u8 mask)))]
  | Ipv6 ip mask => object [(str "ip", text (IpDisplay.display_ipv6 ip ++ ["/"%byte] ++ format_dec (u8 mask)))]
  | IpTos mask start end_ =>
      object [(str "mask", number (u8 mask)); (str "start", number (u8 start)); (str "end", number (u8 end_))]
  | IpProtocol v => object [(str "ipProtocol", number (u8 v))]
  | EtherType v => object [(str "etherType", number v)]
  | Icmp icmp_type icmp_code =>
      object [(str "icmpType", number (u8 icmp_type));
              (str "icmpCode", match icmp_code with Some c => number (u8 c) | None => null end)]
  | PortRange start end_ | FrameSizeRange start end_ => object [(str "start", number start); (str "end", number end_)]
  | Characteristics v => object [(str "mask", text (format_hex_pad 16 v))]
  | RandomProbability v => object [(str "probability", number v)]
  | TagMatch id value => object [(str "id", number id); (str "value", number value)]
  | IntegerRange start end_ idx little bits =>
      object [(str "start", text (format_hex_pad 16 start)); (str "end", text (format_hex_pad 16 end_));
              (str "idx", number idx); (str "little", boolean little); (str "bits", number bits)]
  end.

Definition u (json : V) (key : bytes) : option Z := v ← get json key; as_u64 v.
Definition hex_addr (json : V) (key : bytes) : option Z := v ← get json key; s ← as_str v; hex_u64_of s.
Definition hex_u64 (json : V) (key : bytes) : option Z := v ← get json key; s ← as_str v; hex_u64_of s.
(** [n as u8]. *)
Definition as_u8 (n : Z) : byte := b8 (wrap 8 n).

Definition mac_of (s : bytes) : option RuleFields :=
  bs ← all_some (map (from_str_radix 16 255) (split_on ":"%byte s));
  if negb (len bs =? 6) then None else Some (Mac (map b8 bs)).

(** [s.split_once('/')], then the address and the mask. *)
Definition ip_of (parse : bytes -> option bytes) (make : bytes -> byte -> RuleFields) (s : bytes) : option RuleFields :=
  '(addr, mask) ← Config.split_once "/"%byte s;
  ip ← parse addr;
  mask ← parse_u8 mask;
  Some (make ip (b8 mask)).

Definition rule_fields_from_json (rule_type : Z) (json : V) : option RuleFields :=
  let t := Z.land rule_type 0x3F in
  if Rules.one_of t [ACTION_TEE; ACTION_WATCH; ACTION_REDIRECT] then
    address ← hex_addr json (str "address");
    Some (Forward address (wrap 32 (default 0 (u json (str "flags")))) (wrap 16 (default 0 (u json (str "length")))))
  else if Rules.one_of t [MATCH_SOURCE_ZEROTIER_ADDRESS; MATCH_DEST_ZEROTIER_ADDRESS] then
    addr ← hex_addr json (str "zt"); Some (ZtAddress addr)
  else if t =? MATCH_VLAN_ID then v ← u json (str "vlanId"); Some (VlanId (wrap 16 v))
  else if t =? MATCH_VLAN_PCP then v ← u json (str "vlanPcp"); Some (VlanPcp (as_u8 v))
  else if t =? MATCH_VLAN_DEI then v ← u json (str "vlanDei"); Some (VlanDei (as_u8 v))
  else if Rules.one_of t [MATCH_MAC_SOURCE; MATCH_MAC_DEST] then v ← get json (str "mac"); s ← as_str v; mac_of s
  else if Rules.one_of t [MATCH_IPV4_SOURCE; MATCH_IPV4_DEST] then
    v ← get json (str "ip"); s ← as_str v; ip_of IpText.parse_ipv4_addr Ipv4 s
  else if Rules.one_of t [MATCH_IPV6_SOURCE; MATCH_IPV6_DEST] then
    v ← get json (str "ip"); s ← as_str v; ip_of IpText.parse_ipv6_addr Ipv6 s
  else if t =? MATCH_IP_TOS then
    mask ← u json (str "mask"); start ← u json (str "start"); end_ ← u json (str "end");
    Some (IpTos (as_u8 mask) (as_u8 start) (as_u8 end_))
  else if t =? MATCH_IP_PROTOCOL then v ← u json (str "ipProtocol"); Some (IpProtocol (as_u8 v))
  else if t =? MATCH_ETHERTYPE then v ← u json (str "etherType"); Some (EtherType (wrap 16 v))
  else if t =? MATCH_ICMP then
    icmp_type ← u json (str "icmpType"); Some (Icmp (as_u8 icmp_type) (as_u8 <$> u json (str "icmpCode")))
  else if Rules.one_of t [MATCH_IP_SOURCE_PORT_RANGE; MATCH_IP_DEST_PORT_RANGE] then
    start ← u json (str "start"); end_ ← u json (str "end"); Some (PortRange (wrap 16 start) (wrap 16 end_))
  else if t =? MATCH_CHARACTERISTICS then v ← hex_u64 json (str "mask"); Some (Characteristics v)
  else if t =? MATCH_FRAME_SIZE_RANGE then
    start ← u json (str "start"); end_ ← u json (str "end"); Some (FrameSizeRange (wrap 16 start) (wrap 16 end_))
  else if t =? MATCH_RANDOM then v ← u json (str "probability"); Some (RandomProbability (wrap 32 v))
  else if Rules.one_of t [MATCH_TAGS_DIFFERENCE; MATCH_TAGS_BITWISE_AND; MATCH_TAGS_BITWISE_OR; MATCH_TAGS_BITWISE_XOR;
                          MATCH_TAGS_EQUAL; MATCH_TAG_SENDER; MATCH_TAG_RECEIVER] then
    id ← u json (str "id"); value ← u json (str "value"); Some (TagMatch (wrap 32 id) (wrap 32 value))
  else if t =? MATCH_INTEGER_RANGE then
    start ← hex_u64 json (str "start"); end_ ← hex_u64 json (str "end"); idx ← u json (str "idx");
    bits ← u json (str "bits");
    Some (IntegerRange start end_ (wrap 16 idx) (default false (v ← get json (str "little"); as_bool v)) (wrap 8 bits))
  else None.

(** ** Rules and capabilities *)

Definition rule_to_response (rule : Rule) : RuleResponse V := {|
  rr_rule_type := r_type rule;
  rr_type_name := rule_type_name (r_type rule);
  rr_not := r_not rule;
  rr_or_flag := r_or rule;
  rr_value := r_value rule;
  rr_fields := rule_fields_to_json <$> Rules.decode_rule_fields (r_type rule) (r_value rule);
|}.

(** An explicit value wins over the fields; fields that encode as [bits - 1] of none panic. *)
Definition rule_from_response (rule : RuleResponse V) : res unit Rule :=
  let* value :=
    match rr_value rule with
    | [] => match f ← rr_fields rule; rule_fields_from_json (rr_rule_type rule) f with
            | Some f => Rules.encode_rule_fields f
            | None => Ok []
            end
    | value => Ok value
    end in
  Ok (mkRule (rr_rule_type rule) (rr_not rule) (rr_or_flag rule) value).

Fixpoint rules_from_response (rules : list (RuleResponse V)) : res unit (list Rule) :=
  match rules with
  | [] => Ok []
  | r :: rules => let* r := rule_from_response r in let* rules := rules_from_response rules in Ok (r :: rules)
  end.

Definition capability_to_response (cap : Capability) : CapabilityResponse V :=
  mkCapabilityResponse (cap_id cap) (map rule_to_response (cap_rules cap)).
Definition capability_from_response (cap : CapabilityResponse V) : res unit Capability :=
  let* rules := rules_from_response (cr_rules cap) in Ok (mkCapability (cr_id cap) rules).

End Fields.

(** ** Text that reads back *)

Lemma digits_byte b max acc s : 0 <= acc -> acc * 256 + u8 b <= max ->
  digits 16 max acc (format_hex_pad 2 (u8 b) ++ s) = digits 16 max (acc * 256 + u8 b) s.
Proof.
  intros Ha Hm. assert (exists h l, 0 <= h < 16 /\ 0 <= l < 16 /\ format_hex_pad 2 (u8 b) = [digit_char h; digit_char l] /\ u8 b = h * 16 + l)
    as (h & l & Hh & Hl & -> & Hb).
  { exists (u8 b / 16), (u8 b mod 16). pose proof (u8_range b). split_and!; try (apply Z.div_pos; lia);
      try (apply Z.div_lt_upper_bound; lia); try (apply Z.mod_pos_bound; lia); [by destruct b|].
    pose proof (Z.div_mod (u8 b) 16). lia. }
  rewrite Hb in *. cbn [app digits]. rewrite digit_of_char by lia. rewrite if_true by lia. rewrite digit_of_char by lia.
  rewrite if_true by lia. f_equal. lia.
Qed.

Lemma digits_node_id bs max acc : 0 <= acc -> acc * 256 ^ len bs + from_be bs <= max ->
  digits 16 max acc (format_node_id bs) = Some (acc * 256 ^ len bs + from_be bs).
Proof.
  revert acc. induction bs as [|b bs IH]; intros acc Ha Hm; [cbn; f_equal; unfold from_be, len in *; cbn in *; lia|].
  unfold format_node_id. cbn [flat_map]. fold (format_node_id bs).
  pose proof (from_be_app [b] bs) as Hf. cbn [app] in Hf. change (from_be [b]) with (0 * 256 + u8 b) in Hf.
  rewrite Z.mul_0_l, Z.add_0_l in Hf. rewrite len_cons, Z.pow_add_r in * by (pose proof (len_nonneg bs); lia). rewrite Z.pow_1_r in *.
  pose proof (u8_range b). pose proof (from_be_range bs). assert (0 < 256 ^ len bs) by (apply Z.pow_pos_nonneg; [lia|apply len_nonneg]).
  rewrite Hf in *. rewrite digits_byte by nia. rewrite IH by nia. f_equal. lia.
Qed.

Lemma format_node_id_cons b bs : exists c s, format_node_id (b :: bs) = c :: s /\ c <> "+"%byte.
Proof. destruct b; eexists _, _; (split; [reflexivity|discriminate]). Qed.

Lemma node_id_back bs : 0 < len bs -> from_be bs <= U64_MAX -> hex_u64_of (format_node_id bs) = Some (from_be bs).
Proof.
  intros Hl Hm. destruct bs as [|b bs]; [done|]. pose proof (digits_node_id (b :: bs) U64_MAX 0 ltac:(lia) ltac:(lia)) as Hd.
  rewrite Z.mul_0_l, Z.add_0_l in Hd. destruct (format_node_id_cons b bs) as (c & s & He & Hc). unfold hex_u64_of, from_str_radix.
  rewrite He in *. by rewrite bool_decide_false.
Qed.

(** The five bytes of an address. *)
Lemma addr_bytes a : addr_u64_to_bytes a = to_be 5 a.
Proof.
  unfold addr_u64_to_bytes. cbn [map]. rewrite !Z.shiftr_div_pow2 by lia.
  change (to_be 5 a) with [b8 (a / 256 / 256 / 256 / 256); b8 (a / 256 / 256 / 256); b8 (a / 256 / 256); b8 (a / 256); b8 a].
  rewrite !Z.div_div by lia.
  change (2 ^ 0) with 1. by rewrite Z.div_1_r.
Qed.

Lemma addr_back a : 0 <= a < 2 ^ 40 -> hex_u64_of (format_node_id (addr_u64_to_bytes a)) = Some a.
Proof.
  intros Ha. rewrite addr_bytes. pose proof (from_be_to_be_small 5 a ltac:(change (256 ^ Z.of_nat 5) with (2 ^ 40); lia)) as Hf.
  rewrite node_id_back; rewrite ?Hf; [done|by rewrite len_to_be|unfold U64_MAX; lia].
Qed.

Lemma network_id_back id : u64_ok id -> hex_u64_of (format_network_id id) = Some id.
Proof. apply from_str_pad. Qed.

Lemma byte_back b : from_str_radix 16 255 (format_hex_pad 2 (u8 b)) = Some (u8 b) /\ ":"%byte ∉ format_hex_pad 2 (u8 b).
Proof.
  assert (from_str_radix 16 255 (format_hex_pad 2 (u8 b)) = Some (u8 b) /\
    forallb (fun c => negb (bool_decide (c = ":"%byte))) (format_hex_pad 2 (u8 b)) = true) as [? Hc] by (destruct b; by vm_compute).
  split; [done|]. intros Hin%list_elem_of_In. rewrite forallb_forall in Hc. specialize (Hc _ Hin).
  by rewrite bool_decide_true in Hc.
Qed.

Lemma mac_back mac : len mac = 6 ->
  mac_of (format_hex_pad 2 (u8 (nth 0 mac (b8 0))) ++
    flat_map (fun i => [":"%byte] ++ format_hex_pad 2 (u8 (nth i mac (b8 0)))) [1; 2; 3; 4; 5]%nat) = Some (Mac mac).
Proof.
  unfold len. intros Hl. destruct mac as [|a [|b [|c [|d [|e [|f [|]]]]]]]; cbn [length] in Hl; try lia.
  unfold mac_of. cbn [flat_map nth app]. rewrite app_nil_r.
  assert (forall x s, split_on ":"%byte (format_hex_pad 2 (u8 x) ++ ":"%byte :: s) = format_hex_pad 2 (u8 x) :: split_on ":"%byte s) as Hs
    by (intros x s; apply split_on_app, byte_back).
  rewrite !Hs, split_on_single by apply byte_back. cbn [map all_some]. rewrite !(proj1 (byte_back _)). cbn [mbind option_bind].
  change (len [u8 a; u8 b; u8 c; u8 d; u8 e; u8 f]) with 6. cbn [negb Z.eqb Pos.eqb map]. by rewrite !b8_u8.
Qed.

Lemma no_slash_v6 ip : "/"%byte ∉ IpDisplay.display_ipv6 ip.
Proof.
  assert (forall gs i, "/"%byte ∉ IpDisplay.fmt_groups i gs) as Hg.
  { induction gs as [|g gs IH]; intros i; cbn [IpDisplay.fmt_groups]; [by intros ?%elem_of_nil|].
    rewrite !not_elem_of_app. split_and!; [case_bool_decide; [by intros ?%elem_of_nil|by intros ?%list_elem_of_singleton]| |apply IH].
    apply notin_format; [lia|]. intros Hd%digit_ascii. naive_solver. }
  unfold IpDisplay.display_ipv6. case_bool_decide.
  - rewrite not_elem_of_app. split; [|apply Pools.no_slash]. by vm_compute; intros Hx; repeat (apply elem_of_cons in Hx as [?|Hx]; [done|]); apply elem_of_nil in Hx.
  - destruct (IpDisplay.longest_run _ _ _ _) as [start n]. case_match; [|apply Hg]. rewrite !not_elem_of_app. split_and!; [apply Hg| |apply Hg].
    intros Hx. repeat (apply elem_of_cons in Hx as [?|Hx]; [done|]). by apply elem_of_nil in Hx.
Qed.

Lemma ipv4_back ip : len ip = 4 -> IpText.parse_ipv4_addr (Pools.format_ipv4 ip) = Some ip.
Proof.
  intros Hl. pose proof (IpDisplay.read_ipv4_format ip [] Hl I) as Hr. rewrite app_nil_r in Hr.
  unfold IpText.parse_ipv4_addr, IpText.parse_with. rewrite Hr. rewrite if_false; [done|].
  unfold len in Hl. destruct ip as [|a [|b [|c [|d [|]]]]]; cbn [length] in Hl; try lia. unfold Pools.format_ipv4.
  pose proof (IpDisplay.octet_text a) as [? _]. pose proof (IpDisplay.octet_text b) as [? _].
  pose proof (IpDisplay.octet_text c) as [? _]. pose proof (IpDisplay.octet_text d) as [? _].
  apply Z.ltb_ge. unfold len. rewrite !length_app. cbn [length]. rewrite !length_app. cbn [length]. rewrite !length_app. cbn [length]. lia.
Qed.

Lemma ip_back parse make s ip mask : "/"%byte ∉ s -> parse s = Some ip ->
  ip_of parse make (s ++ ["/"%byte] ++ format_dec (u8 mask)) = Some (make ip mask).
Proof.
  intros Hs Hp. unfold ip_of. cbn [app]. rewrite Config.split_once_app by done. cbn [mbind option_bind]. rewrite Hp. cbn [mbind option_bind].
  rewrite parse_u8_format by (pose proof (u8_range mask); lia). cbn [mbind option_bind]. by rewrite b8_u8.
Qed.

(** ** Fields through JSON *)

(** Fields that fit JSON: an address to forward to has 40 bits there. *)
Definition json_wf (f : RuleFields) : Prop :=
  Rules.fields_wf f /\ match f with Forward address _ _ => address < 2 ^ 40 | _ => True end.

Section Roundtrip.
Context {V : Type} `{JsonValueLaws V}.

Lemma get_field (l : list (bytes * V)) key v i : NoDup (map fst l) -> l !! i = Some (key, v) -> get (object l) key = Some v.
Proof.
  intros Hn Hi. rewrite get_object by done. destruct (find _ l) as [e|] eqn:E.
  - apply find_Some in E as [Hin Hk%bool_decide_eq_true]. assert (e = (key, v)) as ->; [|done].
    eapply (Memory.nodup_key_inj fst); [exact Hn|done|by eapply list_elem_of_lookup_2|done].
  - rewrite find_None in E. specialize (E (key, v) ltac:(by eapply list_elem_of_lookup_2)). by rewrite bool_decide_true in E.
Qed.

Lemma u_field l key z i : NoDup (map fst l) -> l !! i = Some (key, number z) -> u64_ok z -> u (object l) key = Some z.
Proof. intros Hn Hi Hz. unfold u. rewrite (get_field _ _ _ _ Hn Hi). by apply as_u64_number. Qed.

Lemma text_field l key s i : NoDup (map fst l) -> l !! i = Some (key, text s) -> (v ← get (object l) key; as_str v) = Some s.
Proof. intros Hn Hi. rewrite (get_field _ _ _ _ Hn Hi). apply as_str_text. Qed.

Lemma hex_field l key s i : NoDup (map fst l) -> l !! i = Some (key, text s) -> hex_u64 (object l) key = hex_u64_of s.
Proof. intros Hn Hi. unfold hex_u64. rewrite (get_field _ _ _ _ Hn Hi). cbn [mbind option_bind]. by rewrite as_str_text. Qed.

Lemma wrap_small w z : 0 <= z < 2 ^ w -> wrap w z = z.
Proof. apply Z.mod_small. Qed.

Lemma as_u8_back b : as_u8 (u8 b) = b.
Proof. unfold as_u8. rewrite wrap_small by (pose proof (u8_range b); lia). apply b8_u8. Qed.

Lemma u8_u64 b : u64_ok (u8 b).
Proof. pose proof (u8_range b). unfold u64_ok, U64_MAX. lia. Qed.
End Roundtrip.

(** The keys of an object written out are distinct, and its numbers fit. *)
Ltac field_side :=
  lazymatch goal with
  | |- NoDup _ => apply (bool_decide_unpack _); vm_compute; exact I
  | |- u64_ok (u8 _) => apply u8_u64
  | |- u64_ok _ => unfold u64_ok, U64_MAX; lia
  | |- _ => reflexivity
  end.
Ltac at_field lemma :=
  first [ erewrite (lemma _ _ _ 0%nat) by field_side | erewrite (lemma _ _ _ 1%nat) by field_side
        | erewrite (lemma _ _ _ 2%nat) by field_side | erewrite (lemma _ _ _ 3%nat) by field_side
        | erewrite (lemma _ _ _ 4%nat) by field_side ].
Ltac read_json :=
  repeat first
    [ progress cbn [mbind option_bind default id fmap option_fmap option_map]
    | match goal with
      | |- context [u (object _) _] => at_field uconstr:(u_field)
      | |- context [hex_u64 (object _) _] => at_field uconstr:(hex_field)
      | |- context [get (object _) _] => at_field uconstr:(get_field)
      end
    | rewrite as_str_text | rewrite as_bool_boolean | rewrite as_u8_back | rewrite wrap_small by lia
    | rewrite from_str_pad by (unfold u64_ok, U64_MAX; lia) | rewrite addr_back by lia ].

Section Fields_back.
Context {V : Type} `{JsonValueLaws V}.

Lemma fields_json_back f t : json_wf f -> Rules.one_of (Z.land t 0x3F) (Rules.field_types f) = true ->
  rule_fields_from_json t (rule_fields_to_json (V := V) f) = Some f.
Proof.
  intros [Hw Hf] Ht. unfold rule_fields_from_json. generalize dependent (Z.land t 0x3F). intros x Hx. clear t.
  unfold Rules.one_of in Hx. apply existsb_exists in Hx as (y & Hy & ->%Z.eqb_eq). apply list_elem_of_In in Hy.
  change (@hex_addr V H) with (@hex_u64 V H).
  destruct f; cbn [Rules.field_types] in Hy; rewrite ?elem_of_cons, elem_of_nil in Hy; cbn [Rules.fields_wf] in Hw;
    unfold u16_ok, u32_ok, u64_ok, U16_MAX, U32_MAX, U64_MAX in Hw; destruct_and? Hw; destruct_or? Hy; subst y; try done;
    repeat rewrite if_false by reflexivity; rewrite if_true by reflexivity; cbn [rule_fields_to_json];
    unfold hex_u64_of in *; read_json; try reflexivity;
    first [by apply mac_back | apply ip_back; [apply Pools.no_slash|by apply ipv4_back]
          | apply ip_back; [apply no_slash_v6|by apply IpDisplay.read_ipv6_display] | idtac].
  destruct icmp_code as [c|]; read_json; [reflexivity|]. unfold u. read_json.
  rewrite as_u64_null, as_u64_number by apply u8_u64. by read_json.
Qed.

(** A rule of no value has no fields. *)
Lemma decode_nothing t : Rules.decode_rule_fields t [] = None.
Proof. unfold Rules.decode_rule_fields. rewrite !len_nil. cbn [Z.leb Z.compare Z.eqb negb]. by rewrite !andb_false_r. Qed.

(** C36. Rules survive the API. By value, any rule: read and posted back it is the same rule,
    whatever its type and value. By the named fields alone, without a value, the fields of a rule
    type, whose numbers and texts are in range: they become the wire value of these fields, with
    the flags as posted; that rule shows the same fields again, and posted back by those it is the
    same rule. (A rule whose value is another encoding of its fields comes back by them as the one
    of this encoding: only the value is lossless.) *)
Theorem rule_api_roundtrip :
  (forall rule : Rule, rule_from_response (rule_to_response (V := V) rule) = Ok rule) /\
  forall (t : Z) (f : RuleFields) (not or_flag : bool) (name : bytes),
    json_wf f -> Rules.one_of (Z.land t 0x3F) (Rules.field_types f) = true ->
    exists value, Rules.encode_rule_fields f = Ok value /\
      let rule := mkRule t not or_flag value in
      rule_from_response (V := V) (mkRuleResponse t name not or_flag [] (Some (rule_fields_to_json f))) = Ok rule /\
      rr_fields (rule_to_response (V := V) rule) = Some (rule_fields_to_json f) /\
      rule_from_response (V := V) (mkRuleResponse t name not or_flag [] (rr_fields (rule_to_response (V := V) rule))) = Ok rule.
Proof.
  split.
  - intros rule. unfold rule_from_response, rule_to_response. cbn [rr_value rr_fields rr_rule_type rr_not rr_or_flag].
    destruct rule as [rt n o [|b v]]; cbn [r_value r_type r_not r_or]; [by rewrite decode_nothing|done].
  - intros t f not or_flag name Hf Ht.
    destruct (Rules.rule_decode_encode f t [] (proj1 Hf) Ht) as (v & He & Hd). rewrite app_nil_r in Hd. exists v. split; [done|]. cbv zeta.
    assert (rr_fields (rule_to_response (V := V) (mkRule t not or_flag v)) = Some (rule_fields_to_json f)) as Hshown
      by (unfold rule_to_response; cbn [rr_fields r_type r_value]; by rewrite Hd).
    assert (rule_from_response (V := V) (mkRuleResponse t name not or_flag [] (Some (rule_fields_to_json f))) = Ok (mkRule t not or_flag v)) as Hback.
    { unfold rule_from_response. cbn [rr_value rr_fields rr_rule_type rr_not rr_or_flag mbind option_bind].
      by rewrite fields_json_back by done; rewrite He, rbind_ok. }
    split; [exact Hback|]. split; [exact Hshown|]. by rewrite Hshown.
Qed.
End Fields_back.

(** An IPv6 source with a mask, and a range of no bits, which is a panic. *)
Lemma rule_api_roundtrip_witness :
  let f := Ipv6 (map b8 [0xfd; 0; 0; 0; 0; 0; 0; 0; 0; 0; 0; 0; 0; 0; 0; 9]) (b8 64) in
  rule_fields_to_json (V := Value) f = VObject [(str "ip", VString (str "fd00::9/64"))] /\
  exists value, rule_from_response (V := Value) (mkRuleResponse MATCH_IPV6_SOURCE [] true false [] (Some (rule_fields_to_json f))) =
    Ok (mkRule MATCH_IPV6_SOURCE true false value).
Proof.
  cbv zeta. split; [vm_compute; reflexivity|].
  destruct (proj2 (rule_api_roundtrip (V := Value)) MATCH_IPV6_SOURCE
    (Ipv6 (map b8 [0xfd; 0; 0; 0; 0; 0; 0; 0; 0; 0; 0; 0; 0; 0; 0; 9]) (b8 64)) true false [] (conj eq_refl I) eq_refl)
    as (value & _ & Hv & _).
  exists value. exact Hv.
Defined.

(** A value with one byte too many has the same fields, and is posted back by them without it. *)
Example fields_alone_shorten :
  let value := replicate 16 (b8 0xfd) ++ [b8 64] in
  let longer := mkRule MATCH_IPV6_SOURCE false false (value ++ [b8 1]) in
  rule_from_response (V := Value) (mkRuleResponse MATCH_IPV6_SOURCE [] false false [] (rr_fields (rule_to_response longer))) =
    Ok (mkRule MATCH_IPV6_SOURCE false false value).
Proof. vm_compute. reflexivity. Qed.

Example no_bits_panic :
  rule_from_response (V := Value) (mkRuleResponse MATCH_INTEGER_RANGE [] false false []
    (Some (VObject [(str "start", VString (str "0")); (str "end", VString (str "1")); (str "idx", VNumber 0); (str "bits", VNumber 256)])))
  = Panic.
Proof. vm_compute. reflexivity. Qed.
End RuleJson.
