(* ===== verification/StaticConfig.v ===== *)
(** * StaticConfig: networks configured from a file instead of a controller (zerotier-node:
    network_config.rs). The JSON text is read by serde; its values are a parameter. *)
From S2P Require Export RuleJson IpDisplay Network Ethernet.

Inductive ConfigError :=
  | InvalidHex (s : bytes)
  | InvalidAddressText (s : bytes)
  | InvalidIp (s : bytes).

Record StaticQualifierConfig (V : Type) := mkStaticQualifier { sq_id : Z; sq_value : V; sq_max_delta : Z }.
Arguments mkStaticQualifier {V}. Arguments sq_id {V}. Arguments sq_value {V}. Arguments sq_max_delta {V}.

Record StaticComConfig (V : Type) := mkStaticCom {
  sc_qualifiers : list (StaticQualifierConfig V); sc_signer_address : bytes; sc_signature : bytes }.
Arguments mkStaticCom {V}. Arguments sc_qualifiers {V}. Arguments sc_signer_address {V}. Arguments sc_signature {V}.

Record StaticMemberConfig (V : Type) := mkStaticMember {
  sm_address : bytes; sm_ipv4 : option bytes; sm_ipv6 : option bytes; sm_authorized : bool; sm_com : option (StaticComConfig V) }.
Arguments mkStaticMember {V}. Arguments sm_address {V}. Arguments sm_ipv4 {V}. Arguments sm_ipv6 {V}.
Arguments sm_authorized {V}. Arguments sm_com {V}.

Record StaticRouteConfig := mkStaticRoute { st_target : bytes }.

Record StaticNetworkConfig (V : Type) := mkStaticNetwork {
  sn_network_id : bytes; sn_mtu : Z; sn_members : list (StaticMemberConfig V); sn_com : StaticComConfig V;
  sn_routes : list StaticRouteConfig; sn_multicast_limit : Z }.
Arguments mkStaticNetwork {V}. Arguments sn_network_id {V}. Arguments sn_mtu {V}. Arguments sn_members {V}.
Arguments sn_com {V}. Arguments sn_routes {V}. Arguments sn_multicast_limit {V}.

Module StaticConfig.

(** ** Text *)

(** [&s\[a..b\]]: a panic inside a character. *)
Definition is_char_boundary (s : bytes) (i : Z) : bool :=
  (i =? 0) || (i =? len s) || ((i <? len s) && negb (is_cont (byte_at s (Z.to_nat i)))).
Definition str_slice {E} (s : bytes) (a b : Z) : res E bytes :=
  if is_char_boundary s a && is_char_boundary s b then slice s a b else Panic.

(** [n] pairs of digits from the byte [i] on. *)
Fixpoint parse_pairs (hex : bytes) (i : Z) (n : nat) : res ConfigError bytes :=
  match n with
  | O => Ok []
  | S n =>
      let* pair := str_slice hex i (i + 2) in
      let* byte := ok_or (InvalidHex hex) (from_str_radix 16 255 pair) in
      let* rest := parse_pairs hex (i + 2) n in
      Ok (b8 byte :: rest)
  end.

Definition parse_zt_address (hex : bytes) : res ConfigError bytes :=
  if negb (len hex =? 10) then Err (InvalidAddressText hex) else parse_pairs hex 0 5.

Definition parse_hex_bytes (hex : bytes) : res ConfigError bytes :=
  if negb (len hex mod 2 =? 0) then Err (InvalidHex hex) else parse_pairs hex 0 (Z.to_nat (len hex / 2)).

Definition parse_cidr (parse_ip : bytes -> option bytes) (s : bytes) : res ConfigError (bytes * Z) :=
  match split_on "/"%byte s with
  | [ip; prefix] =>
      let* ip := ok_or (InvalidIp s) (parse_ip ip) in
      let* prefix := ok_or (InvalidIp s) (parse_u8 prefix) in
      Ok (ip, prefix)
  | _ => Err (InvalidIp s)
  end.
Definition parse_ipv4_cidr : bytes -> res ConfigError (bytes * Z) := parse_cidr IpText.parse_ipv4_addr.
Definition parse_ipv6_cidr : bytes -> res ConfigError (bytes * Z) := parse_cidr IpText.parse_ipv6_addr.

(** [.map(f).transpose()?]. *)
Definition transpose {A B E} (f : A -> res E B) (o : option A) : res E (option B) :=
  match o with Some a => let* b := f a in Ok (Some b) | None => Ok None end.

Section Static.
Context {V : Type} `{JsonValue V}.

(** ** Certificates *)

(** A number that is no u64, and what is neither number nor string, is 0. *)
Definition qualifier_value (value : V) : res ConfigError Z :=
  match as_str value with
  | Some s => ok_or (InvalidHex s) (from_str_radix 16 U64_MAX s)
  | None => Ok (default 0 (as_u64 value))
  end.

Fixpoint parse_qualifiers (qs : list (StaticQualifierConfig V)) : res ConfigError (list ComQualifier) :=
  match qs with
  | [] => Ok []
  | q :: qs =>
      let* value := qualifier_value (sq_value q) in
      let* rest := parse_qualifiers qs in
      Ok (mkComQualifier (sq_id q) value (sq_max_delta q) :: rest)
  end.

Definition parse_static_com (config : StaticComConfig V) (issued_to : bytes) : res ConfigError CertificateOfMembership :=
  let* qualifiers := parse_qualifiers (sc_qualifiers config) in
  let* signer_address := parse_zt_address (sc_signer_address config) in
  let* sig_bytes := parse_hex_bytes (sc_signature config) in
  let sig := take 96 sig_bytes in
  Ok (mkCom issued_to qualifiers signer_address (sig ++ replicate (96 - length sig) (b8 0))).

(** ** Networks *)

(** Members, our certificate and those of others so far. *)
Record Loaded := mkLoaded {
  ld_members : list NetworkMember; ld_our_com : option CertificateOfMembership;
  ld_peer_coms : list (bytes * CertificateOfMembership) }.

Definition load_member (network_id : Z) (our_zt_address : bytes) (mc : StaticMemberConfig V) (l : Loaded) : res ConfigError Loaded :=
  let* zt_address := parse_zt_address (sm_address mc) in
  let mac := Ethernet.derive_mac zt_address network_id in
  let* ipv4 := transpose parse_ipv4_cidr (sm_ipv4 mc) in
  let* ipv6 := transpose parse_ipv6_cidr (sm_ipv6 mc) in
  let members := ld_members l ++ [mkMember zt_address mac ipv4 ipv6 (sm_authorized mc)] in
  match sm_com mc with
  | Some member_com_cfg =>
      let* member_com := parse_static_com member_com_cfg zt_address in
      if bool_decide (zt_address = our_zt_address) then Ok (mkLoaded members (Some member_com) (ld_peer_coms l))
      else Ok (mkLoaded members (ld_our_com l) (ld_peer_coms l ++ [(zt_address, member_com)]))
  | None => Ok (mkLoaded members (ld_our_com l) (ld_peer_coms l))
  end.

Definition from_static_config (config : StaticNetworkConfig V) (our_zt_address : bytes) : res ConfigError NetworkMembership :=
  let* network_id := ok_or (InvalidHex (sn_network_id config)) (from_str_radix 16 U64_MAX (sn_network_id config)) in
  let* l := for_each (sn_members config) (load_member network_id our_zt_address) (mkLoaded [] None []) in
  let* our_com := match ld_our_com l with
                  | Some com => Ok com
                  | None => parse_static_com (sn_com config) our_zt_address
                  end in
  Ok {| nw_network_id := network_id; nw_members := ld_members l; nw_our_com := Some our_com; nw_peer_coms := ld_peer_coms l;
        nw_mtu := sn_mtu config; nw_assigned_ipv4 := None; nw_assigned_ipv6 := None;
        nw_routes := map (fun r => mkRoute (st_target r)) (sn_routes config);
        nw_pending_config_request := false; nw_last_config_request := 0; nw_last_multicast_like := 0; nw_last_multicast_gather := 0 |}.

(** ** What a file says of a network *)

Definition config_of_com (c : CertificateOfMembership) : StaticComConfig V :=
  mkStaticCom (map (fun q => mkStaticQualifier (q_id q) (text (format_hex_pad 16 (q_value q))) (q_max_delta q)) (com_qualifiers c))
    (RuleJson.format_node_id (com_signer_address c)) (RuleJson.format_node_id (com_signature c)).

Definition cidr (show : bytes -> bytes) (a : bytes * Z) : bytes := show a.1 ++ ["/"%byte] ++ format_dec a.2.

Definition config_of_member (m : NetworkMember * option CertificateOfMembership) : StaticMemberConfig V :=
  mkStaticMember (RuleJson.format_node_id (nm_zt_address m.1)) (cidr Pools.format_ipv4 <$> nm_ipv4 m.1)
    (cidr IpDisplay.display_ipv6 <$> nm_ipv6 m.1) (nm_authorized m.1) (config_of_com <$> m.2).

Definition config_of (nid mtu : Z) (ms : list (NetworkMember * option CertificateOfMembership))
    (com : CertificateOfMembership) (routes : list Route) (limit : Z) : StaticNetworkConfig V :=
  mkStaticNetwork (format_hex_pad 16 nid) mtu (map config_of_member ms) (config_of_com com)
    (map (fun r => mkStaticRoute (rt_target r)) routes) limit.

Definition com_ok (issued_to : bytes) (c : CertificateOfMembership) : Prop :=
  com_issued_to c = issued_to /\ len (com_signer_address c) = 5 /\ len (com_signature c) = 96 /\
  Forall (fun q => u64_ok (q_value q)) (com_qualifiers c).
Definition cidr_ok (n : Z) (a : option (bytes * Z)) : Prop :=
  match a with Some (ip, prefix) => len ip = n /\ 0 <= prefix <= 255 | None => True end.
Definition member_ok (nid : Z) (m : NetworkMember * option CertificateOfMembership) : Prop :=
  len (nm_zt_address m.1) = 5 /\ nm_mac m.1 = Ethernet.derive_mac (nm_zt_address m.1) nid /\
  cidr_ok 4 (nm_ipv4 m.1) /\ cidr_ok 16 (nm_ipv6 m.1) /\
  match m.2 with Some c => com_ok (nm_zt_address m.1) c | None => True end.

(** The certificates given for us and for the others. *)
Definition own_com (us : bytes) (m : NetworkMember * option CertificateOfMembership) : option CertificateOfMembership :=
  if bool_decide (nm_zt_address m.1 = us) then m.2 else None.
Definition peer_com (us : bytes) (m : NetworkMember * option CertificateOfMembership) : option (bytes * CertificateOfMembership) :=
  if bool_decide (nm_zt_address m.1 = us) then None else pair (nm_zt_address m.1) <$> m.2.

End Static.

(** ** Hexadecimal text *)

Definition ascii (s : bytes) : Prop := Forall (fun b => u8 b <= 0x7f) s.

Lemma ascii_app a b : ascii a -> ascii b -> ascii (a ++ b).
Proof. apply Forall_app_2. Qed.

Lemma ascii_boundary s i : ascii s -> 0 <= i <= len s -> is_char_boundary s i = true.
Proof.
  intros Ha Hi. unfold is_char_boundary. destruct (i =? 0) eqn:?; [done|]. destruct (i =? len s) eqn:?; [done|].
  rewrite (proj2 (Z.ltb_lt _ _)) by lia. cbn [orb andb]. unfold byte_at.
  destruct (lookup_lt_is_Some_2 s (Z.to_nat i)) as [b Hb]; [unfold len in *; lia|].
  pose proof (proj1 (Forall_lookup _ _) Ha _ _ Hb) as Hr. rewrite Hb. cbn [default from_option id] in *. unfold is_cont, in_range. lia.
Qed.

Lemma ascii_slice {E} s a b : ascii s -> 0 <= a <= b -> b <= len s -> @str_slice E s a b = slice s a b.
Proof. intros. unfold str_slice. by rewrite !ascii_boundary by (auto; lia). Qed.

Lemma pairs_run hex i n : ascii hex -> 0 <= i -> i + 2 * Z.of_nat n <= len hex ->
  safe (parse_pairs hex i n) (fun bs => length bs = n).
Proof.
  intros Ha. revert i. induction n as [|n IH]; intros i Hi Hn; cbn [parse_pairs]; [done|].
  rewrite ascii_slice, slice_ok by (auto; lia). cbn [rbind]. apply wp_bind, wp_ok_or; [|done]. intros byte _.
  apply wp_bind. eapply wp_mono; [apply IH; lia| |done]. intros bs Hbs. cbn. by f_equal.
Qed.

Lemma ascii_byte b : ascii (format_hex_pad 2 (u8 b)).
Proof. apply ascii_pad. Qed.

Lemma ascii_hex bs : ascii (RuleJson.format_node_id bs).
Proof.
  induction bs as [|b bs IH]; [constructor|]. cbn [RuleJson.format_node_id flat_map].
  apply ascii_app; [apply ascii_byte|exact IH].
Qed.

Lemma byte_hex_len b : len (format_hex_pad 2 (u8 b)) = 2.
Proof. by destruct b. Qed.

Lemma len_hex bs : len (RuleJson.format_node_id bs) = 2 * len bs.
Proof.
  induction bs as [|b bs IH]; [done|]. cbn [RuleJson.format_node_id flat_map]. fold (RuleJson.format_node_id bs).
  rewrite len_app, byte_hex_len, len_cons. lia.
Qed.

Lemma pairs_read pre bs : ascii pre -> parse_pairs (pre ++ RuleJson.format_node_id bs) (len pre) (length bs) = Ok bs.
Proof.
  revert pre. induction bs as [|b bs IH]; intros pre Hp; [done|]. cbn [length parse_pairs RuleJson.format_node_id flat_map].
  fold (RuleJson.format_node_id bs). pose proof (byte_hex_len b) as Hb.
  rewrite ascii_slice; [|auto using ascii_app, ascii_hex, ascii_byte|pose proof (len_nonneg pre); lia|len_lia].
  rewrite slice_app_skip by lia. replace (len pre - len pre) with 0 by lia. replace (len pre + 2 - len pre) with 2 by lia.
  rewrite slice_app_hit by done. cbn [rbind]. rewrite (proj1 (RuleJson.byte_back b)). cbn [ok_or rbind].
  rewrite app_assoc. replace (len pre + 2) with (len (pre ++ format_hex_pad 2 (u8 b))) by len_lia.
  rewrite IH by auto using ascii_app, ascii_byte. cbn [rbind]. by rewrite b8_u8.
Qed.

Lemma hex_read bs : parse_hex_bytes (RuleJson.format_node_id bs) = Ok bs.
Proof.
  unfold parse_hex_bytes. rewrite len_hex, Z.mul_comm, Z.mod_mul, Z.div_mul by lia. cbn [negb Z.eqb].
  replace (Z.to_nat (len bs)) with (length bs) by (unfold len; lia). apply (pairs_read []). constructor.
Qed.

Lemma zt_address_read bs : len bs = 5 -> parse_zt_address (RuleJson.format_node_id bs) = Ok bs.
Proof.
  intros Hl. unfold parse_zt_address. rewrite len_hex, Hl. change (negb (2 * 5 =? 10)) with false. cbn iota.
  replace 5%nat with (length bs) by (unfold len in Hl; lia). apply (pairs_read []). constructor.
Qed.

Lemma cidr_read parse show n a : "/"%byte ∉ show a.1 -> parse (show a.1) = Some a.1 -> cidr_ok n (Some a) ->
  parse_cidr parse (cidr show a) = Ok a.
Proof.
  destruct a as [ip prefix]. intros Hs Hp [_ Hr]. cbn [fst snd] in *. unfold parse_cidr, cidr. cbn [fst snd app].
  rewrite split_on_app by done. rewrite split_on_single.
  - rewrite Hp, parse_u8_format by done. done.
  - apply Pools.notin_dec. tauto.
Qed.

(** ** Files that say what they mean *)

Section Written.
Context {V : Type} `{JsonValueLaws V}.

Lemma qualifiers_read (qs : list ComQualifier) : Forall (fun q => u64_ok (q_value q)) qs ->
  parse_qualifiers (map (fun q => mkStaticQualifier (V := V) (q_id q) (text (format_hex_pad 16 (q_value q))) (q_max_delta q)) qs) = Ok qs.
Proof.
  induction 1 as [|q qs Hq _ IH]; [done|]. cbn [map parse_qualifiers sq_id sq_value sq_max_delta]. unfold qualifier_value.
  rewrite as_str_text, from_str_pad, IH by done. by destruct q.
Qed.

Lemma com_read c issued_to : com_ok issued_to c -> parse_static_com (V := V) (config_of_com c) issued_to = Ok c.
Proof.
  intros (Hi & Ha & Hs & Hq). unfold parse_static_com, config_of_com. cbn [sc_qualifiers sc_signer_address sc_signature].
  rewrite qualifiers_read, zt_address_read, hex_read by done. cbn [rbind]. destruct c as [i qs a sig]; simpl in *.
  rewrite take_ge by (unfold len in Hs; lia). replace (96 - length sig)%nat with O by (unfold len in Hs; lia).
  by rewrite app_nil_r, Hi.
Qed.

Lemma cidrs_read parse show n o : cidr_ok n o -> (forall ip, len ip = n -> "/"%byte ∉ show ip /\ parse (show ip) = Some ip) ->
  transpose (parse_cidr parse) (cidr show <$> o) = Ok o.
Proof.
  intros Ho Hs. destruct o as [a|]; [|done]. cbn [fmap option_fmap option_map transpose].
  assert (len a.1 = n) as Hl by (destruct a; apply Ho). destruct (Hs _ Hl) as [? ?]. by erewrite cidr_read by eauto.
Qed.

Lemma member_read nid us m l : member_ok nid m ->
  load_member (V := V) nid us (config_of_member m) l =
    Ok (mkLoaded (ld_members l ++ [m.1]) (match own_com us m with Some c => Some c | None => ld_our_com l end)
          (ld_peer_coms l ++ option_list (peer_com us m))).
Proof.
  destruct m as [m c]. intros (Ha & Hm & H4 & H6 & Hc). unfold load_member, config_of_member. cbn [fst snd] in *.
  cbn [sm_address sm_ipv4 sm_ipv6 sm_authorized sm_com]. rewrite zt_address_read by done. cbn [rbind].
  unfold parse_ipv4_cidr, parse_ipv6_cidr.
  rewrite (cidrs_read _ _ 4) by (done || (intros ip Hip; split; [apply Pools.no_slash|by apply RuleJson.ipv4_back])). cbn [rbind].
  rewrite (cidrs_read _ _ 16) by (done || (intros ip Hip; split; [apply RuleJson.no_slash_v6|by apply IpDisplay.read_ipv6_display])).
  cbn [rbind]. rewrite <- Hm. replace (mkMember _ _ _ _ _) with m by (by destruct m).
  unfold own_com, peer_com. cbn [fst snd]. destruct c as [c|]; cbn [fmap option_fmap option_map].
  - rewrite com_read by done. cbn [rbind]. case_bool_decide; cbn [option_list]; by rewrite ?app_nil_r.
  - case_bool_decide; cbn [option_list]; by rewrite app_nil_r.
Qed.

Lemma members_read nid us ms l : Forall (member_ok nid) ms ->
  for_each (map config_of_member ms) (load_member (V := V) nid us) l =
    Ok (mkLoaded (ld_members l ++ map fst ms) (match last (omap (own_com us) ms) with Some c => Some c | None => ld_our_com l end)
          (ld_peer_coms l ++ omap (peer_com us) ms)).
Proof.
  intros Hms. revert l. induction Hms as [|m ms Hm _ IH]; intros l; cbn [map for_each omap list_omap].
  { cbn [last]. rewrite !app_nil_r. by destruct l. }
  rewrite member_read by done. cbn [rbind]. rewrite IH. cbn [ld_members ld_our_com ld_peer_coms]. rewrite <- !app_assoc. do 2 f_equal.
  - destruct (own_com us m) as [c|]; [|done]. rewrite last_cons. by destruct (last _).
  - by destruct (peer_com us m).
Qed.

(** A network written to a file is the network loaded from it: members in order with the
    addresses derived from the network, our certificate the last given for us and the file's own
    otherwise, the certificates of the others in order. *)
Theorem static_network_roundtrip (nid mtu limit : Z) (ms : list (NetworkMember * option CertificateOfMembership))
    (com : CertificateOfMembership) (routes : list Route) (us : bytes) :
  u64_ok nid -> Forall (member_ok nid) ms -> com_ok us com ->
  from_static_config (V := V) (config_of nid mtu ms com routes limit) us = Ok
    {| nw_network_id := nid; nw_members := map fst ms; nw_our_com := Some (default com (last (omap (own_com us) ms)));
       nw_peer_coms := omap (peer_com us) ms; nw_mtu := mtu; nw_assigned_ipv4 := None; nw_assigned_ipv6 := None; nw_routes := routes;
       nw_pending_config_request := false; nw_last_config_request := 0; nw_last_multicast_like := 0; nw_last_multicast_gather := 0 |}.
Proof.
  intros Hn Hms Hc. unfold from_static_config, config_of. cbn [sn_network_id sn_members sn_com sn_mtu sn_routes].
  rewrite from_str_pad by done. cbn [ok_or rbind]. rewrite members_read by done. cbn [rbind ld_members ld_our_com ld_peer_coms app].
  replace (map _ (map _ routes)) with routes by (induction routes as [|[] ? IH]; [done|]; cbn [map]; by rewrite <- IH).
  destruct (last _) as [c|]; cbn [default from_option id]; [done|]. by rewrite com_read.
Qed.

End Written.

(** ** Totality *)

Section Total.
Context {V : Type} `{JsonValue V}.

Definition com_ascii (c : StaticComConfig V) : Prop := ascii (sc_signer_address c) /\ ascii (sc_signature c).
Definition config_ascii (config : StaticNetworkConfig V) : Prop :=
  com_ascii (sn_com config) /\
  Forall (fun m => ascii (sm_address m) /\ match sm_com m with Some c => com_ascii c | None => True end) (sn_members config).

Lemma zt_address_runs s : ascii s -> safe (parse_zt_address s) (fun a => len a = 5).
Proof.
  intros Hs. unfold parse_zt_address. apply wp_if; [done|]. intros Hl. bools.
  eapply wp_mono; [apply (pairs_run _ 0 5 Hs); lia| |done]. unfold len. lia.
Qed.

Lemma hex_bytes_runs s : ascii s -> safe (parse_hex_bytes s) (fun bs => 2 * len bs = len s).
Proof.
  intros Hs. unfold parse_hex_bytes. apply wp_if; [done|]. intros Hl. bools. pose proof (len_nonneg s).
  assert (2 * Z.of_nat (Z.to_nat (len s / 2)) = len s) by div_lia.
  eapply wp_mono; [apply (pairs_run _ 0 _ Hs); lia| |done]. unfold len in *. intros bs Hb. lia.
Qed.

Lemma qualifiers_run (qs : list (StaticQualifierConfig V)) : safe (parse_qualifiers qs) (fun r => length r = length qs).
Proof.
  induction qs as [|q qs IH]; cbn [parse_qualifiers]; [done|]. apply wp_bind. unfold qualifier_value.
  apply (wp_mono _ (fun _ => True) _ (fun _ => True)); [by case_match; [apply wp_ok_or|]| |done]. intros v _.
  apply wp_bind. eapply wp_mono; [exact IH| |done]. intros r Hr. cbn. by f_equal.
Qed.

Lemma com_runs (c : StaticComConfig V) issued_to : com_ascii c ->
  safe (parse_static_com c issued_to) (fun c => com_issued_to c = issued_to /\ len (com_signature c) = 96).
Proof.
  intros [Ha Hs]. unfold parse_static_com. apply wp_bind. eapply wp_mono; [apply qualifiers_run| |done]. intros qs _.
  apply wp_bind. eapply wp_mono; [by apply zt_address_runs| |done]. intros a _.
  apply wp_bind. eapply wp_mono; [by apply hex_bytes_runs| |done]. intros sig _. split; [done|]. cbn [com_signature].
  unfold len. rewrite length_app, length_take, length_replicate. lia.
Qed.

Lemma cidrs_run parse (o : option bytes) : safe (transpose (parse_cidr parse) o) (fun _ => True).
Proof.
  destruct o as [s|]; [|done]. cbn [transpose]. unfold parse_cidr. destruct (split_on _ _) as [|ip [|prefix [|]]]; try done.
  destruct (parse ip); [|done]. by destruct (parse_u8 prefix).
Qed.

Lemma member_runs nid us (m : StaticMemberConfig V) l : ascii (sm_address m) ->
  match sm_com m with Some c => com_ascii c | None => True end ->
  safe (load_member nid us m l) (fun l' => length (ld_members l') = S (length (ld_members l))).
Proof.
  intros Ha Hc. unfold load_member. apply wp_bind. eapply wp_mono; [by apply zt_address_runs| |done]. intros a _.
  apply wp_bind. eapply wp_mono; [apply cidrs_run| |done]. intros v4 _.
  apply wp_bind. eapply wp_mono; [apply cidrs_run| |done]. intros v6 _.
  destruct (sm_com m) as [c|]; [|by cbn; rewrite length_app, Nat.add_comm].
  apply wp_bind. eapply wp_mono; [by apply com_runs| |done]. intros com _.
  case_bool_decide; cbn; by rewrite length_app, Nat.add_comm.
Qed.

(** Loading ends, with a membership that has a certificate of ours or an error, whenever the
    hexadecimal fields are ASCII. *)
Theorem static_config_runs (config : StaticNetworkConfig V) (us : bytes) : config_ascii config ->
  safe (from_static_config config us) (fun n => nw_our_com n <> None /\ nw_mtu n = sn_mtu config).
Proof.
  intros [Hc Hms]. unfold from_static_config. apply wp_bind, wp_ok_or; [|done]. intros nid _. apply wp_bind.
  apply (wp_for_each (fun _ => True)); [|done|].
  - intros m l Hin _. rewrite Forall_forall in Hms. destruct (Hms m Hin) as [? ?].
    by eapply wp_mono; [apply member_runs| |].
  - intros l _. apply wp_bind. apply (wp_mono _ (fun _ => True) _ (fun _ => True)); [|done|done].
    destruct (ld_our_com l); [done|]. by eapply wp_mono; [apply com_runs| |].
Qed.

End Total.

(** An address of ten bytes may cut a character in two. *)
Example address_panics : parse_zt_address (map b8 [0x61; 0xc3; 0xa9; 0x61; 0x61; 0x61; 0x61; 0x61; 0x61; 0x61]) = Panic.
Proof. by vm_compute. Qed.

(** The configuration of the module's own test. *)
Definition test_signature : bytes := replicate 192 "0"%byte.
Definition test_config : StaticNetworkConfig Value :=
  mkStaticNetwork (str "ff00000000abcdef") 2800
    [mkStaticMember (str "a0b1c2d3e4") (Some (str "10.147.20.1/24")) (Some (str "fd00::1/64")) true None;
     mkStaticMember (str "f0e1d2c3b4") (Some (str "10.147.20.2/24")) None true None]
    (mkStaticCom [mkStaticQualifier 0 (VNumber 1711500000000) 360000; mkStaticQualifier 1 (VString (str "ff00000000abcdef")) 0;
                  mkStaticQualifier 2 (VString (str "00a0b1c2d3e4")) 0] (str "a0b1c2d3e4") test_signature)
    [mkStaticRoute (str "10.147.20.0/24"); mkStaticRoute (str "fd00::/64")] 32.

Example test_config_loads :
  match from_static_config test_config (map b8 [0xa0; 0xb1; 0xc2; 0xd3; 0xe4]) with
  | Ok n =>
      nw_network_id n = 0xff00000000abcdef /\ nw_mtu n = 2800 /\
      map nm_ipv4 (nw_members n) = [Some (map b8 [10; 147; 20; 1], 24); Some (map b8 [10; 147; 20; 2], 24)] /\
      match nw_our_com n with
      | Some c => map q_value (com_qualifiers c) = [1711500000000; 0xff00000000abcdef; 0xa0b1c2d3e4]
      | None => False
      end
  | _ => False
  end.
Proof. by vm_compute. Qed.

End StaticConfig.
