(* ===== verification/Engine.v ===== *)
(** * Engine: the network controller (zerotier-node: controller/engine.rs): networks, member
    authorization, address assignment, certificates and configuration requests. *)
From S2P Require Export Config Network.

Inductive ControllerError :=
  | NetworkNotFound
  | MemberNotAuthorized
  | NoAvailableIp
  | StorageError (msg : bytes).

(** The storage is the state the operations run on. *)
Record Controller := mkController { ctl_address : bytes; ctl_signing_key : bytes }.

Record ConfigResponse := mkConfigResponse { cr_config : NetConfP.t; cr_credentials : CredP.t }.

Module Engine.

(** ** Addresses and certificates *)

Definition zt_address_to_u64 (addr : bytes) : Z :=
  let a i := u8 (nth i addr (b8 0)) in
  Z.lor (Z.lor (Z.lor (Z.lor (Z.shiftl (a 0%nat) 32) (Z.shiftl (a 1%nat) 24)) (Z.shiftl (a 2%nat) 16))
    (Z.shiftl (a 3%nat) 8)) (a 4%nat).

Definition u64_to_zt_address (addr : Z) : bytes :=
  map b8 [Z.shiftr addr 32; Z.shiftr addr 24; Z.shiftr addr 16; Z.shiftr addr 8; addr].

Section Com.
Context `{Prims}.

Definition build_signed_com (signing_key signer_address : bytes) (network_id issued_to timestamp : Z)
    : CertificateOfMembership :=
  let qualifiers := [mkComQualifier 0 timestamp 360000; mkComQualifier 1 network_id 0;
                     mkComQualifier 2 issued_to U64_MAX] in
  let signed_data := flat_map (fun q => to_be 8 (q_id q) ++ to_be 8 (q_value q) ++ to_be 8 (q_max_delta q)) qualifiers in
  let signature := sign signing_key signed_data in
  mkCom (u64_to_zt_address issued_to) qualifiers signer_address signature.

(** ** The peer directory *)

Definition serialize_assignment_inet {E} (assignment : option bytes) : res E bytes :=
  match assignment with
  | None => Ok [b8 0]
  | Some assignment =>
      let '(ip, rest) := match Config.split_once Config.SLASH assignment with
                         | Some (ip, p) => (ip, Some p)
                         | None => (assignment, None)
                         end in
      let default_prefix := if Config.contains Config.COLON ip then 128 else 32 in
      let prefix := match rest with Some p => default default_prefix (parse_u8 p) | None => default_prefix end in
      Config.serialize_inet_address ip prefix
  end.

Definition has_colon (s : bytes) : bool := Config.contains Config.COLON s.

Definition directory_entry {E} (network_id now_ms : Z) (signing_key controller_address : bytes)
    (member : MemberRecord) : res E bytes :=
  let* v4 := serialize_assignment_inet (find (fun a => negb (has_colon a)) (m_ip_assignments member)) in
  let* v6 := serialize_assignment_inet (find has_colon (m_ip_assignments member)) in
  let com := build_signed_com signing_key controller_address network_id (zt_address_to_u64 (m_node_id member)) now_ms in
  let* com_raw := Config.serialize_com com in
  Ok (m_node_id member ++ v4 ++ v6 ++ com_raw).

Definition eligible (member : MemberRecord) : bool :=
  m_authorized member && negb (bool_decide (m_ip_assignments member = [])).

Definition serialize_peer_directory {E} (members : list MemberRecord) (network_id now_ms : Z)
    (signing_key controller_address : bytes) : res E bytes :=
  let eligible := filter (fun m => eligible m = true) members in
  let* entries := Config.extend_all (directory_entry network_id now_ms signing_key controller_address) eligible in
  Ok (to_be 2 (wrap 16 (len eligible)) ++ entries).

Definition display_dictionary_error (e : DictionaryError) : bytes :=
  match e with
  | InvalidKey => str "dictionary key is not valid UTF-8"
  | MissingEquals => str "dictionary entry is missing '=' separator"
  end.

Definition append_peer_directory (dict_data : bytes) (members : list MemberRecord) (network_id now_ms : Z)
    (signing_key controller_address : bytes) : res ControllerError bytes :=
  let* dict := map_err (fun e => StorageError (str "dict deserialize failed: " ++ display_dictionary_error e))
                 (Dict.deserialize dict_data) in
  let* directory := serialize_peer_directory members network_id now_ms signing_key controller_address in
  let dict := Config.add_nonempty dict (str "PM") directory in
  Ok (Dict.serialize dict).

End Com.

(** ** Operations on the store *)

Section Engine.
Context `{Prims} {S Er : Type} `{ControllerStorage S Er}.

(** A store transformer with a result: the store keeps the writes made before a failure. *)
Definition M (A : Type) : Type := S -> S * res ControllerError A.

Definition mret {A} (a : A) : M A := fun s => (s, Ok a).
Definition mfail {A} (e : ControllerError) : M A := fun s => (s, Err e).
Definition mbind {A B} (m : M A) (k : A -> M B) : M B := fun s =>
  let '(s', r) := m s in
  match r with
  | Ok a => k a s'
  | Err e => (s', Err e)
  | Panic => (s', Panic)
  | Hang => (s', Hang)
  end.

(** [.await.map_err(|e| StorageError(format!("{}", e)))?]. *)
Definition storage_error (e : Er) : ControllerError := StorageError (display_error e).
Definition mread {A} (r : S -> res Er A) : M A := fun s => (s, map_err storage_error (r s)).
Definition mwrite (w : S -> S * res Er unit) : M unit := fun s =>
  let '(s', r) := w s in (s', map_err storage_error r).
Definition mpure {A} (r : res ControllerError A) : M A := fun s => (s, r).

Notation "'let!' x ':=' m 'in' k" := (mbind m (fun x => k))
  (at level 10, x name, m at level 100, k at level 200).
Notation "m ';!' k" := (mbind m (fun _ => k)) (at level 100, k at level 200, right associativity).

Definition create_network (c : Controller) (random_24_bits now_ms : Z) : M Z :=
  let addr_u64 := zt_address_to_u64 (ctl_address c) in
  let network_id := Z.lor (wrap 64 (Z.shiftl addr_u64 24)) (Z.land random_24_bits 0x00FFFFFF) in
  let network := mkNetworkRecord network_id [] true now_ms 1 32 2800 (str "zt") (str "none") [] [] [] true in
  mwrite (fun s => Storage.create_network s network);!
  mret network_id.

Definition new_member (network_id : Z) (requester : bytes) (now_ms : Z) : MemberRecord :=
  mkMemberRecord network_id requester false [] now_ms now_ms [] 0 0 0 false false [] [].

Definition set_authorized (b : bool) (m : MemberRecord) : MemberRecord :=
  mkMemberRecord (m_network_id m) (m_node_id m) b (m_ip_assignments m) (m_creation_time m) (m_last_seen m)
    (m_name m) (m_revision m) (m_last_authorized_time m) (m_last_deauthorized_time m) (m_active_bridge m)
    (m_no_auto_assign_ips m) (m_capabilities m) (m_tags m).
Definition push_ip (ip_str : bytes) (m : MemberRecord) : MemberRecord :=
  mkMemberRecord (m_network_id m) (m_node_id m) (m_authorized m) (m_ip_assignments m ++ [ip_str])
    (m_creation_time m) (m_last_seen m)
    (m_name m) (m_revision m) (m_last_authorized_time m) (m_last_deauthorized_time m) (m_active_bridge m)
    (m_no_auto_assign_ips m) (m_capabilities m) (m_tags m).
Definition set_last_seen (now_ms : Z) (m : MemberRecord) : MemberRecord :=
  mkMemberRecord (m_network_id m) (m_node_id m) (m_authorized m) (m_ip_assignments m) (m_creation_time m) now_ms
    (m_name m) (m_revision m) (m_last_authorized_time m) (m_last_deauthorized_time m) (m_active_bridge m)
    (m_no_auto_assign_ips m) (m_capabilities m) (m_tags m).

Definition upsert (m : MemberRecord) : M unit := mwrite (fun s => upsert_member s m).

(** "Look up or create member". *)
Definition lookup_or_create (network_id : Z) (requester : bytes) (now_ms : Z) : M MemberRecord :=
  let! found := mread (fun s => get_member s network_id requester) in
  match found with
  | Some m => mret m
  | None => let m := new_member network_id requester now_ms in upsert m;! mret m
  end.

(** "Authorization policy". *)
Definition authorize_policy (network : NetworkRecord) (member : MemberRecord) : M MemberRecord :=
  if n_private network then
    if negb (m_authorized member) then mfail MemberNotAuthorized else mret member
  else if negb (m_authorized member) then
    let member := set_authorized true member in upsert member;! mret member
  else mret member.

(** "Auto-assign IP if needed". *)
Definition assign_ip (network : NetworkRecord) (network_id : Z) (member : MemberRecord) : M MemberRecord :=
  if bool_decide (m_ip_assignments member = []) && bool_decide (n_v4_assign_mode network = str "zt") then
    let! pools := mread (fun s => get_ip_pools s network_id) in
    match pools with
    | [] => mret member
    | _ =>
        let! assigned := mread (fun s => get_assigned_ips s network_id) in
        match Pools.allocate_ipv4 pools assigned with
        | Some ip =>
            let member := push_ip (Pools.format_ipv4 ip ++ str "/24") member in
            upsert member;! mret member
        | None => mret member
        end
    end
  else mret member.

(** The records of the listed members, those that have vanished left out. *)
Fixpoint load_members (network_id : Z) (member_ids : list bytes) : M (list MemberRecord) :=
  match member_ids with
  | [] => mret []
  | member_id :: member_ids =>
      let! record := mread (fun s => get_member s network_id member_id) in
      let! members := load_members network_id member_ids in
      mret (match record with Some r => r :: members | None => members end)
  end.

Definition granted_capabilities (network : NetworkRecord) (member : MemberRecord) : list Capability :=
  filter (fun cap => existsb (fun id => id =? cap_id cap) (m_capabilities member) = true) (n_capabilities network).

Definition issue_capabilities (c : Controller) (network : NetworkRecord) (network_id : Z) (member : MemberRecord)
    (requester : bytes) (now_ms : Z) : bytes :=
  let member_caps := granted_capabilities network member in
  if bool_decide (length member_caps = O) then [] else
  Rules.serialize_capabilities_signed member_caps network_id requester (ctl_address c) now_ms (ctl_signing_key c).

Definition issue_tags (c : Controller) (network_id : Z) (member : MemberRecord) (requester : bytes) (now_ms : Z) : bytes :=
  if bool_decide (length (m_tags member) = O) then [] else
  Rules.serialize_tags_signed (m_tags member) network_id requester (ctl_address c) now_ms (ctl_signing_key c).

Definition handle_config_request (c : Controller) (network_id : Z) (requester : bytes) (now_ms : Z)
    : M ConfigResponse :=
  let! found := mread (fun s => get_network s network_id) in
  let! network := mpure (ok_or NetworkNotFound found) in
  let! member := lookup_or_create network_id requester now_ms in
  let! member := authorize_policy network member in
  let! member := assign_ip network network_id member in
  let member := set_last_seen now_ms member in
  upsert member;!
  let! routes := mread (fun s => get_routes s network_id) in
  let com := build_signed_com (ctl_signing_key c) (ctl_address c) network_id (zt_address_to_u64 requester) now_ms in
  let capabilities_raw := issue_capabilities c network network_id member requester now_ms in
  let tags_raw := issue_tags c network_id member requester now_ms in
  let! dict_data := mpure (Config.build_network_config network member routes com now_ms capabilities_raw tags_raw) in
  let! member_ids := mread (fun s => list_members s network_id) in
  let! members := load_members network_id member_ids in
  let! dict_data := mpure (append_peer_directory dict_data members network_id now_ms (ctl_signing_key c) (ctl_address c)) in
  let config := NetConfP.mk network_id dict_data None None None None None None in
  let credentials := CredP.mk (Some com) capabilities_raw tags_raw [] [] in
  mret (mkConfigResponse config credentials).

Definition set_member_authorized (b : bool) (network_id : Z) (node_id : bytes) : M unit :=
  let! found := mread (fun s => get_member s network_id node_id) in
  let! member := mpure (ok_or NetworkNotFound found) in
  upsert (set_authorized b member).

Definition authorize_member : Z -> bytes -> M unit := set_member_authorized true.
Definition deauthorize_member : Z -> bytes -> M unit := set_member_authorized false.

End Engine.

(** ** Certificates *)

Lemma zt_address_sum addr :
  let a i := u8 (nth i addr (b8 0)) in
  zt_address_to_u64 addr =
    a 0%nat * 2 ^ 32 + (a 1%nat * 2 ^ 24 + (a 2%nat * 2 ^ 16 + (a 3%nat * 2 ^ 8 + a 4%nat))).
Proof.
  cbv zeta. unfold zt_address_to_u64. cbv zeta.
  pose proof (u8_range (nth 0 addr (b8 0))). pose proof (u8_range (nth 1 addr (b8 0))).
  pose proof (u8_range (nth 2 addr (b8 0))). pose proof (u8_range (nth 3 addr (b8 0))).
  pose proof (u8_range (nth 4 addr (b8 0))).
  rewrite <- !Z.lor_assoc. rewrite (lor_shiftl_add _ _ 8) by lia. rewrite (lor_shiftl_add _ _ 16) by lia.
  rewrite (lor_shiftl_add _ _ 24) by lia. by rewrite (lor_shiftl_add _ _ 32) by lia.
Qed.

Lemma zt_address_range addr : 0 <= zt_address_to_u64 addr < 2 ^ 40.
Proof.
  rewrite zt_address_sum. pose proof (u8_range (nth 0 addr (b8 0))). pose proof (u8_range (nth 1 addr (b8 0))).
  pose proof (u8_range (nth 2 addr (b8 0))). pose proof (u8_range (nth 3 addr (b8 0))).
  pose proof (u8_range (nth 4 addr (b8 0))). lia.
Qed.

Lemma zt_address_from_be addr : len addr = 5 -> zt_address_to_u64 addr = from_be addr.
Proof.
  intros Hl. rewrite zt_address_sum. destruct addr as [|a [|b [|c [|d [|e [|]]]]]]; unfold len in Hl; simpl in Hl; try lia.
  unfold from_be. cbn [nth fold_left]. lia.
Qed.

Lemma zt_address_roundtrip addr : len addr = 5 -> u64_to_zt_address (zt_address_to_u64 addr) = addr.
Proof.
  intros Hl. rewrite zt_address_from_be by done.
  assert (length addr = 5%nat) as Hn by (unfold len in Hl; lia).
  rewrite <- (to_be_from_be addr) at 2. rewrite Hn. unfold u64_to_zt_address. cbn [map].
  rewrite !Z.shiftr_div_pow2 by lia. unfold to_be; fold to_be.
  change (2 ^ 32) with (256 * 256 * 256 * 256). change (2 ^ 24) with (256 * 256 * 256).
  change (2 ^ 16) with (256 * 256). change (2 ^ 8) with 256.
  rewrite <- !Z.div_div by lia. done.
Qed.

Section Coms.
Context `{PrimLaws}.

Lemma signed_com_shape sk addr nid issued_to ts : len sk = 32 -> len addr = 5 -> u64_ok nid -> u64_ok ts ->
  u64_ok issued_to -> Com.shape (build_signed_com sk addr nid issued_to ts).
Proof.
  intros Hk Ha Hn Ht Hi. unfold Com.shape, build_signed_com, Com.qualifier_ok. cbn [com_qualifiers com_signer_address com_signature].
  split; [|split; [done|by apply len_sign]]. repeat constructor; cbn [q_id q_value q_max_delta]; try apply Hn; try apply Ht; try apply Hi; unfold u64_ok, U64_MAX; lia.
Qed.

Lemma zt_address_u64 addr : u64_ok (zt_address_to_u64 addr).
Proof. pose proof (zt_address_range addr). unfold u64_ok, U64_MAX. lia. Qed.

(** The signature of an issued certificate holds. *)
Lemma signed_com_verifies sk addr nid issued_to ts : len sk = 32 ->
  Network.com_verify_signature (build_signed_com sk addr nid issued_to ts) (ed25519_public sk) = true.
Proof.
  intros Hk. unfold Network.com_verify_signature, build_signed_com. cbn [com_qualifiers com_signature].
  match goal with |- context [Network.sort_by_id ?l] => change (Network.sort_by_id l) with l end.
  rewrite flat_map_concat_map. unfold Network.signed_qualifier. by rewrite verify_sign.
Qed.

Lemma signed_com_wf sk addr nid subject ts : len sk = 32 -> len addr = 5 -> len subject = 5 -> u64_ok nid ->
  u64_ok ts -> addr <> replicate 5 (b8 0) ->
  Com.wf (build_signed_com sk addr nid (zt_address_to_u64 subject) ts).
Proof.
  intros Hk Ha Hs Hn Ht Hne. split; [by apply signed_com_shape; try done; apply zt_address_u64|].
  split; [done|]. split; [|done]. cbn [com_issued_to build_signed_com com_qualifiers].
  change (Com.issued_to_of _) with (drop 3 (to_be 8 (zt_address_to_u64 subject))).
  change 8%nat with (3 + 5)%nat. rewrite Rules.to_be_drop, zt_address_roundtrip, zt_address_from_be by done.
  assert (5%nat = length subject) as -> by (unfold len in Hs; lia). by rewrite to_be_from_be.
Qed.

(** A holder of an issued certificate accepts another one exactly when they agree. *)
Lemma signed_com_agrees (c : Controller) (n : NetworkMembership) (peer : bytes) nid1 nid2 t1 t2 s1 s2 :
  len (ctl_signing_key c) = 32 ->
  nw_our_com n = Some (build_signed_com (ctl_signing_key c) (ctl_address c) nid1 s1 t1) ->
  Network.verify_peer_com n peer (build_signed_com (ctl_signing_key c) (ctl_address c) nid2 s2 t2)
    (ctl_address c) (Some (ed25519_public (ctl_signing_key c))) = true <->
  nid1 = nid2 /\ Z.abs (t1 - t2) <= 360000.
Proof.
  intros Hk Hour. unfold Network.verify_peer_com. rewrite Hour.
  rewrite signed_com_verifies by done. cbn [com_signer_address build_signed_com].
  rewrite bool_decide_true by done. rewrite andb_true_r.
  unfold Network.peer_com_agrees_with, build_signed_com, Network.qualifier_agrees, Network.abs_diff.
  cbn [com_qualifiers forallb Com.find_qualifier find q_id q_value q_max_delta Z.eqb Pos.eqb orb].
  destruct (Z.abs (t1 - t2) <=? 360000) eqn:E1, (Z.abs (nid1 - nid2) <=? 0) eqn:E2; simpl; split; try done; zlia.
Qed.

(** C29. Two members of one network can talk: a member that holds a certificate issued by the
    controller accepts a certificate issued to any other member exactly when it is for the
    same network and was issued within six minutes of its own; every issued certificate
    names its subject and survives the wire. *)
Theorem issued_coms_agree (c : Controller) (n : NetworkMembership) (peer : bytes)
    (nid1 nid2 t1 t2 : Z) (a1 a2 : bytes) :
  len (ctl_signing_key c) = 32 -> len (ctl_address c) = 5 -> len a2 = 5 -> u64_ok nid2 -> u64_ok t2 ->
  nw_our_com n = Some (build_signed_com (ctl_signing_key c) (ctl_address c) nid1 (zt_address_to_u64 a1) t1) ->
  let com := build_signed_com (ctl_signing_key c) (ctl_address c) nid2 (zt_address_to_u64 a2) t2 in
  (Network.verify_peer_com n peer com (ctl_address c) (Some (ed25519_public (ctl_signing_key c))) = true <->
   nid1 = nid2 /\ Z.abs (t1 - t2) <= 360000) /\
  com_issued_to com = a2 /\
  (ctl_address c <> replicate 5 (b8 0) -> Com.deserialize (Com.encode com) = Ok (com, len (Com.encode com))).
Proof.
  intros Hk Ha Ha2 Hn Ht Hour com. split; [by eapply signed_com_agrees|split; [by apply zt_address_roundtrip|]].
  intros Hne. rewrite <- (app_nil_r (Com.encode com)) at 1. by apply Com.com_deserialize_encode, signed_com_wf.
Qed.
End Coms.

(** ** Reasoning about store transformers *)

Section Steps.
Context `{PrimLaws} {S Er : Type} `{StorageLaws S Er}.
Notation M := (@M S).

(** From a good store, [m] ends in a good store without a panic; a value satisfies [Q] and a
    failure satisfies [R], both in the store they leave. *)
Definition mwp {A} (m : M A) (s : S) (Q : S -> A -> Prop) (R : S -> ControllerError -> Prop) : Prop :=
  let '(s', r) := m s in inv s' /\ wp r (Q s') (R s').

Lemma mwp_ret {A} (a : A) s (Q : S -> A -> Prop) R : inv s -> Q s a -> mwp (mret a) s Q R.
Proof. done. Qed.

Lemma mwp_fail {A} e s (Q : S -> A -> Prop) (R : S -> ControllerError -> Prop) : inv s -> R s e -> mwp (mfail e) s Q R.
Proof. done. Qed.

Lemma mwp_bind {A B} (m : M A) (k : A -> M B) s Q R :
  mwp m s (fun s' a => inv s' -> mwp (k a) s' Q R) R -> mwp (mbind m k) s Q R.
Proof. unfold mwp, mbind. destruct (m s) as [s' [a| e | |]]; intros [Hi Hr]; try done. by apply Hr. Qed.

Lemma mwp_pure {A} (r : res ControllerError A) s (Q : S -> A -> Prop) (R : S -> ControllerError -> Prop) :
  inv s -> wp r (Q s) (R s) -> mwp (mpure r) s Q R.
Proof. done. Qed.

Lemma mwp_read {A} (r : S -> res Er A) s (T : A -> Prop) (Q : S -> A -> Prop) (R : S -> ControllerError -> Prop) :
  inv s -> wp (r s) T (fun _ => fallible) -> (forall a, T a -> Q s a) ->
  (forall msg, fallible -> R s (StorageError msg)) -> mwp (mread r) s Q R.
Proof.
  intros Hi Hr Hq HR. unfold mwp, mread. split; [done|].
  destruct (r s); simpl in *; try done; [by apply Hq|by apply HR].
Qed.

Lemma mwp_upsert m s (Q : S -> unit -> Prop) (R : S -> ControllerError -> Prop) : inv s -> member_typed m ->
  (forall s', inv s' -> view_eq (view s') (put_member (view s) m) -> Q s' tt) ->
  (forall s' msg, fallible -> inv s' -> view_eq (view s') (view s) -> R s' (StorageError msg)) ->
  mwp (upsert m) s Q R.
Proof.
  intros Hi Hm HQ HR. unfold mwp, upsert, mwrite. pose proof (upsert_member_ok s m Hi Hm) as Hu.
  destruct (upsert_member s m) as [s' r]. destruct Hu as [Hi' Hr]. split; [done|].
  destruct r as [[]| | |]; simpl in *; try done; [by apply HQ|by apply HR; destruct Hr].
Qed.

Lemma mwp_mono {A} (m : M A) s (Q Q' : S -> A -> Prop) (R R' : S -> ControllerError -> Prop) :
  mwp m s Q R -> (forall s' a, inv s' -> Q s' a -> Q' s' a) -> (forall s' e, inv s' -> R s' e -> R' s' e) -> mwp m s Q' R'.
Proof.
  unfold mwp. destruct (m s) as [s' r]. intros [Hi Hr] HQ HR. split; [done|].
  destruct r; simpl in *; try done; auto.
Qed.

(** Only the record of one member may differ. *)
Definition frame (v w : View) (nid : Z) (a : bytes) : Prop :=
  (forall id, v_network w id = v_network v id) /\
  (forall id b, ~ (id = nid /\ b = a) -> v_member w id b = v_member v id b) /\
  (forall id, v_pools w id = v_pools v id) /\ (forall id, v_routes w id = v_routes v id).

Lemma frame_refl v w nid a : view_eq w v -> frame v w nid a.
Proof. intros (H1' & H2 & H3 & H4). split_and!; auto. Qed.

Lemma frame_trans u v w nid a : frame u v nid a -> frame v w nid a -> frame u w nid a.
Proof.
  intros (A1 & A2 & A3 & A4) (B1 & B2 & B3 & B4). split_and!; intros *; rewrite ?B1, ?B3, ?B4; auto.
  intros Hne. rewrite B2 by done. by apply A2.
Qed.

Lemma frame_put v w m nid a : m_network_id m = nid -> m_node_id m = a -> view_eq w (put_member v m) ->
  frame v w nid a /\ v_member w nid a = Some m.
Proof.
  intros <- <- (E1 & E2 & E3 & E4). split.
  - split_and!; intros; rewrite ?E1, ?E2, ?E3, ?E4; simpl; try done. by rewrite decide_False.
  - rewrite E2. simpl. by rewrite decide_True.
Qed.

(** ** What the stored records must be like *)

(** A record as its type has it, with assignments the configuration builder can take. *)
Definition member_ok (m : MemberRecord) : Prop := member_typed m /\ Forall Config.assignment_ok (m_ip_assignments m).

Lemma set_authorized_member_ok b m : member_ok m -> member_ok (set_authorized b m).
Proof. intros [[] Hi]. by split; [split|]. Qed.

Lemma set_last_seen_member_ok now m : u64_ok now -> member_ok m -> member_ok (set_last_seen now m).
Proof. intros Hn [[? ? ? [? _] ? ? ? ? ?] Hi]. by split; [split|]. Qed.

Lemma new_member_ok nid a now : u64_ok nid -> len a = 5 -> u64_ok now -> member_ok (new_member nid a now).
Proof. intros. split; [|constructor]. split; try done; cbn; constructor; done. Qed.

(** Assignments are texts the configuration builder can take, routes too, and the numbers
    fit their fields. *)
Definition view_ok (v : View) : Prop :=
  (forall id n, v_network v id = Some n -> Config.network_ok n) /\
  (forall id a m, v_member v id a = Some m -> member_ok m) /\
  (forall id, Forall Pools.pool_wf (v_pools v id)) /\
  (forall id, Forall Config.route_ok (v_routes v id)).

Lemma view_ok_put v w m nid a : view_ok v -> frame v w nid a -> v_member w nid a = Some m ->
  member_ok m -> view_ok w.
Proof.
  intros (O1 & O2 & O3 & O4) (F1 & F2 & F3 & F4) Hm Ha. split_and!.
  - intros id n. rewrite F1. apply O1.
  - intros id b x. destruct (decide (id = nid /\ b = a)) as [[-> ->]|Hne].
    + rewrite Hm. by intros [= <-].
    + rewrite F2 by done. apply O2.
  - intros id. rewrite F3. apply O3.
  - intros id. rewrite F4. apply O4.
Qed.

Lemma view_ok_eq v w : view_ok v -> view_eq w v -> view_ok w.
Proof.
  intros (O1 & O2 & O3 & O4) (F1 & F2 & F3 & F4). split_and!; intros *; rewrite ?F1, ?F2, ?F3, ?F4; eauto.
Qed.

(** ** No address twice *)

(** No two members of a network have an assignment of the same address. *)
Definition unique (v : View) : Prop :=
  forall id a b ma mb ip, a <> b -> v_member v id a = Some ma -> v_member v id b = Some mb ->
    Pools.taken (m_ip_assignments ma) ip -> Pools.taken (m_ip_assignments mb) ip -> False.

(** What a write of the controller may do: change one member's record, keep the store's
    records good, and keep addresses unique. *)
Definition advance (v w : View) (nid : Z) (a : bytes) : Prop :=
  frame v w nid a /\ (view_ok v -> view_ok w) /\ (unique v -> unique w).

Lemma advance_refl v w nid a : view_eq w v -> advance v w nid a.
Proof.
  intros Hv. split; [by apply frame_refl|]. split; [intros; by eapply view_ok_eq|].
  destruct Hv as (_ & Hm & _ & _). intros Hu id b b' mb mb' ip. rewrite !Hm. apply Hu.
Qed.

Lemma advance_trans u v w nid a : advance u v nid a -> advance v w nid a -> advance u w nid a.
Proof.
  intros (F1 & O1 & U1) (F2 & O2 & U2). split; [by eapply frame_trans|]. split; auto.
Qed.

(** Writing a record whose addresses the member already had, or nobody has. *)
Lemma advance_put v w m nid a : m_network_id m = nid -> m_node_id m = a ->
  member_ok m ->
  (forall ip, Pools.taken (m_ip_assignments m) ip ->
     (exists m0, v_member v nid a = Some m0 /\ Pools.taken (m_ip_assignments m0) ip) \/
     (forall b mb, v_member v nid b = Some mb -> ~ Pools.taken (m_ip_assignments mb) ip)) ->
  view_eq w (put_member v m) -> advance v w nid a /\ v_member w nid a = Some m.
Proof.
  intros Hn Ha Hi Hip Hv. destruct (frame_put v w m nid a Hn Ha Hv) as [Hf Hm]. split; [|done].
  split; [done|]. split; [intros; by eapply view_ok_put|]. destruct Hf as (_ & Hfm & _ & _).
  assert (forall b mb ip, b <> a -> unique v -> v_member w nid b = Some mb -> Pools.taken (m_ip_assignments m) ip ->
    Pools.taken (m_ip_assignments mb) ip -> False) as Hone.
  { intros b mb ip Hb Hu Hmb Ht Ht'. rewrite Hfm in Hmb by naive_solver.
    destruct (Hip ip Ht) as [(m0 & Hm0 & Ht0)|Hfree]; [by apply (Hu nid b a mb m0 ip)|by eapply Hfree]. }
  intros Hu id b b' mb mb' ip Hne Hb Hb' Ht Ht'.
  destruct (decide (id = nid)) as [->|Hid].
  - destruct (decide (b = a)) as [->|]; [|destruct (decide (b' = a)) as [->|]].
    + rewrite Hm in Hb. injection Hb as <-. by eapply (Hone b' mb' ip).
    + rewrite Hm in Hb'. injection Hb' as <-. by eapply (Hone b mb ip).
    + rewrite Hfm in Hb, Hb' by naive_solver. by eapply (Hu nid b b' mb mb' ip).
  - rewrite Hfm in Hb, Hb' by naive_solver. by eapply (Hu id b b' mb mb' ip).
Qed.

(** ** The steps of a configuration request *)

(** [m] is in the store [v'], reached from [v] by changing that record only, and its address
    assignments are those it had before. *)
Definition holds (v v' : View) (nid : Z) (a : bytes) (m : MemberRecord) : Prop :=
  advance v v' nid a /\ v_member v' nid a = Some m /\ m_network_id m = nid /\ m_node_id m = a /\ view_ok v'.

Lemma holds_upsert v s s' nid a m m' : holds v (view s) nid a m ->
  m_network_id m' = m_network_id m -> m_node_id m' = m_node_id m ->
  member_ok m' ->
  (m_ip_assignments m' = m_ip_assignments m \/
   forall ip, Pools.taken (m_ip_assignments m') ip -> forall b mb, v_member (view s) nid b = Some mb ->
     ~ Pools.taken (m_ip_assignments mb) ip) ->
  view_eq (view s') (put_member (view s) m') -> holds v (view s') nid a m'.
Proof.
  intros (Hf & Hm & Hn & Ha & Ho) En Ea Hi Hip Hv.
  destruct (advance_put (view s) (view s') m' nid a ltac:(congruence) ltac:(congruence) Hi) as [Hf' Hm']; [|done|].
  { intros ip Ht. destruct Hip as [Hip|Hip]; [left; exists m; by rewrite <- Hip|right; by apply Hip]. }
  split; [by eapply advance_trans|]. split; [done|]. split; [congruence|]. split; [congruence|].
  by apply Hf'.
Qed.

Lemma holds_ok v v' nid a m : holds v v' nid a m -> member_ok m.
Proof. intros (_ & Hm & _ & _ & (_ & Ho & _)). by eapply Ho. Qed.

Lemma lookup_or_create_ok nid a now s : inv s -> view_ok (view s) -> u64_ok nid -> len a = 5 -> u64_ok now ->
  mwp (lookup_or_create nid a now) s
    (fun s' m => holds (view s) (view s') nid a m /\
       match v_member (view s) nid a with
       | Some m0 => m = m0 /\ s' = s
       | None => m = new_member nid a now
       end)
    (fun s' e => (fallible /\ exists msg, e = StorageError msg) /\ view_eq (view s') (view s)).
Proof.
  intros Hi Ho Hid Hl Hnow. pose proof (new_member_ok nid a now Hid Hl Hnow) as Hnew.
  apply mwp_bind. eapply mwp_read; [done|by apply get_member_ok| |].
  2: { intros msg ?. by split; [eauto|]. }
  intros found ->. intros _. destruct (v_member (view s) nid a) as [m|] eqn:E.
  - apply mwp_ret; [done|]. split; [|done]. destruct (member_key _ _ _ _ Hi E).
    split; [by apply advance_refl|done].
  - apply mwp_bind, mwp_upsert; [done|apply Hnew| |].
    + intros s' Hi' Hv _. apply mwp_ret; [done|]. split; [|done].
      destruct (advance_put (view s) (view s') (new_member nid a now) nid a eq_refl eq_refl) as [Hf Hm];
        [exact Hnew|by intros ip (x & ?%elem_of_nil & _)|done|].
      split; [done|]. split; [done|]. split; [done|]. split; [done|]. by apply Hf.
    + intros s' msg ? Hi' Hv. by split; [eauto|].
Qed.

Lemma authorize_policy_ok v nid a network m s : inv s -> holds v (view s) nid a m ->
  mwp (authorize_policy network m) s
    (fun s' m' => holds v (view s') nid a m' /\ m' = set_authorized true m /\
       (n_private network = true -> m_authorized m = true))
    (fun s' e => advance v (view s') nid a /\
       ((n_private network = false /\ fallible /\ exists msg, e = StorageError msg) \/
        e = MemberNotAuthorized /\ n_private network = true /\ m_authorized m = false /\ s' = s)).
Proof.
  intros Hi Hh. unfold authorize_policy. pose proof Hh as (Hf & _). pose proof (set_authorized_member_ok true m (holds_ok _ _ _ _ _ Hh)) as Hok.
  assert (m_authorized m = true -> set_authorized true m = m) as Hid by (intros E; destruct m; simpl in *; by subst).
  destruct (n_private network), (m_authorized m) eqn:Ea; simpl.
  - apply mwp_ret; [done|]. by rewrite Hid.
  - apply mwp_fail; [done|]. split; [done|]. by right.
  - apply mwp_ret; [done|]. by rewrite Hid.
  - apply mwp_bind, mwp_upsert; [done|apply Hok| |].
    + intros s' Hi' Hv _. apply mwp_ret; [done|]. split; [|done].
      eapply holds_upsert; [exact Hh|done|done|exact Hok|by left|done].
    + intros s' msg ? Hi' Hv. split; [|left; eauto]. eapply advance_trans; [exact Hf|by apply advance_refl].
Qed.

(** What assignment leaves the member with, given what it had: the old addresses, or the
    first free address of the pools if it had none and the network assigns them. *)
Definition assigned_ips (v : View) (net : NetworkRecord) (nid : Z) (old new : list bytes) : Prop :=
  if bool_decide (old = []) && bool_decide (n_v4_assign_mode net = str "zt") then
    match v_pools v nid with
    | [] => new = old
    | pools =>
        exists assigned,
          (forall x, x ∈ assigned <-> exists b r, v_member v nid b = Some r /\ x ∈ m_ip_assignments r) /\
          new = match Pools.allocate_ipv4 pools assigned with
                | Some ip => [Pools.format_ipv4 ip ++ str "/24"]
                | None => []
                end
    end
  else new = old.

(** The addresses a request leaves the member [m] with, given what it had. Of a member that opted
    out of automatic assignment only that it keeps what it had. *)
Definition granted_ips (v : View) (net : NetworkRecord) (nid : Z) (old : list bytes) (m : MemberRecord) : Prop :=
  m_no_auto_assign_ips m = false \/ old <> [] -> assigned_ips v net nid old (m_ip_assignments m).

(** A member with the given addresses, and the rest of the record of [m]. *)
Definition with_ips (ips : list bytes) (m : MemberRecord) : MemberRecord :=
  mkMemberRecord (m_network_id m) (m_node_id m) (m_authorized m) ips (m_creation_time m) (m_last_seen m)
    (m_name m) (m_revision m) (m_last_authorized_time m) (m_last_deauthorized_time m) (m_active_bridge m)
    (m_no_auto_assign_ips m) (m_capabilities m) (m_tags m).

Lemma with_ips_same m : with_ips (m_ip_assignments m) m = m.
Proof. by destruct m. Qed.

Lemma assign_ip_ok v nid a network m s : inv s -> holds v (view s) nid a m ->
  mwp (assign_ip network nid m) s
    (fun s' m' => holds v (view s') nid a m' /\ m' = with_ips (m_ip_assignments m') m /\
       assigned_ips (view s) network nid (m_ip_assignments m) (m_ip_assignments m'))
    (fun s' e => view_eq (view s') (view s) /\ fallible /\ exists msg, e = StorageError msg).
Proof.
  intros Hi Hh. pose proof Hh as (Hf & Hm & Hn & Ha & Ho). pose proof (holds_ok _ _ _ _ _ Hh) as Hmok.
  assert (u64_ok nid) as Hid by (rewrite <- Hn; apply (proj1 Hmok)). unfold assign_ip, assigned_ips.
  destruct (bool_decide (m_ip_assignments m = []) && bool_decide (n_v4_assign_mode network = str "zt")) eqn:Em.
  2: { apply mwp_ret; [done|]. by rewrite with_ips_same. }
  apply andb_true_iff in Em as [Em%bool_decide_eq_true _].
  apply mwp_bind. eapply mwp_read; [done|by apply get_pools_ok| |]; [|intros; split; [done|eauto]].
  intros pools -> _. destruct (v_pools (view s) nid) as [|p ps] eqn:Ep.
  { apply mwp_ret; [done|]. by rewrite with_ips_same. }
  rewrite <- Ep.
  apply mwp_bind. eapply mwp_read; [done|by apply assigned_ips_ok| |]; [|intros; split; [done|eauto]].
  intros assigned Hassigned _. destruct (Pools.allocate_ipv4 _ assigned) as [ip|] eqn:Eip.
  2: { apply mwp_ret; [done|]. rewrite with_ips_same. split; [done|]. split; [done|]. rewrite Ep in *.
       exists assigned. by rewrite Eip. }
  destruct Ho as (_ & _ & Hp & _). destruct (Pools.allocate_free (v_pools (view s) nid) assigned ip (Hp nid) Eip) as [Hl Hfree].
  assert (member_ok (push_ip (Pools.format_ipv4 ip ++ str "/24") m)) as Hpush.
  { destruct Hmok as [[] _]. split; [split; try done|]; cbn [push_ip m_ip_assignments]; rewrite Em; (constructor; [|constructor]).
    - by apply Pools.format_text.
    - by apply Config.format_assignment_ok. }
  apply mwp_bind, mwp_upsert; [done|apply Hpush| |].
  - intros s' Hi' Hv _. apply mwp_ret; [done|]. split; [|split; [done|]].
    2: { rewrite Ep in *. exists assigned. split; [done|]. rewrite Eip. cbn [push_ip m_ip_assignments]. by rewrite Em. }
    eapply holds_upsert; [exact Hh|done|done|exact Hpush|..|done]; cbn [push_ip m_ip_assignments]; rewrite Em.
    right. intros x (t & ->%list_elem_of_singleton & Hx) b mb Hb (t' & Hin & Ht).
      change (str "/24") with ("/"%byte :: str "24") in Hx.
      rewrite (proj2 (Pools.parse_format ip (str "24") Hl)) in Hx. injection Hx as <-.
      apply Hfree. exists t'. split; [|done]. apply Hassigned. eauto.
  - intros s' msg ? Hi' Hv. split; [done|eauto].
Qed.

(** Changing one record without changing its addresses changes nobody's assignment. *)
Lemma assigned_ips_distinct v w net nid a m old new : frame v w nid a -> v_member w nid a = Some m ->
  m_ip_assignments m = old -> match v_member v nid a with Some m0 => m_ip_assignments m0 | None => [] end = old ->
  assigned_ips w net nid old new -> assigned_ips v net nid old new.
Proof.
  intros (_ & Hf & Hp & _) Hm Hi Ho. unfold assigned_ips. rewrite Hp. destruct (bool_decide (old = []) && _); [|done].
  destruct (v_pools v nid) as [|p ps]; [done|]. intros (asg & Hl & Hn). exists asg. split; [|exact Hn]. intros x. rewrite Hl.
  split; intros (b & r & Hb & Hx); (destruct (decide (b = a)) as [->|Hne]; [|exists b, r; split; [|done]]).
  - rewrite Hm in Hb. injection Hb as <-. rewrite Hi in Hx. destruct (v_member v nid a) as [m0|] eqn:E0.
    + exists a, m0. by rewrite Ho.
    + rewrite <- Ho in Hx. by apply elem_of_nil in Hx.
  - rewrite <- Hf; [done|naive_solver].
  - rewrite Hb in Ho. exists a, m. split; [done|]. by rewrite Hi, <- Ho.
  - rewrite Hf; [done|naive_solver].
Qed.

Lemma load_members_ok nid ids s : inv s -> u64_ok nid ->
  mwp (load_members nid ids) s
    (fun s' ms => s' = s /\ ms = omap (v_member (view s) nid) ids)
    (fun s' e => s' = s /\ fallible /\ exists msg, e = StorageError msg).
Proof.
  intros Hi Hnid. induction ids as [|id ids IH]; cbn [load_members].
  - by apply mwp_ret.
  - apply mwp_bind. eapply mwp_read; [done|by apply get_member_ok| |]; [|eauto].
    intros r -> _. apply mwp_bind. eapply mwp_mono; [exact IH| |done].
    intros s' ms _ [-> ->] _. apply mwp_ret; [done|]. split; [done|]. simpl. by destruct (v_member (view s) nid id).
Qed.

(** The records of a network, each once. *)
Definition lists_members (v : View) (nid : Z) (ms : list MemberRecord) : Prop :=
  NoDup (map m_node_id ms) /\ forall m, m ∈ ms <-> v_member v nid (m_node_id m) = Some m.

Lemma listed_members s nid ids : inv s -> NoDup ids ->
  (forall a, a ∈ ids <-> is_Some (v_member (view s) nid a)) ->
  lists_members (view s) nid (omap (v_member (view s) nid) ids).
Proof.
  intros Hi Hd Hids. assert (forall a, a ∈ ids -> exists m, v_member (view s) nid a = Some m /\ m_node_id m = a) as Hkey.
  { intros a Ha. apply Hids in Ha as [m Hm]. exists m. split; [done|by eapply member_key]. }
  split.
  - assert (map m_node_id (omap (v_member (view s) nid) ids) = ids) as ->; [|done].
    clear Hd Hids. induction ids as [|a ids IH]; [done|]. simpl. destruct (Hkey a ltac:(left)) as (m & -> & Hm). simpl.
    rewrite Hm. f_equal. apply IH. intros b Hb. apply Hkey. by right.
  - intros m. rewrite list_elem_of_omap. split.
    + intros (a & Ha & Hm). destruct (Hkey a Ha) as (m' & Hm' & <-). rewrite Hm in Hm'. by injection Hm' as ->.
    + intros Hm. exists (m_node_id m). split; [|done]. apply Hids. by eexists.
Qed.

(** ** The peer directory and the reply *)

Lemma wp_assignment_inet {E} (o : option bytes) :
  (forall a, o = Some a -> Config.assignment_ok a) ->
  wp (@serialize_assignment_inet E o) (fun _ => True) (fun _ => False).
Proof.
  intros Ho. destruct o as [a|]; [|done]. destruct (Ho a eq_refl) as [Ha _].
  unfold serialize_assignment_inet, Config.address_part in *.
  destruct (Config.split_once Config.SLASH a) as [[ip p]|]; by apply Config.wp_inet_address.
Qed.

Lemma wp_directory {E} members nid now sk addr : len sk = 32 -> len addr = 5 -> u64_ok nid -> u64_ok now ->
  Forall (fun m => Forall Config.assignment_ok (m_ip_assignments m)) members ->
  wp (@serialize_peer_directory _ E members nid now sk addr) (fun _ => True) (fun _ => False).
Proof.
  intros Hk Ha Hn Ht Hm. unfold serialize_peer_directory.
  apply wp_bind, (wp_mono _ (fun _ => True) _ (fun _ => False)); [|done|done].
  eapply (Config.wp_extend_all _ _ (fun m => Forall Config.assignment_ok (m_ip_assignments m))).
  { apply Forall_forall. intros m [_ Hin]%list_elem_of_filter. rewrite Forall_forall in Hm. by apply Hm. }
  intros m Hi. unfold directory_entry. rewrite Forall_forall in Hi.
  assert (forall f, wp (@serialize_assignment_inet E (find f (m_ip_assignments m))) (fun _ => True) (fun _ => False)) as Hw.
  { intros f. apply wp_assignment_inet. intros a [Hin _]%find_Some. by apply Hi. }
  apply wp_bind, (wp_mono _ (fun _ => True) _ (fun _ => False)); [apply Hw| |done]. intros v4 _.
  apply wp_bind, (wp_mono _ (fun _ => True) _ (fun _ => False)); [apply Hw| |done]. intros v6 _.
  rewrite Config.serialize_com_ok; [done|]. apply signed_com_shape; try done. apply zt_address_u64.
Qed.

Lemma directory_nonempty {E} members nid now sk addr dir :
  @serialize_peer_directory _ E members nid now sk addr = Ok dir -> dir <> [].
Proof.
  unfold serialize_peer_directory. destruct (Config.extend_all _ _) as [body| | |]; try done. simpl.
  intros [= <-] Hn. by apply (f_equal (length (A:=byte))) in Hn.
Qed.

Lemma append_directory d members nid now sk addr : len sk = 32 -> len addr = 5 -> u64_ok nid -> u64_ok now ->
  Dict.wf d -> Forall (fun m => Forall Config.assignment_ok (m_ip_assignments m)) members ->
  exists dir, @serialize_peer_directory _ ControllerError members nid now sk addr = Ok dir /\
    append_peer_directory (Dict.serialize d) members nid now sk addr =
    Ok (Dict.serialize (mkDictionary (entries d ++ Config.optional (str "PM") dir))).
Proof.
  intros Hk Ha Hn Ht Hd Hm. unfold append_peer_directory. rewrite Dict.deserialize_serialize by done. cbn [map_err].
  rewrite rbind_ok. pose proof (@wp_directory ControllerError members nid now sk addr Hk Ha Hn Ht Hm) as Hw.
  destruct (serialize_peer_directory _ _ _ _ _) as [dir| | |]; try done. exists dir. split; [done|]. rewrite rbind_ok.
  destruct dir; [by rewrite app_nil_r; destruct d|done].
Qed.

(** The configuration tells the member what its record, the network's record and routes, and
    the records of the other members say. *)
Definition reply_says (v : View) (c : Controller) (nid : Z) (requester : bytes) (now : Z) (net : NetworkRecord)
    (m : MemberRecord) (resp : ConfigResponse) : Prop :=
  let com := build_signed_com (ctl_signing_key c) (ctl_address c) nid (zt_address_to_u64 requester) now in
  cr_credentials resp = CredP.mk (Some com) (issue_capabilities c net nid m requester now) (issue_tags c nid m requester now) [] [] /\
  cr_config resp = NetConfP.mk nid (NetConfP.dict_data (cr_config resp)) None None None None None None /\
  exists d, Dict.deserialize (NetConfP.dict_data (cr_config resp)) = Ok d /\
    @Config.config_says ControllerError d net m (v_routes v nid) com now (CredP.capabilities_raw (cr_credentials resp))
      (CredP.tags_raw (cr_credentials resp)) /\
    exists members dir, lists_members v nid members /\
      @serialize_peer_directory _ ControllerError members nid now (ctl_signing_key c) (ctl_address c) = Ok dir /\
      Dict.get_binary d (str "PM") = Some dir.

(** In a private network the requester's authorization is what it was. *)
Definition authorization_kept (v v' : View) (nid : Z) (a : bytes) : Prop :=
  forall net m, v_network v nid = Some net -> n_private net = true -> v_member v nid a = Some m ->
    exists m', v_member v' nid a = Some m' /\ m_authorized m' = m_authorized m.

Lemma authorization_kept_eq v w nid a : view_eq w v -> authorization_kept v w nid a.
Proof. intros (_ & Hm & _) net m _ _ E. exists m. by rewrite Hm. Qed.

(** Who gets an answer, and what a failure means. *)
Definition request_outcome (v v' : View) (c : Controller) (nid : Z) (requester : bytes) (now : Z)
    (r : res ControllerError ConfigResponse) : Prop :=
  match r with
  | Ok resp =>
      exists net m, v_network v nid = Some net /\ v_member v' nid requester = Some m /\
        m_authorized m = true /\ m_last_seen m = now /\
        (n_private net = true -> exists m0, v_member v nid requester = Some m0 /\ m_authorized m0 = true) /\
        granted_ips v net nid (match v_member v nid requester with Some m0 => m_ip_assignments m0 | None => [] end) m /\
        reply_says v' c nid requester now net m resp
  | Err NetworkNotFound => v_network v nid = None
  | Err MemberNotAuthorized =>
      exists net m, v_network v nid = Some net /\ n_private net = true /\
        v_member v' nid requester = Some m /\ m_authorized m = false /\
        (forall m0, v_member v nid requester = Some m0 -> m_authorized m0 = false)
  | Err NoAvailableIp => False
  | Err (StorageError _) => fallible (S := S) /\ authorization_kept v v' nid requester
  | Panic | Hang => False
  end.

Lemma request_keeps_authorization v v' c nid requester now r :
  request_outcome v v' c nid requester now r -> authorization_kept v v' nid requester.
Proof.
  destruct r as [resp|[]| |]; cbn; try done.
  - intros (net & m & Hnet & Hm & Ha & _ & Hp & _) net' m0 Hnet' Hp' Hm0. rewrite Hnet in Hnet'. injection Hnet' as <-.
    destruct (Hp Hp') as (m1 & Hm1 & Ha1). rewrite Hm0 in Hm1. injection Hm1 as <-. exists m. by rewrite Ha, Ha1.
  - intros Hnone net m Hnet. by rewrite Hnone in Hnet.
  - intros (net & m & _ & _ & Hm & Ha & Hp) net' m0 _ _ Hm0. exists m. by rewrite Ha, (Hp m0 Hm0).
  - by intros [_ ?].
Qed.

Lemma config_request_steps (c : Controller) nid requester now s :
  inv s -> view_ok (view s) -> len (ctl_signing_key c) = 32 -> len (ctl_address c) = 5 ->
  len requester = 5 -> u64_ok nid -> u64_ok now ->
  mwp (handle_config_request c nid requester now) s
    (fun s' resp => advance (view s) (view s') nid requester /\
       request_outcome (view s) (view s') c nid requester now (Ok resp))
    (fun s' e => advance (view s) (view s') nid requester /\
       request_outcome (view s) (view s') c nid requester now (Err e)).
Proof.
  intros Hi Ho Hk Ha Hl Hn Ht. unfold handle_config_request.
  apply mwp_bind. eapply mwp_read; [done|by apply get_network_ok| |]; [|intros; split; [by apply advance_refl|by split; [|apply authorization_kept_eq]]].
  intros found -> _. apply mwp_bind, mwp_pure; [done|].
  destruct (v_network (view s) nid) as [net|] eqn:En; [|split; [by apply advance_refl|done]].
  simpl. intros _. apply mwp_bind. eapply mwp_mono; [by apply lookup_or_create_ok| |].
  2: { intros s' e _ [[? [msg ->]] Hv]. split; [by apply advance_refl|]. by split; [|apply authorization_kept_eq]. }
  intros s1 m0 _ [H0' Hm0] Hi1.
  assert (match v_member (view s) nid requester with Some x => m_ip_assignments x | None => [] end = m_ip_assignments m0) as Hold
    by (destruct (v_member (view s) nid requester); [by destruct Hm0 as [-> _]|by rewrite Hm0]).
  assert (forall x, v_member (view s) nid requester = Some x -> m0 = x) as Hprior
    by (intros x Hx; rewrite Hx in Hm0; apply Hm0).
  apply mwp_bind. eapply mwp_mono; [by apply (authorize_policy_ok (view s) nid requester)| |].
  2: { intros s' e _ [Hadv [(Hp & ? & msg & ->)|(-> & Hp & Hau & ->)]]; (split; [done|]).
       { split; [done|]. intros net' m. rewrite En. intros [= <-]. by rewrite Hp. }
       exists net, m0. split; [done|]. split; [done|]. split; [apply H0'|]. split; [done|].
       intros x Hx. by rewrite <- (Hprior x Hx). }
  intros s2 m1 _ (H1' & Hm1 & Hauth) Hi2.
  assert (forall v w m, v_member v nid requester = Some m -> m_authorized m = true -> view_eq w v ->
    authorization_kept (view s) w nid requester) as Hkept.
  { intros v w m Hm Ha' (_ & Hv & _) net' x. rewrite En. intros [= <-] Hp Hx. exists m. rewrite Hv, Ha'. split; [done|].
    by rewrite <- (Hprior x Hx), Hauth. } apply mwp_bind. eapply mwp_mono; [by apply (assign_ip_ok (view s) nid requester)| |].
  2: { intros s' e _ [Hv [? [msg ->]]]. split; [eapply advance_trans; [apply H1'|by apply advance_refl]|]. split; [done|].
       by eapply Hkept; [apply H1'|rewrite Hm1|]. }
  intros s3 m2 _ (H2' & Hm2 & Hips) Hi3. set (m3 := set_last_seen now m2).
  assert (member_ok m3) as Hm3 by (apply set_last_seen_member_ok; [done|by eapply holds_ok]).
  apply mwp_bind, mwp_upsert; [done|apply Hm3| |].
  2: { intros s' msg ? _ Hv. split; [eapply advance_trans; [apply H2'|by apply advance_refl]|]. split; [done|].
       by eapply Hkept; [apply H2'|rewrite Hm2, Hm1|]. }
  intros s4 Hi4 Hv4 _.
  assert (holds (view s) (view s4) nid requester m3) as H3'.
  { eapply holds_upsert; [exact H2'|done|done|exact Hm3|by left|done]. }
  pose proof H3' as (Hadv & Hmem & _ & _ & Ho4).
  assert (authorization_kept (view s) (view s4) nid requester) as Hkept4.
  { by eapply Hkept; [exact Hmem|unfold m3; rewrite Hm2, Hm1|]. }
  apply mwp_bind. eapply mwp_read; [done|by apply get_routes_ok| |]; [|done]. intros routes -> _.
  set (com := build_signed_com _ _ _ _ _).
  assert (Com.shape com) as Hcom by (apply signed_com_shape; try done; apply zt_address_u64).
  destruct (Config.build_config (E:=ControllerError) net m3 (v_routes (view s4) nid) com now
    (issue_capabilities c net nid m3 requester now) (issue_tags c nid m3 requester now))
    as (i_raw & rt_raw & Hraw & Hrt & Hbuild).
  { apply Hm3. }
  { apply Ho4. }
  { done. }
  apply mwp_bind, mwp_pure; [done|]. cbn beta. fold com. rewrite Hbuild. simpl. intros _.
  apply mwp_bind. eapply mwp_read; [done|by apply list_members_ok| |]; [|done]. intros ids [Hnd Hids] _.
  apply mwp_bind. eapply mwp_mono; [by apply load_members_ok| |].
  2: { by intros s' e _ [-> [? [msg ->]]]. }
  intros s5 members _ [-> Hmems] _. pose proof (listed_members s4 nid ids Hi4 Hnd Hids) as Hlist. rewrite <- Hmems in Hlist.
  destruct (append_directory _ members nid now (ctl_signing_key c) (ctl_address c) Hk Ha Hn Ht
    (Config.config_wf net m3 com now i_raw rt_raw (issue_capabilities c net nid m3 requester now)
      (issue_tags c nid m3 requester now))) as (dir & Hser & Hdir).
  { apply Forall_forall. intros m Hm. apply Hlist in Hm. by eapply Ho4. }
  apply mwp_bind, mwp_pure; [done|]. rewrite Hdir. simpl. intros _.
  apply mwp_ret; [done|]. split; [done|]. exists net, m3.
  split; [done|]. split; [done|].
  split; [unfold m3; rewrite Hm2, Hm1; done|]. split; [done|]. split.
  { intros Hp. specialize (Hauth Hp). destruct (v_member (view s) nid requester) as [x|] eqn:Ex.
    - rewrite (Hprior x eq_refl) in Hauth. eauto.
    - by rewrite Hm0 in Hauth. }
  split.
  { intros _. rewrite Hold. assert (m_ip_assignments m1 = m_ip_assignments m0) as E1 by (by rewrite Hm1). rewrite E1 in Hips.
    eapply assigned_ips_distinct; [apply H1'|apply H1'|exact E1|exact Hold|exact Hips]. }
  unfold reply_says. cbn [cr_credentials cr_config CredP.com NetConfP.network_id NetConfP.dict_data CredP.capabilities_raw CredP.tags_raw].
  split; [done|]. split; [done|]. eexists. split.
  { apply Dict.deserialize_serialize. exact (Config.config_wf_ext net m3 com now i_raw rt_raw _ _ dir). }
  destruct Ho as (Hnet & _).
  split; [exact (Config.entries_say net m3 _ com now i_raw rt_raw _ _ dir (Hnet nid net En) Ht Hraw Hrt)|].
  exists members, dir. split_and!; [done|done|]. apply Config.get_directory. by eapply directory_nonempty.
Qed.

(** C26. Configuration requests: from a store with good records, whatever its backend answers
    and however often it fails, a request never panics, changes no record but the
    requester's, and is answered only when the network exists and the member is authorized
    (in a private network, was authorized beforehand); the answer is a dictionary that says
    what the records say and a certificate issued at that moment, addresses already assigned
    stay, a member without one, unless it opted out, gets the first free one of the pools, and
    each refusal names its reason. *)
Theorem config_request_spec (c : Controller) (nid : Z) (requester : bytes) (now : Z) (s : S) :
  inv s -> view_ok (view s) -> len (ctl_signing_key c) = 32 -> len (ctl_address c) = 5 ->
  len requester = 5 -> u64_ok nid -> u64_ok now ->
  let '(s', r) := handle_config_request c nid requester now s in
  inv s' /\ frame (view s) (view s') nid requester /\
  request_outcome (view s) (view s') c nid requester now r.
Proof.
  intros Hi Ho Hk Ha Hl Hn Ht. pose proof (config_request_steps c nid requester now s Hi Ho Hk Ha Hl Hn Ht) as Hw.
  unfold mwp in Hw. destruct (handle_config_request c nid requester now s) as [s' r]. destruct Hw as [Hi' Hr].
  destruct r as [resp|e| |]; simpl in Hr; try done; destruct Hr as [[Hf _] Hout]; done.
Qed.

(** C27. Service: with a backend that does not fail, every request for an existing network
    from an authorized member (from anybody, in a public network) is answered; a member with
    addresses keeps them, and one without that did not opt out of automatic assignment leaves,
    in a network that assigns them, with the first free one of the pools if there is one. *)
Theorem config_request_served (c : Controller) (nid : Z) (requester : bytes) (now : Z) (s : S) (net : NetworkRecord) :
  inv s -> view_ok (view s) -> len (ctl_signing_key c) = 32 -> len (ctl_address c) = 5 ->
  len requester = 5 -> u64_ok nid -> u64_ok now -> ~ fallible -> v_network (view s) nid = Some net ->
  (n_private net = true -> exists m, v_member (view s) nid requester = Some m /\ m_authorized m = true) ->
  exists s' resp m, handle_config_request c nid requester now s = (s', Ok resp) /\
    v_member (view s') nid requester = Some m /\ reply_says (view s') c nid requester now net m resp /\
    granted_ips (view s) net nid
      (match v_member (view s) nid requester with Some m0 => m_ip_assignments m0 | None => [] end) m.
Proof.
  intros Hi Ho Hk Ha Hl Hn Ht Hfal Hnet Hauth.
  pose proof (config_request_steps c nid requester now s Hi Ho Hk Ha Hl Hn Ht) as Hw. unfold mwp in Hw.
  destruct (handle_config_request c nid requester now s) as [s' r]. destruct Hw as [_ Hr].
  destruct r as [resp|[| | |msg]| |]; simpl in Hr; try done.
  - destruct Hr as (_ & net' & m & Hnet' & Hm & _ & _ & _ & Hips & Hsays).
    rewrite Hnet in Hnet'. injection Hnet' as <-. eauto 10.
  - destruct Hr as [_ Hr]. by rewrite Hnet in Hr.
  - destruct Hr as (_ & net' & m & Hnet' & Hp & _ & _ & Hprior). rewrite Hnet in Hnet'. injection Hnet' as <-.
    destruct (Hauth Hp) as (m0 & Hm0 & Ha0). rewrite (Hprior m0 Hm0) in Ha0. done.
  - by destruct Hr.
  - by destruct Hr as [_ [? _]].
Qed.

(** ** Histories of controller operations *)

Lemma set_authorized_ok b nid a s : inv s -> view_ok (view s) -> u64_ok nid ->
  mwp (set_member_authorized b nid a) s
    (fun s' _ => advance (view s) (view s') nid a /\
       exists m, v_member (view s) nid a = Some m /\ v_member (view s') nid a = Some (set_authorized b m))
    (fun s' e => advance (view s) (view s') nid a /\
       (fallible \/ e = NetworkNotFound /\ v_member (view s) nid a = None)).
Proof.
  intros Hi Hok Hid. apply mwp_bind. eapply mwp_read; [done|by apply get_member_ok| |].
  2: { intros; split; [by apply advance_refl|by left]. }
  intros found -> _. apply mwp_bind, mwp_pure; [done|].
  destruct (v_member (view s) nid a) as [m|] eqn:E; simpl; [|split; [by apply advance_refl|by right]].
  intros _. destruct (member_key _ _ _ _ Hi E) as [Hn Ha].
  pose proof (set_authorized_member_ok b m (proj1 (proj2 Hok) nid a m E)) as Hm. apply mwp_upsert; [done|apply Hm| |].
  - intros s' Hi' Hv.
    destruct (frame_put (view s) (view s') (set_authorized b m) nid a Hn Ha Hv) as [Hf Hm'].
    split; [|eauto]. split; [done|]. split.
    + intros Ho. by eapply view_ok_put; [exact Ho|exact Hf|exact Hm'|].
    + intros Hu id x y mx my ip Hne Hx Hy. destruct Hf as (_ & Hf & _ & _).
      assert (forall z mz, v_member (view s') id z = Some mz ->
        exists mz0, v_member (view s) id z = Some mz0 /\ m_ip_assignments mz0 = m_ip_assignments mz) as Hback.
      { intros z mz Hz. destruct (decide (id = nid /\ z = a)) as [[-> ->]|Hd].
        - rewrite Hm' in Hz. injection Hz as <-. by exists m.
        - rewrite Hf in Hz by done. eauto. }
      destruct (Hback x mx Hx) as (mx0 & Hx0 & <-). destruct (Hback y my Hy) as (my0 & Hy0 & <-).
      by apply (Hu id x y mx0 my0 ip).
  - intros s' msg ? Hi' Hv. split; [by apply advance_refl|by left].
Qed.

(** What can happen at a controller: networks are created, pools are set by the
    administrator, members ask for their configuration, and are authorized or not. *)
Inductive EOp : Type :=
  | ECreate (random_24_bits now_ms : Z)
  | EPools (nid : Z) (ps : list IpPool)
  | ERequest (nid : Z) (requester : bytes) (now_ms : Z)
  | EAuthorize (nid : Z) (node_id : bytes)
  | EDeauthorize (nid : Z) (node_id : bytes).

Definition run_eop (c : Controller) (s : S) (o : EOp) : S :=
  match o with
  | ECreate rnd now => (create_network c rnd now s).1
  | EPools nid ps => (set_ip_pools s nid ps).1
  | ERequest nid requester now => (handle_config_request c nid requester now s).1
  | EAuthorize nid a => (authorize_member nid a s).1
  | EDeauthorize nid a => (deauthorize_member nid a s).1
  end.

Definition eop_ok (o : EOp) : Prop :=
  match o with
  | ECreate _ now => u64_ok now
  | EPools nid ps => u64_ok nid /\ Forall Pools.pool_wf ps
  | ERequest nid requester now => len requester = 5 /\ u64_ok nid /\ u64_ok now
  | EAuthorize nid _ | EDeauthorize nid _ => u64_ok nid
  end.

Definition store_ok (s : S) : Prop := inv s /\ view_ok (view s) /\ unique (view s).

Lemma network_id_u64 c rnd :
  u64_ok (Z.lor (wrap 64 (Z.shiftl (zt_address_to_u64 (ctl_address c)) 24)) (Z.land rnd 0x00FFFFFF)).
Proof.
  pose proof (zt_address_range (ctl_address c)) as Ha. unfold wrap. rewrite Z.mod_small.
  - change 0x00FFFFFF with (Z.ones 24). rewrite Z.land_ones by lia.
    pose proof (Z.mod_pos_bound rnd (2 ^ 24) ltac:(lia)). rewrite lor_shiftl_add by lia.
    unfold u64_ok, U64_MAX. lia.
  - rewrite Z.shiftl_mul_pow2 by lia. lia.
Qed.

(** A request keeps the store one the controller can serve from. *)
Lemma request_store_ok (c : Controller) nid req now s : len (ctl_signing_key c) = 32 -> len (ctl_address c) = 5 ->
  len req = 5 -> u64_ok nid -> u64_ok now -> store_ok s ->
  let '(s', r) := handle_config_request c nid req now s in
  store_ok s' /\ request_outcome (view s) (view s') c nid req now r.
Proof.
  intros Hk Ha Hl Hn Ht (Hi & Hv & Hu). pose proof (config_request_steps c nid req now s Hi Hv Hk Ha Hl Hn Ht) as Hw.
  unfold mwp in Hw. destruct (handle_config_request c nid req now s) as [s' r]. destruct Hw as [Hi' Hr].
  destruct r as [resp|e| |]; simpl in Hr; try done; destruct Hr as [(_ & Hv' & Hu') Hout]; (split; [|done]); split_and!; auto.
Qed.

Lemma run_eop_ok c s o : len (ctl_signing_key c) = 32 -> len (ctl_address c) = 5 -> eop_ok o ->
  store_ok s -> store_ok (run_eop c s o).
Proof.
  intros Hk Ha Ho (Hi & Hv & Hu).
  assert (forall s', inv s' -> (exists nid a, advance (view s) (view s') nid a) -> store_ok s') as Hadv.
  { intros s' Hi' (nid & a & _ & H1' & H2'). split; [done|]. auto. }
  destruct o as [rnd now|nid ps|nid req now|nid a|nid a]; cbn [run_eop eop_ok] in *.
  - unfold create_network, mbind, mwrite. set (n := mkNetworkRecord _ _ _ _ _ _ _ _ _ _ _ _ _).
    assert (network_typed n) as Hty by (split; cbn; try constructor; try done; apply network_id_u64).
    pose proof (create_network_ok s n Hi Hty) as Hc. destruct (Storage.create_network s n) as [s' r].
    destruct Hc as [Hi' Hr]. assert (Config.network_ok n) as Hn by (destruct Hty as [? ? [? ?] [? ?] _ _ _ _]; by split_and!).
    assert (network_created (view s) (view s') n -> store_ok s') as Hadd.
    { destruct Hv as (O1 & O2 & O3 & O4). intros (n0 & Hn0 & E1 & E2 & E3 & E4). split; [done|]. split.
      - split_and!; intros *; rewrite ?E1, ?E2, ?E3, ?E4; simpl; eauto.
        case_match; [|by apply O1]. intros [= <-]. destruct Hn0 as [->|Hn0]; [done|by eapply O1].
      - intros id a b ma mb ip. rewrite !E2. simpl. apply Hu. }
    destruct r as [[]| e | |]; simpl in *; try done; [by apply Hadd|].
    apply Hadv; [done|]. exists 0, []. apply advance_refl, Hr.
  - destruct Ho as [Hid Hps]. pose proof (set_pools_ok s nid ps Hi Hid Hps) as Hc. destruct (set_ip_pools s nid ps) as [s' r].
    destruct Hc as [Hi' Hr].
    assert (forall ps', ps' ⊆+ ps -> view_eq (view s') (put_pools (view s) nid ps') -> store_ok s') as Hput.
    { intros ps' Hsub (E1 & E2 & E3 & E4). destruct Hv as (O1 & O2 & O3 & O4). split; [done|]. split.
      - split_and!; intros *; rewrite ?E1, ?E2, ?E3, ?E4; simpl; eauto. case_match; [|done]. apply Forall_forall. intros p Hp. rewrite Forall_forall in Hps.
        by eapply Hps, elem_of_submseteq.
      - intros id a b ma mb ip. rewrite !E2. simpl. apply Hu. }
    destruct r as [[]| e | |]; simpl in *; try done.
    + destruct Hr as (ps' & Hp & Hvw). eapply (Hput ps'); [by rewrite Hp|exact Hvw].
    + destruct Hr as [_ [Hr|(ps' & Hsub & Hvw)]]; [|by eapply Hput]. apply Hadv; [done|]. exists 0, []. by apply advance_refl.
  - destruct Ho as (Hl & Hn & Ht). pose proof (request_store_ok c nid req now s Hk Ha Hl Hn Ht (conj Hi (conj Hv Hu))) as Hw.
    destruct (handle_config_request c nid req now s) as [s' r]. apply Hw.
  - pose proof (set_authorized_ok true nid a s Hi Hv Ho) as Hw. unfold mwp, authorize_member in *.
    destruct (set_member_authorized true nid a s) as [s' r]. destruct Hw as [Hi' Hr].
    apply Hadv; [done|]. exists nid, a. destruct r; simpl in Hr; try done; apply Hr.
  - pose proof (set_authorized_ok false nid a s Hi Hv Ho) as Hw. unfold mwp, deauthorize_member in *.
    destruct (set_member_authorized false nid a s) as [s' r]. destruct Hw as [Hi' Hr].
    apply Hadv; [done|]. exists nid, a. destruct r; simpl in Hr; try done; apply Hr.
Qed.

(** C28. Addresses are never assigned twice: after any sequence of controller operations, with
    a backend that may fail at any point of each, no two members of a network hold the same
    address, and the store is still one the controller can serve from. *)
Theorem addresses_stay_unique (c : Controller) (ops : list EOp) (s : S) :
  len (ctl_signing_key c) = 32 -> len (ctl_address c) = 5 -> Forall eop_ok ops -> store_ok s ->
  store_ok (fold_left (run_eop c) ops s).
Proof.
  intros Hk Ha Ho. revert s. induction Ho as [|o ops Ho _ IH]; intros s Hs; [done|]. simpl.
  by apply IH, run_eop_ok.
Qed.

End Steps.

(** ** A network with two members *)

Definition sample_controller : Controller := mkController (map b8 [0x80; 0x56; 0xc2; 0xe2; 0x1c]) (replicate 32 (b8 7)).
Definition sample_nid : Z := 0x8056c2e21c000001.
Definition alice : bytes := map b8 [1; 2; 3; 4; 5].
Definition bob : bytes := map b8 [6; 7; 8; 9; 10].
Definition sample_ops : list EOp :=
  [ECreate 1 10; EPools sample_nid [mkPool (map b8 [10; 0; 0; 1]) (map b8 [10; 0; 0; 9])];
   ERequest sample_nid alice 11; EAuthorize sample_nid alice; ERequest sample_nid alice 12;
   ERequest sample_nid bob 13; EAuthorize sample_nid bob; ERequest sample_nid bob 14].
Definition sample_store : InMemoryState :=
  fold_left (run_eop (P := Toy.prims) (S := InMemoryState) sample_controller) sample_ops Memory.new.

Lemma sample_ops_ok : Forall eop_ok sample_ops.
Proof. unfold u64_ok, U64_MAX. repeat constructor; unfold u64_ok, U64_MAX; simpl; try lia; done. Qed.

Lemma empty_store_ok : store_ok (S := InMemoryState) Memory.new.
Proof.
  split; [constructor|]. split; [|by intros id a b ma mb ip _ [=]].
  split_and!; try (intros *; discriminate); constructor.
Qed.

Lemma addresses_stay_unique_witness :
  (m_ip_assignments <$> Memory.mem_get_member sample_store sample_nid alice) = Some [str "10.0.0.1/24"] /\
  (m_ip_assignments <$> Memory.mem_get_member sample_store sample_nid bob) = Some [str "10.0.0.2/24"] /\
  store_ok (S := InMemoryState) sample_store.
Proof.
  split; [vm_compute; reflexivity|]. split; [vm_compute; reflexivity|].
  apply (addresses_stay_unique (P := Toy.prims) (H := Toy.laws) (S := InMemoryState)); [reflexivity|reflexivity|apply sample_ops_ok|apply empty_store_ok].
Defined.

(** The store after Alice asked in vain and was authorized. *)
Definition early_store : InMemoryState :=
  fold_left (run_eop (P := Toy.prims) (S := InMemoryState) sample_controller) (take 4 sample_ops) Memory.new.
Definition sample_net : NetworkRecord :=
  mkNetworkRecord sample_nid [] true 10 1 32 2800 (str "zt") (str "none") [] [] [] true.

Lemma early_store_ok : store_ok (S := InMemoryState) early_store.
Proof.
  unfold early_store. assert (Forall eop_ok (take 4 sample_ops)) as Ho by apply Forall_take, sample_ops_ok.
  revert Ho. generalize (take 4 sample_ops). intros ops Ho.
  assert (forall s, store_ok (S := InMemoryState) s ->
    store_ok (S := InMemoryState) (fold_left (run_eop (P := Toy.prims) (S := InMemoryState) sample_controller) ops s)) as Hfold.
  { induction Ho as [|o ops Ho _ IH]; intros s Hs; [done|]. simpl. apply IH.
    by apply (run_eop_ok (P := Toy.prims) (H := Toy.laws) (S := InMemoryState)). }
  apply Hfold, empty_store_ok.
Qed.

Lemma config_request_served_witness :
  exists s' resp m,
    handle_config_request (H := Toy.prims) (S := InMemoryState) sample_controller sample_nid alice 12 early_store = (s', Ok resp) /\
    v_member (view (S := InMemoryState) s') sample_nid alice = Some m /\
    assigned_ips (view (S := InMemoryState) early_store) sample_net sample_nid [] (m_ip_assignments m).
Proof.
  destruct early_store_ok as (Hi & Hv & _).
  destruct (config_request_served (P := Toy.prims) (H := Toy.laws) (S := InMemoryState) sample_controller sample_nid alice 12
    early_store sample_net) as (s' & resp & m & Hreq & Hm & _ & Hips);
    [exact Hi|exact Hv|reflexivity|reflexivity|reflexivity|unfold u64_ok, U64_MAX, sample_nid; lia|unfold u64_ok, U64_MAX; lia
    |exact (fun f => f)|vm_compute; reflexivity|intros _; eexists; split; [vm_compute; reflexivity|reflexivity]|].
  assert ((m_no_auto_assign_ips <$> v_member (view (S := InMemoryState) (handle_config_request (H := Toy.prims) (S := InMemoryState)
    sample_controller sample_nid alice 12 early_store).1) sample_nid alice) = Some false) as Hf by (vm_compute; reflexivity).
  rewrite Hreq in Hf. cbn [fst] in Hf. rewrite Hm in Hf. injection Hf as Hf.
  exists s', resp, m. split; [exact Hreq|]. split; [exact Hm|exact (Hips (or_introl Hf))].
Defined.

(** A member that opted out of automatic assignment is given an address of the pools all the same. *)
Definition opted_out : MemberRecord :=
  mkMemberRecord sample_nid alice true [] 12 12 [] 0 0 0 false true [] [].
Example opt_out_ignored :
  (m_ip_assignments <$> Memory.mem_get_member
     (handle_config_request (H := Toy.prims) (S := InMemoryState) sample_controller sample_nid alice 12
        (upsert_member (S := InMemoryState) early_store opted_out).1).1 sample_nid alice) = Some [str "10.0.0.1/24"].
Proof. vm_compute. reflexivity. Qed.

Lemma config_request_spec_witness :
  let '(s', r) := handle_config_request (H := Toy.prims) (S := InMemoryState) sample_controller sample_nid bob 12 early_store in
  r = Err MemberNotAuthorized /\
  frame (view (S := InMemoryState) early_store) (view (S := InMemoryState) s') sample_nid bob.
Proof.
  destruct early_store_ok as (Hi & Hv & _).
  pose proof (config_request_spec (P := Toy.prims) (H := Toy.laws) (S := InMemoryState) sample_controller sample_nid bob 12
    early_store Hi Hv eq_refl eq_refl eq_refl ltac:(unfold u64_ok, U64_MAX, sample_nid; lia) ltac:(unfold u64_ok, U64_MAX; lia)) as Hs.
  assert ((handle_config_request (H := Toy.prims) (S := InMemoryState) sample_controller sample_nid bob 12 early_store).2
    = Err MemberNotAuthorized) as He by (vm_compute; reflexivity).
  destruct (handle_config_request _ _ _ _ _) as [s' r]. split; [exact He|apply Hs].
Defined.

(** A member of the sample network shown the certificate of another. *)
Definition member_with (our : CertificateOfMembership) : NetworkMembership :=
  {| nw_network_id := sample_nid; nw_members := []; nw_our_com := Some our; nw_peer_coms := []; nw_mtu := 2800;
     nw_assigned_ipv4 := None; nw_assigned_ipv6 := None; nw_routes := [];
     nw_pending_config_request := false; nw_last_config_request := 0;
     nw_last_multicast_like := 0; nw_last_multicast_gather := 0 |}.

Lemma issued_coms_agree_witness :
  let com a t := build_signed_com (H := Toy.prims) (ctl_signing_key sample_controller) (ctl_address sample_controller)
                   sample_nid (zt_address_to_u64 a) t in
  Network.verify_peer_com (H := Toy.prims) (member_with (com alice 1000)) bob (com bob 361000) (ctl_address sample_controller)
    (Some (ed25519_public (Prims := Toy.prims) (ctl_signing_key sample_controller))) = true.
Proof.
  cbv zeta. apply (issued_coms_agree (P := Toy.prims) (H := Toy.laws) sample_controller
    (member_with (build_signed_com (H := Toy.prims) (ctl_signing_key sample_controller) (ctl_address sample_controller)
                   sample_nid (zt_address_to_u64 alice) 1000)) bob sample_nid sample_nid 1000 361000 alice bob);
    [reflexivity|reflexivity|reflexivity|unfold u64_ok, U64_MAX, sample_nid; lia|unfold u64_ok, U64_MAX; lia
    |reflexivity|split; [reflexivity|lia]].
Defined.

End Engine.
