(* ===== verification/RestController.v ===== *)
(** * RestController: the REST API of the controller (zerotier-service: api/controller.rs,
    api/types.rs): networks and members read, created, changed and deleted.

    A handler is a function of the store that returns the store and an answer: a response or an
    [ApiError], a status with a message. The store is any backend; JSON values are a parameter. *)
From S2P Require Export RuleJson Engine.

Inductive StatusCode := OK | BAD_REQUEST | UNAUTHORIZED | NOT_FOUND | UNPROCESSABLE_ENTITY | INTERNAL_SERVER_ERROR.
Definition ApiError : Type := StatusCode * bytes.

(** ** types.rs *)

Record TagResponse := mkTagResponse { tr_id : Z; tr_value : Z }.
Record TagDefinitionResponse := mkTagDefinitionResponse {
  tdr_id : Z; tdr_name : bytes; tdr_default : option Z; tdr_enums : list (bytes * Z) }.
Record IpPoolResponse := mkIpPoolResponse { ip_range_start : bytes; ip_range_end : bytes }.
Record RouteResponse := mkRouteResponse { ror_target : bytes; ror_via : option bytes }.

Record ControllerNetworkResponse (V : Type) := mkControllerNetworkResponse {
  cnr_id : bytes;
  cnr_name : bytes;
  cnr_private : bool;
  cnr_creation_time : Z;
  cnr_revision : Z;
  cnr_multicast_limit : Z;
  cnr_mtu : Z;
  cnr_v4_assign_mode : V;
  cnr_v6_assign_mode : V;
  cnr_ip_assignment_pools : list IpPoolResponse;
  cnr_enable_broadcast : bool;
  cnr_routes : list RouteResponse;
  cnr_rules : list (RuleResponse V);
  cnr_capabilities : list (CapabilityResponse V);
  cnr_tags : list TagDefinitionResponse;
}.

Record ControllerMemberResponse := mkControllerMemberResponse {
  cmr_id : bytes;
  cmr_network_id : bytes;
  cmr_authorized : bool;
  cmr_ip_assignments : list bytes;
  cmr_creation_time : Z;
  cmr_last_seen : Z;
  cmr_name : bytes;
  cmr_revision : Z;
  cmr_active_bridge : bool;
  cmr_no_auto_assign_ips : bool;
  cmr_last_authorized_time : Z;
  cmr_last_deauthorized_time : Z;
  cmr_version : Z * Z * Z * Z;
  cmr_capabilities : list Z;
  cmr_tags : list TagResponse;
}.

Record UpdateNetworkRequest (V : Type) := mkUpdateNetworkRequest {
  unr_name : option bytes;
  unr_private : option bool;
  unr_multicast_limit : option Z;
  unr_mtu : option Z;
  unr_v4_assign_mode : option V;
  unr_ip_assignment_pools : option (list IpPoolResponse);
  unr_routes : option (list RouteResponse);
  unr_enable_broadcast : option bool;
  unr_rules : option (list (RuleResponse V));
  unr_capabilities : option (list (CapabilityResponse V));
  unr_tags : option (list TagDefinitionResponse);
}.
Arguments mkUpdateNetworkRequest {V}. Arguments unr_name {V}. Arguments unr_private {V}.
Arguments unr_multicast_limit {V}. Arguments unr_mtu {V}. Arguments unr_v4_assign_mode {V}.
Arguments unr_ip_assignment_pools {V}. Arguments unr_routes {V}. Arguments unr_enable_broadcast {V}.
Arguments unr_rules {V}. Arguments unr_capabilities {V}. Arguments unr_tags {V}.

Record UpdateMemberRequest := mkUpdateMemberRequest {
  umr_authorized : option bool;
  umr_ip_assignments : option (list bytes);
  umr_name : option bytes;
  umr_active_bridge : option bool;
  umr_no_auto_assign_ips : option bool;
  umr_capabilities : option (list Z);
  umr_tags : option (list TagResponse);
}.

Module Rest.

Definition error_response (status : StatusCode) (message : bytes) : ApiError := (status, message).

(** ** Paths *)

Definition parse_network_id (hex : bytes) : res ApiError Z :=
  ok_or (error_response BAD_REQUEST (str "invalid network ID hex")) (RuleJson.hex_u64_of hex).

(** Of a number above 40 bits the low five bytes. *)
Definition parse_node_id_bytes (hex : bytes) : res ApiError bytes :=
  let* val := ok_or (error_response BAD_REQUEST (str "invalid node ID hex")) (RuleJson.hex_u64_of hex) in
  Ok (RuleJson.addr_u64_to_bytes val).

(** ** Pools, routes, tags *)

Definition ip_pool_to_response (pool : IpPool) : IpPoolResponse :=
  mkIpPoolResponse (Pools.format_ipv4 (range_start pool)) (Pools.format_ipv4 (range_end pool)).

Definition parse_dotted_ipv4 (s : bytes) : option bytes := Pools.octets (split_on "."%byte s).

Definition parse_ip_pool (resp : IpPoolResponse) : option IpPool :=
  start ← parse_dotted_ipv4 (ip_range_start resp);
  end_ ← parse_dotted_ipv4 (ip_range_end resp);
  Some (mkPool start end_).

Definition route_to_response (route : ManagedRoute) : RouteResponse := mkRouteResponse (mr_target route) (mr_via route).
Definition parse_managed_route (resp : RouteResponse) : ManagedRoute := mkManagedRoute (ror_target resp) (ror_via resp).

Definition tag_to_response (tag : Tag) : TagResponse := mkTagResponse (tag_id tag) (tag_value tag).
Definition tag_from_response (tag : TagResponse) : Tag := mkTag (tr_id tag) (tr_value tag).

(** A [BTreeMap<String, u32>]: the entries in the order of their names, byte by byte. *)
Fixpoint bytes_compare (a b : bytes) : comparison :=
  match a, b with
  | [], [] => Eq
  | [], _ => Lt
  | _, [] => Gt
  | x :: a, y :: b => match Z.compare (u8 x) (u8 y) with Eq => bytes_compare a b | c => c end
  end.
Fixpoint btree_insert (k : bytes) (v : Z) (l : list (bytes * Z)) : list (bytes * Z) :=
  match l with
  | [] => [(k, v)]
  | (k', v') :: rest =>
      match bytes_compare k k' with
      | Lt => (k, v) :: l
      | Eq => (k', v) :: rest
      | Gt => (k', v') :: btree_insert k v rest
      end
  end.
Definition btree_collect (l : list (bytes * Z)) : list (bytes * Z) :=
  fold_left (fun m e => btree_insert e.1 e.2 m) l [].

Definition tag_definition_to_response (def : TagDefinition) : TagDefinitionResponse :=
  mkTagDefinitionResponse (td_id def) (td_name def) (td_default def) (btree_collect (td_enums def)).
Definition tag_definition_from_response (def : TagDefinitionResponse) : TagDefinition :=
  mkTagDefinition (tdr_id def) (tdr_name def) (tdr_default def) (tdr_enums def).

Section Handlers.
Context {S Er V : Type} `{ControllerStorage S Er} `{JsonValue V}.

Definition v4_assign_mode_to_json (mode : bytes) : V := object [(str "zt", boolean (bool_decide (mode = str "zt")))].
Definition v6_assign_mode_to_json (mode : bytes) : V :=
  object [(str "zt", boolean (bool_decide (mode = str "zt"))); (str "6plane", boolean (bool_decide (mode = str "6plane")));
          (str "rfc4193", boolean (bool_decide (mode = str "rfc4193")))].

(** ** Responses *)

Definition network_to_response (network : NetworkRecord) (pools : list IpPool) (routes : list ManagedRoute)
    : ControllerNetworkResponse V := {|
  cnr_id := RuleJson.format_network_id (n_id network);
  cnr_name := n_name network;
  cnr_private := n_private network;
  cnr_creation_time := n_creation_time network;
  cnr_revision := n_revision network;
  cnr_multicast_limit := n_multicast_limit network;
  cnr_mtu := n_mtu network;
  cnr_v4_assign_mode := v4_assign_mode_to_json (n_v4_assign_mode network);
  cnr_v6_assign_mode := v6_assign_mode_to_json (n_v6_assign_mode network);
  cnr_ip_assignment_pools := map ip_pool_to_response pools;
  cnr_enable_broadcast := n_enable_broadcast network;
  cnr_routes := map route_to_response routes;
  cnr_rules := map RuleJson.rule_to_response (n_rules network);
  cnr_capabilities := map RuleJson.capability_to_response (n_capabilities network);
  cnr_tags := map tag_definition_to_response (n_tags network);
|}.

Definition member_to_response (member : MemberRecord) : ControllerMemberResponse := {|
  cmr_id := RuleJson.format_node_id (m_node_id member);
  cmr_network_id := RuleJson.format_network_id (m_network_id member);
  cmr_authorized := m_authorized member;
  cmr_ip_assignments := m_ip_assignments member;
  cmr_creation_time := m_creation_time member;
  cmr_last_seen := m_last_seen member;
  cmr_name := m_name member;
  cmr_revision := m_revision member;
  cmr_active_bridge := m_active_bridge member;
  cmr_no_auto_assign_ips := m_no_auto_assign_ips member;
  cmr_last_authorized_time := m_last_authorized_time member;
  cmr_last_deauthorized_time := m_last_deauthorized_time member;
  cmr_version := (-1, -1, -1, -1);
  cmr_capabilities := m_capabilities member;
  cmr_tags := map tag_to_response (m_tags member);
|}.

(** ** Updates *)

Fixpoint capabilities_from_response (l : list (CapabilityResponse V)) : res unit (list Capability) :=
  match l with
  | [] => Ok []
  | c :: l => let* c := RuleJson.capability_from_response c in let* l := capabilities_from_response l in Ok (c :: l)
  end.

(** [v4.get("zt").and_then(|v| v.as_bool())]. *)
Definition v4_mode_of (v4 : V) : option bytes :=
  zt ← (v ← RuleJson.get v4 (str "zt"); as_bool v); Some (if zt : bool then str "zt" else str "none").

Definition apply_network_updates (network : NetworkRecord) (body : UpdateNetworkRequest V) : res unit NetworkRecord :=
  let* rules := match unr_rules body with
                | Some rules => RuleJson.rules_from_response rules
                | None => Ok (n_rules network)
                end in
  let* capabilities := match unr_capabilities body with
                       | Some caps => capabilities_from_response caps
                       | None => Ok (n_capabilities network)
                       end in
  Ok {| n_id := n_id network;
        n_name := default (n_name network) (unr_name body);
        n_private := default (n_private network) (unr_private body);
        n_creation_time := n_creation_time network;
        n_revision := n_revision network;
        n_multicast_limit := default (n_multicast_limit network) (unr_multicast_limit body);
        n_mtu := default (n_mtu network) (unr_mtu body);
        n_v4_assign_mode := default (n_v4_assign_mode network) (v4 ← unr_v4_assign_mode body; v4_mode_of v4);
        n_v6_assign_mode := n_v6_assign_mode network;
        n_rules := rules;
        n_capabilities := capabilities;
        n_tags := match unr_tags body with Some tags => map tag_definition_from_response tags | None => n_tags network end;
        n_enable_broadcast := default (n_enable_broadcast network) (unr_enable_broadcast body) |}.

(** [network.revision += 1]: an overflow panics. *)
Definition bump_network (network : NetworkRecord) : res unit NetworkRecord :=
  if U64_MAX <=? n_revision network then Panic else
  Ok {| n_id := n_id network; n_name := n_name network; n_private := n_private network;
        n_creation_time := n_creation_time network; n_revision := n_revision network + 1;
        n_multicast_limit := n_multicast_limit network; n_mtu := n_mtu network;
        n_v4_assign_mode := n_v4_assign_mode network; n_v6_assign_mode := n_v6_assign_mode network;
        n_rules := n_rules network; n_capabilities := n_capabilities network; n_tags := n_tags network;
        n_enable_broadcast := n_enable_broadcast network |}.

Definition apply_member_updates (now_ms : Z) (member : MemberRecord) (body : UpdateMemberRequest) : MemberRecord :=
  let changed b := match umr_authorized body with
                   | Some authorized => Bool.eqb authorized b && negb (Bool.eqb authorized (m_authorized member))
                   | None => false
                   end in
  {| m_network_id := m_network_id member;
     m_node_id := m_node_id member;
     m_authorized := default (m_authorized member) (umr_authorized body);
     m_ip_assignments := default (m_ip_assignments member) (umr_ip_assignments body);
     m_creation_time := m_creation_time member;
     m_last_seen := m_last_seen member;
     m_name := default (m_name member) (umr_name body);
     m_revision := m_revision member;
     m_last_authorized_time := if changed true then now_ms else m_last_authorized_time member;
     m_last_deauthorized_time := if changed false then now_ms else m_last_deauthorized_time member;
     m_active_bridge := default (m_active_bridge member) (umr_active_bridge body);
     m_no_auto_assign_ips := default (m_no_auto_assign_ips member) (umr_no_auto_assign_ips body);
     m_capabilities := default (m_capabilities member) (umr_capabilities body);
     m_tags := match umr_tags body with Some tags => map tag_from_response tags | None => m_tags member end |}.

(** [member.revision += 1]. *)
Definition bump_member (member : MemberRecord) : res unit MemberRecord :=
  if U64_MAX <=? m_revision member then Panic else
  Ok {| m_network_id := m_network_id member; m_node_id := m_node_id member; m_authorized := m_authorized member;
        m_ip_assignments := m_ip_assignments member; m_creation_time := m_creation_time member;
        m_last_seen := m_last_seen member; m_name := m_name member; m_revision := m_revision member + 1;
        m_last_authorized_time := m_last_authorized_time member; m_last_deauthorized_time := m_last_deauthorized_time member;
        m_active_bridge := m_active_bridge member; m_no_auto_assign_ips := m_no_auto_assign_ips member;
        m_capabilities := m_capabilities member; m_tags := m_tags member |}.

(** ** Handlers *)

(** A store transformer with an answer. *)
Definition Handler (A : Type) : Type := S -> S * res ApiError A.

Definition hret {A} (a : A) : Handler A := fun s => (s, Ok a).
Definition hbind {A B} (m : Handler A) (k : A -> Handler B) : Handler B := fun s =>
  let '(s', r) := m s in
  match r with
  | Ok a => k a s'
  | Err e => (s', Err e)
  | Panic => (s', Panic)
  | Hang => (s', Hang)
  end.
Definition hpure {A} (r : res ApiError A) : Handler A := fun s => (s, r).

(** [.map_err(|e| error_response(StatusCode::INTERNAL_SERVER_ERROR, &format!("{}", e)))?]. *)
Definition internal_error (e : Er) : ApiError := error_response INTERNAL_SERVER_ERROR (display_error e).
Definition hread {A} (r : S -> res Er A) : Handler A := fun s => (s, map_err internal_error (r s)).
Definition hwrite (w : S -> S * res Er unit) : Handler unit := fun s =>
  let '(s', r) := w s in (s', map_err internal_error r).
(** The conversions have no error, only panics. *)
Definition hconvert {A} (r : res unit A) : Handler A := hpure (map_err (fun _ => (INTERNAL_SERVER_ERROR, [])) r).

Notation "'let?' x ':=' m 'in' k" := (hbind m (fun x => k)) (at level 10, x name, m at level 100, k at level 200).
Notation "m ';?' k" := (hbind m (fun _ => k)) (at level 100, k at level 200, right associativity).

(** [state.controller.as_ref().ok_or_else(...)?]. *)
Definition enabled (controller : option Controller) : Handler Controller :=
  hpure (ok_or (error_response NOT_FOUND (str "controller not enabled")) controller).

Definition found_network (network_id : Z) : Handler NetworkRecord :=
  let? found := hread (fun s => get_network s network_id) in
  hpure (ok_or (error_response NOT_FOUND (str "network not found")) found).

Definition list_networks (controller : option Controller) : Handler (list bytes) :=
  enabled controller;?
  let? ids := hread Storage.list_networks in
  hret (map RuleJson.format_network_id ids).

(** The pools and the routes read, then the answer built. *)
Definition answer_network (network : NetworkRecord) (network_id : Z) : Handler (ControllerNetworkResponse V) :=
  let? pools := hread (fun s => get_ip_pools s network_id) in
  let? routes := hread (fun s => get_routes s network_id) in
  hret (network_to_response network pools routes).

Definition get_network (controller : option Controller) (nwid : bytes) : Handler (ControllerNetworkResponse V) :=
  enabled controller;?
  let? network_id := hpure (parse_network_id nwid) in
  let? network := found_network network_id in
  answer_network network network_id.

Definition replace_pools (network_id : Z) (body : UpdateNetworkRequest V) : Handler unit :=
  match unr_ip_assignment_pools body with
  | Some pools => hwrite (fun s => set_ip_pools s network_id (omap parse_ip_pool pools))
  | None => hret tt
  end.
Definition replace_routes (network_id : Z) (body : UpdateNetworkRequest V) : Handler unit :=
  match unr_routes body with
  | Some routes => hwrite (fun s => set_routes s network_id (map parse_managed_route routes))
  | None => hret tt
  end.

Definition has_fields (body : UpdateNetworkRequest V) : bool :=
  is_some (unr_name body) || is_some (unr_private body) || is_some (unr_multicast_limit body) || is_some (unr_mtu body) ||
  is_some (unr_enable_broadcast body) || is_some (unr_v4_assign_mode body) || is_some (unr_rules body) ||
  is_some (unr_capabilities body) || is_some (unr_tags body).

(** [format!("{}", e)] of a [ControllerError]. *)
Definition display_controller_error (e : ControllerError) : bytes :=
  match e with
  | NetworkNotFound => str "network not found"
  | MemberNotAuthorized => str "member not authorized"
  | NoAvailableIp => str "no available IP in pool"
  | StorageError error => str "storage error: " ++ error
  end.

(** A path of six underscores at its end; [random_bytes] is what [getrandom] answers: the text of
    an error, or four bytes. *)
Definition create_from_request (ctrl : Controller) (random_bytes : bytes + bytes) (now_ms : Z)
    (body : UpdateNetworkRequest V) : Handler (ControllerNetworkResponse V) :=
  let? random_bytes := hpure (match random_bytes with
                              | inr random_bytes => Ok random_bytes
                              | inl e => Err (error_response INTERNAL_SERVER_ERROR e)
                              end) in
  let random_24 := Z.land (from_be random_bytes) 0x00FFFFFF in
  let? network_id := (fun s =>
    let '(s', r) := Engine.create_network ctrl random_24 now_ms s in
    (s', map_err (fun e => error_response INTERNAL_SERVER_ERROR (display_controller_error e)) r)) in
  (if has_fields body then
     let? network := hread (fun s => Storage.get_network s network_id) in
     match network with
     | Some network =>
         let? network := hconvert (apply_network_updates network body) in
         hwrite (fun s => Storage.update_network s network)
     | None => hret tt
     end
   else hret tt);?
  replace_pools network_id body;?
  replace_routes network_id body;?
  let? found := hread (fun s => Storage.get_network s network_id) in
  let? network := hpure (ok_or (error_response INTERNAL_SERVER_ERROR (str "created network not found")) found) in
  answer_network network network_id.

Definition update_network (controller : option Controller) (random_bytes : bytes + bytes) (now_ms : Z) (nwid : bytes)
    (body : UpdateNetworkRequest V) : Handler (ControllerNetworkResponse V) :=
  let? ctrl := enabled controller in
  if ends_with (str "______") nwid then create_from_request ctrl random_bytes now_ms body else
  let? network_id := hpure (parse_network_id nwid) in
  let? network := found_network network_id in
  let? network := hconvert (apply_network_updates network body) in
  let? network := hconvert (bump_network network) in
  hwrite (fun s => Storage.update_network s network);?
  replace_pools network_id body;?
  replace_routes network_id body;?
  answer_network network network_id.

(** The network as it was before it is gone. *)
Definition delete_network (controller : option Controller) (nwid : bytes) : Handler (ControllerNetworkResponse V) :=
  enabled controller;?
  let? network_id := hpure (parse_network_id nwid) in
  let? network := found_network network_id in
  let? answer := answer_network network network_id in
  hwrite (fun s => Storage.delete_network s network_id);?
  hret answer.

Definition list_members (controller : option Controller) (nwid : bytes) : Handler (gmap bytes Z) :=
  enabled controller;?
  let? network_id := hpure (parse_network_id nwid) in
  let? member_ids := hread (fun s => Storage.list_members s network_id) in
  hret (list_to_map (map (fun id => (RuleJson.format_node_id id, 1)) member_ids)).

Definition get_member (controller : option Controller) (nwid node_id_hex : bytes) : Handler ControllerMemberResponse :=
  enabled controller;?
  let? network_id := hpure (parse_network_id nwid) in
  let? node_id := hpure (parse_node_id_bytes node_id_hex) in
  let? found := hread (fun s => Storage.get_member s network_id node_id) in
  let? member := hpure (ok_or (error_response NOT_FOUND (str "member not found")) found) in
  hret (member_to_response member).

(** Read twice, as the code does; the second time [unwrap]ped. *)
Definition load_or_new (network_id : Z) (node_id : bytes) (now_ms : Z) : Handler MemberRecord :=
  let? found := hread (fun s => Storage.get_member s network_id node_id) in
  if is_some found then
    let? found := hread (fun s => Storage.get_member s network_id node_id) in
    hpure (match found with Some member => Ok member | None => Panic end)
  else
    hret (mkMemberRecord network_id node_id false [] now_ms now_ms [] 0 0 0 false false [] []).

Definition update_member (controller : option Controller) (now_ms : Z) (nwid node_id_hex : bytes)
    (body : UpdateMemberRequest) : Handler ControllerMemberResponse :=
  enabled controller;?
  let? network_id := hpure (parse_network_id nwid) in
  let? node_id := hpure (parse_node_id_bytes node_id_hex) in
  let? member := load_or_new network_id node_id now_ms in
  let? member := hconvert (bump_member (apply_member_updates now_ms member body)) in
  hwrite (fun s => upsert_member s member);?
  hret (member_to_response member).

Definition delete_member (controller : option Controller) (nwid node_id_hex : bytes) : Handler StatusCode :=
  enabled controller;?
  let? network_id := hpure (parse_network_id nwid) in
  let? node_id := hpure (parse_node_id_bytes node_id_hex) in
  hwrite (fun s => Storage.delete_member s network_id node_id);?
  hret OK.

End Handlers.

(** ** Requests as their types have them *)

Definition rule_response_typed {V} (r : RuleResponse V) : Prop := 0 <= rr_rule_type r <= 255.
Definition capability_response_typed {V} (c : CapabilityResponse V) : Prop :=
  u32_ok (RuleJson.cr_id c) /\ Forall rule_response_typed (RuleJson.cr_rules c).
Definition present {A} (Q : A -> Prop) (o : option A) : Prop := match o with Some a => Q a | None => True end.

(** Routes besides name addresses that the configuration builder can take. *)
Record network_request_ok {V} (body : UpdateNetworkRequest V) : Prop := {
  nq_name : present text_ok (unr_name body);
  nq_limit : present u32_ok (unr_multicast_limit body);
  nq_mtu : present u16_ok (unr_mtu body);
  nq_routes : present (fun rs => Forall route_typed (map parse_managed_route rs) /\
                                 Forall Config.route_ok (map parse_managed_route rs)) (unr_routes body);
  nq_rules : present (Forall rule_response_typed) (unr_rules body);
  nq_capabilities : present (Forall capability_response_typed) (unr_capabilities body);
  nq_tags : present (fun ts => Forall tag_definition_typed (map tag_definition_from_response ts)) (unr_tags body);
}.

(** So do assignments. *)
Record member_request_ok (body : UpdateMemberRequest) : Prop := {
  mq_ips : present (fun ips => Forall text_ok ips /\ Forall Config.assignment_ok ips) (umr_ip_assignments body);
  mq_name : present text_ok (umr_name body);
  mq_capabilities : present (Forall u32_ok) (umr_capabilities body);
  mq_tags : present (fun ts => Forall tag_typed (map tag_from_response ts)) (umr_tags body);
}.

(** What the Rust types alone say of the two. *)
Record network_request_typed {V} (body : UpdateNetworkRequest V) : Prop := {
  nt_name : present text_ok (unr_name body);
  nt_limit : present u32_ok (unr_multicast_limit body);
  nt_mtu : present u16_ok (unr_mtu body);
  nt_routes : present (fun rs => Forall route_typed (map parse_managed_route rs)) (unr_routes body);
  nt_rules : present (Forall rule_response_typed) (unr_rules body);
  nt_capabilities : present (Forall capability_response_typed) (unr_capabilities body);
  nt_tags : present (fun ts => Forall tag_definition_typed (map tag_definition_from_response ts)) (unr_tags body);
}.

Record member_request_typed (body : UpdateMemberRequest) : Prop := {
  mt_ips : present (Forall text_ok) (umr_ip_assignments body);
  mt_name : present text_ok (umr_name body);
  mt_capabilities : present (Forall u32_ok) (umr_capabilities body);
  mt_tags : present (fun ts => Forall tag_typed (map tag_from_response ts)) (umr_tags body);
}.

(** The routes and the assignments of a request are ones the configuration builder can take. *)
Definition routes_buildable {V} (body : UpdateNetworkRequest V) : Prop :=
  present (fun rs => Forall Config.route_ok (map parse_managed_route rs)) (unr_routes body).
Definition ips_buildable (body : UpdateMemberRequest) : Prop := present (Forall Config.assignment_ok) (umr_ip_assignments body).

Lemma network_request_split {V} (body : UpdateNetworkRequest V) :
  network_request_typed body -> routes_buildable body -> network_request_ok body.
Proof. intros [] Hr. split; try done. unfold routes_buildable, present in *. by destruct (unr_routes body). Qed.

Lemma member_request_split body : member_request_typed body -> ips_buildable body -> member_request_ok body.
Proof. intros [] Hr. split; try done. unfold ips_buildable, present in *. by destruct (umr_ip_assignments body). Qed.

#[export] Instance v6_fits_dec s : Decision (Config.v6_fits s).
Proof. unfold Config.v6_fits. destruct (@Config.parse_ipv6 unit s); (by left) || (by right; intros []). Defined.
#[export] Instance addr_ok_dec s : Decision (Config.addr_ok s).
Proof. unfold Config.addr_ok. destruct (Config.parse_ipv4 s); [by left|]. destruct (decide (Config.v6_fits s)); [left|right]; auto. Defined.
#[export] Instance assignment_ok_dec s : Decision (Config.assignment_ok s).
Proof. unfold Config.assignment_ok. destruct (Config.parse_ip_prefix s) as [[ip p]|]; apply _. Defined.
#[export] Instance route_ok_dec r : Decision (Config.route_ok r).
Proof. unfold Config.route_ok. destruct (Config.parse_ip_prefix (mr_target r)) as [[ip p]|]; [destruct (mr_via r)|]; apply _. Defined.
#[export] Instance present_dec {A} (Q : A -> Prop) `{forall a, Decision (Q a)} o : Decision (present Q o).
Proof. destruct o; apply _. Defined.
#[export] Instance routes_buildable_dec {V} (body : UpdateNetworkRequest V) : Decision (routes_buildable body).
Proof. unfold routes_buildable. apply _. Defined.
#[export] Instance ips_buildable_dec body : Decision (ips_buildable body).
Proof. unfold ips_buildable. apply _. Defined.

Section Conversions.
Context {V : Type} `{JsonValue V}.

Lemma rules_typed (rules : list (RuleResponse V)) out : Forall rule_response_typed rules ->
  RuleJson.rules_from_response rules = Ok out -> Forall rule_typed out.
Proof.
  intros Hr. revert out. induction Hr as [|r rules Hr _ IH]; cbn; intros out; [by intros [= <-]|].
  unfold RuleJson.rule_from_response. set (v := match rr_value r with [] => _ | _ :: _ => _ end).
  destruct v; cbn; try done. destruct (RuleJson.rules_from_response rules); cbn; try done.
  intros [= <-]. constructor; [exact Hr|by apply IH].
Qed.

Lemma capabilities_typed (caps : list (CapabilityResponse V)) out : Forall capability_response_typed caps ->
  capabilities_from_response caps = Ok out -> Forall capability_typed out.
Proof.
  intros Hr. revert out. induction Hr as [|c caps [Hi Hr] _ IH]; cbn; intros out; [by intros [= <-]|].
  unfold RuleJson.capability_from_response.
  destruct (RuleJson.rules_from_response (RuleJson.cr_rules c)) eqn:E; cbn; try done.
  destruct (capabilities_from_response caps); cbn; try done.
  intros [= <-]. constructor; [split; [exact Hi|by eapply rules_typed]|by apply IH].
Qed.

Lemma present_default {A} (Q : A -> Prop) (o : option A) (a : A) : present Q o -> Q a -> Q (default a o).
Proof. by destruct o. Qed.

Lemma updates_typed (n n' : NetworkRecord) (body : UpdateNetworkRequest V) : network_request_ok body -> network_typed n ->
  apply_network_updates n body = Ok n' -> network_typed n' /\ n_id n' = n_id n /\ n_revision n' = n_revision n.
Proof.
  intros [? ? ? _ Hr Hc ?] [? ? ? [? ?] [? ?] ? ? ?]. unfold apply_network_updates.
  assert (text_ok (default (n_v4_assign_mode n) (v4 ← unr_v4_assign_mode body; v4_mode_of v4))) as Hv4.
  { destruct (unr_v4_assign_mode body) as [v|]; cbn; [|done]. destruct (v4_mode_of v) eqn:E; cbn; [|done].
    unfold v4_mode_of in E. destruct (RuleJson.get v _) as [z|]; cbn in E; [|done].
    destruct (as_bool z) as [[]|]; cbn in E; by simplify_eq. }
  assert (forall rs, match unr_rules body with Some rules => RuleJson.rules_from_response rules | None => Ok (n_rules n) end = Ok rs ->
    Forall rule_typed rs) as Hrs.
  { destruct (unr_rules body); [by intros ?; apply rules_typed|by intros ? [= <-]]. }
  assert (forall cs, match unr_capabilities body with Some caps => capabilities_from_response caps | None => Ok (n_capabilities n) end = Ok cs ->
    Forall capability_typed cs) as Hcs.
  { destruct (unr_capabilities body); [by intros ?; apply capabilities_typed|by intros ? [= <-]]. }
  destruct (match unr_rules body with Some _ => _ | None => _ end) as [rs| | |]; cbn; try done.
  destruct (match unr_capabilities body with Some _ => _ | None => _ end) as [cs| | |]; cbn; try done.
  intros [= <-]. split; [|done]. split; cbn; auto.
  - by apply present_default.
  - split; by apply present_default.
  - by destruct (unr_tags body).
Qed.

End Conversions.

(** A conversion answers or panics. *)
Definition converts {A} (r : res unit A) : Prop := match r with Ok _ | Panic => True | _ => False end.

Lemma converts_bind {A B} (r : res unit A) (k : A -> res unit B) : converts r -> (forall a, converts (k a)) -> converts (rbind r k).
Proof. destruct r; cbn; auto. Qed.

Lemma rules_convert {V} `{JsonValue V} (rules : list (RuleResponse V)) : converts (RuleJson.rules_from_response rules).
Proof.
  induction rules as [|r rules IH]; [done|]. cbn. apply converts_bind; [|intros; by apply converts_bind].
  unfold RuleJson.rule_from_response. apply converts_bind; [|done].
  destruct (rr_value r); [|done]. destruct (f ← rr_fields r; _) as [f|]; [|done].
  destruct f; cbn [Rules.encode_rule_fields]; try done. by destruct (_ <? _).
Qed.

Lemma updates_convert {V} `{JsonValue V} n (body : UpdateNetworkRequest V) : converts (apply_network_updates n body).
Proof.
  unfold apply_network_updates. apply converts_bind; [destruct (unr_rules body); [apply rules_convert|done]|]. intros rs.
  apply converts_bind; [|done]. destruct (unr_capabilities body) as [l|]; [|done].
  induction l as [|c l IH]; [done|]. cbn. apply converts_bind; [|intros; by apply converts_bind].
  unfold RuleJson.capability_from_response. apply converts_bind; [apply rules_convert|done].
Qed.

Lemma bump_network_typed n n' : network_typed n -> bump_network n = Ok n' ->
  network_typed n' /\ n_id n' = n_id n /\ n_revision n' = n_revision n + 1.
Proof.
  unfold bump_network. case_match; [done|]. intros [? ? [? [? ?]] ? ? ? ? ?] [= <-]. split; [|done]. split; cbn; auto.
  unfold u64_ok in *. lia.
Qed.

Lemma member_updates_ok now m body : u64_ok now -> member_request_ok body -> Engine.member_ok m ->
  Engine.member_ok (apply_member_updates now m body).
Proof.
  intros Hn [Hips ? ? ?] [[? ? ? ? ? ? [? ?] ? ?] Ha]. unfold apply_member_updates. split; [split|]; cbn; auto.
  - destruct (umr_ip_assignments body); [apply Hips|done].
  - by apply present_default.
  - split; by case_match.
  - by apply present_default.
  - by destruct (umr_tags body).
  - destruct (umr_ip_assignments body); [apply Hips|done].
Qed.

Lemma bump_member_ok m m' : Engine.member_ok m -> bump_member m = Ok m' ->
  Engine.member_ok m' /\ m_revision m' = m_revision m + 1.
Proof.
  unfold bump_member. case_match; [done|]. intros [[? ? ? ? ? [? ?] ? ? ?] ?] [= <-]. split; [|done]. split; [split|]; cbn; auto.
  unfold u64_ok in *. lia.
Qed.

(** ** Reasoning about handlers *)

Section Steps.
Context {P : Prims} {S Er V : Type} `{StorageLaws S Er} `{JsonValue V}.

(** From a good store [m] ends in a good store, and [Q] of the store and the answer. *)
Definition hwp {A} (m : Handler (S := S) A) (s : S) (Q : S -> res ApiError A -> Prop) : Prop :=
  let '(s', r) := m s in inv s' /\ Q s' r.

(** The answer a failure becomes one step up. *)
Definition failed {A B} (Q : S -> res ApiError B -> Prop) (k : S -> A -> Prop) (s : S) (r : res ApiError A) : Prop :=
  match r with Ok a => k s a | Err e => Q s (Err e) | Panic => Q s Panic | Hang => Q s Hang end.

Lemma hwp_ret {A} (a : A) s Q : inv s -> Q s (Ok a) -> hwp (hret a) s Q.
Proof. done. Qed.

Lemma hwp_pure {A} (r : res ApiError A) s Q : inv s -> Q s r -> hwp (hpure r) s Q.
Proof. done. Qed.

Lemma hwp_bind {A B} (m : Handler A) (k : A -> Handler B) s Q :
  hwp m s (failed Q (fun s' a => inv s' -> hwp (k a) s' Q)) -> hwp (hbind m k) s Q.
Proof. unfold hwp, hbind. destruct (m s) as [s' [a|e| |]]; intros [Hi Hr]; try done. by apply Hr. Qed.

Lemma hwp_read {A} (r : S -> res Er A) s (T : A -> Prop) Q : inv s -> wp (r s) T (fun _ => fallible) ->
  (forall a, T a -> Q s (Ok a)) -> (forall msg, fallible -> Q s (Err (INTERNAL_SERVER_ERROR, msg))) -> hwp (hread r) s Q.
Proof. intros Hi Hr Hq He. split; [done|]. destruct (r s); cbn in *; try done; [by apply Hq|by apply He]. Qed.

Lemma hwp_write (w : S -> S * res Er unit) s (T : S -> Prop) (U : S -> Prop) Q :
  (let '(s', r) := w s in inv s' /\ wp r (fun _ => T s') (fun _ => U s')) ->
  (forall s', inv s' -> T s' -> Q s' (Ok tt)) -> (forall s' msg, inv s' -> U s' -> Q s' (Err (INTERNAL_SERVER_ERROR, msg))) ->
  hwp (hwrite w) s Q.
Proof.
  intros Hw Hq He. unfold hwp, hwrite. destruct (w s) as [s' r]. destruct Hw as [Hi Hr]. split; [done|].
  destruct r as [[]| | |]; cbn in *; try done; [by apply Hq|by apply He].
Qed.

Lemma hwp_mono {A} (m : Handler A) s (Q Q' : S -> res ApiError A -> Prop) :
  hwp m s Q -> (forall s' r, inv s' -> Q s' r -> Q' s' r) -> hwp m s Q'.
Proof. unfold hwp. destruct (m s). intros [] HQ. split; auto. Qed.

(** A path segment reads, or is a bad request. *)
Lemma network_id_cases hex :
  (exists id, parse_network_id hex = Ok id /\ RuleJson.hex_u64_of hex = Some id /\ u64_ok id) \/
  (exists msg, parse_network_id hex = Err (BAD_REQUEST, msg) /\ RuleJson.hex_u64_of hex = None).
Proof.
  unfold parse_network_id. destruct (RuleJson.hex_u64_of hex) as [id|] eqn:E; [left; exists id|right; by eexists].
  split_and!; [done..|]. unfold RuleJson.hex_u64_of in E. apply from_str_range in E; [|done..]. exact E.
Qed.

Lemma node_id_cases hex :
  (exists a, parse_node_id_bytes hex = Ok a /\ len a = 5) \/
  (exists msg, parse_node_id_bytes hex = Err (BAD_REQUEST, msg) /\ RuleJson.hex_u64_of hex = None).
Proof. unfold parse_node_id_bytes. destruct (RuleJson.hex_u64_of hex) as [x|]; [left|right]; by eexists. Qed.

(** ** Members *)

(** The record an update starts from: the stored one, or a fresh one. *)
Definition member_before (v : View) (nid : Z) (a : bytes) (now_ms : Z) : MemberRecord :=
  default (mkMemberRecord nid a false [] now_ms now_ms [] 0 0 0 false false [] []) (v_member v nid a).

(** What an update makes of it: the fields of the request, the others kept, the moment a change of
    the authorization happened, the next revision. *)
Definition member_revised (now_ms : Z) (body : UpdateMemberRequest) (m m' : MemberRecord) : Prop :=
  m_network_id m' = m_network_id m /\ m_node_id m' = m_node_id m /\
  m_creation_time m' = m_creation_time m /\ m_last_seen m' = m_last_seen m /\
  m_authorized m' = default (m_authorized m) (umr_authorized body) /\
  m_ip_assignments m' = default (m_ip_assignments m) (umr_ip_assignments body) /\
  m_name m' = default (m_name m) (umr_name body) /\
  m_active_bridge m' = default (m_active_bridge m) (umr_active_bridge body) /\
  m_no_auto_assign_ips m' = default (m_no_auto_assign_ips m) (umr_no_auto_assign_ips body) /\
  m_capabilities m' = default (m_capabilities m) (umr_capabilities body) /\
  m_tags m' = default (m_tags m) (map tag_from_response <$> umr_tags body) /\
  m_last_authorized_time m' = (if m_authorized m' && negb (m_authorized m) then now_ms else m_last_authorized_time m) /\
  m_last_deauthorized_time m' = (if m_authorized m && negb (m_authorized m') then now_ms else m_last_deauthorized_time m) /\
  m_revision m' = m_revision m + 1.

Lemma member_revised_ok now m m' body : bump_member (apply_member_updates now m body) = Ok m' -> member_revised now body m m'.
Proof.
  unfold bump_member. case_match; [done|]. intros [= <-]. unfold member_revised, apply_member_updates. cbn.
  split_and!; try done; [by destruct (umr_tags body)|..]; destruct (umr_authorized body) as [[]|]; destruct (m_authorized m); done.
Qed.

Definition member_outcome (v v' : View) (now_ms : Z) (nwid hex : bytes) (body : UpdateMemberRequest)
    (r : res ApiError ControllerMemberResponse) : Prop :=
  match r with
  | Ok resp =>
      exists nid a m, parse_network_id nwid = Ok nid /\ parse_node_id_bytes hex = Ok a /\
        member_revised now_ms body (member_before v nid a now_ms) m /\
        view_eq v' (put_member v m) /\ resp = member_to_response m /\ Engine.member_ok m
  | Err (BAD_REQUEST, _) => view_eq v' v /\ (RuleJson.hex_u64_of nwid = None \/ RuleJson.hex_u64_of hex = None)
  | Err (INTERNAL_SERVER_ERROR, _) => view_eq v' v /\ fallible (S := S)
  | Err _ => False
  | Panic => view_eq v' v /\ exists nid a, m_revision (member_before v nid a now_ms) = U64_MAX
  | Hang => False
  end.

Lemma member_before_ok v nid a now : Engine.view_ok v -> u64_ok nid -> len a = 5 -> u64_ok now ->
  Engine.member_ok (member_before v nid a now).
Proof.
  intros (_ & Hm & _) Hn Ha Ht. unfold member_before. destruct (v_member v nid a) as [m|] eqn:E; cbn; [by eapply Hm|].
  by apply Engine.new_member_ok.
Qed.

Lemma load_or_new_reads nid a now s Q : inv s -> u64_ok nid ->
  Q s (Ok (member_before (view s) nid a now)) -> (forall msg, fallible -> Q s (Err (INTERNAL_SERVER_ERROR, msg))) ->
  hwp (load_or_new nid a now) s Q.
Proof.
  intros Hi Hn Hq He. unfold load_or_new. apply hwp_bind. eapply hwp_read; [done|by apply get_member_ok| |exact He].
  intros ? -> _. unfold member_before in Hq. destruct (v_member (view s) nid a) as [m|] eqn:E; cbn [is_some]; [|by apply hwp_ret].
  apply hwp_bind. eapply hwp_read; [done|by apply get_member_ok| |exact He].
  intros ? -> _. rewrite E. by apply hwp_pure.
Qed.

Lemma update_member_steps c now nwid hex body s : inv s -> Engine.view_ok (view s) -> u64_ok now -> member_request_ok body ->
  hwp (update_member (Some c) now nwid hex body) s (fun s' r => member_outcome (view s) (view s') now nwid hex body r).
Proof.
  intros Hi Hv Ht Hb. unfold update_member. apply hwp_bind, hwp_pure; [done|]. intros _. apply hwp_bind, hwp_pure; [done|].
  destruct (network_id_cases nwid) as [(nid & En & _ & Hid)|(msg & -> & E)]; [rewrite En|cbn; split; [reflexivity|by left]].
  intros _. apply hwp_bind, hwp_pure; [done|].
  destruct (node_id_cases hex) as [(a & Ea & Hl)|(msg & -> & E)]; [rewrite Ea|cbn; split; [reflexivity|by right]].
  intros _. apply hwp_bind, load_or_new_reads; [done|done| |by cbn].
  intros _. apply hwp_bind, hwp_pure; [done|].
  pose proof (member_updates_ok now _ body Ht Hb (member_before_ok (view s) nid a now Hv Hid Hl Ht)) as Hok.
  destruct (bump_member _) as [m|e| |] eqn:Eb; [|unfold bump_member in Eb; by destruct (_ <=? _)| |unfold bump_member in Eb; by destruct (_ <=? _)].
  2: { cbn. split; [reflexivity|]. exists nid, a. unfold bump_member in Eb. destruct (_ <=? _) eqn:Erev; [|done].
       destruct Hok as [[_ _ _ _ _ [_ Hr] _ _ _] _]. apply Z.leb_le in Erev. cbn in *. lia. }
  intros _. destruct (bump_member_ok _ _ Hok Eb) as [Hm _].
  apply hwp_bind. eapply hwp_write; [apply upsert_member_ok; [done|apply Hm]| |].
  - intros s' Hi' Hv' _. apply hwp_ret; [done|]. exists nid, a, m. split_and!; try done. by apply member_revised_ok.
  - intros s' msg Hi' [Hf Hv']. done.
Qed.

(** ** Networks *)

(** A store the controller can serve from, its networks under their identifiers. *)
Definition good (v : View) : Prop :=
  Engine.view_ok v /\ forall id n, v_network v id = Some n -> network_typed n /\ n_id n = id.

(** At most the record, the pools and the routes of one network differ. *)
Definition only_network (v w : View) (nid : Z) : Prop :=
  (forall id, id <> nid -> v_network w id = v_network v id /\ v_pools w id = v_pools v id /\ v_routes w id = v_routes v id) /\
  (forall id a, v_member w id a = v_member v id a).

Lemma only_network_trans u v w nid : only_network u v nid -> only_network v w nid -> only_network u w nid.
Proof.
  intros [A1 A2] [B1 B2]. split; [|by intros; rewrite B2, A2]. intros id Hne.
  destruct (A1 id Hne) as (? & ? & ?), (B1 id Hne) as (? & ? & ?). split_and!; congruence.
Qed.

Lemma good_eq v w : good v -> view_eq w v -> good w.
Proof.
  intros [Ho Hn] Hv. split; [by eapply Engine.view_ok_eq|]. intros id n. rewrite (proj1 Hv). apply Hn.
Qed.

Lemma only_network_eq v w nid : view_eq w v -> only_network v w nid.
Proof. intros (E1 & E2 & E3 & E4). split; [|done]. intros id _. by rewrite E1, E3, E4. Qed.

Lemma typed_network_ok n : network_typed n -> Config.network_ok n.
Proof. intros [? ? [_ ?] [? ?] _ _ _ _]. by split_and!. Qed.

Lemma good_network v w nid n : good v -> network_typed n -> n_id n = nid ->
  (forall id, v_network w id = if id =? nid then Some n else v_network v id) -> (forall id a, v_member w id a = v_member v id a) ->
  (forall id, v_pools w id = v_pools v id) -> (forall id, v_routes w id = v_routes v id) ->
  only_network v w nid /\ good w.
Proof.
  intros [(O1 & O2 & O3 & O4) Hg] Ht Hid E1 E2 E3 E4. split; [split; [|done]; intros id Hne; rewrite E1, E3, E4; by rewrite if_false by lia|].
  split; [split_and!; intros *; rewrite ?E1, ?E2, ?E3, ?E4; eauto|intros id m; rewrite E1]; case_match; eauto.
  - intros [= <-]. by apply typed_network_ok.
  - intros [= <-]. split; [done|]. lia.
Qed.

Lemma good_pools v w nid ps : good v -> Forall Pools.pool_wf ps -> view_eq w (put_pools v nid ps) -> only_network v w nid /\ good w.
Proof.
  intros [(O1 & O2 & O3 & O4) Hg] Ht (E1 & E2 & E3 & E4). cbn in *. split; [split; [|done]; intros id Hne; rewrite E1, E3, E4; by rewrite if_false by lia|].
  split; [split_and!; intros *; rewrite ?E1, ?E2, ?E3, ?E4; eauto; by case_match|intros id n; rewrite E1; apply Hg].
Qed.

Lemma good_routes v w nid rs : good v -> Forall Config.route_ok rs -> view_eq w (put_routes v nid rs) -> only_network v w nid /\ good w.
Proof.
  intros [(O1 & O2 & O3 & O4) Hg] Ht (E1 & E2 & E3 & E4). cbn in *. split; [split; [|done]; intros id Hne; rewrite E1, E3, E4; by rewrite if_false by lia|].
  split; [split_and!; intros *; rewrite ?E1, ?E2, ?E3, ?E4; eauto; by case_match|intros id n; rewrite E1; apply Hg].
Qed.

(** The pools and routes a request leaves: those it names - pools that do not parse are skipped -
    in some order, or what was there. *)
Definition pools_after (body : UpdateNetworkRequest V) (old ps : list IpPool) : Prop :=
  match unr_ip_assignment_pools body with Some l => ps ≡ₚ omap parse_ip_pool l | None => ps = old end.
Definition routes_after (body : UpdateNetworkRequest V) (old rs : list ManagedRoute) : Prop :=
  match unr_routes body with Some l => rs ≡ₚ map parse_managed_route l | None => rs = old end.

Lemma parsed_pools_wf l : Forall Pools.pool_wf (omap parse_ip_pool l).
Proof.
  apply Forall_forall. intros p (r & _ & Hp)%list_elem_of_omap. unfold parse_ip_pool, parse_dotted_ipv4 in Hp.
  destruct (Pools.octets (split_on _ (ip_range_start r))) eqn:E1; simplify_option_eq. split; by eapply Pools.octets_len.
Qed.

Lemma replace_pools_ok nid body s Q : inv s -> u64_ok nid -> good (view s) ->
  (forall s' ps, inv s' -> only_network (view s) (view s') nid -> good (view s') ->
     pools_after body (v_pools (view s) nid) ps -> view_eq (view s') (put_pools (view s) nid ps) -> Q s' (Ok tt)) ->
  (forall s' msg, inv s' -> only_network (view s) (view s') nid -> good (view s') -> fallible -> Q s' (Err (INTERNAL_SERVER_ERROR, msg))) ->
  hwp (replace_pools nid body) s Q.
Proof.
  intros Hi Hn Hg Hq He. unfold replace_pools, pools_after in *. destruct (unr_ip_assignment_pools body) as [l|].
  - eapply hwp_write; [apply set_pools_ok; [done|done|apply parsed_pools_wf]| |].
    + intros s' Hi' (ps & Hp & Hv). destruct (good_pools (view s) (view s') nid ps) as [Ho Hg']; [done|by rewrite Hp; apply parsed_pools_wf|done|].
      by eapply Hq.
    + intros s' msg Hi' [Hf [Hv|(ps & Hp & Hv)]].
      * apply He; [done|by apply only_network_eq|by eapply good_eq|done].
      * destruct (good_pools (view s) (view s') nid ps) as [Ho Hg']; [done| |done|by apply He].
        apply Forall_forall. intros p Hpin. pose proof (parsed_pools_wf l) as Hl. rewrite Forall_forall in Hl. by eapply Hl, elem_of_submseteq.
  - apply hwp_ret; [done|]. eapply (Hq s (v_pools (view s) nid)); [done|by apply only_network_eq|done|done|].
    split_and!; try done. intros id. cbn. case_match; [by replace id with nid by lia|done].
Qed.

Lemma replace_routes_ok nid body s Q : inv s -> u64_ok nid -> good (view s) -> network_request_ok body ->
  (forall s' rs, inv s' -> only_network (view s) (view s') nid -> good (view s') ->
     routes_after body (v_routes (view s) nid) rs -> view_eq (view s') (put_routes (view s) nid rs) -> Q s' (Ok tt)) ->
  (forall s' msg, inv s' -> only_network (view s) (view s') nid -> good (view s') -> fallible -> Q s' (Err (INTERNAL_SERVER_ERROR, msg))) ->
  hwp (replace_routes nid body) s Q.
Proof.
  intros Hi Hn Hg [_ _ _ Hr _ _ _] Hq He. unfold replace_routes, routes_after in *. destruct (unr_routes body) as [l|].
  - destruct Hr as [Hr Hro]. eapply hwp_write; [by apply set_routes_ok| |].
    + intros s' Hi' (rs & Hp & Hv). destruct (good_routes (view s) (view s') nid rs) as [Ho Hg']; [done|by rewrite Hp|done|].
      by eapply Hq.
    + intros s' msg Hi' [Hf Hv]. apply He; [done|by apply only_network_eq|by eapply good_eq|done].
  - apply hwp_ret; [done|]. eapply (Hq s (v_routes (view s) nid)); [done|by apply only_network_eq|done|done|].
    split_and!; try done. intros id. cbn. case_match; [by replace id with nid by lia|done].
Qed.

(** Both, and then what follows. *)
Lemma settings_steps {A} nid body s (k : Handler A) Q : inv s -> u64_ok nid -> good (view s) -> network_request_ok body ->
  (forall s' ps rs, inv s' -> only_network (view s) (view s') nid -> good (view s') ->
     v_network (view s') nid = v_network (view s) nid ->
     pools_after body (v_pools (view s) nid) ps -> v_pools (view s') nid = ps ->
     routes_after body (v_routes (view s) nid) rs -> v_routes (view s') nid = rs -> hwp k s' Q) ->
  (forall s' msg, inv s' -> only_network (view s) (view s') nid -> good (view s') -> fallible -> Q s' (Err (INTERNAL_SERVER_ERROR, msg))) ->
  hwp (hbind (replace_pools nid body) (fun _ => hbind (replace_routes nid body) (fun _ => k))) s Q.
Proof.
  intros Hi Hn Hg Hb Hq He. apply hwp_bind, replace_pools_ok; [done..| |by cbn].
  intros s1 ps Hi1 Ho1 Hg1 Hps (P1 & P2 & P3 & P4) _. cbn in P1, P3, P4.
  apply hwp_bind, replace_routes_ok; [done..| |].
  2: { intros s2 msg Hi2 Ho2 Hg2 Hf. apply He; [done|by eapply only_network_trans|done|done]. }
  intros s2 rs Hi2 Ho2 Hg2 Hrs (R1 & R2 & R3 & R4) _. cbn in R1, R3, R4. rewrite P4 in Hrs.
  apply (Hq s2 ps rs); [done|by eapply only_network_trans|done|by rewrite R1, P1|done|by rewrite R3, P3, Z.eqb_refl|done|by rewrite R4, Z.eqb_refl].
Qed.

(** What an update makes of a network's record. *)
Definition network_revised (body : UpdateNetworkRequest V) (n n' : NetworkRecord) : Prop :=
  n_id n' = n_id n /\ n_creation_time n' = n_creation_time n /\ n_v6_assign_mode n' = n_v6_assign_mode n /\
  n_name n' = default (n_name n) (unr_name body) /\
  n_private n' = default (n_private n) (unr_private body) /\
  n_multicast_limit n' = default (n_multicast_limit n) (unr_multicast_limit body) /\
  n_mtu n' = default (n_mtu n) (unr_mtu body) /\
  n_enable_broadcast n' = default (n_enable_broadcast n) (unr_enable_broadcast body) /\
  n_v4_assign_mode n' = match v4 ← unr_v4_assign_mode body; zt ← RuleJson.get v4 (str "zt"); as_bool zt with
                        | Some true => str "zt" | Some false => str "none" | None => n_v4_assign_mode n
                        end /\
  match unr_rules body with Some rules => RuleJson.rules_from_response rules = Ok (n_rules n') | None => n_rules n' = n_rules n end /\
  match unr_capabilities body with
  | Some caps => capabilities_from_response caps = Ok (n_capabilities n') | None => n_capabilities n' = n_capabilities n end /\
  n_tags n' = default (n_tags n) (map tag_definition_from_response <$> unr_tags body) /\
  n_revision n' = n_revision n + 1.

Lemma network_revised_ok body n n1 n' : apply_network_updates n body = Ok n1 -> bump_network n1 = Ok n' -> network_revised body n n'.
Proof.
  unfold apply_network_updates. destruct (match unr_rules body with Some _ => _ | None => _ end) as [rs| | |] eqn:Ers; cbn; try done.
  destruct (match unr_capabilities body with Some _ => _ | None => _ end) as [cs| | |] eqn:Ecs; cbn; try done.
  intros [= <-]. unfold bump_network. cbn. destruct (_ <=? _); [done|]. intros [= <-]. unfold network_revised. cbn.
  split_and!; try done.
  - destruct (unr_v4_assign_mode body) as [v4|]; [|done]. unfold v4_mode_of. cbn.
    destruct (RuleJson.get v4 _) as [z|]; cbn; [|done]. by destruct (as_bool z) as [[]|].
  - destruct (unr_rules body); [done|]. by injection Ers as <-.
  - destruct (unr_capabilities body); [done|]. by injection Ecs as <-.
  - by destruct (unr_tags body).
Qed.

Definition network_outcome (v v' : View) (nwid : bytes) (body : UpdateNetworkRequest V)
    (r : res ApiError (ControllerNetworkResponse V)) : Prop :=
  match r with
  | Ok resp =>
      exists nid n n' ps rs, parse_network_id nwid = Ok nid /\ v_network v nid = Some n /\
        network_revised body n n' /\ v_network v' nid = Some n' /\
        pools_after body (v_pools v nid) ps /\ v_pools v' nid = ps /\
        routes_after body (v_routes v nid) rs /\ v_routes v' nid = rs /\
        only_network v v' nid /\ resp = network_to_response n' ps rs
  | Err (BAD_REQUEST, _) => view_eq v' v /\ RuleJson.hex_u64_of nwid = None
  | Err (NOT_FOUND, _) => view_eq v' v /\ exists nid, parse_network_id nwid = Ok nid /\ v_network v nid = None
  | Err (INTERNAL_SERVER_ERROR, _) => fallible (S := S) /\ exists nid, only_network v v' nid
  | Err _ | Hang => False
  | Panic => view_eq v' v /\ exists nid n, v_network v nid = Some n /\
      (apply_network_updates n body = Panic \/ n_revision n = U64_MAX)
  end.

Lemma answer_network_reads (n : NetworkRecord) nid s (Q : S -> res ApiError (ControllerNetworkResponse V) -> Prop) :
  inv s -> u64_ok nid ->
  Q s (Ok (network_to_response n (v_pools (view s) nid) (v_routes (view s) nid))) ->
  (forall msg, fallible -> Q s (Err (INTERNAL_SERVER_ERROR, msg))) ->
  hwp (answer_network n nid) s Q.
Proof.
  intros Hi Hn Hq He. unfold answer_network. apply hwp_bind. eapply hwp_read; [done|by apply get_pools_ok| |exact He].
  intros ? -> _. apply hwp_bind. eapply hwp_read; [done|by apply get_routes_ok| |exact He].
  intros ? -> _. by apply hwp_ret.
Qed.

Lemma found_network_reads nid s (Q : S -> res ApiError NetworkRecord -> Prop) : inv s -> u64_ok nid ->
  (forall n, v_network (view s) nid = Some n -> Q s (Ok n)) ->
  (v_network (view s) nid = None -> Q s (Err (NOT_FOUND, str "network not found"))) ->
  (forall msg, fallible -> Q s (Err (INTERNAL_SERVER_ERROR, msg))) ->
  hwp (found_network nid) s Q.
Proof.
  intros Hi Hn Hq H404 He. unfold found_network. apply hwp_bind. eapply hwp_read; [done|by apply get_network_ok| |exact He].
  intros ? -> _. apply hwp_pure; [done|]. destruct (v_network (view s) nid) as [n|]; cbn; auto.
Qed.

Lemma bump_network_converts n : (exists n', bump_network n = Ok n') \/ bump_network n = Panic /\ U64_MAX <= n_revision n.
Proof. unfold bump_network. destruct (_ <=? _) eqn:E; [right; split; [done|lia]|left; by eexists]. Qed.

(** The writes of an update and the answer, from the new record. *)
Definition write_network (nid : Z) (n : NetworkRecord) (body : UpdateNetworkRequest V)
    : Handler (S := S) (ControllerNetworkResponse V) :=
  hbind (hwrite (fun s => Storage.update_network s n)) (fun _ =>
  hbind (replace_pools nid body) (fun _ => hbind (replace_routes nid body) (fun _ => answer_network n nid))).

Lemma write_network_steps nid n n' body s : inv s -> u64_ok nid -> good (view s) -> network_request_ok body ->
  v_network (view s) nid = Some n -> network_typed n' -> n_id n' = nid ->
  hwp (write_network nid n' body) s (fun s' r =>
    good (view s') /\ only_network (view s) (view s') nid /\
    match r with
    | Ok resp => exists ps rs, v_network (view s') nid = Some n' /\
        pools_after body (v_pools (view s) nid) ps /\ v_pools (view s') nid = ps /\
        routes_after body (v_routes (view s) nid) rs /\ v_routes (view s') nid = rs /\ resp = network_to_response n' ps rs
    | Err (INTERNAL_SERVER_ERROR, _) => fallible
    | _ => False
    end).
Proof.
  intros Hi Hn Hg Hb Hnet Ht Hid. unfold write_network. apply hwp_bind.
  eapply hwp_write; [by apply update_network_ok| |].
  2: { intros s1 msg Hi1 [[Hf|Hnone] Hv1]; [|by rewrite Hid, Hnet in Hnone]. cbn. split_and!; [by eapply good_eq|by apply only_network_eq|done]. }
  intros s1 Hi1 [(E1' & E2 & E3 & E4)|[Hnone _]] _; [|by rewrite Hid, Hnet in Hnone]. cbn in E1', E2, E3, E4. rewrite Hid in E1'.
  destruct (good_network (view s) (view s1) nid n') as [Ho1 Hg1]; [done..|].
  apply settings_steps; [done..| |].
  2: { intros s2 msg Hi2 Ho2 Hg2 Hf. cbn. split_and!; [done|by eapply only_network_trans|done]. }
  intros s2 ps rs Hi2 Ho2 Hg2 Hn2 Hps Hp Hrs Hr. rewrite E3 in Hps. rewrite E4 in Hrs. rewrite E1', Z.eqb_refl in Hn2.
  pose proof (only_network_trans _ _ _ _ Ho1 Ho2) as Ho. apply answer_network_reads; [done|done| |by cbn]. cbn.
  rewrite Hp, Hr. split_and!; [done|done|]. by exists ps, rs.
Qed.

Lemma update_network_steps c rnd now nwid body s : inv s -> good (view s) -> network_request_ok body ->
  ends_with (str "______") nwid = false ->
  hwp (update_network (Some c) rnd now nwid body) s (fun s' r =>
    good (view s') /\ network_outcome (view s) (view s') nwid body r).
Proof.
  intros Hi Hg Hb Hw. unfold update_network. apply hwp_bind, hwp_pure; [done|]. intros _. rewrite Hw.
  apply hwp_bind, hwp_pure; [done|].
  destruct (network_id_cases nwid) as [(nid & En & _ & Hid)|(msg & -> & E)]; [rewrite En|by cbn].
  intros _. apply hwp_bind, found_network_reads; [done..| | |].
  2: { intros Hnone. cbn. split; [done|]. split; [done|]. by exists nid. }
  2: { intros msg Hf. cbn. split; [done|]. split; [done|]. exists nid. by apply only_network_eq. }
  intros n Hnet _. destruct (proj2 Hg nid n Hnet) as [Hty Hnid].
  apply hwp_bind, hwp_pure; [done|]. pose proof (updates_convert n body) as Hc.
  destruct (apply_network_updates n body) as [n1| | |] eqn:E1; try done.
  2: { cbn. split; [done|]. split; [done|]. exists nid, n. split; [done|]. by left. }
  intros _. destruct (updates_typed n n1 body Hb Hty E1) as (Hty1 & Hid1 & Hrev1).
  apply hwp_bind, hwp_pure; [done|].
  destruct (bump_network_converts n1) as [[n' E2]|[E2 Hmax]]; rewrite E2.
  2: { cbn. split; [done|]. split; [done|]. exists nid, n. split; [done|]. right. destruct Hty as [_ _ [_ [? ?]] _ _ _ _ _]. lia. }
  intros _. destruct (bump_network_typed n1 n' Hty1 E2) as (Hty' & Hid' & _).
  eapply hwp_mono; [apply (write_network_steps nid n n' body s); [done..|lia]|].
  intros s' r Hi' (Hg' & Ho & Hr). split; [done|]. destruct r as [resp|[[] ?]| |]; cbn in *; try done.
  - destruct Hr as (ps & rs & Hn' & Hps & Hp & Hrs & Hr & ->). exists nid, n, n', ps, rs. split_and!; try done.
    by eapply network_revised_ok.
  - split; [done|]. by exists nid.
Qed.

(** ** A network created *)

Definition created_id (c : Controller) (random_bytes : bytes) : Z :=
  Z.lor (wrap 64 (Z.shiftl (Engine.zt_address_to_u64 (ctl_address c)) 24)) (Z.land (Z.land (from_be random_bytes) 0x00FFFFFF) 0x00FFFFFF).
Definition created_record (nid now_ms : Z) : NetworkRecord :=
  mkNetworkRecord nid [] true now_ms 1 32 2800 (str "zt") (str "none") [] [] [] true.

(** What a request to create works on: the fresh record - or, of a backend that ignores a second
    creation, the network that has the identifier already. *)
Definition started (v : View) (nid now_ms : Z) (n0 : NetworkRecord) : Prop :=
  n0 = created_record nid now_ms \/ v_network v nid = Some n0.

Definition creation_outcome (v v' : View) (c : Controller) (random_bytes : bytes + bytes) (now_ms : Z)
    (body : UpdateNetworkRequest V) (r : res ApiError (ControllerNetworkResponse V)) : Prop :=
  match r with
  | Ok resp =>
      exists bs nid n0 n' ps rs, random_bytes = inr bs /\ nid = created_id c bs /\
        started v nid now_ms n0 /\ apply_network_updates n0 body = Ok n' /\
        v_network v' nid = Some n' /\
        pools_after body (v_pools v nid) ps /\ v_pools v' nid = ps /\
        routes_after body (v_routes v nid) rs /\ v_routes v' nid = rs /\
        only_network v v' nid /\ resp = network_to_response n' ps rs
  | Err (INTERNAL_SERVER_ERROR, msg) =>
      random_bytes = inl msg \/ fallible (S := S) /\ exists nid, only_network v v' nid
  | Err _ | Hang => False
  | Panic =>
      exists bs nid n0, random_bytes = inr bs /\ nid = created_id c bs /\ only_network v v' nid /\
        started v nid now_ms n0 /\ apply_network_updates n0 body = Panic
  end.

Lemma no_fields n (body : UpdateNetworkRequest V) : has_fields body = false -> apply_network_updates n body = Ok n.
Proof. destruct n, body as [[] [] [] [] [] ? ? [] [] [] []]; cbn; try done. Qed.

(** The record as the request leaves it, written when the request names a field. *)
Definition write_fields (nid : Z) (body : UpdateNetworkRequest V) : Handler (S := S) unit :=
  if has_fields body then
    hbind (hread (fun s => Storage.get_network s nid)) (fun network =>
    match network with
    | Some network =>
        hbind (hconvert (apply_network_updates network body)) (fun network =>
        hwrite (fun s => Storage.update_network s network))
    | None => hret tt
    end)
  else hret tt.

Lemma write_fields_steps nid n body s : inv s -> u64_ok nid -> good (view s) -> network_request_ok body ->
  v_network (view s) nid = Some n ->
  hwp (write_fields nid body) s (fun s' r =>
    good (view s') /\ only_network (view s) (view s') nid /\
    (forall id, v_pools (view s') id = v_pools (view s) id) /\ (forall id, v_routes (view s') id = v_routes (view s) id) /\
    match r with
    | Ok _ => exists n', apply_network_updates n body = Ok n' /\ v_network (view s') nid = Some n'
    | Err (INTERNAL_SERVER_ERROR, _) => fallible
    | Err _ | Hang => False
    | Panic => apply_network_updates n body = Panic
    end).
Proof.
  intros Hi Hn Hg Hb Hnet. assert (only_network (view s) (view s) nid) as Hrefl by by apply only_network_eq.
  unfold write_fields. destruct (has_fields body) eqn:Hf.
  2: { apply hwp_ret; [done|]. split_and!; try done. exists n. split; [by apply no_fields|done]. }
  apply hwp_bind. eapply hwp_read; [done|by apply get_network_ok| |by cbn]. intros ? -> _. rewrite Hnet.
  apply hwp_bind, hwp_pure; [done|]. pose proof (updates_convert n body) as Hc. destruct (proj2 Hg nid n Hnet) as [Hty Hnid].
  destruct (apply_network_updates n body) as [n1| | |] eqn:E1; try done.
  intros _. destruct (updates_typed n n1 body Hb Hty E1) as (Hty1 & Hid1 & _).
  eapply hwp_write; [by apply update_network_ok| |].
  2: { intros s1 msg Hi1 [[Hfl|Hnone] Hv1]; [|by rewrite Hid1, Hnid, Hnet in Hnone].
       split_and!; [by eapply good_eq|by apply only_network_eq|apply Hv1|apply Hv1|done]. }
  intros s1 Hi1 [(E2' & E3 & E4 & E5)|[Hnone _]]; [|by rewrite Hid1, Hnid, Hnet in Hnone]. cbn in E2', E3, E4, E5. rewrite Hid1, Hnid in E2'.
  destruct (good_network (view s) (view s1) nid n1) as [Ho1 Hg1]; [done|done|lia|done..|].
  split_and!; try done. exists n1. split; [done|]. by rewrite E2', Z.eqb_refl.
Qed.

Lemma create_steps c rnd now body s : inv s -> good (view s) -> network_request_ok body -> u64_ok now ->
  hwp (create_from_request c rnd now body) s (fun s' r =>
    good (view s') /\ creation_outcome (view s) (view s') c rnd now body r).
Proof.
  intros Hi Hg Hb Ht. unfold create_from_request. apply hwp_bind, hwp_pure; [done|].
  destruct rnd as [msg|bs]; cbn; [by split; [|left]|]. intros _.
  assert (u64_ok (created_id c bs)) as Hid by apply Engine.network_id_u64.
  assert (network_typed (created_record (created_id c bs) now)) as Hty.
  { unfold created_record. split; cbn; repeat (apply Forall_nil_2 || split); done || apply Ht || apply Hid. }
  apply hwp_bind. unfold hwp, Engine.create_network, Engine.mbind, Engine.mwrite. fold (created_id c bs).
  fold (created_record (created_id c bs) now). set (nid := created_id c bs) in *.
  pose proof (create_network_ok s (created_record nid now) Hi Hty) as Hc.
  destruct (Storage.create_network s (created_record nid now)) as [s1 r1]. destruct Hc as [Hi1 Hr].
  destruct r1 as [[]|e| |]; cbn in *; try done; (split; [done|]).
  2: { destruct Hr as [Hf Hv]. split; [by eapply good_eq|]. right. split; [done|]. exists nid. by apply only_network_eq. }
  intros _. destruct Hr as (n & Hstart & E1 & E2 & E3 & E4). cbn in Hstart, E1, E2, E3, E4.
  assert (v_network (view s1) nid = Some n) as Hnet by by rewrite E1, Z.eqb_refl.
  assert (network_typed n /\ n_id n = nid) as [Hnty Hnid] by (destruct Hstart as [->|E]; [done|by apply (proj2 Hg nid)]).
  destruct (good_network (view s) (view s1) nid n) as [Ho1 Hg1]; [done..|].
  apply hwp_bind. fold (write_fields nid body). eapply hwp_mono; [by apply (write_fields_steps nid n body)|].
  intros s2 r2 Hi2 (Hg2 & Ho2 & P2 & R2 & Hr2). pose proof (only_network_trans _ _ _ _ Ho1 Ho2) as Ho12.
  destruct r2 as [[]|[[] m]| |]; cbn in *; try done.
  2: { split; [done|]. right. split; [done|]. by exists nid. }
  2: { split; [done|]. by exists bs, nid, n. }
  destruct Hr2 as (n' & Hn' & Hnet2). intros _.
  apply settings_steps; [done..| |].
  2: { intros s3 msg Hi3 Ho3 Hg3 Hf. cbn. split; [done|]. right. split; [done|]. exists nid. by eapply only_network_trans. }
  intros s3 ps rs Hi3 Ho3 Hg3 Hn3 Hps Hp Hrs Hr. pose proof (only_network_trans _ _ _ _ Ho12 Ho3) as Ho13.
  rewrite P2, E3 in Hps. rewrite R2, E4 in Hrs. rewrite Hnet2 in Hn3. apply hwp_bind. eapply hwp_read; [done|by apply get_network_ok| |].
  2: { intros msg Hf. cbn. split; [done|]. right. split; [done|]. by exists nid. }
  intros ? -> _. rewrite Hn3. apply hwp_bind, hwp_pure; [done|]. intros _. apply answer_network_reads; [done|done| |].
  2: { intros msg Hf. cbn. split; [done|]. right. split; [done|]. by exists nid. }
  rewrite Hp, Hr. split; [done|]. by exists bs, nid, n, n', ps, rs.
Qed.

(** ** Deletion *)

Lemma good_member v w m : good v -> Engine.member_ok m -> view_eq w (put_member v m) -> good w.
Proof.
  intros [(O1 & O2 & O3 & O4) Hg] Hm (E1 & E2 & E3 & E4). cbn in *.
  split; [split_and!; intros *; rewrite ?E1, ?E2, ?E3, ?E4; eauto|intros id n; rewrite E1; apply Hg].
  case_decide; [by intros [= <-]|apply O2].
Qed.

Lemma good_member_removed v w nid a : good v -> view_eq w (remove_member v nid a) -> good w.
Proof.
  intros [(O1 & O2 & O3 & O4) Hg] (E1 & E2 & E3 & E4). cbn in *.
  split; [split_and!; intros *; rewrite ?E1, ?E2, ?E3, ?E4; eauto|intros id n; rewrite E1; apply Hg].
  case_decide; [done|apply O2].
Qed.

Lemma good_removed v w nid : good v -> network_removed v w nid -> good w.
Proof.
  intros [(O1 & O2 & O3 & O4) Hg] (E1 & E2 & E3 & E4).
  assert (forall id n, v_network w id = Some n -> v_network v id = Some n) as Hnet by (intros id n; rewrite E1; by case_match).
  split; [split_and!|intros id n Hn; by apply Hg, Hnet].
  - intros id n Hn. by eapply O1, Hnet.
  - intros id a m. destruct (E2 id a) as [->|[_ ->]]; [apply O2|done].
  - intros id. destruct (E3 id) as [->|[_ ->]]; [apply O3|constructor].
  - intros id. destruct (E4 id) as [->|[_ ->]]; [apply O4|constructor].
Qed.

(** The answer of a deletion is the network as it was, and then it is gone. *)
Lemma delete_network_steps c nwid s : inv s -> good (view s) ->
  hwp (delete_network (V := V) (Some c) nwid) s (fun s' r => good (view s') /\
    match r with
    | Ok resp => exists nid n, parse_network_id nwid = Ok nid /\ v_network (view s) nid = Some n /\
        resp = network_to_response n (v_pools (view s) nid) (v_routes (view s) nid) /\ network_removed (view s) (view s') nid
    | Err (BAD_REQUEST, _) | Err (NOT_FOUND, _) => view_eq (view s') (view s)
    | Err (INTERNAL_SERVER_ERROR, _) => fallible /\ view_eq (view s') (view s)
    | _ => False
    end).
Proof.
  intros Hi Hg. unfold delete_network. apply hwp_bind, hwp_pure; [done|]. intros _. apply hwp_bind, hwp_pure; [done|].
  destruct (network_id_cases nwid) as [(nid & En & _ & Hid)|(msg & -> & E)]; [rewrite En|by cbn].
  intros _. apply hwp_bind, found_network_reads; [done..| |by cbn|by cbn].
  intros n Hnet _. apply hwp_bind, answer_network_reads; [done..| |by cbn]. intros _.
  apply hwp_bind. eapply hwp_write; [by apply delete_network_ok| |].
  - intros s1 Hi1 Hr _. apply hwp_ret; [done|]. split; [exact (good_removed _ _ _ Hg Hr)|]. by exists nid, n.
  - intros s1 msg Hi1 [Hf Hv]. split; [by eapply good_eq|done].
Qed.

Lemma delete_member_steps c nwid hex s : inv s -> good (view s) ->
  hwp (delete_member (Some c) nwid hex) s (fun s' r => good (view s') /\
    match r with
    | Ok status => status = OK /\ exists nid a, parse_network_id nwid = Ok nid /\ parse_node_id_bytes hex = Ok a /\
        view_eq (view s') (remove_member (view s) nid a)
    | Err (BAD_REQUEST, _) => view_eq (view s') (view s)
    | Err (INTERNAL_SERVER_ERROR, _) => fallible /\ view_eq (view s') (view s)
    | _ => False
    end).
Proof.
  intros Hi Hg. unfold delete_member. apply hwp_bind, hwp_pure; [done|]. intros _. apply hwp_bind, hwp_pure; [done|].
  destruct (network_id_cases nwid) as [(nid & En & _ & Hid)|(msg & -> & E)]; [rewrite En|by cbn].
  intros _. apply hwp_bind, hwp_pure; [done|].
  destruct (node_id_cases hex) as [(a & Ea & Hl)|(msg & -> & E)]; [rewrite Ea|by cbn].
  intros _. apply hwp_bind. eapply hwp_write; [by apply delete_member_ok| |].
  - intros s1 Hi1 Hv _. apply hwp_ret; [done|]. split; [exact (good_member_removed _ _ _ _ Hg Hv)|]. split; [done|]. by exists nid, a.
  - intros s1 msg Hi1 [Hf Hv]. split; [by eapply good_eq|done].
Qed.

(** C34. Updating a network: a POST to a network's path, from any store with good records and
    whatever the backend's failures, leaves good records and touches no member and no other
    network. A success has written the named fields, the next revision, the pools that parse and
    the routes, and answers what is then stored; a path of six underscores creates the network
    first, under the controller's address and the low 24 bits of the random bytes. A path that is
    no number is a bad request and a network that is not there is not found, with nothing
    changed; the only panics are a rule that encodes no bits and a revision that is the last. *)
Theorem network_update_spec (c : Controller) (random_bytes : bytes + bytes) (now_ms : Z) (nwid : bytes)
    (body : UpdateNetworkRequest V) (s : S) :
  inv s -> good (view s) -> network_request_ok body -> u64_ok now_ms ->
  let '(s', r) := update_network (Some c) random_bytes now_ms nwid body s in
  inv s' /\ good (view s') /\
  if ends_with (str "______") nwid then creation_outcome (view s) (view s') c random_bytes now_ms body r
  else network_outcome (view s) (view s') nwid body r.
Proof.
  intros Hi Hg Hb Ht. destruct (ends_with (str "______") nwid) eqn:Hw.
  - pose proof (create_steps c random_bytes now_ms body s Hi Hg Hb Ht) as Hc. unfold update_network, hbind at 1, enabled, hpure.
    cbn [ok_or]. rewrite Hw. exact Hc.
  - exact (update_network_steps c random_bytes now_ms nwid body s Hi Hg Hb Hw).
Qed.

(** C35. Updating a member: a POST to a member's path changes at most that member's record. A
    success has stored the record it answers: the stored one, or a fresh one, with the fields of
    the request, the moment of a change of the authorization (and of no other) and the next
    revision. A path that is no number is a bad request; a failing backend changes nothing; the
    only panic is the last revision, and it changes nothing. *)
Theorem member_update_spec (c : Controller) (now_ms : Z) (nwid hex : bytes) (body : UpdateMemberRequest) (s : S) :
  inv s -> Engine.view_ok (view s) -> u64_ok now_ms -> member_request_ok body ->
  let '(s', r) := update_member (Some c) now_ms nwid hex body s in
  inv s' /\ member_outcome (view s) (view s') now_ms nwid hex body r.
Proof. intros. by apply update_member_steps. Qed.

(** ** What the API and the members' nodes do to a controller *)

Inductive Call :=
  | PostNetwork (random_bytes : bytes + bytes) (now_ms : Z) (nwid : bytes) (body : UpdateNetworkRequest V)
  | DeleteNetwork (nwid : bytes)
  | PostMember (now_ms : Z) (nwid hex : bytes) (body : UpdateMemberRequest)
  | DeleteMember (nwid hex : bytes)
  | ConfigRequest (nid : Z) (requester : bytes) (now_ms : Z).

Definition run_call (c : Controller) (s : S) (call : Call) : S :=
  match call with
  | PostNetwork random_bytes now_ms nwid body => (update_network (Some c) random_bytes now_ms nwid body s).1
  | DeleteNetwork nwid => (delete_network (V := V) (Some c) nwid s).1
  | PostMember now_ms nwid hex body => (update_member (Some c) now_ms nwid hex body s).1
  | DeleteMember nwid hex => (delete_member (Some c) nwid hex s).1
  | ConfigRequest nid requester now_ms => (Engine.handle_config_request c nid requester now_ms s).1
  end.

(** What the Rust types say of a call. *)
Definition call_typed (call : Call) : Prop :=
  match call with
  | PostNetwork _ now_ms _ body => u64_ok now_ms /\ network_request_typed body
  | PostMember now_ms _ _ body => u64_ok now_ms /\ member_request_typed body
  | ConfigRequest nid requester now_ms => u64_ok nid /\ len requester = 5 /\ u64_ok now_ms
  | DeleteNetwork _ | DeleteMember _ _ => True
  end.

(** Whether it stores only routes and assignments the configuration builder can take, which the
    handlers do not check. *)
Definition buildable (call : Call) : Prop :=
  match call with
  | PostNetwork _ _ _ body => routes_buildable body
  | PostMember _ _ _ body => ips_buildable body
  | _ => True
  end.

#[export] Instance buildable_dec call : Decision (buildable call).
Proof. destruct call; apply _. Defined.

Definition good_store (s : S) : Prop := inv s /\ good (view s).

End Steps.

Section Histories.
Context {S Er V : Type} `{PrimLaws} `{StorageLaws S Er} `{JsonValue V}.
Context (c : Controller) (Hkey : len (ctl_signing_key c) = 32) (Haddr : len (ctl_address c) = 5).
Implicit Type s : S.

Lemma config_request_good nid a now s : good_store s -> u64_ok nid -> len a = 5 -> u64_ok now ->
  let '(s', r) := Engine.handle_config_request c nid a now s in
  good_store s' /\ Engine.frame (view s) (view s') nid a /\ Engine.request_outcome (view s) (view s') c nid a now r.
Proof.
  intros [Hi [Hv Hg]] Hn Ha Ht. pose proof (Engine.config_request_steps c nid a now s Hi Hv Hkey Haddr Ha Hn Ht) as Hw.
  unfold Engine.mwp in Hw. destruct (Engine.handle_config_request c nid a now s) as [s' r]. destruct Hw as [Hi' Hr].
  assert (Engine.advance (view s) (view s') nid a /\ Engine.request_outcome (view s) (view s') c nid a now r) as [(Hf & Hv' & _) Ho]
    by (by destruct r; destruct Hr).
  split; [|done]. split; [done|]. split; [auto|]. intros id n. rewrite (proj1 Hf). apply Hg.
Qed.

Lemma run_call_good (call : Call (V := V)) s : call_typed call -> buildable call -> good_store s -> good_store (run_call c s call).
Proof.
  intros Hc Hbuild [Hi Hg]. destruct call as [rnd now nwid body|nwid|now nwid hex body|nwid hex|nid a now]; cbn in Hc, Hbuild.
  - destruct Hc as [Ht Hb]. apply network_request_split in Hb; [|done]. unfold run_call. destruct (ends_with (str "______") nwid) eqn:Hw.
    + pose proof (create_steps c rnd now body s Hi Hg Hb Ht) as Hs. unfold update_network, hbind at 1, enabled, hpure.
      cbn [ok_or]. rewrite Hw. unfold hwp in Hs. destruct (create_from_request c rnd now body s). split; apply Hs.
    + pose proof (update_network_steps c rnd now nwid body s Hi Hg Hb Hw) as Hs. unfold hwp in Hs.
      destruct (update_network (Some c) rnd now nwid body s). split; apply Hs.
  - pose proof (delete_network_steps (V := V) c nwid s Hi Hg) as Hs. unfold hwp, run_call in *.
    destruct (delete_network (Some c) nwid s). split; apply Hs.
  - destruct Hc as [Ht Hb]. apply member_request_split in Hb; [|done]. pose proof (update_member_steps c now nwid hex body s Hi (proj1 Hg) Ht Hb) as Hs. unfold hwp, run_call in *.
    destruct (update_member (Some c) now nwid hex body s) as [s' r]. destruct Hs as [Hi' Hr]. split; [done|]. cbn.
    destruct r as [resp|[[] msg]| |]; cbn in Hr; try done; try (by eapply good_eq; [exact Hg|apply Hr]).
    destruct Hr as (nid & a & m & _ & _ & _ & Hv & _ & Hm). by eapply good_member.
  - pose proof (delete_member_steps c nwid hex s Hi Hg) as Hs. unfold hwp, run_call in *.
    destruct (delete_member (Some c) nwid hex s). split; apply Hs.
  - destruct Hc as (Hn & Ha & Ht). pose proof (config_request_good nid a now s (conj Hi Hg) Hn Ha Ht) as Hs. unfold run_call.
    destruct (Engine.handle_config_request c nid a now s). apply Hs.
Qed.

Lemma run_calls_good (calls : list (Call (V := V))) s : Forall call_typed calls -> Forall buildable calls -> good_store s ->
  good_store (fold_left (run_call c) calls s).
Proof.
  intros Hc. revert s. induction Hc as [|call calls Hc _ IH]; intros s Hb Hs; [done|]. apply Forall_cons in Hb as [Hb Hbs].
  cbn. by apply IH, run_call_good.
Qed.

(** C33. The controller keeps a store it can serve from - good records, from which the next
    configuration request does not panic - through any history of API requests and configuration
    requests of nodes, in any order, with whatever values the types allow and a backend that may
    fail at any step of each; unless one of the requests posted a route or an assignment that the
    configuration builder cannot take, an IPv4 prefix of more than 32 bits or an IPv6 address of
    more than eight groups, which the API does not check. *)
Theorem api_keeps_store (calls : list (Call (V := V))) s nid requester now_ms :
  Forall call_typed calls -> good_store s -> u64_ok nid -> len requester = 5 -> u64_ok now_ms ->
  let s' := fold_left (run_call c) calls s in
  let r := (Engine.handle_config_request c nid requester now_ms s').2 in
  (good_store s' /\ r <> Panic /\ r <> Hang) \/ Exists (fun call => ~ buildable call) calls.
Proof.
  intros Hc Hs Hn Ha Ht s'. destruct (Forall_Exists_dec (fun call => buildable call) (fun call => ~ buildable call) (fun call => decide (buildable call)) calls) as [Hb|]; [left|by right].
  pose proof (run_calls_good calls s Hc Hb Hs) as Hs'. split; [done|].
  pose proof (config_request_good nid requester now_ms s' Hs' Hn Ha Ht) as Hw.
  destruct (Engine.handle_config_request c nid requester now_ms s') as [s2 r]. destruct Hw as (_ & _ & Ho). cbn.
  destruct r; by try destruct Ho.
Qed.

(** A member with the given authorization, in a private network. *)
Definition standing (nid : Z) (a : bytes) (b : bool) s : Prop :=
  good_store s /\ (exists net, v_network (view s) nid = Some net /\ n_private net = true) /\
  exists m, v_member (view s) nid a = Some m /\ m_authorized m = b.

Lemma request_keeps_standing nid a b s nid' a' now : u64_ok nid' -> len a' = 5 -> u64_ok now ->
  standing nid a b s -> standing nid a b (Engine.handle_config_request c nid' a' now s).1.
Proof.
  intros Hn Ha Ht (Hs & (net & Hnet & Hp) & m & Hm & Hb). pose proof (config_request_good nid' a' now s Hs Hn Ha Ht) as Hw.
  destruct (Engine.handle_config_request c nid' a' now s) as [s' r]. destruct Hw as (Hs' & (F1 & F2 & _) & Ho).
  split; [done|]. split; [exists net; by rewrite F1|]. cbn.
  destruct (decide (nid = nid' /\ a = a')) as [[<- <-]|Hne]; [|exists m; by rewrite F2].
  destruct (Engine.request_keeps_authorization _ _ _ _ _ _ _ Ho net m Hnet Hp Hm) as (m' & Hm' & Ha'). exists m'. by rewrite Ha', Hb.
Qed.

Lemma requests_keep_standing nid a b (requests : list (Z * bytes * Z)) s :
  Forall (fun q => u64_ok q.1.1 /\ len q.1.2 = 5 /\ u64_ok q.2) requests -> standing nid a b s ->
  standing nid a b (fold_left (fun s q => (Engine.handle_config_request c q.1.1 q.1.2 q.2 s).1) requests s).
Proof.
  intros Hq. revert s. induction Hq as [|[[n x] t] requests (Hn & Hx & Ht) _ IH]; intros s Hs; [done|]. cbn [fold_left].
  by apply IH, request_keeps_standing.
Qed.

(** C32. Authorization over the API takes effect and lasts: once a POST to a member of a private
    network has answered with an authorization or a deauthorization, then after any history of
    configuration requests, the member's own and everybody's, the member's next one is answered
    only if it was authorized and refused as unauthorized only if it was not; nothing else can
    happen to it but a failure of the backend. *)
Theorem authorization_over_api (now_ms later : Z) (nwid hex : bytes) (body : UpdateMemberRequest) s s1 resp
    (b : bool) nid a net (requests : list (Z * bytes * Z)) :
  good_store s -> u64_ok now_ms -> u64_ok later -> member_request_ok body -> umr_authorized body = Some b ->
  parse_network_id nwid = Ok nid -> parse_node_id_bytes hex = Ok a ->
  v_network (view s) nid = Some net -> n_private net = true ->
  update_member (Some c) now_ms nwid hex body s = (s1, Ok resp) ->
  Forall (fun q => u64_ok q.1.1 /\ len q.1.2 = 5 /\ u64_ok q.2) requests ->
  let s2 := fold_left (fun s q => (Engine.handle_config_request c q.1.1 q.1.2 q.2 s).1) requests s1 in
  match (Engine.handle_config_request c nid a later s2).2 with
  | Ok _ => b = true
  | Err MemberNotAuthorized => b = false
  | Err (StorageError _) => fallible (S := S)
  | _ => False
  end.
Proof.
  intros [Hi Hg] Ht Hl Hb Hauth Hnid Ha Hnet Hp Hup Hq s2.
  destruct (network_id_cases nwid) as [(? & E1 & _ & Hn)|(? & E1 & _)]; rewrite Hnid in E1; [injection E1 as <-|done].
  destruct (node_id_cases hex) as [(? & E2 & Hal)|(? & E2 & _)]; rewrite Ha in E2; [injection E2 as <-|done].
  assert (standing nid a b s1) as Hs1.
  { pose proof (update_member_steps c now_ms nwid hex body s Hi (proj1 Hg) Ht Hb) as Hw. unfold hwp in Hw. rewrite Hup in Hw.
    destruct Hw as (Hi1 & nid' & a' & m & E3 & E4 & Hrev & Hv & _ & Hm). rewrite Hnid in E3. rewrite Ha in E4. injection E3 as <-. injection E4 as <-.
    destruct Hrev as (En & Ea & _ & _ & Eauth & _). rewrite Hauth in Eauth.
    assert (m_network_id m = nid /\ m_node_id m = a) as [Hmn Hma].
    { rewrite En, Ea. unfold member_before. destruct (v_member (view s) nid a) eqn:E; [exact (member_key _ _ _ _ Hi E)|done]. }
    split; [split; [done|by eapply good_member]|]. split; [exists net; by rewrite (proj1 Hv)|]. exists m.
    rewrite (proj1 (proj2 Hv)). cbn. by rewrite decide_True. }
  destruct (requests_keep_standing nid a b requests s1 Hq Hs1) as (Hs2 & (net2 & Hnet2 & Hp2) & m & Hm & Hmb). fold s2 in Hs2, Hnet2, Hm.
  pose proof (config_request_good nid a later s2 Hs2 Hn Hal Hl) as Hw.
  destruct (Engine.handle_config_request c nid a later s2) as [s3 r]. destruct Hw as (_ & _ & Ho).
  destruct r as [rsp|[]| |]; cbn in Ho |- *; try done.
  - destruct Ho as (net3 & m3 & Hnet3 & _ & _ & _ & Hprior & _). rewrite Hnet2 in Hnet3. injection Hnet3 as <-.
    destruct (Hprior Hp2) as (m0 & Hm0 & Ha0). rewrite Hm in Hm0. injection Hm0 as <-. congruence.
  - by rewrite Hnet2 in Ho.
  - destruct Ho as (_ & _ & _ & _ & _ & _ & Hprior). rewrite <- Hmb. by apply Hprior.
  - by destruct Ho.
Qed.

End Histories.

(** ** A private network, its member revoked *)

Definition sample_path : bytes := RuleJson.format_network_id Engine.sample_nid.
Definition alice_path : bytes := RuleJson.format_node_id Engine.alice.
Definition no_change : UpdateMemberRequest := mkUpdateMemberRequest None None None None None None None.
Definition set_authorization (b : bool) : UpdateMemberRequest := mkUpdateMemberRequest (Some b) None None None None None None.
Definition rename (name : bytes) : UpdateNetworkRequest Value :=
  mkUpdateNetworkRequest (Some name) None None None (Some (VObject [(str "zt", VBool false)]))
    (Some [mkIpPoolResponse (str "10.0.0.1") (str "10.0.0.9"); mkIpPoolResponse (str "10.0.0") (str "x")])
    (Some [mkRouteResponse (str "10.0.0.0/24") None]) None
    (Some [RuleJson.rule_to_response (mkRule Rules.ACTION_ACCEPT false false [])]) None None.

Lemma early_good : good_store (S := InMemoryState) Engine.early_store.
Proof.
  destruct Engine.early_store_ok as (Hi & Hv & _). split; [done|]. split; [done|]. intros id n Hn.
  assert (networks Engine.early_store = [Engine.sample_net]) as Hs by (vm_compute; reflexivity).
  change (find (fun n => n_id n =? id) (networks Engine.early_store) = Some n) in Hn. rewrite Hs in Hn. cbn [find] in Hn.
  destruct (n_id Engine.sample_net =? id) eqn:E; [|done]. injection Hn as <-. split; [|by apply Z.eqb_eq].
  split; cbn; repeat (apply Forall_nil_2 || split); done.
Qed.

Lemma set_authorization_ok b : member_request_ok (set_authorization b).
Proof. split; done. Qed.

Lemma rename_ok name : text_ok name -> network_request_ok (rename name).
Proof.
  intros Hn. split; try done; cbn.
  - split; repeat constructor; done.
  - repeat constructor; done.
Qed.

Lemma empty_good : good_store (S := InMemoryState) Memory.new.
Proof. destruct Engine.empty_store_ok as (Hi & Hv & _). split; [done|]. by split. Qed.

Lemma network_update_spec_witness :
  let '(s', r) := update_network (S := InMemoryState) (Some Engine.sample_controller) (inl []) 20 sample_path
                    (rename (str "lab")) Engine.early_store in
  (match r with Ok resp => (cnr_name _ resp, cnr_revision _ resp, len (cnr_ip_assignment_pools _ resp)) | _ => ([], 0, 0) end) =
    (str "lab", 2, 1) /\
  good (view (S := InMemoryState) s').
Proof.
  pose proof (network_update_spec (S := InMemoryState) Engine.sample_controller (inl []) 20 sample_path
    (rename (str "lab")) Engine.early_store (proj1 early_good) (proj2 early_good) (rename_ok (str "lab") eq_refl)
    ltac:(unfold u64_ok, U64_MAX; lia)) as Hw.
  assert (match (update_network (S := InMemoryState) (Some Engine.sample_controller) (inl []) 20 sample_path
            (rename (str "lab")) Engine.early_store).2 with
          | Ok resp => (cnr_name _ resp, cnr_revision _ resp, len (cnr_ip_assignment_pools _ resp)) | _ => ([], 0, 0) end =
          (str "lab", 2, 1)) as Hc by (vm_compute; reflexivity).
  destruct (update_network (S := InMemoryState) (Some Engine.sample_controller) (inl []) 20 sample_path
    (rename (str "lab")) Engine.early_store) as [s' r]. split; [exact Hc|exact (proj1 (proj2 Hw))].
Defined.

Lemma member_update_spec_witness :
  let '(s', r) := update_member (S := InMemoryState) (Some Engine.sample_controller) 20 sample_path alice_path
                    (set_authorization false) Engine.early_store in
  (match r with Ok resp => (cmr_authorized resp, cmr_last_deauthorized_time resp, cmr_revision resp) | _ => (true, 0, 0) end) =
    (false, 20, 1) /\
  member_outcome (S := InMemoryState) (view (S := InMemoryState) Engine.early_store) (view (S := InMemoryState) s') 20 sample_path alice_path
    (set_authorization false) r.
Proof.
  pose proof (member_update_spec (S := InMemoryState) Engine.sample_controller 20 sample_path alice_path (set_authorization false)
    Engine.early_store (proj1 early_good) (proj1 (proj2 early_good)) ltac:(unfold u64_ok, U64_MAX; lia) (set_authorization_ok false)) as Hw.
  assert (match (update_member (S := InMemoryState) (Some Engine.sample_controller) 20 sample_path alice_path
            (set_authorization false) Engine.early_store).2 with
          | Ok resp => (cmr_authorized resp, cmr_last_deauthorized_time resp, cmr_revision resp) | _ => (true, 0, 0) end =
          (false, 20, 1)) as Hc by (vm_compute; reflexivity).
  destruct (update_member (S := InMemoryState) (Some Engine.sample_controller) 20 sample_path alice_path
    (set_authorization false) Engine.early_store) as [s' r]. split; [exact Hc|exact (proj2 Hw)].
Defined.

(** A network is created and its pool set, Bob asks, is authorized and asks again, and all of it
    is deleted, members after their network. *)
Definition sample_calls : list (Call (V := Value)) :=
  [PostNetwork (inr (map b8 [0xff; 0; 0; 1])) 10 (str "8056c2e21c______") (rename (str "lab"));
   ConfigRequest Engine.sample_nid Engine.bob 11; PostMember 12 sample_path (str "060708090a") (set_authorization true);
   ConfigRequest Engine.sample_nid Engine.bob 13; DeleteNetwork sample_path; DeleteMember sample_path (str "060708090a")].

Lemma sample_calls_typed : Forall call_typed sample_calls.
Proof.
  pose proof (rename_ok (str "lab") eq_refl) as []. unfold sample_calls.
  repeat (apply Forall_cons_2 || apply Forall_nil_2); cbn [call_typed]; split_and?; try (by split); try done; try (unfold u64_ok, U64_MAX, Engine.sample_nid; lia).
  split; try done. by destruct nq_routes0.
Qed.

Lemma sample_calls_buildable : ~ Exists (fun call => ~ buildable call) sample_calls.
Proof.
  intros He. apply (Exists_not_Forall buildable) in He. apply He.
  apply (bool_decide_unpack _). by vm_compute.
Qed.

(** Alice's address is posted with the prefix of an IPv6 one: her next request panics. *)
Definition bad_assignment : UpdateMemberRequest :=
  mkUpdateMemberRequest (Some true) (Some [str "10.0.0.1/64"]) None None None None None.
Example unchecked_assignment :
  let s := fold_left (run_call (V := Value) (P := Toy.prims) (S := InMemoryState) Engine.sample_controller)
             [PostMember 20 sample_path alice_path bad_assignment] Engine.early_store in
  (m_ip_assignments <$> Memory.mem_get_member s Engine.sample_nid Engine.alice) = Some [str "10.0.0.1/64"] /\
  (Engine.handle_config_request (H := Toy.prims) (S := InMemoryState) Engine.sample_controller Engine.sample_nid Engine.alice 21 s).2 = Panic.
Proof. vm_compute. split; reflexivity. Qed.

Lemma api_keeps_store_witness :
  let s' := fold_left (run_call (P := Toy.prims) (S := InMemoryState) Engine.sample_controller) (take 4 sample_calls) Memory.new in
  (m_authorized <$> Memory.mem_get_member s' Engine.sample_nid Engine.bob) = Some true /\
  good_store (S := InMemoryState) (fold_left (run_call (P := Toy.prims) (S := InMemoryState) Engine.sample_controller) sample_calls Memory.new).
Proof.
  split; [vm_compute; reflexivity|].
  destruct (api_keeps_store (P := Toy.prims) (H := Toy.laws) (S := InMemoryState) Engine.sample_controller eq_refl eq_refl sample_calls Memory.new
    0 Engine.bob 0 sample_calls_typed empty_good ltac:(unfold u64_ok, U64_MAX; lia) eq_refl ltac:(unfold u64_ok, U64_MAX; lia)) as [[Hg _]|Hno];
    [exact Hg|destruct (sample_calls_buildable Hno)].
Defined.

(** Alice, authorized before, is deauthorized, asks twice and is refused. *)
Lemma authorization_over_api_witness :
  exists s1 resp,
    update_member (S := InMemoryState) (Some Engine.sample_controller) 20 sample_path alice_path (set_authorization false)
      Engine.early_store = (s1, Ok resp) /\
    match (Engine.handle_config_request (H := Toy.prims) (S := InMemoryState) Engine.sample_controller Engine.sample_nid Engine.alice 22
             (Engine.handle_config_request (H := Toy.prims) (S := InMemoryState) Engine.sample_controller Engine.sample_nid Engine.alice 21 s1).1).2 with
    | Ok _ => false = true
    | Err MemberNotAuthorized => false = false
    | Err (StorageError _) => fallible (S := InMemoryState)
    | _ => False
    end.
Proof.
  eexists _, _. split; [vm_compute; reflexivity|].
  eapply (authorization_over_api (P := Toy.prims) (H := Toy.laws) (S := InMemoryState) Engine.sample_controller eq_refl eq_refl 20 22 sample_path alice_path
    (set_authorization false) Engine.early_store _ _ false Engine.sample_nid Engine.alice Engine.sample_net
    [(Engine.sample_nid, Engine.alice, 21)]);
    [exact early_good|unfold u64_ok, U64_MAX; lia|unfold u64_ok, U64_MAX; lia|exact (set_authorization_ok false)|reflexivity
    |vm_compute; reflexivity|vm_compute; reflexivity|vm_compute; reflexivity|reflexivity|vm_compute; reflexivity|].
  constructor; [|constructor]. cbn. unfold u64_ok, U64_MAX, Engine.sample_nid. split; [lia|]. split; [reflexivity|lia].
Defined.

End Rest.
