(* ===== verification/NodeState.v ===== *)
(** * NodeState: the state of a node, the actions it asks of its transport, and the
    operations every handler uses (zerotier-node: node.rs 43-280, 494-606). *)
From S2P Require Export Root Fragment Topology Multicast Neighbor.

Inductive NodeAction : Type :=
  | SendTo (data : bytes) (address : SocketAddr)
  | WhoisNeeded (addresses : list bytes)
  | DestinationUnknown (network_id : Z)
  | FrameReceived (network_id : Z) (src_mac dest_mac : bytes) (ethertype : Z) (payload : bytes)
  | LocalReply (network_id ethertype : Z) (payload : bytes)
  | NetworkConfigured (network_id : Z) (dict_data : bytes)
  | NetworkConfigRequested (requester_address : bytes) (network_id : Z) (dict_data : bytes)
      (from : SocketAddr) (packet_id : Z)
  | UserMessageReceived (origin : bytes) (type_id : Z) (data : bytes)
  | RemoteTraceReceived (origin data : bytes)
  | PathNegotiationReceived (origin : bytes) (utility : Z).

#[export] Instance NodeAction_eq_dec : EqDecision NodeAction.
Proof. solve_decision. Defined.

Record PendingMulticastGather := mkGather {
  pg_packet_id : Z;
  pg_requested_at_ms : Z;
  pg_network_id : Z;
  pg_mac : bytes;
  pg_adi : Z;
}.

Record PendingNetworkConfig := mkPendingConfig {
  pc_network_id : Z;
  pc_config_update_id : Z;
  pc_total_length : Z;
  pc_data : bytes;
  pc_received : list bool;
  pc_received_bytes : Z;
}.

Record PendingEncryptedPacket := mkPendingPacket {
  pp_source : bytes;
  pp_from : SocketAddr;
  pp_packet_id : Z;
  pp_received_at_ms : Z;
  pp_data : bytes;
}.

Definition ZT_PENDING_ENCRYPTED_PACKET_LIMIT : Z := 32.
Definition ZT_PENDING_ENCRYPTED_PACKET_TTL_MS : Z := 30000.
Definition MAX_LOCAL_ADDRESSES : Z := 8.

Record Node := mkNode {
  nd_identity : Identity;
  nd_local_addresses : list SocketAddr;
  nd_topology : Topology;
  nd_root_manager : RootManager;
  nd_reassembly : ReassemblyBuffer;
  nd_actions : list NodeAction;
  nd_next_packet_id : Z;
  nd_networks : list NetworkMembership;
  nd_multicast : MulticastManager;    (* multicast_manager *)
  nd_gathers : list PendingMulticastGather;    (* pending_multicast_gathers *)
  nd_configs : list PendingNetworkConfig;    (* pending_network_configs *)
  nd_packets : list PendingEncryptedPacket;    (* pending_encrypted_packets *)
}.

(** Assignments to one field. *)
Definition with_local_addresses (n : Node) (x : list SocketAddr) : Node :=
  mkNode (nd_identity n) x (nd_topology n) (nd_root_manager n) (nd_reassembly n) (nd_actions n) (nd_next_packet_id n) (nd_networks n) (nd_multicast n) (nd_gathers n) (nd_configs n) (nd_packets n).
Definition with_topology (n : Node) (x : Topology) : Node :=
  mkNode (nd_identity n) (nd_local_addresses n) x (nd_root_manager n) (nd_reassembly n) (nd_actions n) (nd_next_packet_id n) (nd_networks n) (nd_multicast n) (nd_gathers n) (nd_configs n) (nd_packets n).
Definition with_root_manager (n : Node) (x : RootManager) : Node :=
  mkNode (nd_identity n) (nd_local_addresses n) (nd_topology n) x (nd_reassembly n) (nd_actions n) (nd_next_packet_id n) (nd_networks n) (nd_multicast n) (nd_gathers n) (nd_configs n) (nd_packets n).
Definition with_reassembly (n : Node) (x : ReassemblyBuffer) : Node :=
  mkNode (nd_identity n) (nd_local_addresses n) (nd_topology n) (nd_root_manager n) x (nd_actions n) (nd_next_packet_id n) (nd_networks n) (nd_multicast n) (nd_gathers n) (nd_configs n) (nd_packets n).
Definition with_actions (n : Node) (x : list NodeAction) : Node :=
  mkNode (nd_identity n) (nd_local_addresses n) (nd_topology n) (nd_root_manager n) (nd_reassembly n) x (nd_next_packet_id n) (nd_networks n) (nd_multicast n) (nd_gathers n) (nd_configs n) (nd_packets n).
Definition with_next_packet_id (n : Node) (x : Z) : Node :=
  mkNode (nd_identity n) (nd_local_addresses n) (nd_topology n) (nd_root_manager n) (nd_reassembly n) (nd_actions n) x (nd_networks n) (nd_multicast n) (nd_gathers n) (nd_configs n) (nd_packets n).
Definition with_networks (n : Node) (x : list NetworkMembership) : Node :=
  mkNode (nd_identity n) (nd_local_addresses n) (nd_topology n) (nd_root_manager n) (nd_reassembly n) (nd_actions n) (nd_next_packet_id n) x (nd_multicast n) (nd_gathers n) (nd_configs n) (nd_packets n).
Definition with_multicast (n : Node) (x : MulticastManager) : Node :=
  mkNode (nd_identity n) (nd_local_addresses n) (nd_topology n) (nd_root_manager n) (nd_reassembly n) (nd_actions n) (nd_next_packet_id n) (nd_networks n) x (nd_gathers n) (nd_configs n) (nd_packets n).
Definition with_gathers (n : Node) (x : list PendingMulticastGather) : Node :=
  mkNode (nd_identity n) (nd_local_addresses n) (nd_topology n) (nd_root_manager n) (nd_reassembly n) (nd_actions n) (nd_next_packet_id n) (nd_networks n) (nd_multicast n) x (nd_configs n) (nd_packets n).
Definition with_configs (n : Node) (x : list PendingNetworkConfig) : Node :=
  mkNode (nd_identity n) (nd_local_addresses n) (nd_topology n) (nd_root_manager n) (nd_reassembly n) (nd_actions n) (nd_next_packet_id n) (nd_networks n) (nd_multicast n) (nd_gathers n) x (nd_packets n).
Definition with_packets (n : Node) (x : list PendingEncryptedPacket) : Node :=
  mkNode (nd_identity n) (nd_local_addresses n) (nd_topology n) (nd_root_manager n) (nd_reassembly n) (nd_actions n) (nd_next_packet_id n) (nd_networks n) (nd_multicast n) (nd_gathers n) (nd_configs n) x.


(** A computation that changes the node: it returns, panics, or runs out of fuel; it has no
    errors of its own. *)
Abbreviation step A := (res Empty_set A).

Lemma wp_attempt {E F A} (m : res E A) (Q : A -> Prop) (R : E -> Prop) (T : option A -> Prop) (U : F -> Prop) :
  wp m Q R -> (forall a, Q a -> T (Some a)) -> T None -> wp (attempt m) T U.
Proof. intros Hm HQ HN. destruct m; simpl in *; auto. Qed.

Lemma step_ok {A} (m : step A) Q : safe m Q -> exists a, m = Ok a /\ Q a.
Proof. destruct m as [a|[]| |]; simpl; intros H; [by exists a|done..]. Qed.

Module NodeOps.
Section NodeOps.
Context {P : Prims}.

Definition new (identity : Identity) (planet_data : bytes) (initial_packet_id : Z) : res ProtocolError Node :=
  let* planet := WorldP.deserialize planet_data in
  let topology := Topo.load_planet Topo.new planet in
  let next := wrap 64 (initial_packet_id + 1) in
  Ok (mkNode identity [] topology Root.new (Fragment.new 256) [] (if next =? 0 then 1 else next)
        [] Multicast.new [] [] []).

Definition push_action (n : Node) (a : NodeAction) : Node := with_actions n (nd_actions n ++ [a]).

(** The id handed out and the node afterwards. *)
Definition allocate_packet_id (n : Node) : Z * Node :=
  let next := wrap 64 (nd_next_packet_id n + 1) in
  (nd_next_packet_id n, with_next_packet_id n (if next =? 0 then 1 else next)).

Definition our_address (n : Node) : bytes := id_address (nd_identity n).

Definition is_network (network_id : Z) (m : NetworkMembership) : bool := nw_network_id m =? network_id.

Definition join_network (n : Node) (membership : NetworkMembership) : Node :=
  if existsb (is_network (nw_network_id membership)) (nd_networks n) then n else
  let arp_group := Multicast.arp_multicast_group (nw_network_id membership) in
  let n := with_multicast n (Multicast.subscribe (nd_multicast n) (k_network_id arp_group) (k_mac arp_group)
             (k_adi arp_group) (our_address n) 0) in
  with_networks n (nd_networks n ++ [membership]).

Definition find_network (n : Node) (network_id : Z) : option NetworkMembership :=
  find (is_network network_id) (nd_networks n).

(** An update through [find_network_mut]. *)
Definition update_network (n : Node) (network_id : Z) (f : NetworkMembership -> NetworkMembership) : Node :=
  with_networks n (update_first (is_network network_id) f (nd_networks n)).

Definition get_peer (n : Node) (address : bytes) : option Peer := Topo.get_peer (nd_topology n) address.

(** An update through [topology.get_peer_mut]. *)
Definition update_peer (n : Node) (address : bytes) (f : Peer -> Peer) : Node :=
  with_topology n (Topo.update_peer (nd_topology n) address f).

Definition shared_secret_for_peer (n : Node) (address : bytes) : option bytes :=
  match get_peer n address with
  | None => None
  | Some peer =>
      match PeerOps.shared_secret peer with
      | Some secret => Some secret
      | None =>
          match id_secret (nd_identity n) with
          | Some our_secret => Some (key_agree (sk_dh our_secret) (pk_dh (id_public (peer_identity peer))))
          | None => None
          end
      end
  end.

Definition aes_keys_for_peer (n : Node) (address : bytes) : option (bytes * bytes) :=
  match get_peer n address with Some peer => PeerOps.aes_keys peer | None => None end.

Definition queue_pending_encrypted_packet (n : Node) (source : bytes) (from : SocketAddr)
    (packet_id received_at_ms : Z) (data : bytes) : Node :=
  let live := filter (fun p => sat_sub received_at_ms (pp_received_at_ms p) <= ZT_PENDING_ENCRYPTED_PACKET_TTL_MS)
                (nd_packets n) in
  if existsb (fun p => bool_decide (pp_source p = source) && bool_decide (pp_from p = from)
                       && (pp_packet_id p =? packet_id)) live
  then with_packets n live else
  let live := if ZT_PENDING_ENCRYPTED_PACKET_LIMIT <=? len live then drop 1 live else live in
  with_packets n (live ++ [mkPendingPacket source from packet_id received_at_ms data]).

(** [take_pending]: the packets of [source], removed from the queue. *)
Definition take_pending (n : Node) (source : bytes) : list PendingEncryptedPacket * Node :=
  (filter (fun p => pp_source p = source) (nd_packets n),
   with_packets n (filter (fun p => pp_source p <> source) (nd_packets n))).

Definition arrived_directly (data : bytes) : bool :=
  match Header.from_bytes data with Some header => Header.hops header =? 0 | None => false end.

(** The planet's id and timestamp, as a HELLO states them. *)
Definition planet_id (n : Node) : Z :=
  match t_planet (nd_topology n) with Some p => w_id p | None => WORLD_ID_EARTH end.
Definition planet_ts (n : Node) : Z :=
  match t_planet (nd_topology n) with Some p => w_timestamp p | None => 0 end.

(** [if let Ok((len, packet_id)) = build_hello(..)]: the HELLO for a peer at a physical
    address, keyed by the secret shared with it or by zeros. *)
Definition hello_for (n : Node) (peer_address : bytes) (target : SocketAddr) (now_ms : Z)
    : step (option (bytes * Z)) :=
  let hello_secret := default (replicate 48 (b8 0)) (shared_secret_for_peer n peer_address) in
  let* r := attempt (Root.build_hello (nd_identity n) peer_address target now_ms hello_secret
                       (planet_id n) (planet_ts n) (replicate 512 (b8 0))) in
  match r with
  | Some ((l, packet_id), buf) => let* data := slice buf 0 l in Ok (Some (data, packet_id))
  | None => Ok None
  end.

Definition send_probe_hello (n : Node) (peer_address : bytes) (target : SocketAddr) (now_ms : Z) : step Node :=
  match id_secret (nd_identity n) with
  | None => Ok n
  | Some _ =>
      let* h := hello_for n peer_address target now_ms in
      Ok match h with
         | Some (data, _) => push_action n (SendTo data target)
         | None => n
         end
  end.

Definition identity_already_validated (n : Node) (identity : Identity) : bool :=
  match get_peer n (id_address identity) with
  | Some peer => bool_decide (Ident.public_to_bytes (id_public (peer_identity peer))
                              = Ident.public_to_bytes (id_public identity))
  | None => false
  end.

(** WHOIS to the first reachable root. *)
Fixpoint send_whois_to (n : Node) (roots : list bytes) (addresses : list bytes) (now_ms : Z)
    : step (list NodeAction) :=
  match roots with
  | [] => Ok []
  | root_addr :: roots =>
      match p ← get_peer n root_addr; PeerOps.best_path p now_ms with
      | None => send_whois_to n roots addresses now_ms
      | Some path =>
          match shared_secret_for_peer n root_addr with
          | None => send_whois_to n roots addresses now_ms
          | Some shared_secret =>
              let* r := attempt (Root.build_whois (nd_identity n) root_addr addresses shared_secret now_ms
                                   (replicate 512 (b8 0))) in
              match r with
              | Some ((l, _), buf) => let* data := slice buf 0 l in Ok [SendTo data (path_address path)]
              | None => Ok []
              end
          end
      end
  end.

Definition send_whois (n : Node) (addresses : list bytes) (now_ms : Z) : step (list NodeAction) :=
  send_whois_to n (t_roots (nd_topology n)) addresses now_ms.

(** [note_unknown_destination]: ask for a fresh configuration. *)
Definition with_request (m : NetworkMembership) (pending : bool) (last : Z) : NetworkMembership :=
  {| nw_network_id := nw_network_id m; nw_members := nw_members m; nw_our_com := nw_our_com m;
     nw_peer_coms := nw_peer_coms m; nw_mtu := nw_mtu m; nw_assigned_ipv4 := nw_assigned_ipv4 m;
     nw_assigned_ipv6 := nw_assigned_ipv6 m; nw_routes := nw_routes m;
     nw_pending_config_request := pending; nw_last_config_request := last;
     nw_last_multicast_like := nw_last_multicast_like m; nw_last_multicast_gather := nw_last_multicast_gather m |}.

Definition note_unknown_destination (n : Node) (network_id now_ms : Z) : Node :=
  update_network n network_id (fun net =>
    with_request net true
      (if 5000 <=? sat_sub now_ms (nw_last_config_request net) then 0 else nw_last_config_request net)).

Definition controller_address_from_network_id (network_id : Z) : bytes :=
  let controller := Z.shiftr network_id 24 in
  map b8 [Z.land (Z.shiftr controller 32) 0xff; Z.land (Z.shiftr controller 24) 0xff;
          Z.land (Z.shiftr controller 16) 0xff; Z.land (Z.shiftr controller 8) 0xff; Z.land controller 0xff].

Definition drain_actions (n : Node) : list NodeAction * Node := (nd_actions n, with_actions n []).

End NodeOps.

(** ** Networks of a node *)

Lemma find_network_id n nid net : find_network n nid = Some net -> nw_network_id net = nid.
Proof. intros H. apply find_Some in H as [_ H]. by apply Z.eqb_eq. Qed.

Lemma find_update_network n nid f net : find_network n nid = Some net -> nw_network_id (f net) = nid ->
  find_network (update_network n nid f) nid = Some (f net).
Proof.
  unfold find_network, update_network. simpl. intros Hf Hid. revert Hf.
  induction (nd_networks n) as [|x l IH]; [done|]. simpl. destruct (is_network nid x) eqn:Ex; simpl.
  - intros [= ->]. unfold is_network at 1. by rewrite Hid, Z.eqb_refl.
  - intros Hf. rewrite Ex. by apply IH.
Qed.

Lemma find_network_other n nid nid' f : nid <> nid' -> (forall x, nw_network_id (f x) = nw_network_id x) ->
  find_network (update_network n nid f) nid' = find_network n nid'.
Proof.
  intros Hne Hid. unfold find_network, update_network. simpl. induction (nd_networks n) as [|x l IH]; [done|]. simpl.
  unfold is_network in *. destruct (nw_network_id x =? nid) eqn:Ex; simpl.
  - rewrite Hid. apply Z.eqb_eq in Ex as ->. by rewrite (proj2 (Z.eqb_neq nid nid')).
  - by rewrite IH.
Qed.
End NodeOps.
