(* ===== verification/Vl2.v ===== *)
(** * Vl2: Ethernet frames over the virtual network (zerotier-node: vl2.rs). A frame is
    delivered only from a peer whose certificate of membership the network accepts. *)
From S2P Require Export NodeState.

Module Vl2.
Section Vl2.
Context {P : Prims}.

(** ** Outgoing packets *)

Definition build_encrypted_verb_packet (packet_id : Z) (our_address dest_address : bytes) (verb : Verb)
    (payload shared_secret : bytes) : step (option bytes) :=
  let total_len := 28 + len payload in
  let* r := attempt ((Root.write_header packet_id dest_address our_address
                        (Z.shiftl CIPHER_SUITE_C25519_POLY1305_SALSA2012 3) verb;*
                      put 28 (28 + len payload) payload;*
                      Root.on_head total_len (fun p => Armor.armor_packet shared_secret p true))
                     (replicate (Z.to_nat (28 + len payload)) (b8 0))) in
  Ok (snd <$> r).

(** A serializer run on a zeroed buffer of [n] bytes; the written prefix. Serializers do not
    fail: an error is impossible here. *)
Definition serialized (m : W Z) (n : Z) : step (option bytes) :=
  let* r := attempt (m (replicate (Z.to_nat n) (b8 0))) in
  match r with
  | Some (l, buf) => let* data := slice buf 0 l in Ok (Some data)
  | None => Ok None
  end.

Definition build_ext_frame_packet (packet_id : Z) (our_address dest_address : bytes) (ext : ExtFrameP.t)
    (shared_secret : bytes) : step (option bytes) :=
  let* payload := serialized (ExtFrameP.serialize ext) (23 + len (ExtFrameP.payload ext)) in
  match payload with
  | Some payload => build_encrypted_verb_packet packet_id our_address dest_address ExtFrame payload shared_secret
  | None => Ok None
  end.

Definition push_fragmented_send (actions : list NodeAction) (packet : bytes) (address : SocketAddr) (mtu : Z)
    : step (list NodeAction) :=
  let* r := Fragment.fragment_packet packet mtu in
  Ok match r with
     | Some fragments => actions ++ map (fun data => SendTo data address) fragments
     | None => actions
     end.

(** ** Incoming frames *)

(** The certificate the node holds for a peer, checked against its own and the key of the
    network's controller as the topology knows it. *)
Definition has_peer_com (n : Node) (network_id : Z) (peer_address : bytes) : bool :=
  match NodeOps.find_network n network_id with
  | None => false
  | Some network =>
      match find (fun x => bool_decide (x.1 = peer_address)) (nw_peer_coms network) with
      | None => false
      | Some (_, peer_com) =>
          let controller_address := NodeOps.controller_address_from_network_id network_id in
          let controller_verifying_key :=
            p ← NodeOps.get_peer n controller_address;
            let key := pk_signing (id_public (peer_identity p)) in
            if ed25519_key_ok key then Some key else None in
          Network.verify_peer_com network peer_address peer_com controller_address controller_verifying_key
      end
  end.

Definition handle_frame (n : Node) (sender_address payload_data : bytes) : step Node :=
  let* r := attempt (FrameP.parse payload_data) in
  Ok match r with
     | None => n
     | Some frame =>
         match NodeOps.find_network n (FrameP.network_id frame) with
         | None => n
         | Some network =>
             if negb (has_peer_com n (nw_network_id network) sender_address) then n else
             let src_mac := Ethernet.derive_mac sender_address (FrameP.network_id frame) in
             let dest_mac := Network.our_mac network (NodeOps.our_address n) in
             NodeOps.push_action n
               (FrameReceived (FrameP.network_id frame) src_mac dest_mac (FrameP.ethertype frame) (FrameP.payload frame))
         end
     end.

Definition handle_ext_frame (n : Node) (sender_address payload_data : bytes) : step Node :=
  let* r := attempt (ExtFrameP.parse payload_data) in
  Ok match r with
     | None => n
     | Some ext =>
         match NodeOps.find_network n (ExtFrameP.network_id ext) with
         | None => n
         | Some network =>
             if negb (has_peer_com n (nw_network_id network) sender_address) then n else
             NodeOps.push_action n
               (FrameReceived (ExtFrameP.network_id ext) (ExtFrameP.src_mac ext) (ExtFrameP.dest_mac ext)
                  (ExtFrameP.ethertype ext) (ExtFrameP.payload ext))
         end
     end.

Definition handle_multicast_like (n : Node) (sender_address payload_data : bytes) (now_ms : Z) : Node :=
  with_multicast n (Multicast.handle_multicast_like (nd_multicast n) sender_address payload_data now_ms).

Definition handle_multicast_gather (n : Node) (sender_address payload_data : bytes) (from : SocketAddr)
    (in_re_packet_id : Z) : step Node :=
  let* r := attempt (GatherP.deserialize payload_data) in
  match r with
  | None => Ok n
  | Some gather =>
      let subscribers := Multicast.get_subscribers (nd_multicast n) (GatherP.network_id gather)
        (GatherP.mac gather) (GatherP.adi gather) (GatherP.gather_limit gather) in
      let response := to_be 4 (wrap 32 (len subscribers)) ++ concat subscribers in
      let response_len := 4 + len subscribers * 5 in
      let ok := OkP.mk MulticastGather in_re_packet_id (OkP.SubGeneric response) in
      let* payload := serialized (OkP.serialize ok) (9 + response_len) in
      match payload with
      | None => Ok n
      | Some payload =>
          match NodeOps.shared_secret_for_peer n sender_address with
          | None => Ok n
          | Some shared_secret =>
              let '(packet_id, n) := NodeOps.allocate_packet_id n in
              let* packet := build_encrypted_verb_packet packet_id (NodeOps.our_address n) sender_address VOk
                               payload shared_secret in
              Ok match packet with
                 | Some packet => NodeOps.push_action n (SendTo packet from)
                 | None => n
                 end
          end
      end
  end.

Definition handle_multicast_frame (n : Node) (sender_address payload_data : bytes) : step Node :=
  let* r := attempt (MFrameP.parse payload_data) in
  Ok match r with
     | None => n
     | Some mf =>
         match NodeOps.find_network n (MFrameP.network_id mf) with
         | None => n
         | Some network =>
             if negb (has_peer_com n (nw_network_id network) sender_address) then n else
             let src_mac := default (Ethernet.derive_mac sender_address (MFrameP.network_id mf)) (MFrameP.source_mac mf) in
             NodeOps.push_action n
               (FrameReceived (MFrameP.network_id mf) src_mac (MFrameP.dest_mac mf) (MFrameP.ethertype mf)
                  (MFrameP.payload mf))
         end
     end.

(** ** Outgoing frames *)

(** [Ipv4Addr] and [Ipv6Addr] of the standard library. *)
Definition v4_is_multicast (ip : bytes) : bool := (224 <=? u8 (byte_at ip 0)) && (u8 (byte_at ip 0) <=? 239).
Definition v4_is_broadcast (ip : bytes) : bool := bool_decide (ip = replicate 4 (b8 255)).
Definition v6_is_multicast (ip : bytes) : bool := u8 (byte_at ip 0) =? 0xff.

Definition is_directed_broadcast_v4 (network : NetworkMembership) (ip : bytes) : bool :=
  existsb (fun member =>
    match nm_ipv4 member with
    | Some (addr, prefix) =>
        if prefix <? 32 then
          let host_bits := Z.shiftr U32_MAX prefix in
          from_be ip =? Z.lor (from_be addr) host_bits
        else false
    | None => false
    end) (nw_members network).

(** The EXT_FRAME for a member: sealed and fragmented to its best path, or a request to find it. *)
Definition send_to_member (n : Node) (network : NetworkMembership) (member : NetworkMember)
    (network_id ethertype : Z) (payload our_zt_address our_mac : bytes) (now_ms : Z) (actions : list NodeAction)
    : step (Node * list NodeAction) :=
  let member_address := nm_zt_address member in
  let ext := ExtFrameP.mk network_id (b8 0) (nm_mac member) our_mac ethertype payload in
  let path_and_secret :=
    peer ← NodeOps.get_peer n member_address;
    path ← PeerOps.best_path peer now_ms;
    secret ← PeerOps.shared_secret peer;
    Some (path_address path, secret) in
  match path_and_secret with
  | Some (path_addr, secret) =>
      let '(packet_id, n) := NodeOps.allocate_packet_id n in
      let* pkt := build_ext_frame_packet packet_id our_zt_address member_address ext secret in
      match pkt with
      | Some pkt => let* actions := push_fragmented_send actions pkt path_addr (nw_mtu network) in Ok (n, actions)
      | None => Ok (n, actions)
      end
  | None => Ok (n, actions ++ [WhoisNeeded [member_address]])
  end.

(** An ARP request no member answers is copied, unsealed, to the ARP group's subscribers. *)
Definition multicast_arp (n : Node) (network_id ethertype : Z) (payload our_zt_address our_mac : bytes)
    (now_ms : Z) : step (list NodeAction) :=
  let dest_mac := replicate 6 (b8 0xff) in
  let ext := ExtFrameP.mk network_id (b8 0) dest_mac our_mac ethertype payload in
  let* data := serialized (ExtFrameP.serialize ext) 2048 in
  let targets := Multicast.get_replication_targets (nd_multicast n) network_id dest_mac ETHERTYPE_ARP
                   our_zt_address 64 in
  Ok match data with
     | None => []
     | Some data =>
         omap (fun target_addr =>
           peer ← NodeOps.get_peer n target_addr;
           path ← PeerOps.best_path peer now_ms;
           Some (SendTo data (path_address path))) targets
     end.

Definition outbound_arp (n : Node) (network : NetworkMembership) (network_id : Z) (payload our_zt_address our_mac : bytes)
    (now_ms : Z) : step (list NodeAction) :=
  let* arp := attempt (Arp.parse payload) in
  match a ← arp; Arp.handle_arp_request a network with
  | Some reply =>
      let* data := serialized (Arp.serialize reply) 28 in
      Ok match data with Some data => [LocalReply network_id ETHERTYPE_ARP data] | None => [] end
  | None => multicast_arp n network_id ETHERTYPE_ARP payload our_zt_address our_mac now_ms
  end.

Definition process_outbound_frame (n : Node) (network_id ethertype : Z) (payload our_zt_address : bytes)
    (now_ms : Z) : step (Node * list NodeAction) :=
  match NodeOps.find_network n network_id with
  | None => Ok (n, [])
  | Some network =>
      let our_mac := Network.our_mac network our_zt_address in
      let unknown n :=
        (NodeOps.note_unknown_destination n network_id now_ms, [DestinationUnknown network_id]) in
      let send member := send_to_member n network member network_id ethertype payload our_zt_address our_mac now_ms [] in
      if ethertype =? ETHERTYPE_ARP then
        let* actions := outbound_arp n network network_id payload our_zt_address our_mac now_ms in
        Ok (n, actions)
      else if ethertype =? ETHERTYPE_IPV4 then
        if 20 <=? len payload then
          let* dest_ip := slice payload 16 20 in
          match Network.lookup_ipv4 network dest_ip with
          | Some member => send member
          | None =>
              if negb (v4_is_multicast dest_ip) && negb (v4_is_broadcast dest_ip)
                 && negb (is_directed_broadcast_v4 network dest_ip)
              then Ok (unknown n) else Ok (n, [])
          end
        else Ok (n, [])
      else if ethertype =? ETHERTYPE_IPV6 then
        if 40 <=? len payload then
          let* dest_ip := slice payload 24 40 in
          match Network.lookup_ipv6 network dest_ip with
          | Some member => send member
          | None => if negb (v6_is_multicast dest_ip) then Ok (unknown n) else Ok (n, [])
          end
        else Ok (n, [])
      else Ok (n, [])
  end.

End Vl2.

(** ** Facts *)

Section Facts.
Context {P : Prims} {L : PrimLaws P}.

Lemma build_encrypted_sealed pid our dest verb payload ss :
  32 <= len ss -> len dest = 5 -> len our = 5 ->
  exists q, build_encrypted_verb_packet pid our dest verb payload ss = Ok (Some q) /\
    len q = 28 + len payload /\ Root.sealed ss pid dest our 1 verb payload q.
Proof.
  intros Hss Hd Ho. pose proof (len_nonneg payload).
  destruct (Root.armor_sealed ss pid dest our 1 verb payload) as (q & Hq & Hlq & Hsq); [done..|].
  exists q. split_and!; [|done|done]. unfold build_encrypted_verb_packet.
  set (buf := replicate _ _). assert (len buf = 28 + len payload) as Hb by (unfold buf; rewrite len_replicate; lia).
  set (p := Armor.frame (Root.route_bytes pid dest our) (Root.suite_flags 1) Root.no_mac (VerbOps.to_byte verb :: payload)) in *.
  pose proof (Root.len_route pid dest our Hd Ho) as Hr. assert (len Root.no_mac = 8) as Hm by done.
  assert (len p = 28 + len payload) as Hp by (unfold p; rewrite Armor.len_frame, len_cons; lia).
  assert (emits (Root.write_header pid dest our (Z.shiftl 1 3) verb;* put 28 (28 + len payload) payload) 0 p tt) as He.
  { eapply emits_conv; [eapply emits_bind; [by apply Root.write_header_emits|apply emits_put; len_lia]| |done].
    unfold p, Armor.frame. by rewrite <- !app_assoc. }
  assert (len p <= len buf) as Hfit by lia. pose proof (emits_ok _ _ _ buf He Hfit) as Hrun.
  unfold CIPHER_SUITE_C25519_POLY1305_SALSA2012. unfold wbind in Hrun. unfold wbind.
  destruct (Root.write_header _ _ _ _ _ buf) as [[[] b1]| | |]; try done. rewrite Hrun.
  rewrite Root.on_head_run by lia. change (1 =? 1) with true in Hq. rewrite Hq.
  rewrite (drop_ge buf) by (unfold len in *; lia). simpl. by rewrite app_nil_r.
Qed.

Lemma serialized_emits m enc n : emits m 0 enc (len enc) -> len enc <= n -> serialized m n = Ok (Some enc).
Proof.
  intros He Hn. unfold serialized. pose proof (len_nonneg enc).
  rewrite (emits_ok _ _ _ _ He) by (rewrite len_replicate; lia).
  simpl. by rewrite slice_here.
Qed.

Lemma build_ext_sealed pid our dest ext ss :
  ExtFrameP.shape ext -> 32 <= len ss -> len dest = 5 -> len our = 5 ->
  exists q, build_ext_frame_packet pid our dest ext ss = Ok (Some q) /\
    len q = 51 + len (ExtFrameP.payload ext) /\ Root.sealed ss pid dest our 1 ExtFrame (ExtFrameP.encode ext) q.
Proof.
  intros Hx Hss Hd Ho. pose proof Hx as (_ & Hm1 & Hm2 & _).
  assert (len (ExtFrameP.encode ext) = 23 + len (ExtFrameP.payload ext)) as Hl
    by (unfold ExtFrameP.encode; len_lia).
  unfold build_ext_frame_packet. rewrite (serialized_emits _ (ExtFrameP.encode ext));
    [|exact (@pc_emits _ ExtFrameP.codec ext Hx)|lia].
  rewrite rbind_ok. destruct (build_encrypted_sealed pid our dest ExtFrame (ExtFrameP.encode ext) ss) as (q & Hq & Hlq & Hsq);
    [done..|]. exists q. split_and!; [done|lia|done].
Qed.

(** A parser that cannot panic gives a value or nothing. *)
Lemma attempt_parse {T : Type} `{PayloadCodec T} (d : bytes) : exists o, @attempt _ Empty_set _ (pc_deserialize d) = Ok o.
Proof. pose proof (pc_total d) as Ht. destruct (pc_deserialize d); simpl in Ht; try done; by eexists. Qed.

(** What one of the handlers may do with a frame from [sender]. *)
Definition gated (n : Node) (sender : bytes) (r : step Node) : Prop :=
  exists n', r = Ok n' /\ (n' = n \/ exists nid src_mac dest_mac ethertype payload,
    has_peer_com n nid sender = true /\
    n' = NodeOps.push_action n (FrameReceived nid src_mac dest_mac ethertype payload)).

Lemma gated_if n sender nid net src_mac dest_mac ethertype payload :
  NodeOps.find_network n nid = Some net ->
  gated n sender (Ok (if negb (has_peer_com n (nw_network_id net) sender) then n
                      else NodeOps.push_action n (FrameReceived nid src_mac dest_mac ethertype payload))).
Proof.
  intros Hf. rewrite (NodeOps.find_network_id n nid net Hf). eexists. split; [done|].
  destruct (has_peer_com n nid sender) eqn:E; [|by left]. right. by exists nid, src_mac, dest_mac, ethertype, payload.
Qed.

(** C12. Frames enter only with a certificate. Whatever bytes a FRAME, EXT_FRAME or
    MULTICAST_FRAME carries, handling it never panics, and it reaches the host only as a frame
    of a network whose accepted certificate for the sender the node holds; and a well-formed
    frame of a joined network is delivered, unchanged, exactly when that is so. *)
Theorem frames_need_certificates (n : Node) (sender : bytes) :
  (forall data, gated n sender (handle_frame n sender data) /\ gated n sender (handle_ext_frame n sender data) /\
     gated n sender (handle_multicast_frame n sender data)) /\
  (forall f net, FrameP.shape f -> NodeOps.find_network n (FrameP.network_id f) = Some net ->
     handle_frame n sender (FrameP.encode f) =
       Ok (if has_peer_com n (FrameP.network_id f) sender
           then NodeOps.push_action n (FrameReceived (FrameP.network_id f) (Ethernet.derive_mac sender (FrameP.network_id f))
                  (Ethernet.derive_mac (NodeOps.our_address n) (FrameP.network_id f)) (FrameP.ethertype f) (FrameP.payload f))
           else n)) /\
  (forall f net, ExtFrameP.shape f -> NodeOps.find_network n (ExtFrameP.network_id f) = Some net ->
     handle_ext_frame n sender (ExtFrameP.encode f) =
       Ok (if has_peer_com n (ExtFrameP.network_id f) sender
           then NodeOps.push_action n (FrameReceived (ExtFrameP.network_id f) (ExtFrameP.src_mac f) (ExtFrameP.dest_mac f)
                  (ExtFrameP.ethertype f) (ExtFrameP.payload f))
           else n)).
Proof.
  split_and!.
  - intros data. unfold handle_frame, handle_ext_frame, handle_multicast_frame.
    destruct (attempt_parse (T := FrameP.t) data) as [o1 H1'], (attempt_parse (T := ExtFrameP.t) data) as [o2 H2'],
      (attempt_parse (T := MFrameP.t) data) as [o3 H3'].
    assert (gated n sender (Ok n)) as Hn by (exists n; split; [done|by left]).
    split_and!; cbn in H1', H2', H3'; [rewrite H1'|rewrite H2'|rewrite H3']; rewrite rbind_ok.
    + destruct o1 as [f|]; [|done]. destruct (NodeOps.find_network _ _) eqn:E; [by apply gated_if|done].
    + destruct o2 as [f|]; [|done]. destruct (NodeOps.find_network _ _) eqn:E; [by apply gated_if|done].
    + destruct o3 as [f|]; [|done]. destruct (NodeOps.find_network _ _) eqn:E; [by apply gated_if|done].
  - intros f net Hs Hf. unfold handle_frame. pose proof (@pc_roundtrip _ FrameP.codec f Hs) as Hp. cbn in Hp. rewrite Hp.
    cbn [attempt]. rewrite rbind_ok, Hf. unfold Network.our_mac. rewrite (NodeOps.find_network_id n _ net Hf).
    by destruct (has_peer_com _ _ _).
  - intros f net Hs Hf. unfold handle_ext_frame. pose proof (@pc_roundtrip _ ExtFrameP.codec f Hs) as Hp. cbn in Hp. rewrite Hp.
    cbn [attempt]. rewrite rbind_ok, Hf. rewrite (NodeOps.find_network_id n _ net Hf).
    by destruct (has_peer_com _ _ _).
Qed.
End Facts.
End Vl2.
