(* ===== verification/NodeConfig.v ===== *)
(** * NodeConfig: network configurations as a node receives them (zerotier-node: node.rs):
    chunk reassembly, the dictionary applied to a membership, the peer directory. *)
From S2P Require Export NodeState Dictionary.

(** Assignments to fields of a membership. *)
Definition with_mtu (m : NetworkMembership) (x : Z) : NetworkMembership :=
  mkMembership (nw_network_id m) (nw_members m) (nw_our_com m) (nw_peer_coms m) x (nw_assigned_ipv4 m)
    (nw_assigned_ipv6 m) (nw_routes m) (nw_pending_config_request m) (nw_last_config_request m)
    (nw_last_multicast_like m) (nw_last_multicast_gather m).
Definition with_our_com (m : NetworkMembership) (x : option CertificateOfMembership) : NetworkMembership :=
  mkMembership (nw_network_id m) (nw_members m) x (nw_peer_coms m) (nw_mtu m) (nw_assigned_ipv4 m)
    (nw_assigned_ipv6 m) (nw_routes m) (nw_pending_config_request m) (nw_last_config_request m)
    (nw_last_multicast_like m) (nw_last_multicast_gather m).
Definition with_ipv4 (m : NetworkMembership) (x : option bytes) : NetworkMembership :=
  mkMembership (nw_network_id m) (nw_members m) (nw_our_com m) (nw_peer_coms m) (nw_mtu m) x
    (nw_assigned_ipv6 m) (nw_routes m) (nw_pending_config_request m) (nw_last_config_request m)
    (nw_last_multicast_like m) (nw_last_multicast_gather m).
Definition with_ipv6 (m : NetworkMembership) (x : option bytes) : NetworkMembership :=
  mkMembership (nw_network_id m) (nw_members m) (nw_our_com m) (nw_peer_coms m) (nw_mtu m) (nw_assigned_ipv4 m)
    x (nw_routes m) (nw_pending_config_request m) (nw_last_config_request m)
    (nw_last_multicast_like m) (nw_last_multicast_gather m).
Definition with_routes (m : NetworkMembership) (x : list Route) : NetworkMembership :=
  mkMembership (nw_network_id m) (nw_members m) (nw_our_com m) (nw_peer_coms m) (nw_mtu m) (nw_assigned_ipv4 m)
    (nw_assigned_ipv6 m) x (nw_pending_config_request m) (nw_last_config_request m)
    (nw_last_multicast_like m) (nw_last_multicast_gather m).
Definition with_directory (m : NetworkMembership) (members : list NetworkMember)
    (peer_coms : list (bytes * CertificateOfMembership)) : NetworkMembership :=
  mkMembership (nw_network_id m) members (nw_our_com m) peer_coms (nw_mtu m) (nw_assigned_ipv4 m)
    (nw_assigned_ipv6 m) (nw_routes m) (nw_pending_config_request m) (nw_last_config_request m)
    (nw_last_multicast_like m) (nw_last_multicast_gather m).

Module NodeConfig.

Definition ZT_MAX_NETWORK_CONFIG_SIZE : Z := 1048576.

(** ** Chunks *)

Definition new_pending (network_id config_update_id total_length : Z) : PendingNetworkConfig :=
  mkPendingConfig network_id config_update_id total_length (replicate (Z.to_nat total_length) (b8 0))
    (replicate (Z.to_nat total_length) false) 0.

(** One byte of [ingest], with the panics of its two indexings. *)
Definition ingest_byte (p : PendingNetworkConfig) (index : Z) (b : byte) : step PendingNetworkConfig :=
  if (0 <=? index) && (index <? len (pc_data p)) then
    let data := <[Z.to_nat index := b]> (pc_data p) in
    match pc_received p !! Z.to_nat index with
    | None => Panic
    | Some true => Ok (mkPendingConfig (pc_network_id p) (pc_config_update_id p) (pc_total_length p) data
                         (pc_received p) (pc_received_bytes p))
    | Some false => Ok (mkPendingConfig (pc_network_id p) (pc_config_update_id p) (pc_total_length p) data
                          (<[Z.to_nat index := true]> (pc_received p)) (pc_received_bytes p + 1))
    end
  else Panic.

Fixpoint ingest (p : PendingNetworkConfig) (chunk_index : Z) (chunk : bytes) : step PendingNetworkConfig :=
  match chunk with
  | [] => Ok p
  | b :: chunk => let* p := ingest_byte p chunk_index b in ingest p (chunk_index + 1) chunk
  end.

Definition is_complete (p : PendingNetworkConfig) : bool := pc_received_bytes p =? pc_total_length p.

(** [Vec::swap_remove]. *)
Definition swap_remove {A} (i : nat) (l : list A) : list A :=
  match last l with
  | Some x => take (length l - 1) (<[i := x]> l)
  | None => l
  end.

(** The pending list with an entry for this update, and its index. *)
Definition pending_entry (configs : list PendingNetworkConfig) (network_id config_update_id total_length : Z)
    : list PendingNetworkConfig * nat :=
  match list_find (fun p => pc_network_id p = network_id /\ pc_config_update_id p = config_update_id) configs with
  | Some (index, pending) =>
      if negb (pc_total_length pending =? total_length) then
        let configs := swap_remove index configs ++ [new_pending network_id config_update_id total_length] in
        (configs, (length configs - 1)%nat)
      else (configs, index)
  | None =>
      let configs := filter (fun p => pc_network_id p <> network_id) configs
                     ++ [new_pending network_id config_update_id total_length] in
      (configs, (length configs - 1)%nat)
  end.

Definition assemble_network_config (configs : list PendingNetworkConfig) (nc : NetConfP.t)
    : step (list PendingNetworkConfig * option NetConfP.t) :=
  match NetConfP.config_update_id nc, NetConfP.total_length nc, NetConfP.chunk_index nc with
  | None, None, None => Ok (configs, Some nc)
  | Some config_update_id, Some total_length, Some chunk_index =>
      let chunk_end := chunk_index + len (NetConfP.dict_data nc) in
      if U64_MAX <? chunk_end then Ok (configs, None) else
      if (total_length =? 0) || (total_length <? chunk_end) then Ok (configs, None) else
      if ZT_MAX_NETWORK_CONFIG_SIZE <? total_length then Ok (configs, None) else
      let '(configs, pending_index) :=
        pending_entry configs (NetConfP.network_id nc) config_update_id total_length in
      match configs !! pending_index with
      | None => Panic
      | Some pending =>
          let* pending := ingest pending chunk_index (NetConfP.dict_data nc) in
          let configs := <[pending_index := pending]> configs in
          if negb (is_complete pending) then Ok (configs, None) else
          Ok (swap_remove pending_index configs,
              Some (NetConfP.mk (NetConfP.network_id nc) (pc_data pending) (NetConfP.flags nc)
                      (Some config_update_id) (Some (wrap 32 total_length)) (Some 0)
                      (NetConfP.signature_type nc) None))
      end
  | _, _, _ => Ok (configs, None)
  end.

(** ** The dictionary *)

Definition network_mtu_from_dict_data (dict_data : bytes) : step (option Z) :=
  let* dict := attempt (Dict.deserialize dict_data) in
  Ok (dict ← dict; mtu ← Dict.get_hex_u64 dict (str "mtu"); if mtu <=? U16_MAX then Some mtu else None).

(** The address blob of "I": addresses to its end or to the first that is malformed; the last
    of each family wins. *)
Fixpoint scan_assignments (fuel : nat) (ip_data : bytes) (pos : Z) (net : NetworkMembership) (parsed : bool)
    : step (NetworkMembership * bool) :=
  if pos <? len ip_data then
    match fuel with
    | O => Hang
    | S fuel =>
        let* s := slice_from ip_data pos in
        let* r := attempt (Inet.deserialize s) in
        match r with
        | Some (V4 ip _, consumed) => scan_assignments fuel ip_data (pos + consumed) (with_ipv4 net (Some ip)) true
        | Some (V6 ip _, consumed) => scan_assignments fuel ip_data (pos + consumed) (with_ipv6 net (Some ip)) true
        | Some (Null, consumed) => scan_assignments fuel ip_data (pos + consumed) net parsed
        | None => Ok (net, parsed)
        end
    end
  else Ok (net, parsed).

(** [split(',').map(str::trim).filter(|s| !s.is_empty())]. *)
Definition assignments_of (text : bytes) : list bytes :=
  filter (fun s => s <> []) (map trim (split_on ","%byte text)).

Definition parse_cidr_text (parse_ip : bytes -> option bytes) (value : bytes) : option (bytes * Z) :=
  '(ip, prefix) ← split_first "/"%byte value;
  ip ← parse_ip ip;
  prefix ← parse_u8 prefix;
  Some (ip, prefix).
Definition parse_ipv4_cidr_text : bytes -> option (bytes * Z) := parse_cidr_text IpText.parse_ipv4_addr.
Definition parse_ipv6_cidr_text : bytes -> option (bytes * Z) := parse_cidr_text IpText.parse_ipv6_addr.

Definition apply_legacy_ip_assignments (net : NetworkMembership) (dict : Dictionary) : NetworkMembership :=
  let net := match Dict.get_text dict (str "v4s") with
    | Some v4s => fold_left (fun net a => match parse_ipv4_cidr_text a with
                                          | Some (ip, _) => with_ipv4 net (Some ip) | None => net end)
                    (assignments_of v4s) net
    | None => net
    end in
  match Dict.get_text dict (str "v6s") with
  | Some v6s => fold_left (fun net a => match parse_ipv6_cidr_text a with
                                        | Some (ip, _) => with_ipv6 net (Some ip) | None => net end)
                  (assignments_of v6s) net
  | None => net
  end.

(** [format!("{:?}", target)]. *)
Definition debug_octets (ip : bytes) : bytes :=
  str "[" ++ match map (fun b => format_dec (u8 b)) ip with
             | [] => []
             | x :: xs => x ++ concat (map (fun x => str ", " ++ x) xs)
             end ++ str "]".
Definition debug_inet (a : InetAddress) : bytes :=
  match a with
  | Null => str "Null"
  | V4 ip port => str "V4 { ip: " ++ debug_octets ip ++ str ", port: " ++ format_dec port ++ str " }"
  | V6 ip port => str "V6 { ip: " ++ debug_octets ip ++ str ", port: " ++ format_dec port ++ str " }"
  end.

Definition dotted (ip : bytes) : bytes :=
  let o i := format_dec (u8 (byte_at ip i)) in
  o 0%nat ++ str "." ++ o 1%nat ++ str "." ++ o 2%nat ++ str "." ++ o 3%nat.

Definition target_str (target : InetAddress) (prefix : Z) : bytes :=
  match target with
  | V4 ip _ => dotted ip ++ str "/" ++ format_dec prefix
  | _ => debug_inet target ++ str "/" ++ format_dec prefix
  end.

(** The route blob of "RT". *)
Fixpoint scan_routes (fuel : nat) (rt_data : bytes) (pos : Z) (new_routes : list Route) : step (list Route) :=
  if pos <? len rt_data then
    match fuel with
    | O => Hang
    | S fuel =>
        let* s := slice_from rt_data pos in
        let* r := attempt (Inet.deserialize s) in
        match r with
        | None => Ok new_routes
        | Some (target, consumed) =>
            let pos := pos + consumed in
            if len rt_data <? pos + 2 then Ok new_routes else
            let* prefix := be_at 2 rt_data pos in
            let pos := pos + 2 in
            if len rt_data <=? pos then Ok new_routes else
            let* via_type := get rt_data pos in
            let pos := pos + 1 in
            let skip := if u8 via_type =? 4 then 4 + 2 else if u8 via_type =? 6 then 16 + 2 else 0 in
            if len rt_data <? pos + skip then Ok new_routes else
            let pos := pos + skip in
            let pos := if pos + 2 <=? len rt_data then pos + 2 else pos in
            scan_routes fuel rt_data pos (new_routes ++ [mkRoute (target_str target prefix)])
        end
    end
  else Ok new_routes.

(** ** The peer directory "PM" *)

Definition inet_v4_from_bytes (data : bytes) : res unit (option (bytes * Z) * Z) :=
  let* ' (inet, consumed) := map_err (fun _ => tt) (Inet.deserialize data) in
  match inet with
  | Null => Ok (None, consumed)
  | V4 ip port => Ok (Some (ip, wrap 8 port), consumed)
  | V6 _ _ => Err tt
  end.

Definition inet_v6_from_bytes (data : bytes) : res unit (option (bytes * Z) * Z) :=
  let* ' (inet, consumed) := map_err (fun _ => tt) (Inet.deserialize data) in
  match inet with
  | Null => Ok (None, consumed)
  | V6 ip port => Ok (Some (ip, wrap 8 port), consumed)
  | V4 _ _ => Err tt
  end.

Definition read_directory_entry (network_id : Z) (data : bytes) (pos : Z)
    : res unit ((NetworkMember * CertificateOfMembership) * Z) :=
  if len data <? pos + 5 then Err tt else
  let* node_id := array_at 5 data pos (pos + 5) in
  let pos := pos + 5 in
  let* s := slice_from data pos in
  let* ' (ipv4, consumed_v4) := inet_v4_from_bytes s in
  let pos := pos + consumed_v4 in
  let* s := slice_from data pos in
  let* ' (ipv6, consumed_v6) := inet_v6_from_bytes s in
  let pos := pos + consumed_v6 in
  let* s := slice_from data pos in
  let* ' (com, consumed_com) := map_err (fun _ => tt) (Com.deserialize s) in
  let pos := pos + consumed_com in
  Ok ((mkMember node_id (Ethernet.derive_mac node_id network_id) ipv4 ipv6 true, com), pos).

(** [peer_coms]: the certificates of the others. *)
Definition others (our_address : bytes) (entries : list (NetworkMember * CertificateOfMembership))
    : list (bytes * CertificateOfMembership) :=
  filter (fun x => x.1 <> our_address) (map (fun e => (nm_zt_address e.1, e.2)) entries).

Definition read_directory (network_id : Z) (our_address data : bytes)
    : res unit (list NetworkMember * list (bytes * CertificateOfMembership)) :=
  if len data <? 2 then Err tt else
  let* count := be_at 2 data 0 in
  let* ' (entries, _) := rfor (Z.to_nat count) 2 (read_directory_entry network_id data) in
  Ok (map fst entries, others our_address entries).

Definition peer_directory_from_dict_data (dict_data : bytes) (network_id : Z) (our_address : bytes)
    : step (option (list NetworkMember * list (bytes * CertificateOfMembership))) :=
  let* dict := attempt (Dict.deserialize dict_data) in
  match dict ← dict; Dict.get_binary dict (str "PM") with
  | Some data => attempt (read_directory network_id our_address data)
  | None => Ok None
  end.

(** ** Applying a configuration *)

(** What a decoded dictionary changes in a membership. *)
Definition apply_dictionary (net : NetworkMembership) (dict : Dictionary) : step NetworkMembership :=
  let* net :=
    match Dict.get_binary dict (str "C") with
    | Some com_data =>
        let* r := attempt (Com.deserialize com_data) in
        Ok match r with Some (com, _) => with_our_com net (Some com) | None => net end
    | None => Ok net
    end in
  let* ' (net, parsed_assignment) :=
    match Dict.get_binary dict (str "I") with
    | Some ip_data => scan_assignments (length ip_data) ip_data 0 net false
    | None => Ok (net, false)
    end in
  let net := if negb parsed_assignment then apply_legacy_ip_assignments net dict else net in
  match Dict.get_binary dict (str "RT") with
  | Some rt_data =>
      let* new_routes := scan_routes (length rt_data) rt_data 0 [] in
      Ok match new_routes with [] => net | _ => with_routes net new_routes end
  | None => Ok net
  end.

Definition apply_to_membership (our_address : bytes) (network_id : Z) (dict_data : bytes) (net : NetworkMembership)
    : step NetworkMembership :=
  let* mtu := network_mtu_from_dict_data dict_data in
  let net := match mtu with Some mtu => with_mtu net mtu | None => net end in
  let* dict := attempt (Dict.deserialize dict_data) in
  let* net := match dict with Some dict => apply_dictionary net dict | None => Ok net end in
  let* directory := peer_directory_from_dict_data dict_data network_id our_address in
  Ok match directory with
     | Some (members, peer_coms) => with_directory net members peer_coms
     | None => net
     end.

Definition apply_network_config (n : Node) (network_id : Z) (dict_data : bytes) : step Node :=
  match NodeOps.find_network n network_id with
  | None => Ok n
  | Some net =>
      let* net := apply_to_membership (NodeOps.our_address n) network_id dict_data net in
      Ok (NodeOps.update_network n network_id (fun _ => net))
  end.

Definition apply_received_network_config (n : Node) (nc : NetConfP.t) : step Node :=
  match NodeOps.find_network n (NetConfP.network_id nc) with
  | None => Ok n
  | Some _ =>
      let* ' (configs, nc) := assemble_network_config (nd_configs n) nc in
      let n := with_configs n configs in
      match nc with
      | None => Ok n
      | Some nc =>
          let* n := apply_network_config n (NetConfP.network_id nc) (NetConfP.dict_data nc) in
          let n := NodeOps.update_network n (NetConfP.network_id nc)
                     (fun net => NodeOps.with_request net false (nw_last_config_request net)) in
          Ok (NodeOps.push_action n (NetworkConfigured (NetConfP.network_id nc) (NetConfP.dict_data nc)))
      end
  end.

(** What a node asks of a controller. *)
Definition build_network_config_request_metadata (os_arch : bytes) : bytes :=
  let d := Dict.new in
  let d := Dict.add_int d (str "v") 7 in
  let d := Dict.add_int d (str "vend") 1 in
  let d := Dict.add_int d (str "pv") HelloP.MANYTIER_ADVERTISED_PROTOCOL_VERSION in
  let d := Dict.add_int d (str "majv") 1 in
  let d := Dict.add_int d (str "minv") 14 in
  let d := Dict.add_int d (str "revv") 2 in
  let d := Dict.add_int d (str "mr") 1024 in
  let d := Dict.add_int d (str "mc") 128 in
  let d := Dict.add_int d (str "mcr") 64 in
  let d := Dict.add_int d (str "mt") 128 in
  let d := Dict.add_int d (str "f") 0 in
  let d := Dict.add_int d (str "revr") 1 in
  let d := Dict.add_text d (str "o") os_arch in
  Dict.serialize d.


(** ** The blobs of the dictionary *)

(** Assigning a decoded address. *)
Definition assign (net : NetworkMembership) (a : InetAddress) : NetworkMembership :=
  match a with
  | V4 ip _ => with_ipv4 net (Some ip)
  | V6 ip _ => with_ipv6 net (Some ip)
  | Null => net
  end.

(** Total on any blob, with the fuel it is given; nothing but the two addresses changes. *)
Lemma scan_assignments_total fuel ip_data pos net parsed :
  0 <= pos -> len ip_data <= pos + Z.of_nat fuel ->
  safe (scan_assignments fuel ip_data pos net parsed) (fun '(net', _) => exists addrs, net' = fold_left assign addrs net).
Proof.
  revert pos net parsed. induction fuel as [|fuel IH]; intros pos net parsed Hp Hf; cbn [scan_assignments].
  { rewrite if_false by lia. by exists []. }
  destruct (pos <? len ip_data) eqn:E; [|by exists []]. apply Z.ltb_lt in E.
  apply wp_bind, wp_slice_from; [lia|]. intros s Hs. apply wp_bind.
  eapply wp_attempt; [apply Inet.inet_deserialize_total| |by exists []].
  intros [a n] [_ Hn].
  assert (forall b, safe (scan_assignments fuel ip_data (pos + n) (assign net a) b)
    (fun '(net', _) => exists addrs, net' = fold_left assign addrs net)) as Hnext.
  { intros b. eapply wp_mono; [apply IH; lia| |done]. intros [net' b'] [l ->]. by exists (a :: l). }
  destruct a; apply Hnext.
Qed.

(** A blob of well-formed addresses assigns them all, in order. *)
Lemma scan_assignments_encode fuel addrs pre net parsed :
  Forall Inet.wf addrs -> (length (concat (map Inet.encode addrs)) <= fuel)%nat ->
  scan_assignments fuel (pre ++ concat (map Inet.encode addrs)) (len pre) net parsed =
    Ok (fold_left assign addrs net, parsed || existsb (fun a => negb (bool_decide (a = Null))) addrs).
Proof.
  intros Hw. revert fuel pre net parsed. induction Hw as [|a addrs Ha _ IH]; intros fuel pre net parsed Hf; simpl.
  { destruct fuel; simpl; rewrite app_nil_r, if_false by lia; by rewrite orb_false_r. }
  pose proof (Inet.encode_len a Ha) as Hl. pose proof (len_nonneg (concat (map Inet.encode addrs))).
  simpl in Hf. rewrite length_app in Hf. destruct fuel as [|fuel]; [unfold len in *; lia|]. cbn [scan_assignments].
  rewrite if_true by len_lia. rewrite slice_from_skip, slice_from_here, rbind_ok by len_lia.
  rewrite Inet.inet_deserialize_encode by done. cbn [attempt rbind].
  specialize (IH fuel (pre ++ Inet.encode a)). rewrite <- app_assoc, len_app in IH.
  assert (forall b, scan_assignments fuel (pre ++ Inet.encode a ++ concat (map Inet.encode addrs))
            (len pre + len (Inet.encode a)) (assign net a) b =
          Ok (fold_left assign addrs (assign net a), b || existsb (fun a => negb (bool_decide (a = Null))) addrs)) as Hnext
    by (intros b; apply IH; unfold len in *; lia).
  destruct a as [|ip port|ip port]; rewrite Hnext; cbn [fold_left assign existsb]; 
    rewrite ?(bool_decide_true (Null = Null)), ?bool_decide_false by done; by rewrite ?orb_true_r.
Qed.

Lemma scan_routes_total fuel rt_data pos routes :
  0 <= pos -> len rt_data <= pos + Z.of_nat fuel -> safe (scan_routes fuel rt_data pos routes) (fun _ => True).
Proof.
  revert pos routes. induction fuel as [|fuel IH]; intros pos routes Hp Hf; cbn [scan_routes].
  { by rewrite if_false by lia. }
  destruct (pos <? len rt_data) eqn:E; [|done]. apply Z.ltb_lt in E.
  apply wp_bind, wp_slice_from; [lia|]. intros s Hs. apply wp_bind.
  eapply wp_attempt; [apply Inet.inet_deserialize_total| |done]. intros [a n] [_ Hn].
  apply wp_if; [done|]. intros H2. apply wp_bind, wp_be_u16; [lia|zlia|]. intros prefix _.
  apply wp_if; [done|]. intros H3. apply wp_bind, wp_get; [zlia|]. intros via _. cbv zeta.
  set (skip := if u8 via =? 4 then 4 + 2 else if u8 via =? 6 then 16 + 2 else 0).
  assert (0 <= skip) by (unfold skip; repeat case_match; lia).
  apply wp_if; [done|]. intros H4. apply IH; case_match; zlia.
Qed.

(** ** Totality of the whole application *)

Lemma inet_v4_total data : safe (inet_v4_from_bytes data) (fun '(_, n) => 0 < n <= len data).
Proof.
  unfold inet_v4_from_bytes. apply wp_bind, wp_map_err.
  eapply wp_mono; [apply Inet.inet_deserialize_total| |done]. intros [[] n] [_ Hn]; done.
Qed.

Lemma inet_v6_total data : safe (inet_v6_from_bytes data) (fun '(_, n) => 0 < n <= len data).
Proof.
  unfold inet_v6_from_bytes. apply wp_bind, wp_map_err.
  eapply wp_mono; [apply Inet.inet_deserialize_total| |done]. intros [[] n] [_ Hn]; done.
Qed.

(** What the Rust types say of the members of a network. *)
Definition member_ok (m : NetworkMember) : Prop := len (nm_zt_address m) = 5 /\ len (nm_mac m) = 6.
Definition members_ok (l : list NetworkMember) : Prop := Forall member_ok l.
Definition network_ok (net : NetworkMembership) : Prop := u64_ok (nw_network_id net) /\ members_ok (nw_members net).

(** What a dictionary leaves to the directory. *)
Definition roster (net : NetworkMembership) : Z * list NetworkMember := (nw_network_id net, nw_members net).

Lemma roster_ok net net' : roster net' = roster net -> network_ok net -> network_ok net'.
Proof. unfold network_ok. by intros [= -> ->]. Qed.

Lemma read_directory_entry_total network_id data pos : 0 <= pos ->
  safe (read_directory_entry network_id data pos) (fun '(e, pos') => member_ok e.1 /\ 0 <= pos').
Proof.
  intros Hp. unfold read_directory_entry. wp_reads.
  eapply wp_mono; [apply inet_v4_total| |done]. intros [v4 n4] H4. wp_reads.
  eapply wp_mono; [apply inet_v6_total| |done]. intros [v6 n6] H6. wp_reads.
  apply wp_map_err. eapply wp_mono; [apply Com.com_deserialize_total| |done]. intros [com nc] [_ Hc].
  apply wp_ret. cbn. split; [by split|len_lia].
Qed.

Lemma read_directory_total network_id our_address data :
  safe (read_directory network_id our_address data) (fun r => members_ok r.1).
Proof.
  unfold read_directory. wp_reads.
  apply (wp_rfor _ _ _ (fun _ p => 0 <= p) (fun e => member_ok e.1)); [|lia|].
  - intros k p Hp. eapply wp_mono; [by apply read_directory_entry_total| |done]. by intros [e p'].
  - intros es p _ Hes _. cbn. by apply List.Forall_map.
Qed.

Lemma attempt_total {E F A} (m : res E A) : safe m (fun _ => True) -> @wp F _ (attempt m) (fun _ => True) (fun _ => True).
Proof. intros Hm. eapply wp_attempt; [apply Hm|done..]. Qed.

Lemma dict_total data : safe (Dict.deserialize data) (fun _ => True).
Proof. eapply wp_mono; [apply Dict.deserialize_safe|done..]. Qed.

Lemma assigned_network addrs net : roster (fold_left assign addrs net) = roster net.
Proof. revert net. induction addrs as [|a addrs IH]; intros net; [done|]. simpl. rewrite IH. by destruct a. Qed.

Lemma legacy_network net dict : roster (apply_legacy_ip_assignments net dict) = roster net.
Proof.
  unfold apply_legacy_ip_assignments. cbv zeta.
  assert (forall (f : NetworkMembership -> bytes -> NetworkMembership) l net,
    (forall net a, roster (f net a) = roster net) -> roster (fold_left f l net) = roster net) as Hf.
  { intros f l. induction l as [|x l IH]; intros net0 Hf; [done|]. simpl. by rewrite IH. }
  destruct (Dict.get_text dict (str "v6s")), (Dict.get_text dict (str "v4s"));
    rewrite ?Hf by (intros; by repeat case_match); done.
Qed.

Lemma apply_dictionary_total net dict : safe (apply_dictionary net dict) (fun net' => roster net' = roster net).
Proof.
  unfold apply_dictionary. apply wp_bind.
  eapply (wp_mono _ (fun net' => roster net' = roster net)); [|intros net1 <-|done].
  { destruct (Dict.get_binary dict (str "C")) as [c|]; [|done]. apply wp_bind.
    eapply wp_mono; [apply attempt_total|intros [[]|]; done|done]. eapply wp_mono; [apply Com.com_deserialize_total|done..]. }
  apply wp_bind. eapply (wp_mono _ (fun r => roster r.1 = roster net1)); [|intros [net2 parsed] H2|done].
  { destruct (Dict.get_binary dict (str "I")) as [d|]; [|done].
    eapply wp_mono; [apply scan_assignments_total; unfold len; lia| |done]. intros [net2 b] [l ->]. apply assigned_network. }
  cbn in H2. rewrite <- H2. set (net3 := if negb parsed then _ else net2).
  assert (roster net3 = roster net2) as H3 by (unfold net3; destruct parsed; [done|apply legacy_network]).
  destruct (Dict.get_binary dict (str "RT")) as [d|]; [|done]. apply wp_bind.
  eapply wp_mono; [apply scan_routes_total; unfold len; lia| |done]. intros routes _. by destruct routes.
Qed.

(** No dictionary makes a node panic, or turns one network's membership into another's. *)
Lemma apply_to_membership_total our_address network_id dict_data net :
  safe (apply_to_membership our_address network_id dict_data net) (fun net' =>
    nw_network_id net' = nw_network_id net /\ (network_ok net -> network_ok net')).
Proof.
  unfold apply_to_membership, network_mtu_from_dict_data, peer_directory_from_dict_data.
  apply wp_bind, wp_bind. eapply wp_mono; [apply attempt_total, dict_total|intros dict1 _|done].
  apply wp_ret, wp_bind. eapply wp_mono; [apply attempt_total, dict_total|intros dict _|done].
  set (net1 := match _ with Some mtu => with_mtu net mtu | None => net end).
  assert (roster net1 = roster net) as H1 by (unfold net1; by case_match).
  apply wp_bind. eapply (wp_mono _ (fun net' => roster net' = roster net1)); [|intros net2 H2|done].
  { destruct dict; [apply apply_dictionary_total|done]. }
  rewrite H1 in H2. injection H2 as Hid Hm.
  assert (network_ok net -> network_ok net2) as Hok by (apply roster_ok; unfold roster; congruence).
  apply wp_bind, wp_bind. eapply wp_mono; [apply attempt_total, dict_total|intros dict3 _|done].
  destruct (dict3 ≫= _); [|done]. apply wp_attempt with (fun r => members_ok r.1) (fun _ => True);
    [apply read_directory_total| |done].
  intros [members coms] Hr. split; [exact Hid|]. intros [Hu _]. split; [|exact Hr]. cbn. by rewrite Hid.
Qed.

(** ** Reassembly *)

Fixpoint count_true (l : list bool) : Z :=
  match l with [] => 0 | b :: l => (if b : bool then 1 else 0) + count_true l end.

(** What an assembly of [dict] holds once the positions [got] have arrived. *)
Record assembling (dict : bytes) (got : Z -> Prop) (p : PendingNetworkConfig) : Prop := {
  as_total : pc_total_length p = len dict;
  as_data : length (pc_data p) = length dict;
  as_received : length (pc_received p) = length dict;
  as_agree : forall i, pc_received p !! i = Some true -> pc_data p !! i = dict !! i;
  as_got : forall i : nat, pc_received p !! i = Some true <-> (i < length dict)%nat /\ got (Z.of_nat i);
  as_count : pc_received_bytes p = count_true (pc_received p);
}.

Lemma count_true_insert l i : l !! i = Some false -> count_true (<[i := true]> l) = count_true l + 1.
Proof.
  revert i. induction l as [|b l IH]; intros [|i]; simpl; intros H; try done.
  - injection H as ->. lia.
  - rewrite (IH i H). lia.
Qed.

Lemma count_true_le l : count_true l <= len l.
Proof. unfold len in *. induction l as [|[] l IH]; simpl; lia. Qed.

Lemma count_true_full l : count_true l = len l <-> forall i, (i < length l)%nat -> l !! i = Some true.
Proof.
  induction l as [|b l IH]; [split; [simpl; lia|done]|]. pose proof (count_true_le l).
  unfold len in *. simpl. destruct b; simpl; (split; [intros Hc|intros Hi]).
  - intros [|i] Hl; [done|]. simpl. apply IH; lia.
  - assert (forall i, (i < length l)%nat -> l !! i = Some true) as Hr by (intros i ?; apply (Hi (S i)); lia).
    apply IH in Hr. lia.
  - lia.
  - specialize (Hi 0%nat ltac:(lia)). done.
Qed.

Lemma assembling_new dict nid uid : assembling dict (fun _ => False) (new_pending nid uid (len dict)).
Proof.
  unfold new_pending. assert (Z.to_nat (len dict) = length dict) as Hl by (unfold len; lia).
  split; simpl; rewrite ?Hl, ?length_replicate; try done.
  - intros i [? _]%lookup_replicate. done.
  - intros i. split; [by intros [? _]%lookup_replicate|by intros []].
  - clear. induction (length dict) as [|n IH]; [done|]. simpl. lia.
Qed.

Lemma ingest_byte_assembling dict got p i b : assembling dict got p -> dict !! i = Some b ->
  exists p', ingest_byte p (Z.of_nat i) b = Ok p' /\ assembling dict (fun k => k = Z.of_nat i \/ got k) p' /\
    pc_network_id p' = pc_network_id p /\ pc_config_update_id p' = pc_config_update_id p.
Proof.
  intros [Ht Hd Hr Ha Hg Hc] Hb. pose proof (lookup_lt_Some _ _ _ Hb) as Hi. unfold ingest_byte, len.
  rewrite if_true by lia. rewrite Nat2Z.id.
  destruct (lookup_lt_is_Some_2 (pc_received p) i) as [x Hx]; [lia|]. rewrite Hx.
  destruct x; (eexists; split; [reflexivity|split; [split|done]]); simpl; rewrite ?length_insert; try done.
  - intros k Hk. destruct (decide (k = i)) as [->|]; [rewrite list_lookup_insert_eq by lia; done|].
    rewrite list_lookup_insert_ne by done. by apply Ha.
  - intros k. rewrite Hg. split; [intros [? ?]; split; [done|by right]|].
    intros [Hk [->%Nat2Z.inj|?]]; [by apply Hg|done].
  - intros k Hk. destruct (decide (k = i)) as [->|]; [rewrite list_lookup_insert_eq by lia; done|].
    rewrite list_lookup_insert_ne by done; rewrite list_lookup_insert_ne in Hk by done. by apply Ha.
  - intros k. destruct (decide (k = i)) as [->|].
    + rewrite list_lookup_insert_eq by lia. split; [intros _; split; [done|by left]|done].
    + rewrite list_lookup_insert_ne by done. rewrite Hg. split; [intros [? ?]; split; [done|by right]|].
      intros [Hk [?%Nat2Z.inj|?]]; [done|done].
  - by rewrite count_true_insert, Hc.
Qed.

Lemma assembling_proper dict got got' p : (forall i, got i <-> got' i) -> assembling dict got p -> assembling dict got' p.
Proof. intros Hg [? ? ? ? Ha ?]. split; try done. intros i. by rewrite Ha, Hg. Qed.

Lemma ingest_assembling dict chunk : forall got p off,
  chunk = take (length chunk) (drop off dict) -> assembling dict got p ->
  exists p', ingest p (Z.of_nat off) chunk = Ok p' /\
    assembling dict (fun k => Z.of_nat off <= k < Z.of_nat off + len chunk \/ got k) p' /\
    pc_network_id p' = pc_network_id p /\ pc_config_update_id p' = pc_config_update_id p.
Proof.
  induction chunk as [|b chunk IH]; intros got p off Hc Hp; cbn [ingest].
  - exists p. split; [done|]. split; [|done]. eapply assembling_proper, Hp. intros i. change (len (@nil byte)) with 0.
    split; [by right|intros [?|?]; [lia|done]].
  - simpl in Hc. destruct (drop off dict) as [|b' rest] eqn:Ed; [done|]. injection Hc as <- Hc.
    assert (dict !! off = Some b) as Hb.
    { rewrite <- (Nat.add_0_r off), <- lookup_drop, Ed. done. }
    assert (rest = drop (S off) dict) as ->.
    { rewrite <- Nat.add_1_r, <- drop_drop, Ed. done. }
    destruct (ingest_byte_assembling dict got p off b Hp Hb) as (p1 & -> & Hp1 & Hn1 & Hu1). rewrite rbind_ok.
    replace (Z.of_nat off + 1) with (Z.of_nat (S off)) by lia.
    destruct (IH _ p1 (S off) Hc Hp1) as (p2 & -> & Hp2 & Hn2 & Hu2). exists p2. split; [done|].
    split; [|by rewrite Hn2, Hu2]. eapply assembling_proper, Hp2. intros i. rewrite len_cons. pose proof (len_nonneg chunk) as H0. clear -H0. intuition lia.
Qed.

Lemma assembling_complete dict got p : assembling dict got p ->
  (is_complete p = true <-> forall i, 0 <= i < len dict -> got i) /\ (is_complete p = true -> pc_data p = dict).
Proof.
  intros [Ht Hd Hr Ha Hg Hc]. unfold is_complete. rewrite Z.eqb_eq, Ht, Hc.
  replace (len dict) with (len (pc_received p)) by (unfold len; lia). rewrite count_true_full. split.
  - split.
    + intros Hi i Hl. specialize (Hi (Z.to_nat i)). unfold len in *. rewrite Hr in Hi, Hl.
      replace i with (Z.of_nat (Z.to_nat i)) by lia. apply Hg, Hi. lia.
    + intros Hi i Hl. apply Hg. split; [lia|]. apply Hi. unfold len. lia.
  - intros Hi. apply list_eq. intros i. destruct (decide (i < length dict)%nat) as [Hl|Hl].
    + apply Ha, Hi. lia.
    + rewrite !lookup_ge_None_2 by lia. done.
Qed.

(** Entries of the pending list: their buffers have the announced length. *)
Definition pending_ok (p : PendingNetworkConfig) : Prop :=
  pc_total_length p = len (pc_data p) /\ length (pc_received p) = length (pc_data p).
Definition configs_ok (l : list PendingNetworkConfig) : Prop := NoDup (map pc_network_id l) /\ Forall pending_ok l.

Lemma ingest_ok chunk : forall p off, pending_ok p -> 0 <= off -> off + len chunk <= pc_total_length p ->
  exists p', ingest p off chunk = Ok p' /\ pending_ok p' /\ pc_network_id p' = pc_network_id p /\
    pc_config_update_id p' = pc_config_update_id p.
Proof.
  induction chunk as [|b chunk IH]; intros p off [Ht Hr] H0 Hl; cbn [ingest]; [by exists p|].
  rewrite len_cons in Hl. pose proof (len_nonneg chunk). unfold ingest_byte. rewrite if_true by lia.
  destruct (lookup_lt_is_Some_2 (pc_received p) (Z.to_nat off)) as [x Hx]; [unfold len in *; lia|]. rewrite Hx.
  destruct x; rewrite rbind_ok.
  all: match goal with |- exists p', ingest ?q _ _ = _ /\ _ =>
    destruct (IH q (off + 1)) as (p' & Hi & Hp' & Hn & Hu);
      [unfold pending_ok, len in *; simpl; rewrite ?length_insert; lia|lia|simpl; lia|] end.
  all: exists p'; by rewrite Hi, Hn, Hu.
Qed.

Lemma swap_remove_perm {A} (l : list A) i x : l !! i = Some x -> l ≡ₚ x :: swap_remove i l.
Proof.
  intros Hi. pose proof (lookup_lt_Some _ _ _ Hi) as Hl. unfold swap_remove.
  destruct l as [|z l0] using rev_ind; [simpl in Hl; lia|]. clear IHl0. rename l0 into l', z into y. rewrite last_snoc.
  rewrite length_app in *. simpl in *. rewrite Nat.add_sub.
  destruct (decide (i = length l')) as [->|Hne].
  - rewrite lookup_app_r, Nat.sub_diag in Hi by lia. injection Hi as ->.
    rewrite insert_app_r_alt by lia. rewrite take_app_length. symmetry. apply Permutation_cons_append.
  - rewrite lookup_app_l in Hi by lia. rewrite insert_app_l by lia. rewrite take_app_le by (rewrite length_insert; lia).
    rewrite take_ge by (rewrite length_insert; lia). rewrite <- Permutation_cons_append.
    rewrite <- (take_drop_middle l' i x Hi) at 1. rewrite insert_take_drop by lia.
    rewrite <- !Permutation_middle. apply perm_swap.
Qed.

(** The two lists hold the same entries of networks other than [nid]. *)
Definition same_others (nid : Z) (l l' : list PendingNetworkConfig) : Prop :=
  forall q, pc_network_id q <> nid -> q ∈ l' <-> q ∈ l.

Lemma new_pending_ok nid uid total : 0 <= total -> pending_ok (new_pending nid uid total).
Proof. intros. unfold pending_ok, new_pending, len. simpl. rewrite !length_replicate. lia. Qed.

Lemma lookup_snoc {A} (l : list A) x : (l ++ [x]) !! (length (l ++ [x]) - 1)%nat = Some x.
Proof.
  rewrite length_app, Nat.add_sub. rewrite lookup_app_r, Nat.sub_diag by lia. done.
Qed.

Lemma configs_ok_perm l l' : l ≡ₚ l' -> configs_ok l -> configs_ok l'.
Proof. intros Hp [Hn Hf]. split; [by rewrite <- (Permutation_map _ Hp)|by rewrite <- Hp]. Qed.

Lemma configs_ok_cons p l : configs_ok (p :: l) <->
  pending_ok p /\ configs_ok l /\ forall q, q ∈ l -> pc_network_id q <> pc_network_id p.
Proof.
  unfold configs_ok. simpl. rewrite NoDup_cons, Forall_cons. split.
  - intros [[Hi Hn] [Hp Hf]]. split_and!; try done. intros q Hq Heq. apply Hi. rewrite <- Heq.
    by apply list_elem_of_fmap_2.
  - intros (Hp & [Hn Hf] & Ho). split_and!; try done.
    intros (q & Heq & Hq)%list_elem_of_fmap. by apply (Ho q).
Qed.

(** An index and what the list holds beside it. *)
Lemma pending_entry_spec l nid uid total : configs_ok l -> 0 <= total ->
  let '(l', i) := pending_entry l nid uid total in
  exists p rest, l' !! i = Some p /\ l' ≡ₚ p :: rest /\ configs_ok (p :: rest) /\ same_others nid l rest /\
    pc_network_id p = nid /\ pc_config_update_id p = uid /\ pc_total_length p = total /\
    (forall q, q ∈ l -> pc_network_id q = nid -> pc_config_update_id q = uid -> pc_total_length q = total -> p = q) /\
    ((forall q, q ∈ l -> pc_network_id q <> nid) -> p = new_pending nid uid total).
Proof.
  intros Hl Ht. unfold pending_entry. destruct (list_find _ l) as [[i p]|] eqn:Ef.
  - apply list_find_Some in Ef as (Hi & [Hn Hu] & _). pose proof (swap_remove_perm l i p Hi) as Hperm.
    remember (swap_remove i l) as r eqn:Er. clear Er.
    pose proof (configs_ok_perm _ _ Hperm Hl) as Hok. apply configs_ok_cons in Hok as (Hp & Hrest & Hne).
    assert (forall q, q ∈ l -> pc_network_id q = nid -> p = q) as Huniq.
    { intros q Hq Hqn. rewrite Hperm in Hq. apply elem_of_cons in Hq as [->|Hq]; [done|].
      destruct (Hne q Hq). by rewrite Hqn. }
    assert (same_others nid l r) as Hsame.
    { intros q Hq. rewrite Hperm, elem_of_cons. split; [by right|intros [->|?]; done]. }
    destruct (negb _) eqn:Eq.
    + exists (new_pending nid uid total), r. rewrite lookup_snoc. split_and!; try done.
      * symmetry. apply Permutation_cons_append.
      * apply configs_ok_cons. split_and!; [by apply new_pending_ok|done|]. intros q Hq. simpl. rewrite <- Hn. by apply Hne.
      * intros q Hq Hqn _ Hqt. rewrite <- (Huniq q Hq Hqn) in Hqt. zlia.
    + exists p, r. split_and!; try done; [by apply configs_ok_cons|zlia|by intros; apply Huniq|].
      intros Hq. destruct (Hq p); [|done]. by apply list_elem_of_lookup_2 in Hi.
  - exists (new_pending nid uid total), (filter (fun p => pc_network_id p <> nid) l). rewrite lookup_snoc.
    split_and!; try done.
    + symmetry. apply Permutation_cons_append.
    + apply configs_ok_cons. split_and!; [by apply new_pending_ok| |].
      * destruct Hl as [Hd Hf]. pose proof (sublist_filter (fun p => pc_network_id p <> nid) l) as Hsub. split.
        -- eapply sublist_NoDup; [apply Hd|]. by apply fmap_sublist.
        -- apply Forall_forall. intros q [_ Hq]%list_elem_of_filter. rewrite Forall_forall in Hf. by apply Hf.
      * by intros q [Hq _]%list_elem_of_filter.
    + intros q Hq. rewrite list_elem_of_filter. naive_solver.
    + intros q Hq Hqn Hqu _. rewrite list_find_None, Forall_forall in Ef. by destruct (Ef q Hq).
Qed.

(** A payload that carries a piece of [dict], in the update [uid] of the network [nid]. *)
Definition chunk_of (nid uid : Z) (dict : bytes) (nc : NetConfP.t) : Prop :=
  NetConfP.network_id nc = nid /\ NetConfP.config_update_id nc = Some uid /\
  NetConfP.total_length nc = Some (len dict) /\
  exists off : nat, NetConfP.chunk_index nc = Some (Z.of_nat off) /\
    Z.of_nat off + len (NetConfP.dict_data nc) <= len dict /\
    NetConfP.dict_data nc = take (length (NetConfP.dict_data nc)) (drop off dict).

Definition covers (nc : NetConfP.t) (i : Z) : Prop :=
  exists off, NetConfP.chunk_index nc = Some off /\ off <= i < off + len (NetConfP.dict_data nc).

(** The pending list holds, of the network [nid], the assembly of [dict] with what [got] says. *)
Definition progress (nid uid : Z) (dict : bytes) (got : Z -> Prop) (l : list PendingNetworkConfig) : Prop :=
  (exists p, p ∈ l /\ pc_network_id p = nid /\ pc_config_update_id p = uid /\ assembling dict got p) \/
  ((forall q, q ∈ l -> pc_network_id q <> nid) /\ forall i, ~ got i).

Lemma configs_ok_replace p p' rest : configs_ok (p :: rest) -> pending_ok p' -> pc_network_id p' = pc_network_id p ->
  configs_ok (p' :: rest).
Proof. rewrite !configs_ok_cons. intros (_ & Hr & Hne) Hp' ->. done. Qed.

Lemma insert_perm {A} (l : list A) i x y rest : l !! i = Some x -> l ≡ₚ x :: rest -> <[i := y]> l ≡ₚ y :: rest.
Proof.
  intros Hi Hp. pose proof (lookup_lt_Some _ _ _ Hi). rewrite insert_take_drop by done.
  rewrite <- Permutation_middle. f_equiv. apply (Permutation_cons_inv (a := x)). rewrite <- Hp, Permutation_middle.
  by rewrite take_drop_middle.
Qed.

Lemma swap_remove_rest {A} (l : list A) i x y rest : l !! i = Some x -> l ≡ₚ x :: rest ->
  swap_remove i (<[i := y]> l) ≡ₚ rest.
Proof.
  intros Hi Hp. pose proof (lookup_lt_Some _ _ _ Hi). apply (Permutation_cons_inv (a := y)).
  rewrite <- (swap_remove_perm (<[i := y]> l) i y) by (by apply list_lookup_insert_eq). by apply (insert_perm l i x).
Qed.

(** One chunk of the dictionary. *)
Lemma assemble_chunk l nid uid dict got nc :
  configs_ok l -> progress nid uid dict got l -> 0 < len dict <= ZT_MAX_NETWORK_CONFIG_SIZE -> chunk_of nid uid dict nc ->
  exists l' r, assemble_network_config l nc = Ok (l', r) /\ configs_ok l' /\
    ((forall i, 0 <= i < len dict -> covers nc i \/ got i) ->
       exists nc', r = Some nc' /\ NetConfP.network_id nc' = nid /\ NetConfP.dict_data nc' = dict) /\
    (forall i, 0 <= i < len dict -> ~ covers nc i -> ~ got i ->
       r = None /\ progress nid uid dict (fun i => covers nc i \/ got i) l').
Proof.
  intros Hl Hpr Hd (Hn & Hu & Ht & off & Hc & He & Hch). unfold assemble_network_config. rewrite Hn, Hu, Ht, Hc.
  pose proof (len_nonneg (NetConfP.dict_data nc)). unfold ZT_MAX_NETWORK_CONFIG_SIZE, U64_MAX in *.
  rewrite !if_false by zlia. pose proof (pending_entry_spec l nid uid (len dict) Hl ltac:(lia)) as Hpe.
  destruct (pending_entry l nid uid (len dict)) as [l1 i].
  destruct Hpe as (p & rest & Hi & Hperm & Hok & Hsame & Hpn & Hpu & Hpt & Hsome & Hnone). rewrite Hi.
  assert (assembling dict got p) as Hp.
  { destruct Hpr as [(q & Hq & Hqn & Hqu & Hqa)|[Hno Hgot]].
    - by rewrite (Hsome q Hq Hqn Hqu (as_total _ _ _ Hqa)).
    - rewrite (Hnone Hno). eapply assembling_proper, assembling_new. intros k. specialize (Hgot k). tauto. }
  destruct (ingest_assembling dict _ got p off Hch Hp) as (p' & -> & Hp' & Hpn' & Hpu'). rewrite rbind_ok.
  apply (assembling_proper _ _ (fun k => covers nc k \/ got k)) in Hp'.
  2: { intros k. unfold covers. rewrite Hc. split; [intros [?|?]; [left; by eexists|by right]|].
       intros [(o & [= <-] & ?)|?]; [by left|by right]. }
  assert (pending_ok p') as Hok'.
  { destruct Hp' as [Ht' Hd' Hr' _ _ _]. unfold pending_ok, len in *. lia. }
  pose proof (configs_ok_replace p p' rest Hok Hok' Hpn') as Hokr.
  destruct (assembling_complete _ _ _ Hp') as [Hcomp Hdata]. destruct (is_complete p') eqn:Ec; simpl.
  - do 2 eexists. split; [done|]. rewrite configs_ok_cons in Hokr.
    split; [eapply configs_ok_perm; [symmetry; by eapply swap_remove_rest|apply Hokr]|]. split.
    + intros _. eexists. split; [done|]. simpl. by rewrite Hdata.
    + intros k Hk Hck Hgk. exfalso. destruct (proj1 Hcomp eq_refl k Hk); done.
  - do 2 eexists. split; [done|]. pose proof (insert_perm l1 i p p' rest Hi Hperm) as Hperm'.
    split; [by eapply configs_ok_perm; [symmetry; apply Hperm'|]|]. split.
    + intros Hall. apply Hcomp in Hall. done.
    + intros _ _ _ _. split; [done|]. left. exists p'. split; [rewrite Hperm'; left|].
      by rewrite Hpn', Hpu'.
Qed.

(** A payload about another network leaves this one's assembly alone. *)
Lemma assemble_other l nid nc : configs_ok l -> NetConfP.wf nc -> NetConfP.network_id nc <> nid ->
  exists l' r, assemble_network_config l nc = Ok (l', r) /\ configs_ok l' /\
    forall q, pc_network_id q = nid -> q ∈ l' <-> q ∈ l.
Proof.
  intros Hl Hw Hne. unfold assemble_network_config.
  assert (forall r, exists l' r', Ok (l, r) = @Ok Empty_set (list PendingNetworkConfig * option NetConfP.t) (l', r') /\
    configs_ok l' /\ forall q, pc_network_id q = nid -> q ∈ l' <-> q ∈ l) as Hstay by (intros r; by exists l, r).
  destruct Hw as ((_ & _ & Ht & Hc) & _).
  destruct (NetConfP.config_update_id nc) as [u|], (NetConfP.total_length nc) as [t|], (NetConfP.chunk_index nc) as [c|];
    try apply Hstay.
  destruct (U64_MAX <? _) eqn:E1; [apply Hstay|]. destruct (_ || _) eqn:E2; [apply Hstay|].
  destruct (ZT_MAX_NETWORK_CONFIG_SIZE <? t) eqn:E3; [apply Hstay|]. simpl in Ht, Hc. unfold u32_ok in *.
  pose proof (pending_entry_spec l (NetConfP.network_id nc) u t Hl ltac:(lia)) as Hpe.
  destruct (pending_entry l _ u t) as [l1 i].
  destruct Hpe as (p & rest & Hi & Hperm & Hok & Hsame & Hpn & Hpu & Hpt & _ & _). rewrite Hi.
  pose proof (proj1 (configs_ok_cons p rest) Hok) as (Hpok & Hrok & _).
  destruct (ingest_ok (NetConfP.dict_data nc) p c Hpok) as (p' & -> & Hp' & Hn' & Hu'); [lia|zlia|]. rewrite rbind_ok.
  pose proof (configs_ok_replace p p' rest Hok Hp' Hn') as Hokr.
  assert (forall q, pc_network_id q = nid -> q ∈ rest <-> q ∈ l) as Hrest by (intros q <-; by apply Hsame).
  destruct (is_complete p'); simpl; do 2 eexists; (split; [done|]).
  - pose proof (swap_remove_rest l1 i p p' rest Hi Hperm) as Hperm'.
    split; [by eapply configs_ok_perm; [symmetry; apply Hperm'|]|]. intros q Hq. rewrite Hperm'. by apply Hrest.
  - pose proof (insert_perm l1 i p p' rest Hi Hperm) as Hperm'.
    split; [by eapply configs_ok_perm; [symmetry; apply Hperm'|]|]. intros q Hq. rewrite Hperm', elem_of_cons.
    rewrite Hrest by done. split; [intros [->|]; [|done]|by right]. destruct Hne. by rewrite <- Hpn, <- Hn'.
Qed.

(** Payloads handled one after the other, with what each call hands on. *)
Fixpoint assemble_all (l : list PendingNetworkConfig) (ncs : list NetConfP.t)
    : step (list PendingNetworkConfig * list (option NetConfP.t)) :=
  match ncs with
  | [] => Ok (l, [])
  | nc :: ncs =>
      let* ' (l, r) := assemble_network_config l nc in
      let* ' (l, rs) := assemble_all l ncs in
      Ok (l, r :: rs)
  end.

(** A payload of the network is a piece of [dict]; payloads of other networks are anything. *)
Definition piece_or_other (nid uid : Z) (dict : bytes) (nc : NetConfP.t) : Prop :=
  NetConfP.wf nc /\ (NetConfP.network_id nc = nid -> chunk_of nid uid dict nc).

Definition got_by (nid : Z) (ncs : list NetConfP.t) (i : Z) : Prop :=
  exists nc, nc ∈ ncs /\ NetConfP.network_id nc = nid /\ covers nc i.

(** While some position is missing nothing is handed on, and what arrived is kept. *)
Lemma assemble_all_progress nid uid dict k ncs : 0 < len dict <= ZT_MAX_NETWORK_CONFIG_SIZE -> 0 <= k < len dict ->
  forall l got, configs_ok l -> progress nid uid dict got l -> Forall (piece_or_other nid uid dict) ncs ->
  ~ got k -> ~ got_by nid ncs k ->
  exists l' outs, assemble_all l ncs = Ok (l', outs) /\ configs_ok l' /\
    progress nid uid dict (fun i => got_by nid ncs i \/ got i) l' /\
    Forall2 (fun nc out => NetConfP.network_id nc = nid -> out = None) ncs outs.
Proof.
  intros Hd Hk. induction ncs as [|nc ncs IH]; intros l got Hl Hp Hf Hgk Hgb; cbn [assemble_all].
  { exists l, []. split_and!; try done.
    destruct Hp as [(p & ? & ? & ? & Hp)|[Hno Hgot]]; [left; exists p; split_and!; try done|right; split; [done|]].
    - eapply assembling_proper, Hp. intros i. split; [by right|intros [(? & Hin & _)|?]; [by apply elem_of_nil in Hin|done]].
    - intros i [(? & Hin & _)|?]; [by apply elem_of_nil in Hin|by apply (Hgot i)]. }
  apply Forall_cons in Hf as [[Hw Hpiece] Hf].
  assert (forall i, got_by nid (nc :: ncs) i <-> (NetConfP.network_id nc = nid /\ covers nc i) \/ got_by nid ncs i) as Hcons.
  { intros i. unfold got_by. setoid_rewrite elem_of_cons. naive_solver. }
  rewrite Hcons in Hgb.
  assert (exists l1 r got1, assemble_network_config l nc = Ok (l1, r) /\ configs_ok l1 /\ progress nid uid dict got1 l1 /\
    (forall i, got1 i <-> (NetConfP.network_id nc = nid /\ covers nc i) \/ got i) /\
    (NetConfP.network_id nc = nid -> r = None)) as (l1 & r & got1 & -> & Hl1 & Hp1 & Hg1 & Hr).
  { destruct (decide (NetConfP.network_id nc = nid)) as [Hn|Hn].
    - destruct (assemble_chunk l nid uid dict got nc Hl Hp Hd (Hpiece Hn)) as (l1 & r & He & Hl1 & _ & Hmiss).
      destruct (Hmiss k Hk) as [Hr Hp1]; [tauto|done|].
      do 3 eexists. split_and!; [exact He|done|exact Hp1|intros i; tauto|done].
    - destruct (assemble_other l nid nc Hl Hw Hn) as (l1 & r & He & Hl1 & Hsame). exists l1, r, got.
      split_and!; [exact He|done| |intros i; tauto|done].
      destruct Hp as [(p & Hin & Hpn & ?)|[Hno ?]]; [left|right].
      + exists p. split; [by apply Hsame|done].
      + split; [|done]. intros q Hq Hqn. apply (Hno q); [by apply Hsame|done]. }
  rewrite rbind_ok. destruct (IH l1 got1 Hl1 Hp1 Hf) as (l2 & outs & -> & Hl2 & Hp2 & Hout); [rewrite Hg1; tauto|tauto|].
  exists l2, (r :: outs). split_and!; try done; [|by constructor].
  assert (forall i, (got_by nid ncs i \/ got1 i) <-> (got_by nid (nc :: ncs) i \/ got i)) as Heq
    by (intros i; rewrite Hcons, Hg1; tauto).
  destruct Hp2 as [(p & ? & ? & ? & Hp2)|[Hno Hgot]]; [left; exists p; split_and!; try done|right; split; [done|]].
  - by eapply assembling_proper, Hp2.
  - intros i. rewrite <- Heq. apply Hgot.
Qed.

(** C11. A configuration sent in pieces is put together. Let the pieces of a dictionary of at
    most a megabyte arrive in any order, overlapping or repeated, mixed with any payloads
    about other networks, at a node that had nothing pending for this network. As long as a
    byte of the dictionary has not arrived no configuration of this network is handed on;
    with the piece that brings the last missing bytes, exactly the dictionary is. *)
Theorem chunks_reassemble (nid uid : Z) (dict : bytes) (l : list PendingNetworkConfig) (ncs : list NetConfP.t)
    (nc : NetConfP.t) (k : Z) :
  configs_ok l -> (forall q, q ∈ l -> pc_network_id q <> nid) ->
  0 < len dict <= ZT_MAX_NETWORK_CONFIG_SIZE ->
  Forall (piece_or_other nid uid dict) ncs -> chunk_of nid uid dict nc ->
  0 <= k < len dict -> ~ got_by nid ncs k ->
  (forall i, 0 <= i < len dict -> covers nc i \/ got_by nid ncs i) ->
  exists l' l'' outs nc', assemble_all l ncs = Ok (l', outs) /\
    Forall2 (fun nc out => NetConfP.network_id nc = nid -> out = None) ncs outs /\
    assemble_network_config l' nc = Ok (l'', Some nc') /\
    NetConfP.network_id nc' = nid /\ NetConfP.dict_data nc' = dict.
Proof.
  intros Hl Hno Hd Hf Hnc Hk Hmiss Hall.
  destruct (assemble_all_progress nid uid dict k ncs Hd Hk l (fun _ => False) Hl) as (l' & outs & He & Hl' & Hp & Hout);
    [right; tauto|done|tauto|done|].
  destruct (assemble_chunk l' nid uid dict _ nc Hl' Hp Hd Hnc) as (l'' & r & Hr & _ & Hdone & _).
  destruct Hdone as (nc' & -> & Hn & Hdict); [intros i Hi; destruct (Hall i Hi); tauto|].
  by exists l', l'', outs, nc'.
Qed.

Definition piece (nid uid total off : Z) (data : bytes) : NetConfP.t :=
  NetConfP.mk nid data (Some (b8 0)) (Some uid) (Some total) (Some off) (Some (b8 1)) (Some []).

Lemma piece_wf nid uid total off data : u64_ok nid -> u64_ok uid -> u32_ok total -> u32_ok off ->
  len data <= U16_MAX -> NetConfP.wf (piece nid uid total off data).
Proof. intros. split; [by split_and!|]. done. Qed.

Definition sample_pieces : list NetConfP.t :=
  [piece 7 1 6 3 (str "def"); piece 8 1 2 0 (str "xy"); piece 7 1 6 2 (str "cd")].

Lemma chunks_reassemble_witness :
  exists l' l'' outs nc',
    assemble_all [] sample_pieces = Ok (l', outs) /\
    Forall2 (fun nc out => NetConfP.network_id nc = 7 -> out = None)
      sample_pieces outs /\
    assemble_network_config l' (piece 7 1 6 0 (str "abc")) = Ok (l'', Some nc') /\
    NetConfP.network_id nc' = 7 /\ NetConfP.dict_data nc' = str "abcdef".
Proof.
  apply (chunks_reassemble 7 1 (str "abcdef") [] sample_pieces (piece 7 1 6 0 (str "abc")) 1).
  - split; constructor.
  - intros q Hq. by apply elem_of_nil in Hq.
  - done.
  - unfold sample_pieces. repeat apply Forall_cons_2; [| | |apply Forall_nil_2];
      (split; [by apply piece_wf; unfold u64_ok, u32_ok, U64_MAX, U32_MAX, U16_MAX, len; simpl; lia|]).
    + intros _. split_and!; [reflexivity..|]. exists 3%nat. split_and!; [reflexivity|unfold len; simpl; lia|reflexivity].
    + intros Hn. discriminate Hn.
    + intros _. split_and!; [reflexivity..|]. exists 2%nat. split_and!; [reflexivity|unfold len; simpl; lia|reflexivity].
  - split_and!; [done..|]. by exists 0%nat.
  - done.
  - intros (nc & Hin & Hn & off & Ho & Hc). unfold sample_pieces in Hin. rewrite !elem_of_cons, elem_of_nil in Hin.
    destruct Hin as [->|[->|[->|[]]]]; [injection Ho as <-; simpl in Hc; lia|discriminate Hn|injection Ho as <-; simpl in Hc; lia].
  - intros i Hi. change (len (str "abcdef")) with 6 in Hi.
    destruct (decide (i < 3)); [left; exists 0; split; [done|]; simpl; unfold len; simpl; lia|right].
    exists (piece 7 1 6 3 (str "def")). split; [left|]. split; [done|]. exists 3. split; [done|]. unfold len. simpl. lia.
Defined.
End NodeConfig.
