(* ===== verification/NodeVerbs.v ===== *)
(** * NodeVerbs: what a node does with each kind of packet (zerotier-node: node.rs, the
    [handle_*] methods), and the removal of a packet's armor and compression. *)
From S2P Require Export NodeConfig Vl2 Siv.

(** The LZ4 block format of lz4_flex: a compressor, and a decompressor into a buffer of a given
    capacity. *)
Class Lz4 := {
  lz4_compress : bytes -> bytes;
  lz4_decompress_into : bytes -> Z -> option bytes;
}.

(** Its documented behaviour: what was compressed comes back if it fits, and nothing longer than
    the buffer comes out. *)
Class Lz4Laws (Z4 : Lz4) : Prop := {
  lz4_roundtrip x capacity : len x <= capacity -> lz4_decompress_into (lz4_compress x) capacity = Some x;
  lz4_bounded y capacity x : lz4_decompress_into y capacity = Some x -> len x <= capacity;
}.

Module NodeVerbs.
Section NodeVerbs.
Context {P : Prims} {Z4 : Lz4}.

Definition ZT_PACKET_DECOMPRESS_CAPACITY : Z := ZT_MAX_PACKET_FRAGMENTS * 1432.

(** ** Armor and compression *)

Definition decompress_packet (packet : bytes) : step (option bytes) :=
  if len packet <? ZT_PACKET_IDX_PAYLOAD then Ok None else
  let* body := slice_from packet ZT_PACKET_IDX_PAYLOAD in
  match lz4_decompress_into body (ZT_PACKET_DECOMPRESS_CAPACITY - ZT_PACKET_IDX_PAYLOAD) with
  | None => Ok None
  | Some payload =>
      let* head := slice packet 0 ZT_PACKET_IDX_PAYLOAD in
      let* verb := get head ZT_PACKET_IDX_VERB in
      Ok (Some (<[Z.to_nat ZT_PACKET_IDX_VERB := b8 (Z.land (u8 verb) 0x7f)]> head ++ payload))
  end.

Definition build_aes_aad (packet : bytes) : step bytes :=
  let* aad := slice packet 8 19 in
  let* flags := get aad 10 in
  Ok (<[10%nat := b8 (Z.land (u8 flags) 0xf8)]> aad).

(** [Some] of the packet as it is after a successful dearmor, [None] otherwise. *)
Definition dearmor (n : Node) (data source : bytes) (cipher_suite verb_id : Z) : step (option bytes) :=
  let salsa :=
    match NodeOps.shared_secret_for_peer n source with
    | Some secret => attempt (Armor.dearmor_packet secret data)
    | None => Ok None
    end in
  if cipher_suite =? CIPHER_SUITE_C25519_POLY1305_NONE then
    if verb_id =? u8 (VerbOps.to_byte Hello) then Ok None else salsa
  else if cipher_suite =? CIPHER_SUITE_C25519_POLY1305_SALSA2012 then salsa
  else if cipher_suite =? CIPHER_SUITE_AES_GMAC_SIV then
    match NodeOps.aes_keys_for_peer n source with
    | Some (k0, k1) =>
        let* aad := build_aes_aad data in
        let* r := attempt (Siv.dearmor_packet k0 k1 data aad) in
        Ok match r with Some (packet, true) => Some packet | _ => None end
    | None => Ok None
    end
  else Ok None.

(** ** Shared steps *)

(** [let payload_data = if data.len() > 28 { &data\[28..\] } else { return };] followed by a
    parse whose failure returns. *)
Definition parsed {E A B} (data : bytes) (parse : bytes -> res E A) (otherwise : B) (k : A -> step B) : step B :=
  if 28 <? len data then
    let* payload_data := slice_from data 28 in
    let* r := attempt (parse payload_data) in
    match r with Some a => k a | None => Ok otherwise end
  else Ok otherwise.

(** [identity_already_validated(id) || id.validate_address()]. *)
Definition validated (n : Node) (identity : Identity) : step bool :=
  if NodeOps.identity_already_validated n identity then Ok true else
  let* r := attempt (Ident.validate_address identity) in
  Ok (default false r).

(** The source field of the packet's header. *)
Definition source_of (data : bytes) : option bytes := Header.source_address <$> Header.from_bytes data.

(** [if let Ok(len) = build(&mut buf) { actions.push(SendTo { buf\[..len\], to }) }] with a
    zeroed buffer of [size] bytes. *)
Definition send_built (n : Node) (build : W Z) (size : Z) (to : SocketAddr) : step Node :=
  let* r := attempt (build (replicate (Z.to_nat size) (b8 0))) in
  match r with
  | Some (l, buf) => let* data := slice buf 0 l in Ok (NodeOps.push_action n (SendTo data to))
  | None => Ok n
  end.

(** A reply written into a buffer: header, OK payload, armor. *)
Definition write_ok (packet_id : Z) (dest source : bytes) (flags : Z) (ok : OkP.t) (secret : bytes) : W Z :=
  Root.write_header packet_id dest source flags VOk;*
  do* payload_len := on_tail 28 (OkP.serialize ok) in
  let total_len := 28 + payload_len in
  Root.on_head total_len (fun p => Armor.armor_packet secret p true);*
  wret total_len.

(** ** HELLO *)

Definition handle_hello (n : Node) (data : bytes) (from : SocketAddr) (now_ms packet_id : Z) : step Node :=
  parsed data HelloP.deserialize n (fun '(hello, _) =>
    match id_secret (nd_identity n) with
    | None => Ok n
    | Some our_secret =>
        let their_dh := pk_dh (id_public (HelloP.identity hello)) in
        let shared_secret := key_agree (sk_dh our_secret) their_dh in
        let* verified := attempt (Armor.dearmor_packet shared_secret data) in
        match verified with
        | None => Ok n
        | Some _ =>
            if u8 (HelloP.protocol_version hello) <? ZT_PROTO_VERSION_MIN then Ok n else
            let* valid := validated n (HelloP.identity hello) in
            if negb valid then Ok n else
            let source := id_address (HelloP.identity hello) in
            let n := match NodeOps.get_peer n source with
                     | None => with_topology n (Topo.add_peer (nd_topology n)
                                 (Root.public_only (HelloP.identity hello)))
                     | Some _ => n
                     end in
            let n := NodeOps.update_peer n source (fun peer =>
              with_state (PeerOps.add_path peer from (NodeOps.arrived_directly data) now_ms)
                (PeerOps.new_active shared_secret 0 now_ms now_ms)) in
            send_built n (Root.build_ok_hello (nd_identity n) source packet_id (HelloP.timestamp hello)
                            shared_secret now_ms false) 512 from
        end
    end).

(** ** OK *)

(** The session an OK(HELLO) establishes: latency from the echoed timestamp, the path. *)
Definition ok_hello_received (n : Node) (data : bytes) (from : SocketAddr) (timestamp_echo now_ms : Z) : Node :=
  let latency_ms := wrap 32 (sat_sub now_ms timestamp_echo) in
  match source_of data with
  | None => n
  | Some source =>
      NodeOps.update_peer n source (fun peer =>
        let peer := match id_secret (nd_identity n) with
          | Some our_secret =>
              with_state peer (PeerOps.new_active (key_agree (sk_dh our_secret) (pk_dh (id_public (peer_identity peer))))
                                 latency_ms now_ms now_ms)
          | None => peer
          end in
        let peer := PeerOps.add_path peer from (NodeOps.arrived_directly data) now_ms in
        with_paths peer (update_first (fun p => bool_decide (path_address p = from))
          (fun p => mkPath (path_address p) (path_last_send p) (path_last_receive p) latency_ms (path_is_direct p))
          (peer_paths peer)))
  end.

(** [chunks_exact(k)]. *)
Definition chunks_exact (k : nat) (d : bytes) : list bytes :=
  map (fun i => take k (drop (i * k) d)) (seq 0 (length d / k)).

Definition handle_multicast_gather_ok (n : Node) (packet_id : Z) (data : bytes) (now_ms : Z) : step Node :=
  match list_find (fun g => pg_packet_id g = packet_id) (nd_gathers n) with
  | None => Ok n
  | Some (pending_index, pending) =>
      let n := with_gathers n (NodeConfig.swap_remove pending_index (nd_gathers n)) in
      if len data <? 4 then Ok n else
      let* count := be_at 4 data 0 in
      if len data <? 4 + count * 5 then Ok n else
      let* chunks := slice data 4 (4 + count * 5) in
      Ok (with_multicast n (fold_left (fun m subscriber =>
            Multicast.subscribe m (pg_network_id pending) (pg_mac pending) (pg_adi pending) subscriber now_ms)
          (chunks_exact 5 chunks) (nd_multicast n)))
  end.

(** The HELLO sent, by way of the first root with a live path, to a peer just learned. *)
Fixpoint hello_via_roots (n : Node) (roots : list bytes) (addr : bytes) (now_ms : Z) : step Node :=
  match roots with
  | [] => Ok n
  | root_addr :: roots =>
      match p ← NodeOps.get_peer n root_addr; PeerOps.best_path p now_ms with
      | None => hello_via_roots n roots addr now_ms
      | Some path =>
          let* h := NodeOps.hello_for n addr (path_address path) now_ms in
          Ok match h with
             | Some (data, _) => NodeOps.push_action n (SendTo data (path_address path))
             | None => n
             end
      end
  end.

(** One identity of an OK(WHOIS); [replay] stands for [replay_pending_encrypted_packets_for]. *)
Definition whois_resolved (replay : Node -> bytes -> Z -> step Node) (n : Node) (id : Identity) (now_ms : Z)
    : step Node :=
  let* valid := validated n id in
  if negb valid then Ok n else
  let addr := id_address id in
  let n := with_topology n (Topo.add_peer (nd_topology n) id) in
  let n := with_topology n (with_pending (nd_topology n) (delete addr (t_pending_whois (nd_topology n)))) in
  let* n := hello_via_roots n (t_roots (nd_topology n)) addr now_ms in
  replay n addr now_ms.

Fixpoint whois_all (replay : Node -> bytes -> Z -> step Node) (n : Node) (ids : list Identity) (now_ms : Z)
    : step Node :=
  match ids with
  | [] => Ok n
  | id :: ids => let* n := whois_resolved replay n id now_ms in whois_all replay n ids now_ms
  end.

Definition handle_ok (replay : Node -> bytes -> Z -> step Node) (n : Node) (data : bytes) (from : SocketAddr)
    (now_ms : Z) : step Node :=
  parsed data OkP.deserialize n (fun ok =>
    match OkP.sub_payload ok with
    | OkP.SubHello timestamp_echo _ _ _ _ _ => Ok (ok_hello_received n data from timestamp_echo now_ms)
    | OkP.SubWhois identities => whois_all replay n identities now_ms
    | OkP.SubGeneric sub =>
        if bool_decide (OkP.in_re_verb ok = MulticastGather) then
          handle_multicast_gather_ok n (OkP.in_re_packet_id ok) sub now_ms
        else if bool_decide (OkP.in_re_verb ok = NetworkConfigRequest) then
          let* nc := attempt (NetConfP.deserialize sub) in
          match nc with
          | Some nc => NodeConfig.apply_received_network_config n nc
          | None => Ok n
          end
        else Ok n
    end).

(** Parsed for the log only. *)
Definition handle_error (n : Node) (data : bytes) : step Node := parsed data ErrorP.deserialize n (fun _ => Ok n).

(** ** WHOIS *)

(** What is known of an address: our own identity or a peer's, without a secret. *)
Definition whois_lookup (n : Node) (addr : bytes) : step (option (option Identity)) :=
  if bool_decide (addr = NodeOps.our_address n) then Ok (Some (Some (Root.public_only (nd_identity n)))) else
  match NodeOps.get_peer n addr with
  | Some peer =>
      let* r := attempt (Ident.parse (Ident.to_public_string (peer_identity peer))) in
      Ok (Some r)
  | None => Ok None
  end.

(** The known identities and the unknown addresses, in order. *)
Fixpoint whois_lookups (n : Node) (addrs : list bytes) : step (list Identity * list bytes) :=
  match addrs with
  | [] => Ok ([], [])
  | addr :: addrs =>
      let* found := whois_lookup n addr in
      let* ' (known, unknown) := whois_lookups n addrs in
      Ok match found with
         | Some (Some id) => (id :: known, unknown)
         | Some None => (known, unknown)
         | None => (known, addr :: unknown)
         end
  end.

Definition handle_whois (n : Node) (data : bytes) (from : SocketAddr) (now_ms : Z) : step Node :=
  parsed data WhoisP.deserialize_request n (fun whois =>
    let source := take 5 (drop 13 data) in
    let in_re_packet_id := from_be (take 8 data) in
    let* ' (known, unknown) := whois_lookups n (WhoisP.addresses whois) in
    let* n :=
      match known, NodeOps.get_peer n source, NodeOps.shared_secret_for_peer n source with
      | _ :: _, Some _, Some secret =>
          send_built n (write_ok now_ms source (NodeOps.our_address n)
                          (Z.shiftl CIPHER_SUITE_C25519_POLY1305_SALSA2012 3)
                          (OkP.mk Whois in_re_packet_id (OkP.SubWhois known)) secret) 2048 from
      | _, _, _ => Ok n
      end in
    Ok match unknown with [] => n | _ => NodeOps.push_action n (WhoisNeeded unknown) end).

(** ** ECHO *)

Definition handle_echo (n : Node) (data : bytes) (from : SocketAddr) (packet_id : Z) : step Node :=
  if 28 <? len data then
    let* payload_data := slice_from data 28 in
    match source_of data with
    | None => Ok n
    | Some source =>
        match id_secret (nd_identity n), NodeOps.shared_secret_for_peer n source with
        | Some _, Some shared_secret =>
            let '(reply_id, n) := NodeOps.allocate_packet_id n in
            send_built n (write_ok reply_id source (NodeOps.our_address n)
                            (Z.lor (Z.shiftl CIPHER_SUITE_C25519_POLY1305_SALSA2012 3) 0x01)
                            (OkP.mk Echo packet_id (OkP.SubGeneric payload_data)) shared_secret) 2048 from
        | _, _ => Ok n
        end
    end
  else Ok n.

(** ** Paths and relaying *)

Fixpoint send_probes (n : Node) (peer_address : bytes) (targets : list SocketAddr) (now_ms : Z) : step Node :=
  match targets with
  | [] => Ok n
  | target :: targets =>
      let* n := NodeOps.send_probe_hello n peer_address target now_ms in send_probes n peer_address targets now_ms
  end.

Definition handle_push_direct_paths (n : Node) (data : bytes) (from : SocketAddr) (now_ms : Z) : step Node :=
  parsed data PushDirectP.deserialize n (fun push =>
    match source_of data with
    | None => Ok n
    | Some source =>
        match NodeOps.get_peer n source with
        | None => Ok n
        | Some peer =>
            let peer := PeerOps.add_path peer from (NodeOps.arrived_directly data) now_ms in
            let n := NodeOps.update_peer n source (fun _ => peer) in
            let known := map path_address (peer_paths peer) in
            let probes := take (Z.to_nat MAX_LOCAL_ADDRESSES)
              (filter (fun addr => addr <> from /\ addr ∉ known)
                 (omap (fun path => Inet.to_socket_addr (PushDirectP.dp_address path)) (PushDirectP.paths push))) in
            send_probes n source probes now_ms
        end
    end).

Definition handle_network_config (n : Node) (data : bytes) : step Node :=
  match source_of data with
  | None => Ok n
  | Some source =>
      parsed data NetConfP.deserialize n (fun nc =>
        if negb (bool_decide (source = NodeOps.controller_address_from_network_id (NetConfP.network_id nc)))
        then Ok n else NodeConfig.apply_received_network_config n nc)
  end.

Definition handle_network_credentials (n : Node) (data : bytes) : step Node :=
  parsed data CredP.deserialize n (fun creds =>
    match CredP.com creds with
    | None => Ok n
    | Some com =>
        match find (fun q => q_id q =? 1) (com_qualifiers com) with
        | None => Ok n
        | Some q =>
            Ok (NodeOps.update_network n (q_value q) (fun net =>
              with_our_com (NodeOps.with_request net false 0) (Some com)))
        end
    end).

Definition handle_rendezvous (n : Node) (data : bytes) (now_ms : Z) : step Node :=
  parsed data RendezvousP.deserialize n (fun rendezvous =>
    match Inet.to_socket_addr (RendezvousP.address rendezvous) with
    | None => Ok n
    | Some target_addr => NodeOps.send_probe_hello n (RendezvousP.peer_address rendezvous) target_addr now_ms
    end).

(** An active session's key and the address of its best path. *)
Definition session_info (n : Node) (addr : bytes) (now_ms : Z) : option (bytes * SocketAddr) :=
  peer ← NodeOps.get_peer n addr;
  secret ← PeerOps.shared_secret peer;
  path ← PeerOps.best_path peer now_ms;
  Some (secret, path_address path).

Definition maybe_send_rendezvous (n : Node) (source dest : bytes) (now_ms : Z) : step Node :=
  match session_info n source now_ms, session_info n dest now_ms with
  | Some (source_secret, source_phys), Some (dest_secret, dest_phys) =>
      let* n := send_built n (Root.build_rendezvous (nd_identity n) source dest (Inet.from_socket_addr dest_phys)
                                source_secret now_ms) 128 source_phys in
      send_built n (Root.build_rendezvous (nd_identity n) dest source (Inet.from_socket_addr source_phys)
                      dest_secret now_ms) 128 dest_phys
  | _, _ => Ok n
  end.

Definition handle_relay (n : Node) (data : bytes) (now_ms : Z) : step Node :=
  let '(data, incremented) := Armor.increment_hops data in
  if negb incremented then Ok n else
  match Header.from_bytes data with
  | None => Ok n
  | Some hdr =>
      let source := Header.source_address hdr in
      let dest := ph_dest hdr in
      match Switch.route (nd_topology n) dest now_ms with
      | Direct address => maybe_send_rendezvous (NodeOps.push_action n (SendTo data address)) source dest now_ms
      | Relay root_address _ => Ok (NodeOps.push_action n (SendTo data root_address))
      | Drop => Ok n
      end
  end.
End NodeVerbs.
End NodeVerbs.
