(* ===== verification/NodeReceive.v ===== *)
(** * NodeReceive: a datagram from the network, from its first byte to the actions it causes
    (zerotier-node: node.rs, [receive_packet] and what it calls back into). *)
From S2P Require Export NodeVerbs.

Module NodeReceive.
Section NodeReceive.
Context {P : Prims} {Z4 : Lz4}.

(** What [receive_packet] returns, and the node afterwards. *)
Abbreviation received := (step (list NodeAction * Node)).

(** [core::mem::take(&mut self.actions)]. *)
Definition take_actions (n : Node) : received := Ok (NodeOps.drain_actions n).

(** ** Which way a packet came *)

Definition has_path_from (peer : Peer) (from : SocketAddr) : bool :=
  existsb (fun path => bool_decide (path_address path = from)) (peer_paths peer).

Definition from_root_path (n : Node) (from : SocketAddr) : bool :=
  existsb (fun root_addr => match NodeOps.get_peer n root_addr with
                            | Some root_peer => has_path_from root_peer from | None => false end)
    (t_roots (nd_topology n)).

Definition is_relayed (n : Node) (source : bytes) (from : SocketAddr) : bool :=
  existsb (fun root_addr =>
    if bool_decide (root_addr = source) then false else
    match NodeOps.get_peer n root_addr with Some rp => has_path_from rp from | None => false end)
    (t_roots (nd_topology n)).

(** The sender's path, promoted if the packet came directly, and its last receive time. *)
Definition touch_peer (n : Node) (source : bytes) (from : SocketAddr) (now_ms : Z) : Node :=
  let relayed := is_relayed n source from in
  NodeOps.update_peer n source (fun peer =>
    let peer := if negb relayed then PeerOps.promote_path peer from now_ms
                else PeerOps.add_path peer from false now_ms in
    match peer_state peer with
    | Active ss k0 k1 latency_ms _ last_send => with_state peer (Active ss k0 k1 latency_ms now_ms last_send)
    | _ => peer
    end).

(** A packet that could not be authenticated: kept for a replay, and its sender looked up, if a
    root relayed it from a sender not yet known. *)
Definition dearmor_failed (n : Node) (data source : bytes) (from : SocketAddr) (packet_id now_ms : Z) : Node :=
  match NodeOps.get_peer n source with
  | Some _ => n
  | None =>
      if from_root_path n from then
        NodeOps.push_action (NodeOps.queue_pending_encrypted_packet n source from packet_id now_ms data)
          (WhoisNeeded [source])
      else n
  end.

(** A parse whose value becomes an action. *)
Definition emit {E A} (n : Node) (r : res E A) (action : A -> NodeAction) : step Node :=
  let* r := attempt r in
  Ok match r with Some a => NodeOps.push_action n (action a) | None => n end.

(** ** Dispatch *)

Definition dispatch (replay : Node -> bytes -> Z -> step Node) (n : Node) (source packet verb_payload : bytes)
    (from : SocketAddr) (now_ms packet_id : Z) (verb : option Verb) : step Node :=
  match verb with
  | Some Hello => NodeVerbs.handle_hello n packet from now_ms packet_id
  | Some VOk => NodeVerbs.handle_ok replay n packet from now_ms
  | Some VError => NodeVerbs.handle_error n packet
  | Some Whois => NodeVerbs.handle_whois n packet from now_ms
  | Some Rendezvous => NodeVerbs.handle_rendezvous n packet now_ms
  | Some Echo => NodeVerbs.handle_echo n packet from packet_id
  | Some PushDirectPaths => NodeVerbs.handle_push_direct_paths n packet from now_ms
  | Some NetworkConfig => NodeVerbs.handle_network_config n packet
  | Some NetworkCredentials => NodeVerbs.handle_network_credentials n packet
  | Some Frame => Vl2.handle_frame n source verb_payload
  | Some ExtFrame => Vl2.handle_ext_frame n source verb_payload
  | Some MulticastLike => Ok (Vl2.handle_multicast_like n source verb_payload now_ms)
  | Some MulticastGather => Vl2.handle_multicast_gather n source verb_payload from packet_id
  | Some MulticastFrame => Vl2.handle_multicast_frame n source verb_payload
  | Some NetworkConfigRequest =>
      emit n (NcrP.deserialize verb_payload) (fun req =>
        NetworkConfigRequested source (NcrP.network_id req) (NcrP.dict_data req) from packet_id)
  | Some UserMessage =>
      emit n (UserMessageP.deserialize verb_payload) (fun msg =>
        UserMessageReceived source (UserMessageP.type_id msg) (UserMessageP.data msg))
  | Some RemoteTrace =>
      emit n (RemoteTraceP.deserialize verb_payload) (fun t => RemoteTraceReceived source (RemoteTraceP.data t))
  | Some PathNegotiationRequest =>
      emit n (PathNegotiationP.deserialize verb_payload) (fun p =>
        PathNegotiationReceived source (PathNegotiationP.utility p))
  | Some Nop | Some Ack | Some QosMeasurement | None => Ok n
  end.

(** ** The calls back into [receive_packet] *)

Section Rec.
Context (rec : Node -> bytes -> SocketAddr -> Z -> received).

Fixpoint replay_each (n : Node) (pending : list PendingEncryptedPacket) (now_ms : Z) : step Node :=
  match pending with
  | [] => Ok n
  | buffered :: pending =>
      let replay_now := Z.max now_ms (pp_received_at_ms buffered) in
      let preserved_actions := nd_actions n in
      let* ' (replayed_actions, n) := rec (with_actions n []) (pp_data buffered) (pp_from buffered) replay_now in
      replay_each (with_actions n (preserved_actions ++ replayed_actions)) pending now_ms
  end.

Definition replay_pending_encrypted_packets_for (n : Node) (source : bytes) (now_ms : Z) : step Node :=
  let '(pending, n) := NodeOps.take_pending n source in replay_each n pending now_ms.

Definition handle_fragment (n : Node) (data : bytes) (from : SocketAddr) (now_ms : Z) : step Node :=
  let* ' (reassembly, assembled) := Fragment.receive_fragment (nd_reassembly n) data now_ms in
  let n := with_reassembly n reassembly in
  match assembled with
  | None => Ok n
  | Some packet =>
      let* ' (actions, n) := rec n packet from now_ms in
      Ok (with_actions n (nd_actions n ++ actions))
  end.

(** A packet for us, authenticated or not: decompression, the sender's path, the handler. *)
Definition handle_packet (n : Node) (data source : bytes) (dearmored : option bytes) (from : SocketAddr)
    (now_ms packet_id verb_id : Z) : step Node :=
  let raw := default data dearmored in
  let* verb_byte := get raw ZT_PACKET_IDX_VERB in
  let* packet :=
    match dearmored with
    | Some d => if negb (Z.land (u8 verb_byte) VERB_FLAG_COMPRESSED =? 0) then NodeVerbs.decompress_packet d
                else Ok (Some d)
    | None => Ok (Some data)
    end in
  match packet with
  | None => Ok n
  | Some packet =>
      let* verb_id :=
        match dearmored with
        | Some _ => let* b := get packet ZT_PACKET_IDX_VERB in Ok (Z.land (u8 b) 0x1f)
        | None => Ok verb_id
        end in
      let n := touch_peer n source from now_ms in
      let* verb_payload := if ZT_PACKET_IDX_PAYLOAD <? len packet then slice_from packet ZT_PACKET_IDX_PAYLOAD else Ok [] in
      dispatch replay_pending_encrypted_packets_for n source packet verb_payload from now_ms packet_id
        (VerbOps.from_byte (b8 verb_id))
  end.

Definition receive_body (n : Node) (data : bytes) (from : SocketAddr) (now_ms : Z) : received :=
  let n := with_actions n [] in
  if Header.is_fragment data then
    let* n := handle_fragment n data from now_ms in take_actions n
  else if len data <? ZT_PROTO_MIN_PACKET_LENGTH then take_actions n else
  match Header.from_bytes data with
  | None => take_actions n
  | Some hdr =>
      let source := Header.source_address hdr in
      let cipher_suite := Header.cipher_suite hdr in
      let verb_id := Header.verb_id hdr in
      let packet_id := Header.packet_id hdr in
      if negb (bool_decide (ph_dest hdr = NodeOps.our_address n)) then
        let* n := NodeVerbs.handle_relay n data now_ms in take_actions n
      else
        let* dearmored := NodeVerbs.dearmor n data source cipher_suite verb_id in
        if negb (is_some dearmored) && negb (cipher_suite =? CIPHER_SUITE_C25519_POLY1305_NONE) then
          take_actions (dearmor_failed n data source from packet_id now_ms)
        else
          let* n := handle_packet n data source dearmored from now_ms packet_id verb_id in
          take_actions n
  end.
End Rec.

(** The recursion through reassembled and replayed packets, with [fuel] levels available. *)
Fixpoint receive_packet (fuel : nat) (n : Node) (data : bytes) (from : SocketAddr) (now_ms : Z) : received :=
  match fuel with
  | O => Hang
  | S fuel => receive_body (receive_packet fuel) n data from now_ms
  end.

End NodeReceive.
End NodeReceive.
