(* ===== verification/NodeInv.v ===== *)
(** * NodeInv: the invariant of a node and that its handlers keep it. No packet, whatever its
    bytes, makes one of them panic (WHOIS and ECHO answers, whose buffer is bounded, apart). *)
From S2P Require Export NodeReceive.

(** An address the wire format can carry. *)
Definition sock_ok (a : SocketAddr) : Prop := Inet.wf (Inet.from_socket_addr a).

(** What the Rust types say of the fields of an action another component acts on. *)
Definition action_ok (a : NodeAction) : Prop :=
  match a with
  | WhoisNeeded addresses => Forall (fun a => len a = 5) addresses
  | NetworkConfigRequested requester network_id _ from packet_id =>
      len requester = 5 /\ u64_ok network_id /\ sock_ok from /\ u64_ok packet_id
  | _ => True
  end.

#[export] Hint Extern 0 (action_ok _) => exact I : core.

Module NodeInv.
Section NodeInv.
Context {P : Prims} {L : PrimLaws P} {Z4 : Lz4}.

(** ** The invariant *)

Definition paths_ok (p : Peer) : Prop := Forall (fun x => sock_ok (path_address x)) (peer_paths p).

(** Subscribers are ZeroTier addresses. *)
Definition subscribers_ok (m : MulticastManager) : Prop :=
  Forall (fun x => Forall (fun s => len s.1 = 5) x.2) (subscriptions m).

Definition key_ok (k : MulticastGroupKey) : Prop := u64_ok (k_network_id k) /\ len (k_mac k) = 6 /\ u32_ok (k_adi k).

(** The group a pending MULTICAST_GATHER asked for. *)
Definition gather_key (g : PendingMulticastGather) : MulticastGroupKey := mkKey (pg_network_id g) (pg_mac g) (pg_adi g).

(** What the Rust types say of a node's fields. *)
Record typed (n : Node) : Prop := {
  ty_peers : map_Forall (fun a _ => len a = 5) (t_peers (nd_topology n));
  ty_networks : Forall NodeConfig.network_ok (nd_networks n);
  ty_groups : Forall (fun x => key_ok x.1) (subscriptions (nd_multicast n));
  ty_gathers : Forall (fun g => key_ok (gather_key g)) (nd_gathers n);
  ty_local : Forall sock_ok (nd_local_addresses n) /\ len (nd_local_addresses n) <= MAX_LOCAL_ADDRESSES;
  ty_actions : Forall action_ok (nd_actions n);
  ty_packet_id : 1 <= nd_next_packet_id n <= U64_MAX;
  ty_secret : match id_secret (nd_identity n) with Some secret => len (sk_signing secret) = 32 | None => True end;
}.

Record node_ok (n : Node) : Prop := {
  nk_identity : Ident.public_wf (Root.public_only (nd_identity n));
  nk_topology : Topo.topo_ok (nd_topology n);
  nk_paths : map_Forall (fun _ p => paths_ok p) (t_peers (nd_topology n));
  nk_planet : u64_ok (NodeOps.planet_id n) /\ u64_ok (NodeOps.planet_ts n);
  nk_buffer : Fragment.buffer_ok (nd_reassembly n);
  nk_multicast : subscribers_ok (nd_multicast n);
  nk_configs : NodeConfig.configs_ok (nd_configs n);
  nk_packets : Forall (fun p => sock_ok (pp_from p) /\ u64_ok (pp_received_at_ms p)) (nd_packets n);
  nk_typed : typed n;
}.

(** What a handler may change: not the packets held back. *)
Definition keeps (n n' : Node) : Prop :=
  node_ok n' /\ nd_identity n' = nd_identity n /\ nd_reassembly n' = nd_reassembly n /\ nd_packets n' = nd_packets n.

Lemma keeps_refl n : node_ok n -> keeps n n.
Proof. by intros. Qed.

Lemma keeps_trans n1 n2 n3 : keeps n1 n2 -> keeps n2 n3 -> keeps n1 n3.
Proof. intros (_ & H1 & H2 & H3) (Hok & H4 & H5 & H6). split; [done|]. by rewrite H4, H5, H6. Qed.

Lemma keeps_push n a : node_ok n -> action_ok a -> keeps n (NodeOps.push_action n a).
Proof.
  intros [? ? ? ? ? ? ? ? [? ? ? ? ? Ha ? ?]] Hp. split; [|done]. split; try done. split; try done.
  simpl. apply Forall_app. by split; [|constructor].
Qed.

Lemma keeps_actions n l : node_ok n -> Forall action_ok l -> keeps n (with_actions n l).
Proof. intros [? ? ? ? ? ? ? ? []] ?. by split; [split|]. Qed.

(** Packet ids are never zero: the counter wraps to one. *)
Lemma next_packet_id x : let next := wrap 64 (x + 1) in 1 <= (if next =? 0 then 1 else next) <= U64_MAX.
Proof.
  cbv zeta. unfold wrap, U64_MAX. pose proof (Z.mod_pos_bound (x + 1) (2 ^ 64) ltac:(lia)).
  destruct (_ =? 0) eqn:E; zlia.
Qed.

Lemma keeps_packet_id n : node_ok n -> keeps n (NodeOps.allocate_packet_id n).2.
Proof.
  intros [? ? ? ? ? ? ? ? []]. split; [|done]. split; try done. split; try done. apply next_packet_id.
Qed.

Lemma keeps_networks n l : node_ok n -> Forall NodeConfig.network_ok l -> keeps n (with_networks n l).
Proof. intros [? ? ? ? ? ? ? ? []] ?. by split; [split|]. Qed.

Lemma network_u64 n net : node_ok n -> net ∈ nd_networks n -> u64_ok (nw_network_id net).
Proof. intros Hn Hin. by apply (proj1 (Forall_forall _ _) (ty_networks _ (nk_typed _ Hn))). Qed.

Lemma keeps_update_network n nid f : node_ok n -> (forall x, NodeConfig.network_ok x -> NodeConfig.network_ok (f x)) ->
  keeps n (NodeOps.update_network n nid f).
Proof.
  intros Hn Hf. apply keeps_networks; [done|]. apply update_first_Forall; [by apply ty_networks, nk_typed|].
  intros x Hx _. apply Hf. by apply (proj1 (Forall_forall _ _) (ty_networks _ (nk_typed _ Hn))).
Qed.

Lemma keeps_gathers n l : node_ok n -> Forall (fun g => key_ok (gather_key g)) l -> keeps n (with_gathers n l).
Proof. intros [? ? ? ? ? ? ? ? []] ?. by split; [split|]. Qed.

(** The keys and subscribers of a subscription table. *)
Definition multicast_ok (m : MulticastManager) : Prop :=
  subscribers_ok m /\ Forall (fun x => key_ok x.1) (subscriptions m).

Lemma node_multicast n : node_ok n -> multicast_ok (nd_multicast n).
Proof. intros Hn. split; [by apply nk_multicast|by apply ty_groups, nk_typed]. Qed.

Lemma keeps_multicast n m : node_ok n -> multicast_ok m -> keeps n (with_multicast n m).
Proof. intros [? ? ? ? ? ? ? ? []] []. by split; [split|]. Qed.

Lemma packets_ok n l : node_ok n -> Forall (fun p => sock_ok (pp_from p) /\ u64_ok (pp_received_at_ms p)) l ->
  node_ok (with_packets n l).
Proof. intros [? ? ? ? ? ? ? ? []] ?. by split; [..|split]. Qed.

Lemma reassembly_ok n b : node_ok n -> Fragment.buffer_ok b -> node_ok (with_reassembly n b).
Proof. intros [? ? ? ? ? ? ? ? []] ?. by split; [..|split]. Qed.

Lemma actions_ok n : node_ok n -> Forall action_ok (nd_actions n).
Proof. intros Hn. apply ty_actions, nk_typed, Hn. Qed.

Lemma keeps_configs n l : node_ok n -> NodeConfig.configs_ok l -> keeps n (with_configs n l).
Proof. intros [? ? ? ? ? ? ? ? []] ?. by split; [split|]. Qed.

Lemma keeps_topology n t : node_ok n -> Topo.topo_ok t -> map_Forall (fun _ p => paths_ok p) (t_peers t) ->
  map_Forall (fun a _ => len a = 5) (t_peers t) ->
  t_planet t = t_planet (nd_topology n) -> keeps n (with_topology n t).
Proof.
  intros [? ? ? ? ? ? ? ? []] Ht Hp Hk Hpl. split; [|done]. split; simpl; try done.
  unfold NodeOps.planet_id, NodeOps.planet_ts in *. simpl. by rewrite Hpl.
Qed.

(** ** Peers *)

Lemma update_peer_keys n a f : map_Forall (fun a _ => len a = 5) (t_peers (nd_topology n)) ->
  map_Forall (fun a _ => len a = 5) (t_peers (nd_topology (NodeOps.update_peer n a f))).
Proof.
  intros Hk b p. cbn. destruct (decide (a = b)) as [<-|Hab].
  - rewrite lookup_alter_eq. intros (q & Hq & _)%fmap_Some. by apply (Hk a q).
  - rewrite lookup_alter_ne by done. apply Hk.
Qed.

Lemma keeps_update_peer n a f : node_ok n ->
  (forall p, NodeOps.get_peer n a = Some p -> PeerOps.peer_ok p -> paths_ok p ->
     PeerOps.peer_ok (f p) /\ peer_identity (f p) = peer_identity p /\ paths_ok (f p)) ->
  keeps n (NodeOps.update_peer n a f).
Proof.
  intros Hn Hf. pose proof (nk_topology _ Hn) as Ht. pose proof (nk_paths _ Hn) as Hp.
  apply keeps_topology; [done| | |apply update_peer_keys, ty_peers, nk_typed, Hn|done].
  - apply TopoFacts.update_peer_ok; [done|]. intros p Hl Hpo. destruct (Hf p Hl Hpo) as (? & ? & _); [by eapply Hp|done].
  - intros b r. simpl. destruct (decide (a = b)) as [<-|Hab].
    + rewrite lookup_alter_eq. intros (p & Hl & ->)%fmap_Some. apply Hf; [done| |by eapply Hp].
      by apply (Topo.to_peers _ Ht) in Hl as [_ ?].
    + rewrite lookup_alter_ne by done. apply Hp.
Qed.

Lemma paths_ok_add p addr d now : paths_ok p -> sock_ok addr -> paths_ok (PeerOps.add_path p addr d now).
Proof.
  unfold paths_ok. intros Hp Ha. rewrite <- Forall_map in Hp |- *. rewrite PeerOps.add_path_addresses.
  destruct (PeerOps.has_path p addr); [done|]. apply Forall_app. by split; [|constructor].
Qed.

Lemma peer_ok_add p addr d now : PeerOps.peer_ok p -> PeerOps.peer_ok (PeerOps.add_path p addr d now).
Proof. intros Hp. eapply PeerOps.peer_step_ok; [exact Hp|constructor]. Qed.

Lemma paths_ok_addresses p q : map path_address (peer_paths q) = map path_address (peer_paths p) ->
  paths_ok p -> paths_ok q.
Proof. unfold paths_ok. intros Heq Hp. rewrite <- Forall_map in Hp |- *. by rewrite Heq. Qed.

(** Paths replaced by paths to the same addresses. *)
Lemma peer_ok_paths p ps : map path_address ps = map path_address (peer_paths p) -> PeerOps.peer_ok p ->
  PeerOps.peer_ok (with_paths p ps).
Proof. intros Heq []. split; simpl; [done|done|]. by rewrite Heq. Qed.

Lemma peer_ok_active p ss lat r s : PeerOps.peer_ok p -> len ss = 48 ->
  PeerOps.peer_ok (with_state p (PeerOps.new_active ss lat r s)).
Proof. intros [] Hss. split; simpl; [done|by apply PeerOps.new_active_keys|done]. Qed.

(** ** Secrets and HELLOs *)

Lemma shared_secret_len n a ss : node_ok n -> NodeOps.shared_secret_for_peer n a = Some ss -> len ss = 48.
Proof.
  intros Hn. unfold NodeOps.shared_secret_for_peer. destruct (NodeOps.get_peer n a) as [p|] eqn:Ep; [|done].
  apply (Topo.to_peers _ (nk_topology _ Hn)) in Ep as [_ Hp].
  destruct (PeerOps.shared_secret p) as [s|] eqn:Es.
  - intros [= <-]. unfold PeerOps.shared_secret in Es. pose proof (PeerOps.po_keys _ Hp) as Hk.
    destruct (peer_state p); try done. injection Es as <-. apply Hk.
  - destruct (id_secret (nd_identity n)); [|done]. intros [= <-]. apply len_key_agree.
Qed.

Lemma our_address_len n : node_ok n -> len (id_address (nd_identity n)) = 5.
Proof. intros Hn. by destruct (nk_identity _ Hn) as [[[H _] _] _]. Qed.

Lemma hello_for_sends n a target now : node_ok n -> len a = 5 -> sock_ok target -> u64_ok now ->
  exists data, NodeOps.hello_for n a target now = Ok (Some (data, now)).
Proof.
  intros Hn Ha Ht Hnow. destruct (nk_planet _ Hn) as [Hpi Hpt].
  pose proof (Root.hello_of_wf _ _ _ _ _ (nk_identity _ Hn) Ht Hnow Hpi Hpt) as Hw.
  set (ss := default (replicate 48 (b8 0)) (NodeOps.shared_secret_for_peer n a)).
  assert (len ss = 48) as Hss.
  { unfold ss. destruct (NodeOps.shared_secret_for_peer n a) eqn:E; simpl; [|done]. by eapply shared_secret_len. }
  destruct (Root.build_hello_sealed (nd_identity n) a target ss now (NodeOps.planet_id n) (NodeOps.planet_ts n)
    (replicate 512 (b8 0)) Hw Ha (our_address_len n Hn) Hss) as (q & tl & _ & _ & _ & Hb); [done|].
  unfold NodeOps.hello_for. fold ss. rewrite Hb. cbn [attempt]. rewrite rbind_ok. pose proof (len_nonneg q).
  rewrite slice_here, rbind_ok by len_lia. eauto.
Qed.

(** ** Sending what was built *)

Lemma send_built_keeps n (build : W Z) size to : node_ok n ->
  wp (build (replicate (Z.to_nat size) (b8 0))) (fun '(l, buf) => 0 <= l <= len buf) (fun _ => True) ->
  safe (NodeVerbs.send_built n build size to) (keeps n).
Proof.
  intros Hn Hb. unfold NodeVerbs.send_built. apply wp_bind. eapply wp_attempt; [exact Hb| |by apply keeps_refl].
  intros [l buf] Hl. apply wp_bind, wp_slice; [lia..|]. intros data _. by apply keeps_push.
Qed.

Lemma fits_wp {A} (m : W A) (l : A -> Z) buf a q rest : m buf = Ok (a, q ++ rest) -> l a = len q ->
  wp (m buf) (fun '(a, b) => 0 <= l a <= len b) (fun _ => True).
Proof. intros -> Hl. simpl. rewrite len_app, Hl. pose proof (len_nonneg q). pose proof (len_nonneg rest). lia. Qed.

Lemma send_probe_keeps n a target now : node_ok n -> len a = 5 -> sock_ok target -> u64_ok now ->
  safe (NodeOps.send_probe_hello n a target now) (keeps n).
Proof.
  intros Hn Ha Ht Hnow. unfold NodeOps.send_probe_hello. destruct (id_secret _); [|by apply keeps_refl].
  destruct (hello_for_sends n a target now) as [data ->]; [done..|]. by apply keeps_push.
Qed.

(** ** The shape shared by the handlers *)

Lemma handled_safe {E A} n data (parse : bytes -> res E A) (k : A -> step Node) (Q : bytes -> A -> Prop) (T : Node -> Prop) :
  (forall d, safe (parse d) (Q d)) -> T n -> (forall d a, Q d a -> safe (k a) T) ->
  safe (NodeVerbs.parsed data parse n k) T.
Proof.
  intros Hp Hn Hk. unfold NodeVerbs.parsed. apply wp_if; [|done]. intros H28. apply wp_bind, wp_slice_from; [lia|].
  intros d _. apply wp_bind. eapply wp_attempt; [apply Hp|apply Hk|done].
Qed.

Lemma validated_safe n id : safe (NodeVerbs.validated n id) (fun _ => True).
Proof.
  unfold NodeVerbs.validated. apply wp_if; [done|]. intros _. apply wp_bind.
  eapply (wp_attempt _ (fun _ => True) (fun _ => True)); [|done..].
  unfold Ident.validate_address. apply wp_bind. eapply wp_mono; [apply memory_hard_safe| |done].
  intros digest _. by destruct (derive_address digest).
Qed.

Lemma source_of_len data a : NodeVerbs.source_of data = Some a -> len a = 5.
Proof.
  unfold NodeVerbs.source_of, Header.from_bytes. destruct (28 <=? len data) eqn:E; [|done]. intros [= <-].
  unfold Header.source_address. simpl. rewrite len_take, len_drop. lia.
Qed.

Lemma ident_address_len id : Ident.wf id -> len (id_address id) = 5.
Proof. by intros [[H _] _]. Qed.

(** ** HELLO and OK *)

Lemma keeps_add_peer n id : node_ok n -> len (id_address id) = 5 ->
  keeps n (with_topology n (Topo.add_peer (nd_topology n) id)).
Proof.
  intros Hn Hid. pose proof (nk_topology _ Hn) as Ht. apply keeps_topology; [done| | | |].
  - eapply TopoFacts.topo_step_ok; [exact Ht|constructor].
  - unfold Topo.add_peer. destruct (t_peers _ !! _); [apply Hn|]. simpl.
    apply map_Forall_insert_2; [constructor|apply Hn].
  - unfold Topo.add_peer. pose proof (ty_peers _ (nk_typed _ Hn)) as Hk. destruct (t_peers _ !! _); [exact Hk|]. simpl.
    by apply map_Forall_insert_2.
  - unfold Topo.add_peer. by destruct (t_peers _ !! _).
Qed.

Lemma build_ok_hello_fits n dest pid echo ss now : node_ok n -> len ss = 48 -> len dest = 5 -> u64_ok pid -> u64_ok echo ->
  wp (Root.build_ok_hello (nd_identity n) dest pid echo ss now false (replicate (Z.to_nat 512) (b8 0)))
    (fun '(l, buf) => 0 <= l <= len buf) (fun _ => True).
Proof.
  intros Hn Hss Hd Hp He. pose proof (our_address_len n Hn) as Ho.
  destruct (Root.build_ok_hello_sealed (nd_identity n) dest pid echo ss now (replicate (Z.to_nat 512) (b8 0)) Hss Hd Ho)
    as [_ Hfit]; [by split_and!|]. destruct Hfit as (q & Hq & _); [done|].
  pose proof (fits_wp _ (fun l => l) _ _ _ _ Hq eq_refl) as Hw. by destruct (Root.build_ok_hello _ _ _ _ _ _ _ _) as [[l b]| | |].
Qed.

Lemma packet_id_u64 data hdr : Header.from_bytes data = Some hdr -> u64_ok (Header.packet_id hdr).
Proof.
  unfold Header.from_bytes, Header.packet_id. destruct (28 <=? len data) eqn:E; [|done]. intros [= <-]. simpl.
  apply from_be_u64_ok. rewrite len_take. lia.
Qed.

Lemma armor_dearmor_safe ss data : 32 <= len ss -> safe (Armor.dearmor_packet ss data) (fun p => len p = len data).
Proof.
  intros Hss. destruct (decide (28 <= len data)) as [Hl|Hl].
  - destruct (Armor.packet_view data Hl) as (h & f & m & b & -> & Hh & Hm & Hb). rewrite Armor.dearmor_frame by done.
    case_bool_decide; [|done]. simpl. by rewrite !Armor.len_frame, Armor.len_crypt_body.
  - unfold Armor.dearmor_packet, PACKET_MIN_LEN. by rewrite if_true by lia.
Qed.

Lemma handle_hello_keeps n data from now pid : node_ok n -> sock_ok from -> u64_ok pid ->
  safe (NodeVerbs.handle_hello n data from now pid) (keeps n).
Proof.
  intros Hn Hf Hp. unfold NodeVerbs.handle_hello.
  eapply handled_safe; [apply HelloP.hello_deserialize_total|by apply keeps_refl|]. intros d [hello k] [[Hs Hid] _].
  destruct (id_secret (nd_identity n)) as [our|]; [|by apply keeps_refl].
  set (ss := key_agree _ _). assert (len ss = 48) as Hss by apply len_key_agree.
  apply wp_bind. eapply wp_attempt; [apply armor_dearmor_safe; lia| |by apply keeps_refl]. intros _ _.
  apply wp_if; [by intros; apply keeps_refl|]. intros _. apply wp_bind.
  eapply wp_mono; [apply validated_safe| |done]. intros valid _. apply wp_if; [by intros; apply keeps_refl|]. intros _.
  set (source := id_address (HelloP.identity hello)). assert (len source = 5) as Hl by apply ident_address_len, Hid.
  set (n1 := match NodeOps.get_peer n source with None => _ | Some _ => n end).
  assert (keeps n n1) as H1.
  { unfold n1. destruct (NodeOps.get_peer n source); [by apply keeps_refl|by apply keeps_add_peer]. }
  match goal with |- safe (NodeVerbs.send_built ?m _ _ _) _ => set (n2 := m) end.
  assert (keeps n1 n2) as H2.
  { apply keeps_update_peer; [apply H1|]. intros p _ Hpo Hpa. split_and!; [|done|by apply paths_ok_add].
    apply peer_ok_active; [by apply peer_ok_add|done]. }
  pose proof (keeps_trans _ _ _ H1 H2) as H12.
  eapply wp_mono; [apply send_built_keeps; [apply H12|]| |done].
  - apply build_ok_hello_fits; [apply H12|done|done|done|]. by destruct Hs as (_ & ? & _).
  - intros n3 H3. by eapply keeps_trans.
Qed.

Lemma ok_hello_keeps n data from echo now : node_ok n -> sock_ok from ->
  keeps n (NodeVerbs.ok_hello_received n data from echo now).
Proof.
  intros Hn Hf. unfold NodeVerbs.ok_hello_received. destruct (NodeVerbs.source_of data) as [a|]; [|by apply keeps_refl].
  apply keeps_update_peer; [done|]. intros p _ Hpo Hpa.
  set (q := match id_secret (nd_identity n) with Some _ => _ | None => p end).
  assert (PeerOps.peer_ok q /\ peer_identity q = peer_identity p /\ paths_ok q) as (Hq & Hi & Hqp).
  { unfold q. destruct (id_secret _); [|done]. split_and!; [|done|done]. apply peer_ok_active; [done|apply len_key_agree]. }
  set (r := PeerOps.add_path q from _ now).
  assert (map path_address (update_first (fun x => bool_decide (path_address x = from))
    (fun x => mkPath (path_address x) (path_last_send x) (path_last_receive x)
       (wrap 32 (sat_sub now echo)) (path_is_direct x)) (peer_paths r)) = map path_address (peer_paths r)) as Hm
    by (by apply update_first_map).
  split_and!; [|done|].
  - apply peer_ok_paths; [exact Hm|by apply peer_ok_add].
  - eapply paths_ok_addresses; [exact Hm|by apply paths_ok_add].
Qed.

Lemma subscribe_subscribers m nid mac adi a now : subscribers_ok m -> len a = 5 ->
  subscribers_ok (Multicast.subscribe m nid mac adi a now).
Proof.
  unfold subscribers_ok, Multicast.subscribe. simpl. intros Hm Ha.
  assert (forall l, Forall (fun s : Subscriber => len s.1 = 5) l ->
    Forall (fun s : Subscriber => len s.1 = 5) (Assoc.upsert a now (fun _ => now) l)) as Hin.
  { intros l Hl. unfold Assoc.upsert. destruct (existsb _ l).
    - induction Hl as [|x l Hx Hl IH]; [constructor|]. simpl. destruct (Assoc.has_key a x); by constructor.
    - apply Forall_app. split; [done|]. by constructor. }
  unfold Assoc.upsert at 1. destruct (existsb _ _).
  - induction Hm as [|x l Hx Hl IH]; [constructor|]. simpl.
    destruct (Assoc.has_key _ x); constructor; try done. by apply Hin.
  - apply Forall_app. split; [done|]. constructor; [|done]. simpl. apply Hin. constructor.
Qed.

Lemma retain_subscribers keep m : subscribers_ok m -> subscribers_ok (Multicast.retain keep m).
Proof.
  unfold subscribers_ok, Multicast.retain, Multicast.drop_empty. simpl. intros Hm. apply Forall_forall.
  intros x [_ Hx]%list_elem_of_filter. apply list_elem_of_In, in_map_iff in Hx as (y & <- & Hy%list_elem_of_In).
  simpl. rewrite Forall_forall in Hm. specialize (Hm y Hy). apply Forall_forall.
  intros z [_ Hz]%list_elem_of_filter. rewrite Forall_forall in Hm. by apply Hm.
Qed.

Lemma subscribe_multicast m nid mac adi a now : multicast_ok m -> key_ok (mkKey nid mac adi) -> len a = 5 ->
  multicast_ok (Multicast.subscribe m nid mac adi a now).
Proof.
  intros [Hs Hk] Hkey Ha. split; [by apply subscribe_subscribers|].
  rewrite <- (List.Forall_map fst key_ok) in Hk |- *. pose proof (Assoc.keys_upsert (mkKey nid mac adi) []
    (Assoc.upsert a now (fun _ => now)) (subscriptions m)) as He. unfold Assoc.keys in He. cbn. rewrite He.
  destruct (existsb _ _); [done|]. apply Forall_app. split; [done|]. by constructor.
Qed.

Lemma retain_multicast keep m : multicast_ok m -> multicast_ok (Multicast.retain keep m).
Proof.
  intros [Hs Hk]. split; [by apply retain_subscribers|]. apply Forall_forall.
  intros x [_ Hx]%list_elem_of_filter. apply list_elem_of_In, in_map_iff in Hx as (y & <- & Hy%list_elem_of_In).
  rewrite Forall_forall in Hk. exact (Hk y Hy).
Qed.

Lemma multicast_fold {A} (xs : list A) (f : MulticastManager -> A -> MulticastManager) m : multicast_ok m ->
  (forall m x, x ∈ xs -> multicast_ok m -> multicast_ok (f m x)) -> multicast_ok (fold_left f xs m).
Proof.
  revert m. induction xs as [|x xs IH]; intros m Hm Hf; [done|]. simpl. apply IH.
  - apply Hf; [left|done].
  - intros m' y Hy. apply Hf. by right.
Qed.

Lemma chunks_exact_len k d x : (0 < k)%nat -> x ∈ NodeVerbs.chunks_exact k d -> length x = k.
Proof.
  intros Hk (i & -> & Hi%elem_of_seq)%list_elem_of_fmap. rewrite length_take, length_drop.
  pose proof (Nat.div_mod_eq (length d) k). nia.
Qed.

Lemma gather_ok_keeps n pid data now : node_ok n -> safe (NodeVerbs.handle_multicast_gather_ok n pid data now) (keeps n).
Proof.
  intros Hn. unfold NodeVerbs.handle_multicast_gather_ok.
  destruct (list_find _ _) as [[i g]|] eqn:Ef; [|by apply keeps_refl]. cbv zeta. set (n1 := with_gathers n _).
  apply list_find_Some in Ef as [Hi _]. pose proof (ty_gathers _ (nk_typed _ Hn)) as Hg.
  assert (keeps n n1) as H1.
  { apply keeps_gathers; [done|]. pose proof (NodeConfig.swap_remove_perm _ _ _ Hi) as Hperm. rewrite Hperm in Hg.
    by apply Forall_cons in Hg as [_ ?]. }
  assert (key_ok (gather_key g)) as Hkey by (by apply (Forall_lookup_1 _ _ _ _ Hg Hi)).
  apply wp_if; [done|]. intros H4. apply wp_bind, wp_be_u32; [lia|lia|]. intros count [Hc _].
  apply wp_if; [done|]. intros Hlen. apply wp_bind, wp_slice; [lia..|]. intros chunks _.
  eapply keeps_trans; [exact H1|]. apply keeps_multicast; [apply H1|]. apply multicast_fold; [apply node_multicast, H1|].
  intros m x Hx Hm. apply subscribe_multicast; [done|exact Hkey|]. apply chunks_exact_len in Hx; [|lia]. unfold len. lia.
Qed.

Lemma hello_via_roots_keeps n roots a now : node_ok n -> len a = 5 -> u64_ok now ->
  safe (NodeVerbs.hello_via_roots n roots a now) (keeps n).
Proof.
  intros Hn Ha Hnow. induction roots as [|r roots IH]; [by apply keeps_refl|]. cbn [NodeVerbs.hello_via_roots].
  destruct (NodeOps.get_peer n r) as [p|] eqn:Ep; [|exact IH]. cbn [mbind option_bind].
  destruct (PeerOps.best_path p now) as [path|] eqn:Eb; [|exact IH].
  assert (sock_ok (path_address path)) as Hs.
  { pose proof (nk_paths _ Hn r p Ep) as Hp. apply PeerOps.best_path_Some in Eb as (Hin & _ & _).
    unfold paths_ok in Hp. rewrite Forall_forall in Hp. by apply Hp. }
  destruct (hello_for_sends n a (path_address path) now) as [data ->]; [done..|]. by apply keeps_push.
Qed.

Lemma configuration_keeps n nc : node_ok n -> NetConfP.wf nc ->
  safe (NodeConfig.apply_received_network_config n nc) (keeps n).
Proof.
  intros Hn Hw. unfold NodeConfig.apply_received_network_config.
  destruct (NodeOps.find_network n (NetConfP.network_id nc)) as [net|]; [|by apply keeps_refl].
  destruct (NodeConfig.assemble_other (nd_configs n) (NetConfP.network_id nc + 1) nc) as (l & r & He & Hl & _);
    [apply Hn|done|lia|]. rewrite He, rbind_ok. cbv zeta. set (n1 := with_configs n l).
  assert (keeps n n1) as H1 by by apply keeps_configs. destruct r as [nc'|]; [|done].
  apply wp_bind. unfold NodeConfig.apply_network_config.
  eapply (wp_mono _ (keeps n1)); [| |done].
  - destruct (NodeOps.find_network n1 _) as [net1|] eqn:Ef; [|by apply keeps_refl, H1]. apply wp_bind.
    eapply wp_mono; [apply NodeConfig.apply_to_membership_total| |done]. intros net2 [_ Hok].
    apply keeps_networks; [apply H1|]. pose proof (ty_networks _ (nk_typed _ (proj1 H1))) as Hnets.
    apply update_first_Forall; [done|]. intros x _ _. apply Hok. unfold NodeOps.find_network in Ef.
    apply find_Some in Ef as [Hin _]. exact (proj1 (Forall_forall _ _) Hnets _ Hin).
  - intros n2 H2. eapply keeps_trans; [exact H1|]. eapply keeps_trans; [exact H2|].
    set (n3 := NodeOps.update_network n2 _ _). assert (keeps n2 n3) as H3 by (by apply keeps_update_network; [apply H2|]).
    eapply keeps_trans; [exact H3|]. (apply keeps_push; [apply H3|done]).
Qed.

(** ** Frames *)

Lemma frame_keeps {T} `{PayloadCodec T} n data (nid : T -> Z) (action : NetworkMembership -> T -> NodeAction) sender :
  node_ok n -> (forall net f, action_ok (action net f)) ->
  @wp Empty_set _ (let* r := attempt (pc_deserialize data) in
        Ok match r with
           | None => n
           | Some f => match NodeOps.find_network n (nid f) with
                       | None => n
                       | Some net => if negb (Vl2.has_peer_com n (nw_network_id net) sender) then n
                                     else NodeOps.push_action n (action net f)
                       end
           end) (keeps n) (fun _ => True).
Proof.
  intros Hn Ha. apply wp_bind. eapply wp_attempt; [apply pc_total| |by apply keeps_refl]. intros f _.
  destruct (NodeOps.find_network n (nid f)); [|by apply keeps_refl].
  destruct (negb _); [by apply keeps_refl|by apply keeps_push; [|apply Ha]].
Qed.

Lemma handle_frame_keeps n sender data : node_ok n -> safe (Vl2.handle_frame n sender data) (keeps n).
Proof.
  intros Hn. exact (frame_keeps n data FrameP.network_id (fun net f => FrameReceived (FrameP.network_id f)
    (Ethernet.derive_mac sender (FrameP.network_id f)) (Network.our_mac net (NodeOps.our_address n))
    (FrameP.ethertype f) (FrameP.payload f)) sender Hn (fun _ _ => I)).
Qed.

Lemma handle_ext_frame_keeps n sender data : node_ok n -> safe (Vl2.handle_ext_frame n sender data) (keeps n).
Proof.
  intros Hn. exact (frame_keeps n data ExtFrameP.network_id (fun _ f => FrameReceived (ExtFrameP.network_id f) (ExtFrameP.src_mac f)
    (ExtFrameP.dest_mac f) (ExtFrameP.ethertype f) (ExtFrameP.payload f)) sender Hn (fun _ _ => I)).
Qed.

Lemma handle_multicast_frame_keeps n sender data : node_ok n -> safe (Vl2.handle_multicast_frame n sender data) (keeps n).
Proof.
  intros Hn. exact (frame_keeps n data MFrameP.network_id (fun _ f => FrameReceived (MFrameP.network_id f)
    (default (Ethernet.derive_mac sender (MFrameP.network_id f)) (MFrameP.source_mac f))
    (MFrameP.dest_mac f) (MFrameP.ethertype f) (MFrameP.payload f)) sender Hn (fun _ _ => I)).
Qed.

Lemma multicast_like_keeps n sender data now : node_ok n -> len sender = 5 ->
  keeps n (Vl2.handle_multicast_like n sender data now).
Proof.
  intros Hn Hs. unfold Vl2.handle_multicast_like. apply keeps_multicast; [done|]. unfold Multicast.handle_multicast_like.
  pose proof (node_multicast _ Hn) as Hm0. pose proof (LikeP.like_deserialize_total data) as Hl.
  destruct (LikeP.deserialize data) as [like| | |]; [|done..]. cbn in Hl. apply multicast_fold; [done|].
  intros m nid _ Hm. unfold Multicast.replace_subscriptions. apply multicast_fold; [by apply retain_multicast|].
  intros m' g [_ Hg]%list_elem_of_filter Hm'. apply subscribe_multicast; [done| |done].
  exact (proj1 (Forall_forall _ _) Hl g Hg).
Qed.

Lemma get_subscribers_len m nid mac adi limit : subscribers_ok m ->
  Forall (fun a => len a = 5) (Multicast.get_subscribers m nid mac adi limit).
Proof.
  intros Hm. unfold Multicast.get_subscribers. destruct (Assoc.lookup _ _) as [subs|] eqn:E; [|constructor].
  apply Assoc.lookup_elem in E. unfold subscribers_ok in Hm. rewrite Forall_forall in Hm. specialize (Hm _ E). simpl in Hm.
  apply Forall_map. by apply Forall_take.
Qed.

Lemma concat_len (l : list bytes) : Forall (fun a => len a = 5) l -> len (concat l) = len l * 5.
Proof.
  induction 1 as [|x l Hx _ IH]; [done|]. simpl. rewrite len_app, len_cons, IH, Hx. lia.
Qed.

Lemma multicast_gather_keeps n sender data from pid : node_ok n -> len sender = 5 -> u64_ok pid ->
  safe (Vl2.handle_multicast_gather n sender data from pid) (keeps n).
Proof.
  intros Hn Hs Hp. unfold Vl2.handle_multicast_gather. apply wp_bind.
  eapply wp_attempt; [apply (@pc_total _ GatherP.codec)| |by apply keeps_refl]. intros g _. cbv zeta.
  set (subs := Multicast.get_subscribers _ _ _ _ _).
  assert (Forall (fun a => len a = 5) subs) as Hsubs by apply get_subscribers_len, Hn.
  set (ok := OkP.mk _ _ _). assert (OkP.shape ok) as Hok by done. pose proof (len_nonneg subs).
  rewrite (Vl2.serialized_emits _ (OkP.encode ok)).
  2: { by apply OkP.okmsg_serialize_emits. }
  2: { unfold OkP.encode, ok. cbn [OkP.encode_sub OkP.sub_payload OkP.in_re_packet_id].
       rewrite !len_app, concat_len by done. len_lia. }
  rewrite rbind_ok. destruct (NodeOps.shared_secret_for_peer n sender) as [ss|] eqn:Es; [|by apply keeps_refl].
  pose proof (shared_secret_len _ _ _ Hn Es) as Hss. cbn [NodeOps.allocate_packet_id]. set (n1 := with_next_packet_id n _).
  assert (keeps n n1) as H1 by by apply keeps_packet_id.
  destruct (Vl2.build_encrypted_sealed (nd_next_packet_id n) (NodeOps.our_address n1) sender VOk (OkP.encode ok) ss)
    as (q & -> & _); [lia|done|exact (our_address_len n Hn)|]. rewrite rbind_ok.
  eapply keeps_trans; [exact H1|(apply keeps_push; [apply H1|done])].
Qed.

(** ** The other verbs *)

Lemma handle_error_keeps n data : node_ok n -> safe (NodeVerbs.handle_error n data) (keeps n).
Proof.
  intros Hn. eapply handled_safe; [intros d; apply (@pc_total _ ErrorP.codec)|by apply keeps_refl|]. intros; by apply keeps_refl.
Qed.

Lemma handle_network_config_keeps n data : node_ok n -> safe (NodeVerbs.handle_network_config n data) (keeps n).
Proof.
  intros Hn. unfold NodeVerbs.handle_network_config. destruct (NodeVerbs.source_of data); [|by apply keeps_refl].
  eapply handled_safe; [apply NetConfP.netconf_deserialize_total|by apply keeps_refl|]. intros d nc Hw.
  apply wp_if; [by intros; apply keeps_refl|]. intros _. by apply configuration_keeps.
Qed.

Lemma handle_network_credentials_keeps n data : node_ok n -> safe (NodeVerbs.handle_network_credentials n data) (keeps n).
Proof.
  intros Hn. eapply handled_safe; [apply CredP.cred_deserialize_total|by apply keeps_refl|]. intros d creds _.
  destruct (CredP.com creds) as [com|]; [|by apply keeps_refl]. destruct (find _ _); [|by apply keeps_refl].
  by apply keeps_update_network.
Qed.

Lemma to_socket_ok a s : Inet.wf a -> Inet.to_socket_addr a = Some s -> sock_ok s.
Proof. destruct a; intros Hw [= <-]; exact Hw. Qed.

Lemma handle_rendezvous_keeps n data now : node_ok n -> u64_ok now -> safe (NodeVerbs.handle_rendezvous n data now) (keeps n).
Proof.
  intros Hn Hnow. eapply handled_safe; [intros d; apply (@pc_total _ RendezvousP.codec)|by apply keeps_refl|].
  intros d r [Hp Ha]. destruct (Inet.to_socket_addr _) as [target|] eqn:E; [|by apply keeps_refl].
  apply send_probe_keeps; try done. by eapply to_socket_ok.
Qed.

Lemma send_probes_keeps n a targets now : node_ok n -> len a = 5 -> Forall sock_ok targets -> u64_ok now ->
  safe (NodeVerbs.send_probes n a targets now) (keeps n).
Proof.
  intros Hn Ha Ht Hnow. revert n Hn. induction Ht as [|t targets Ht _ IH]; intros n Hn; [by apply keeps_refl|].
  cbn [NodeVerbs.send_probes]. apply wp_bind. eapply wp_mono; [by apply send_probe_keeps| |done]. intros n1 H1.
  eapply wp_mono; [apply IH, H1| |done]. intros n2 H2. by eapply keeps_trans.
Qed.

Lemma handle_push_direct_paths_keeps n data from now : node_ok n -> sock_ok from -> u64_ok now ->
  safe (NodeVerbs.handle_push_direct_paths n data from now) (keeps n).
Proof.
  intros Hn Hf Hnow. eapply handled_safe; [intros d; apply (@pc_total _ PushDirectP.codec)|by apply keeps_refl|].
  intros d push Hpush. destruct (NodeVerbs.source_of data) as [a|] eqn:Ea; [|by apply keeps_refl].
  destruct (NodeOps.get_peer n a) as [p|] eqn:Ep; [|by apply keeps_refl]. cbv zeta.
  set (q := PeerOps.add_path p from _ now). set (n1 := NodeOps.update_peer n a (fun _ => q)).
  assert (keeps n n1) as H1.
  { apply keeps_update_peer; [done|]. intros p' Hp' Hpo Hpa. rewrite Ep in Hp'. injection Hp' as <-.
    split_and!; [by apply peer_ok_add|done|by apply paths_ok_add]. }
  eapply wp_mono; [apply send_probes_keeps; [apply H1|by eapply source_of_len| |done]| |done].
  - apply Forall_take, Forall_forall. intros t [_ Ht]%list_elem_of_filter. apply list_elem_of_omap in Ht as (x & Hx & Ht).
    eapply to_socket_ok; [|exact Ht]. pose proof (Hpush : Forall PushDirectP.path_ok (PushDirectP.paths push)) as Hsh.
    rewrite Forall_forall in Hsh. by apply (Hsh x).
  - intros n2 H2. exact (keeps_trans _ _ _ H1 H2).
Qed.

(** ** Relaying *)

Lemma session_info_ok n a now ss phys : node_ok n -> NodeVerbs.session_info n a now = Some (ss, phys) ->
  len ss = 48 /\ sock_ok phys.
Proof.
  intros Hn. unfold NodeVerbs.session_info. destruct (NodeOps.get_peer n a) as [p|] eqn:Ep; [|done]. cbn [mbind option_bind].
  destruct (PeerOps.shared_secret p) as [s|] eqn:Es; [|done]. cbn [mbind option_bind].
  destruct (PeerOps.best_path p now) as [path|] eqn:Eb; [|done]. intros [= <- <-].
  pose proof (nk_paths _ Hn a p Ep) as Hp. unfold paths_ok in Hp. rewrite Forall_forall in Hp.
  apply (Topo.to_peers _ (nk_topology _ Hn)) in Ep as [_ Hpo]. apply PeerOps.best_path_Some in Eb as (Hin & _).
  split; [|by apply Hp]. unfold PeerOps.shared_secret in Es. pose proof (PeerOps.po_keys _ Hpo) as Hk.
  destruct (peer_state p); try done. injection Es as <-. apply Hk.
Qed.

Lemma build_rendezvous_fits n dest peer phys ss now : node_ok n -> len ss = 48 -> len dest = 5 -> len peer = 5 -> sock_ok phys ->
  wp (Root.build_rendezvous (nd_identity n) dest peer (Inet.from_socket_addr phys) ss now (replicate (Z.to_nat 128) (b8 0)))
    (fun '(l, buf) => 0 <= l <= len buf) (fun _ => True).
Proof.
  intros Hn Hss Hd Hp Hs. pose proof (our_address_len n Hn) as Ho.
  destruct (Root.build_rendezvous_sealed (nd_identity n) dest peer (Inet.from_socket_addr phys) ss now
    (replicate (Z.to_nat 128) (b8 0)) Hss Hd Ho) as [_ Hfit]; [done|]. destruct Hfit as (q & Hq & _); [done|].
  pose proof (fits_wp _ (fun l => l) _ _ _ _ Hq eq_refl) as Hw. by destruct (Root.build_rendezvous _ _ _ _ _ _ _) as [[l b]| | |].
Qed.

Lemma maybe_send_rendezvous_keeps n source dest now : node_ok n -> len source = 5 -> len dest = 5 ->
  safe (NodeVerbs.maybe_send_rendezvous n source dest now) (keeps n).
Proof.
  intros Hn Hs Hd. unfold NodeVerbs.maybe_send_rendezvous.
  destruct (NodeVerbs.session_info n source now) as [[s1 p1]|] eqn:E1; [|by apply keeps_refl].
  destruct (NodeVerbs.session_info n dest now) as [[s2 p2]|] eqn:E2; [|by apply keeps_refl].
  destruct (session_info_ok _ _ _ _ _ Hn E1) as [Hs1 Hp1], (session_info_ok _ _ _ _ _ Hn E2) as [Hs2 Hp2].
  apply wp_bind. eapply wp_mono; [apply send_built_keeps; [done|by apply build_rendezvous_fits]| |done].
  intros n1 H1. eapply wp_mono; [apply send_built_keeps; [apply H1|apply build_rendezvous_fits; [apply H1|done..]]| |done].
  intros n2 H2. exact (keeps_trans _ _ _ H1 H2).
Qed.

Lemma handle_relay_keeps n data now : node_ok n -> safe (NodeVerbs.handle_relay n data now) (keeps n).
Proof.
  intros Hn. unfold NodeVerbs.handle_relay. destruct (Armor.increment_hops data) as [d inc].
  apply wp_if; [by intros; apply keeps_refl|]. intros _. destruct (Header.from_bytes d) as [hdr|] eqn:Eh; [|by apply keeps_refl].
  unfold Header.from_bytes in Eh. destruct (28 <=? len d) eqn:E; [|done]. injection Eh as <-. cbv zeta. cbn [ph_dest].
  destruct (Switch.route _ _ _) as [addr|addr ?|]; [|by apply keeps_push|by apply keeps_refl].
  set (n1 := NodeOps.push_action n _). assert (keeps n n1) as H1 by by apply keeps_push.
  eapply wp_mono; [apply maybe_send_rendezvous_keeps; [apply H1|..]| |done].
  - unfold Header.source_address. simpl. rewrite len_take, len_drop. lia.
  - rewrite len_take, len_drop. lia.
  - intros n2 H2. exact (keeps_trans _ _ _ H1 H2).
Qed.

(** ** The replies with a bounded buffer *)

(** [q] is a packet with this verb and payload under the key [ss]: its addressee decrypts it. *)
Definition opens (ss q : bytes) (verb : Verb) (payload : bytes) : Prop :=
  len q = 28 + len payload /\
  exists h f m, len h = 18 /\ len m = 8 /\
    Armor.dearmor_packet ss q = Ok (Armor.frame h f m (VerbOps.to_byte verb :: payload)).

Lemma armor_opens ss h f verb payload : 32 <= len ss -> len h = 18 -> Armor.suite_of f = 1 ->
  exists q, Armor.armor_packet ss (Armor.frame h f Root.no_mac (VerbOps.to_byte verb :: payload)) true = Ok q /\
    opens ss q verb payload.
Proof.
  intros Hss Hh Hf. pose proof (len_nonneg payload).
  assert (len (VerbOps.to_byte verb :: payload) = 1 + len payload) as Hb by len_lia.
  destruct (Root.armor_body ss h f (VerbOps.to_byte verb :: payload)) as (mac & c & Hm & Hc & Ha & Hd); [lia..|].
  rewrite Hf in Ha. eexists. split; [exact Ha|]. split; [rewrite Armor.len_frame; lia|]. by exists h, f, mac.
Qed.

(** A reply written into a zeroed buffer: it panics exactly when the buffer is too short. *)
Lemma write_ok_run pid dest source flags ok ss size : len dest = 5 -> len source = 5 -> OkP.shape ok -> len ss = 48 ->
  Armor.suite_of (b8 flags) = 1 -> 28 <= size ->
  exists q, opens ss q VOk (OkP.encode ok) /\
    NodeVerbs.write_ok pid dest source flags ok ss (replicate (Z.to_nat size) (b8 0)) =
      if len q <=? size then Ok (len q, q ++ drop (length q) (replicate (Z.to_nat size) (b8 0))) else Panic.
Proof.
  intros Hd Hs Hok Hss Hf Hsize. pose proof (len_nonneg (OkP.encode ok)).
  set (buf := replicate (Z.to_nat size) (b8 0)). assert (len buf = size) as Hb by (unfold buf; rewrite len_replicate; lia).
  pose proof (Root.len_route pid dest source Hd Hs) as Hr. assert (len Root.no_mac = 8) as Hm by done.
  pose proof (Root.packet_emits pid dest source flags VOk _ _ _ Hd Hs (OkP.okmsg_serialize_emits ok Hok)) as He.
  set (h := Root.route_bytes pid dest source) in *.
  destruct (armor_opens ss h (b8 flags) VOk (OkP.encode ok)) as (q & Hq & Ho); [lia|done..|].
  set (p := Armor.frame _ _ _ _) in *.
  assert (len p = 28 + len (OkP.encode ok)) as Hp by (unfold p; rewrite Armor.len_frame; len_lia).
  exists q. split; [exact Ho|]. destruct Ho as [Hlq _]. pose proof (emits_run _ _ _ buf He) as Hrun. rewrite Hb in Hrun.
  pose proof (emits_ok _ _ _ buf (Root.header_emits pid dest source flags VOk Hd Hs)) as Hh.
  rewrite !len_app, Hm in Hh. change (len [b8 flags]) with 1 in Hh. change (len [VerbOps.to_byte VOk]) with 1 in Hh.
  specialize (Hh ltac:(fold h; lia)).
  unfold NodeVerbs.write_ok. rewrite (Root.wbind_ok _ _ _ _ _ Hh). rewrite (Root.wbind_ok _ _ _ _ _ Hh) in Hrun.
  unfold wbind at 1. rewrite Hrun. rewrite Hp, <- Hlq. destruct (len q <=? size) eqn:E; [|done].
  unfold wbind at 1. rewrite Root.on_head_run by lia. rewrite Hq. simpl map_err. rewrite rbind_ok.
  unfold wret. rewrite <- Hlq. do 4 f_equal. unfold len in *. lia.
Qed.

Lemma send_reply n pid dest source flags ok ss size to : len dest = 5 -> len source = 5 -> OkP.shape ok -> len ss = 48 ->
  Armor.suite_of (b8 flags) = 1 -> 28 <= size ->
  exists q, opens ss q VOk (OkP.encode ok) /\
    NodeVerbs.send_built n (NodeVerbs.write_ok pid dest source flags ok ss) size to =
      if len q <=? size then Ok (NodeOps.push_action n (SendTo q to)) else Panic.
Proof.
  intros Hd Hs Hok Hss Hf Hsize. destruct (write_ok_run pid dest source flags ok ss size Hd Hs Hok Hss Hf Hsize) as (q & Hq & Hrun).
  exists q. split; [done|]. unfold NodeVerbs.send_built. rewrite Hrun. destruct (len q <=? size); [|done].
  cbn [attempt]. rewrite rbind_ok, slice_here, rbind_ok by done. done.
Qed.

Lemma payload_at {E} data : 28 < len data -> slice_from data 28 = @Ok E _ (drop 28 data).
Proof.
  intros Hl. unfold slice_from, slice. rewrite if_true by lia. f_equal. rewrite take_ge; [done|].
  rewrite length_drop. unfold len. lia.
Qed.

(** What an ECHO is answered with. *)
Definition echo_reply (pid : Z) (payload : bytes) : OkP.t := OkP.mk Echo pid (OkP.SubGeneric payload).

Lemma echo_run n data from pid a ss : node_ok n -> u64_ok pid -> 28 < len data -> NodeVerbs.source_of data = Some a ->
  is_some (id_secret (nd_identity n)) = true -> NodeOps.shared_secret_for_peer n a = Some ss ->
  let payload := drop 28 data in
  exists q, opens ss q VOk (OkP.encode (echo_reply pid payload)) /\
    NodeVerbs.handle_echo n data from pid =
      if len payload <=? 2011 then Ok (NodeOps.push_action (NodeOps.allocate_packet_id n).2 (SendTo q from)) else Panic.
Proof.
  intros Hn Hp E Ea Hsec Es payload. unfold NodeVerbs.handle_echo. rewrite if_true by lia.
  rewrite payload_at by lia. fold payload.
  rewrite rbind_ok, Ea. destruct (id_secret (nd_identity n)); [|done]. rewrite Es. cbn [NodeOps.allocate_packet_id snd].
  set (n1 := with_next_packet_id n _). assert (OkP.shape (echo_reply pid payload)) as Hok by done.
  destruct (send_reply n1 (nd_next_packet_id n) a (NodeOps.our_address n1)
    (Z.lor (Z.shiftl CIPHER_SUITE_C25519_POLY1305_SALSA2012 3) 1) (echo_reply pid payload) ss 2048 from) as (q & Hq & Hrun);
    [by eapply source_of_len|exact (our_address_len n Hn)|done|by eapply shared_secret_len|done..|].
  exists q. split; [exact Hq|]. etransitivity; [exact Hrun|]. destruct Hq as [-> _].
  assert (len (OkP.encode (echo_reply pid payload)) = 9 + len payload) as -> by (unfold OkP.encode; cbn; len_lia).
  by replace (28 + (9 + len payload) <=? 2048) with (len payload <=? 2011) by lia.
Qed.

(** The answer to a packet does not fit its 2048 bytes: the peer can be answered, and an ECHO
    brings more than 2011 bytes, or a WHOIS names more than 28 identities we know. *)
Definition answer_too_long (n : Node) (packet : bytes) (verb : option Verb) : Prop :=
  let source := take 5 (drop 13 packet) in
  is_some (NodeOps.shared_secret_for_peer n source) = true /\
  match verb with
  | Some Echo => is_some (id_secret (nd_identity n)) = true /\ 2039 < len packet
  | Some Whois =>
      is_some (NodeOps.get_peer n source) = true /\ 28 < len packet /\
      exists w known unknown, WhoisP.deserialize_request (drop 28 packet) = Ok w /\
        NodeVerbs.whois_lookups n (WhoisP.addresses w) = Ok (known, unknown) /\ 28 < len known
  | _ => False
  end.

(** A handler that answers: it panics exactly if [pan]. *)
Definition replies (pan : Prop) (n : Node) (m : step Node) : Prop :=
  (m = Panic /\ pan) \/ exists n', m = Ok n' /\ keeps n n'.

Lemma safe_replies pan n m : safe m (keeps n) -> replies pan n m.
Proof. intros Hm. right. by apply step_ok. Qed.

Lemma source_of_packet data : 28 <= len data -> NodeVerbs.source_of data = Some (take 5 (drop 13 data)).
Proof. intros Hl. unfold NodeVerbs.source_of, Header.from_bytes. by rewrite if_true by lia. Qed.

Lemma echo_overruns n data from pid : node_ok n -> u64_ok pid -> answer_too_long n data (Some Echo) ->
  NodeVerbs.handle_echo n data from pid = Panic.
Proof.
  intros Hn Hp (Hss & Hsec & Hl). destruct (NodeOps.shared_secret_for_peer _ _) as [ss|] eqn:Es; [|done].
  destruct (echo_run n data from pid _ ss Hn Hp ltac:(lia) (source_of_packet data ltac:(lia)) Hsec Es) as (q & _ & ->).
  rewrite len_drop. change (Z.of_nat 28) with 28. by rewrite if_false by lia.
Qed.

Lemma echo_replies n data from pid : node_ok n -> u64_ok pid ->
  replies (answer_too_long n data (Some Echo)) n (NodeVerbs.handle_echo n data from pid).
Proof.
  intros Hn Hp. destruct (28 <? len data) eqn:E;
    [|unfold NodeVerbs.handle_echo; rewrite if_false by lia; apply safe_replies; by apply keeps_refl].
  pose proof (source_of_packet data ltac:(lia)) as Ea.
  destruct (is_some (id_secret (nd_identity n))) eqn:Hsec, (NodeOps.shared_secret_for_peer n (take 5 (drop 13 data))) as [ss|] eqn:Es.
  { destruct (echo_run n data from pid _ ss Hn Hp ltac:(lia) Ea Hsec Es) as (q & _ & ->).
    rewrite len_drop. change (Z.of_nat 28) with 28. destruct (Z.max 0 (len data - 28) <=? 2011) eqn:El.
    - right. eexists. split; [done|].
      eapply keeps_trans; [by apply keeps_packet_id|apply keeps_push; by apply (keeps_packet_id n)].
    - left. split; [done|]. unfold answer_too_long. rewrite Es. split_and!; [done|done|lia]. }
  all: apply safe_replies; unfold NodeVerbs.handle_echo; rewrite E; apply wp_bind, wp_slice_from; [lia|]; intros d _;
    rewrite Ea, ?Es; repeat case_match; try done; by apply keeps_refl.
Qed.

Lemma ident_wf_shape id : Ident.wf id -> Ident.shape id.
Proof. by intros ((? & _) & ? & ? & _). Qed.

Lemma whois_lookups_safe n addrs : node_ok n ->
  safe (NodeVerbs.whois_lookups n addrs) (fun '(known, unknown) => Forall Ident.shape known /\ forall a, a ∈ unknown -> a ∈ addrs).
Proof.
  intros Hn. induction addrs as [|a addrs IH]; [by split; [constructor|]|]. cbn [NodeVerbs.whois_lookups]. apply wp_bind.
  eapply (wp_mono _ (fun o => match o with Some (Some id) => Ident.shape id | _ => True end) _ (fun _ => True)); [| |done].
  - unfold NodeVerbs.whois_lookup. apply wp_if; [intros _|intros _].
    + apply wp_ret. by apply Ident.public_wf_shape, nk_identity.
    + destruct (NodeOps.get_peer n a); [|done]. apply wp_bind.
      eapply wp_attempt; [apply Ident.ident_parse_total| |done]. intros id Hid. by apply wp_ret, ident_wf_shape.
  - intros o Ho. apply wp_bind. eapply wp_mono; [exact IH| |done]. intros [known unknown] [Hk Hu].
    destruct o as [[id|]|]; apply wp_ret; split; try done; try (by constructor); intros b; rewrite ?elem_of_cons; naive_solver.
Qed.

(** What is passed on of a WHOIS. *)
Definition whois_pass (n : Node) (unknown : list bytes) : Node :=
  match unknown with [] => n | _ => NodeOps.push_action n (WhoisNeeded unknown) end.

Definition whois_reply (data : bytes) (known : list Identity) : OkP.t := OkP.mk Whois (from_be (take 8 data)) (OkP.SubWhois known).

Lemma len_whois_reply data known : Forall Ident.shape known -> len (OkP.encode (whois_reply data known)) = 9 + 71 * len known.
Proof.
  intros Hk. unfold OkP.encode, whois_reply. cbn [OkP.in_re_verb OkP.in_re_packet_id OkP.sub_payload OkP.encode_sub].
  assert (len (WhoisP.encode_ids known) = 71 * len known) as Hl.
  { unfold WhoisP.encode_ids. induction Hk as [|id known Hid _ IH]; [done|]. simpl. rewrite len_app, IH, Ident.ident_len_encode by done.
    rewrite len_cons. lia. }
  rewrite !len_app, Hl, len_to_be. change (len [VerbOps.to_byte Whois]) with 1. lia.
Qed.

Lemma whois_run n data from now w known unknown ss : node_ok n -> 28 < len data ->
  WhoisP.deserialize_request (drop 28 data) = Ok w -> NodeVerbs.whois_lookups n (WhoisP.addresses w) = Ok (known, unknown) ->
  known <> [] -> is_some (NodeOps.get_peer n (take 5 (drop 13 data))) = true ->
  NodeOps.shared_secret_for_peer n (take 5 (drop 13 data)) = Some ss ->
  exists q, opens ss q VOk (OkP.encode (whois_reply data known)) /\
    NodeVerbs.handle_whois n data from now =
      if len known <=? 28 then Ok (whois_pass (NodeOps.push_action n (SendTo q from)) unknown) else Panic.
Proof.
  intros Hn E Hw Hl Hne Hp Es. pose proof (whois_lookups_safe n (WhoisP.addresses w) Hn) as Hk. rewrite Hl in Hk.
  destruct Hk as [Hk _]. unfold NodeVerbs.handle_whois, NodeVerbs.parsed. rewrite if_true by lia.
  rewrite payload_at, rbind_ok, Hw by lia. cbn [attempt]. rewrite rbind_ok. cbv zeta. rewrite Hl, rbind_ok, Es.
  destruct (NodeOps.get_peer n _); [|done]. destruct known as [|id known]; [done|]. fold (whois_reply data (id :: known)).
  assert (OkP.shape (whois_reply data (id :: known))) as Hok
    by (split; [cbn; apply from_be_u64_ok; rewrite len_take; lia|done]).
  destruct (send_reply n now (take 5 (drop 13 data)) (NodeOps.our_address n)
    (Z.shiftl CIPHER_SUITE_C25519_POLY1305_SALSA2012 3) (whois_reply data (id :: known)) ss 2048 from) as (q & Hq & ->);
    [rewrite len_take, len_drop; lia|exact (our_address_len n Hn)|done|by eapply shared_secret_len|done..|].
  exists q. split; [exact Hq|]. destruct Hq as [-> _]. rewrite len_whois_reply by done.
  replace (28 + (9 + 71 * len (id :: known)) <=? 2048) with (len (id :: known) <=? 28) by lia. by destruct (_ <=? 28).
Qed.

Lemma whois_overruns n data from now : node_ok n -> answer_too_long n data (Some Whois) ->
  NodeVerbs.handle_whois n data from now = Panic.
Proof.
  intros Hn (Hss & Hp & E & w & known & unknown & Hw & Hk & Hl). destruct (NodeOps.shared_secret_for_peer _ _) as [ss|] eqn:Es; [|done].
  assert (known <> []) as Hne by (intros ->; len_lia).
  destruct (whois_run n data from now w known unknown ss Hn E Hw Hk Hne Hp Es) as (q & _ & ->). by rewrite if_false by lia.
Qed.

Lemma whois_replies n data from now : node_ok n ->
  replies (answer_too_long n data (Some Whois)) n (NodeVerbs.handle_whois n data from now).
Proof.
  intros Hn. destruct (28 <? len data) eqn:E;
    [|unfold NodeVerbs.handle_whois, NodeVerbs.parsed; rewrite if_false by lia; apply safe_replies; by apply keeps_refl].
  pose proof (payload_at (E := Empty_set) data ltac:(lia)) as Hsl.
  pose proof (@pc_total _ WhoisP.request_codec (drop 28 data)) as Hw. cbn in Hw.
  unfold NodeVerbs.handle_whois, NodeVerbs.parsed. rewrite E, Hsl, rbind_ok.
  destruct (WhoisP.deserialize_request (drop 28 data)) as [w|e| |] eqn:Ew; try done; cbn [attempt]; rewrite rbind_ok;
    [|apply safe_replies; by apply keeps_refl].
  destruct (step_ok _ _ (whois_lookups_safe n (WhoisP.addresses w) Hn)) as ([known unknown] & Hl & Hk & Hu).
  assert (forall n', keeps n n' -> replies (answer_too_long n data (Some Whois)) n (Ok (whois_pass n' unknown))) as Hpass.
  { intros n' H'. right. eexists. split; [done|]. destruct unknown; [done|].
    eapply keeps_trans; [exact H'|apply keeps_push; [apply H'|]]. apply Forall_forall. intros b Hb.
    exact (proj1 (Forall_forall _ _) Hw b (Hu b Hb)). }
  pose proof (whois_run n data from now w known unknown) as Hrun.
  unfold NodeVerbs.handle_whois, NodeVerbs.parsed in Hrun. rewrite E, Hsl, rbind_ok, Ew in Hrun. cbn [attempt] in Hrun.
  rewrite rbind_ok in Hrun. cbv zeta in *. rewrite Hl, rbind_ok in *.
  destruct known as [|id known]; [by apply Hpass, keeps_refl|].
  destruct (NodeOps.get_peer n _) eqn:Egp; [|by apply Hpass, keeps_refl].
  destruct (NodeOps.shared_secret_for_peer n _) as [ss|] eqn:Es; [|by apply Hpass, keeps_refl].
  destruct (Hrun ss) as (q & _ & ->); [done|lia|done..|]. destruct (_ <=? 28) eqn:El; [by apply Hpass, keeps_push|].
  left. split; [done|]. unfold answer_too_long. rewrite Es, Egp. split_and!; [done|done|lia|].
  exists w, (id :: known), unknown. split_and!; [done|done|lia].
Qed.
(** ** The claim *)

(** C14. Bounded answers: an ECHO or a WHOIS from a peer with a session is answered with an OK the
    peer decrypts - the payload echoed back, the identities known of - as long as the answer fits
    a 2048-byte buffer: up to 2011 bytes of payload, up to 28 identities. One more, which an
    authenticated peer is free to send, and the handler panics. *)
Theorem answers_overrun (n : Node) (data : bytes) (from : SocketAddr) (now_ms pid : Z) (ss : bytes) :
  let source := take 5 (drop 13 data) in
  node_ok n -> u64_ok pid -> 28 < len data -> is_some (id_secret (nd_identity n)) = true ->
  is_some (NodeOps.get_peer n source) = true -> NodeOps.shared_secret_for_peer n source = Some ss ->
  (exists q, opens ss q VOk (OkP.encode (echo_reply pid (drop 28 data))) /\
     NodeVerbs.handle_echo n data from pid =
       if len data <=? 2039 then Ok (NodeOps.push_action (NodeOps.allocate_packet_id n).2 (SendTo q from)) else Panic) /\
  forall w known unknown, WhoisP.deserialize_request (drop 28 data) = Ok w ->
    NodeVerbs.whois_lookups n (WhoisP.addresses w) = Ok (known, unknown) -> known <> [] ->
    exists q, opens ss q VOk (OkP.encode (whois_reply data known)) /\
      NodeVerbs.handle_whois n data from now_ms =
        if len known <=? 28 then Ok (whois_pass (NodeOps.push_action n (SendTo q from)) unknown) else Panic.
Proof.
  intros source Hn Hp Hl Hsec Hpeer Hss.
  pose proof (source_of_packet data ltac:(lia)) as Hsrc. fold source in Hsrc.
  split.
  - destruct (echo_run n data from pid source ss) as (q & Hq & Hrun); [done..|]. exists q. split; [exact Hq|].
    rewrite Hrun. cbv zeta. rewrite len_drop. change (Z.of_nat 28) with 28.
    by replace (Z.max 0 (len data - 28) <=? 2011) with (len data <=? 2039) by lia.
  - intros w known unknown Hw Hk Hne. by apply (whois_run n data from now_ms w).
Qed.

End NodeInv.
End NodeInv.
