(* ===== verification/NodeTotal.v ===== *)
(** * NodeTotal: [receive_packet] ends. Its recursion - through packets put together from
    fragments and packets replayed once their sender is known - consumes what the node holds
    back, so that the bytes held back bound its depth; on the way the invariant is kept. *)
From S2P Require Export NodeInv.

Module NodeTotal.

(** ** The bytes a node holds back *)

Definition slot_bytes (s : FragmentSlot) : nat := sum_list (map (fun f => length (default [] f)) (fs_fragments s)).
Definition stored (m : gmap Z FragmentSlot) : nat := map_fold (fun _ s acc => slot_bytes s + acc)%nat 0%nat m.
Definition queued (l : list PendingEncryptedPacket) : nat := sum_list (map (fun p => length (pp_data p)) l).
Definition weight (n : Node) : nat := (stored (rb_pending (nd_reassembly n)) + queued (nd_packets n))%nat.

Lemma stored_insert m i s : m !! i = None -> stored (<[i := s]> m) = (slot_bytes s + stored m)%nat.
Proof. intros Hi. unfold stored. rewrite map_fold_insert_L; [done| |done]. intros; lia. Qed.

Lemma stored_delete m i s : m !! i = Some s -> stored m = (slot_bytes s + stored (delete i m))%nat.
Proof. intros Hi. rewrite <- (insert_delete_id m i s Hi) at 1. by rewrite stored_insert by apply lookup_delete_eq. Qed.

Lemma stored_delete_le m i : (stored (delete i m) <= stored m)%nat.
Proof.
  destruct (m !! i) as [s|] eqn:E; [rewrite (stored_delete m i s E); lia|]. by rewrite delete_id.
Qed.

Lemma evict_stored b id : (stored (Fragment.evict_for b id) <= stored (rb_pending b))%nat.
Proof.
  unfold Fragment.evict_for. destruct (_ && _); [|done]. destruct (min_by_key _ _) as [[oldest s]|]; [apply stored_delete_le|done].
Qed.

Lemma assemble_bytes frs total :
  (length (Fragment.assemble frs total) <= sum_list (map (fun f => length (default [] f)) frs))%nat.
Proof.
  revert total. induction frs as [|f frs IH]; intros [|total]; simpl; try lia. rewrite length_app. specialize (IH total). lia.
Qed.

Lemma insert_bytes (l : list (option bytes)) i d : l !! i = Some None ->
  sum_list (map (fun f => length (default [] f)) (<[i := Some d]> l)) =
  (sum_list (map (fun f => length (default [] f)) l) + length d)%nat.
Proof.
  revert i. induction l as [|x l IH]; intros [|i] H; simplify_eq/=; [lia|]. rewrite (IH i H). lia.
Qed.

Lemma store_bytes s i d : (slot_bytes (Fragment.store s i d) <= slot_bytes s + length d)%nat.
Proof.
  unfold Fragment.store, slot_bytes. destruct (fs_fragments s !! i) as [[|]|] eqn:E; simpl; try lia.
  rewrite insert_bytes by done. lia.
Qed.

(** A fragment put in: what is stored afterwards and what comes out. *)
Lemma insert_weight b id n t d now : Fragment.buffer_ok b -> 0 <= n ->
  exists b' o, Fragment.insert b id n t d now = Ok (b', o) /\ Fragment.buffer_ok b' /\
    (stored (rb_pending b') + length (default [] o) <= stored (rb_pending b) + length d)%nat.
Proof.
  intros Hb Hn. destruct (Fragment.insert_preserves_ok b id n t d now Hb Hn) as (b' & o & Hi & Hok & _).
  exists b', o. split; [done|]. split; [done|]. rewrite Fragment.insert_spec in Hi by done.
  destruct (_ || _); [injection Hi as <- <-; simpl; lia|]. cbv zeta in Hi.
  pose proof (evict_stored b id) as He. set (p := Fragment.evict_for b id) in *.
  set (s0 := default (Fragment.fresh t now) (p !! id)) in *. set (s := Fragment.store s0 _ d) in *.
  assert (stored p = slot_bytes s0 + stored (delete id p))%nat as Hp.
  { unfold s0. destruct (p !! id) as [s1|] eqn:E; simpl; [by apply stored_delete|].
    by rewrite delete_id. }
  pose proof (store_bytes s0 (Z.to_nat n) d) as Hs. fold s in Hs.
  destruct (_ <=? _); injection Hi as <- <-; simpl.
  - pose proof (assemble_bytes (fs_fragments s) (Z.to_nat (fs_total_expected s))) as Ha. unfold slot_bytes in *. lia.
  - rewrite <- (insert_delete_eq p id s), stored_insert by apply lookup_delete_eq. lia.
Qed.

Lemma receive_weight b data now : Fragment.buffer_ok b ->
  safe (Fragment.receive_fragment b data now) (fun '(b', o) => Fragment.buffer_ok b' /\
    match o with
    | None => (stored (rb_pending b') <= stored (rb_pending b) + length data)%nat
    | Some p => (stored (rb_pending b') + length p < stored (rb_pending b) + length data)%nat
    end).
Proof.
  intros Hb. unfold Fragment.receive_fragment. destruct (Header.frag_from_bytes data) as [h|]; [|split; [done|lia]].
  apply wp_if; intros E; [|split; [done|lia]]. apply wp_bind, wp_slice_from; [lia|]. intros payload Hl.
  assert (0 <= Header.fragment_number h) as Hn.
  { unfold Header.fragment_number. apply Z.land_nonneg. by right. }
  destruct (insert_weight b (Header.packet_id_u64 h) _ (Header.total_fragments h) payload now Hb Hn) as (b' & o & -> & Hok & Hw).
  split; [done|]. unfold len in *. destruct o; simpl in *; lia.
Qed.

(** ** The queue *)

Lemma queued_app l1 l2 : queued (l1 ++ l2) = (queued l1 + queued l2)%nat.
Proof. unfold queued. induction l1 as [|x l1 IH]; simpl; lia. Qed.

Lemma queued_filter (Q : PendingEncryptedPacket -> Prop) `{forall x, Decision (Q x)} l :
  (queued (filter Q l) + queued (filter (fun x => ~ Q x) l) = queued l)%nat.
Proof.
  unfold queued. induction l as [|x l IH]; [done|]. rewrite !filter_cons.
  destruct (decide (Q x)), (decide (~ Q x)); try tauto; simpl; lia.
Qed.

Lemma queued_filter_le (Q : PendingEncryptedPacket -> Prop) `{forall x, Decision (Q x)} l : (queued (filter Q l) <= queued l)%nat.
Proof. pose proof (queued_filter Q l). lia. Qed.

Lemma queued_drop k l : (queued (drop k l) <= queued l)%nat.
Proof. revert k. unfold queued. induction l as [|x l IH]; intros [|k]; simpl; try lia. specialize (IH k). lia. Qed.

Lemma queue_packet_weight n source from pid now data :
  (weight (NodeOps.queue_pending_encrypted_packet n source from pid now data) <= weight n + length data)%nat.
Proof.
  unfold weight, NodeOps.queue_pending_encrypted_packet. cbv zeta. set (live := filter _ (nd_packets n)).
  assert (queued live <= queued (nd_packets n))%nat as Hq by apply queued_filter_le.
  destruct (existsb _ _); [unfold with_packets; cbn [nd_packets nd_reassembly]; lia|]. unfold with_packets; cbn [nd_packets nd_reassembly]. rewrite queued_app. pose proof (queued_drop 1 live).
  destruct (_ <=? _); unfold queued in *; simpl in *; lia.
Qed.

Lemma take_pending_weight n source pending n' : NodeOps.take_pending n source = (pending, n') ->
  weight n = (queued pending + weight n')%nat.
Proof.
  intros [= <- <-]. pose proof (queued_filter (fun p => pp_source p = source) (nd_packets n)). unfold weight. simpl. lia.
Qed.

(** ** Runs *)

(** [runs pan m Q]: [m] ends, with a value that satisfies [Q] or, if [pan] says so, a panic. *)
Definition runs {A} (pan : Prop) (m : step A) (Q : A -> Prop) : Prop :=
  match m with Ok a => Q a | Panic => pan | Err _ | Hang => False end.

Lemma runs_bind {A B} pan (m : step A) (k : A -> step B) Q R :
  runs pan m R -> (forall a, R a -> runs pan (k a) Q) -> runs pan (rbind m k) Q.
Proof. destruct m; simpl; auto. Qed.

Lemma runs_mono {A} pan (m : step A) (Q R : A -> Prop) : runs pan m R -> (forall a, R a -> Q a) -> runs pan m Q.
Proof. destruct m; simpl; auto. Qed.

Lemma runs_safe {A} pan (m : step A) Q : safe m Q -> runs pan m Q.
Proof. by destruct m. Qed.

Lemma safe_runs {A} (m : step A) Q : runs False m Q -> safe m Q.
Proof. by destruct m. Qed.

(** [exactly pan m Q]: [m] ends, with a panic if [pan] holds and only then, and otherwise with a
    value that satisfies [Q]. *)
Definition exactly {A} (pan : Prop) (m : step A) (Q : A -> Prop) : Prop :=
  match m with Ok a => Q a /\ ~ pan | Panic => pan | Err _ | Hang => False end.

Lemma exactly_runs {A} pan (m : step A) Q : exactly pan m Q -> runs pan m Q.
Proof. destruct m; simpl; tauto. Qed.

Lemma exactly_panics {A} pan (m : step A) Q : exactly pan m Q -> (m = Panic <-> pan).
Proof. destruct m; simpl; try tauto; split; try done; tauto. Qed.

Lemma exactly_safe {A} (pan : Prop) (m : step A) Q : ~ pan -> safe m Q -> exactly pan m Q.
Proof. destruct m; simpl; tauto. Qed.

Lemma exactly_iff {A} (pan pan' : Prop) (m : step A) Q : (pan <-> pan') -> exactly pan m Q -> exactly pan' m Q.
Proof. destruct m; simpl; tauto. Qed.

Lemma exactly_mono {A} pan (m : step A) (Q R : A -> Prop) : exactly pan m R -> (forall a, R a -> Q a) -> exactly pan m Q.
Proof. destruct m; simpl; auto. intros [? ?]; auto. Qed.

(** A step that does not panic, before one that may. *)
Lemma exactly_after {A B} pan (m : step A) (k : A -> step B) Q R :
  safe m R -> (forall a, m = Ok a -> R a -> exactly pan (k a) Q) -> exactly pan (rbind m k) Q.
Proof. destruct m; simpl; auto; done. Qed.

(** Two that may: the first panics, or the second does where the first left off. *)
Lemma exactly_bind {A B} (pan : Prop) (q : A -> Prop) (m : step A) (k : A -> step B) Q R :
  exactly pan m R -> (forall a, m = Ok a -> R a -> exactly (q a) (k a) Q) ->
  exactly (pan \/ exists a, m = Ok a /\ q a) (rbind m k) Q.
Proof.
  destruct m as [a|[]| |]; simpl; [|by left|done]. intros [HR Hno] Hk. specialize (Hk a eq_refl HR).
  destruct (k a); simpl in *; [|done|by right; eauto|done]. destruct Hk as [? Hq]. split; [done|].
  intros [?|(b & [= <-] & ?)]; auto.
Qed.

Section NodeTotal.
Context {P : Prims} {L : PrimLaws P} {Z4 : Lz4}.

(** The node afterwards, holding back at most [w] bytes. *)
Definition settles (w : nat) (n n' : Node) : Prop :=
  NodeInv.node_ok n' /\ nd_identity n' = nd_identity n /\ (weight n' <= w)%nat.

Lemma settles_keeps w n n' : (weight n <= w)%nat -> NodeInv.keeps n n' -> settles w n n'.
Proof. intros Hw (? & ? & Hr & Hp). split_and!; [done..|]. unfold weight in *. by rewrite Hr, Hp. Qed.

Lemma settles_trans w w' n1 n2 n3 : settles w n1 n2 -> settles w' n2 n3 -> settles w' n1 n3.
Proof. intros (_ & H1 & _) (? & H2 & ?). split_and!; [done|by rewrite H2|done]. Qed.

Lemma exactly_replies pan w n m : (weight n <= w)%nat -> (pan -> m = Panic) -> NodeInv.replies pan n m ->
  exactly pan m (settles w n).
Proof.
  intros Hw Hp [[-> Hpan]|(n' & -> & Hk)]; [done|]. split; [by apply settles_keeps|]. intros H. by discriminate (Hp H).
Qed.

Lemma exactly_keeps (pan : Prop) w n m : ~ pan -> (weight n <= w)%nat -> safe m (NodeInv.keeps n) -> exactly pan m (settles w n).
Proof. intros Hp Hw Hm. apply exactly_safe; [done|]. eapply wp_mono; [exact Hm| |done]. intros a. by apply settles_keeps. Qed.

(** ** A handler, given a replay *)

Section Dispatch.
Context (w : nat) (replay : Node -> bytes -> Z -> step Node) (replay_overruns : Node -> bytes -> Z -> Prop).

(** The replay that follows a resolved identity overruns. *)
Definition resolved_overruns (n : Node) (id : Identity) (now_ms : Z) : Prop :=
  NodeVerbs.validated n id = Ok true /\
  exists n', NodeVerbs.whois_resolved (fun n _ _ => Ok n) n id now_ms = Ok n' /\ replay_overruns n' (id_address id) now_ms.

Fixpoint whois_overruns (n : Node) (ids : list Identity) (now_ms : Z) : Prop :=
  match ids with
  | [] => False
  | id :: ids => resolved_overruns n id now_ms \/
      exists n', NodeVerbs.whois_resolved replay n id now_ms = Ok n' /\ whois_overruns n' ids now_ms
  end.

(** A packet that overruns: its own answer is too long, or it is an OK(WHOIS) that releases one. *)
Definition dispatch_overruns (n : Node) (packet : bytes) (now_ms : Z) (verb : option Verb) : Prop :=
  NodeInv.answer_too_long n packet verb \/
  verb = Some VOk /\ 28 < len packet /\
  exists ok ids, OkP.deserialize (drop 28 packet) = Ok ok /\ OkP.sub_payload ok = OkP.SubWhois ids /\ whois_overruns n ids now_ms.

Hypothesis Hreplay : forall n a now, NodeInv.node_ok n -> (weight n <= w)%nat -> u64_ok now ->
  exactly (replay_overruns n a now) (replay n a now) (settles w n).

Lemma whois_resolved_exact n id now : NodeInv.node_ok n -> (weight n <= w)%nat -> Ident.wf id -> u64_ok now ->
  exactly (resolved_overruns n id now) (NodeVerbs.whois_resolved replay n id now) (settles w n).
Proof.
  intros Hn Hw Hid Hnow. unfold resolved_overruns, NodeVerbs.whois_resolved.
  eapply exactly_after; [apply NodeInv.validated_safe|]. intros valid Hv _. rewrite Hv, rbind_ok.
  destruct valid; [|by split; [apply settles_keeps, NodeInv.keeps_refl|intros [? _]]].
  cbv zeta. cbn [negb]. set (n1 := with_topology n _). assert (NodeInv.keeps n n1) as H1 by by apply NodeInv.keeps_add_peer, NodeInv.ident_address_len.
  set (n2 := with_topology n1 _). assert (NodeInv.keeps n n2) as H2.
  { eapply NodeInv.keeps_trans; [exact H1|]. destruct H1 as (Hk & _). apply NodeInv.keeps_topology; [done| |exact (NodeInv.nk_paths _ Hk)|apply NodeInv.ty_peers, NodeInv.nk_typed, Hk|done].
    by destruct (NodeInv.nk_topology _ Hk); split. }
  eapply exactly_after; [apply NodeInv.hello_via_roots_keeps; [apply H2|by apply NodeInv.ident_address_len|done]|].
  intros n3 E3 H3. rewrite E3, rbind_ok. pose proof (settles_keeps w n n3 Hw (NodeInv.keeps_trans _ _ _ H2 H3)) as Hs.
  apply (exactly_iff (replay_overruns n3 (id_address id) now)); [naive_solver|].
  eapply exactly_mono; [apply Hreplay; [apply Hs|apply Hs|done]|]. intros n4. by apply settles_trans with w.
Qed.

Lemma whois_all_exact n ids now : NodeInv.node_ok n -> (weight n <= w)%nat -> Forall Ident.wf ids -> u64_ok now ->
  exactly (whois_overruns n ids now) (NodeVerbs.whois_all replay n ids now) (settles w n).
Proof.
  intros Hn Hw Hids Hnow. revert n Hn Hw. induction Hids as [|id ids Hid Hids IH]; intros n Hn Hw;
    [by split; [apply settles_keeps, NodeInv.keeps_refl|intros []]|]. cbn [NodeVerbs.whois_all whois_overruns].
  eapply exactly_bind; [by apply whois_resolved_exact|]. intros n1 _ H1.
  eapply exactly_mono; [apply IH; apply H1|]. intros n2. by apply settles_trans with w.
Qed.

Lemma handle_ok_exact n data from now : NodeInv.node_ok n -> (weight n <= w)%nat -> sock_ok from -> u64_ok now ->
  exactly (dispatch_overruns n data now (Some VOk)) (NodeVerbs.handle_ok replay n data from now) (settles w n).
Proof.
  intros Hn Hw Hf Hnow. unfold NodeVerbs.handle_ok, NodeVerbs.parsed, dispatch_overruns.
  pose proof (settles_keeps w n n Hw (NodeInv.keeps_refl n Hn)) as Hsame.
  destruct (28 <? len data) eqn:E; [|by split; [|intros [[_ []]|(_ & ? & _)]; lia]].
  rewrite NodeInv.payload_at, rbind_ok by lia. pose proof (OkP.okmsg_deserialize_total (drop 28 data)) as Hp.
  destruct (OkP.deserialize (drop 28 data)) as [ok|e| |] eqn:Eok; [|by split; [|intros [[_ []]|(_ & _ & ? & ? & ? & _)]]|done..].
  cbn [attempt wp] in *. rewrite rbind_ok. destruct Hp as [_ Hp].
  destruct (OkP.sub_payload ok) as [echo ? ? ? ? ?|ids|sub] eqn:Es.
  - apply exactly_keeps; [|done|by apply NodeInv.ok_hello_keeps]. intros [[_ []]|(_ & _ & ? & ? & [= <-] & ? & _)]. congruence.
  - apply (exactly_iff (whois_overruns n ids now)).
    + split; [intros Hov; right; split_and!; [done|lia|by exists ok, ids]|]. intros [[_ []]|(_ & _ & ? & ids' & [= <-] & Hi & Hov)]. congruence.
    + assert (Forall Ident.public_wf ids) as Hpw by by destruct (OkP.in_re_verb ok).
      apply whois_all_exact; [done..| |done]. eapply Forall_impl; [exact Hpw|]. by intros id [? _].
  - apply exactly_keeps; [|done|]. { intros [[_ []]|(_ & _ & ? & ? & [= <-] & ? & _)]. congruence. }
    destruct (bool_decide _); [by apply NodeInv.gather_ok_keeps|].
    destruct (bool_decide _); [|by apply NodeInv.keeps_refl]. apply wp_bind.
    eapply (wp_attempt _ NetConfP.wf (fun _ => True)); [apply NetConfP.netconf_deserialize_total| |by intros; apply NodeInv.keeps_refl].
    intros nc Hnc. by apply NodeInv.configuration_keeps.
Qed.

Lemma emit_keeps {F A} n (r : res F A) (Q : A -> Prop) action : NodeInv.node_ok n -> safe r Q ->
  (forall a, Q a -> action_ok (action a)) -> safe (NodeReceive.emit n r action) (NodeInv.keeps n).
Proof.
  intros Hn Hr Ha. unfold NodeReceive.emit. apply wp_bind. eapply wp_attempt; [exact Hr| |by apply NodeInv.keeps_refl].
  intros a HQ. apply NodeInv.keeps_push; [done|by apply Ha].
Qed.

Lemma dispatch_exact n source packet payload from now pid verb :
  NodeInv.node_ok n -> (weight n <= w)%nat -> len source = 5 -> sock_ok from -> u64_ok now -> u64_ok pid ->
  exactly (dispatch_overruns n packet now verb) (NodeReceive.dispatch replay n source packet payload from now pid verb) (settles w n).
Proof.
  intros Hn Hw Hs Hf Hnow Hpid. pose proof (NodeInv.keeps_refl n Hn) as Hr.
  destruct (decide (verb = Some VOk)) as [->|Hok]; [by apply handle_ok_exact|].
  apply (exactly_iff (NodeInv.answer_too_long n packet verb)); [unfold dispatch_overruns; tauto|].
  destruct verb as [[]|]; cbn [NodeReceive.dispatch]; try done;
    try (apply exactly_replies; [done|by intros; first [apply NodeInv.whois_overruns|apply NodeInv.echo_overruns]|by first [apply NodeInv.whois_replies|apply NodeInv.echo_replies]]);
    (apply exactly_keeps; [by intros [_ []]|exact Hw|]); try exact Hr.
  - by apply NodeInv.handle_hello_keeps.
  - by apply NodeInv.handle_error_keeps.
  - by apply NodeInv.handle_rendezvous_keeps.
  - by apply NodeInv.handle_frame_keeps.
  - by apply NodeInv.handle_ext_frame_keeps.
  - by apply NodeInv.multicast_like_keeps.
  - by apply NodeInv.handle_network_credentials_keeps.
  - eapply emit_keeps; [done|apply (@pc_total _ NcrP.codec)|]. by intros req Hreq.
  - by apply NodeInv.handle_network_config_keeps.
  - by apply NodeInv.multicast_gather_keeps.
  - by apply NodeInv.handle_multicast_frame_keeps.
  - by apply NodeInv.handle_push_direct_paths_keeps.
  - eapply emit_keeps; [done|apply (@pc_total _ UserMessageP.codec)|done].
  - eapply emit_keeps; [done|apply (@pc_total _ RemoteTraceP.codec)|done].
  - eapply emit_keeps; [done|apply (@pc_total _ PathNegotiationP.codec)|done].
Qed.
End Dispatch.

(** ** The packet itself *)

Lemma touch_peer_keeps n source from now : NodeInv.node_ok n -> sock_ok from ->
  NodeInv.keeps n (NodeReceive.touch_peer n source from now).
Proof.
  intros Hn Hf. unfold NodeReceive.touch_peer. cbv zeta. apply NodeInv.keeps_update_peer; [done|]. intros p _ Hpo Hpa.
  set (q := if negb _ then _ else _).
  assert (PeerOps.peer_ok q /\ peer_identity q = peer_identity p /\ NodeInv.paths_ok q) as (Hq & Hi & Hqp).
  { unfold q. destruct (negb _).
    - split_and!; [by apply PeerOps.promote_path_ok|by unfold PeerOps.promote_path; case_match|].
      unfold PeerOps.promote_path. destruct (PeerOps.has_path p from); [|by apply NodeInv.paths_ok_add].
      eapply NodeInv.paths_ok_addresses; [|exact Hpa]. by apply update_first_map.
    - split_and!; [by apply NodeInv.peer_ok_add|done|by apply NodeInv.paths_ok_add]. }
  destruct (peer_state q) as [| |ss k0 k1 lat lr ls|] eqn:Es; try done. split_and!; [|done|done].
  destruct Hq as [_ Hk Hnd]. rewrite Es in Hk. by split.
Qed.

Lemma siv_dearmor_safe k0 k1 data aad : safe (Siv.dearmor_packet k0 k1 data aad) (fun r => len r.1 = len data).
Proof.
  destruct (decide (28 <= len data)) as [Hl|Hl].
  - destruct (Siv.sframe_view data Hl) as (iv & h & m & b & -> & Hi & Hh & Hm & Hb).
    rewrite Siv.dearmor_sframe by done. simpl. unfold Siv.sframe. rewrite !len_app, Siv.len_aes_ctr; [done|].
    rewrite Siv.len_mask_counter. len_lia.
  - unfold Siv.dearmor_packet, Armor.PACKET_MIN_LEN. by rewrite if_true by lia.
Qed.

Lemma aes_aad_safe data : 28 <= len data -> safe (NodeVerbs.build_aes_aad data) (fun _ => True).
Proof.
  intros Hl. unfold NodeVerbs.build_aes_aad. apply wp_bind, wp_slice; [lia..|]. intros aad Ha.
  apply wp_bind, wp_get; [lia|]. by intros.
Qed.

Lemma dearmor_safe n data source suite verb : NodeInv.node_ok n -> 28 <= len data ->
  safe (NodeVerbs.dearmor n data source suite verb) (fun o => match o with Some d => len d = len data | None => True end).
Proof.
  intros Hn Hl. unfold NodeVerbs.dearmor. cbv zeta. set (salsa := match NodeOps.shared_secret_for_peer n source with Some _ => _ | None => _ end).
  assert (safe salsa (fun o => match o with Some d => len d = len data | None => True end)) as Hs.
  { unfold salsa. destruct (NodeOps.shared_secret_for_peer n source) as [ss|] eqn:Ess; [|done].
    eapply wp_attempt; [apply NodeInv.armor_dearmor_safe; by rewrite (NodeInv.shared_secret_len n source ss Hn Ess)|done..]. }
  repeat (apply wp_if; intros _; try done). destruct (NodeOps.aes_keys_for_peer n source) as [[k0 k1]|]; [|done].
  apply wp_bind. eapply wp_mono; [by apply aes_aad_safe| |done]. intros aad _. apply wp_bind.
  eapply wp_attempt; [apply siv_dearmor_safe| |done]. by intros [d []] Hd.
Qed.

Lemma decompress_safe packet : safe (NodeVerbs.decompress_packet packet) (fun o => match o with Some d => 28 <= len d | None => True end).
Proof.
  unfold NodeVerbs.decompress_packet, ZT_PACKET_IDX_PAYLOAD. apply wp_if; [done|]. intros Hl. apply wp_bind, wp_slice_from; [lia|].
  intros body _. destruct (lz4_decompress_into _ _) as [payload|]; [|done]. apply wp_bind, wp_slice; [lia..|]. intros head Hh.
  apply wp_bind, wp_get; [unfold ZT_PACKET_IDX_VERB; lia|]. intros verb. simpl. rewrite len_app. unfold len in *.
  rewrite length_insert. lia.
Qed.

Lemma queue_ok n source from pid now data : NodeInv.node_ok n -> sock_ok from -> u64_ok now ->
  NodeInv.node_ok (NodeOps.queue_pending_encrypted_packet n source from pid now data).
Proof.
  intros Hn Hf Hnow. unfold NodeOps.queue_pending_encrypted_packet. cbv zeta. set (live := filter _ (nd_packets n)).
  assert (Forall (fun p => sock_ok (pp_from p) /\ u64_ok (pp_received_at_ms p)) live) as Hl.
  { apply Forall_forall. intros x [_ Hx]%list_elem_of_filter. by apply (proj1 (Forall_forall _ _) (NodeInv.nk_packets _ Hn)). }
  destruct (existsb _ _); apply NodeInv.packets_ok; try done.
  apply Forall_app. split; [|by constructor]. destruct (_ <=? _); [by apply Forall_drop|done].
Qed.

(** ** What reaches a handler *)

(** The packet without its armor and compression, and its verb. *)
Definition unwrapped (data : bytes) (dearmored : option bytes) (verb_id : Z) : step (option (bytes * option Verb)) :=
  let* verb_byte := get (default data dearmored) ZT_PACKET_IDX_VERB in
  match dearmored with
  | None => Ok (Some (data, VerbOps.from_byte (b8 verb_id)))
  | Some d =>
      let* packet := if negb (Z.land (u8 verb_byte) VERB_FLAG_COMPRESSED =? 0) then NodeVerbs.decompress_packet d else Ok (Some d) in
      match packet with
      | None => Ok None
      | Some packet =>
          let* b := get packet ZT_PACKET_IDX_VERB in
          Ok (Some (packet, VerbOps.from_byte (b8 (Z.land (u8 b) 0x1f))))
      end
  end.

(** A whole packet addressed to us, authenticated or of the suite that needs no key: its sender,
    what it holds, its verb. *)
Definition arrives (n : Node) (data source packet : bytes) (verb : option Verb) : Prop :=
  exists hdr dearmored,
    ZT_PROTO_MIN_PACKET_LENGTH <= len data /\ Header.from_bytes data = Some hdr /\ Header.source_address hdr = source /\
    ph_dest hdr = NodeOps.our_address n /\
    NodeVerbs.dearmor n data source (Header.cipher_suite hdr) (Header.verb_id hdr) = Ok dearmored /\
    (is_some dearmored = true \/ Header.cipher_suite hdr = CIPHER_SUITE_C25519_POLY1305_NONE) /\
    unwrapped data dearmored (Header.verb_id hdr) = Ok (Some (packet, verb)).

Lemma handle_packet_unwrapped rec n data source dearmored from now pid vid :
  NodeReceive.handle_packet rec n data source dearmored from now pid vid =
  let* r := unwrapped data dearmored vid in
  match r with
  | None => Ok n
  | Some (packet, verb) =>
      let n := NodeReceive.touch_peer n source from now in
      let* verb_payload := if ZT_PACKET_IDX_PAYLOAD <? len packet then slice_from packet ZT_PACKET_IDX_PAYLOAD else Ok [] in
      NodeReceive.dispatch (NodeReceive.replay_pending_encrypted_packets_for rec) n source packet verb_payload from now pid verb
  end.
Proof.
  unfold NodeReceive.handle_packet, unwrapped. destruct (get _ _); [|done..]. rewrite !rbind_ok.
  destruct dearmored as [d|]; [|done]. destruct (if _ : bool then _ else _) as [[packet|]| | |]; [|done..]. rewrite !rbind_ok.
  by destruct (get packet _).
Qed.

Lemma unwrapped_safe data dearmored vid : 28 <= len data -> (forall d, dearmored = Some d -> len d = len data) ->
  safe (unwrapped data dearmored vid) (fun r => match r with Some (packet, _) => 28 <= len packet | None => True end).
Proof.
  intros Hl Hd. unfold unwrapped.
  assert (28 <= len (default data dearmored)) as Hraw by (destruct dearmored as [d|]; simpl; [rewrite (Hd d eq_refl)|]; lia).
  apply wp_bind, wp_get; [unfold ZT_PACKET_IDX_VERB; lia|]. intros vb _. destruct dearmored as [d|]; [|done].
  apply wp_bind. eapply (wp_mono _ (fun o => match o with Some p => 28 <= len p | None => True end)); [| |done].
  { destruct (negb _); [apply decompress_safe|exact Hraw]. }
  intros [packet|] Hp; [|done]. apply wp_bind, wp_get; [unfold ZT_PACKET_IDX_VERB; lia|]. by intros.
Qed.

(** ** The recursion *)

Section Receive.
Context (k : nat) (rec : Node -> bytes -> SocketAddr -> Z -> step (list NodeAction * Node)).
Context (overruns : Node -> bytes -> SocketAddr -> Z -> Prop).

Definition received_ok (w : nat) (n : Node) (r : list NodeAction * Node) : Prop :=
  settles w n r.2 /\ Forall action_ok r.1.

(** One of the packets held back for a sender overruns when it is replayed. *)
Fixpoint each_overruns (n : Node) (pending : list PendingEncryptedPacket) (now_ms : Z) : Prop :=
  match pending with
  | [] => False
  | buffered :: pending =>
      let replay_now := Z.max now_ms (pp_received_at_ms buffered) in
      overruns (with_actions n []) (pp_data buffered) (pp_from buffered) replay_now \/
      exists actions n', rec (with_actions n []) (pp_data buffered) (pp_from buffered) replay_now = Ok (actions, n') /\
        each_overruns (with_actions n' (nd_actions n ++ actions)) pending now_ms
  end.

Definition replay_overruns (n : Node) (source : bytes) (now_ms : Z) : Prop :=
  let '(pending, n) := NodeOps.take_pending n source in each_overruns n pending now_ms.

(** A datagram that overruns: the fragment that completes a packet that does, or a packet for us
    that does when it is handled. *)
Definition receive_overruns (n : Node) (data : bytes) (from : SocketAddr) (now_ms : Z) : Prop :=
  let n := with_actions n [] in
  if Header.is_fragment data then
    exists reassembly packet, Fragment.receive_fragment (nd_reassembly n) data now_ms = Ok (reassembly, Some packet) /\
      overruns (with_reassembly n reassembly) packet from now_ms
  else
    exists source packet verb, arrives n data source packet verb /\
      dispatch_overruns (NodeReceive.replay_pending_encrypted_packets_for rec) replay_overruns
        (NodeReceive.touch_peer n source from now_ms) packet now_ms verb.

Hypothesis Hrec : forall n data from now, NodeInv.node_ok n -> sock_ok from -> u64_ok now ->
  (weight n + length data < k)%nat -> exactly (overruns n data from now) (rec n data from now) (received_ok (weight n + length data) n).

Lemma replay_each_exact n pending now : NodeInv.node_ok n -> u64_ok now ->
  Forall (fun p => sock_ok (pp_from p) /\ u64_ok (pp_received_at_ms p)) pending ->
  (weight n + queued pending < k)%nat ->
  exactly (each_overruns n pending now) (NodeReceive.replay_each rec n pending now) (settles (weight n + queued pending) n).
Proof.
  intros Hn Hnow Hp. revert n Hn. induction Hp as [|p pending [Hf Hr] Hp IH]; intros n Hn Hw;
    [by split; [apply settles_keeps; [lia|by apply NodeInv.keeps_refl]|intros []]|].
  cbn [NodeReceive.replay_each each_overruns]. change (queued (p :: pending)) with (length (pp_data p) + queued pending)%nat in *.
  pose proof (settles_keeps (weight n) n (with_actions n []) (le_n _) (NodeInv.keeps_actions n [] Hn (Forall_nil_2 _))) as (Hn1 & Hi1 & Hw1).
  assert (weight (with_actions n []) = weight n) as Hw1' by done. cbv zeta.
  eapply exactly_iff; [|eapply (exactly_bind _ (fun r => each_overruns (with_actions r.2 (nd_actions n ++ r.1)) pending now));
    [apply (Hrec (with_actions n []) (pp_data p)); [done|done|unfold u64_ok in *; lia|lia]|]].
  { split; (intros [?|Hx]; [by left|right]).
    - destruct Hx as ([actions n'] & ? & ?). by exists actions, n'.
    - destruct Hx as (actions & n' & ? & ?). by exists (actions, n'). }
  intros [actions n2] _ [(Hn2 & Hi2 & Hw2) Ha2]. cbn [fst snd] in *. cbv beta iota zeta.
  set (n3 := with_actions n2 _). assert (weight n3 = weight n2) as Hw3 by done.
  eapply exactly_mono; [apply (IH n3); [apply (NodeInv.keeps_actions n2); [done|]; apply Forall_app; by split; [apply NodeInv.actions_ok|]|lia]|].
  intros n4 (Hn4 & Hi4 & Hw4). split_and!; [done|by rewrite Hi4|lia].
Qed.

Lemma replay_exact w n source now : NodeInv.node_ok n -> u64_ok now -> (weight n <= w)%nat -> (w < k)%nat ->
  exactly (replay_overruns n source now) (NodeReceive.replay_pending_encrypted_packets_for rec n source now) (settles w n).
Proof.
  intros Hn Hnow Hw Hk. unfold NodeReceive.replay_pending_encrypted_packets_for, replay_overruns.
  destruct (NodeOps.take_pending n source) as [pending n1] eqn:E. pose proof (take_pending_weight _ _ _ _ E) as Hq.
  injection E as Ep En. pose proof (NodeInv.nk_packets _ Hn) as Hpk.
  assert (NodeInv.node_ok n1 /\ nd_identity n1 = nd_identity n) as [Hn1 Hi1].
  { subst n1. split; [|done]. apply NodeInv.packets_ok; [done|]. apply Forall_forall. intros x [_ Hx]%list_elem_of_filter.
    by apply (proj1 (Forall_forall _ _) Hpk). }
  eapply exactly_mono; [apply replay_each_exact; [done|done| |lia]|].
  - subst pending. apply Forall_forall. intros x [_ Hx]%list_elem_of_filter. by apply (proj1 (Forall_forall _ _) Hpk).
  - intros n2 (Hn2 & Hi2 & Hw2). split_and!; [done|by rewrite Hi2|lia].
Qed.

Lemma handle_fragment_exact n data from now : NodeInv.node_ok n -> sock_ok from -> u64_ok now -> (weight n + length data <= k)%nat ->
  exactly (exists reassembly packet, Fragment.receive_fragment (nd_reassembly n) data now = Ok (reassembly, Some packet) /\
             overruns (with_reassembly n reassembly) packet from now)
    (NodeReceive.handle_fragment rec n data from now) (settles (weight n + length data) n).
Proof.
  intros Hn Hf Hnow Hk. unfold NodeReceive.handle_fragment.
  eapply exactly_after; [apply receive_weight, Hn|]. intros [b o] Eb [Hb Ho]. rewrite Eb. cbv beta iota zeta.
  set (n1 := with_reassembly n b). assert (NodeInv.node_ok n1) as Hn1 by by apply NodeInv.reassembly_ok.
  assert (weight n1 = stored (rb_pending b) + queued (nd_packets n))%nat as Hw1 by done.
  assert (weight n = stored (rb_pending (nd_reassembly n)) + queued (nd_packets n))%nat as Hw by done.
  destruct o as [packet|]; [|by split; [split_and!; [done..|lia]|intros (? & ? & [= _ _] & _)]].
  eapply exactly_iff; [|eapply (exactly_bind _ (fun _ => False)); [apply (Hrec n1 packet); [done|done|done|lia]|]].
  { unfold n1. split; [intros [?|(? & _ & [])]; by exists b, packet|]. intros (? & ? & [= <- <-] & ?). by left. }
  intros [actions n2] _ [(Hn2 & Hi2 & Hw2) Ha2]. cbn [fst snd] in *. split; [|intros []]. split_and!; [|done|].
  { apply (NodeInv.keeps_actions n2); [done|]. apply Forall_app. by split; [apply NodeInv.actions_ok|]. }
  change (weight (with_actions n2 _)) with (weight n2). lia.
Qed.

Lemma handle_packet_exact n data source dearmored from now pid vid :
  (forall d, dearmored = Some d -> len d = len data) ->
  NodeInv.node_ok n -> 28 <= len data -> len source = 5 -> sock_ok from -> u64_ok now -> u64_ok pid -> (weight n < k)%nat ->
  exactly (exists packet verb, unwrapped data dearmored vid = Ok (Some (packet, verb)) /\
             dispatch_overruns (NodeReceive.replay_pending_encrypted_packets_for rec) replay_overruns
               (NodeReceive.touch_peer n source from now) packet now verb)
    (NodeReceive.handle_packet rec n data source dearmored from now pid vid) (settles (weight n) n).
Proof.
  intros Hd Hn Hl Hs Hf Hnow Hpid Hk. rewrite handle_packet_unwrapped.
  eapply exactly_after; [by apply unwrapped_safe|]. intros r Er Hp. rewrite Er.
  destruct r as [[packet verb]|]; [|by split; [apply settles_keeps, NodeInv.keeps_refl|intros (? & ? & [= ] & _)]].
  cbv zeta. set (n1 := NodeReceive.touch_peer n source from now).
  pose proof (touch_peer_keeps n source from now Hn Hf) as H1. fold n1 in H1.
  pose proof (settles_keeps (weight n) n n1 (le_n _) H1) as Hs1.
  eapply (exactly_after _ _ _ _ (fun _ => True)).
  { destruct (ZT_PACKET_IDX_PAYLOAD <? len packet) eqn:E; [|done]. apply wp_slice_from; [unfold ZT_PACKET_IDX_PAYLOAD in *; lia|done]. }
  intros payload _ _. eapply exactly_iff; [|eapply exactly_mono; [eapply dispatch_exact with (w := weight n); [|apply Hs1|apply Hs1|done..]|]].
  - split; [intros ?; by exists packet, verb|]. by intros (? & ? & [= <- <-] & ?).
  - intros n2 a now2 Hn2 Hw2 Hnow2. by apply replay_exact.
  - intros n2. by apply settles_trans with (weight n).
Qed.

Lemma receive_body_exact n data from now : NodeInv.node_ok n -> sock_ok from -> u64_ok now ->
  (weight n + length data <= k)%nat ->
  exactly (receive_overruns n data from now) (NodeReceive.receive_body rec n data from now) (received_ok (weight n + length data) n).
Proof.
  intros Hn0 Hf Hnow Hk. unfold NodeReceive.receive_body, receive_overruns. cbv zeta.
  set (n1 := with_actions n []). assert (NodeInv.node_ok n1) as Hn by (by apply (NodeInv.keeps_actions n)).
  assert (weight n1 = weight n) as Hwn by done. assert (nd_identity n1 = nd_identity n) as Hin by done.
  assert (received_ok (weight n + length data) n = received_ok (weight n1 + length data) n1) as -> by done.
  rewrite <- Hwn in *. clearbody n1. clear Hn0.
  assert (forall n2, settles (weight n1 + length data) n1 n2 ->
    safe (NodeReceive.take_actions n2) (received_ok (weight n1 + length data) n1)) as Htk.
  { intros n2 (Hn2 & Hi2 & Hw2). split; [split_and!|by apply NodeInv.actions_ok]; cbn [snd].
    - by apply (NodeInv.keeps_actions n2).
    - exact Hi2.
    - change (weight (NodeOps.drain_actions n2).2) with (weight n2). lia. }
  assert (forall pan w m, exactly pan m (settles w n1) -> (w <= weight n1 + length data)%nat ->
    exactly pan (let* n := m in NodeReceive.take_actions n) (received_ok (weight n1 + length data) n1)) as Hta.
  { intros pan w m Hm Hw. eapply exactly_iff; [|eapply (exactly_bind _ (fun _ => False)); [exact Hm|]]; [naive_solver|].
    intros n2 _ (? & ? & ?). apply exactly_safe; [by intros []|]. apply Htk. split_and!; [done..|lia]. }
  pose proof (settles_keeps (weight n1 + length data) n1 n1 ltac:(lia) (NodeInv.keeps_refl n1 Hn)) as Hr.
  destruct (Header.is_fragment data); [eapply Hta; [by apply handle_fragment_exact|done]|].
  destruct (len data <? ZT_PROTO_MIN_PACKET_LENGTH) eqn:Emin.
  { apply exactly_safe; [|by apply Htk]. intros (? & ? & ? & (? & ? & ? & _) & _). lia. }
  destruct (Header.from_bytes data) as [hdr|] eqn:Eh.
  2: { apply exactly_safe; [|by apply Htk]. intros (? & ? & ? & (? & ? & _ & He & _) & _). congruence. }
  assert (28 <= len data) as Hl by (unfold Header.from_bytes in Eh; case_match; [lia|done]).
  pose proof (NodeInv.packet_id_u64 _ _ Eh) as Hpid.
  assert (len (Header.source_address hdr) = 5) as Hsrc by (eapply (NodeInv.source_of_len data); unfold NodeVerbs.source_of; by rewrite Eh).
  case_bool_decide as Edest; cbn [negb].
  2: { eapply Hta with (w := weight n1); [apply exactly_keeps; [|done|by apply NodeInv.handle_relay_keeps]|lia].
    intros (? & ? & ? & (? & ? & _ & He & _ & Hd & _) & _). congruence. }
  eapply exactly_after; [by apply dearmor_safe|]. intros dearmored Ed Hd.
  assert (forall source packet verb, arrives n1 data source packet verb <->
    source = Header.source_address hdr /\ (is_some dearmored = true \/ Header.cipher_suite hdr = CIPHER_SUITE_C25519_POLY1305_NONE) /\
    unwrapped data dearmored (Header.verb_id hdr) = Ok (Some (packet, verb))) as Harr.
  { intros source packet verb. split.
    - intros (hdr' & dearmored' & _ & He & <- & _ & Hde & Hc & Hu). replace hdr' with hdr in * by congruence.
      replace dearmored' with dearmored in * by congruence. done.
    - intros (-> & Hc & Hu). exists hdr, dearmored. split_and!; try done; lia. }
  destruct (negb (is_some dearmored) && _) eqn:Eauth.
  - apply exactly_safe.
    { intros (source & packet & verb & Ha & _). apply Harr in Ha as (_ & [Hc|Hc] & _); rewrite Hc in Eauth; [done|].
      by rewrite Z.eqb_refl, andb_false_r in Eauth. }
    apply Htk. unfold NodeReceive.dearmor_failed. destruct (NodeOps.get_peer _ _); [exact Hr|].
    destruct (NodeReceive.from_root_path _ _); [|exact Hr]. set (n2 := NodeOps.queue_pending_encrypted_packet _ _ _ _ _ _).
    pose proof (queue_packet_weight n1 (Header.source_address hdr) from (Header.packet_id hdr) now data) as Hq. fold n2 in Hq.
    split_and!; [apply NodeInv.keeps_push; [by apply queue_ok|by repeat constructor]| |exact Hq]. unfold n2, NodeOps.queue_pending_encrypted_packet. cbv zeta. by case_match.
  - assert (is_some dearmored = true \/ Header.cipher_suite hdr = CIPHER_SUITE_C25519_POLY1305_NONE) as Hc.
    { destruct dearmored; [by left|]. right. by apply Z.eqb_eq, negb_false_iff. }
    eapply exactly_iff; [|eapply Hta with (w := weight n1); [|lia]; apply handle_packet_exact; try done; [|unfold len in *; lia]].
    + split.
      * intros (packet & verb & Hu & Ho). exists (Header.source_address hdr), packet, verb. split; [by apply Harr|done].
      * intros (source & packet & verb & Ha & Ho). apply Harr in Ha as (-> & _ & Hu). by exists packet, verb.
    + intros d ->. exact Hd.
Qed.
End Receive.

(** What a datagram overruns on, through packets put together and packets replayed. *)
Fixpoint overruns (fuel : nat) (n : Node) (data : bytes) (from : SocketAddr) (now_ms : Z) : Prop :=
  match fuel with
  | O => False
  | S fuel => receive_overruns (NodeReceive.receive_packet fuel) (overruns fuel) n data from now_ms
  end.

(** ** More fuel changes nothing *)

Definition agree {A} (m m' : step A) : Prop := m = Hang \/ m' = m.

Lemma agree_refl {A} (m : step A) : agree m m.
Proof. by right. Qed.

Lemma agree_bind {A B} (m m' : step A) (k k' : A -> step B) : agree m m' -> (forall a, agree (k a) (k' a)) ->
  agree (rbind m k) (rbind m' k').
Proof. intros [->| ->] Hk; [by left|]. destruct m; [apply Hk|by right..]. Qed.

Section Agree.
Context (rec rec' : Node -> bytes -> SocketAddr -> Z -> step (list NodeAction * Node)).
Hypothesis Hrec : forall n d f t, agree (rec n d f t) (rec' n d f t).

Lemma replay_agree n source now :
  agree (NodeReceive.replay_pending_encrypted_packets_for rec n source now)
        (NodeReceive.replay_pending_encrypted_packets_for rec' n source now).
Proof.
  unfold NodeReceive.replay_pending_encrypted_packets_for. destruct (NodeOps.take_pending n source) as [pending n1].
  revert n1. induction pending as [|p pending IH]; intros n1; [apply agree_refl|].
  cbn [NodeReceive.replay_each]. apply agree_bind; [apply Hrec|]. intros [actions n2]. apply IH.
Qed.

Lemma whois_all_agree n ids now :
  agree (NodeVerbs.whois_all (NodeReceive.replay_pending_encrypted_packets_for rec) n ids now)
        (NodeVerbs.whois_all (NodeReceive.replay_pending_encrypted_packets_for rec') n ids now).
Proof.
  revert n. induction ids as [|id ids IH]; intros n; [apply agree_refl|]. cbn [NodeVerbs.whois_all].
  apply agree_bind; [|done]. unfold NodeVerbs.whois_resolved. apply agree_bind; [apply agree_refl|]. intros valid.
  destruct (negb valid); [apply agree_refl|]. apply agree_bind; [apply agree_refl|]. intros n2. apply replay_agree.
Qed.

Lemma dispatch_agree n source packet payload from now pid verb :
  agree (NodeReceive.dispatch (NodeReceive.replay_pending_encrypted_packets_for rec) n source packet payload from now pid verb)
        (NodeReceive.dispatch (NodeReceive.replay_pending_encrypted_packets_for rec') n source packet payload from now pid verb).
Proof.
  destruct verb as [[]|]; try apply agree_refl. cbn [NodeReceive.dispatch]. unfold NodeVerbs.handle_ok, NodeVerbs.parsed.
  destruct (28 <? len packet); [|apply agree_refl]. apply agree_bind; [apply agree_refl|]. intros d.
  apply agree_bind; [apply agree_refl|]. intros [ok|]; [|apply agree_refl].
  destruct (OkP.sub_payload ok); [apply agree_refl|apply whois_all_agree|apply agree_refl].
Qed.

Lemma receive_body_agree n data from now :
  agree (NodeReceive.receive_body rec n data from now) (NodeReceive.receive_body rec' n data from now).
Proof.
  unfold NodeReceive.receive_body. destruct (Header.is_fragment data).
  { apply agree_bind; [|intros; apply agree_refl]. unfold NodeReceive.handle_fragment.
    apply agree_bind; [apply agree_refl|]. intros [b [packet|]]; [|apply agree_refl].
    apply agree_bind; [apply Hrec|]. intros [actions n2]. apply agree_refl. }
  destruct (len data <? _); [apply agree_refl|]. destruct (Header.from_bytes data) as [hdr|]; [|apply agree_refl].
  destruct (negb (bool_decide _)); [apply agree_refl|]. apply agree_bind; [apply agree_refl|]. intros dearmored.
  destruct (_ && _); [apply agree_refl|]. apply agree_bind; [|intros; apply agree_refl].
  unfold NodeReceive.handle_packet. apply agree_bind; [apply agree_refl|]. intros vb.
  apply agree_bind; [apply agree_refl|]. intros [packet|]; [|apply agree_refl].
  apply agree_bind; [apply agree_refl|]. intros vid. apply agree_bind; [apply agree_refl|]. intros payload.
  apply dispatch_agree.
Qed.
End Agree.

Lemma receive_packet_mono fuel fuel' n data from now : (fuel <= fuel')%nat ->
  agree (NodeReceive.receive_packet fuel n data from now) (NodeReceive.receive_packet fuel' n data from now).
Proof.
  revert fuel' n data from now. induction fuel as [|fuel IH]; intros [|fuel'] n data from now Hle; try (by left); [lia|].
  cbn [NodeReceive.receive_packet]. apply receive_body_agree. intros. apply IH. lia.
Qed.

(** ** The claims *)

Lemma receive_packet_exact fuel n data from now : NodeInv.node_ok n -> sock_ok from -> u64_ok now ->
  (weight n + length data < fuel)%nat ->
  exactly (overruns fuel n data from now) (NodeReceive.receive_packet fuel n data from now) (received_ok (weight n + length data) n).
Proof.
  revert n data from now. induction fuel as [|fuel IH]; intros n data from now Hn Hf Hnow Hw; [lia|].
  cbn [NodeReceive.receive_packet overruns]. eapply receive_body_exact with (k := fuel); [exact IH|done..|lia].
Qed.

(** With the depth every caller has: one more than the bytes. *)
Definition answer_overruns (n : Node) (data : bytes) (from : SocketAddr) (now_ms : Z) : Prop :=
  overruns (Datatypes.S (weight n + length data)) n data from now_ms.

(** C10. Receiving ends: whatever bytes a datagram holds, [receive_packet] recurses - into packets
    put together from fragments, and packets replayed once their sender is known - at most as
    deep as the bytes the node holds back and the datagram together; it returns, with the node's
    invariant and identity kept and no more held back than before plus the datagram, and the
    same whatever depth beyond that is allowed. The only other outcome is a panic, exactly if the
    answer to one of these packets, an ECHO or a WHOIS, overruns its buffer. *)
Theorem receive_packet_ends (fuel : nat) (n : Node) (data : bytes) (from : SocketAddr) (now_ms : Z) :
  NodeInv.node_ok n -> sock_ok from -> u64_ok now_ms -> (weight n + length data < fuel)%nat ->
  match NodeReceive.receive_packet fuel n data from now_ms with
  | Ok (_, n') => NodeInv.node_ok n' /\ nd_identity n' = nd_identity n /\ (weight n' <= weight n + length data)%nat /\
      ~ overruns fuel n data from now_ms
  | Panic => overruns fuel n data from now_ms
  | Err _ | Hang => False
  end /\
  forall fuel', (weight n + length data < fuel')%nat ->
    NodeReceive.receive_packet fuel' n data from now_ms = NodeReceive.receive_packet fuel n data from now_ms.
Proof.
  intros Hn Hf Hnow Hw. pose proof (receive_packet_exact fuel n data from now_ms Hn Hf Hnow Hw) as Hr. split.
  { destruct (NodeReceive.receive_packet _ _ _ _ _) as [[actions n']| | |]; try done.
    destruct Hr as [[(? & ? & ?) _] ?]. by split_and!. }
  intros fuel' Hw'. pose proof (receive_packet_exact fuel' n data from now_ms Hn Hf Hnow Hw') as Hr'.
  destruct (decide (fuel <= fuel')%nat) as [Hle|Hle].
  - destruct (receive_packet_mono fuel fuel' n data from now_ms Hle) as [Hh|]; [by rewrite Hh in Hr|done].
  - destruct (receive_packet_mono fuel' fuel n data from now_ms ltac:(lia)) as [Hh|]; [by rewrite Hh in Hr'|done].
Qed.

(** C13. Dispatch: a packet of any verb, whatever its bytes, in a good node that holds back whatever
    it holds: handling it, replays included, ends with the node's invariant and identity kept;
    it panics exactly if the packet is an ECHO or a WHOIS whose answer is too long, or an
    OK(WHOIS) that releases such a packet. No other packet can. *)
Theorem dispatch_outcome (fuel : nat) (n : Node) (source packet payload : bytes)
    (from : SocketAddr) (now_ms packet_id : Z) (verb : option Verb) :
  let replay := NodeReceive.replay_pending_encrypted_packets_for (NodeReceive.receive_packet fuel) in
  let released := replay_overruns (NodeReceive.receive_packet fuel) (overruns fuel) in
  let r := NodeReceive.dispatch replay n source packet payload from now_ms packet_id verb in
  NodeInv.node_ok n -> len source = 5 -> sock_ok from -> u64_ok now_ms -> u64_ok packet_id -> (weight n < fuel)%nat ->
  exactly (dispatch_overruns replay released n packet now_ms verb) r (settles (weight n) n) /\
  (verb <> Some Whois -> verb <> Some Echo -> verb <> Some VOk -> safe r (settles (weight n) n)).
Proof.
  intros replay released r Hn Hs Hf Hnow Hp Hw.
  assert (exactly (dispatch_overruns replay released n packet now_ms verb) r (settles (weight n) n)) as Hr.
  { apply dispatch_exact; try done. intros n1 a now1 Hn1 Hw1 Hnow1. eapply (replay_exact fuel); [|done..].
    intros. by apply receive_packet_exact. }
  split; [exact Hr|]. intros H1 H2 H3. destruct r; simpl in *; try done; [tauto|].
  destruct Hr as [[_ Ha]|[? _]]; [by destruct verb as [[]|]|done].
Qed.

(** ** A new node *)

Lemma root_peer_paths r : WorldP.root_wf r -> NodeInv.paths_ok (Topo.root_peer r).
Proof.
  intros (_ & He & _). unfold Topo.root_peer. set (p0 := PeerOps.new _ _).
  assert (NodeInv.paths_ok p0) as H0 by constructor. clearbody p0. revert p0 H0.
  induction He as [|e es Hw He IH]; intros p0 H0; [done|]. simpl. apply IH.
  destruct (Inet.to_socket_addr e) as [a|] eqn:Ea; [|done]. apply NodeInv.paths_ok_add; [done|].
  by eapply NodeInv.to_socket_ok.
Qed.

Lemma add_roots_paths rs t : Forall WorldP.root_wf rs -> map_Forall (fun _ p => NodeInv.paths_ok p) (t_peers t) ->
  map_Forall (fun _ p => NodeInv.paths_ok p) (t_peers (fold_left Topo.add_root rs t)).
Proof.
  intros Hr. revert t. induction Hr as [|r rs Hr _ IH]; intros t Ht; [done|]. simpl. apply IH.
  simpl. apply map_Forall_insert_2; [by apply root_peer_paths|]. by case_bool_decide.
Qed.

Lemma add_roots_keys rs t : Forall WorldP.root_wf rs -> map_Forall (fun a _ => len a = 5) (t_peers t) ->
  map_Forall (fun a _ => len a = 5) (t_peers (fold_left Topo.add_root rs t)).
Proof.
  intros Hr. revert t. induction Hr as [|r rs Hr _ IH]; intros t Ht; [done|]. cbn [fold_left]. apply IH.
  cbn. apply map_Forall_insert_2; [|by case_bool_decide]. by destruct Hr as [[[[? _] _] _] _].
Qed.

(** A secret key as its type has it. *)
Definition secret_ok (identity : Identity) : Prop :=
  match id_secret identity with Some secret => len (sk_signing secret) = 32 | None => True end.

Lemma new_node_typed identity planet_data id0 n : secret_ok identity ->
  NodeOps.new identity planet_data id0 = Ok n -> NodeInv.typed n.
Proof.
  intros Hsec. unfold NodeOps.new. pose proof (WorldP.world_deserialize_total planet_data) as Hw.
  destruct (WorldP.deserialize planet_data) as [planet| | |]; try done. cbn in Hw. rewrite rbind_ok. intros [= <-].
  destruct Hw as (_ & _ & _ & _ & Hroots & _). split; cbn; try done; try (by constructor).
  - exact (add_roots_keys _ _ Hroots (map_Forall_empty _)).
  - apply NodeInv.next_packet_id.
Qed.

Lemma new_node_ok identity planet_data id0 n : Ident.public_wf (Root.public_only identity) -> secret_ok identity ->
  NodeOps.new identity planet_data id0 = Ok n -> NodeInv.node_ok n.
Proof.
  intros Hid Hsec Hnew. pose proof (new_node_typed _ _ _ _ Hsec Hnew) as Ht. revert Hnew. unfold NodeOps.new. pose proof (WorldP.world_deserialize_total planet_data) as Hw.
  destruct (WorldP.deserialize planet_data) as [planet| | |]; try done. cbn in Hw. rewrite rbind_ok. intros [= <-].
  destruct Hw as (Hwid & Hts & _ & _ & Hroots & _). split; try done.
  - exact (TopoFacts.load_planet_ok planet).
  - apply add_roots_paths; [done|apply map_Forall_empty].
  - apply Forall_nil_2.
  - split; constructor.
Qed.

Lemma new_node_weight identity planet_data id0 n : NodeOps.new identity planet_data id0 = Ok n -> weight n = 0%nat.
Proof. unfold NodeOps.new. by destruct (WorldP.deserialize planet_data); intros; simplify_eq/=. Qed.
End NodeTotal.

(** ** Concrete packets *)

(** Compression that stores: it satisfies the laws of a block format. *)
#[local] Instance stored_lz4 : Lz4 := {
  lz4_compress := id;
  lz4_decompress_into y capacity := if len y <=? capacity then Some y else None;
}.

Lemma stored_lz4_laws : Lz4Laws stored_lz4.
Proof.
  split; cbn; intros.
  - by rewrite if_true by lia.
  - destruct (len y <=? capacity) eqn:E; [|done]. simplify_eq. lia.
Qed.

(** A node started from the sample planet, whose only root is a peer of it. *)
Definition sample_id : Identity :=
  mkIdentity (map b8 [1; 2; 3; 4; 5]) (id_public Ident.sample) (id_secret Ident.sample_with_secret).
Definition sample_node : Node :=
  match NodeOps.new sample_id (WorldP.encode WorldP.sample) 7 with
  | Ok n => n
  | _ => mkNode sample_id [] Topo.new Root.new (Fragment.new 256) [] 1 [] Multicast.new [] [] []
  end.

Lemma sample_node_new : NodeOps.new sample_id (WorldP.encode WorldP.sample) 7 = Ok sample_node.
Proof.
  assert (match NodeOps.new sample_id (WorldP.encode WorldP.sample) 7 with Ok _ => true | _ => false end = true) as Hok
    by (vm_compute; reflexivity).
  unfold sample_node. by destruct (NodeOps.new sample_id _ 7).
Qed.

Lemma sample_node_ok : NodeInv.node_ok (P := Toy.prims) sample_node.
Proof. apply (new_node_ok (P := Toy.prims) (L := Toy.laws) sample_id (WorldP.encode WorldP.sample) 7); [by split_and!|done|exact sample_node_new]. Qed.

Lemma sample_node_weight : weight sample_node = 0%nat.
Proof. apply (new_node_weight _ _ _ _ sample_node_new). Qed.

Definition sample_sock : SocketAddr := SockV4 (map b8 [10; 0; 0; 9]) 9993.

Lemma receive_packet_ends_witness :
  match NodeReceive.receive_packet (P := Toy.prims) 101 sample_node (replicate 100 (b8 255)) sample_sock 5 with
  | Ok (_, n') => NodeInv.node_ok (P := Toy.prims) n' /\ nd_identity n' = nd_identity sample_node /\ (weight n' <= 100)%nat /\
      ~ overruns (P := Toy.prims) 101 sample_node (replicate 100 (b8 255)) sample_sock 5
  | Panic => overruns (P := Toy.prims) 101 sample_node (replicate 100 (b8 255)) sample_sock 5
  | Err _ | Hang => False
  end.
Proof.
  destruct (receive_packet_ends (P := Toy.prims) (L := Toy.laws) 101 sample_node (replicate 100 (b8 255)) sample_sock 5) as [Hr _].
  - exact sample_node_ok.
  - by split_and!.
  - done.
  - rewrite sample_node_weight, length_replicate. lia.
  - rewrite sample_node_weight, length_replicate in Hr. exact Hr.
Defined.

(** Its root's first 18 bytes of a packet to it, and an ECHO of [k] bytes. *)
Definition sample_head : bytes :=
  to_be 8 77 ++ id_address sample_id ++ id_address Ident.sample ++ replicate 10 (b8 0).
Definition sample_echo (k : nat) : bytes := sample_head ++ replicate k (b8 1).
(** A WHOIS that asks [k] times for the node itself. *)
Definition sample_whois (k : nat) : bytes := sample_head ++ concat (replicate k (id_address sample_id)).

(** A HELLO is handled; an ECHO of 2012 bytes is not. *)
Lemma dispatch_outcome_witness :
  let replay := NodeReceive.replay_pending_encrypted_packets_for (NodeReceive.receive_packet (P := Toy.prims) 1) in
  safe (NodeReceive.dispatch (P := Toy.prims) replay sample_node (id_address Ident.sample) (sample_echo 40)
    (replicate 40 (b8 1)) sample_sock 5 77 (Some Hello)) (settles (P := Toy.prims) 0 sample_node) /\
  NodeReceive.dispatch (P := Toy.prims) replay sample_node (id_address Ident.sample) (sample_echo 2012)
    (replicate 2012 (b8 1)) sample_sock 5 77 (Some Echo) = Panic.
Proof.
  pose proof (fun packet payload verb => dispatch_outcome (P := Toy.prims) (L := Toy.laws) 1 sample_node (id_address Ident.sample)
    packet payload sample_sock 5 77 verb) as Hd. cbv zeta in Hd. rewrite sample_node_weight in Hd. cbv zeta. split.
  - apply Hd; [exact sample_node_ok|done|by split_and!|done|done|lia|discriminate..].
  - refine (proj2 (exactly_panics _ _ _ (proj1 (Hd (sample_echo 2012) (replicate 2012 (b8 1)) (Some Echo) sample_node_ok eq_refl ltac:(by split_and!) ltac:(done) ltac:(done) ltac:(lia)))) _).
    left. unfold NodeInv.answer_too_long. split; [vm_compute; reflexivity|]. split; [vm_compute; reflexivity|].
    unfold sample_echo. rewrite len_app, len_replicate. reflexivity.
Defined.

Lemma answers_overrun_witness :
  let run k := NodeVerbs.handle_echo (P := Toy.prims) sample_node (sample_echo k) sample_sock 77 in
  let ask k := NodeVerbs.handle_whois (P := Toy.prims) sample_node (sample_whois k) sample_sock 5 in
  (exists n, run 2011%nat = Ok n) /\ run 2012%nat = Panic /\ (exists n, ask 28%nat = Ok n) /\ ask 29%nat = Panic.
Proof.
  assert (exists ss, NodeOps.shared_secret_for_peer (P := Toy.prims) sample_node (id_address Ident.sample) = Some ss) as [ss Hss].
  { destruct (NodeOps.shared_secret_for_peer _ _) as [ss|] eqn:E; [by exists ss|exfalso; vm_compute in E; discriminate E]. }
  assert (is_some (NodeOps.get_peer sample_node (id_address Ident.sample)) = true) as Hp by (vm_compute; reflexivity).
  assert (forall l, take 5 (drop 13 (sample_head ++ l)) = id_address Ident.sample) as Ha by (intros l; reflexivity).
  assert (forall l, len (sample_head ++ l) = 28 + len l) as Hl by (intros l; rewrite len_app; reflexivity).
  pose proof (fun l (Hpos : 0 < len l) => NodeInv.answers_overrun (P := Toy.prims) (L := Toy.laws) sample_node (sample_head ++ l)
    sample_sock 5 77 ss sample_node_ok ltac:(by split) ltac:(rewrite Hl; lia) eq_refl ltac:(by rewrite Ha) ltac:(by rewrite Ha)) as Hboth.
  assert (forall k, (0 < k)%nat -> exists q, NodeVerbs.handle_echo (P := Toy.prims) sample_node (sample_echo k) sample_sock 77 =
    if 28 + Z.of_nat k <=? 2039 then Ok (NodeOps.push_action (NodeOps.allocate_packet_id sample_node).2 (SendTo q sample_sock))
    else Panic) as Hecho.
  { intros k Hk. destruct (Hboth (replicate k (b8 1))) as [(q & _ & Hq) _]; [rewrite len_replicate; lia|].
    rewrite Hl, len_replicate in Hq. by exists q. }
  assert (forall k, (0 < k)%nat -> exists q, NodeVerbs.handle_whois (P := Toy.prims) sample_node (sample_whois k) sample_sock 5 =
    if Z.of_nat k <=? 28 then Ok (NodeOps.push_action sample_node (SendTo q sample_sock)) else Panic) as Hwhois.
  { intros k Hk. set (l := replicate k (id_address sample_id)).
    assert (Forall (fun a => len a = 5) l) as H5 by by apply Forall_replicate.
    destruct (Hboth (concat l)) as [_ Hw]; [rewrite NodeInv.concat_len by done; unfold l; rewrite len_replicate; lia|].
    destruct (Hw (WhoisP.mkReq l) (replicate k (Root.public_only sample_id)) []) as (q & _ & Hq).
    - exact (@pc_roundtrip _ WhoisP.request_codec (WhoisP.mkReq l) H5).
    - unfold l. cbn [WhoisP.addresses]. clear. induction k as [|k IH]; [done|]. cbn [replicate NodeVerbs.whois_lookups].
      by rewrite IH.
    - destruct k; [lia|done].
    - rewrite len_replicate in Hq. by exists q. }
  cbv zeta. split_and!.
  - destruct (Hecho 2011%nat ltac:(lia)) as [q ->]. eexists. reflexivity.
  - destruct (Hecho 2012%nat ltac:(lia)) as [q ->]. reflexivity.
  - destruct (Hwhois 28%nat ltac:(lia)) as [q ->]. eexists. reflexivity.
  - destruct (Hwhois 29%nat ltac:(lia)) as [q ->]. reflexivity.
Defined.
End NodeTotal.
