(* ===== verification/NodeTick.v ===== *)
(** * NodeTick: what a node does of its own accord (zerotier-node: node.rs, [bootstrap], [tick],
    [flush_config_requests] and what they send). *)
From S2P Require Export NodeVerbs.

(** [target_os] and [target_arch] of [cfg!]. *)
Class Target := { target_os : bytes; target_arch : bytes }.

Module NodeTick.
Section NodeTick.
Context {P : Prims} {Z4 : Lz4} {T : Target}.

Definition manytier_network_config_request_os_arch : bytes :=
  let on os arch := bool_decide (target_os = str os) && bool_decide (target_arch = str arch) in
  if on "linux" "x86_64" then str "linux/x86_64"
  else if on "linux" "x86" then str "linux/x86"
  else if on "linux" "aarch64" then str "linux/arm64"
  else if on "linux" "arm" then str "linux/arm"
  else if on "macos" "x86_64" then str "macos/x86_64"
  else if on "macos" "aarch64" then str "macos/arm64"
  else if on "windows" "x86_64" then str "windows/x86_64"
  else if on "windows" "x86" then str "windows/x86"
  else str "unknown/unknown".

Definition request_metadata : bytes :=
  NodeConfig.build_network_config_request_metadata manytier_network_config_request_os_arch.

(** ** Local endpoints *)

(** The order of [SocketAddr]: IPv4 first, then address, then port, flow and scope. *)
Definition sock_rank (a : SocketAddr) : Z :=
  match a with
  | SockV4 ip port => from_be ip * 2 ^ 16 + port
  | SockV6 ip port flow scope => 2 ^ 48 + ((from_be ip * 2 ^ 16 + port) * 2 ^ 32 + flow) * 2 ^ 32 + scope
  end.

Definition sock_le (a b : SocketAddr) : Prop := sock_rank a <= sock_rank b.
#[local] Instance sock_le_dec : RelDecision sock_le.
Proof. intros a b. unfold sock_le. apply _. Defined.

Definition set_local_addresses (n : Node) (addresses : list SocketAddr) : Node :=
  with_local_addresses n (take (Z.to_nat MAX_LOCAL_ADDRESSES) (dedup (merge_sort sock_le addresses))).

(** ** Peers in the order of the map *)

Definition peers_in_order (n : Node) : list (bytes * Peer) := btree_iter from_be (t_peers (nd_topology n)).

Definition is_active (p : Peer) : bool := match peer_state p with Active _ _ _ _ _ _ => true | _ => false end.

(** ** HELLOs *)

(** One turn of the loops that send HELLOs: the packet, then the peer and its path marked;
    [id_of] is what is recorded of the packet id. *)
Definition greet (id_of : Z -> Z) (now_ms : Z) (target : bytes * SocketAddr) (n : Node) : step Node :=
  let '(addr, phys_addr) := target in
  let* h := NodeOps.hello_for n addr phys_addr now_ms in
  Ok match h with
     | None => n
     | Some (data, packet_id) =>
         NodeOps.update_peer (NodeOps.push_action n (SendTo data phys_addr)) addr (fun peer =>
           let peer := PeerOps.on_hello_sent peer (id_of packet_id) now_ms in
           with_paths peer (update_first (fun path => bool_decide (path_address path = phys_addr))
             (fun path => PathOps.sent path now_ms) (peer_paths peer)))
     end.

Definition path_or_first (p : Peer) (now_ms : Z) : option SocketAddr :=
  match PeerOps.best_path p now_ms with
  | Some path => Some (path_address path)
  | None => path_address <$> head (peer_paths p)
  end.

Definition is_stale_state (p : Peer) : bool := match peer_state p with Stale _ _ _ => true | _ => false end.
Definition is_unknown (p : Peer) : bool := match peer_state p with Unknown => true | _ => false end.

Definition mark_stale_peers (n : Node) (now_ms : Z) : Node :=
  fold_left (fun n addr => NodeOps.update_peer n addr (fun peer => PeerOps.mark_stale peer now_ms))
    (map fst (filter (fun x => PeerOps.is_stale x.2 now_ms = true) (peers_in_order n))) n.

Definition reconnect_targets (n : Node) (now_ms : Z) : list (bytes * SocketAddr) :=
  omap (fun x => if is_stale_state x.2 && PeerOps.needs_reconnect x.2 now_ms
                 then pair x.1 <$> path_or_first x.2 now_ms else None) (peers_in_order n).

Definition ping_targets (n : Node) (now_ms : Z) : list (bytes * SocketAddr) :=
  omap (fun x => if PeerOps.needs_ping x.2 now_ms then pair x.1 <$> path_or_first x.2 now_ms else None)
    (peers_in_order n).

Definition heartbeat_targets (n : Node) (pings : list (bytes * SocketAddr)) (now_ms : Z) : list (bytes * SocketAddr) :=
  concat (map (fun x =>
    map (fun path => (x.1, path_address path))
      (filter (fun path => (PathOps.needs_heartbeat path now_ms && PathOps.is_alive path now_ms
                            && negb (existsb (fun t => bool_decide (t.1 = x.1)) pings)) = true) (peer_paths x.2)))
    (peers_in_order n)).

Definition root_reconnect (n : Node) : list (bytes * SocketAddr) :=
  omap (fun root_addr =>
    peer ← NodeOps.get_peer n root_addr;
    if is_unknown peer then (fun p => (root_addr, path_address p)) <$> head (peer_paths peer) else None)
    (t_roots (nd_topology n)).

(** ** PUSH_DIRECT_PATHS *)

Definition push_targets (n : Node) (now_ms : Z) : list (bytes * SocketAddr) :=
  let members := concat (map (fun net => map nm_zt_address (nw_members net)) (nd_networks n)) in
  omap (fun x => if negb (peer_is_root x.2) && bool_decide (x.1 ∈ members) && is_active x.2
                    && ((peer_last_direct_path_push x.2 =? 0)
                        || (ZT_DIRECT_PATH_PUSH_INTERVAL <=? sat_sub now_ms (peer_last_direct_path_push x.2)))
                 then (fun path => (x.1, path_address path)) <$> PeerOps.best_path x.2 now_ms else None)
    (peers_in_order n).

Definition local_paths (n : Node) : PushDirectP.t :=
  PushDirectP.mk (map (fun endpoint => PushDirectP.mkPath 0 (Inet.from_socket_addr endpoint)) (nd_local_addresses n)).

Definition push_paths_to (now_ms : Z) (target : bytes * SocketAddr) (n : Node) : step Node :=
  let '(addr, phys_addr) := target in
  match NodeOps.shared_secret_for_peer n addr with
  | None => Ok n
  | Some shared_secret =>
      let* payload := Vl2.serialized (PushDirectP.serialize (local_paths n)) 512 in
      match payload with
      | None => Ok n
      | Some payload =>
          let '(packet_id, n) := NodeOps.allocate_packet_id n in
          let* packet := Vl2.build_encrypted_verb_packet packet_id (NodeOps.our_address n) addr PushDirectPaths
                           payload shared_secret in
          Ok match packet with
             | Some packet => NodeOps.update_peer (NodeOps.push_action n (SendTo packet phys_addr)) addr
                                (fun peer => with_push peer now_ms)
             | None => n
             end
      end
  end.

Definition push_direct_paths (n : Node) (now_ms : Z) : step Node :=
  match nd_local_addresses n with
  | [] => Ok n
  | _ => for_each (push_targets n now_ms) (push_paths_to now_ms) n
  end.

(** ** NETWORK_CONFIG_REQUEST *)

Definition CONFIG_REQUEST_INTERVAL_MS : Z := 30000.
Definition CONTROLLER_WHOIS_RETRY_INTERVAL_MS : Z := 10000.

(** The membership with its request noted, and whether to send it now. *)
Definition mark_due (net : NetworkMembership) (now_ms : Z) : NetworkMembership * bool :=
  if negb (Network.our_com_refresh_due net now_ms) && negb (nw_pending_config_request net) then (net, false) else
  let net := NodeOps.with_request net true (nw_last_config_request net) in
  if negb (nw_last_config_request net =? 0)
     && (sat_sub now_ms (nw_last_config_request net) <? CONFIG_REQUEST_INTERVAL_MS)
  then (net, false) else (net, true).

Definition first_path_of (n : Node) (addr : bytes) : option SocketAddr :=
  peer ← NodeOps.get_peer n addr; path_address <$> head (peer_paths peer).

(** Where to send to a controller: its own path, else that of the first root. *)
Definition controller_route (n : Node) (ctrl_addr : bytes) : option SocketAddr :=
  match first_path_of n ctrl_addr with
  | Some a => Some a
  | None => root_addr ← head (t_roots (nd_topology n)); first_path_of n root_addr
  end.

Definition whois_due (n : Node) (ctrl_addr : bytes) (now_ms : Z) : bool :=
  match t_pending_whois (nd_topology n) !! ctrl_addr with
  | Some (sent_ms, _) => CONTROLLER_WHOIS_RETRY_INTERVAL_MS <=? sat_sub now_ms sent_ms
  | None => true
  end.

Definition send_config_request (n : Node) (network_id : Z) (ctrl_addr shared_secret : bytes) (phys_addr : SocketAddr)
    (now_ms : Z) : step Node :=
  let req := NcrP.mk network_id request_metadata in
  let* payload := Vl2.serialized (NcrP.serialize req) 512 in
  match payload with
  | None => Ok n
  | Some payload =>
      let '(packet_id, n) := NodeOps.allocate_packet_id n in
      let* packet := Vl2.build_encrypted_verb_packet packet_id (NodeOps.our_address n) ctrl_addr NetworkConfigRequest
                       payload shared_secret in
      Ok match packet with
         | Some packet =>
             NodeOps.update_network (NodeOps.push_action n (SendTo packet phys_addr)) network_id
               (fun net => NodeOps.with_request net (nw_pending_config_request net) now_ms)
         | None => n
         end
  end.

Definition config_request (now_ms : Z) (request : Z * bytes) (n : Node) : step Node :=
  let '(network_id, ctrl_addr) := request in
  match controller_route n ctrl_addr with
  | None => Ok n
  | Some phys_addr =>
      if negb (match NodeOps.get_peer n ctrl_addr with Some p => is_active p | None => false end) then
        if whois_due n ctrl_addr now_ms then
          let t := nd_topology n in
          Ok (NodeOps.push_action (with_topology n (with_pending t (<[ctrl_addr := (now_ms, 0)]> (t_pending_whois t))))
                (WhoisNeeded [ctrl_addr]))
        else Ok n
      else
        match NodeOps.shared_secret_for_peer n ctrl_addr with
        | None => Ok n
        | Some shared_secret => send_config_request n network_id ctrl_addr shared_secret phys_addr now_ms
        end
  end.

Definition due_requests (n : Node) (now_ms : Z) : list (Z * bytes) :=
  omap (fun net => if (mark_due net now_ms).2
                   then Some (nw_network_id net, NodeOps.controller_address_from_network_id (nw_network_id net))
                   else None) (nd_networks n).

Definition queue_config_requests (n : Node) (now_ms : Z) : step Node :=
  for_each (due_requests n now_ms) (config_request now_ms)
    (with_networks n (map (fun net => (mark_due net now_ms).1) (nd_networks n))).

Definition flush_config_requests (n : Node) (now_ms : Z) : step (list NodeAction * Node) :=
  let saved := nd_actions n in
  let* n := queue_config_requests (with_actions n []) now_ms in
  Ok (nd_actions n, with_actions n saved).

(** ** Multicast upkeep *)

Definition MULTICAST_LIKE_INTERVAL_MS : Z := 30000.
Definition MULTICAST_GATHER_INTERVAL_MS : Z := 45000.
Definition MULTICAST_SUBSCRIPTION_MAX_AGE_MS : Z := 90000.

Definition with_multicast_times (m : NetworkMembership) (like gather : Z) : NetworkMembership :=
  {| nw_network_id := nw_network_id m; nw_members := nw_members m; nw_our_com := nw_our_com m;
     nw_peer_coms := nw_peer_coms m; nw_mtu := nw_mtu m; nw_assigned_ipv4 := nw_assigned_ipv4 m;
     nw_assigned_ipv6 := nw_assigned_ipv6 m; nw_routes := nw_routes m;
     nw_pending_config_request := nw_pending_config_request m; nw_last_config_request := nw_last_config_request m;
     nw_last_multicast_like := like; nw_last_multicast_gather := gather |}.

(** A network's turn: its position, its id, the members to tell, the groups we are in. *)
Record Due := mkDue { due_index : nat; due_network : Z; due_peers : list bytes; due_groups : list MulticastGroupKey }.

Definition due_turns (n : Node) (due : NetworkMembership -> bool) : list Due :=
  omap (fun x : nat * NetworkMembership =>
    let local_groups := Multicast.groups_for_subscriber (nd_multicast n) (nw_network_id x.2) (NodeOps.our_address n) in
    let peers := filter (fun a => a <> NodeOps.our_address n) (map nm_zt_address (nw_members x.2)) in
    match local_groups, peers with
    | [], _ | _, [] => None
    | _, _ => if due x.2 then Some (mkDue x.1 (nw_network_id x.2) peers local_groups) else None
    end) (imap pair (nd_networks n)).

Definition due_likes (n : Node) (now_ms : Z) : list Due :=
  due_turns n (fun net => MULTICAST_LIKE_INTERVAL_MS <=? sat_sub now_ms (nw_last_multicast_like net)).
Definition due_gathers (n : Node) (now_ms : Z) : list Due :=
  due_turns n (fun net => MULTICAST_GATHER_INTERVAL_MS <=? sat_sub now_ms (nw_last_multicast_gather net)).

(** [self.networks\[index\].f = v]. *)
Definition set_network (n : Node) (index : nat) (f : NetworkMembership -> NetworkMembership) : step Node :=
  match nd_networks n !! index with
  | Some net => Ok (with_networks n (<[index := f net]> (nd_networks n)))
  | None => Panic
  end.

(** A live path to a peer and the secret of its session. *)
Definition reachable (n : Node) (addr : bytes) (now_ms : Z) : option (SocketAddr * bytes) :=
  peer ← NodeOps.get_peer n addr;
  path ← PeerOps.best_path peer now_ms;
  secret ← PeerOps.shared_secret peer;
  Some (path_address path, secret).

(** A packet with this payload, under a new id; [sent] does the bookkeeping of the id. *)
Definition send_sealed (n : Node) (addr : bytes) (verb : Verb) (payload secret : bytes) (path : SocketAddr)
    (sent : Z -> Node -> Node) : step Node :=
  let '(packet_id, n) := NodeOps.allocate_packet_id n in
  let* packet := Vl2.build_encrypted_verb_packet packet_id (NodeOps.our_address n) addr verb payload secret in
  Ok match packet with
     | Some packet => NodeOps.push_action (sent packet_id n) (SendTo packet path)
     | None => n
     end.

(** The node and the addresses no session was found for. *)
Abbreviation gathering := (Node * gset bytes)%type.

Definition like_to (payload : bytes) (now_ms : Z) (addr : bytes) (st : gathering) : step gathering :=
  let '(n, unresolved) := st in
  match reachable n addr now_ms with
  | None => Ok (n, {[addr]} ∪ unresolved)
  | Some (path, secret) =>
      let* n := send_sealed n addr MulticastLike payload secret path (fun _ n => n) in Ok (n, unresolved)
  end.

Definition like_turn (now_ms : Z) (d : Due) (st : gathering) : step gathering :=
  let '(n, unresolved) := st in
  let* n := set_network n (due_index d) (fun net => with_multicast_times net now_ms (nw_last_multicast_gather net)) in
  let like := Multicast.build_multicast_like (nd_multicast n) (due_network d) (NodeOps.our_address n) in
  let* payload := Vl2.serialized (LikeP.serialize like) (len (LikeP.groups like) * 18) in
  match payload with
  | None => Ok (n, unresolved)
  | Some payload => for_each (due_peers d) (like_to payload now_ms) (n, unresolved)
  end.

Definition gather_group (network_id now_ms : Z) (addr secret : bytes) (path : SocketAddr) (group : MulticastGroupKey)
    (n : Node) : step Node :=
  let gather := GatherP.mk network_id (b8 0) (k_mac group) (k_adi group) 64 None in
  let* payload := Vl2.serialized (GatherP.serialize gather) 256 in
  match payload with
  | None => Ok n
  | Some payload =>
      send_sealed n addr MulticastGather payload secret path (fun packet_id n =>
        with_gathers n (nd_gathers n ++ [mkGather packet_id now_ms network_id (k_mac group) (k_adi group)]))
  end.

Definition gather_from (d : Due) (now_ms : Z) (addr : bytes) (st : gathering) : step gathering :=
  let '(n, unresolved) := st in
  match reachable n addr now_ms with
  | None => Ok (n, {[addr]} ∪ unresolved)
  | Some (path, secret) =>
      let* n := for_each (due_groups d) (gather_group (due_network d) now_ms addr secret path) n in Ok (n, unresolved)
  end.

Definition gather_turn (now_ms : Z) (d : Due) (st : gathering) : step gathering :=
  let '(n, unresolved) := st in
  let* n := set_network n (due_index d) (fun net => with_multicast_times net (nw_last_multicast_like net) now_ms) in
  for_each (due_peers d) (gather_from d now_ms) (n, unresolved).

(** A [BTreeSet] of addresses, in order. *)
Definition addr_le (a b : bytes) : Prop := from_be a <= from_be b.
#[local] Instance addr_le_dec : RelDecision addr_le.
Proof. intros a b. unfold addr_le. apply _. Defined.
Definition in_order (s : gset bytes) : list bytes := merge_sort addr_le (elements s).

Definition multicast_upkeep (n : Node) (now_ms : Z) : step Node :=
  let likes := due_likes n now_ms in
  let gathers := due_gathers n now_ms in
  let* st := for_each likes (like_turn now_ms) (n, ∅) in
  let* ' (n, unresolved) := for_each gathers (gather_turn now_ms) st in
  Ok (if bool_decide (unresolved = ∅) then n else NodeOps.push_action n (WhoisNeeded (in_order unresolved))).

(** ** The timer and the start *)

Definition expire (n : Node) (now_ms : Z) : Node :=
  let n := with_reassembly n (Fragment.evict_stale (nd_reassembly n) now_ms ZT_PATH_HEARTBEAT_PERIOD) in
  let n := with_multicast n (Multicast.expire_old (nd_multicast n) now_ms MULTICAST_SUBSCRIPTION_MAX_AGE_MS) in
  with_gathers n (filter (fun g => sat_sub now_ms (pg_requested_at_ms g) <= MULTICAST_SUBSCRIPTION_MAX_AGE_MS)
                    (nd_gathers n)).

(** The four loops that send HELLOs. Keepalives are recorded without their packet id. *)
Definition send_pings (targets : list (bytes * SocketAddr)) (now_ms : Z) (n : Node) : step Node :=
  for_each targets (greet (fun _ => 0) now_ms) n.
Definition send_heartbeats (targets : list (bytes * SocketAddr)) (now_ms : Z) (n : Node) : step Node :=
  for_each targets (greet (fun _ => 0) now_ms) n.
Definition reconnect_stale (targets : list (bytes * SocketAddr)) (now_ms : Z) (n : Node) : step Node :=
  for_each targets (greet id now_ms) n.
Definition reconnect_roots (now_ms : Z) (n : Node) : step Node :=
  for_each (root_reconnect n) (greet id now_ms) n.

Definition tick (n : Node) (now_ms : Z) : step (list NodeAction * Node) :=
  let n := expire (with_actions n []) now_ms in
  let n := mark_stale_peers n now_ms in
  let reconnects := reconnect_targets n now_ms in
  let pings := ping_targets n now_ms in
  let heartbeats := heartbeat_targets n pings now_ms in
  let* n := send_pings pings now_ms n in
  let* n := send_heartbeats heartbeats now_ms n in
  let* n := push_direct_paths n now_ms in
  let* n := reconnect_stale reconnects now_ms n in
  let* n := reconnect_roots now_ms n in
  let* n := queue_config_requests n now_ms in
  let* n := multicast_upkeep n now_ms in
  Ok (NodeOps.drain_actions n).

Definition root_info (n : Node) : list (bytes * SocketAddr) :=
  omap (fun addr => pair addr <$> first_path_of n addr) (t_roots (nd_topology n)).

(** The first HELLO to a root, and its state. *)
Definition greet_root (now_ms : Z) (target : bytes * SocketAddr) (n : Node) : step Node :=
  let '(root_addr, phys_addr) := target in
  let* h := NodeOps.hello_for n root_addr phys_addr now_ms in
  Ok match h with
     | None => n
     | Some (data, packet_id) =>
         NodeOps.update_peer (NodeOps.push_action n (SendTo data phys_addr)) root_addr (fun peer =>
           with_state peer (HelloSent now_ms packet_id ZT_PATH_HELLO_RATE_LIMIT))
     end.

Definition bootstrap (n : Node) (now_ms : Z) : step (list NodeAction * Node) :=
  let n := with_actions n [] in
  let* n := for_each (root_info n) (greet_root now_ms) n in
  Ok (NodeOps.drain_actions (with_root_manager n (mkRootManager now_ms))).
End NodeTick.
End NodeTick.
