(* ===== verification/NodeUpkeep.v ===== *)
(** * NodeUpkeep: the node's timers complete, keep its invariant, and keep its sessions,
    configurations and roots alive. *)
From S2P Require Export NodeTick NodeTotal.

Module NodeUpkeep.
Import NodeTick.
Section NodeUpkeep.
Context {P : Prims} {L : PrimLaws P} {T : Target}.

(** ** What upkeep preserves *)

(** The node afterwards: as sound as before, with the same peers, secrets and networks, and the
    actions asked for so far still asked for. *)
Record upkeep (n n' : Node) : Prop := {
  up_ok : NodeInv.node_ok n';
  up_identity : nd_identity n' = nd_identity n;
  up_planet : t_planet (nd_topology n') = t_planet (nd_topology n);
  up_roots : t_roots (nd_topology n') = t_roots (nd_topology n);
  up_secrets : forall a, NodeOps.shared_secret_for_peer n' a = NodeOps.shared_secret_for_peer n a;
  up_actions : exists l, nd_actions n' = nd_actions n ++ l;
  up_networks : map nw_network_id (nd_networks n') = map nw_network_id (nd_networks n);
}.

Lemma upkeep_refl n : NodeInv.node_ok n -> upkeep n n.
Proof. intros ?. split; try done. exists []. by rewrite app_nil_r. Qed.

Lemma upkeep_trans n1 n2 n3 : upkeep n1 n2 -> upkeep n2 n3 -> upkeep n1 n3.
Proof.
  intros [A1 A2 A3 A4 A5 [l A6] A7] [B1 B2 B3 B4 B5 [k B6] B7].
  split; [done|congruence..| | |congruence].
  - intros a. by rewrite B5, A5.
  - exists (l ++ k). by rewrite B6, A6, app_assoc.
Qed.

Lemma upkeep_action n1 n2 x : upkeep n1 n2 -> x ∈ nd_actions n1 -> x ∈ nd_actions n2.
Proof. intros H Hx. destruct (up_actions _ _ H) as [l ->]. apply elem_of_app. by left. Qed.

Lemma upkeep_keeps n n' : NodeInv.keeps n n' -> t_planet (nd_topology n') = t_planet (nd_topology n) ->
  t_roots (nd_topology n') = t_roots (nd_topology n) ->
  (forall a, NodeOps.shared_secret_for_peer n' a = NodeOps.shared_secret_for_peer n a) ->
  (exists l, nd_actions n' = nd_actions n ++ l) -> map nw_network_id (nd_networks n') = map nw_network_id (nd_networks n) ->
  upkeep n n'.
Proof. intros (? & ? & _). by split. Qed.

Lemma same_actions n n' : nd_actions n' = nd_actions n -> exists l, nd_actions n' = nd_actions n ++ l.
Proof. intros ->. exists []. by rewrite app_nil_r. Qed.

Lemma upkeep_push n a : NodeInv.node_ok n -> action_ok a -> upkeep n (NodeOps.push_action n a).
Proof. intros Hn Ha. apply upkeep_keeps; try done; [by apply NodeInv.keeps_push|by exists [a]]. Qed.

Lemma upkeep_packet_id n : NodeInv.node_ok n -> upkeep n (NodeOps.allocate_packet_id n).2.
Proof. intros Hn. apply upkeep_keeps; try done; [by apply NodeInv.keeps_packet_id|by apply same_actions]. Qed.

Lemma upkeep_gathers n l : NodeInv.node_ok n -> Forall (fun g => NodeInv.key_ok (NodeInv.gather_key g)) l ->
  upkeep n (with_gathers n l).
Proof. intros Hn Hl. apply upkeep_keeps; try done; [by apply NodeInv.keeps_gathers|by apply same_actions]. Qed.

Lemma upkeep_networks n l : NodeInv.node_ok n -> Forall NodeConfig.network_ok l ->
  map nw_network_id l = map nw_network_id (nd_networks n) -> upkeep n (with_networks n l).
Proof.
  intros Hn Hw Hl. apply upkeep_keeps; try done; [by apply NodeInv.keeps_networks|by apply same_actions].
Qed.

Lemma upkeep_update_network n nid f : NodeInv.node_ok n ->
  (forall x, NodeConfig.roster (f x) = NodeConfig.roster x) -> upkeep n (NodeOps.update_network n nid f).
Proof.
  intros Hn Hf. apply upkeep_networks; [done|..].
  - apply update_first_Forall; [by apply NodeInv.ty_networks, NodeInv.nk_typed|]. intros x _. by apply NodeConfig.roster_ok.
  - apply update_first_map. intros x. by pose proof (Hf x) as [= -> _].
Qed.

Lemma upkeep_whois n m : NodeInv.node_ok n -> upkeep n (with_topology n (with_pending (nd_topology n) m)).
Proof.
  intros Hn. apply upkeep_keeps; try done; [|by apply same_actions].
  apply NodeInv.keeps_topology; [done| |exact (NodeInv.nk_paths _ Hn)|apply NodeInv.ty_peers, NodeInv.nk_typed, Hn|done].
  by destruct (NodeInv.nk_topology _ Hn); split.
Qed.

Lemma upkeep_update_peer n a f : NodeInv.node_ok n ->
  (forall p, NodeOps.get_peer n a = Some p -> PeerOps.peer_ok p -> NodeInv.paths_ok p ->
     PeerOps.peer_ok (f p) /\ peer_identity (f p) = peer_identity p /\ NodeInv.paths_ok (f p) /\
     PeerOps.shared_secret (f p) = PeerOps.shared_secret p) ->
  upkeep n (NodeOps.update_peer n a f).
Proof.
  intros Hn Hf. apply upkeep_keeps; try done; [| |by apply same_actions].
  - apply NodeInv.keeps_update_peer; [done|]. intros p Hp Hpo Hpa. by destruct (Hf p Hp Hpo Hpa) as (? & ? & ? & _).
  - intros b. unfold NodeOps.shared_secret_for_peer, NodeOps.get_peer, Topo.get_peer. cbn.
    destruct (decide (a = b)) as [<-|Hab]; [|by rewrite lookup_alter_ne].
    rewrite lookup_alter_eq. destruct (t_peers (nd_topology n) !! a) as [p|] eqn:Ep; [|done]. cbn.
    destruct (Hf p Ep) as (_ & Hi & _ & Hs).
    + by apply (Topo.to_peers _ (NodeInv.nk_topology _ Hn)) in Ep as [_ ?].
    + by apply (NodeInv.nk_paths _ Hn) in Ep.
    + by rewrite Hi, Hs.
Qed.

(** ** Loops of upkeep *)

(** A loop whose every turn stays in the relation [R], and does what it is there for. *)
Lemma for_each_rel {A} (R : Node -> Node -> Prop) (xs : list A) (body : A -> Node -> step Node) (Did : A -> Node -> Prop) n0 n :
  (forall n1 n2 n3, R n1 n2 -> R n2 n3 -> R n1 n3) -> (forall n1 n2, R n1 n2 -> R n2 n2) ->
  (forall x n, x ∈ xs -> R n0 n -> safe (body x n) (fun n' => R n n' /\ Did x n')) ->
  (forall x n n', Did x n -> R n n' -> Did x n') ->
  R n0 n -> safe (for_each xs body n) (fun n' => R n n' /\ forall x, x ∈ xs -> Did x n').
Proof.
  intros Htrans Hrefl Hb Hstable. revert n. induction xs as [|x xs IH]; intros n Hn.
  { simpl. split; [by eapply Hrefl|]. intros x Hx. by apply elem_of_nil in Hx. }
  simpl. apply wp_bind. eapply wp_mono; [by apply Hb; [left|]| |done]. intros n1 [H1 Hd].
  eapply wp_mono; [apply IH; [intros y m Hy; apply Hb; by right|by eapply Htrans]| |done].
  intros n2 [H2 Hall]. split; [by eapply Htrans|]. intros y [->|Hy]%elem_of_cons; [by eapply Hstable|by apply Hall].
Qed.

Lemma for_each_upkeep {A} (xs : list A) (body : A -> Node -> step Node) (Did : A -> Node -> Prop) n0 n :
  (forall x n, x ∈ xs -> upkeep n0 n -> safe (body x n) (fun n' => upkeep n n' /\ Did x n')) ->
  (forall x n n', Did x n -> upkeep n n' -> Did x n') ->
  upkeep n0 n -> safe (for_each xs body n) (fun n' => upkeep n n' /\ forall x, x ∈ xs -> Did x n').
Proof.
  intros Hb Hs. apply for_each_rel; [by apply upkeep_trans| |done..]. intros n1 n2 H. by apply upkeep_refl; apply H.
Qed.

(** ** HELLOs *)

(** [q] is a HELLO of this node to the peer [a] at [phys]: the peer authenticates it with the
    secret they share and reads it. *)
Definition hello_to (n : Node) (a : bytes) (phys : SocketAddr) (now_ms : Z) (q : bytes) : Prop :=
  exists payload k,
    Root.sealed (default (replicate 48 (b8 0)) (NodeOps.shared_secret_for_peer n a)) now_ms a (NodeOps.our_address n) 0
      Hello payload q /\
    HelloP.deserialize payload =
      Ok (Root.hello_of (nd_identity n) phys now_ms (NodeOps.planet_id n) (NodeOps.planet_ts n), k).

Lemma hello_to_upkeep n n' a phys now q : upkeep n n' -> hello_to n' a phys now q -> hello_to n a phys now q.
Proof.
  intros H. unfold hello_to, NodeOps.our_address, NodeOps.planet_id, NodeOps.planet_ts.
  by rewrite (up_identity _ _ H), (up_planet _ _ H), (up_secrets _ _ H).
Qed.

Definition greeted (n0 : Node) (now_ms : Z) (target : bytes * SocketAddr) (n : Node) : Prop :=
  exists q, SendTo q target.2 ∈ nd_actions n /\ hello_to n0 target.1 target.2 now_ms q.

Lemma greeted_upkeep n0 now x n n' : greeted n0 now x n -> upkeep n n' -> greeted n0 now x n'.
Proof. intros (q & Hq & Hh) H. exists q. split; [by eapply upkeep_action|done]. Qed.

Lemma hello_for_reads n a target now : NodeInv.node_ok n -> len a = 5 -> sock_ok target -> u64_ok now ->
  exists q, NodeOps.hello_for n a target now = Ok (Some (q, now)) /\ hello_to n a target now q.
Proof.
  intros Hn Ha Ht Hnow. destruct (NodeInv.nk_planet _ Hn) as [Hpi Hpt].
  pose proof (Root.hello_of_wf _ _ _ _ _ (NodeInv.nk_identity _ Hn) Ht Hnow Hpi Hpt) as Hw.
  unfold hello_to, NodeOps.hello_for. set (ss := default (replicate 48 (b8 0)) (NodeOps.shared_secret_for_peer n a)).
  assert (len ss = 48) as Hss.
  { unfold ss. destruct (NodeOps.shared_secret_for_peer n a) eqn:E; simpl; [|done]. by eapply NodeInv.shared_secret_len. }
  destruct (Root.build_hello_sealed (nd_identity n) a target ss now (NodeOps.planet_id n) (NodeOps.planet_ts n)
    (replicate 512 (b8 0)) Hw Ha (NodeInv.our_address_len n Hn) Hss) as (q & tl & Htl & _ & Hsq & Hb); [done|].
  exists q. rewrite Hb. cbn [attempt]. rewrite rbind_ok. pose proof (len_nonneg q).
  rewrite slice_here, rbind_ok by len_lia. split; [done|]. do 2 eexists. split; [exact Hsq|].
  apply HelloP.hello_deserialize_encode; [done|lia].
Qed.

(** A peer and where to find it. *)
Definition target_ok (target : bytes * SocketAddr) : Prop := len target.1 = 5 /\ sock_ok target.2.

Lemma sent_addresses l phys now :
  map path_address (update_first (fun path => bool_decide (path_address path = phys)) (fun path => PathOps.sent path now) l) =
  map path_address l.
Proof. by apply update_first_map. Qed.

Lemma greet_upkeep n0 id_of now x n : upkeep n0 n -> target_ok x -> u64_ok now ->
  safe (greet id_of now x n) (fun n' => upkeep n n' /\ greeted n0 now x n').
Proof.
  intros H0 [Ha Hs] Hnow. destruct x as [a phys]. cbn in Ha, Hs. pose proof (up_ok _ _ H0) as Hn.
  unfold greet. destruct (hello_for_reads n a phys now Hn Ha Hs Hnow) as (q & -> & Hq). rewrite rbind_ok. cbn [wp].
  set (n1 := NodeOps.push_action n (SendTo q phys)). pose proof (upkeep_push n (SendTo q phys) Hn I) as H1. fold n1 in H1.
  assert (upkeep n1 (NodeOps.update_peer n1 a (fun peer => let peer := PeerOps.on_hello_sent peer (id_of now) now in
    with_paths peer (update_first (fun path => bool_decide (path_address path = phys)) (fun path => PathOps.sent path now) (peer_paths peer))))) as H2.
  { apply upkeep_update_peer; [apply H1|]. intros p _ Hpo Hpa. cbv zeta.
    pose proof (sent_addresses (peer_paths p) phys now) as Hm. split_and!.
    - apply NodeInv.peer_ok_paths; [exact Hm|by apply PeerOps.on_hello_sent_ok].
    - done.
    - by eapply NodeInv.paths_ok_addresses; [exact Hm|].
    - unfold PeerOps.shared_secret. cbn. by destruct (peer_state p). }
  split; [by eapply upkeep_trans|]. exists q. split; [|by eapply hello_to_upkeep].
  eapply upkeep_action; [exact H2|]. cbn. apply elem_of_app. right. by apply list_elem_of_singleton.
Qed.

Lemma greet_all id_of now n0 xs n : upkeep n0 n -> Forall target_ok xs -> u64_ok now ->
  safe (for_each xs (greet id_of now) n) (fun n' => upkeep n n' /\ forall x, x ∈ xs -> greeted n0 now x n').
Proof.
  intros H0 Hxs Hnow. apply for_each_upkeep with n0; [|by intros; eapply greeted_upkeep|done].
  intros x m Hx Hm. apply greet_upkeep; [done| |done]. by apply (proj1 (Forall_forall _ _) Hxs).
Qed.

(** ** Targets *)

Lemma elem_of_peers n a p : (a, p) ∈ peers_in_order n <-> NodeOps.get_peer n a = Some p.
Proof. apply elem_of_btree_iter. Qed.

Lemma path_target n a p path : NodeInv.node_ok n -> NodeOps.get_peer n a = Some p -> path ∈ peer_paths p ->
  target_ok (a, path_address path).
Proof.
  intros Hn Hp Hx. pose proof (NodeInv.nk_typed _ Hn) as Ht. split; [by apply (NodeInv.ty_peers _ Ht a p)|]. apply (NodeInv.nk_paths _ Hn a p) in Hp.
  by apply (proj1 (Forall_forall _ _) Hp).
Qed.

Lemma head_elem {A} (l : list A) x : head l = Some x -> x ∈ l.
Proof. destruct l; [done|]. intros [= ->]. left. Qed.

Lemma path_or_first_ok n a p now phys : NodeInv.node_ok n -> NodeOps.get_peer n a = Some p ->
  path_or_first p now = Some phys -> target_ok (a, phys).
Proof.
  intros Hn Hp. unfold path_or_first. destruct (PeerOps.best_path p now) as [x|] eqn:Eb.
  - intros [= <-]. apply (path_target n a p x); [done..|]. by apply PeerOps.best_path_Some in Eb as [? _].
  - intros (x & Hx & ->)%fmap_Some. by apply (path_target n a p x); [..|apply head_elem].
Qed.

(** Targets picked from the peers. *)
Lemma picked_ok n (f : bytes * Peer -> option (bytes * SocketAddr)) : 
  (forall a p x, NodeOps.get_peer n a = Some p -> f (a, p) = Some x -> target_ok x) ->
  Forall target_ok (omap f (peers_in_order n)).
Proof.
  intros Hf. apply Forall_forall. intros x ((a & p) & Hin & Hx)%list_elem_of_omap.
  apply elem_of_peers in Hin. by eapply Hf.
Qed.

Lemma ping_targets_ok n now : NodeInv.node_ok n -> Forall target_ok (ping_targets n now).
Proof.
  intros Hn. apply picked_ok. intros a p x Hp. cbn. destruct (PeerOps.needs_ping p now); [|done].
  intros (phys & Hph & ->)%fmap_Some. by eapply path_or_first_ok.
Qed.

Lemma reconnect_targets_ok n now : NodeInv.node_ok n -> Forall target_ok (reconnect_targets n now).
Proof.
  intros Hn. apply picked_ok. intros a p x Hp. cbn. destruct (_ && _); [|done].
  intros (phys & Hph & ->)%fmap_Some. by eapply path_or_first_ok.
Qed.

Lemma push_targets_ok n now : NodeInv.node_ok n -> Forall target_ok (push_targets n now).
Proof.
  intros Hn. apply picked_ok. intros a p x Hp. cbn. destruct (_ && _); [|done].
  intros (path & Hb & ->)%fmap_Some. apply (path_target n a p path); [done..|]. by apply PeerOps.best_path_Some in Hb as [? _].
Qed.

Lemma heartbeat_targets_ok n pings now : NodeInv.node_ok n -> Forall target_ok (heartbeat_targets n pings now).
Proof.
  intros Hn. apply Forall_forall. intros x Hx. apply list_elem_of_In, in_concat in Hx as (l & Hl & Hx).
  apply in_map_iff in Hl as ((a & p) & <- & Hap). apply in_map_iff in Hx as (path & <- & Hpath).
  apply list_elem_of_In, elem_of_peers in Hap. apply list_elem_of_In, list_elem_of_filter in Hpath as [_ Hpath].
  by apply (path_target n a p path).
Qed.

Lemma first_path_target n a phys : NodeInv.node_ok n -> first_path_of n a = Some phys -> target_ok (a, phys).
Proof.
  intros Hn. unfold first_path_of. destruct (NodeOps.get_peer n a) as [p|] eqn:Ep; [|done]. cbn.
  intros (x & Hx & ->)%fmap_Some. by apply (path_target n a p x); [..|apply head_elem].
Qed.

Lemma root_reconnect_ok n : NodeInv.node_ok n -> Forall target_ok (root_reconnect n).
Proof.
  intros Hn. apply Forall_forall. intros x (a & Ha & Hx)%list_elem_of_omap.
  destruct (NodeOps.get_peer n a) as [p|] eqn:Ep; [|done]. cbn in Hx. destruct (is_unknown p); [|done].
  apply fmap_Some in Hx as (path & Hp & ->). by apply (path_target n a p path); [..|apply head_elem].
Qed.

(** ** Packets of upkeep *)

(** [q] is a packet of this node to the peer [a]: the peer decrypts it and finds [payload]. *)
Definition packet_to (n : Node) (a secret : bytes) (verb : Verb) (payload q : bytes) : Prop :=
  exists packet_id, Root.sealed secret packet_id a (NodeOps.our_address n) 1 verb payload q.

Lemma packet_builds n pid a verb payload ss : NodeInv.node_ok n -> len a = 5 -> len ss = 48 ->
  exists q, Vl2.build_encrypted_verb_packet pid (NodeOps.our_address n) a verb payload ss = Ok (Some q) /\
    packet_to n a ss verb payload q.
Proof.
  intros Hn Ha Hss. destruct (Vl2.build_encrypted_sealed pid (NodeOps.our_address n) a verb payload ss) as (q & Hq & _ & Hs);
    [lia|done|exact (NodeInv.our_address_len n Hn)|]. exists q. split; [done|by exists pid].
Qed.

Lemma upkeep_send_sealed n a verb payload ss path sent : NodeInv.node_ok n -> len a = 5 -> len ss = 48 ->
  (forall pid n, NodeInv.node_ok n -> upkeep n (sent pid n)) ->
  safe (send_sealed n a verb payload ss path sent) (fun n' => upkeep n n' /\
    exists q, SendTo q path ∈ nd_actions n' /\ packet_to n a ss verb payload q).
Proof.
  intros Hn Ha Hss Hsent. unfold send_sealed. cbn [NodeOps.allocate_packet_id]. set (n1 := with_next_packet_id n _).
  pose proof (upkeep_packet_id n Hn) as H1. change (NodeOps.allocate_packet_id n).2 with n1 in H1. destruct (packet_builds n1 (nd_next_packet_id n) a verb payload ss) as (q & -> & Hq); [apply H1|done..|].
  rewrite rbind_ok. cbn [wp]. pose proof (Hsent (nd_next_packet_id n) n1 (up_ok _ _ H1)) as H2.
  split.
  - eapply upkeep_trans; [exact H1|]. eapply upkeep_trans; [exact H2|]. by apply upkeep_push; [apply H2|].
  - exists q. split; [|exact Hq]. cbn. apply elem_of_app. right. by apply list_elem_of_singleton.
Qed.

Lemma local_path_ok x : sock_ok x -> PushDirectP.path_ok (PushDirectP.mkPath 0 (Inet.from_socket_addr x)) /\
  len (PushDirectP.encode_path (PushDirectP.mkPath 0 (Inet.from_socket_addr x))) <= 24.
Proof.
  intros Hx. split; [by split|]. unfold PushDirectP.encode_path. cbn [PushDirectP.dp_flags PushDirectP.dp_address].
  unfold sock_ok in Hx. destruct (Inet.from_socket_addr x); cbn in Hx; destruct_and?; unfold AddrTail.encode; len_lia.
Qed.

Lemma local_paths_serialize n : NodeInv.node_ok n ->
  Vl2.serialized (PushDirectP.serialize (local_paths n)) 512 = Ok (Some (PushDirectP.encode (local_paths n))).
Proof.
  intros Hn. destruct (NodeInv.ty_local _ (NodeInv.nk_typed _ Hn)) as [Hl H8]. unfold local_paths. set (l := nd_local_addresses n) in *. clearbody l.
  apply Vl2.serialized_emits.
  - apply (@pc_emits _ PushDirectP.codec). cbn. apply List.Forall_map. eapply Forall_impl; [exact Hl|]. intros x Hx.
    by apply local_path_ok.
  - unfold PushDirectP.encode. cbn [PushDirectP.paths]. rewrite len_app.
    assert (len (concat (map PushDirectP.encode_path (map (fun e => PushDirectP.mkPath 0 (Inet.from_socket_addr e)) l))) <= 24 * len l).
    { clear H8. induction Hl as [|x l Hx _ IH]; [done|]. cbn [map concat]. rewrite len_app, len_cons.
      pose proof (proj2 (local_path_ok x Hx)). lia. }
    unfold MAX_LOCAL_ADDRESSES in H8. len_lia.
Qed.

Lemma push_paths_upkeep now x n : NodeInv.node_ok n -> target_ok x -> safe (push_paths_to now x n) (upkeep n).
Proof.
  intros Hn [Ha Hs]. destruct x as [a phys]. cbn in Ha, Hs. unfold push_paths_to.
  destruct (NodeOps.shared_secret_for_peer n a) as [ss|] eqn:Es; [|by apply upkeep_refl].
  rewrite local_paths_serialize, rbind_ok by done. cbn [NodeOps.allocate_packet_id]. set (n1 := with_next_packet_id n _).
  pose proof (upkeep_packet_id n Hn) as H1. change (NodeOps.allocate_packet_id n).2 with n1 in H1.
  destruct (packet_builds n1 (nd_next_packet_id n) a PushDirectPaths (PushDirectP.encode (local_paths n)) ss) as (q & -> & _);
    [apply H1|done|by eapply NodeInv.shared_secret_len|]. rewrite rbind_ok. cbn [wp].
  set (n2 := NodeOps.push_action n1 _). pose proof (upkeep_push n1 (SendTo q phys) (up_ok _ _ H1) I) as H2. fold n2 in H2.
  eapply upkeep_trans; [exact H1|]. eapply upkeep_trans; [exact H2|]. apply upkeep_update_peer; [apply H2|].
  intros p _ Hpo Hpa. by destruct Hpo.
Qed.

Lemma push_direct_paths_upkeep n now : NodeInv.node_ok n -> safe (push_direct_paths n now) (upkeep n).
Proof.
  intros Hn. unfold push_direct_paths. destruct (nd_local_addresses n); [by apply upkeep_refl|].
  eapply wp_mono; [apply (for_each_upkeep _ _ (fun _ _ => True) n); [|done|by apply upkeep_refl]|by intros n' [? _]|done].
  intros x m Hx Hm. eapply wp_mono; [apply push_paths_upkeep; [apply Hm|]|done|done].
  by apply (proj1 (Forall_forall _ _) (push_targets_ok n now Hn)).
Qed.

(** ** Configuration requests *)

Lemma mark_due_roster net now : NodeConfig.roster (mark_due net now).1 = NodeConfig.roster net.
Proof. unfold mark_due. by repeat case_match. Qed.

Lemma request_fits nid : len (NcrP.encode (NcrP.mk nid request_metadata)) <= 512 /\ len request_metadata <= U16_MAX.
Proof.
  assert (len request_metadata <= 400) as Hm.
  { unfold request_metadata, manytier_network_config_request_os_arch.
    repeat case_match; apply Z.leb_le; vm_compute; reflexivity. }
  split; [|unfold U16_MAX; lia]. unfold NcrP.encode. cbn [NcrP.network_id NcrP.dict_data].
  rewrite !len_app, !len_to_be. lia.
Qed.

(** What the requests change: nothing the next request depends on, beyond what they record. *)
Record requests (now_ms : Z) (n n' : Node) : Prop := {
  rq_upkeep : upkeep n n';
  rq_peers : t_peers (nd_topology n') = t_peers (nd_topology n);
  rq_whois : forall c, whois_due n c now_ms = true -> whois_due n' c now_ms = true \/ WhoisNeeded [c] ∈ nd_actions n';
  rq_last : forall nid net', NodeOps.find_network n' nid = Some net' ->
    exists net, NodeOps.find_network n nid = Some net /\
      (nw_last_config_request net' = nw_last_config_request net \/ nw_last_config_request net' = now_ms);
}.

Lemma requests_trans now n1 n2 n3 : requests now n1 n2 -> requests now n2 n3 -> requests now n1 n3.
Proof.
  intros [A1 A2 A3 A4] [B1 B2 B3 B4]. split; [by eapply upkeep_trans|congruence|..].
  - intros c Hc. destruct (A3 c Hc) as [Hc'|Hc']; [by apply B3|right; by eapply upkeep_action].
  - intros nid net3 H3. destruct (B4 nid net3 H3) as (net2 & H2 & Hl). destruct (A4 nid net2 H2) as (net1 & H1 & Hl').
    exists net1. split; [done|]. destruct Hl as [->| ->]; [done|by right].
Qed.

Lemma requests_same now n n' : upkeep n n' -> t_peers (nd_topology n') = t_peers (nd_topology n) ->
  t_pending_whois (nd_topology n') = t_pending_whois (nd_topology n) -> nd_networks n' = nd_networks n -> requests now n n'.
Proof.
  intros H Hp Hw Hn. split; [done|done|..].
  - intros c. unfold whois_due. rewrite Hw. by left.
  - intros nid net. unfold NodeOps.find_network. rewrite Hn. intros ->. eauto.
Qed.

Lemma requests_refl now n : NodeInv.node_ok n -> requests now n n.
Proof. intros Hn. by apply requests_same; [apply upkeep_refl|..]. Qed.

(** What became of a due request. *)
Definition requested (n0 : Node) (now_ms : Z) (request : Z * bytes) (n : Node) : Prop :=
  let '(nid, ctrl) := request in
  match controller_route n0 ctrl, NodeOps.get_peer n0 ctrl with
  | None, _ => True
  | Some phys, Some p =>
      if is_active p then
        exists secret q, NodeOps.shared_secret_for_peer n0 ctrl = Some secret /\ SendTo q phys ∈ nd_actions n /\
          packet_to n0 ctrl secret NetworkConfigRequest (NcrP.encode (NcrP.mk nid request_metadata)) q /\
          forall net, NodeOps.find_network n nid = Some net -> nw_last_config_request net = now_ms
      else whois_due n0 ctrl now_ms = true -> WhoisNeeded [ctrl] ∈ nd_actions n
  | Some _, None => whois_due n0 ctrl now_ms = true -> WhoisNeeded [ctrl] ∈ nd_actions n
  end.

Lemma requested_stable n0 now x n n' : requested n0 now x n -> requests now n n' -> requested n0 now x n'.
Proof.
  destruct x as [nid ctrl]. unfold requested. intros H Hr. destruct (controller_route n0 ctrl) as [phys|]; [|done].
  assert (forall y, y ∈ nd_actions n -> y ∈ nd_actions n') as Ha
    by (intros y; apply upkeep_action, (rq_upkeep _ _ _ Hr)).
  destruct (NodeOps.get_peer n0 ctrl) as [p|]; [|auto]. destruct (is_active p); [|auto].
  destruct H as (ss & q & Hss & Hq & Hp & Hl). exists ss, q. split_and!; [done|by apply Ha|done|].
  intros net' H'. destruct (rq_last _ _ _ Hr nid net' H') as (net & Hf & [->| ->]); [by apply Hl|done].
Qed.

Lemma find_update_fmap n nid f : (forall x, nw_network_id (f x) = nw_network_id x) ->
  NodeOps.find_network (NodeOps.update_network n nid f) nid = f <$> NodeOps.find_network n nid.
Proof.
  intros Hf. unfold NodeOps.find_network, NodeOps.update_network. cbn. induction (nd_networks n) as [|x l IH]; [done|]. cbn.
  unfold NodeOps.is_network in *. destruct (nw_network_id x =? nid) eqn:E; cbn; [by rewrite Hf, E|by rewrite E].
Qed.

Lemma send_request_spec n nid ctrl ss phys now : NodeInv.node_ok n -> len ctrl = 5 -> len ss = 48 -> u64_ok nid ->
  safe (send_config_request n nid ctrl ss phys now) (fun n' => requests now n n' /\
    (exists q, SendTo q phys ∈ nd_actions n' /\
       packet_to n ctrl ss NetworkConfigRequest (NcrP.encode (NcrP.mk nid request_metadata)) q) /\
    forall net, NodeOps.find_network n' nid = Some net -> nw_last_config_request net = now).
Proof.
  intros Hn Hc Hss Hnid. unfold send_config_request. cbv zeta.
  rewrite (Vl2.serialized_emits _ (NcrP.encode (NcrP.mk nid request_metadata)));
    [|exact (@pc_emits _ NcrP.codec (NcrP.mk nid request_metadata) Hnid)|apply request_fits].
  rewrite rbind_ok. cbn [NodeOps.allocate_packet_id]. set (n1 := with_next_packet_id n _).
  pose proof (upkeep_packet_id n Hn) as H1. change (NodeOps.allocate_packet_id n).2 with n1 in H1.
  destruct (packet_builds n1 (nd_next_packet_id n) ctrl NetworkConfigRequest (NcrP.encode (NcrP.mk nid request_metadata)) ss)
    as (q & -> & Hq); [apply H1|done..|]. rewrite rbind_ok. cbn [wp].
  set (n2 := NodeOps.push_action n1 (SendTo q phys)). pose proof (upkeep_push n1 (SendTo q phys) (up_ok _ _ H1) I) as H2.
  fold n2 in H2. set (f := fun net => NodeOps.with_request net (nw_pending_config_request net) now). set (n3 := NodeOps.update_network n2 nid f).
  assert (upkeep n2 n3) as H3 by (by apply upkeep_update_network; [apply H2|]).
  assert (upkeep n n3) as H by (eapply upkeep_trans; [exact H1|by eapply upkeep_trans]).
  assert (forall x, nw_network_id (f x) = nw_network_id x) as Hid by done.
  split_and!.
  - split; [exact H|done|by left|]. intros nid' net' Hf. destruct (decide (nid = nid')) as [<-|Hne].
    + unfold n3 in Hf. rewrite find_update_fmap in Hf by done. apply fmap_Some in Hf as (net & Hnet & ->).
      exists net. split; [exact Hnet|by right].
    + unfold n3 in Hf. rewrite NodeOps.find_network_other in Hf by done. exists net'. split; [exact Hf|by left].
  - exists q. split; [|exact Hq]. cbn. apply elem_of_app. right. by apply list_elem_of_singleton.
  - intros net Hf. unfold n3 in Hf. rewrite find_update_fmap in Hf by done. by apply fmap_Some in Hf as (? & _ & ->).
Qed.

Lemma controller_address_len nid : len (NodeOps.controller_address_from_network_id nid) = 5.
Proof. done. Qed.

Lemma request_whois_spec n ctrl now : NodeInv.node_ok n -> len ctrl = 5 ->
  let t := nd_topology n in
  requests now n (NodeOps.push_action (with_topology n (with_pending t (<[ctrl := (now, 0)]> (t_pending_whois t)))) (WhoisNeeded [ctrl])).
Proof.
  intros Hn Hc t. pose proof (upkeep_whois n (<[ctrl := (now, 0)]> (t_pending_whois t)) Hn) as H1.
  set (n1 := with_topology n _) in *. pose proof (upkeep_push n1 (WhoisNeeded [ctrl]) (up_ok _ _ H1) ltac:(by constructor)) as H2.
  split; [by eapply upkeep_trans|done| |].
  - intros c. unfold whois_due. cbn. destruct (decide (ctrl = c)) as [<-|Hne].
    + intros _. right. apply elem_of_app. right. by apply list_elem_of_singleton.
    + rewrite lookup_insert_ne by done. by left.
  - intros nid net Hf. exists net. split; [exact Hf|by left].
Qed.

Lemma config_request_run n0 now x n : requests now n0 n -> u64_ok x.1 -> len x.2 = 5 ->
  safe (config_request now x n) (fun n' => requests now n n' /\ requested n0 now x n').
Proof.
  intros H0 Hnid Hlen. destruct x as [nid ctrl]. cbn in Hnid, Hlen. pose proof (rq_upkeep _ _ _ H0) as Hu.
  pose proof (up_ok _ _ Hu) as Hn.
  assert (forall a, NodeOps.get_peer n a = NodeOps.get_peer n0 a) as Hg
    by (intros a; unfold NodeOps.get_peer, Topo.get_peer; by rewrite (rq_peers _ _ _ H0)).
  assert (controller_route n ctrl = controller_route n0 ctrl) as Hroute.
  { unfold controller_route, first_path_of. rewrite Hg, (up_roots _ _ Hu). destruct (NodeOps.get_peer n0 ctrl ≫= _); [done|].
    destruct (head (t_roots (nd_topology n0))); [|done]. cbn. by rewrite Hg. }
  unfold config_request, requested. rewrite Hroute. destruct (controller_route n0 ctrl) as [phys|];
    [|split; [by apply requests_refl|done]].
  rewrite Hg. set (m := negb _).
  assert (m = true -> safe (if whois_due n ctrl now then
    Ok (NodeOps.push_action (with_topology n (with_pending (nd_topology n) (<[ctrl := (now, 0)]> (t_pending_whois (nd_topology n)))))
      (WhoisNeeded [ctrl])) else @Ok Empty_set _ n) (fun n' => requests now n n' /\
        (whois_due n0 ctrl now = true -> WhoisNeeded [ctrl] ∈ nd_actions n'))) as Hwhois.
  { intros _. destruct (whois_due n ctrl now) eqn:Ew; cbn [wp].
    - split; [by apply request_whois_spec|]. intros _. cbn. apply elem_of_app. right. by apply list_elem_of_singleton.
    - split; [by apply requests_refl|]. intros Hd. destruct (rq_whois _ _ _ H0 ctrl Hd) as [Hd'|]; [by rewrite Ew in Hd'|done]. }
  unfold m in *. destruct (NodeOps.get_peer n0 ctrl) as [p|] eqn:Ep; [|by apply Hwhois].
  destruct (is_active p) eqn:Ea; cbn [negb]; [|by apply Hwhois]. clear Hwhois.
  assert (exists ss, NodeOps.shared_secret_for_peer n0 ctrl = Some ss) as [ss Hss].
  { unfold NodeOps.shared_secret_for_peer. rewrite Ep. unfold is_active, PeerOps.shared_secret in *. by destruct (peer_state p); eauto. }
  rewrite (up_secrets _ _ Hu), Hss. eapply wp_mono; [apply send_request_spec; [done..| |done]| |done].
  - eapply NodeInv.shared_secret_len; [exact Hn|]. by rewrite (up_secrets _ _ Hu).
  - intros n' (Hr & (q & Hq & Hp) & Hl). split; [done|]. exists ss, q. split_and!; [done|done| |done].
    unfold packet_to, NodeOps.our_address in *. by rewrite <- (up_identity _ _ Hu).
Qed.

Lemma due_requests_ok n now x : NodeInv.node_ok n -> x ∈ due_requests n now ->
  u64_ok x.1 /\ x.2 = NodeOps.controller_address_from_network_id x.1.
Proof.
  intros Hn (net & Hnet & Hx)%list_elem_of_omap. destruct (mark_due net now).2; [|done]. injection Hx as <-.
  split; [|done]. by apply (NodeInv.network_u64 n).
Qed.

Lemma queue_requests_spec n now : NodeInv.node_ok n ->
  safe (queue_config_requests n now) (fun n' => upkeep n n' /\
    forall x, x ∈ due_requests n now -> requested n now x n').
Proof.
  intros Hn. unfold queue_config_requests. set (nets := map _ (nd_networks n)).
  assert (map nw_network_id nets = map nw_network_id (nd_networks n)) as Hids.
  { unfold nets. rewrite map_map. apply map_ext. intros net. by pose proof (mark_due_roster net now) as [= -> _]. }
  assert (Forall NodeConfig.network_ok nets) as Hnets.
  { apply List.Forall_map. eapply Forall_impl; [by apply NodeInv.ty_networks, NodeInv.nk_typed|]. intros net.
    apply NodeConfig.roster_ok, mark_due_roster. }
  pose proof (upkeep_networks n nets Hn Hnets Hids) as H1. set (n1 := with_networks n nets) in *.
  eapply wp_mono; [apply (for_each_rel (requests now) _ _ (requested n1 now) n1)| |done].
  - apply requests_trans.
  - intros m1 m2 H. apply requests_refl; apply (rq_upkeep _ _ _ H).
  - intros x m Hx Hm. destruct (due_requests_ok n now x Hn Hx) as [Hid Hc]. apply config_request_run; [done|done|by rewrite Hc].
  - intros x m m'. apply requested_stable.
  - apply requests_refl; apply H1.
  - intros n2 [H2 Hall]. split; [eapply upkeep_trans; [exact H1|apply (rq_upkeep _ _ _ H2)]|]. exact Hall.
Qed.

Lemma mark_due_limited net now : nw_last_config_request net <> 0 ->
  sat_sub now (nw_last_config_request net) < CONFIG_REQUEST_INTERVAL_MS -> (mark_due net now).2 = false.
Proof.
  intros H0 Hlt. unfold mark_due. destruct (_ && _); [done|]. cbn. rewrite if_true; [done|].
  rewrite (proj2 (Z.eqb_neq _ _) H0). cbn. by apply Z.ltb_lt.
Qed.

(** A request is wanted again at once when a packet for an unknown address comes five seconds or
    more after the last one, and not for thirty seconds when it comes sooner. *)
Lemma mark_due_unknown n nid net t later now : NodeOps.find_network (NodeOps.note_unknown_destination n nid t) nid = Some net ->
  (forall net0, NodeOps.find_network n nid = Some net0 -> nw_last_config_request net0 = now) ->
  0 < now <= t -> t <= later < now + 30000 -> (mark_due net later).2 = (5000 <=? t - now).
Proof.
  intros Hf Hlast Hnow Ht. unfold NodeOps.note_unknown_destination in Hf. rewrite find_update_fmap in Hf by done.
  apply fmap_Some in Hf as (net0 & Hnet & ->). rewrite (Hlast _ Hnet).
  replace (sat_sub t now) with (t - now) by (unfold sat_sub; lia). destruct (Z.leb_spec 5000 (t - now)).
  - unfold mark_due. cbn. by rewrite andb_false_r.
  - apply mark_due_limited; cbn; [lia|]. unfold sat_sub, CONFIG_REQUEST_INTERVAL_MS. lia.
Qed.

(** C16. Configuration requests: whenever the node flushes them, every network that is due one -
    its certificate about to expire, or a configuration wanted, and none asked for in the last 30
    seconds - is served as its controller can be reached. When there is a path towards the
    controller and a session with it, it gets a packet it decrypts and reads as the request for that
    network with the node's metadata; the network, as the flush leaves it, is then not due for 30
    seconds; a packet for an unknown address leaves that so in the first 5 of them, and from then on
    makes it due at once. Without a session, the roots are asked for the controller unless they
    were in the last 10 seconds. Nothing else of the node changes but its packet counter,
    the requests noted and the actions. *)
Theorem config_requests_served (n : Node) (now_ms : Z) : NodeInv.node_ok n -> 0 < now_ms ->
  exists actions n', flush_config_requests n now_ms = Ok (actions, n') /\ upkeep n n' /\ nd_actions n' = nd_actions n /\
    forall net, net ∈ nd_networks n -> (mark_due net now_ms).2 = true ->
      let nid := nw_network_id net in
      let ctrl := NodeOps.controller_address_from_network_id nid in
      forall phys, controller_route n ctrl = Some phys ->
      if match NodeOps.get_peer n ctrl with Some p => is_active p | None => false end
      then exists secret q, NodeOps.shared_secret_for_peer n ctrl = Some secret /\ SendTo q phys ∈ actions /\
        packet_to n ctrl secret NetworkConfigRequest (NcrP.encode (NcrP.mk nid request_metadata)) q /\
        NcrP.deserialize (NcrP.encode (NcrP.mk nid request_metadata)) = Ok (NcrP.mk nid request_metadata) /\
        (forall net' later, NodeOps.find_network n' nid = Some net' -> now_ms <= later < now_ms + 30000 ->
          (mark_due net' later).2 = false) /\
        forall net' unknown_at later, NodeOps.find_network (NodeOps.note_unknown_destination n' nid unknown_at) nid = Some net' ->
          now_ms <= unknown_at -> unknown_at <= later < now_ms + 30000 ->
          (mark_due net' later).2 = (5000 <=? unknown_at - now_ms)
      else whois_due n ctrl now_ms = true -> WhoisNeeded [ctrl] ∈ actions.
Proof.
  intros Hn Hnow. unfold flush_config_requests. set (n0 := with_actions n []).
  assert (NodeInv.node_ok n0) as Hn0 by by apply (NodeInv.keeps_actions n).
  destruct (step_ok _ _ (queue_requests_spec n0 now_ms Hn0)) as (n1 & -> & H1 & Hall). rewrite rbind_ok.
  exists (nd_actions n1), (with_actions n1 (nd_actions n)). split; [done|]. split; [|split; [done|]].
  { destruct H1 as [A1 A2 A3 A4 A5 A6 A7]. split; try done.
    - by apply (NodeInv.keeps_actions n1), NodeInv.actions_ok.
    - exists []. by rewrite app_nil_r. }
  intros net Hnet Hdue. set (nid := nw_network_id net). cbv zeta.
  set (ctrl := NodeOps.controller_address_from_network_id nid). intros phys Hroute. assert (u64_ok nid) as Hnid by by apply (NodeInv.network_u64 n).
  assert ((nid, ctrl) ∈ due_requests n0 now_ms) as Hin.
  { apply list_elem_of_omap. exists net. split; [exact Hnet|]. by rewrite Hdue. }
  specialize (Hall _ Hin). unfold requested in Hall. change (controller_route n0 ctrl) with (controller_route n ctrl) in Hall.
  rewrite Hroute in Hall. change (NodeOps.get_peer n0 ctrl) with (NodeOps.get_peer n ctrl) in Hall.
  destruct (NodeOps.get_peer n ctrl) as [p|]; [|exact Hall]. destruct (is_active p); [|exact Hall].
  destruct Hall as (ss & q & Hss & Hq & Hp & Hl). exists ss, q. split_and!; [exact Hss|exact Hq|exact Hp| | |].
  - apply (@pc_roundtrip _ NcrP.codec (NcrP.mk nid request_metadata)). split; [exact Hnid|apply (request_fits nid)].
  - intros net' later Hf Hlater. pose proof (Hl net' Hf) as Hlast.
    apply mark_due_limited; rewrite Hlast; [lia|]. unfold sat_sub, CONFIG_REQUEST_INTERVAL_MS. lia.
  - intros net' t later Hf H1' H2'. eapply mark_due_unknown; [exact Hf| |lia|exact H2']. exact Hl.
Qed.

(** ** Multicast upkeep *)

Lemma reachable_ok n a now path ss : NodeInv.node_ok n -> reachable n a now = Some (path, ss) ->
  len a = 5 /\ len ss = 48.
Proof.
  intros Hn. pose proof (NodeInv.nk_typed _ Hn) as Ht. unfold reachable. destruct (NodeOps.get_peer n a) as [p|] eqn:Ep; [|done]. cbn.
  destruct (PeerOps.best_path p now); [|done]. cbn. destruct (PeerOps.shared_secret p) as [s|] eqn:Es; [|done]. cbn.
  intros [= <- <-]. split; [by apply (NodeInv.ty_peers _ Ht a p)|]. apply (NodeInv.shared_secret_len n a); [done|].
  unfold NodeOps.shared_secret_for_peer. by rewrite Ep, Es.
Qed.

Lemma groups_ok n nid a : NodeInv.node_ok n -> Forall NodeInv.key_ok (Multicast.groups_for_subscriber (nd_multicast n) nid a).
Proof.
  intros Hn. unfold Multicast.groups_for_subscriber. apply List.Forall_map, Forall_forall.
  intros x [_ Hx]%list_elem_of_filter. by apply (proj1 (Forall_forall _ _) (NodeInv.ty_groups _ (NodeInv.nk_typed _ Hn))).
Qed.

Record due_ok (n : Node) (d : Due) : Prop := {
  do_index : (due_index d < length (nd_networks n))%nat;
  do_network : u64_ok (due_network d);
  do_groups : Forall NodeInv.key_ok (due_groups d);
  do_peers : Forall (fun a => len a = 5) (due_peers d);
}.

Lemma due_turns_ok n f d : NodeInv.node_ok n -> d ∈ due_turns n f -> due_ok n d.
Proof.
  intros Hn ((i & net) & Hin & Hd)%list_elem_of_omap. cbn in Hd.
  assert ((i < length (nd_networks n))%nat /\ net ∈ nd_networks n) as [Hi Hnet].
  { apply elem_of_lookup_imap in Hin as (j & x & [= -> ->] & Hx). split; [by eapply lookup_lt_Some|by eapply list_elem_of_lookup_2]. }
  pose proof (groups_ok n (nw_network_id net) (NodeOps.our_address n) Hn) as Hg.
  pose proof (proj1 (Forall_forall _ _) (NodeInv.ty_networks _ (NodeInv.nk_typed _ Hn)) net Hnet) as [Hid Hms].
  assert (Forall (fun a => len a = 5) (filter (fun a => a <> NodeOps.our_address n) (map nm_zt_address (nw_members net)))) as Hps.
  { apply Forall_forall. intros a [_ Ha]%list_elem_of_filter. apply list_elem_of_In, in_map_iff in Ha as (m & <- & Hm%list_elem_of_In).
    by apply (proj1 (Forall_forall _ _) Hms m). }
  destruct (Multicast.groups_for_subscriber _ _ _) as [|g gs]; [done|]. destruct (filter _ _); [done|]. destruct (f net); [|done].
  by injection Hd as <-.
Qed.

Lemma due_ok_upkeep n n' d : upkeep n n' -> due_ok n d -> due_ok n' d.
Proof.
  intros H [Hi ? ? ?]. split; [|done..]. pose proof (f_equal length (up_networks _ _ H)) as Hl. rewrite !length_map in Hl. lia.
Qed.

Lemma set_network_upkeep n i f : NodeInv.node_ok n -> (i < length (nd_networks n))%nat ->
  (forall x, NodeConfig.roster (f x) = NodeConfig.roster x) -> safe (set_network n i f) (upkeep n).
Proof.
  intros Hn Hi Hf. unfold set_network. destruct (lookup_lt_is_Some_2 _ _ Hi) as [net Hnet]. rewrite Hnet. cbn [wp].
  pose proof (NodeInv.ty_networks _ (NodeInv.nk_typed _ Hn)) as Hw. apply upkeep_networks; [done|..].
  { apply Forall_insert; [done|]. eapply NodeConfig.roster_ok; [apply Hf|]. by apply (Forall_lookup_1 _ _ _ _ Hw Hnet). }
  change (nw_network_id <$> <[i:=f net]> (nd_networks n) = nw_network_id <$> nd_networks n).
  rewrite list_fmap_insert. pose proof (Hf net) as [= -> _]. apply list_insert_id. by rewrite list_lookup_fmap, Hnet.
Qed.

(** Upkeep of the node of a pair, whose unresolved peers are ZeroTier addresses. *)
Definition upkept (n0 : Node) (st : Node * gset bytes) : Prop := upkeep n0 st.1 /\ set_Forall (fun a => len a = 5) st.2.

Lemma upkept_unresolved (n0 n : Node) (unresolved : gset bytes) a : upkept n0 (n, unresolved) -> len a = 5 ->
  upkept n0 (n, {[a]} ∪ unresolved).
Proof. intros [H Hu] Ha. split; [exact H|]. apply set_Forall_union; [by apply set_Forall_singleton|exact Hu]. Qed.

Lemma upkept_node (n0 n n' : Node) (unresolved : gset bytes) : upkept n0 (n, unresolved) -> upkeep n n' -> upkept n0 (n', unresolved).
Proof. intros [H Hu] H'. split; [by eapply upkeep_trans|exact Hu]. Qed.

Lemma like_to_upkeep n0 payload now a st : len a = 5 -> upkept n0 st -> safe (like_to payload now a st) (upkept n0).
Proof.
  intros H5 H. destruct st as [n unresolved]. unfold like_to.
  pose proof (up_ok _ _ (proj1 H)) as Hn. cbn in Hn.
  destruct (reachable n a now) as [[path ss]|] eqn:Er; [|by apply upkept_unresolved]. destruct (reachable_ok n a now path ss Hn Er) as [Ha Hss].
  apply wp_bind. eapply wp_mono; [apply upkeep_send_sealed; [done..|by intros; apply upkeep_refl]| |done].
  intros n' [H' _]. cbn [wp]. by eapply upkept_node.
Qed.

Lemma like_turn_upkeep n0 now d st : due_ok n0 d -> upkept n0 st -> safe (like_turn now d st) (upkept n0).
Proof.
  intros Hd H. destruct st as [n unresolved]. unfold like_turn. pose proof (due_ok_upkeep _ _ _ (proj1 H) Hd) as [Hi _ _ Hps].
  apply wp_bind. eapply wp_mono; [by apply set_network_upkeep; [exact (up_ok _ _ (proj1 H))|..]| |done].
  intros n1 H1. pose proof (upkept_node _ _ _ _ H H1) as H01. cbv zeta.
  set (like := Multicast.build_multicast_like _ _ _). assert (LikeP.shape like) as Hs.
  { unfold LikeP.shape, like, Multicast.build_multicast_like. cbn. apply List.Forall_map.
    eapply Forall_impl; [apply groups_ok, (up_ok _ _ H1)|]. by intros k (? & ? & ?). }
  rewrite (Vl2.serialized_emits _ (LikeP.encode like)), rbind_ok;
    [|by apply LikeP.like_serialize_emits|rewrite LikeP.like_len_encode by done; lia].
  apply (wp_for_each (upkept n0)); [|exact H01|done]. intros a s Ha.
  apply like_to_upkeep. by apply (proj1 (Forall_forall _ _) Hps).
Qed.

Lemma gather_group_upkeep nid now a ss path g n : NodeInv.node_ok n -> len a = 5 -> len ss = 48 ->
  u64_ok nid -> NodeInv.key_ok g -> safe (gather_group nid now a ss path g n) (upkeep n).
Proof.
  intros Hn Ha Hss Hnid (_ & Hm & Hadi). unfold gather_group. cbv zeta. set (gp := GatherP.mk _ _ _ _ _ _).
  assert (GatherP.shape gp) as Hs by by split_and!.
  rewrite (Vl2.serialized_emits _ (GatherP.encode gp)), rbind_ok;
    [|exact (@pc_emits _ GatherP.codec gp Hs)|unfold GatherP.encode, gp; cbn; len_lia].
  eapply wp_mono; [apply upkeep_send_sealed; [done..|]|by intros n' [? _]|done].
  intros pid m Hm'. apply upkeep_gathers; [done|]. apply Forall_app. split; [apply NodeInv.ty_gathers, NodeInv.nk_typed, Hm'|].
  by constructor.
Qed.

Lemma gather_from_upkeep n0 d now a st : len a = 5 -> due_ok n0 d -> upkept n0 st -> safe (gather_from d now a st) (upkept n0).
Proof.
  intros H5 Hd H. destruct st as [n unresolved]. unfold gather_from.
  destruct (reachable n a now) as [[path ss]|] eqn:Er; [|by apply upkept_unresolved].
  destruct (reachable_ok n a now path ss (up_ok _ _ (proj1 H)) Er) as [Ha Hss].
  apply wp_bind. apply (wp_for_each (upkeep n0)); [|exact (proj1 H)|intros n' H'; by split; [|apply H]].
  intros g m Hg Hm. eapply wp_mono; [apply gather_group_upkeep; [apply Hm|done|done|apply Hd|]| |done].
  - by apply (proj1 (Forall_forall _ _) (do_groups _ _ Hd)).
  - intros n' H'. by eapply upkeep_trans.
Qed.

Lemma gather_turn_upkeep n0 now d st : due_ok n0 d -> upkept n0 st -> safe (gather_turn now d st) (upkept n0).
Proof.
  intros Hd H. destruct st as [n unresolved]. unfold gather_turn. pose proof (due_ok_upkeep _ _ _ (proj1 H) Hd) as [Hi _ _ Hps].
  apply wp_bind. eapply wp_mono; [by apply set_network_upkeep; [exact (up_ok _ _ (proj1 H))|..]| |done].
  intros n1 H1. apply (wp_for_each (upkept n0)); [|by eapply upkept_node|done]. intros a s Ha.
  by apply gather_from_upkeep; [apply (proj1 (Forall_forall _ _) Hps)|..].
Qed.

Lemma multicast_upkeep_upkeep n now : NodeInv.node_ok n -> safe (multicast_upkeep n now) (upkeep n).
Proof.
  intros Hn. unfold multicast_upkeep. cbv zeta. apply wp_bind.
  apply (wp_for_each (upkept n)); [|by split; [by apply upkeep_refl|]|].
  { intros d s Hd. apply like_turn_upkeep. by eapply due_turns_ok. }
  intros st Hst. apply wp_bind. apply (wp_for_each (upkept n)); [|done|].
  { intros d s Hd. apply gather_turn_upkeep. by eapply due_turns_ok. }
  intros [n' unresolved] [H' Hu]. cbn in H', Hu. cbn [wp]. destruct (bool_decide _); [exact H'|].
  eapply upkeep_trans; [exact H'|apply upkeep_push; [apply H'|]]. cbn. unfold in_order. rewrite merge_sort_Permutation.
  apply Forall_forall. intros a Ha%elem_of_elements. by apply Hu.
Qed.

(** ** The timer *)

Lemma filter_size {V} (Q : Z * V -> Prop) `{forall x, Decision (Q x)} (m : gmap Z V) : (size (filter Q m) <= size m)%nat.
Proof. apply map_subseteq_size, map_filter_subseteq. Qed.

Lemma expire_ok n now : NodeInv.node_ok n -> NodeInv.node_ok (expire n now).
Proof.
  intros Hn. unfold expire. cbv zeta. set (n1 := with_reassembly n _).
  assert (NodeInv.node_ok n1) as H1.
  { apply NodeInv.reassembly_ok; [done|]. destruct (NodeInv.nk_buffer _ Hn) as [Hb1 Hb2]. split; cbn.
    - intros i s [Hs _]%map_lookup_filter_Some. by apply (Hb1 i).
    - unfold Fragment.pending_len in *. pose proof (filter_size (fun '(_, s) => sat_sub now (fs_created_at s) < ZT_PATH_HEARTBEAT_PERIOD)
        (rb_pending (nd_reassembly n))). cbn. lia. }
  set (n2 := with_multicast n1 _). assert (NodeInv.keeps n1 n2) as [H2 _].
  { apply NodeInv.keeps_multicast, NodeInv.retain_multicast; [done|]. by apply NodeInv.node_multicast. }
  apply NodeInv.keeps_gathers; [done|]. apply Forall_forall. intros g [_ Hg]%list_elem_of_filter.
  by apply (proj1 (Forall_forall _ _) (NodeInv.ty_gathers _ (NodeInv.nk_typed _ H2))).
Qed.

Lemma stale_peers_ok n now : NodeInv.node_ok n -> NodeInv.node_ok (mark_stale_peers n now).
Proof.
  unfold mark_stale_peers. generalize (map fst (filter (fun x => PeerOps.is_stale x.2 now = true) (peers_in_order n))).
  intros l. revert n. induction l as [|a l IH]; intros n Hn; [done|]. cbn. apply IH.
  apply (NodeInv.keeps_update_peer n); [done|]. intros p _ Hpo Hpa. split_and!; [by apply PeerOps.mark_stale_ok|..];
    unfold PeerOps.mark_stale; by destruct (peer_state p).
Qed.

(** A peer as the timer sees it. *)
Definition aged (now_ms : Z) (p : Peer) : Peer := if PeerOps.is_stale p now_ms then PeerOps.mark_stale p now_ms else p.

Lemma mark_stale_twice p now : PeerOps.mark_stale (PeerOps.mark_stale p now) now = PeerOps.mark_stale p now.
Proof. unfold PeerOps.mark_stale. by destruct (peer_state p) eqn:E; cbn; rewrite ?E. Qed.

Lemma mark_fold_get now l n a :
  NodeOps.get_peer (fold_left (fun n addr => NodeOps.update_peer n addr (fun peer => PeerOps.mark_stale peer now)) l n) a =
  if bool_decide (a ∈ l) then (fun p => PeerOps.mark_stale p now) <$> NodeOps.get_peer n a else NodeOps.get_peer n a.
Proof.
  revert n. induction l as [|b l IH]; intros n; [done|]. cbn [fold_left]. rewrite IH.
  unfold NodeOps.get_peer, NodeOps.update_peer, Topo.get_peer, Topo.update_peer. cbn.
  destruct (decide (b = a)) as [->|Hne].
  - rewrite (bool_decide_true (a ∈ a :: l)) by left. rewrite lookup_alter_eq.
    case_bool_decide; [|done]. destruct (t_peers (nd_topology n) !! a); [|done]. cbn. by rewrite mark_stale_twice.
  - rewrite lookup_alter_ne by done. case_bool_decide as H1; case_bool_decide as H2; try done; set_solver.
Qed.

Lemma mark_stale_get n now a : NodeOps.get_peer (mark_stale_peers n now) a = aged now <$> NodeOps.get_peer n a.
Proof.
  unfold mark_stale_peers. rewrite mark_fold_get. set (l := filter _ _).
  assert (forall b, b ∈ map fst l <-> exists p, NodeOps.get_peer n b = Some p /\ PeerOps.is_stale p now = true) as Hl.
  { intros b. rewrite list_elem_of_In, in_map_iff. split.
    - intros ((b' & p) & <- & Hin%list_elem_of_In). apply list_elem_of_filter in Hin as [Hs Hin]. exists p.
      split; [by apply elem_of_peers|done].
    - intros (p & Hp & Hs). exists (b, p). split; [done|]. apply list_elem_of_In, list_elem_of_filter.
      split; [done|by apply elem_of_peers]. }
  destruct (NodeOps.get_peer n a) as [p|] eqn:Ep; [|by case_bool_decide]. cbn. unfold aged. f_equal.
  case_bool_decide as Ha.
  - apply Hl in Ha as (p' & Hp' & Hs). rewrite Ep in Hp'. injection Hp' as <-. by rewrite Hs.
  - destruct (PeerOps.is_stale p now) eqn:Es; [|done]. exfalso. apply Ha, Hl. by exists p.
Qed.

(** A peer to be greeted: a session silent for 500 seconds or unused for 60, a HELLO unanswered
    for its backoff, a lost session whose retry is due. *)
Definition wants_hello (p : Peer) (now_ms : Z) : Prop :=
  match peer_state p with
  | Active _ _ _ _ last_receive last_send =>
      ZT_PEER_ACTIVITY_TIMEOUT <= sat_sub now_ms last_receive \/ ZT_PEER_PING_PERIOD <= sat_sub now_ms last_send
  | HelloSent sent_at _ backoff => backoff <= sat_sub now_ms sent_at
  | Stale _ _ next_retry_at => next_retry_at <= now_ms
  | Unknown => False
  end.

Lemma aged_paths now p : peer_paths (aged now p) = peer_paths p.
Proof. unfold aged, PeerOps.mark_stale. by repeat case_match. Qed.

Lemma wants_hello_target p now : wants_hello p now ->
  PeerOps.needs_ping (aged now p) now = true \/
  is_stale_state (aged now p) && PeerOps.needs_reconnect (aged now p) now = true.
Proof.
  unfold wants_hello, aged, PeerOps.is_stale, PeerOps.mark_stale, PeerOps.needs_ping, PeerOps.needs_reconnect, is_stale_state.
  destruct (peer_state p) as [|sent pid b|ss k0 k1 lat lr ls|la b nr] eqn:E; [done|..].
  - intros H. left. destruct (_ <=? _); rewrite E; lia.
  - intros H. destruct (ZT_PEER_ACTIVITY_TIMEOUT <=? sat_sub now lr) eqn:Er; cbn; rewrite ?E.
    + right. by apply Z.leb_refl.
    + left. lia.
  - intros H. right. rewrite E. cbn. by apply Z.leb_le.
Qed.

(** The node the timer's HELLOs are sent from. *)
Definition at_tick (n : Node) (now_ms : Z) : Node := mark_stale_peers (expire (with_actions n []) now_ms) now_ms.

Lemma at_tick_ok n now : NodeInv.node_ok n -> NodeInv.node_ok (at_tick n now).
Proof.
  intros Hn. apply stale_peers_ok, expire_ok. by apply (NodeInv.keeps_actions n).
Qed.

Lemma at_tick_get n now a : NodeOps.get_peer (at_tick n now) a = aged now <$> NodeOps.get_peer n a.
Proof. unfold at_tick. by rewrite mark_stale_get. Qed.

Lemma tick_spec n now : NodeInv.node_ok n -> u64_ok now -> let m := at_tick n now in
  exists n', tick n now = Ok (NodeOps.drain_actions n') /\ upkeep m n' /\
    forall x, x ∈ ping_targets m now \/ x ∈ reconnect_targets m now -> greeted m now x n'.
Proof.
  intros Hn Hnow m. pose proof (at_tick_ok n now Hn) as Hm. fold m in Hm.
  unfold tick, send_pings, send_heartbeats, reconnect_stale, reconnect_roots. cbv zeta. fold (at_tick n now). fold m.
  pose proof (upkeep_refl m Hm) as H0.
  destruct (step_ok _ _ (greet_all (fun _ => 0) now m _ m H0 (ping_targets_ok m now Hm) Hnow)) as (n1 & -> & H1 & G1).
  rewrite rbind_ok.
  destruct (step_ok _ _ (greet_all (fun _ => 0) now m _ n1 H1 (heartbeat_targets_ok m (ping_targets m now) now Hm) Hnow)) as (n2 & -> & H2 & _).
  rewrite rbind_ok. pose proof (upkeep_trans _ _ _ H1 H2) as H02.
  destruct (step_ok _ _ (push_direct_paths_upkeep n2 now (up_ok _ _ H2))) as (n3 & -> & H3).
  rewrite rbind_ok. pose proof (upkeep_trans _ _ _ H02 H3) as H03.
  destruct (step_ok _ _ (greet_all id now m _ n3 H03 (reconnect_targets_ok m now Hm) Hnow)) as (n4 & -> & H4 & G4).
  rewrite rbind_ok. pose proof (upkeep_trans _ _ _ H03 H4) as H04.
  destruct (step_ok _ _ (greet_all id now m _ n4 H04 (root_reconnect_ok n4 (up_ok _ _ H4)) Hnow)) as (n5 & -> & H5 & _).
  rewrite rbind_ok. destruct (step_ok _ _ (queue_requests_spec n5 now (up_ok _ _ H5))) as (n6 & -> & H6 & _).
  rewrite rbind_ok. destruct (step_ok _ _ (multicast_upkeep_upkeep n6 now (up_ok _ _ H6))) as (n7 & -> & H7).
  rewrite rbind_ok. exists n7. pose proof (upkeep_trans _ _ _ H5 (upkeep_trans _ _ _ H6 H7)) as H57.
  pose proof (upkeep_trans _ _ _ H4 H57) as H47.
  split; [done|]. split; [by eapply upkeep_trans|]. intros x [Hx|Hx].
  - eapply greeted_upkeep; [by apply G1|]. eapply upkeep_trans; [exact H2|]. by eapply upkeep_trans.
  - eapply greeted_upkeep; [by apply G4|done].
Qed.

Lemma at_tick_identity n now : nd_identity (at_tick n now) = nd_identity n.
Proof.
  unfold at_tick, mark_stale_peers.
  generalize (map fst (filter (fun x => PeerOps.is_stale x.2 now = true) (peers_in_order (expire (with_actions n []) now)))).
  intros l. assert (nd_identity (expire (with_actions n []) now) = nd_identity n) as <- by done.
  generalize (expire (with_actions n []) now). induction l as [|b l IH]; intros k; [done|]. cbn. by rewrite IH.
Qed.

(** C15. The timer: it always completes, keeping the node's invariant and identity, and keeps
    every session alive: each peer with a path whose session was silent for 500 seconds, or
    unused for 60, or whose last HELLO went unanswered for its backoff, or whose retry is due, is
    sent a HELLO on its best path (its first, when none is alive) that the peer authenticates
    with the secret they share and reads. *)
Theorem tick_keeps_alive (n : Node) (now_ms : Z) : NodeInv.node_ok n -> u64_ok now_ms ->
  exists actions n', tick n now_ms = Ok (actions, n') /\ NodeInv.node_ok n' /\
    nd_identity n' = nd_identity n /\ nd_actions n' = [] /\
    forall a p phys, NodeOps.get_peer n a = Some p -> wants_hello p now_ms -> path_or_first p now_ms = Some phys ->
      exists q, SendTo q phys ∈ actions /\ hello_to (at_tick n now_ms) a phys now_ms q.
Proof.
  intros Hn Hnow. destruct (tick_spec n now_ms Hn Hnow) as (n1 & -> & H1 & Hg).
  exists (nd_actions n1), (with_actions n1 []). split; [done|]. split; [by apply (NodeInv.keeps_actions n1); [apply H1|]|].
  split; [|split; [done|]].
  { transitivity (nd_identity n1); [done|]. rewrite (up_identity _ _ H1). apply at_tick_identity. }
  intros a p phys Hp Hw Hph. assert (NodeOps.get_peer (at_tick n now_ms) a = Some (aged now_ms p)) as Hp'
    by by rewrite at_tick_get, Hp.
  assert (path_or_first (aged now_ms p) now_ms = Some phys) as Hph'.
  { unfold path_or_first, PeerOps.best_path in *. by rewrite aged_paths. }
  apply (Hg (a, phys)). destruct (wants_hello_target p now_ms Hw) as [Hd|Hd]; [left|right];
    (apply list_elem_of_omap; exists (a, aged now_ms p); split; [by apply elem_of_peers|]; cbn; by rewrite Hd, Hph').
Qed.

(** ** The start *)

Lemma greet_root_spec now a phys n : NodeInv.node_ok n -> target_ok (a, phys) -> u64_ok now ->
  exists n' q, greet_root now (a, phys) n = Ok n' /\ hello_to n a phys now q /\ NodeInv.keeps n n' /\
    t_planet (nd_topology n') = t_planet (nd_topology n) /\ t_roots (nd_topology n') = t_roots (nd_topology n) /\
    nd_actions n' = nd_actions n ++ [SendTo q phys] /\
    forall b, NodeOps.get_peer n' b =
      if bool_decide (a = b) then (fun p => with_state p (HelloSent now now ZT_PATH_HELLO_RATE_LIMIT)) <$> NodeOps.get_peer n b
      else NodeOps.get_peer n b.
Proof.
  intros Hn [Ha Hs] Hnow. unfold greet_root. destruct (hello_for_reads n a phys now Hn Ha Hs Hnow) as (q & -> & Hq).
  rewrite rbind_ok. eexists _, q. split; [done|]. split; [exact Hq|].
  set (n1 := NodeOps.push_action n (SendTo q phys)). assert (NodeInv.keeps n n1) as H1 by by apply NodeInv.keeps_push.
  split; [|split_and!; try done].
  - eapply NodeInv.keeps_trans; [exact H1|]. apply NodeInv.keeps_update_peer; [apply H1|]. intros p _ [] Hpa.
    split_and!; [|done|done]. by split.
  - intros b. unfold NodeOps.get_peer, Topo.get_peer. cbn. case_bool_decide as Hb.
    + subst b. by rewrite lookup_alter_eq.
    + by rewrite lookup_alter_ne.
Qed.

Lemma greet_roots_spec now xs n : NodeInv.node_ok n -> Forall target_ok xs -> NoDup (map fst xs) -> u64_ok now ->
  exists n', for_each xs (greet_root now) n = Ok n' /\ NodeInv.keeps n n' /\
    t_planet (nd_topology n') = t_planet (nd_topology n) /\
    (exists l, nd_actions n' = nd_actions n ++ l) /\
    (forall b, b ∉ map fst xs -> NodeOps.get_peer n' b = NodeOps.get_peer n b) /\
    forall x, x ∈ xs -> greeted n now x n' /\
      NodeOps.get_peer n' x.1 =
        (fun p => with_state p (HelloSent now now ZT_PATH_HELLO_RATE_LIMIT)) <$> NodeOps.get_peer n x.1.
Proof.
  intros Hn Hxs Hnd Hnow. revert n Hn. induction Hxs as [|[a phys] xs Hx _ IH]; intros n Hn.
  { exists n. split_and!; try done; [by exists []; rewrite app_nil_r|]. intros x Hx. by apply elem_of_nil in Hx. }
  cbn [map fst] in Hnd. apply NoDup_cons in Hnd as [Ha Hnd]. cbn [for_each].
  destruct (greet_root_spec now a phys n Hn Hx Hnow) as (n1 & q & -> & Hq & H1 & Hp1 & _ & Ha1 & Hg1). rewrite rbind_ok.
  destruct (IH Hnd n1 (proj1 H1)) as (n2 & -> & H2 & Hp2 & [l Hl] & Hother & Hall).
  exists n2. split; [done|]. split; [by eapply NodeInv.keeps_trans|]. split; [by rewrite Hp2|].
  split; [exists ([SendTo q phys] ++ l); by rewrite Hl, Ha1, app_assoc|]. split.
  - intros b Hb. cbn [map fst] in Hb. rewrite Hother by set_solver. rewrite Hg1. rewrite bool_decide_false; [done|]. set_solver.
  - intros x [->|Hin]%elem_of_cons; cbn [fst snd].
    + split; [|by rewrite Hother, Hg1, bool_decide_true]. exists q. split; [|exact Hq]. rewrite Hl, Ha1. set_solver.
    + destruct (Hall x Hin) as [(q' & Hq' & Hh) Hst]. assert (a <> x.1) as Hne.
      { intros ->. apply Ha. apply list_elem_of_In, in_map, list_elem_of_In, Hin. }
      split.
      * exists q'. split; [exact Hq'|]. destruct H1 as (_ & Hi & _). unfold hello_to in *.
        unfold NodeOps.our_address, NodeOps.planet_id, NodeOps.planet_ts, NodeOps.shared_secret_for_peer in *.
        rewrite Hi, Hp1, Hg1, bool_decide_false in Hh by done. exact Hh.
      * rewrite Hst, Hg1, bool_decide_false by done. done.
Qed.

Lemma bootstrap_run (n : Node) (now_ms : Z) : NodeInv.node_ok n -> u64_ok now_ms ->
  exists actions n', bootstrap n now_ms = Ok (actions, n') /\ Forall action_ok actions /\ NodeInv.keeps n n' /\
    nd_actions n' = [] /\ last_hello_sent (nd_root_manager n') = now_ms /\
    forall a phys, a ∈ t_roots (nd_topology n) -> first_path_of n a = Some phys ->
      (exists q, SendTo q phys ∈ actions /\ hello_to n a phys now_ms q) /\
      peer_state <$> NodeOps.get_peer n' a = Some (HelloSent now_ms now_ms ZT_PATH_HELLO_RATE_LIMIT).
Proof.
  intros Hn Hnow. unfold bootstrap. cbv zeta. set (n0 := with_actions n []).
  assert (NodeInv.node_ok n0) as Hn0 by by apply (NodeInv.keeps_actions n).
  assert (Forall target_ok (root_info n0)) as Htg.
  { apply Forall_forall. intros x (a & Ha & Hx)%list_elem_of_omap. apply fmap_Some in Hx as (phys & Hp & ->).
    by apply (first_path_target n0). }
  assert (NoDup (map fst (root_info n0))) as Hnd.
  { unfold root_info. pose proof (Topo.to_nodup _ (NodeInv.nk_topology _ Hn0)) as Hr. revert Hr.
    induction (t_roots (nd_topology n0)) as [|a l IH]; intros Hr; [constructor|]. apply NoDup_cons in Hr as [Ha Hr]. cbn.
    destruct (first_path_of n0 a); cbn; [|by apply IH]. apply NoDup_cons. split; [|by apply IH].
    intros Hin. apply Ha. apply list_elem_of_In, in_map_iff in Hin as ([b ph] & Hb & Hin%list_elem_of_In). cbn in Hb. subst b.
    apply list_elem_of_omap in Hin as (b & Hb & Hf). by apply fmap_Some in Hf as (? & _ & [= <- _]). }
  destruct (greet_roots_spec now_ms (root_info n0) n0 Hn0 Htg Hnd Hnow) as (n1 & -> & H1 & _ & _ & _ & Hall).
  rewrite rbind_ok. eexists _, _. split; [done|]. split; [exact (NodeInv.actions_ok _ (proj1 H1))|].
  split; [split; [by destruct (proj1 H1) as [? ? ? ? ? ? ? ? []]; split; [..|split]|exact (proj2 H1)]|].
  split; [done|]. split; [done|]. intros a phys Ha Hp.
  assert ((a, phys) ∈ root_info n0) as Hin by (apply list_elem_of_omap; exists a; split; [exact Ha|]; apply fmap_Some; by exists phys).
  destruct (Hall _ Hin) as [Hgr Hst]. split; [exact Hgr|]. cbn [fst] in Hst.
  etransitivity; [exact (f_equal (fmap peer_state) Hst)|]. unfold first_path_of in Hp.
  change (NodeOps.get_peer n0 a) with (NodeOps.get_peer n a). by destruct (NodeOps.get_peer n a).
Qed.


(** The start: [bootstrap] always completes, keeping the node's invariant and identity, and
    sends every root that has an endpoint a HELLO there, which the root authenticates and reads;
    each such root then has the state of a HELLO sent now, to be repeated after a second. *)
Theorem bootstrap_greets_roots (n : Node) (now_ms : Z) : NodeInv.node_ok n -> u64_ok now_ms ->
  exists actions n', bootstrap n now_ms = Ok (actions, n') /\ NodeInv.node_ok n' /\
    nd_identity n' = nd_identity n /\ nd_actions n' = [] /\ last_hello_sent (nd_root_manager n') = now_ms /\
    forall a phys, a ∈ t_roots (nd_topology n) -> first_path_of n a = Some phys ->
      (exists q, SendTo q phys ∈ actions /\ hello_to n a phys now_ms q) /\
      peer_state <$> NodeOps.get_peer n' a = Some (HelloSent now_ms now_ms ZT_PATH_HELLO_RATE_LIMIT).
Proof.
  intros Hn Hnow. destruct (bootstrap_run n now_ms Hn Hnow) as (actions & n' & Hrun & _ & Hk & Ha & Hl & Hall).
  exists actions, n'. split_and!; try done; apply Hk.
Qed.

End NodeUpkeep.

(** ** Concrete timers *)

Definition linux : Target := {| target_os := str "linux"; target_arch := str "x86_64" |}.

Definition sample_root : bytes := id_address Ident.sample.
Definition in_state (st : PeerState) : Node := NodeOps.update_peer NodeTotal.sample_node sample_root (fun p => with_state p st).

Lemma in_state_ok st : PeerOps.backoff_ok st -> PeerOps.keys_ok (P := Toy.prims) st ->
  NodeInv.node_ok (P := Toy.prims) (in_state st).
Proof.
  intros Hb Hk. apply (NodeInv.keeps_update_peer (P := Toy.prims)); [exact NodeTotal.sample_node_ok|].
  intros p _ [_ _ Hd] Hpa. split_and!; [|done|done]. by split.
Qed.

Definition sample_target : SocketAddr := SockV4 (map b8 [10; 0; 0; 1]) 9993.

Lemma tick_keeps_alive_witness :
  exists actions n', tick (P := Toy.prims) (T := linux) (in_state (HelloSent 0 0 1000)) 5000 = Ok (actions, n') /\
    exists q, SendTo q sample_target ∈ actions.
Proof.
  pose proof (in_state_ok (HelloSent 0 0 1000) ltac:(by split) ltac:(done)) as Hn.
  destruct (tick_keeps_alive (P := Toy.prims) (L := Toy.laws) (T := linux) (in_state (HelloSent 0 0 1000)) 5000 Hn
    ltac:(by split)) as (actions & n' & Hrun & _ & _ & _ & Hall).
  exists actions, n'. split; [exact Hrun|].
  destruct (NodeOps.get_peer (in_state (HelloSent 0 0 1000)) sample_root) as [p|] eqn:Ep; [|vm_compute in Ep; discriminate Ep].
  destruct (Hall sample_root p sample_target Ep) as (q & Hq & _).
  - unfold in_state, NodeOps.get_peer, NodeOps.update_peer, Topo.get_peer, Topo.update_peer in Ep. cbn [nd_topology with_topology t_peers with_peers] in Ep.
    rewrite lookup_alter_eq in Ep. apply fmap_Some in Ep as (p0 & _ & ->). unfold wants_hello. cbn. unfold sat_sub. lia.
  - vm_compute in Ep. injection Ep as <-. vm_compute. reflexivity.
  - by exists q.
Defined.

Lemma bootstrap_greets_roots_witness :
  exists actions n', bootstrap (P := Toy.prims) NodeTotal.sample_node 5000 = Ok (actions, n') /\
    (exists q, SendTo q sample_target ∈ actions) /\
    peer_state <$> NodeOps.get_peer n' sample_root = Some (HelloSent 5000 5000 1000).
Proof.
  destruct (bootstrap_greets_roots (P := Toy.prims) (L := Toy.laws) NodeTotal.sample_node 5000 NodeTotal.sample_node_ok ltac:(by split)) as (actions & n' & Hrun & _ & _ & _ & _ & Hall).
  exists actions, n'. split; [exact Hrun|].
  assert (t_roots (nd_topology NodeTotal.sample_node) = [sample_root]) as Hr by (vm_compute; reflexivity).
  assert (first_path_of NodeTotal.sample_node sample_root = Some sample_target) as Hp by (vm_compute; reflexivity).
  destruct (Hall sample_root sample_target) as [(q & Hq & _) Hst]; [rewrite Hr; by left|exact Hp|]. split; [by exists q|exact Hst].
Defined.

(** A network of that root's, whose configuration is wanted, and a session with it. *)
Definition sample_session : PeerState := PeerOps.new_active (P := Toy.prims) (replicate 48 (b8 3)) 0 900 900.
Definition sample_nid : Z := 0x123456789a000001.
Definition requesting : Node := with_networks (in_state sample_session) [NodeOps.with_request (Network.new sample_nid 2800) true 0].

Lemma config_requests_served_witness :
  exists actions n' secret q, flush_config_requests (P := Toy.prims) (T := linux) requesting 1000 = Ok (actions, n') /\
    SendTo q sample_target ∈ actions /\
    packet_to (P := Toy.prims) requesting sample_root secret NetworkConfigRequest
      (NcrP.encode (NcrP.mk sample_nid (request_metadata (T := linux)))) q.
Proof.
  pose proof (in_state_ok sample_session ltac:(done) ltac:(by apply PeerOps.new_active_keys)) as Hn.
  assert (NodeInv.node_ok (P := Toy.prims) requesting) as Hn' by (apply (NodeInv.keeps_networks (P := Toy.prims)); [done|]; constructor; [by split; [split|constructor]|constructor]).
  destruct (config_requests_served (P := Toy.prims) (L := Toy.laws) (T := linux) requesting 1000 Hn' ltac:(lia))
    as (actions & n' & Hrun & _ & _ & Hall).
  exists actions, n'. specialize (Hall (NodeOps.with_request (Network.new sample_nid 2800) true 0) ltac:(by left) eq_refl sample_target).
  cbv zeta in Hall. assert (controller_route requesting sample_root = Some sample_target) as Hr by (vm_compute; reflexivity).
  specialize (Hall Hr).
  assert (match NodeOps.get_peer requesting sample_root with Some p => is_active p | None => false end = true) as Ha by (vm_compute; reflexivity).
  change (NodeOps.controller_address_from_network_id _) with sample_root in Hall. rewrite Ha in Hall.
  destruct Hall as (secret & q & _ & Hq & Hp & _). exists secret, q. split; [exact Hrun|]. split; [exact Hq|exact Hp].
Defined.
End NodeUpkeep.
