(* ===== verification/Configured.v ===== *)
(** * Configured: what a node makes of the configuration a controller builds for it. The
    controller's engine and builder (zerotier-node: controller/engine.rs,
    controller/config_builder.rs) on one side, the node's reader (node.rs) on the other. *)
From S2P Require Export Engine NodeConfig Vl2.

Module Configured.

(** An assignment the node can read back: an address of the family its colons announce. *)
Definition readable (a : bytes) : Prop :=
  if Engine.has_colon a
  then exists o, @Config.parse_ipv6 unit (Config.address_part a) = Ok (Some o)
  else is_Some (Config.parse_ipv4 (Config.address_part a)).

Definition default_prefix (a : bytes) : Z := if Config.contains Config.COLON (Config.address_part a) then 128 else 32.
Definition prefix_of (a : bytes) : Z :=
  match Config.split_once Config.SLASH a with
  | Some (_, p) => default (default_prefix a) (parse_u8 p)
  | None => default_prefix a
  end.

(** The address of the first assignment of each family. *)
Definition v4_of (m : MemberRecord) : option (bytes * Z) :=
  a ← find (fun a => negb (Engine.has_colon a)) (m_ip_assignments m);
  o ← Config.parse_ipv4 (Config.address_part a);
  Some (o, prefix_of a).
Definition v6_of (m : MemberRecord) : option (bytes * Z) :=
  a ← find Engine.has_colon (m_ip_assignments m);
  match @Config.parse_ipv6 unit (Config.address_part a) with
  | Ok (Some o) => Some (o, prefix_of a)
  | _ => None
  end.

(** The member a node sees for a record. *)
Definition member_of (nid : Z) (m : MemberRecord) : NetworkMember :=
  mkMember (m_node_id m) (Ethernet.derive_mac (m_node_id m) nid) (v4_of m) (v6_of m) true.

Definition eligible_members (members : list MemberRecord) : list MemberRecord :=
  filter (fun m => Engine.eligible m = true) members.

Lemma prefix_range a : 0 <= prefix_of a <= 255.
Proof.
  unfold prefix_of, default_prefix. destruct (Config.split_once _ _) as [[ip p]|]; [|case_match; lia].
  destruct (parse_u8 p) as [q|] eqn:E; simpl; [|case_match; lia]. apply from_str_range in E; lia.
Qed.

(** A text with a colon is no IPv4 address. *)
Lemma digits_no_colon radix max acc s : radix <= 16 -> Config.COLON ∈ s -> digits radix max acc s = None.
Proof.
  intros Hr. revert acc. induction s as [|c s IH]; intros acc Hin; [by apply elem_of_nil in Hin|].
  apply elem_of_cons in Hin as [<-|Hin]; cbn [digits].
  - unfold digit_of. change (u8 Config.COLON) with 58. simpl. by rewrite Z.ltb_irrefl.
  - destruct (digit_of radix c); [|done]. case_match; [by apply IH|done].
Qed.

Lemma parse_u8_no_colon s : Config.COLON ∈ s -> parse_u8 s = None.
Proof.
  intros Hin. unfold parse_u8, from_str_radix. destruct s as [|c s]; [done|]. case_bool_decide as Hc.
  - apply elem_of_cons in Hin as [Heq|Hin]; [by subst|]. destruct s; [done|]. by apply digits_no_colon.
  - by apply digits_no_colon.
Qed.

Lemma split_on_has c d s : d ∈ s -> d <> c -> exists p, p ∈ split_on c s /\ d ∈ p.
Proof.
  intros Hin Hne. induction s as [|x s IH]; [by apply elem_of_nil in Hin|]. cbn [split_on].
  apply elem_of_cons in Hin as [->|Hin].
  - rewrite bool_decide_false by done. destruct (split_on c s) as [|p ps]; eexists; (split; [left|left]).
  - destruct (IH Hin) as (p & Hp & Hd). case_bool_decide; [exists p; split; [by right|done]|].
    destruct (split_on c s) as [|q qs]; [by apply elem_of_nil in Hp|].
    apply elem_of_cons in Hp as [->|Hp]; [exists (x :: q); split; [left|by right]|exists p; split; [by right|done]].
Qed.

Lemma contains_elem c s : Config.contains c s = true <-> c ∈ s.
Proof.
  unfold Config.contains. rewrite existsb_exists. split.
  - intros (x & Hx & Hc). apply bool_decide_eq_true in Hc as <-. by apply list_elem_of_In.
  - intros Hc. exists c. split; [by apply list_elem_of_In|by apply bool_decide_eq_true].
Qed.

Lemma parse_ipv4_no_colon s : Config.contains Config.COLON s = true -> Config.parse_ipv4 s = None.
Proof.
  intros Hc%contains_elem. destruct (split_on_has "."%byte Config.COLON s Hc) as (p & Hp & Hcp); [done|].
  apply parse_u8_no_colon in Hcp. unfold Config.parse_ipv4, Pools.octets.
  destruct (split_on _ s) as [|a [|b [|e [|d [|]]]]]; try done.
  repeat (apply elem_of_cons in Hp as [<-|Hp]; [rewrite Hcp; by repeat case_match|]). by apply elem_of_nil in Hp.
Qed.

(** Colons in an assignment are in its address, unless its prefix is unreadable. *)
Lemma split_once_text c s a b : Config.split_once c s = Some (a, b) -> s = a ++ c :: b.
Proof.
  revert a. induction s as [|x s IH]; intros a; cbn [Config.split_once]; [done|]. case_bool_decide.
  - intros [= <- <-]. by subst.
  - destruct (Config.split_once c s) as [[a' b']|]; [|done]. intros [= <- <-]. by rewrite (IH a').
Qed.

(** ** One assignment *)

(** What [serialize_assignment_inet] writes for an assignment. *)
Definition wire_v4 (o : option (bytes * Z)) : InetAddress := match o with Some (ip, p) => V4 ip p | None => Null end.
Definition wire_v6 (o : option (bytes * Z)) : InetAddress := match o with Some (ip, p) => V6 ip p | None => Null end.

Lemma assignment_inet {E} a :
  @Engine.serialize_assignment_inet E (Some a) = Config.serialize_inet_address (Config.address_part a) (prefix_of a).
Proof.
  unfold Engine.serialize_assignment_inet, prefix_of, default_prefix, Config.address_part.
  by destruct (Config.split_once _ a) as [[ip p]|].
Qed.

Lemma parse_ipv6_any {E F} s o : @Config.parse_ipv6 E s = Ok o -> @Config.parse_ipv6 F s = Ok o.
Proof.
  unfold Config.parse_ipv6. destruct (negb _); [by intros [= <-]|].
  destruct (Config.split_double s) as [|l [|r [|]]]; try (by intros [= <-]).
  - case_match; by intros [= <-].
  - case_match; [done|]. by intros [= <-].
Qed.

Lemma assignment_v4 {E} m : Forall readable (m_ip_assignments m) ->
  @Engine.serialize_assignment_inet E (find (fun a => negb (Engine.has_colon a)) (m_ip_assignments m)) =
    Ok (Inet.encode (wire_v4 (v4_of m))) /\ Inet.wf (wire_v4 (v4_of m)).
Proof.
  intros Hr. unfold v4_of. destruct (find _ _) as [a|] eqn:Ef; [|done].
  apply find_Some in Ef as [Hin Hc]. rewrite Forall_forall in Hr. specialize (Hr a Hin). unfold readable in Hr.
  apply negb_true_iff in Hc. rewrite Hc in Hr. destruct Hr as [o Ho]. rewrite assignment_inet.
  cbn [mbind option_bind]. rewrite Ho. cbn [mbind option_bind wire_v4]. pose proof (prefix_range a).
  pose proof (Config.parse_ipv4_len _ _ Ho). unfold Config.serialize_inet_address, Config.by_family. rewrite Ho.
  split; [done|]. split; [done|]. unfold u16_ok, U16_MAX. lia.
Qed.

Lemma assignment_v6 {E} m : Forall readable (m_ip_assignments m) ->
  @Engine.serialize_assignment_inet E (find Engine.has_colon (m_ip_assignments m)) =
    Ok (Inet.encode (wire_v6 (v6_of m))) /\ Inet.wf (wire_v6 (v6_of m)).
Proof.
  intros Hr. unfold v6_of. destruct (find _ _) as [a|] eqn:Ef; [|done].
  apply find_Some in Ef as [Hin Hc]. rewrite Forall_forall in Hr. specialize (Hr a Hin). unfold readable in Hr.
  rewrite Hc in Hr. destruct Hr as [o Ho]. rewrite assignment_inet.
  cbn [mbind option_bind]. rewrite Ho. cbn [wire_v6]. pose proof (prefix_range a).
  assert (Config.contains Config.COLON (Config.address_part a) = true) as Hcol.
  { unfold Config.parse_ipv6 in Ho. by destruct (Config.contains _ _). }
  pose proof (Config.parse_ipv6_safe (E := unit) (Config.address_part a)) as Hs. unfold Config.v6_fits in Hs.
  rewrite Ho in Hs. specialize (Hs ltac:(done)). simpl in Hs.
  unfold Config.serialize_inet_address, Config.by_family. rewrite (parse_ipv4_no_colon _ Hcol).
  rewrite (parse_ipv6_any _ _ Ho). split; [done|]. split; [done|]. unfold u16_ok, U16_MAX. lia.
Qed.

(** ** The peer directory, written and read *)

(** A loop that reads back [f x] where [enc x] was written. *)
Lemma rfor_map {E A B} (f : A -> B) (enc : A -> bytes) (xs : list A) pos (body : Z -> res E (B * Z)) (d pre post : bytes) :
  d = pre ++ concat (map enc xs) ++ post -> pos = len pre ->
  (forall x a b, x ∈ xs -> d = a ++ enc x ++ b -> body (len a) = Ok (f x, len a + len (enc x))) ->
  rfor (length xs) pos body = Ok (map f xs, pos + len (concat (map enc xs))).
Proof.
  revert pos pre. induction xs as [|x xs IH]; intros pos pre Hd -> Hb; cbn [rfor length map concat].
  - by rewrite len_nil, Z.add_0_r.
  - rewrite (Hb x pre (concat (map enc xs) ++ post)); [|left|by rewrite Hd; simpl; rewrite <- app_assoc].
    rewrite rbind_ok. rewrite (IH _ (pre ++ enc x)).
    + rewrite rbind_ok, len_app. do 2 f_equal. lia.
    + by rewrite Hd; simpl; rewrite <- !app_assoc.
    + by rewrite len_app.
    + intros y a b Hy. apply Hb. by right.
Qed.

Section Directory.
Context {P : Prims} {L : PrimLaws P}.
Context (sk addr : bytes) (nid now : Z).
Hypothesis Hsk : len sk = 32.
Hypothesis Haddr : len addr = 5.
Hypothesis Hzero : addr <> replicate 5 (b8 0).
Hypothesis Hnid : u64_ok nid.
Hypothesis Hnow : u64_ok now.

Definition com_of (a : bytes) : CertificateOfMembership :=
  Engine.build_signed_com sk addr nid (Engine.zt_address_to_u64 a) now.

Definition record_ok (m : MemberRecord) : Prop :=
  len (m_node_id m) = 5 /\ Forall readable (m_ip_assignments m).

Definition encode_entry (m : MemberRecord) : bytes :=
  m_node_id m ++ Inet.encode (wire_v4 (v4_of m)) ++ Inet.encode (wire_v6 (v6_of m)) ++ Com.encode (com_of (m_node_id m)).

Lemma com_of_wf a : len a = 5 -> Com.wf (com_of a).
Proof. intros Ha. exact (Engine.signed_com_wf sk addr nid a now Hsk Haddr Ha Hnid Hnow Hzero). Qed.

Lemma write_entry {E} m : record_ok m -> @Engine.directory_entry _ E nid now sk addr m = Ok (encode_entry m).
Proof.
  intros [Hm Hr]. unfold Engine.directory_entry.
  rewrite (proj1 (assignment_v4 m Hr)), rbind_ok, (proj1 (assignment_v6 m Hr)), rbind_ok.
  rewrite Config.serialize_com_ok; [done|]. by apply (com_of_wf _ Hm).
Qed.

Lemma write_entries {E} members : Forall record_ok members ->
  Config.extend_all (@Engine.directory_entry _ E nid now sk addr) members = Ok (concat (map encode_entry members)).
Proof.
  induction 1 as [|m ms Hm _ IH]; [done|]. cbn [Config.extend_all]. by rewrite write_entry, rbind_ok, IH.
Qed.

Lemma inet_v4_read {T} (m : MemberRecord) (tl : T) (tail : bytes) : Inet.wf (wire_v4 (v4_of m)) -> 
  (forall o p, v4_of m = Some (o, p) -> 0 <= p <= 255) ->
  NodeConfig.inet_v4_from_bytes (Inet.encode (wire_v4 (v4_of m)) ++ tail) =
    Ok (v4_of m, len (Inet.encode (wire_v4 (v4_of m)))).
Proof.
  intros Hw Hp. unfold NodeConfig.inet_v4_from_bytes. rewrite Inet.inet_deserialize_encode by done. simpl map_err.
  rewrite rbind_ok. destruct (v4_of m) as [[o p]|]; cbn [wire_v4]; [|done].
  specialize (Hp o p eq_refl). unfold wrap. by rewrite Z.mod_small by lia.
Qed.

Lemma inet_v6_read (m : MemberRecord) (tail : bytes) : Inet.wf (wire_v6 (v6_of m)) -> 
  (forall o p, v6_of m = Some (o, p) -> 0 <= p <= 255) ->
  NodeConfig.inet_v6_from_bytes (Inet.encode (wire_v6 (v6_of m)) ++ tail) =
    Ok (v6_of m, len (Inet.encode (wire_v6 (v6_of m)))).
Proof.
  intros Hw Hp. unfold NodeConfig.inet_v6_from_bytes. rewrite Inet.inet_deserialize_encode by done. simpl map_err.
  rewrite rbind_ok. destruct (v6_of m) as [[o p]|]; cbn [wire_v6]; [|done].
  specialize (Hp o p eq_refl). unfold wrap. by rewrite Z.mod_small by lia.
Qed.

Lemma v4_prefix m o p : v4_of m = Some (o, p) -> 0 <= p <= 255.
Proof.
  unfold v4_of. destruct (find _ _) as [a|]; [|done]. cbn [mbind option_bind].
  destruct (Config.parse_ipv4 _); [|done]. cbn [mbind option_bind]. intros [= _ <-]. apply prefix_range.
Qed.

Lemma v6_prefix m o p : v6_of m = Some (o, p) -> 0 <= p <= 255.
Proof.
  unfold v6_of. destruct (find _ _) as [a|]; [|done]. cbn [mbind option_bind].
  destruct (Config.parse_ipv6 _) as [[q|]| | |]; try done. intros [= _ <-]. apply prefix_range.
Qed.

Lemma read_entry m pre post : record_ok m ->
  NodeConfig.read_directory_entry nid (pre ++ encode_entry m ++ post) (len pre) =
    Ok ((member_of nid m, com_of (m_node_id m)), len pre + len (encode_entry m)).
Proof.
  intros [Hm Hr]. destruct (assignment_v4 (E := unit) m Hr) as [_ Hw4], (assignment_v6 (E := unit) m Hr) as [_ Hw6].
  unfold NodeConfig.read_directory_entry, encode_entry. rewrite <- !app_assoc.
  set (a4 := Inet.encode (wire_v4 _)). set (a6 := Inet.encode (wire_v6 _)). set (c := Com.encode _).
  pose proof (len_nonneg pre). pose proof (len_nonneg (a4 ++ a6 ++ c ++ post)).
  rewrite if_false by len_lia. rewrite array_at_skip, array_at_here, rbind_ok by len_lia. cbv zeta.
  rewrite !slice_from_skip, slice_from_here, rbind_ok by len_lia.
  unfold a4 at 1. rewrite (inet_v4_read m tt) by (done || apply v4_prefix). fold a4. rewrite rbind_ok.
  rewrite !slice_from_skip, slice_from_here, rbind_ok by len_lia.
  unfold a6 at 1. rewrite (inet_v6_read m) by (done || apply v6_prefix). fold a6. rewrite rbind_ok.
  rewrite !slice_from_skip, slice_from_here, rbind_ok by len_lia.
  unfold c at 1. rewrite Com.com_deserialize_encode by (by apply com_of_wf). fold c. simpl map_err. rewrite rbind_ok.
  unfold member_of. do 2 f_equal. rewrite !len_app. lia.
Qed.

(** The directory a controller writes for its members is read back, by any node of the network,
    as those members with the certificates of the others. *)
Lemma directory_roundtrip {E} members our_address :
  let listed := eligible_members members in
  Forall record_ok listed -> len listed <= U16_MAX ->
  exists dir, @Engine.serialize_peer_directory _ E members nid now sk addr = Ok dir /\ 2 <= len dir /\
    NodeConfig.read_directory nid our_address dir =
      Ok (map (member_of nid) listed,
          NodeConfig.others our_address (map (fun m => (member_of nid m, com_of (m_node_id m))) listed)).
Proof.
  intros listed Hok Hn. unfold Engine.serialize_peer_directory. fold (eligible_members members). fold listed.
  rewrite write_entries, rbind_ok by done. eexists. split; [done|].
  set (body := concat _). pose proof (len_nonneg body). pose proof (len_nonneg listed).
  assert (wrap 16 (len listed) = len listed) as Hw by (unfold wrap, U16_MAX in *; rewrite Z.mod_small; lia).
  split; [len_lia|]. unfold NodeConfig.read_directory. rewrite if_false by len_lia. rewrite Hw.
  assert (@be_at unit 2 (to_be 2 (len listed) ++ body) 0 = Ok (len listed)) as ->.
  { rewrite be_at_here by len_lia. by rewrite from_be_u16 by (unfold u16_ok; lia). }
  rewrite rbind_ok. replace (Z.to_nat (len listed)) with (length listed) by (unfold len; lia).
  rewrite (rfor_map (fun m => (member_of nid m, com_of (m_node_id m))) encode_entry listed _ _ (to_be 2 (len listed) ++ body)
    (to_be 2 (len listed)) []).
  - rewrite rbind_ok, map_map. done.
  - by rewrite app_nil_r.
  - len_lia.
  - intros m a b Hm ->. rewrite Forall_forall in Hok. by apply read_entry, Hok.
Qed.

(** ** The rest of the dictionary *)

(** The address an assignment stands for on the wire. *)
Definition inet_of (a : bytes) : option InetAddress :=
  '(ip, prefix) ← Config.parse_ip_prefix a;
  match Config.parse_ipv4 ip with
  | Some o => Some (V4 o prefix)
  | None => match @Config.parse_ipv6 Empty_set ip with Ok (Some o) => Some (V6 o prefix) | _ => None end
  end.

Lemma write_assignments {E} ips : Forall readable ips ->
  @Config.serialize_ip_assignments E ips = Ok (concat (map Inet.encode (omap inet_of ips))) /\
  Forall (fun a => Inet.wf a /\ a <> Null) (omap inet_of ips).
Proof.
  unfold Config.serialize_ip_assignments. induction 1 as [|a ips Ha _ [IH1 IH2]]; [by split; [|constructor]|].
  cbn [Config.extend_all]. rewrite IH1. unfold readable in Ha. simpl.
  destruct (Config.parse_ip_prefix a) as [[ip p]|] eqn:Ep.
  2: { assert (inet_of a = None) as -> by (unfold inet_of; by rewrite Ep). done. }
  pose proof (Config.parse_ip_prefix_range _ _ _ Ep) as Hp. pose proof (Config.parse_ip_prefix_part _ _ _ Ep) as Hip.
  assert (exists i, inet_of a = Some i /\ Inet.wf i /\ i <> Null /\ @Config.serialize_inet_address E ip p = Ok (Inet.encode i))
    as (i & Hi & Hw & Hn & Hs).
  { unfold inet_of, Config.serialize_inet_address, Config.by_family. rewrite Ep. simpl. rewrite Hip.
    destruct (Config.parse_ipv4 (Config.address_part a)) as [o|] eqn:E4.
    - pose proof (Config.parse_ipv4_len _ _ E4). eexists. split_and!; [done| |done|done].
      split; [done|]. unfold u16_ok, U16_MAX. lia.
    - destruct (Engine.has_colon a); [|by destruct Ha]. destruct Ha as [o Ho].
      rewrite !(parse_ipv6_any _ _ Ho). eexists. split_and!; [done| |done|done].
      pose proof (Config.parse_ipv6_safe (E := unit) (Config.address_part a)) as Hs. unfold Config.v6_fits in Hs.
      rewrite Ho in Hs. specialize (Hs ltac:(done)). simpl in Hs.
      split; [done|]. unfold u16_ok, U16_MAX. lia. }
  rewrite Hi, Hs. simpl. split; [done|]. by constructor.
Qed.

(** After the assignments the node has the last of each family. *)
Definition last_v4 (addrs : list InetAddress) : option bytes :=
  last (omap (fun a => match a with V4 ip _ => Some ip | _ => None end) addrs).
Definition last_v6 (addrs : list InetAddress) : option bytes :=
  last (omap (fun a => match a with V6 ip _ => Some ip | _ => None end) addrs).

Definition or_else {A} (o d : option A) : option A := match o with Some _ => o | None => d end.

Lemma assign_all addrs net : let net' := fold_left NodeConfig.assign addrs net in
  nw_assigned_ipv4 net' = or_else (last_v4 addrs) (nw_assigned_ipv4 net) /\
  nw_assigned_ipv6 net' = or_else (last_v6 addrs) (nw_assigned_ipv6 net) /\
  nw_network_id net' = nw_network_id net /\ nw_mtu net' = nw_mtu net /\ nw_our_com net' = nw_our_com net.
Proof.
  unfold last_v4, last_v6, omap. revert net. induction addrs as [|a addrs IH]; intros net; [done|]. simpl.
  destruct (IH (NodeConfig.assign net a)) as (-> & -> & -> & -> & ->).
  unfold or_else. destruct a; simpl; rewrite ?last_cons; split_and!; try done;
    repeat case_match; simplify_eq/=; done.
Qed.

(** ** A configuration applied *)

(** What a member's node has made of it. *)
Record configured (our : bytes) (network : NetworkRecord) (member : MemberRecord) (listed : list MemberRecord)
    (net net' : NetworkMembership) : Prop := {
  cf_id : nw_network_id net' = nw_network_id net;
  cf_mtu : nw_mtu net' = n_mtu network;
  cf_com : nw_our_com net' = Some (com_of our);
  cf_members : nw_members net' = map (member_of nid) listed;
  cf_peers : nw_peer_coms net' = NodeConfig.others our (map (fun m => (member_of nid m, com_of (m_node_id m))) listed);
  cf_ipv4 : nw_assigned_ipv4 net' = or_else (last_v4 (omap inet_of (m_ip_assignments member))) (nw_assigned_ipv4 net);
  cf_ipv6 : nw_assigned_ipv6 net' = or_else (last_v6 (omap inet_of (m_ip_assignments member))) (nw_assigned_ipv6 net);
}.

(** The fields a route list or a directory leaves alone. *)
Definition same_addresses (net net' : NetworkMembership) : Prop :=
  nw_assigned_ipv4 net' = nw_assigned_ipv4 net /\ nw_assigned_ipv6 net' = nw_assigned_ipv6 net /\
  nw_network_id net' = nw_network_id net /\ nw_mtu net' = nw_mtu net /\ nw_our_com net' = nw_our_com net.

Lemma apply_says_dictionary {E} d network member routes our caps tags net : len our = 5 ->
  Forall readable (m_ip_assignments member) ->
  @Config.config_says E d network member routes (com_of our) now caps tags ->
  exists net', NodeConfig.apply_dictionary net d = Ok net' /\
    same_addresses (fold_left NodeConfig.assign (omap inet_of (m_ip_assignments member))
                      (with_our_com net (Some (com_of our)))) net'.
Proof.
  intros Ho Hr Hs. unfold NodeConfig.apply_dictionary. rewrite (Config.says_com _ _ _ _ _ _ _ _ Hs).
  rewrite <- (app_nil_r (Com.encode _)), Com.com_deserialize_encode by (by apply com_of_wf). cbn [attempt]. rewrite !rbind_ok.
  set (net1 := with_our_com net _). set (addrs := omap inet_of (m_ip_assignments member)).
  destruct (write_assignments (E := E) _ Hr) as [Hw Ha].
  destruct (Config.says_ips _ _ _ _ _ _ _ _ Hs) as (raw & Hraw & ->). rewrite Hw in Hraw. injection Hraw as <-.
  destruct (Config.says_no_legacy _ _ _ _ _ _ _ _ Hs) as [Hl4 Hl6].
  assert (forall net, NodeConfig.apply_legacy_ip_assignments net d = net) as Hleg
    by (intros; unfold NodeConfig.apply_legacy_ip_assignments; by rewrite Hl4, Hl6).
  assert (exists parsed, match match m_ip_assignments member with [] => None | _ => Some (concat (map Inet.encode addrs)) end with
    | Some ip_data => NodeConfig.scan_assignments (length ip_data) ip_data 0 net1 false
    | None => Ok (net1, false) end = @Ok Empty_set _ (fold_left NodeConfig.assign addrs net1, parsed)) as [parsed Hscan].
  { unfold addrs. destruct (m_ip_assignments member) as [|a ips] eqn:Em; [by exists false|]. eexists.
    apply (NodeConfig.scan_assignments_encode _ (omap inet_of (a :: ips)) [] net1 false); [|done].
    eapply Forall_impl; [exact Ha|]. by intros ? []. }
  fold addrs. rewrite Hscan, rbind_ok. rewrite Hleg.
  replace (if negb parsed then _ else _) with (fold_left NodeConfig.assign addrs net1) by (by destruct parsed).
  destruct (Config.says_routes _ _ _ _ _ _ _ _ Hs) as (rt & _ & ->).
  destruct (step_ok _ _ (NodeConfig.scan_routes_total (length rt) rt 0 [] ltac:(lia) ltac:(unfold len; lia)))
    as (new & -> & _). rewrite rbind_ok. eexists. split; [done|]. by destruct new.
Qed.

Lemma apply_says {E} raw d network member routes our caps tags members dir net :
  len our = 5 -> Forall readable (m_ip_assignments member) -> Config.network_ok network ->
  Dict.deserialize raw = Ok d -> @Config.config_says E d network member routes (com_of our) now caps tags ->
  Forall record_ok (eligible_members members) -> len (eligible_members members) <= U16_MAX ->
  @Engine.serialize_peer_directory _ E members nid now sk addr = Ok dir -> Dict.get_binary d (str "PM") = Some dir ->
  exists net', NodeConfig.apply_to_membership our nid raw net = Ok net' /\
    configured our network member (eligible_members members) net net'.
Proof.
  intros Ho Hr Hn Hd Hs Hok Hle Hdir Hpm. unfold NodeConfig.apply_to_membership, NodeConfig.network_mtu_from_dict_data,
    NodeConfig.peer_directory_from_dict_data. rewrite Hd. cbn [attempt]. rewrite !rbind_ok. cbn [mbind option_bind].
  rewrite (Config.says_mtu _ _ _ _ _ _ _ _ Hs). cbn [mbind option_bind].
  destruct Hn as (_ & _ & _ & Hmtu & _). rewrite if_true by (unfold u16_ok in Hmtu; lia).
  set (net1 := with_mtu net _).
  destruct (apply_says_dictionary d network member routes our caps tags net1 Ho Hr Hs) as (net2 & -> & Hsame).
  rewrite rbind_ok, Hpm.
  destruct (directory_roundtrip (E := E) members our Hok Hle) as (dir' & Hdir' & _ & Hread).
  rewrite Hdir in Hdir'. injection Hdir' as <-. rewrite Hread. cbn [attempt]. rewrite rbind_ok.
  eexists. split; [done|]. destruct Hsame as (H1 & H2 & H3 & H4 & H5).
  destruct (assign_all (omap inet_of (m_ip_assignments member)) (with_our_com net1 (Some (com_of our)))) as (A1 & A2 & A3 & A4 & A5).
  split; simpl; rewrite ?H1, ?H2, ?H3, ?H4, ?H5, ?A1, ?A2, ?A3, ?A4, ?A5; done.
Qed.
End Directory.

Section Talk.
Context {P : Prims} {L : PrimLaws P} {S Er : Type} `{StorageLaws S Er}.

(** Who may talk in a network, by the controller's records. *)
Definition may_talk (v : View) (nid : Z) (a : bytes) : Prop :=
  exists m, v_member v nid a = Some m /\ Engine.eligible m = true.

Definition readable_members (v : View) (nid : Z) : Prop :=
  (forall a m, v_member v nid a = Some m -> len a = 5 /\ Forall readable (m_ip_assignments m)) /\
  forall ms, Engine.lists_members v nid ms -> len (eligible_members ms) <= U16_MAX.

(** The node knows the controller of the network, with the key it signs with. *)
Definition knows_controller (n : Node) (nid : Z) (c : Controller) : Prop :=
  NodeOps.controller_address_from_network_id nid = ctl_address c /\
  exists p, NodeOps.get_peer n (ctl_address c) = Some p /\
    pk_signing (id_public (peer_identity p)) = ed25519_public (ctl_signing_key c) /\
    ed25519_key_ok (ed25519_public (ctl_signing_key c)) = true.

Lemma find_others sk addr nid now our listed a :
  find (fun x => bool_decide (x.1 = a))
    (NodeConfig.others our (map (fun m => (member_of nid m, com_of sk addr nid now (m_node_id m))) listed)) =
  if bool_decide (a <> our /\ a ∈ map m_node_id listed) then Some (a, com_of sk addr nid now a) else None.
Proof.
  unfold NodeConfig.others. rewrite map_map. cbn [fst snd nm_zt_address member_of].
  induction listed as [|m listed IH].
  - rewrite bool_decide_false; [done|]. by intros [_ ?%elem_of_nil].
  - cbn [map]. rewrite filter_cons. cbn [fst]. destruct (decide (m_node_id m = a)) as [<-|Hne].
    + destruct (decide (m_node_id m <> our)) as [Hm|Hm]; cbn [find fst].
      * rewrite (bool_decide_true (m_node_id m = m_node_id m)), bool_decide_true; [done| |done]. split; [done|left].
      * rewrite IH, !bool_decide_false by tauto. done.
    + assert (a ∈ m_node_id m :: map m_node_id listed <-> a ∈ map m_node_id listed) as Hin
        by (rewrite elem_of_cons; naive_solver).
      destruct (decide (m_node_id m <> our)); cbn [find fst]; [rewrite (bool_decide_false (m_node_id m = a)) by done|]; rewrite IH;
        (erewrite bool_decide_ext; [reflexivity|]); by rewrite Hin.
Qed.

Lemma configured_accepts c n nid now network member listed net net' a :
  len (ctl_signing_key c) = 32 -> knows_controller n nid c -> NodeOps.find_network n nid = Some net' ->
  configured (ctl_signing_key c) (ctl_address c) nid now (NodeOps.our_address n) network member listed net net' ->
  Vl2.has_peer_com n nid a = true <-> a <> NodeOps.our_address n /\ a ∈ map m_node_id listed.
Proof.
  intros Hk (Hctl & p & Hp & Hkey & Hkok) Hnet Hc. unfold Vl2.has_peer_com. rewrite Hnet.
  rewrite (cf_peers _ _ _ _ _ _ _ _ _ _ Hc), find_others. case_bool_decide as Ha; [|by split].
  rewrite Hctl, Hp. cbn [mbind option_bind]. rewrite Hkey, Hkok.
  unfold com_of. rewrite (Engine.signed_com_agrees c net' a nid nid now now _ _ Hk (cf_com _ _ _ _ _ _ _ _ _ _ Hc)).
  split; [done|]. intros _. split; [done|lia].
Qed.

Lemma received_configuration (c : Controller) (n : Node) (nid now : Z) (v : View) (network : NetworkRecord)
    (member : MemberRecord) (resp : ConfigResponse) (net : NetworkMembership) :
  len (ctl_signing_key c) = 32 -> len (ctl_address c) = 5 -> ctl_address c <> replicate 5 (b8 0) ->
  u64_ok nid -> u64_ok now -> len (NodeOps.our_address n) = 5 ->
  Config.network_ok network -> Forall readable (m_ip_assignments member) -> readable_members v nid ->
  (forall a m, v_member v nid a = Some m -> m_node_id m = a) ->
  Engine.reply_says v c nid (NodeOps.our_address n) now network member resp ->
  NodeOps.find_network n nid = Some net ->
  exists n' listed net', NodeConfig.apply_received_network_config n (cr_config resp) = Ok n' /\
    NodeOps.our_address n' = NodeOps.our_address n /\ nd_topology n' = nd_topology n /\
    NodeOps.find_network n' nid = Some net' /\
    configured (ctl_signing_key c) (ctl_address c) nid now (NodeOps.our_address n) network member listed net net' /\
    forall a, a ∈ map m_node_id listed <-> may_talk v nid a.
Proof.
  intros Hk Ha Hz Hn Ht Ho Hnet Hips [Hread Hcount] Hkey (_ & Hcfg & d & Hd & Hs & members & dir & Hlist & Hdir & Hpm) Hfind.
  assert (Forall record_ok (eligible_members members)) as Hok.
  { apply Forall_forall. intros m [_ Hm]%list_elem_of_filter. apply Hlist in Hm. by apply Hread in Hm. }
  destruct (apply_says (ctl_signing_key c) (ctl_address c) nid now Hk Ha Hz Hn Ht _ d network member _ _ _ _ members dir net
    Ho Hips Hnet Hd Hs Hok (Hcount members Hlist) Hdir Hpm) as (net1 & Happ & Hconf).
  unfold NodeConfig.apply_received_network_config, NodeConfig.assemble_network_config. rewrite Hcfg.
  cbn [NetConfP.network_id NetConfP.config_update_id NetConfP.total_length NetConfP.chunk_index]. rewrite Hfind, !rbind_ok.
  unfold NodeConfig.apply_network_config. cbn [NetConfP.network_id NetConfP.dict_data].
  change (NodeOps.find_network (with_configs n (nd_configs n)) nid) with (NodeOps.find_network n nid). rewrite Hfind.
  change (NodeOps.our_address (with_configs n (nd_configs n))) with (NodeOps.our_address n). rewrite Happ, !rbind_ok.
  pose proof (NodeOps.find_network_id n nid net Hfind) as Hid.
  assert (nw_network_id net1 = nid) as Hid1 by (by rewrite (cf_id _ _ _ _ _ _ _ _ _ _ Hconf)).
  set (n1 := NodeOps.update_network _ nid (fun _ => net1)).
  assert (NodeOps.find_network n1 nid = Some net1) as Hf1 by (by eapply (NodeOps.find_update_network _ _ (fun _ => net1))).
  set (g := fun net => NodeOps.with_request net false (nw_last_config_request net)).
  exists (NodeOps.push_action (NodeOps.update_network n1 nid g) (NetworkConfigured nid (NetConfP.dict_data (cr_config resp)))).
  exists (eligible_members members), (g net1). split_and!; [done..| | |].
  - by apply (NodeOps.find_update_network n1 nid g).
  - destruct Hconf. by split.
  - intros a. unfold may_talk. rewrite list_elem_of_fmap. split.
    + intros (m & -> & [He Hm]%list_elem_of_filter). exists m. split; [by apply Hlist|done].
    + intros (m & Hm & He). pose proof (Hkey a m Hm) as Hk'. exists m. split; [done|].
      apply list_elem_of_filter. split; [done|]. apply Hlist. by rewrite Hk'.
Qed.

(** C1. What the controller's records say is what the data plane does. When a node applies the
    answer to its configuration request - built by the controller from any store, sent as a
    dictionary, parsed by the node - it holds the certificate, the MTU, the addresses and the
    member list of the records, and from then on it accepts frames of this network from an
    address exactly when the records have that member authorized and with an address. *)
Theorem configured_members_talk (c : Controller) (n : Node) (nid now : Z) (s s' : S) (resp : ConfigResponse)
    (net : NetworkMembership) :
  inv s -> Engine.view_ok (view s) -> len (ctl_signing_key c) = 32 -> len (ctl_address c) = 5 ->
  ctl_address c <> replicate 5 (b8 0) -> u64_ok nid -> u64_ok now -> len (NodeOps.our_address n) = 5 ->
  Engine.handle_config_request c nid (NodeOps.our_address n) now s = (s', Ok resp) ->
  readable_members (view s') nid -> knows_controller n nid c -> NodeOps.find_network n nid = Some net ->
  exists n' network member listed net',
    NodeConfig.apply_received_network_config n (cr_config resp) = Ok n' /\
    v_network (view s) nid = Some network /\ v_member (view s') nid (NodeOps.our_address n) = Some member /\
    NodeOps.find_network n' nid = Some net' /\
    configured (ctl_signing_key c) (ctl_address c) nid now (NodeOps.our_address n) network member listed net net' /\
    forall a, Vl2.has_peer_com n' nid a = true <-> a <> NodeOps.our_address n /\ may_talk (view s') nid a.
Proof.
  intros Hi Hv Hk Ha Hz Hn Ht Ho Hreq Hread Hctl Hfind.
  pose proof (Engine.config_request_steps c nid (NodeOps.our_address n) now s Hi Hv Hk Ha Ho Hn Ht) as Hw.
  unfold Engine.mwp in Hw. rewrite Hreq in Hw. destruct Hw as (Hi' & Hadv & network & member & Hnet & Hmem & _ & _ & _ & _ & Hsays).
  destruct (received_configuration c n nid now (view s') network member resp net Hk Ha Hz Hn Ht Ho) as
    (n' & listed & net' & Happ & Hour & Htop & Hf' & Hconf & Hlist); try done.
  { by apply (proj1 Hv nid). }
  { by apply Hread in Hmem as [_ ?]. }
  { intros a m Hm. by apply (member_key s' nid). }
  exists n', network, member, listed, net'. split_and!; try done. intros a.
  rewrite <- Hlist, <- Hour. apply (configured_accepts c n' nid now network member listed net net'); [done| |done|by rewrite Hour].
  destruct Hctl as (H1' & p & Hp & H2'). split; [done|]. exists p. split; [|done]. unfold NodeOps.get_peer in *. by rewrite Htop.
Qed.
End Talk.

(** ** Alice's node configured by the sample controller *)

Definition node_of (a : bytes) (peers : list (bytes * Peer)) (networks : list NetworkMembership) : Node :=
  mkNode (mkIdentity a (mkPublicKey (replicate 32 (b8 0)) (replicate 32 (b8 0))) None) []
    (mkTopology (list_to_map peers) [] None [] ∅) (mkRootManager 0) (Fragment.new 256) [] 1 networks Multicast.new [] [] [].

Definition controller_peer : Peer :=
  PeerOps.new (mkIdentity (ctl_address Engine.sample_controller)
    (mkPublicKey (replicate 32 (b8 0)) (ed25519_public (Prims := Toy.prims) (ctl_signing_key Engine.sample_controller))) None) false.

Definition alice_node : Node :=
  node_of Engine.alice [(ctl_address Engine.sample_controller, controller_peer)] [Network.new Engine.sample_nid 2800].

Lemma sample_store_ok : Engine.store_ok (S := InMemoryState) Engine.sample_store.
Proof.
  unfold Engine.sample_store. generalize Engine.sample_ops Engine.sample_ops_ok. intros ops Ho.
  assert (forall s, Engine.store_ok (S := InMemoryState) s ->
    Engine.store_ok (S := InMemoryState) (fold_left (Engine.run_eop (P := Toy.prims) (S := InMemoryState) Engine.sample_controller) ops s)) as Hfold.
  { induction Ho as [|o ops Ho _ IH]; intros s Hs; [done|]. simpl. apply IH.
    by apply (Engine.run_eop_ok (P := Toy.prims) (H := Toy.laws) (S := InMemoryState)). }
  apply Hfold, Engine.empty_store_ok.
Qed.

(** A network whose stored members are all readable. *)
Lemma memory_readable (s : InMemoryState) nid : Memory.mem_inv s -> len (members s) <= U16_MAX ->
  Forall (fun m => len (m_node_id m) = 5 /\ Forall readable (m_ip_assignments m)) (members s) ->
  readable_members (Memory.mem_view s) nid.
Proof.
  intros Hi Hl Hf. rewrite Forall_forall in Hf.
  assert (forall a m, v_member (Memory.mem_view s) nid a = Some m -> m ∈ members s /\ m_node_id m = a) as Hin.
  { intros a m Hm. apply Memory.find_member_elem in Hm as [Hm [= _ <-]]; done. }
  split.
  - intros a m Hm. destruct (Hin a m Hm) as [Hm' <-]. by apply Hf.
  - intros ms [Hd Hms]. unfold eligible_members.
    assert (ms ⊆+ members s) as Hsub.
    { apply NoDup_submseteq; [by eapply NoDup_fmap_1|]. intros m Hm. by apply Hms, Hin in Hm as [? _]. }
    apply submseteq_length in Hsub. pose proof (length_filter (fun m => Engine.eligible m = true) ms).
    unfold len in *. lia.
Qed.

Definition is_ok {E A} (r : res E A) : bool := match r with Ok _ => true | _ => false end.

Definition readable_b (a : bytes) : bool :=
  if Engine.has_colon a then match @Config.parse_ipv6 unit (Config.address_part a) with Ok (Some _) => true | _ => false end
  else is_some (Config.parse_ipv4 (Config.address_part a)).

Lemma readable_b_spec a : readable_b a = true -> readable a.
Proof.
  unfold readable_b, readable. destruct (Engine.has_colon a).
  - destruct (Config.parse_ipv6 _) as [[o|]| | |]; [|done..]. by exists o.
  - by destruct (Config.parse_ipv4 _).
Qed.

Lemma request_inv {P : Prims} {L : PrimLaws P} (c : Controller) nid a now (s : InMemoryState) :
  Engine.store_ok s -> len (ctl_signing_key c) = 32 -> len (ctl_address c) = 5 -> len a = 5 -> u64_ok nid -> u64_ok now ->
  Memory.mem_inv (Engine.handle_config_request c nid a now s).1.
Proof.
  intros (Hi & Hv & _) Hk Ha Hl Hn Ht. pose proof (Engine.config_request_steps c nid a now s Hi Hv Hk Ha Hl Hn Ht) as Hw.
  unfold Engine.mwp in Hw. destruct (Engine.handle_config_request c nid a now s) as [s' r]. apply Hw.
Qed.

(** What can be read off a request for Alice's configuration. *)
Definition served_well (x : InMemoryState * res ControllerError ConfigResponse) : bool :=
  is_ok x.2 && (len (members x.1) =? 2)
  && forallb (fun m => (len (m_node_id m) =? 5) && forallb readable_b (m_ip_assignments m)) (members x.1)
  && match Memory.mem_get_member x.1 Engine.sample_nid Engine.bob with Some m => Engine.eligible m | None => false end.

Lemma served_well_spec x : Memory.mem_inv x.1 -> served_well x = true ->
  exists resp, x = (x.1, Ok resp) /\ readable_members (Memory.mem_view x.1) Engine.sample_nid /\
    may_talk (Memory.mem_view x.1) Engine.sample_nid Engine.bob.
Proof.
  destruct x as [s r]. cbn [fst snd]. intros Hi. unfold served_well. cbn [fst snd]. rewrite !andb_true_iff.
  intros [[[Hr Hl] Hb] He]. destruct r as [resp| | |]; try discriminate Hr. exists resp. split; [done|].
  apply Z.eqb_eq in Hl. rewrite forallb_forall in Hb. split; [apply memory_readable; [done|by rewrite Hl|]|].
  - apply Forall_forall. intros m Hm.
    destruct (proj1 (andb_true_iff _ _) (Hb m (proj1 (list_elem_of_In _ _) Hm))) as [H5 Hm']. split; [by apply Z.eqb_eq|].
    apply Forall_forall. intros a Ha. rewrite forallb_forall in Hm'. by apply readable_b_spec, Hm', list_elem_of_In.
  - unfold may_talk. cbn [v_member Memory.mem_view].
    destruct (Memory.mem_get_member s Engine.sample_nid Engine.bob) as [m|]; [by exists m|discriminate He].
Qed.

Lemma alice_served :
  exists s' resp, Engine.handle_config_request (H := Toy.prims) (S := InMemoryState) Engine.sample_controller
      Engine.sample_nid (NodeOps.our_address alice_node) 15 Engine.sample_store = (s', Ok resp) /\
    readable_members (view (S := InMemoryState) s') Engine.sample_nid /\
    may_talk (view (S := InMemoryState) s') Engine.sample_nid Engine.bob.
Proof.
  match goal with |- context [?x = (_, Ok _)] => set (y := x);
    assert (served_well y = true) as Hw by (vm_compute; reflexivity);
    assert (Memory.mem_inv y.1) as Hi;
    [apply (request_inv (P := Toy.prims) (L := Toy.laws)); [exact sample_store_ok|reflexivity|reflexivity|reflexivity|..];
      unfold u64_ok, U64_MAX, Engine.sample_nid; lia|] end.
  clearbody y. destruct (served_well_spec y Hi Hw) as (resp & Hy & Hrest). by exists y.1, resp.
Qed.

Lemma configured_members_talk_witness :
  exists n', Vl2.has_peer_com (P := Toy.prims) n' Engine.sample_nid Engine.bob = true.
Proof.
  destruct sample_store_ok as (Hi & Hv & _). destruct alice_served as (s' & resp & Hserved & Hread & Hbob).
  destruct (configured_members_talk (P := Toy.prims) (L := Toy.laws) (S := InMemoryState) Engine.sample_controller alice_node
    Engine.sample_nid 15 Engine.sample_store s' resp (Network.new Engine.sample_nid 2800)) as
    (n' & net & m & listed & net' & Happ & _ & _ & _ & _ & Htalk).
  - exact Hi.
  - exact Hv.
  - reflexivity.
  - reflexivity.
  - discriminate.
  - unfold u64_ok, U64_MAX, Engine.sample_nid. lia.
  - unfold u64_ok, U64_MAX. lia.
  - reflexivity.
  - exact Hserved.
  - exact Hread.
  - split; [vm_compute; reflexivity|]. exists controller_peer. split; [vm_compute; reflexivity|split; reflexivity].
  - reflexivity.
  - exists n'. apply Htalk. split; [discriminate|exact Hbob].
Defined.

(** ** A frame from Bob at Alice's node *)

Definition issued (a : bytes) (t : Z) : CertificateOfMembership :=
  Engine.build_signed_com (H := Toy.prims) (ctl_signing_key Engine.sample_controller) (ctl_address Engine.sample_controller)
    Engine.sample_nid (Engine.zt_address_to_u64 a) t.

Definition alice_network : NetworkMembership :=
  with_directory (with_our_com (Network.new Engine.sample_nid 2800) (Some (issued Engine.alice 1000))) []
    [(Engine.bob, issued Engine.bob 2000)].

Definition talking_node : Node :=
  node_of Engine.alice [(ctl_address Engine.sample_controller, controller_peer)] [alice_network].

Definition sample_frame : FrameP.t := FrameP.mk Engine.sample_nid 0x0800 (str "hello").

Lemma frames_need_certificates_witness :
  Vl2.handle_frame (P := Toy.prims) talking_node Engine.bob (FrameP.encode sample_frame) =
    Ok (NodeOps.push_action talking_node
          (FrameReceived Engine.sample_nid (Ethernet.derive_mac Engine.bob Engine.sample_nid)
             (Ethernet.derive_mac Engine.alice Engine.sample_nid) 0x0800 (str "hello"))) /\
  Vl2.handle_frame (P := Toy.prims) talking_node (replicate 5 (b8 77)) (FrameP.encode sample_frame) = Ok talking_node.
Proof.
  assert (FrameP.shape sample_frame) as Hs by (split; unfold u64_ok, u16_ok, U64_MAX, U16_MAX; simpl; unfold Engine.sample_nid; lia).
  assert (Vl2.has_peer_com (P := Toy.prims) talking_node Engine.sample_nid Engine.bob = true) as Hb by (vm_compute; reflexivity).
  assert (Vl2.has_peer_com (P := Toy.prims) talking_node Engine.sample_nid (replicate 5 (b8 77)) = false) as Hx by (vm_compute; reflexivity).
  destruct (Vl2.frames_need_certificates (P := Toy.prims) talking_node Engine.bob) as (_ & Hf & _).
  destruct (Vl2.frames_need_certificates (P := Toy.prims) talking_node (replicate 5 (b8 77))) as (_ & Hg & _).
  specialize (Hf sample_frame alice_network Hs eq_refl). specialize (Hg sample_frame alice_network Hs eq_refl).
  cbn [FrameP.network_id FrameP.ethertype FrameP.payload sample_frame] in Hf, Hg. rewrite Hb in Hf. rewrite Hx in Hg.
  split; [exact Hf|exact Hg].
Defined.
End Configured.
