(* ===== verification/Host.v ===== *)
(** * Host: what the daemon configures on the host's interface from a network's configuration
    (zerotier-service: service.rs, [managed_ips_from_dict_data], [managed_routes_from_dict_data],
    [tun_name_for_network]), with the text forms of addresses it uses. *)
From S2P Require Export Configured.

(** [std::net::IpAddr]. *)
Inductive IpAddr : Type :=
  | IpV4 (octets : bytes)
  | IpV6 (octets : bytes).

#[export] Instance IpAddr_eq_dec : EqDecision IpAddr.
Proof. solve_decision. Defined.

Module Host.

(** ** [Display] of [Ipv4Addr] and [Ipv6Addr] *)

Definition v4_text (ip : bytes) : bytes := NodeConfig.dotted ip.

(** The eight groups of an IPv6 address. *)
Definition segments (ip : bytes) : list Z := map from_be (chunks 2 ip).

(** The longest run of zero groups, the first of the longest: its start and length. *)
Fixpoint longest_run (i : Z) (current longest : Z * Z) (segs : list Z) : Z * Z :=
  match segs with
  | [] => longest
  | s :: segs =>
      if s =? 0 then
        let current := if current.2 =? 0 then (i, 1) else (current.1, current.2 + 1) in
        longest_run (i + 1) current (if longest.2 <? current.2 then current else longest) segs
      else longest_run (i + 1) (0, 0) longest segs
  end.

Definition fmt_subslice (segs : list Z) : bytes :=
  match segs with
  | [] => []
  | s :: segs => format_hex s ++ concat (map (fun s => str ":" ++ format_hex s) segs)
  end.

Definition v6_text (ip : bytes) : bytes :=
  if bool_decide (take 12 ip = replicate 10 (b8 0) ++ replicate 2 (b8 0xff)) then str "::ffff:" ++ v4_text (drop 12 ip)
  else
    let segs := segments ip in
    let zeroes := longest_run 0 (0, 0) (0, 0) segs in
    if 1 <? zeroes.2 then
      fmt_subslice (take (Z.to_nat zeroes.1) segs) ++ str "::" ++ fmt_subslice (drop (Z.to_nat (zeroes.1 + zeroes.2)) segs)
    else fmt_subslice segs.

Example v6_text_samples :
  v6_text (map b8 [0xfd; 0; 0; 0; 0; 0; 0; 0; 0; 0; 0; 0; 0; 0; 0; 7]) = str "fd00::7" /\
  v6_text (replicate 16 (b8 0)) = str "::" /\
  v6_text (map b8 [0; 1; 0; 0; 0; 2; 0; 0; 0; 0; 0; 3; 0; 0; 0; 0]) = str "1:0:2::3:0:0" /\
  v6_text (map b8 [0; 0; 0; 0; 0; 0; 0; 0; 0; 0; 0xff; 0xff; 10; 0; 0; 1]) = str "::ffff:10.0.0.1".
Proof. by vm_compute. Qed.

(** ** Reading the configuration *)

(** [Dictionary::deserialize(d).ok().and_then(|dict| dict.get_binary(key))]. *)
Definition section (key dict_data : bytes) : step (option bytes) :=
  let* dict := attempt (Dict.deserialize dict_data) in
  Ok (dict ← dict; Dict.get_binary dict key).

Definition network_mtu_from_dict_data (dict_data : bytes) : step (option Z) :=
  let* dict := attempt (Dict.deserialize dict_data) in
  Ok (dict ← dict; Dict.get_hex_u64 dict (str "mtu")).

(** [port as u8]. *)
Definition with_prefix (address : InetAddress) : option (IpAddr * Z) :=
  match address with
  | Null => None
  | V4 ip port => Some (IpV4 ip, wrap 8 port)
  | V6 ip port => Some (IpV6 ip, wrap 8 port)
  end.

Fixpoint read_ips (fuel : nat) (data : bytes) (pos : Z) : step (list (IpAddr * Z)) :=
  if pos <? len data then
    match fuel with
    | O => Hang
    | S fuel =>
        let* rest := slice_from data pos in
        let* r := attempt (Inet.deserialize rest) in
        match r with
        | None => Ok []
        | Some (address, consumed) =>
            let* ips := read_ips fuel data (pos + consumed) in
            Ok (option_list (with_prefix address) ++ ips)
        end
    end
  else Ok [].

Definition managed_ips_from_dict_data (dict_data : bytes) : step (list (IpAddr * Z)) :=
  let* data := section (str "I") dict_data in
  match data with
  | None => Ok []
  | Some data => read_ips (length data) data 0
  end.

Definition inet_address_to_cidr (address : InetAddress) : option bytes :=
  match address with
  | Null => None
  | V4 ip port => Some (v4_text ip ++ str "/" ++ format_dec port)
  | V6 ip port => Some (v6_text ip ++ str "/" ++ format_dec port)
  end.

Definition inet_address_to_ip (address : InetAddress) : option IpAddr :=
  match address with
  | Null => None
  | V4 ip _ => Some (IpV4 ip)
  | V6 ip _ => Some (IpV6 ip)
  end.

Fixpoint read_routes (fuel : nat) (data : bytes) (pos : Z) : step (list (bytes * option IpAddr)) :=
  if pos <? len data then
    match fuel with
    | O => Hang
    | S fuel =>
        let* rest := slice_from data pos in
        let* r := attempt (Inet.deserialize rest) in
        match r with
        | None => Ok []
        | Some (target, target_consumed) =>
            let pos := pos + target_consumed in
            let* rest := slice_from data pos in
            let* r := attempt (Inet.deserialize rest) in
            match r with
            | None => Ok []
            | Some (via, via_consumed) =>
                let pos := pos + via_consumed in
                if len data <? pos + 2 then Ok [] else
                let pos := pos + 2 in
                let* routes := read_routes fuel data pos in
                match inet_address_to_cidr target with
                | None => Ok routes
                | Some target_cidr => Ok ((target_cidr, inet_address_to_ip via) :: routes)
                end
            end
        end
    end
  else Ok [].

Definition managed_routes_from_dict_data (dict_data : bytes) : step (list (bytes * option IpAddr)) :=
  let* data := section (str "RT") dict_data in
  match data with
  | None => Ok []
  | Some data => read_routes (length data) data 0
  end.

(** ** Totality *)

Lemma section_total key d : safe (section key d) (fun _ => True).
Proof.
  unfold section. apply wp_bind. eapply (wp_attempt _ (fun _ => True) (fun _ => True)); [|done..].
  eapply wp_mono; [apply Dict.deserialize_safe|done..].
Qed.

Lemma mtu_total d : safe (network_mtu_from_dict_data d) (fun _ => True).
Proof.
  unfold network_mtu_from_dict_data. apply wp_bind. eapply (wp_attempt _ (fun _ => True) (fun _ => True)); [|done..].
  eapply wp_mono; [apply Dict.deserialize_safe|done..].
Qed.

(** Each address takes at least a byte: the length of the data is enough fuel. *)
Lemma read_ips_total fuel data pos : 0 <= pos -> len data <= pos + Z.of_nat fuel ->
  safe (read_ips fuel data pos) (fun _ => True).
Proof.
  revert pos. induction fuel as [|fuel IH]; intros pos Hp Hf; cbn [read_ips]; [by rewrite if_false by lia|].
  destruct (pos <? len data) eqn:E; [|done]. apply wp_bind, wp_slice_from; [lia|]. intros s Hs. apply wp_bind.
  eapply wp_attempt; [apply Inet.inet_deserialize_total| |done]. intros [a n] [_ Hn]. apply wp_bind.
  eapply wp_mono; [apply IH; lia|done..].
Qed.

Lemma read_routes_total fuel data pos : 0 <= pos -> len data <= pos + Z.of_nat fuel ->
  safe (read_routes fuel data pos) (fun _ => True).
Proof.
  revert pos. induction fuel as [|fuel IH]; intros pos Hp Hf; cbn [read_routes]; [by rewrite if_false by lia|].
  destruct (pos <? len data) eqn:E; [|done]. apply wp_bind, wp_slice_from; [lia|]. intros s Hs. apply wp_bind.
  eapply wp_attempt; [apply Inet.inet_deserialize_total| |done]. intros [a n] [_ Hn]. cbv zeta.
  apply wp_bind, wp_slice_from; [lia|]. intros s2 Hs2. apply wp_bind.
  eapply wp_attempt; [apply Inet.inet_deserialize_total| |done]. intros [v k] [_ Hk]. cbv zeta.
  apply wp_if; [done|]. intros H2. apply wp_bind. eapply wp_mono; [apply IH; lia| |done]. intros routes _. by case_match.
Qed.

Lemma managed_ips_total d : safe (managed_ips_from_dict_data d) (fun _ => True).
Proof.
  unfold managed_ips_from_dict_data. apply wp_bind. eapply wp_mono; [apply section_total| |done].
  intros [data|] _; [|done]. apply read_ips_total; unfold len; lia.
Qed.

Lemma managed_routes_total d : safe (managed_routes_from_dict_data d) (fun _ => True).
Proof.
  unfold managed_routes_from_dict_data. apply wp_bind. eapply wp_mono; [apply section_total| |done].
  intros [data|] _; [|done]. apply read_routes_total; unfold len; lia.
Qed.

(** ** Interface names *)

Definition tun_name_for_network (network_id : Z) (local_zt_address : bytes) : bytes :=
  let network_suffix := Z.land network_id 0x00FFFFFF in
  let a i := byte_at local_zt_address i in
  let node_suffix := from_be [b8 0; a 2%nat; a 3%nat; a 4%nat] in
  str "zt" ++ format_hex_pad 6 network_suffix ++ format_hex_pad 6 node_suffix.

End Host.
