(* ===== verification/Service.v ===== *)
(** * Service: the daemon around a node (zerotier-service: service.rs): the packets that answer
    a request for a configuration, the WHOIS requests it batches, the frames it holds until a
    path to their peer exists, and the handling of one event of its main loop. *)
From S2P Require Export NodeTick NodeTotal Host.

(** ** Frames held back *)

Record PendingFrame := mkPendingFrame {
  pf_network_id : Z;
  pf_ethertype : Z;
  pf_frame : bytes;
  pf_queued_at_ms : Z;
}.

Module Service.
Section Service.
Context {P : Prims} {Z4 : Lz4}.

Definition NETWORK_CONFIG_CHUNK_BYTES : Z := 1024.
Definition PENDING_FRAME_TTL_MS : Z := 5000.
Definition PENDING_FRAME_WHOIS_INTERVAL_MS : Z := 1000.
Definition PENDING_FRAME_LIMIT : Z := 64.

(** ** Packets for a requester *)

(** A writer without an error case, run on a zeroed buffer of [n] bytes: what it wrote. *)
Definition filled (m : W Z) (n : Z) : step bytes :=
  match m (replicate (Z.to_nat n) (b8 0)) with
  | Ok (l, buf) => slice buf 0 l
  | Err _ | Panic => Panic
  | Hang => Hang
  end.

Definition build_encrypted_verb_packet (packet_id : Z) (source_address dest_address : bytes) (verb : Verb)
    (payload shared_secret : bytes) (compress : bool) : step (option bytes) :=
  let payload := if compress then lz4_compress payload else payload in
  let* packet := filled
    (put 0 8 (to_be 8 packet_id);*
     put 8 13 dest_address;*
     put 13 18 source_address;*
     set 18 (b8 (Z.shiftl CIPHER_SUITE_C25519_POLY1305_SALSA2012 3));*
     put 19 27 (replicate 8 (b8 0));*
     set 27 (b8 (Z.lor (u8 (VerbOps.to_byte verb)) (if compress then VERB_FLAG_COMPRESSED else 0)));*
     put 28 (28 + len payload) payload;*
     wret (28 + len payload)) (28 + len payload) in
  attempt (Armor.armor_packet shared_secret packet true).

(** What the signature of a chunk covers. *)
Definition signed_data (network_id : Z) (chunk : bytes) (config_update_id total_length chunk_offset : Z) : bytes :=
  to_be 8 network_id ++ to_be 2 (wrap 16 (len chunk)) ++ chunk ++ [b8 0] ++ to_be 8 config_update_id ++
  to_be 4 total_length ++ to_be 4 chunk_offset.

Definition response_packet (n : Node) (requester_address : bytes) (request_packet_id network_id : Z)
    (config_update_id total_length : Z) (chunk : bytes) (chunk_offset : Z) (shared_secret : bytes)
    : step (Node * option bytes) :=
  let signed_data := signed_data network_id chunk config_update_id total_length chunk_offset in
  match id_secret (nd_identity n) with
  | None => Ok (n, None)
  | Some identity_secret =>
      let signature := sign (sk_signing identity_secret) signed_data in
      let config := NetConfP.mk network_id chunk (Some (b8 0)) (Some config_update_id) (Some total_length)
                      (Some chunk_offset) (Some (b8 1)) (Some signature) in
      let* config_buf := filled (NetConfP.serialize config) (len signed_data + 99) in
      let ok := OkP.mk NetworkConfigRequest request_packet_id (OkP.SubGeneric config_buf) in
      let* ok_buf := Vl2.serialized (OkP.serialize ok) (9 + len config_buf) in
      match ok_buf with
      | None => Ok (n, None)
      | Some ok_buf =>
          let '(packet_id, n) := NodeOps.allocate_packet_id n in
          let* packet := build_encrypted_verb_packet packet_id (NodeOps.our_address n) requester_address VOk ok_buf
                           shared_secret true in
          Ok (n, packet)
      end
  end.

(** The loop over the chunks, [chunk_index] of which are done. *)
Fixpoint response_packets (n : Node) (requester_address : bytes) (request_packet_id network_id : Z)
    (config_update_id total_length : Z) (shared_secret : bytes) (chunk_index : Z) (chunks : list bytes)
    : step (Node * option (list bytes)) :=
  match chunks with
  | [] => Ok (n, Some [])
  | chunk :: chunks =>
      let chunk_offset := chunk_index * NETWORK_CONFIG_CHUNK_BYTES in
      if U32_MAX <? chunk_offset then Ok (n, None) else
      let* ' (n, packet) := response_packet n requester_address request_packet_id network_id config_update_id
                              total_length chunk chunk_offset shared_secret in
      match packet with
      | None => Ok (n, None)
      | Some packet =>
          let* ' (n, packets) := response_packets n requester_address request_packet_id network_id config_update_id
                                   total_length shared_secret (chunk_index + 1) chunks in
          Ok (n, cons packet <$> packets)
      end
  end.

Definition build_network_config_response_packets (n : Node) (requester_address : bytes) (request_packet_id network_id : Z)
    (dict_data shared_secret : bytes) : step (Node * option (list bytes)) :=
  if U32_MAX <? len dict_data then Ok (n, None) else
  let total_length := len dict_data in
  let '(config_update_id, n) := NodeOps.allocate_packet_id n in
  response_packets n requester_address request_packet_id network_id config_update_id total_length shared_secret 0
    (chunks (Z.to_nat NETWORK_CONFIG_CHUNK_BYTES) dict_data).

(** ** Batched WHOIS requests *)

Definition whois_targets (action : NodeAction) : list bytes :=
  match action with WhoisNeeded addresses => addresses | _ => [] end.

Definition addr_le (a b : bytes) : Prop := from_be a <= from_be b.
#[local] Instance addr_le_dec : RelDecision addr_le.
Proof. intros a b. unfold addr_le. apply _. Defined.

(** The addresses of a [BTreeSet<\[u8; 5\]>], in its order. *)
Definition in_order (targets : gset bytes) : list bytes := merge_sort addr_le (elements targets).

Definition drain_whois_actions_from_sets (n : Node) (action_sets : list (list NodeAction)) (now_ms : Z)
    : step (list NodeAction) :=
  let targets : gset bytes := list_to_set (flat_map whois_targets (concat action_sets)) in
  match in_order targets with
  | [] => Ok []
  | addresses => NodeOps.send_whois n addresses now_ms
  end.

Definition drain_whois_actions (n : Node) (actions : list NodeAction) (now_ms : Z) : step (list NodeAction) :=
  drain_whois_actions_from_sets n [actions] now_ms.

(** ** Requests for a configuration *)

Section Controller.
Context {S Er : Type} `{ControllerStorage S Er}.

(** [peer_coms.retain(|(addr, _)| addr != requester); peer_coms.push((requester, com))]. *)
Definition record_peer_com (n : Node) (network_id : Z) (requester_address : bytes) (com : CertificateOfMembership) : Node :=
  NodeOps.update_network n network_id (fun net =>
    with_directory net (nw_members net)
      (filter (fun x => x.1 <> requester_address) (nw_peer_coms net) ++ [(requester_address, com)])).

Definition push_all (n : Node) (packets : list bytes) (to : SocketAddr) : Node :=
  fold_left (fun n packet => NodeOps.push_action n (SendTo packet to)) packets n.

Definition send_credentials (n : Node) (requester_address : bytes) (credentials : CredP.t) (shared_secret : bytes)
    (from : SocketAddr) : step Node :=
  let* creds_payload := filled (CredP.serialize credentials) 512 in
  let '(packet_id, n) := NodeOps.allocate_packet_id n in
  let* packet := build_encrypted_verb_packet packet_id (NodeOps.our_address n) requester_address NetworkCredentials
                   creds_payload shared_secret false in
  Ok match packet with
     | Some packet => NodeOps.push_action n (SendTo packet from)
     | None => n
     end.

(** The answer to a request once the controller has made it. *)
Definition respond (n : Node) (requester_address : bytes) (network_id : Z) (from : SocketAddr) (packet_id : Z)
    (response : ConfigResponse) : step Node :=
  let n := match CredP.com (cr_credentials response) with
           | Some com => record_peer_com n network_id requester_address com
           | None => n
           end in
  match NodeOps.shared_secret_for_peer n requester_address with
  | None => Ok n
  | Some shared_secret =>
      let* ' (n, packets) := build_network_config_response_packets n requester_address packet_id network_id
                               (NetConfP.dict_data (cr_config response)) shared_secret in
      match packets with
      | None | Some [] => Ok n
      | Some config_packets =>
          send_credentials (push_all n config_packets from) requester_address (cr_credentials response) shared_secret from
      end
  end.

Definition handle_controller_action (c : Controller) (now_ms : Z) (action : NodeAction) (st : Node * S)
    : step (Node * S) :=
  let '(n, s) := st in
  match action with
  | NetworkConfigRequested requester_address network_id _ from packet_id =>
      let '(s, response) := Engine.handle_config_request c network_id requester_address now_ms s in
      let* response := attempt response in
      match response with
      | None => Ok (n, s)
      | Some response =>
          let* n := respond n requester_address network_id from packet_id response in Ok (n, s)
      end
  | _ => Ok (n, s)
  end.

Definition handle_controller_actions (actions : list NodeAction) (c : Controller) (n : Node) (s : S) (now_ms : Z)
    : step (Node * S) :=
  for_each actions (handle_controller_action c now_ms) (n, s).

End Controller.

(** ** Frames held back *)

Definition queue_pending_frame (pending : list PendingFrame) (frame : PendingFrame) : list PendingFrame :=
  (if PENDING_FRAME_LIMIT <=? len pending then drop 1 pending else pending) ++ [frame].

Definition is_send (a : NodeAction) : bool := match a with SendTo _ _ => true | _ => false end.

(** One pass over the queue: the node, what to send, what is still unresolved, and what is kept. *)
Fixpoint retry_each (n : Node) (pending : list PendingFrame) (now : Z)
    : step (Node * list NodeAction * list NodeAction * list PendingFrame) :=
  match pending with
  | [] => Ok (n, [], [], [])
  | held :: pending =>
      if PENDING_FRAME_TTL_MS <? sat_sub now (pf_queued_at_ms held) then retry_each n pending now else
      let* ' (n, actions) := Vl2.process_outbound_frame n (pf_network_id held) (pf_ethertype held) (pf_frame held)
                               (NodeOps.our_address n) now in
      let* ' (n, sends, whois_needed, kept) := retry_each n pending now in
      Ok (if existsb is_send actions then (n, actions ++ sends, whois_needed, kept)
          else (n, sends, actions ++ whois_needed, held :: kept))
  end.

(** The node, the actions to execute in order, and the queue afterwards. *)
Definition retry_pending_frames (n : Node) (pending : list PendingFrame) (now : Z) (send_whois : bool)
    : step (Node * list NodeAction * list NodeAction * list PendingFrame) :=
  let* ' (n, sends, whois_needed, kept) := retry_each n pending now in
  let* whois_actions := if send_whois then drain_whois_actions n whois_needed now else Ok [] in
  Ok (n, sends, whois_actions, kept).

End Service.
End Service.
