(* ===== verification/Daemon.v ===== *)
(** * Daemon: the main loop of the service (zerotier-service: service.rs, [run_service]): one
    step per event of its [select!], over the node, the controller's store, the held frames and
    the interfaces, with what it asks of the operating system in order. *)
From S2P Require Export Service.

Inductive Effect : Type :=
  | SendDatagram (data : bytes) (address : SocketAddr)
  | TunWrite (network_id : Z) (payload : bytes)
  | TunCreate (network_id : Z) (name : bytes) (mtu : Z)
  | TunSetIp (network_id : Z) (ip : IpAddr) (prefix : Z)
  | TunAddRoute (network_id : Z) (target : bytes) (gateway : option IpAddr).

(** What the loop waits for. *)
Inductive Event : Type :=
  | UdpReceived (data : bytes) (from : SocketAddr)
  | UdpFailed
  | TickDue (endpoints : list SocketAddr)
  | TunRead (network_id : Z) (frame : bytes)
  | ConfigFlushDue
  | PendingRetryDue.

Record Daemon (S : Type) := mkDaemon {
  d_node : Node;
  d_store : S;
  d_tuns : gmap Z bytes;
  d_pending : list PendingFrame;
  d_last_pending_whois_ms : Z;
}.
Arguments mkDaemon {S}.
Arguments d_node {S}.
Arguments d_store {S}.
Arguments d_tuns {S}.
Arguments d_pending {S}.
Arguments d_last_pending_whois_ms {S}.

Module Daemon.
Section Daemon.
Context {P : Prims} {Z4 : Lz4} {T : Target} {S Er : Type} `{ControllerStorage S Er}.

(** [execute_actions]. *)
Definition execute_actions (actions : list NodeAction) : list Effect :=
  omap (fun a => match a with SendTo data address => Some (SendDatagram data address) | _ => None end) actions.

(** ** Interfaces *)

(** [create] is the operating system's answer to a request for an interface: the name it got. *)
Section Tun.
Context (create : bytes -> Z -> option bytes) (local_zt_address : bytes).

Definition configure_tun_from_dict_data (network_id : Z) (dict_data : bytes) : step (list Effect) :=
  let* ips := Host.managed_ips_from_dict_data dict_data in
  let* routes := Host.managed_routes_from_dict_data dict_data in
  Ok (map (fun x => TunSetIp network_id x.1 x.2) ips ++ map (fun x => TunAddRoute network_id x.1 x.2) routes).

Definition handle_tun_action (action : NodeAction) (st : gmap Z bytes * list Effect) : step (gmap Z bytes * list Effect) :=
  let '(tuns, out) := st in
  let write network_id payload :=
    match tuns !! network_id with
    | Some _ => Ok (tuns, out ++ [TunWrite network_id payload])
    | None => Ok (tuns, out)
    end in
  match action with
  | FrameReceived network_id _ _ _ payload => write network_id payload
  | LocalReply network_id _ payload => write network_id payload
  | NetworkConfigured network_id dict_data =>
      match tuns !! network_id with
      | Some _ => Ok (tuns, out)
      | None =>
          let tun_name := Host.tun_name_for_network network_id local_zt_address in
          let* mtu := Host.network_mtu_from_dict_data dict_data in
          let mtu := default 2800 mtu in
          let out := out ++ [TunCreate network_id tun_name mtu] in
          match create tun_name mtu with
          | None => Ok (tuns, out)
          | Some name =>
              let* configured := configure_tun_from_dict_data network_id dict_data in
              Ok (<[network_id := name]> tuns, out ++ configured)
          end
      end
  | _ => Ok (tuns, out)
  end.

Definition handle_tun_actions (actions : list NodeAction) (tuns : gmap Z bytes) : step (gmap Z bytes * list Effect) :=
  for_each actions handle_tun_action (tuns, []).

(** ** The branches of the loop *)

Context (controller : option Controller).

(** [receive_packet], with fuel for every packet it can replay or reassemble. *)
Definition receive (n : Node) (data : bytes) (from : SocketAddr) (now : Z) : step (list NodeAction * Node) :=
  NodeReceive.receive_packet (Datatypes.S (NodeTotal.weight n + length data)) n data from now.

Definition on_udp (d : Daemon S) (data : bytes) (from : SocketAddr) (now : Z) : step (Daemon S * list Effect) :=
  let* ' (actions, n) := receive (d_node d) data from now in
  let* ' (n, s) := match controller with
                   | Some ctrl => Service.handle_controller_actions actions ctrl n (d_store d) now
                   | None => Ok (n, d_store d)
                   end in
  let '(pending, n) := NodeOps.drain_actions n in
  let* whois_actions := Service.drain_whois_actions_from_sets n [actions; pending] now in
  let* ' (tuns, out1) := handle_tun_actions actions (d_tuns d) in
  let* ' (tuns, out2) := handle_tun_actions pending tuns in
  Ok (mkDaemon n s tuns (d_pending d) (d_last_pending_whois_ms d),
      execute_actions actions ++ execute_actions pending ++ execute_actions whois_actions ++ out1 ++ out2).

Definition on_tick (d : Daemon S) (endpoints : list SocketAddr) (now : Z) : step (Daemon S * list Effect) :=
  let n := NodeTick.set_local_addresses (d_node d) endpoints in
  let* ' (actions, n) := NodeTick.tick n now in
  let* whois_actions := Service.drain_whois_actions n actions now in
  let* ' (tuns, out) := handle_tun_actions actions (d_tuns d) in
  Ok (mkDaemon n (d_store d) tuns (d_pending d) (d_last_pending_whois_ms d),
      execute_actions actions ++ execute_actions whois_actions ++ out).

(** The ethertype of an IP packet by its version. *)
Definition ethertype_of (frame : bytes) : option Z :=
  match frame with
  | [] => None
  | b :: _ => if Z.shiftr (u8 b) 4 =? 4 then Some 0x0800 else if Z.shiftr (u8 b) 4 =? 6 then Some 0x86DD else None
  end.

Definition is_local_reply (a : NodeAction) : bool := match a with LocalReply _ _ _ => true | _ => false end.
Definition is_unresolved (a : NodeAction) : bool :=
  match a with WhoisNeeded _ | DestinationUnknown _ => true | _ => false end.

Definition on_tun_read (d : Daemon S) (network_id : Z) (frame : bytes) (now : Z) : step (Daemon S * list Effect) :=
  match ethertype_of frame with
  | None => Ok (d, [])
  | Some ethertype =>
      let* ' (n, actions) := Vl2.process_outbound_frame (d_node d) network_id ethertype frame
                               (NodeOps.our_address (d_node d)) now in
      let* whois_actions := Service.drain_whois_actions n actions now in
      let send_count := len (filter (fun a => Service.is_send a = true) actions) in
      let local_reply_count := len (filter (fun a => is_local_reply a = true) actions) in
      let '(pending, last_whois) :=
        if (send_count =? 0) && (local_reply_count =? 0) && existsb is_unresolved actions
        then (Service.queue_pending_frame (d_pending d) (mkPendingFrame network_id ethertype frame now), now)
        else (d_pending d, d_last_pending_whois_ms d) in
      Ok (mkDaemon n (d_store d) (d_tuns d) pending last_whois,
          execute_actions actions ++ execute_actions whois_actions)
  end.

Definition on_config_flush (d : Daemon S) (now : Z) : step (Daemon S * list Effect) :=
  let* ' (actions, n) := NodeTick.flush_config_requests (d_node d) now in
  let* whois_actions := Service.drain_whois_actions n actions now in
  Ok (mkDaemon n (d_store d) (d_tuns d) (d_pending d) (d_last_pending_whois_ms d),
      execute_actions actions ++ execute_actions whois_actions).

Definition on_pending_retry (d : Daemon S) (now : Z) : step (Daemon S * list Effect) :=
  match d_pending d with
  | [] => Ok (d, [])
  | pending =>
      let send_whois := Service.PENDING_FRAME_WHOIS_INTERVAL_MS <=? sat_sub now (d_last_pending_whois_ms d) in
      let last_whois := if send_whois then now else d_last_pending_whois_ms d in
      let* ' (n, sends, whois_actions, kept) := Service.retry_pending_frames (d_node d) pending now send_whois in
      Ok (mkDaemon n (d_store d) (d_tuns d) kept last_whois, execute_actions sends ++ execute_actions whois_actions)
  end.

(** One turn of the loop, at the wall-clock time [now]. *)
Definition turn (d : Daemon S) (event : Event) (now : Z) : step (Daemon S * list Effect) :=
  match event with
  | UdpReceived data from => on_udp d data from now
  | UdpFailed => Ok (d, [])
  | TickDue endpoints => on_tick d endpoints now
  | TunRead network_id frame => on_tun_read d network_id frame now
  | ConfigFlushDue => on_config_flush d now
  | PendingRetryDue => on_pending_retry d now
  end.
End Tun.

(** ** Start *)

Definition load_moon_or_skip (moon : World) (n : Node) : step Node :=
  let* t := attempt (Topo.load_moon (nd_topology n) moon) in
  Ok (match t with Some t => with_topology n t | None => n end).

Definition DEFAULT_NETWORK_MTU : Z := 2800.

(** The node as [run_service] sets it up: [seed] is eight random bytes, [moons] and [networks] what
    moons.d and networks.d hold. *)
Definition setup (identity : Identity) (planet_data seed : bytes) (moons : list World) (networks : list Z) : step (option Node) :=
  let initial_packet_id := Z.land (from_be (rev seed)) 0x0000FFFFFFFFFFFF in
  let* n := attempt (NodeOps.new identity planet_data initial_packet_id) in
  match n with
  | None => Ok None
  | Some n =>
      let* n := for_each moons load_moon_or_skip n in
      Ok (Some (fold_left (fun n id => NodeOps.join_network n (Network.new id DEFAULT_NETWORK_MTU)) networks n))
  end.

(** What it sends before its loop. *)
Definition first_hellos (n : Node) (store : S) (now : Z) : step (Daemon S * list Effect) :=
  let* ' (actions, n) := NodeTick.bootstrap n now in
  let* whois_actions := Service.drain_whois_actions n actions now in
  Ok (mkDaemon n store ∅ [] 0, execute_actions actions ++ execute_actions whois_actions).

Definition start (identity : Identity) (planet_data seed : bytes) (moons : list World) (networks : list Z) (store : S)
    (now : Z) : step (option (Daemon S * list Effect)) :=
  let* n := setup identity planet_data seed moons networks in
  match n with
  | None => Ok None
  | Some n => let* started := first_hellos n store now in Ok (Some started)
  end.

End Daemon.
End Daemon.
