(* ===== verification/LocalApi.v ===== *)
(** * LocalApi: the local REST API (zerotier-service: api/auth.rs, api/network.rs, api/moon.rs,
    api/peer.rs, api/status.rs; service.rs, [load_moons]): authentication, networks joined and
    left with their markers on disk, moons, peers and status.

    The data directory is what the handlers use of it: the names in networks.d and the files of
    moons.d. Whether a file operation succeeds is an argument. *)
From S2P Require Export RestController IpDisplay Daemon.

(** ** types.rs *)

Record StatusResponse := mkStatusResponse {
  sr_address : bytes; sr_version : bytes; sr_online : bool; sr_public_identity : bytes }.
Record PathResponse := mkPathResponse { par_address : bytes; par_active : bool; par_last_receive : Z }.
Record PeerResponse := mkPeerResponse {
  per_address : bytes; per_paths : list PathResponse; per_latency : Z; per_role : bytes }.
Record NetworkResponse := mkNetworkResponse {
  ner_id : bytes; ner_name : bytes; ner_status : bytes; ner_assigned_addresses : list bytes; ner_mac : bytes;
  ner_mtu : Z; ner_port_device_name : bytes }.
Record MoonRootResponse := mkMoonRootResponse { mrr_address : bytes; mrr_endpoints : list bytes }.
Record MoonResponse := mkMoonResponse { mor_id : bytes; mor_timestamp : Z; mor_roots : list MoonRootResponse }.

(** networks.d and moons.d; [None] for a directory that is not there. *)
Record DataDir := mkDataDir { networks_d : option (gset bytes); moons_d : option (gmap bytes bytes) }.

Module LocalApi.

(** ** auth.rs *)

(** The loop is that of [verify_mac]: the differences of all bytes, or-ed together. *)
Definition constant_time_eq (a b : bytes) : bool := if negb (len a =? len b) then false else ct_eq a b.

(** [q.split('&').find(|p| p.starts_with("auth=")).map(|p| &p[5..])]. *)
Definition query_token (q : bytes) : option bytes := drop 5 <$> find (starts_with (str "auth=")) (split_on "&"%byte q).

(** [header] is the value of X-ZT1-Auth that is text, [query] the query of the URI. *)
Definition auth_middleware {A} (auth_token : bytes) (header query : option bytes) (next : A) : res StatusCode A :=
  let provided := match header with Some t => Some t | None => q ← query; query_token q end in
  match provided with
  | Some t => if constant_time_eq t auth_token then Ok next else Err UNAUTHORIZED
  | None => Err UNAUTHORIZED
  end.

(** ** Text *)

Definition format_address (addr : bytes) : bytes := flat_map (fun b => format_hex_pad 2 (u8 b)) addr.
Definition hex_encode (bs : bytes) : bytes := flat_map (fun b => format_hex_pad 2 (u8 b)) bs.
Definition format_mac (mac : bytes) : bytes :=
  format_hex_pad 2 (u8 (nth 0 mac (b8 0))) ++ flat_map (fun i => ":"%byte :: format_hex_pad 2 (u8 (nth i mac (b8 0)))) [1; 2; 3; 4; 5]%nat.

(** [Display] of [SocketAddr]. *)
Definition display_socket_addr (a : SocketAddr) : bytes :=
  match a with
  | SockV4 ip port => Pools.format_ipv4 ip ++ ":"%byte :: format_dec port
  | SockV6 ip port _ scope =>
      str "[" ++ IpDisplay.display_ipv6 ip ++ (if scope =? 0 then [] else "%"%byte :: format_dec scope) ++ str "]:" ++ format_dec port
  end.

(** ** status.rs, peer.rs *)

Definition get_status (version : bytes) (n : Node) : StatusResponse :=
  let addr_hex := format_address (NodeOps.our_address n) in
  let public := id_public (nd_identity n) in
  mkStatusResponse addr_hex version true (addr_hex ++ str ":0:" ++ hex_encode (pk_dh public ++ pk_signing public)).

Definition path_to_response (p : Path) : PathResponse :=
  mkPathResponse (display_socket_addr (path_address p)) (PathOps.is_alive p 0) (path_last_receive p).

Definition peer_to_response (peer : Peer) : PeerResponse :=
  mkPeerResponse (format_address (id_address (peer_identity peer))) (map path_to_response (peer_paths peer))
    (match peer_state peer with Active _ _ _ latency_ms _ _ => latency_ms | _ => -1 end)
    (if peer_is_root peer then str "ROOT" else str "LEAF").

Definition list_peers (n : Node) : list PeerResponse := map (fun x => peer_to_response x.2) (NodeTick.peers_in_order n).

(** ** network.rs *)

Definition with_prefix (format : bytes -> bytes) (o : option (bytes * Z)) : list bytes :=
  match o with Some (ip, prefix) => [format ip ++ "/"%byte :: format_dec prefix] | None => [] end.
Definition add_assigned (assigned : list bytes) (ip : option bytes) : list bytes :=
  match ip with
  | Some ip => if bool_decide (ip ∈ assigned) then assigned else assigned ++ [ip]
  | None => assigned
  end.

Definition membership_to_response (net : NetworkMembership) (our_addr port_device_name : bytes) : NetworkResponse :=
  let assigned := match find (fun m => bool_decide (nm_zt_address m = our_addr)) (nw_members net) with
                  | Some member => with_prefix Pools.format_ipv4 (nm_ipv4 member) ++ with_prefix IpDisplay.display_ipv6 (nm_ipv6 member)
                  | None => []
                  end in
  let assigned := add_assigned assigned ((fun ip => Pools.format_ipv4 ip ++ str "/32") <$> nw_assigned_ipv4 net) in
  let assigned := add_assigned assigned ((fun ip => IpDisplay.display_ipv6 ip ++ str "/128") <$> nw_assigned_ipv6 net) in
  mkNetworkResponse (format_hex_pad 16 (nw_network_id net)) []
    (if is_some (nw_our_com net) then str "OK" else str "REQUESTING_CONFIGURATION")
    assigned (format_mac (Ethernet.derive_mac our_addr (nw_network_id net))) (nw_mtu net) port_device_name.

(** [None] of a lock that is poisoned. *)
Definition port_device_name (tun_names : option (gmap Z bytes)) (network_id : Z) : bytes :=
  default [] (names ← tun_names; names !! network_id).

Definition list_networks (n : Node) (tun_names : option (gmap Z bytes)) : list NetworkResponse :=
  map (fun net => membership_to_response net (NodeOps.our_address n) (port_device_name tun_names (nw_network_id net)))
    (nd_networks n).

Definition network_marker (network_id : Z) : bytes := format_hex_pad 16 network_id ++ str ".conf".

(** [create_dir_all], then [write]: whether the directory is there or made, and the file written. *)
Definition remember_network (made written : bool) (d : DataDir) (network_id : Z) : DataDir :=
  if made then
    let names := default ∅ (networks_d d) in
    mkDataDir (Some (if written then {[network_marker network_id]} ∪ names else names)) (moons_d d)
  else d.

Definition forget_network (removed : bool) (d : DataDir) (network_id : Z) : DataDir :=
  if removed then mkDataDir ((fun names => names ∖ {[network_marker network_id]}) <$> networks_d d) (moons_d d) else d.

Definition marker_id (name : bytes) : option Z :=
  if utf8_valid name then
    stem ← Text.strip_suffix (str ".conf") name;
    if bool_decide (length stem = 16%nat) then RuleJson.hex_u64_of stem else None
  else None.

(** [entries] is what [read_dir] lists, in its order; [None] when it fails. *)
Definition remembered_networks (entries : option (list bytes)) : list Z :=
  match entries with
  | None => []
  | Some entries => dedup (merge_sort Z.le (omap marker_id entries))
  end.

Definition parse_id (id : bytes) : res StatusCode Z := ok_or BAD_REQUEST (RuleJson.hex_u64_of id).

Definition DEFAULT_NETWORK_MTU : Z := Daemon.DEFAULT_NETWORK_MTU.

Definition join_network (tun_names : option (gmap Z bytes)) (made written : bool) (n : Node) (d : DataDir) (id : bytes)
    : Node * DataDir * res StatusCode NetworkResponse :=
  match parse_id id with
  | Ok network_id =>
      match NodeOps.find_network n network_id with
      | Some _ =>
          let n := NodeOps.update_network n network_id (fun net => NodeOps.with_request net true 0) in
          (n, d, match NodeOps.find_network n network_id with
                 | Some existing =>
                     Ok (membership_to_response existing (NodeOps.our_address n) (port_device_name tun_names network_id))
                 | None => Panic
                 end)
      | None =>
          let n := NodeOps.join_network n (Network.new network_id DEFAULT_NETWORK_MTU) in
          let mac := Ethernet.derive_mac (NodeOps.our_address n) network_id in
          (n, remember_network made written d network_id,
           Ok (mkNetworkResponse (format_hex_pad 16 network_id) [] (str "REQUESTING_CONFIGURATION") [] (format_mac mac) 2800 []))
      end
  | Err e => (n, d, Err e)
  | Panic => (n, d, Panic)
  | Hang => (n, d, Hang)
  end.

Definition leave_network (removed : bool) (n : Node) (d : DataDir) (id : bytes) : Node * DataDir * res StatusCode StatusCode :=
  match parse_id id with
  | Ok network_id =>
      (with_networks n (filter (fun net => nw_network_id net <> network_id) (nd_networks n)),
       forget_network removed d network_id, Ok OK)
  | Err e => (n, d, Err e)
  | Panic => (n, d, Panic)
  | Hang => (n, d, Hang)
  end.

(** ** moon.rs *)

Definition root_to_response (root : WorldRoot) : MoonRootResponse :=
  mkMoonRootResponse (format_address (Topo.root_address root))
    (map display_socket_addr (omap Inet.to_socket_addr (wr_endpoints root))).
Definition world_to_response (world : World) : MoonResponse :=
  mkMoonResponse (format_hex_pad 16 (w_id world)) (w_timestamp world) (map root_to_response (w_roots world)).

Definition list_moons (n : Node) : list MoonResponse := map world_to_response (t_moons (nd_topology n)).

Definition moon_file (moon_id : Z) : bytes := format_hex_pad 16 moon_id ++ str ".moon".

Section Moons.
Context {P : Prims}.

(** [readable]: whether a file that is there can be read. *)
Definition orbit_moon (readable : bool) (n : Node) (d : DataDir) (id : bytes) : Node * res StatusCode MoonResponse :=
  let r :=
    let* moon_id := parse_id id in
    match find (fun m => w_id m =? moon_id) (t_moons (nd_topology n)) with
    | Some existing => Ok (n, world_to_response existing)
    | None =>
        let file := if readable then moons ← moons_d d; moons !! moon_file moon_id else None in
        let* bytes := ok_or NOT_FOUND file in
        let* world := map_err (fun _ => UNPROCESSABLE_ENTITY) (WorldP.deserialize bytes) in
        if negb (bool_decide (w_type world = WMoon)) || negb (w_id world =? moon_id) then Err UNPROCESSABLE_ENTITY else
        let* t := map_err (fun _ => UNPROCESSABLE_ENTITY) (Topo.load_moon (nd_topology n) world) in
        Ok (with_topology n t, world_to_response world)
    end in
  match r with Ok (n, response) => (n, Ok response) | Err e => (n, Err e) | Panic => (n, Panic) | Hang => (n, Hang) end.

Definition deorbit_moon (n : Node) (id : bytes) : Node * res StatusCode StatusCode :=
  match parse_id id with
  | Ok moon_id =>
      let '(t, unloaded) := Topo.unload_moon (nd_topology n) moon_id in
      (with_topology n t, if unloaded then Ok OK else Err NOT_FOUND)
  | Err e => (n, Err e)
  | Panic => (n, Panic)
  | Hang => (n, Hang)
  end.

End Moons.

(** service.rs, [load_moons]: [entries] lists moons.d, each name with the bytes read of it. *)
Definition is_moon_name (name : bytes) : bool :=
  match Text.strip_suffix (str ".moon") name with Some stem => negb (bool_decide (stem = [])) | None => false end.

Definition load_moons (entries : option (list (bytes * option bytes))) : list World :=
  omap (fun entry => if is_moon_name entry.1 then
                       data ← entry.2;
                       match WorldP.deserialize data with
                       | Ok world => if bool_decide (w_type world = WMoon) then Some world else None
                       | _ => None
                       end
                     else None)
    (default [] entries).

(** ** Authentication *)

Lemma constant_time_eq_spec a b : constant_time_eq a b = true <-> a = b.
Proof.
  unfold constant_time_eq. destruct (len a =? len b) eqn:El; cbn [negb].
  - apply ct_eq_spec. unfold len in El. lia.
  - split; [done|]. intros ->. lia.
Qed.

(** A request reaches its handler exactly when the token it gives - the header's, or without one
    the first [auth=] of the query - is the configured one. *)
Theorem auth_gate {A} (token : bytes) (header query : option bytes) (next : A) :
  auth_middleware token header query next =
    if bool_decide (match header with Some t => Some t | None => q ← query; query_token q end = Some token)
    then Ok next else Err UNAUTHORIZED.
Proof.
  unfold auth_middleware. destruct (match header with Some t => Some t | None => _ end) as [t|]; [|by rewrite bool_decide_false].
  destruct (constant_time_eq t token) eqn:E.
  - apply constant_time_eq_spec in E as ->. by rewrite bool_decide_true.
  - rewrite bool_decide_false; [done|]. intros [= ->]. by rewrite (proj2 (constant_time_eq_spec token token)) in E.
Qed.

(** ** Networks over a restart *)

Lemma pad_length id : u64_ok id -> length (format_hex_pad 16 id) = 16%nat.
Proof.
  intros Hid. unfold format_hex_pad. rewrite length_app, length_replicate.
  pose proof (IpDisplay.fmt_radix_length 64 16 id [] 16 ltac:(lia)) as H. cbn [length] in H. unfold format_hex, format_radix.
  unfold u64_ok, U64_MAX in Hid. specialize (H ltac:(lia) ltac:(lia)). lia.
Qed.

Lemma marker_back id : u64_ok id -> marker_id (network_marker id) = Some id.
Proof.
  intros Hid. unfold marker_id, network_marker. rewrite utf8_ascii; [|apply Forall_app; split; [apply ascii_pad|repeat constructor; by vm_compute]].
  rewrite strip_app. cbn. rewrite bool_decide_true by by apply pad_length. by apply from_str_pad.
Qed.

Definition ids (n : Node) : list Z := map nw_network_id (nd_networks n).

(** The node's networks are those with a marker, and what else is in networks.d is no marker. *)
Record in_step (n : Node) (d : DataDir) : Prop := {
  is_once : NoDup (ids n);
  is_typed : Forall u64_ok (ids n);
  is_marked id : u64_ok id -> id ∈ ids n <-> network_marker id ∈ default ∅ (networks_d d);
  is_canonical name id : name ∈ default ∅ (networks_d d) -> marker_id name = Some id -> name = network_marker id;
}.

(** What [read_dir] says of networks.d. *)
Definition lists (entries : option (list bytes)) (d : DataDir) : Prop :=
  match networks_d d with
  | Some names => exists l, entries = Some l /\ l ≡ₚ elements names
  | None => entries = None
  end.

Lemma remembered_elem entries d id : lists entries d ->
  id ∈ remembered_networks entries <-> exists name, name ∈ default ∅ (networks_d d) /\ marker_id name = Some id.
Proof.
  unfold lists, remembered_networks. destruct (networks_d d) as [names|]; cbn.
  - intros (l & -> & Hl). rewrite dedup_elem, merge_sort_Permutation, list_elem_of_omap. setoid_rewrite Hl.
    by setoid_rewrite elem_of_elements.
  - intros ->. split; [by intros ?%elem_of_nil|]. intros (name & Hn & _). set_solver.
Qed.

Lemma remembered_sorted entries : StronglySorted Z.le (remembered_networks entries) /\ NoDup (remembered_networks entries).
Proof.
  destruct entries as [l|]; [|split; constructor]. apply dedup_sorted; [apply _..|]. apply (StronglySorted_merge_sort Z.le _).
Qed.

Lemma remembered_in_step n d entries : in_step n d -> lists entries d -> remembered_networks entries ≡ₚ ids n.
Proof.
  intros [Ho Ht Hm Hc] Hl. apply NoDup_Permutation; [apply remembered_sorted|done|]. intros id. rewrite (remembered_elem _ _ _ Hl). split.
  - intros (name & Hn & Hid). rewrite (Hc name id Hn Hid) in Hn. apply Hm; [|done].
    unfold marker_id in Hid. case_match; [|done]. destruct (Text.strip_suffix _ name) as [stem|]; cbn in Hid; [|done]. case_bool_decide; [|done].
    unfold RuleJson.hex_u64_of in Hid. apply from_str_range in Hid; [|done..]. exact Hid.
  - intros Hid. assert (u64_ok id) as Hu by (rewrite Forall_forall in Ht; by apply Ht).
    exists (network_marker id). split; [by apply Hm|by apply marker_back].
Qed.

Lemma marker_inj a b : u64_ok a -> u64_ok b -> network_marker a = network_marker b -> a = b.
Proof. intros Ha Hb He. apply marker_back in Ha, Hb. congruence. Qed.

Lemma joined_ids n net : ids (NodeOps.join_network n net) =
  if bool_decide (nw_network_id net ∈ ids n) then ids n else ids n ++ [nw_network_id net].
Proof.
  unfold NodeOps.join_network, ids. assert (existsb (NodeOps.is_network (nw_network_id net)) (nd_networks n) =
    bool_decide (nw_network_id net ∈ map nw_network_id (nd_networks n))) as ->.
  { apply eq_true_iff_eq. rewrite existsb_exists, bool_decide_eq_true, list_elem_of_In, in_map_iff. unfold NodeOps.is_network.
    split; intros (m & H1' & H2'); exists m; split; try done; lia. }
  case_bool_decide; [done|]. cbn. by rewrite map_app.
Qed.

Lemma parse_id_cases path : (exists id, parse_id path = Ok id /\ u64_ok id) \/ parse_id path = Err BAD_REQUEST.
Proof.
  unfold parse_id. destruct (RuleJson.hex_u64_of path) as [id|] eqn:E; [left; exists id|by right]. split; [done|].
  unfold RuleJson.hex_u64_of in E. apply from_str_range in E; [|done..]. exact E.
Qed.

Lemma join_in_step tun n d path : in_step n d ->
  let '(n', d', _) := join_network tun true true n d path in in_step n' d'.
Proof.
  intros Hs. unfold join_network. destruct (parse_id_cases path) as [(id & -> & Hid)| ->]; [|done]. pose proof Hs as [Ho Ht Hm Hc].
  destruct (NodeOps.find_network n id) as [net|] eqn:Ef.
  - assert (ids (NodeOps.update_network n id (fun net => NodeOps.with_request net true 0)) = ids n) as E.
    { unfold ids, NodeOps.update_network. cbn. clear. induction (nd_networks n) as [|x l IH]; [done|]. cbn. case_match; cbn; [done|by rewrite IH]. }
    split; by rewrite ?E.
  - assert (id ∉ ids n) as Hnew.
    { intros Hin. apply list_elem_of_In, in_map_iff in Hin as (m & Hm' & Hin). unfold NodeOps.find_network in Ef.
      rewrite find_None in Ef. apply list_elem_of_In in Hin. specialize (Ef m Hin). unfold NodeOps.is_network in Ef. lia. }
    assert (ids (NodeOps.join_network n (Network.new id DEFAULT_NETWORK_MTU)) = ids n ++ [id]) as E.
    { rewrite joined_ids. by rewrite bool_decide_false. }
    assert (default ∅ (networks_d (remember_network true true d id)) = {[network_marker id]} ∪ default ∅ (networks_d d)) as Ed by done.
    split; rewrite ?E, ?Ed.
    + apply NoDup_app. split_and!; [done| |apply NoDup_singleton]. by intros x Hx ->%list_elem_of_singleton.
    + apply Forall_app. split; [done|by constructor].
    + intros x Hx. rewrite elem_of_app, elem_of_union, elem_of_singleton, (Hm x Hx). split.
      * intros [Hin|Hin]; [by right|]. apply list_elem_of_singleton in Hin as ->. by left.
      * intros [He|Hin]; [right; apply list_elem_of_singleton; by apply marker_inj|by left].
    + intros name x Hin Hx. apply elem_of_union in Hin as [->%elem_of_singleton|Hin]; [|by apply Hc].
      rewrite marker_back in Hx by done. by injection Hx as <-.
Qed.

Lemma leave_in_step n d path : in_step n d -> let '(n', d', _) := leave_network true n d path in in_step n' d'.
Proof.
  intros Hs. unfold leave_network. destruct (parse_id_cases path) as [(id & -> & Hid)| ->]; [|done]. destruct Hs as [Ho Ht Hm Hc].
  set (n' := with_networks n _).
  assert (ids n' = filter (fun x => x <> id) (ids n)) as E.
  { unfold ids, n'. cbn. clear. induction (nd_networks n) as [|x l IH]; [done|]. cbn [map]. rewrite !filter_cons. by case_decide; cbn; rewrite IH. }
  assert (default ∅ (networks_d (forget_network true d id)) = default ∅ (networks_d d) ∖ {[network_marker id]}) as Ed.
  { unfold forget_network, networks_d at 1. destruct (networks_d d); [done|]. symmetry. change ((∅ : gset bytes) ∖ {[network_marker id]} = ∅).
    apply set_eq. intros x. rewrite elem_of_difference, elem_of_empty. tauto. }
  split; rewrite ?E, ?Ed.
  - by apply NoDup_filter.
  - apply Forall_forall. intros x [_ Hx]%list_elem_of_filter. rewrite Forall_forall in Ht. by apply Ht.
  - intros x Hx. rewrite list_elem_of_filter, elem_of_difference, not_elem_of_singleton, (Hm x Hx). split.
    + intros [Hne Hin]. split; [done|]. intros He. apply Hne. by apply marker_inj.
    + intros [Hin Hne]. split; [|done]. by intros ->.
  - intros name x [Hin _]%elem_of_difference. by apply Hc.
Qed.

(** A node that joins what it remembers, as the service does when it starts. *)
Definition rejoin (n : Node) (remembered : list Z) : Node :=
  fold_left (fun n id => NodeOps.join_network n (Network.new id DEFAULT_NETWORK_MTU)) remembered n.

Lemma rejoined n l : NoDup l -> (forall id, id ∈ l -> id ∉ ids n) -> ids (rejoin n l) = ids n ++ l.
Proof.
  intros Hd. unfold rejoin. revert n. induction Hd as [|x l Hx _ IH]; intros n Hn; cbn [fold_left]; [by rewrite app_nil_r|].
  assert (ids (NodeOps.join_network n (Network.new x DEFAULT_NETWORK_MTU)) = ids n ++ [x]) as E.
  { rewrite joined_ids. rewrite bool_decide_false; [done|]. apply Hn. by left. }
  rewrite IH, E, <- app_assoc; [done|]. intros id Hid. rewrite E, elem_of_app, list_elem_of_singleton.
  intros [Hin| ->]; [by apply (Hn id); [right|]|done].
Qed.

Inductive LocalCall := Join (tun_names : option (gmap Z bytes)) (path : bytes) | Leave (path : bytes).

(** The calls on a disk that works. *)
Definition run_local (s : Node * DataDir) (call : LocalCall) : Node * DataDir :=
  match call with
  | Join tun_names path => (join_network tun_names true true s.1 s.2 path).1
  | Leave path => (leave_network true s.1 s.2 path).1
  end.

(** C37. Joins survive a restart: after any history of joins and leaves over the API, whatever the
    order in which the directory is listed, the service that starts again joins exactly the
    networks the node was on, each once, in the order of their identifiers, requesting the
    configuration of each afresh. *)
Theorem joins_survive_restart (n fresh : Node) (d : DataDir) (calls : list LocalCall) (entries : option (list bytes)) :
  in_step n d -> nd_networks fresh = [] ->
  let s := fold_left run_local calls (n, d) in
  lists entries s.2 ->
  let restarted := rejoin fresh (remembered_networks entries) in
  ids restarted ≡ₚ ids s.1 /\ NoDup (ids restarted) /\ StronglySorted Z.le (ids restarted) /\ in_step restarted s.2.
Proof.
  intros Hs Hf s Hl restarted.
  assert (in_step s.1 s.2) as Hs'.
  { unfold s. clear -Hs. change n with (n, d).1 in Hs. change d with ((n, d)).2 in Hs at 2. revert Hs. generalize (n, d).
    induction calls as [|call calls IH]; intros nd Hs; [done|]. cbn [fold_left]. apply IH. destruct call as [tun path|path]; cbn.
    - pose proof (join_in_step tun nd.1 nd.2 path Hs). by destruct (join_network tun true true nd.1 nd.2 path) as [[] ?].
    - pose proof (leave_in_step nd.1 nd.2 path Hs). by destruct (leave_network true nd.1 nd.2 path) as [[] ?]. }
  pose proof (remembered_in_step _ _ _ Hs' Hl) as Hp. destruct (remembered_sorted entries) as [Hsort Hd].
  assert (ids restarted = remembered_networks entries) as E.
  { unfold restarted. rewrite rejoined; [unfold ids at 1; by rewrite Hf|done|]. intros id _. unfold ids. rewrite Hf. apply not_elem_of_nil. }
  rewrite E. split_and!; [done..|]. destruct Hs' as [Ho Ht Hm Hc].
  split; rewrite ?E; [done|by rewrite Hp| |done]. intros id Hid. rewrite Hp. by apply Hm.
Qed.

(** ** Moons *)

Lemma moon_file_name id : is_moon_name (moon_file id) = true.
Proof.
  unfold is_moon_name, moon_file. rewrite strip_app. apply negb_true_iff, bool_decide_eq_false.
  unfold format_hex_pad. intros [_ H]%app_eq_nil. by apply IpDisplay.format_nonempty in H.
Qed.

(** Orbiting: a success names a moon that is loaded, and unless it was already, its file held it,
    signed, and a service that starts on the same directory loads it again; a failure changes
    nothing. *)
Theorem orbit_moon_spec {P : Prims} (readable : bool) (n : Node) (d : DataDir) (id : bytes) :
  let '(n', r) := orbit_moon readable n d id in
  match r with
  | Ok resp =>
      exists moon_id world, parse_id id = Ok moon_id /\ w_id world = moon_id /\ world ∈ t_moons (nd_topology n') /\
        resp = world_to_response world /\
        (n' = n \/ exists data, (moons ← moons_d d; moons !! moon_file moon_id) = Some data /\
           WorldP.deserialize data = Ok world /\ (exists u, WorldP.verify_signature world = Ok u) /\
           forall entries, (moon_file moon_id, Some data) ∈ entries -> world ∈ load_moons (Some entries))
  | _ => n' = n
  end.
Proof.
  unfold orbit_moon. destruct (parse_id id) as [moon_id| | |] eqn:Eid; cbn [rbind]; try done.
  destruct (find _ (t_moons (nd_topology n))) as [m|] eqn:Ef.
  { apply find_Some in Ef as [Hin He]. exists moon_id, m. split_and!; [done|lia|done|done|by left]. }
  destruct (if readable then _ else None) as [data|] eqn:Ed; cbn [ok_or rbind]; [|done].
  destruct readable; [|done]. destruct (WorldP.deserialize data) as [world| | |] eqn:Ew; cbn [map_err rbind]; try done.
  destruct (bool_decide (w_type world = WMoon)) eqn:Et; cbn [negb orb]; [|done].
  destruct (w_id world =? moon_id) eqn:Ei; cbn [negb]; [|done].
  unfold Topo.load_moon. destruct (WorldP.verify_signature world) as [u| | |] eqn:Ev; cbn [rbind map_err]; try done.
  exists moon_id, world. split_and!; [done|lia|cbn; apply elem_of_app; right; by left|done|]. right. exists data.
  split_and!; [done|done|by eexists|]. intros entries Hin. unfold load_moons. apply list_elem_of_omap. eexists. split; [exact Hin|].
  cbn [fst snd]. rewrite moon_file_name. cbn [mbind option_bind]. by rewrite Ew, Et.
Qed.

(** Two networks joined, one left, junk in the directory; the listing has its own order. *)
Definition idle_node : Node :=
  mkNode (mkIdentity (map b8 [1; 2; 3; 4; 5]) (id_public Ident.sample) None) [] Topo.new Root.new (Fragment.new 256) [] 1 [] Multicast.new [] [] [].
Definition sample_dir : DataDir := mkDataDir (Some {[str "junk.txt"]}) None.
Definition sample_history : list LocalCall :=
  [Join None (str "2105b78c5f78ff8e"); Join None (str "1111111111111111"); Join None (str "00abc"); Leave (str "2105B78C5F78FF8E")].
Definition sample_listing : option (list bytes) := Some [str "junk.txt"; str "1111111111111111.conf"; str "0000000000000abc.conf"].

Lemma joins_survive_restart_witness :
  remembered_networks sample_listing = [0xabc; 0x1111111111111111] /\
  ids (rejoin idle_node (remembered_networks sample_listing)) ≡ₚ ids (fold_left run_local sample_history (idle_node, sample_dir)).1.
Proof.
  split; [vm_compute; reflexivity|]. apply (joins_survive_restart idle_node idle_node sample_dir sample_history sample_listing).
  - split; [constructor|constructor| |].
    + intros id Hid. split; [by intros ?%elem_of_nil|]. intros Hin. change (network_marker id ∈ ({[str "junk.txt"]} : gset bytes)) in Hin. apply elem_of_singleton in Hin.
      pose proof (marker_back id Hid) as Hb. rewrite Hin in Hb. vm_compute in Hb. discriminate.
    + intros name id Hin Hm. change (name ∈ ({[str "junk.txt"]} : gset bytes)) in Hin. apply elem_of_singleton in Hin. rewrite Hin in Hm. vm_compute in Hm. discriminate.
  - reflexivity.
  - assert (networks_d (fold_left run_local sample_history (idle_node, sample_dir)).2 =
      Some {[str "junk.txt"; str "1111111111111111.conf"; str "0000000000000abc.conf"]}) as Hd
      by (apply (bool_decide_eq_true_1 _); vm_compute; reflexivity).
    unfold lists. rewrite Hd. eexists. split; [reflexivity|]. apply NoDup_Permutation; [|apply NoDup_elements|].
    + apply (bool_decide_eq_true_1 _). vm_compute. reflexivity.
    + intros x. rewrite elem_of_elements.
      generalize (str "junk.txt") (str "1111111111111111.conf") (str "0000000000000abc.conf"). clear. intros a b c.
      rewrite !elem_of_union, !elem_of_singleton, !elem_of_cons, elem_of_nil. tauto.
Defined.

End LocalApi.
