(* ===== verification/Outbound.v ===== *)
(** * Outbound: what becomes of a frame the host sends (zerotier-node: vl2.rs,
    [process_outbound_frame]), and of the frames the service holds until their peer can be
    reached (zerotier-service: service.rs, [retry_pending_frames]). *)
From S2P Require Export NodeUpkeep Service.

Module Outbound.
Section Outbound.
Context {P : Prims} {L : PrimLaws P}.

(** ** Where a frame goes *)

(** The member an IP packet is for, nobody known, or nobody at all. *)
Inductive Dest := ToMember (member : NetworkMember) | NobodyKnown | Nobody.

Definition destination (network : NetworkMembership) (ethertype : Z) (payload : bytes) : Dest :=
  let found (member : option NetworkMember) (quiet : bool) :=
    match member with Some member => ToMember member | None => if quiet then Nobody else NobodyKnown end in
  if ethertype =? ETHERTYPE_IPV4 then
    if 20 <=? len payload then
      let ip := take 4 (drop 16 payload) in
      found (Network.lookup_ipv4 network ip)
        (Vl2.v4_is_multicast ip || Vl2.v4_is_broadcast ip || Vl2.is_directed_broadcast_v4 network ip)
    else Nobody
  else
    if 40 <=? len payload then
      let ip := take 16 (drop 24 payload) in
      found (Network.lookup_ipv6 network ip) (Vl2.v6_is_multicast ip)
    else Nobody.

Definition is_ip (ethertype : Z) : Prop := ethertype = ETHERTYPE_IPV4 \/ ethertype = ETHERTYPE_IPV6.

(** The EXT_FRAME for a member. *)
Definition ext_frame (n : Node) (network : NetworkMembership) (member : NetworkMember) (ethertype : Z) (payload : bytes)
    : ExtFrameP.t :=
  ExtFrameP.mk (nw_network_id network) (b8 0) (nm_mac member) (Network.our_mac network (NodeOps.our_address n)) ethertype payload.

(** [actions] are the datagrams of one packet, sealed for the member, which reads back the frame. *)
Definition sends_frame (n : Node) (network : NetworkMembership) (member : NetworkMember) (ethertype : Z) (payload : bytes)
    (path : SocketAddr) (secret : bytes) (actions : list NodeAction) : Prop :=
  exists packet_id q frs,
    Root.sealed secret packet_id (nm_zt_address member) (NodeOps.our_address n) 1 ExtFrame
      (ExtFrameP.encode (ext_frame n network member ethertype payload)) q /\
    ExtFrameP.parse (ExtFrameP.encode (ext_frame n network member ethertype payload)) =
      Ok (ext_frame n network member ethertype payload) /\
    Fragment.fragment_packet q (nw_mtu network) = Ok (Some frs) /\ frs <> [] /\
    actions = map (fun data => SendTo data path) frs.

(** The outcome of sending an IP packet on a network: the node and the actions. *)
Definition outcome (n : Node) (network : NetworkMembership) (ethertype : Z) (payload : bytes) (now_ms : Z)
    (n' : Node) (actions : list NodeAction) : Prop :=
  match destination network ethertype payload with
  | Nobody => n' = n /\ actions = []
  | NobodyKnown => n' = NodeOps.note_unknown_destination n (nw_network_id network) now_ms /\
                   actions = [DestinationUnknown (nw_network_id network)]
  | ToMember member =>
      match NodeTick.reachable n (nm_zt_address member) now_ms with
      | None => n' = n /\ actions = [WhoisNeeded [nm_zt_address member]]
      | Some (path, secret) =>
          n' = (NodeOps.allocate_packet_id n).2 /\
          if Fragment.fits (51 + len payload) (nw_mtu network)
          then sends_frame n network member ethertype payload path secret actions
          else actions = []
      end
  end.

Lemma destination_member network ethertype payload member :
  destination network ethertype payload = ToMember member -> member ∈ nw_members network.
Proof.
  unfold destination. intros H. destruct (ethertype =? ETHERTYPE_IPV4); case_match; try done;
    [destruct (Network.lookup_ipv4 _ _) as [m|] eqn:E|destruct (Network.lookup_ipv6 _ _) as [m|] eqn:E];
    try (by case_match); injection H as <-; by apply find_Some in E as [? _].
Qed.

Lemma reachable_spec n a now : NodeTick.reachable n a now =
  (peer ← NodeOps.get_peer n a; path ← PeerOps.best_path peer now; secret ← PeerOps.shared_secret peer;
   Some (path_address path, secret)).
Proof. done. Qed.

Lemma member_sent n network member ethertype payload now : NodeInv.node_ok n -> NodeConfig.network_ok network ->
  member ∈ nw_members network -> u16_ok ethertype ->
  exists n' actions, Vl2.send_to_member n network member (nw_network_id network) ethertype payload (NodeOps.our_address n)
      (Network.our_mac network (NodeOps.our_address n)) now [] = Ok (n', actions) /\
    match NodeTick.reachable n (nm_zt_address member) now with
    | None => n' = n /\ actions = [WhoisNeeded [nm_zt_address member]]
    | Some (path, secret) =>
        n' = (NodeOps.allocate_packet_id n).2 /\
        if Fragment.fits (51 + len payload) (nw_mtu network)
        then sends_frame n network member ethertype payload path secret actions
        else actions = []
    end.
Proof.
  intros Hn [Hid Hms] Hin Het. unfold Vl2.send_to_member. rewrite <- reachable_spec.
  destruct (NodeTick.reachable n (nm_zt_address member) now) as [[path ss]|] eqn:Er; [|by eexists _, _].
  destruct (NodeUpkeep.reachable_ok n _ now path ss Hn Er) as [Ha Hss].
  pose proof (proj1 (Forall_forall _ _) Hms member Hin) as [_ Hmac]. fold (ext_frame n network member ethertype payload).
  set (ext := ext_frame n network member ethertype payload). assert (ExtFrameP.shape ext) as Hs by (by split_and!).
  cbn [NodeOps.allocate_packet_id snd]. set (n1 := with_next_packet_id n _).
  destruct (Vl2.build_ext_sealed (nd_next_packet_id n) (NodeOps.our_address n) (nm_zt_address member) ext ss Hs)
    as (q & -> & Hl & Hq); [lia|done|exact (NodeInv.our_address_len n Hn)|]. rewrite rbind_ok.
  unfold Vl2.push_fragmented_send. change (len (ExtFrameP.payload ext)) with (len payload) in Hl. pose proof (len_nonneg payload).
  destruct (Fragment.fragment_packet_fits q (nw_mtu network) ltac:(lia)) as [[Hf Hfit]|(frs & Hf & Hfit & Hne)];
    rewrite Hl in Hfit; rewrite Hf, !rbind_ok; eexists _, _; (split; [done|]); (split; [done|]); rewrite Hfit; [done|].
  exists (nd_next_packet_id n), q, frs. split_and!; [exact Hq|exact (@pc_roundtrip _ ExtFrameP.codec ext Hs)|done..].
Qed.

Lemma outbound_outcome (n : Node) (network_id ethertype : Z) (payload : bytes) (now_ms : Z) :
  NodeInv.node_ok n -> is_ip ethertype ->
  exists n' actions,
    Vl2.process_outbound_frame n network_id ethertype payload (NodeOps.our_address n) now_ms = Ok (n', actions) /\
    match NodeOps.find_network n network_id with
    | None => n' = n /\ actions = []
    | Some network => outcome n network ethertype payload now_ms n' actions
    end.
Proof.
  intros Hn Hip. unfold Vl2.process_outbound_frame. destruct (NodeOps.find_network n network_id) as [network|] eqn:Ef;
    [|by eexists _, _].
  pose proof (NodeOps.find_network_id _ _ _ Ef) as <-. apply find_Some in Ef as [Hin _].
  pose proof (proj1 (Forall_forall _ _) (NodeInv.ty_networks _ (NodeInv.nk_typed _ Hn)) network Hin) as Hok.
  assert (u16_ok ethertype) as Het by (by destruct Hip as [-> | ->]).
  assert (forall member, member ∈ nw_members network -> destination network ethertype payload = ToMember member ->
    exists n' actions, Vl2.send_to_member n network member (nw_network_id network) ethertype payload (NodeOps.our_address n)
      (Network.our_mac network (NodeOps.our_address n)) now_ms [] = Ok (n', actions) /\
      outcome n network ethertype payload now_ms n' actions) as Hsend.
  { intros member Hm Hd. unfold outcome. rewrite Hd. by apply member_sent. }
  pose proof (destination_member network ethertype payload) as Hmem. unfold outcome in *.
  destruct Hip as [-> | ->]; unfold destination in *; cbn [Z.eqb ETHERTYPE_IPV4 ETHERTYPE_IPV6 ETHERTYPE_ARP Pos.eqb] in *; cbv zeta in *.
  - destruct (20 <=? len payload) eqn:E; [|by eexists _, _]. rewrite slice_ok, rbind_ok by lia.
    change (Z.to_nat (20 - 16)) with 4%nat. change (Z.to_nat 16) with 16%nat. set (ip := take 4 (drop 16 payload)) in *.
    destruct (Network.lookup_ipv4 network ip) as [member|]; [by apply Hsend; [apply Hmem|]|].
    rewrite <- !negb_orb. by destruct (_ || _ || _); eexists _, _.
  - destruct (40 <=? len payload) eqn:E; [|by eexists _, _]. rewrite slice_ok, rbind_ok by lia.
    change (Z.to_nat (40 - 24)) with 16%nat. change (Z.to_nat 24) with 24%nat. set (ip := take 16 (drop 24 payload)) in *.
    destruct (Network.lookup_ipv6 network ip) as [member|]; [by apply Hsend; [apply Hmem|]|].
    by destruct (Vl2.v6_is_multicast ip); eexists _, _.
Qed.

(** ** ARP *)

(** What the ARP packet of the host is answered with, from the network's own members. *)
Definition arp_answer (network : NetworkMembership) (payload : bytes) : option ArpPacket :=
  match Arp.parse payload with Ok arp => Arp.handle_arp_request arp network | _ => None end.

(** [reply] tells the asker the MAC of the member that has the address asked for. *)
Definition answers (network : NetworkMembership) (payload : bytes) (reply : ArpPacket) : Prop :=
  exists arp member prefix, Arp.parse payload = Ok arp /\ arp_operation arp = ARP_OP_REQUEST /\
    member ∈ nw_members network /\ nm_ipv4 member = Some (arp_target_proto arp, prefix) /\
    arp_operation reply = ARP_OP_REPLY /\ arp_sender_hw reply = nm_mac member /\ arp_sender_proto reply = arp_target_proto arp /\
    arp_target_hw reply = arp_sender_hw arp /\ arp_target_proto reply = arp_sender_proto arp.

(** The frame to the broadcast address that carries it, and its copies to the group's subscribers
    that have a path. *)
Definition arp_frame (n : Node) (network : NetworkMembership) (payload : bytes) : ExtFrameP.t :=
  ExtFrameP.mk (nw_network_id network) (b8 0) (replicate 6 (b8 0xff)) (Network.our_mac network (NodeOps.our_address n)) ETHERTYPE_ARP payload.

Definition arp_copies (n : Node) (network : NetworkMembership) (payload : bytes) (now_ms : Z) : list NodeAction :=
  omap (fun subscriber =>
      peer ← NodeOps.get_peer n subscriber;
      path ← PeerOps.best_path peer now_ms;
      Some (SendTo (ExtFrameP.encode (arp_frame n network payload)) (path_address path)))
    (Multicast.get_replication_targets (nd_multicast n) (nw_network_id network) (replicate 6 (b8 0xff)) ETHERTYPE_ARP
       (NodeOps.our_address n) 64).

Definition arp_outcome (n : Node) (network : NetworkMembership) (payload : bytes) (now_ms : Z)
    (r : step (Node * list NodeAction)) : Prop :=
  match arp_answer network payload with
  | Some reply => exists data, r = Ok (n, [LocalReply (nw_network_id network) ETHERTYPE_ARP data]) /\
      len data = 28 /\ Arp.parse data = Ok reply /\ answers network payload reply
  | None => r = if len payload <=? 2025 then Ok (n, arp_copies n network payload now_ms) else Panic
  end.

Lemma multicast_arp_run n network payload now : NodeConfig.network_ok network ->
  Vl2.multicast_arp n (nw_network_id network) ETHERTYPE_ARP payload (NodeOps.our_address n)
    (Network.our_mac network (NodeOps.our_address n)) now =
  if len payload <=? 2025 then Ok (arp_copies n network payload now) else Panic.
Proof.
  intros [Hid _]. unfold Vl2.multicast_arp. fold (arp_frame n network payload).
  assert (ExtFrameP.shape (arp_frame n network payload)) as Hshape by by split_and!.
  pose proof (pc_emits (arp_frame n network payload) Hshape) as He. cbn in He.
  assert (len (ExtFrameP.encode (arp_frame n network payload)) = 23 + len payload) as Hl
    by (unfold arp_frame, ExtFrameP.encode; cbn; len_lia).
  destruct (Z.leb_spec (len payload) 2025).
  - by rewrite (Vl2.serialized_emits _ _ 2048 He) by lia.
  - unfold Vl2.serialized. by rewrite (emits_panic _ _ _ _ He) by (rewrite len_replicate; lia).
Qed.

Lemma arp_run n network payload now : NodeConfig.network_ok network ->
  arp_outcome n network payload now
    (let* actions := Vl2.outbound_arp n network (nw_network_id network) payload (NodeOps.our_address n)
       (Network.our_mac network (NodeOps.our_address n)) now in Ok (n, actions)).
Proof.
  intros Hok. pose proof Hok as [_ Hms]. unfold Vl2.outbound_arp, arp_outcome, arp_answer.
  assert (Arp.macs_ok network) as Hmacs by (eapply Forall_impl; [exact Hms|]; by intros m [_ ?]).
  pose proof (Arp.arp_spec payload network Hmacs) as Hs. rewrite (multicast_arp_run n network payload now Hok).
  destruct (Arp.parse payload) as [arp|e| |] eqn:Ea; [|by cbn; destruct (_ <=? 2025)|done..].
  cbn [attempt]. rewrite rbind_ok. cbn [mbind option_bind]. destruct Hs as [_ Hs].
  destruct (Arp.handle_arp_request arp network) as [r|]; [|by destruct (_ <=? 2025)].
  destruct Hs as (member & prefix & w & Hm & Hip & Hop & H1 & H2 & H3 & H4 & H5 & Hr & Hw & Hpw).
  unfold Vl2.serialized. change (Z.to_nat 28) with 28%nat. change (b8 0) with "000"%byte. rewrite Hr. cbn [attempt].
  rewrite rbind_ok, slice_ok, !rbind_ok by lia. eexists. split; [done|]. rewrite drop_0, take_ge by (unfold len in Hw; lia).
  split_and!; [done..|]. exists arp, member, prefix. by split_and!.
Qed.

(** Every frame: what the node does with it, by its ethertype. *)
Definition frame_outcome (n : Node) (network_id ethertype : Z) (payload : bytes) (now_ms : Z)
    (r : step (Node * list NodeAction)) : Prop :=
  match NodeOps.find_network n network_id with
  | None => r = Ok (n, [])
  | Some network =>
      if ethertype =? ETHERTYPE_ARP then arp_outcome n network payload now_ms r
      else if (ethertype =? ETHERTYPE_IPV4) || (ethertype =? ETHERTYPE_IPV6) then
        exists n' actions, r = Ok (n', actions) /\ outcome n network ethertype payload now_ms n' actions
      else r = Ok (n, [])
  end.

Lemma frame_run n network_id ethertype payload now : NodeInv.node_ok n ->
  frame_outcome n network_id ethertype payload now
    (Vl2.process_outbound_frame n network_id ethertype payload (NodeOps.our_address n) now).
Proof.
  intros Hn. unfold frame_outcome. destruct ((ethertype =? ETHERTYPE_IPV4) || (ethertype =? ETHERTYPE_IPV6)) eqn:Hip.
  { assert (is_ip ethertype) as Hi by (unfold is_ip; lia).
    destruct (outbound_outcome n network_id ethertype payload now Hn Hi) as (n' & actions & -> & Ho).
    destruct (NodeOps.find_network n network_id); [|by destruct Ho as [-> ->]].
    rewrite if_false by (by destruct Hi as [-> | ->]). by exists n', actions. }
  unfold Vl2.process_outbound_frame. destruct (NodeOps.find_network n network_id) as [network|] eqn:Ef; [|done].
  pose proof (NodeOps.find_network_id _ _ _ Ef) as <-. apply find_Some in Ef as [Hin _].
  pose proof (proj1 (Forall_forall _ _) (NodeInv.ty_networks _ (NodeInv.nk_typed _ Hn)) network Hin) as Hok.
  cbv zeta. destruct (ethertype =? ETHERTYPE_ARP); [by apply arp_run|]. by rewrite !if_false by lia.
Qed.

(** C3. Frames from the host, of any ethertype. Of a network that was not joined: nothing happens.
    An ARP request for the address of a member is answered on the spot with that member's MAC,
    in 28 bytes that parse back; any other ARP frame is copied to the subscribers of the
    broadcast group that have a path, and panics beyond 2025 bytes, the room in its buffer. An IP
    packet never panics: one for an address of a member with a live session goes out as one
    packet sealed for that member, which reads back the frame with its own MAC as the
    destination, cut into datagrams that fit the network's MTU (or, when seven of them do not
    hold it, not at all); for a member without a session, the roots are to be asked for it; for
    an address of nobody, a fresh configuration is wanted, unless the address is a multicast or
    broadcast one. Every other frame is dropped. *)
Theorem outbound_frame_spec (n : Node) (network_id ethertype : Z) (payload : bytes) (now_ms : Z) :
  NodeInv.node_ok n ->
  frame_outcome n network_id ethertype payload now_ms
    (Vl2.process_outbound_frame n network_id ethertype payload (NodeOps.our_address n) now_ms).
Proof. apply frame_run. Qed.

(** ** What sending changes *)

Definition request_only (a b : NetworkMembership) : Prop := exists pending last, b = NodeOps.with_request a pending last.

Lemma request_only_refl l : Forall2 request_only l l.
Proof. induction l as [|[] l IH]; constructor; [by do 2 eexists|done]. Qed.

(** Nothing a frame's way depends on. *)
Record same_ways (n n' : Node) : Prop := {
  sw_identity : nd_identity n' = nd_identity n;
  sw_topology : nd_topology n' = nd_topology n;
  sw_networks : Forall2 request_only (nd_networks n) (nd_networks n');
}.

Lemma same_ways_networks n n' : nd_identity n' = nd_identity n -> nd_topology n' = nd_topology n ->
  nd_networks n' = nd_networks n -> same_ways n n'.
Proof. intros Hi Ht Hn. split; [done..|]. rewrite Hn. apply request_only_refl. Qed.

Lemma same_ways_trans n1 n2 n3 : same_ways n1 n2 -> same_ways n2 n3 -> same_ways n1 n3.
Proof.
  intros [A1 A2 A3] [B1 B2 B3]. split; [congruence..|]. revert B3. generalize (nd_networks n3).
  induction A3 as [|a b l k (p & q & ->) _ IH]; intros m Hm; inversion Hm; subst; constructor; [|by apply IH].
  destruct H1 as (p' & q' & ->). by exists p', q'.
Qed.

Lemma note_unknown_ways n nid now : same_ways n (NodeOps.note_unknown_destination n nid now).
Proof.
  split; [done..|]. cbn. induction (nd_networks n) as [|net l IH]; [constructor|]. cbn.
  destruct (NodeOps.is_network nid net); constructor; [by do 2 eexists|apply request_only_refl|by destruct net; do 2 eexists|done].
Qed.

Lemma same_ways_find n n' nid : same_ways n n' ->
  match NodeOps.find_network n nid with
  | None => NodeOps.find_network n' nid = None
  | Some net => exists pending last, NodeOps.find_network n' nid = Some (NodeOps.with_request net pending last)
  end.
Proof.
  intros [_ _ H]. unfold NodeOps.find_network. induction H as [|a b l k (p & q & ->) _ IH]; [done|]. cbn.
  unfold NodeOps.is_network in *. cbn. destruct (nw_network_id a =? nid); [by exists p, q|exact IH].
Qed.

Lemma outcome_keeps n network ethertype payload now n' actions : NodeInv.node_ok n -> network ∈ nd_networks n ->
  outcome n network ethertype payload now n' actions ->
  NodeInv.keeps n n' /\ same_ways n n' /\ Forall action_ok actions.
Proof.
  intros Hn Hin. unfold outcome. pose proof (destination_member network ethertype payload) as Hmem.
  assert (same_ways n n) as Hsame by by apply same_ways_networks.
  destruct (destination network ethertype payload) as [member| |].
  - specialize (Hmem member eq_refl).
    pose proof (proj1 (Forall_forall _ _) (NodeInv.ty_networks _ (NodeInv.nk_typed _ Hn)) network Hin) as [_ Hms].
    pose proof (proj1 (Forall_forall _ _) Hms member Hmem) as [Ha _].
    destruct (NodeTick.reachable n (nm_zt_address member) now) as [[path ss]|].
    + intros [-> Hs]. split; [by apply NodeInv.keeps_packet_id|]. split; [by apply same_ways_networks|].
      destruct (Fragment.fits _ _); [|by subst]. destruct Hs as (pid & q & frs & _ & _ & _ & _ & ->).
      apply List.Forall_map. by apply Forall_true.
    + intros [-> ->]. split_and!; [by apply NodeInv.keeps_refl|done|]. repeat constructor. done.
  - intros [-> ->]. split_and!; [|apply note_unknown_ways|by repeat constructor]. by apply NodeInv.keeps_update_network.
  - intros [-> ->]. by split_and!; [apply NodeInv.keeps_refl|..].
Qed.

(** ** Frames held back *)

Definition live (held : PendingFrame) (now_ms : Z) : bool :=
  negb (Service.PENDING_FRAME_TTL_MS <? sat_sub now_ms (pf_queued_at_ms held)).

(** The member a held frame is for, if it can be sent to now. *)
Definition way (n : Node) (held : PendingFrame) (now_ms : Z) : option (NetworkMembership * NetworkMember * SocketAddr * bytes) :=
  network ← NodeOps.find_network n (pf_network_id held);
  match destination network (pf_ethertype held) (pf_frame held) with
  | ToMember member =>
      '(path, secret) ← NodeTick.reachable n (nm_zt_address member) now_ms;
      if Fragment.fits (51 + len (pf_frame held)) (nw_mtu network) then Some (network, member, path, secret) else None
  | _ => None
  end.

Definition sendable (n : Node) (held : PendingFrame) (now_ms : Z) : bool := bool_decide (is_Some (way n held now_ms)).

Lemma reachable_ways n n' a now : same_ways n n' -> NodeTick.reachable n' a now = NodeTick.reachable n a now.
Proof. intros H. unfold NodeTick.reachable, NodeOps.get_peer. by rewrite (sw_topology _ _ H). Qed.

Lemma sendable_ways n n' held now : same_ways n n' -> sendable n' held now = sendable n held now.
Proof.
  intros H. unfold sendable. apply bool_decide_ext. unfold way. pose proof (same_ways_find n n' (pf_network_id held) H) as Hf.
  destruct (NodeOps.find_network n (pf_network_id held)) as [net|]; [|by rewrite Hf].
  destruct Hf as (p & l & ->). cbn.
  change (destination (NodeOps.with_request net p l)) with (destination net).
  destruct (destination net _ _) as [member| |]; [|done..].
  rewrite (reachable_ways _ _ _ _ H).
  destruct (NodeTick.reachable n _ _) as [[path ss]|]; [|done]. cbn. by destruct (Fragment.fits _ _).
Qed.

(** The datagrams that carry a held frame. *)
Definition frame_sent (n : Node) (now_ms : Z) (held : PendingFrame) (actions : list NodeAction) : Prop :=
  exists network member path secret, way n held now_ms = Some (network, member, path, secret) /\
    sends_frame n network member (pf_ethertype held) (pf_frame held) path secret actions.

Lemma frame_sent_ways n n' now held actions : same_ways n n' -> frame_sent n' now held actions -> frame_sent n now held actions.
Proof.
  intros H (net' & member & path & ss & Hw & Hs). unfold way in Hw. pose proof (same_ways_find n n' (pf_network_id held) H) as Hf.
  unfold frame_sent, way. destruct (NodeOps.find_network n (pf_network_id held)) as [net|]; [|by rewrite Hf in Hw].
  destruct Hf as (p & l & Hf). rewrite Hf in Hw. cbn in Hw |- *. change (destination (NodeOps.with_request net p l)) with (destination net) in Hw.
  destruct (destination net _ _) as [m| |]; [|done..].
  rewrite (reachable_ways _ _ _ _ H) in Hw. destruct (NodeTick.reachable n _ _) as [[path' ss']|]; [|done]. cbn in Hw |- *.
  destruct (Fragment.fits _ _); [|done]. injection Hw as <- <- <- <-. do 4 eexists. split; [done|].
  destruct Hs as (pid & q & frs & Hq & Hp & Hfr & Hne & ->). exists pid, q, frs.
  unfold ext_frame, NodeOps.our_address in *. rewrite (sw_identity _ _ H) in Hq, Hp. by split_and!.
Qed.

(** The member a held frame waits for. *)
Definition awaited (n : Node) (now_ms : Z) (held : PendingFrame) : option bytes :=
  network ← NodeOps.find_network n (pf_network_id held);
  match destination network (pf_ethertype held) (pf_frame held) with
  | ToMember member =>
      match NodeTick.reachable n (nm_zt_address member) now_ms with Some _ => None | None => Some (nm_zt_address member) end
  | _ => None
  end.

Lemma awaited_ways n n' held now : same_ways n n' -> awaited n' now held = awaited n now held.
Proof.
  intros H. unfold awaited. pose proof (same_ways_find n n' (pf_network_id held) H) as Hf.
  destruct (NodeOps.find_network n (pf_network_id held)) as [net|]; [|by rewrite Hf]. destruct Hf as (p & l & ->). cbn.
  change (destination (NodeOps.with_request net p l)) with (destination net).
  destruct (destination net _ _) as [member| |]; [|done..]. by rewrite (reachable_ways _ _ _ _ H).
Qed.

(** One frame of the queue. *)
Lemma held_frame n held now : NodeInv.node_ok n -> is_ip (pf_ethertype held) ->
  exists n' actions, Vl2.process_outbound_frame n (pf_network_id held) (pf_ethertype held) (pf_frame held)
      (NodeOps.our_address n) now = Ok (n', actions) /\
    NodeInv.keeps n n' /\ same_ways n n' /\ Forall action_ok actions /\
    existsb Service.is_send actions = sendable n held now /\
    (sendable n held now = true -> frame_sent n now held actions) /\
    (sendable n held now = false -> flat_map Service.whois_targets actions = option_list (awaited n now held)).
Proof.
  intros Hn Hip. destruct (outbound_outcome n (pf_network_id held) (pf_ethertype held) (pf_frame held) now Hn Hip)
    as (n' & actions & -> & H). exists n', actions. split; [done|]. unfold sendable, frame_sent, way, awaited.
  destruct (NodeOps.find_network n (pf_network_id held)) as [net|] eqn:Ef.
  2: { destruct H as [-> ->]. split_and!; try done. by apply same_ways_networks. }
  apply find_Some in Ef as [Hin _]. destruct (outcome_keeps _ _ _ _ _ _ _ Hn Hin H) as (Hk & Hw & Ha).
  split_and!; [done..| | |]; unfold outcome in H; cbn;
    (destruct (destination net _ _) as [member| |]; [|by destruct H as [_ ->]..]);
    (destruct (NodeTick.reachable n _ _) as [[path ss]|]; [|by destruct H as [_ ->]]); cbn;
    destruct H as [_ H]; (destruct (Fragment.fits _ _); [|by subst]).
  - destruct H as (pid & q & frs & _ & _ & _ & Hne & ->). by destruct frs.
  - intros _. do 4 eexists. by split.
  - done.
Qed.

Definition stays (n : Node) (now_ms : Z) (held : PendingFrame) : bool := live held now_ms && negb (sendable n held now_ms).
Definition leaves (n : Node) (now_ms : Z) (held : PendingFrame) : bool := live held now_ms && sendable n held now_ms.

Lemma retry_each_spec now pending n : NodeInv.node_ok n -> Forall (fun held => is_ip (pf_ethertype held)) pending ->
  exists n' sends whois kept, Service.retry_each n pending now = Ok (n', sends, whois, kept) /\
    NodeInv.keeps n n' /\ same_ways n n' /\ Forall action_ok sends /\ Forall action_ok whois /\
    kept = filter (fun held => stays n now held = true) pending /\
    (exists parts, sends = concat parts /\
       Forall2 (frame_sent n now) (filter (fun held => leaves n now held = true) pending) parts) /\
    flat_map Service.whois_targets whois = omap (awaited n now) kept.
Proof.
  revert n. induction pending as [|held pending IH]; intros n Hn Hips.
  { exists n, [], [], []. split_and!; try done; [by apply same_ways_networks|by exists []]. }
  apply Forall_cons in Hips as [Hip Hips]. cbn [Service.retry_each].
  destruct (Service.PENDING_FRAME_TTL_MS <? sat_sub now (pf_queued_at_ms held)) eqn:El.
  { destruct (IH n Hn Hips) as (n' & sends & whois & kept & -> & Hrest). exists n', sends, whois, kept. split; [done|].
    rewrite !filter_cons_False; [exact Hrest|by unfold leaves, live; rewrite El|by unfold stays, live; rewrite El]. }
  destruct (held_frame n held now Hn Hip) as (n1 & actions & -> & H1 & Hw1 & Ha1 & Hsend & Hsent & Hwh). rewrite rbind_ok.
  destruct (IH n1 (proj1 H1) Hips) as (n2 & sends & whois & kept & -> & H2 & Hw2 & Ha2 & Hb2 & Hk & (parts & Hs & Hp) & Ht).
  rewrite rbind_ok, Hsend.
  assert (forall l : list PendingFrame, filter (fun held => stays n1 now held = true) l = filter (fun held => stays n now held = true) l) as Estay.
  { intros l. apply list_filter_iff. intros x. unfold stays. by rewrite (sendable_ways _ _ _ _ Hw1). }
  assert (forall l : list PendingFrame, filter (fun held => leaves n1 now held = true) l = filter (fun held => leaves n now held = true) l) as Eleave.
  { intros l. apply list_filter_iff. intros x. unfold leaves. by rewrite (sendable_ways _ _ _ _ Hw1). }
  rewrite Estay in Hk. rewrite Eleave in Hp.
  assert (omap (awaited n1 now) kept = omap (awaited n now) kept) as Eaw.
  { clear -Hw1. induction kept as [|x l IH]; [done|]. cbn. by rewrite IH, (awaited_ways _ _ _ _ Hw1). }
  pose proof (NodeInv.keeps_trans _ _ _ H1 H2) as H12. pose proof (same_ways_trans _ _ _ Hw1 Hw2) as Hw12.
  assert (Forall2 (frame_sent n now) (filter (fun held => leaves n now held = true) pending) parts) as Hp'.
  { eapply Forall2_impl; [exact Hp|]. intros x y. by apply frame_sent_ways. }
  assert (stays n now held = negb (sendable n held now) /\ leaves n now held = sendable n held now) as [E1 E2]
    by (unfold stays, leaves, live; by rewrite El).
  destruct (sendable n held now) eqn:Es;
    [rewrite (filter_cons_False (fun held => stays n now held = true)), filter_cons_True by (cbn in *; congruence)
    |rewrite (filter_cons_True (fun held => stays n now held = true)), filter_cons_False by (cbn in *; congruence)];
    do 4 eexists; (split; [done|]); split_and!; try done.
  - by apply Forall_app.
  - exists (actions :: parts). cbn. rewrite Hs. split; [done|]. constructor; [by apply Hsent|exact Hp'].
  - by rewrite Ht.
  - by apply Forall_app.
  - by rewrite Hk.
  - by exists parts.
  - cbn. rewrite flat_map_app, Ht, Eaw, (Hwh eq_refl). by destruct (awaited n now held).
Qed.

(** ** WHOIS requests *)

(** The first root that can be reached, where, and the secret shared with it. *)
Fixpoint whois_route (n : Node) (roots : list bytes) (now_ms : Z) : option (bytes * SocketAddr * bytes) :=
  match roots with
  | [] => None
  | root :: roots =>
      match p ← NodeOps.get_peer n root; PeerOps.best_path p now_ms, NodeOps.shared_secret_for_peer n root with
      | Some path, Some secret => Some (root, path_address path, secret)
      | _, _ => whois_route n roots now_ms
      end
  end.

(** [actions] ask that root for these addresses: 96 of them at most, or nothing is sent. *)
Definition asks (n : Node) (addresses : list bytes) (now_ms : Z) (actions : list NodeAction) : Prop :=
  match whois_route n (t_roots (nd_topology n)) now_ms with
  | Some (root, path, secret) =>
      if len addresses <=? 96 then
        exists q, actions = [SendTo q path] /\
          Root.sealed secret now_ms root (NodeOps.our_address n) 1 Whois (concat addresses) q /\
          WhoisP.deserialize_request (concat addresses) = Ok (WhoisP.mkReq addresses)
      else actions = []
  | None => actions = []
  end.

Lemma send_whois_spec n addresses now : NodeInv.node_ok n -> Forall (fun a => len a = 5) addresses ->
  exists actions, NodeOps.send_whois n addresses now = Ok actions /\ asks n addresses now actions /\ Forall action_ok actions.
Proof.
  intros Hn Ha. unfold NodeOps.send_whois, asks. induction (t_roots (nd_topology n)) as [|root roots IH]; [by exists []|].
  cbn [NodeOps.send_whois_to whois_route]. destruct (NodeOps.get_peer n root) as [p|] eqn:Ep; [|exact IH].
  cbn [mbind option_bind]. destruct (PeerOps.best_path p now) as [path|]; [|exact IH].
  destruct (NodeOps.shared_secret_for_peer n root) as [ss|] eqn:Es; [|exact IH].
  destruct (Root.build_whois_sealed (nd_identity n) root addresses ss now (replicate (Z.to_nat 512) (b8 0)))
    as [Hshort Hfit]; [by eapply NodeInv.shared_secret_len|by apply (NodeInv.ty_peers _ (NodeInv.nk_typed _ Hn) root p)|
    exact (NodeInv.our_address_len n Hn)|done|].
  change (Z.to_nat 512) with 512%nat in Hshort, Hfit. change (len (replicate 512 (b8 0))) with 512 in Hshort, Hfit.
  destruct (len addresses <=? 96) eqn:E.
  - destruct (Hfit ltac:(lia)) as (q & -> & Hq). cbn [attempt]. rewrite rbind_ok. pose proof (len_nonneg q).
    rewrite slice_here, rbind_ok by len_lia. eexists. split; [done|]. split; [|by repeat constructor].
    exists q. split_and!; [done|exact Hq|]. exact (@pc_roundtrip _ WhoisP.request_codec (WhoisP.mkReq addresses) Ha).
  - rewrite (Hshort ltac:(lia)). cbn [attempt]. rewrite rbind_ok. by exists [].
Qed.

(** The set of addresses asked for, whatever order the requests came in. *)
Definition asks_for (n : Node) (targets : list bytes) (now_ms : Z) (actions : list NodeAction) : Prop :=
  if bool_decide (targets = []) then actions = [] else
  exists addresses, NoDup addresses /\ (forall a, a ∈ addresses <-> a ∈ targets) /\ asks n addresses now_ms actions.

Lemma drain_whois_spec n sets now : NodeInv.node_ok n -> Forall (Forall action_ok) sets ->
  exists actions, Service.drain_whois_actions_from_sets n sets now = Ok actions /\
    asks_for n (flat_map Service.whois_targets (concat sets)) now actions /\ Forall action_ok actions.
Proof.
  intros Hn Hs. unfold Service.drain_whois_actions_from_sets, asks_for. set (targets := flat_map _ _). cbv zeta.
  assert (Forall (fun a => len a = 5) targets) as Ht.
  { apply Forall_forall. intros a Ha. apply list_elem_of_In, in_flat_map in Ha as (x & Hx%list_elem_of_In & Ha%list_elem_of_In).
    apply Forall_concat in Hs. pose proof (proj1 (Forall_forall _ _) Hs x Hx) as Hok.
    destruct x; cbn in Ha; try by apply elem_of_nil in Ha. by apply (proj1 (Forall_forall _ _) Hok). }
  set (l := Service.in_order _). assert (l ≡ₚ elements (list_to_set targets : gset bytes)) as Hl
    by apply merge_sort_Permutation.
  assert (forall a, a ∈ l <-> a ∈ targets) as Hmem by (intros a; rewrite Hl; set_solver).
  assert (NoDup l) as Hnd by (rewrite Hl; apply NoDup_elements).
  destruct l as [|a l'] eqn:El.
  - exists []. split; [done|]. split; [|done]. rewrite bool_decide_true; [done|].
    destruct targets as [|a ts]; [done|]. exfalso. apply (not_elem_of_nil a), Hmem. left.
  - destruct (send_whois_spec n (a :: l') now Hn) as (actions & -> & Hask & Hok).
    { apply Forall_forall. intros b Hb%Hmem. by apply (proj1 (Forall_forall _ _) Ht). }
    exists actions. split; [done|]. split; [|done]. rewrite bool_decide_false; [by exists (a :: l')|].
    intros ->. by apply (not_elem_of_nil a), Hmem; left.
Qed.

Lemma asks_for_ways n n' targets now actions : same_ways n n' -> asks_for n' targets now actions -> asks_for n targets now actions.
Proof.
  intros [Hi Ht _]. assert (forall a, NodeOps.shared_secret_for_peer n' a = NodeOps.shared_secret_for_peer n a) as Hs
    by (intros a; unfold NodeOps.shared_secret_for_peer, NodeOps.get_peer; by rewrite Hi, Ht).
  assert (forall l, whois_route n' l now = whois_route n l now) as Hr.
  { induction l as [|a l IH]; [done|]. cbn. unfold NodeOps.get_peer in *. by rewrite Ht, Hs, IH. }
  unfold asks_for, asks, NodeOps.our_address. by rewrite Ht, Hr, Hi.
Qed.

(** C4. Frames held for a peer that could not be reached: each pass over the queue sends those
    whose member now has a live session, in their order, each as one packet the member reads
    back; keeps, in their order, those that still cannot be sent and have waited at most five
    seconds; drops the others; and, when a second has passed since the last time, asks the
    first root that can be reached for exactly the members the kept frames wait for. Each frame
    is decided as if it were alone, whatever the frames before it changed in the node. *)
Theorem held_frames_spec (n : Node) (pending : list PendingFrame) (now_ms : Z) (send_whois : bool) :
  NodeInv.node_ok n -> Forall (fun held => is_ip (pf_ethertype held)) pending ->
  exists n' sends whois kept,
    Service.retry_pending_frames n pending now_ms send_whois = Ok (n', sends, whois, kept) /\
    NodeInv.node_ok n' /\ same_ways n n' /\
    kept = filter (fun held => stays n now_ms held = true) pending /\
    (exists parts, sends = concat parts /\
       Forall2 (frame_sent n now_ms) (filter (fun held => leaves n now_ms held = true) pending) parts) /\
    if send_whois then asks_for n (omap (awaited n now_ms) kept) now_ms whois else whois = [].
Proof.
  intros Hn Hips. unfold Service.retry_pending_frames.
  destruct (retry_each_spec now_ms pending n Hn Hips) as (n' & sends & needed & kept & -> & H1 & Hw & _ & Hnd & Hk & Hp & Ht).
  rewrite rbind_ok. destruct send_whois.
  - destruct (drain_whois_spec n' [needed] now_ms (proj1 H1) ltac:(by repeat constructor)) as (whois & Hrun & Ha & _).
    unfold Service.drain_whois_actions. rewrite Hrun, rbind_ok. exists n', sends, whois, kept. split_and!; try done; [by apply H1|].
    cbn in Ha. rewrite app_nil_r, Ht in Ha. by eapply asks_for_ways.
  - rewrite rbind_ok. exists n', sends, [], kept. split_and!; try done. by apply H1.
Qed.

End Outbound.

(** ** A network of one member with a session *)

Definition sample_member : NetworkMember :=
  mkMember NodeUpkeep.sample_root (Ethernet.derive_mac NodeUpkeep.sample_root NodeUpkeep.sample_nid)
    (Some (map b8 [10; 147; 17; 2], 24)) None true.
Definition sample_network : NetworkMembership :=
  with_directory (Network.new NodeUpkeep.sample_nid 1400) [sample_member] [].
Definition talking : Node := with_networks (NodeUpkeep.in_state NodeUpkeep.sample_session) [sample_network].
Definition silent : Node := with_networks (NodeUpkeep.in_state Unknown) [sample_network].

(** An IPv4 header to 10.147.17.[x]. *)
Definition sample_packet (x : Z) : bytes := map b8 [0x45; 0; 0; 20; 0; 0; 0; 0; 64; 1; 0; 0; 10; 147; 17; 1; 10; 147; 17; x].
Definition held_at (x t : Z) : PendingFrame := mkPendingFrame NodeUpkeep.sample_nid ETHERTYPE_IPV4 (sample_packet x) t.

Lemma in_network_ok st : PeerOps.backoff_ok st -> PeerOps.keys_ok (P := Toy.prims) st ->
  NodeInv.node_ok (P := Toy.prims) (with_networks (NodeUpkeep.in_state st) [sample_network]).
Proof.
  intros Hb Hk. apply (NodeInv.keeps_networks (P := Toy.prims)); [by apply NodeUpkeep.in_state_ok|].
  constructor; [|constructor]. split; [by split|]. by repeat constructor.
Qed.

Lemma talking_ok : NodeInv.node_ok (P := Toy.prims) talking.
Proof. apply in_network_ok; [done|by apply PeerOps.new_active_keys]. Qed.

(** Who has 10.147.17.2? *)
Definition sample_arp : bytes :=
  Arp.encode (mkArp 1 0x0800 (b8 6) (b8 4) ARP_OP_REQUEST (replicate 6 (b8 0xaa)) (map b8 [10; 147; 17; 1])
                (replicate 6 (b8 0)) (map b8 [10; 147; 17; 2])).

(** An IP packet for the member is sent; the ARP request for its address is answered. *)
Lemma outbound_frame_spec_witness :
  let run ethertype payload := Vl2.process_outbound_frame (P := Toy.prims) talking NodeUpkeep.sample_nid ethertype payload
      (NodeOps.our_address talking) 1000 in
  (exists n' actions, run ETHERTYPE_IPV4 (sample_packet 2) = Ok (n', actions) /\ existsb Service.is_send actions = true) /\
  (exists data reply, run ETHERTYPE_ARP sample_arp = Ok (talking, [LocalReply NodeUpkeep.sample_nid ETHERTYPE_ARP data]) /\
     Arp.parse data = Ok reply /\ arp_sender_hw reply = nm_mac sample_member) /\
  run ETHERTYPE_ARP (replicate 2026 (b8 0)) = Panic.
Proof.
  pose proof (fun ethertype payload => outbound_frame_spec (P := Toy.prims) (L := Toy.laws) talking NodeUpkeep.sample_nid ethertype payload 1000
    talking_ok) as Hall. unfold frame_outcome in Hall.
  replace (NodeOps.find_network talking NodeUpkeep.sample_nid) with (Some sample_network) in Hall by (vm_compute; reflexivity).
  cbv zeta. split_and!.
  - destruct (Hall ETHERTYPE_IPV4 (sample_packet 2)) as (n' & actions & Hrun & Ho). exists n', actions. split; [exact Hrun|].
    unfold outcome in Ho. replace (destination sample_network ETHERTYPE_IPV4 (sample_packet 2)) with (ToMember sample_member) in Ho
      by (vm_compute; reflexivity).
    destruct (NodeTick.reachable talking (nm_zt_address sample_member) 1000) as [[path ss]|] eqn:Er; [|vm_compute in Er; discriminate Er].
    replace (Fragment.fits (51 + len (sample_packet 2)) (nw_mtu sample_network)) with true in Ho by (vm_compute; reflexivity).
    destruct Ho as (_ & pid & q & frs & _ & _ & _ & Hne & ->). destruct frs; [by destruct (Hne eq_refl)|reflexivity].
  - pose proof (Hall ETHERTYPE_ARP sample_arp) as Ha. cbn [Z.eqb ETHERTYPE_ARP Pos.eqb] in Ha. unfold arp_outcome in Ha.
    destruct (arp_answer sample_network sample_arp) as [reply|] eqn:Er; [|vm_compute in Er; discriminate Er].
    destruct Ha as (data & Hrun & _ & Hp & _). exists data, reply. split; [exact Hrun|]. split; [exact Hp|].
    vm_compute in Er. injection Er as <-. vm_compute. reflexivity.
  - pose proof (Hall ETHERTYPE_ARP (replicate 2026 (b8 0))) as Ha. cbn [Z.eqb ETHERTYPE_ARP Pos.eqb] in Ha. unfold arp_outcome in Ha.
    destruct (arp_answer sample_network (replicate 2026 (b8 0))) as [reply|] eqn:Er; [vm_compute in Er; discriminate Er|].
    rewrite len_replicate in Ha. exact Ha.
Defined.

(** A frame that has waited six seconds, one for an unknown address, one for a member. *)
Lemma held_frames_spec_witness :
  exists n' sends whois, Service.retry_pending_frames (P := Toy.prims) talking [held_at 2 0; held_at 9 4000; held_at 2 5000] 6000 true =
    Ok (n', sends, whois, [held_at 9 4000]) /\ sends <> [] /\ whois = [].
Proof.
  destruct (held_frames_spec (P := Toy.prims) (L := Toy.laws) talking [held_at 2 0; held_at 9 4000; held_at 2 5000] 6000 true
    talking_ok ltac:(repeat (apply Forall_cons; split; [by left|]); apply Forall_nil; exact I)) as (n' & sends & whois & kept & Hrun & _ & _ & Hk & (parts & Hs & Hp) & Hw).
  replace (filter _ _) with [held_at 9 4000] in Hk by (vm_compute; reflexivity). subst kept.
  exists n', sends, whois. split; [exact Hrun|].
  replace (filter (fun held => leaves talking 6000 held = true) _) with [held_at 2 5000] in Hp by (vm_compute; reflexivity).
  replace (omap (awaited talking 6000) [held_at 9 4000]) with (@nil bytes) in Hw by (vm_compute; reflexivity). split; [|exact Hw].
  apply Forall2_cons_inv_l in Hp as (part & parts' & Hp & _ & ->). subst sends. cbn.
  destruct Hp as (net & member & path & ss & _ & pid & q & frs & _ & _ & _ & Hne & ->). destruct frs; [by destruct (Hne eq_refl)|discriminate].
Defined.
End Outbound.
