(* ===== verification/Delivery.v ===== *)
(** * Delivery: from a packet one node has sealed to what it causes in the node it is for:
    the receive path (zerotier-node: node.rs, [receive_packet]) on packets as the builders make
    them, plain or compressed. *)
From S2P Require Export Outbound.

Module Delivery.
Section Delivery.
Context {P : Prims} {L : PrimLaws P} {Z4 : Lz4} {ZL : Lz4Laws Z4}.

(** ** Packets as they arrive *)

(** The payload as it stands in the packet, and the verb byte in front of it. *)
Definition packed (compress : bool) (verb : Verb) (payload : bytes) : bytes :=
  b8 (Z.lor (u8 (VerbOps.to_byte verb)) (if compress then VERB_FLAG_COMPRESSED else 0)) ::
  (if compress then lz4_compress payload else payload).

(** [q] is a packet with these fields under the key [ss], compressed or not. *)
Definition carries (ss : bytes) (packet_id : Z) (dest source : bytes) (verb : Verb) (payload : bytes) (compress : bool)
    (q : bytes) : Prop :=
  exists mac c, len mac = 8 /\ 1 <= len c /\
    q = Armor.frame (Root.route_bytes packet_id dest source) (Root.suite_flags 1) mac c /\
    Armor.dearmor_packet ss q =
      Ok (Armor.frame (Root.route_bytes packet_id dest source) (Root.suite_flags 1) mac (packed compress verb payload)).

Lemma verb_byte verb : b8 (Z.lor (u8 (VerbOps.to_byte verb)) 0) = VerbOps.to_byte verb.
Proof. by destruct verb. Qed.

Lemma sealed_carries ss pid dest source verb payload q :
  Root.sealed ss pid dest source 1 verb payload q -> carries ss pid dest source verb payload false q.
Proof.
  intros (mac & c & Hm & Hc & -> & Hd). exists mac, c. pose proof (len_nonneg payload). split_and!; [done|lia|done|].
  unfold packed. by rewrite verb_byte.
Qed.

(** An address that no datagram mistakes for a fragment's mark. *)
Definition plain_address (a : bytes) : Prop := len a = 5 /\ u8 (byte_at a 0) <> FRAGMENT_INDICATOR.

(** The fields of a packet. *)
Lemma packet_fields pid dest source f mac c : len dest = 5 -> plain_address source -> len mac = 8 -> 1 <= len c ->
  let q := Armor.frame (Root.route_bytes pid dest source) f mac c in
  28 <= len q /\ Header.is_fragment q = false /\
  exists h, Header.from_bytes q = Some h /\ ph_dest h = dest /\ Header.source_address h = source /\
    Header.packet_id h = wrap 64 pid /\ ph_flags h = f.
Proof.
  intros Hd [Hs Hff] Hm Hc q. assert (len q = 27 + len c) as Hl by (unfold q, Armor.frame, Root.route_bytes; len_lia).
  assert (length (to_be 8 pid) = 8%nat) as H8 by apply length_to_be.
  assert (length dest = 5%nat /\ length source = 5%nat) as [Hd5 Hs5] by (unfold len in *; lia).
  assert (byte_at q 13 = byte_at source 0) as H13.
  { unfold q, Armor.frame, Root.route_bytes. rewrite <- !app_assoc. rewrite (Header.byte_at_app_skip (to_be 8 pid)) by lia.
    rewrite Header.byte_at_app_skip by lia. rewrite H8, Hd5. unfold byte_at. by rewrite lookup_app_l by lia. }
  split; [lia|]. split; [unfold Header.is_fragment; rewrite H13; lia|].
  unfold Header.from_bytes. rewrite if_true by lia. eexists. split; [done|].
  unfold Header.source_address, Header.packet_id. cbn [ph_dest ph_source ph_iv ph_flags].
  unfold q, Armor.frame, Root.route_bytes. rewrite <- !app_assoc. split_and!.
  - rewrite drop_app_length' by lia. by rewrite take_app_length' by lia.
  - rewrite (app_assoc (to_be 8 pid)). rewrite drop_app_length' by (rewrite length_app; lia). by rewrite take_app_length' by lia.
  - rewrite take_app_length' by lia. apply from_be_to_be.
  - rewrite (app_assoc (to_be 8 pid)), (app_assoc _ source). rewrite Header.byte_at_app_skip by (rewrite !length_app; lia).
    rewrite !length_app, H8, Hd5, Hs5. done.
Qed.

(** The packet a handler is given. *)
Definition opened (pid : Z) (dest source mac : bytes) (verb : Verb) (payload : bytes) : bytes :=
  Armor.frame (Root.route_bytes pid dest source) (Root.suite_flags 1) mac (VerbOps.to_byte verb :: payload).

Lemma frame_split h f m (b : byte) l : len h = 18 -> len m = 8 ->
  let q := Armor.frame h f m (b :: l) in
  drop 28 q = l /\ q !! 27%nat = Some b /\ take 28 q = h ++ [f] ++ m ++ [b] /\
  forall x k, <[27%nat := x]> (take 28 q) ++ k = Armor.frame h f m (x :: k).
Proof.
  intros Hh Hm q. assert (length h = 18%nat /\ length m = 8%nat) as [Hh' Hm'] by (unfold len in *; lia).
  assert (q = (h ++ [f] ++ m) ++ b :: l) as Hq by (unfold q, Armor.frame; by rewrite <- !app_assoc).
  assert (length (h ++ [f] ++ m) = 27%nat) as H27 by (rewrite !length_app; cbn; lia).
  assert (q = (h ++ [f] ++ m ++ [b]) ++ l) as Hq' by (rewrite Hq, <- !app_assoc; done).
  assert (length (h ++ [f] ++ m ++ [b]) = 28%nat) as H28 by (rewrite !length_app; cbn; lia).
  split_and!.
  - rewrite Hq'. by rewrite drop_app_length' by lia.
  - rewrite Hq. rewrite lookup_app_r, H27, Nat.sub_diag by lia. done.
  - rewrite Hq'. by rewrite take_app_length' by lia.
  - intros x k. rewrite Hq', take_app_length' by lia. replace (h ++ [f] ++ m ++ [b]) with ((h ++ [f] ++ m) ++ [b]) by (by rewrite <- !app_assoc).
    rewrite insert_app_r_alt, H27, Nat.sub_diag by lia. unfold Armor.frame. by rewrite <- !app_assoc.
Qed.

Lemma opened_fields pid dest source mac verb payload : len dest = 5 -> len source = 5 -> len mac = 8 ->
  len (opened pid dest source mac verb payload) = 28 + len payload /\ drop 28 (opened pid dest source mac verb payload) = payload.
Proof.
  intros Hd Hs Hm. split; [unfold opened, Armor.frame, Root.route_bytes; len_lia|].
  by apply (frame_split (Root.route_bytes pid dest source)); [apply Root.len_route|].
Qed.

Lemma verb_bits compress verb : let b := b8 (Z.lor (u8 (VerbOps.to_byte verb)) (if compress : bool then VERB_FLAG_COMPRESSED else 0)) in
  negb (Z.land (u8 b) VERB_FLAG_COMPRESSED =? 0) = compress /\
  b8 (Z.land (u8 b) 0x7f) = VerbOps.to_byte verb /\
  VerbOps.from_byte (b8 (Z.land (u8 (VerbOps.to_byte verb)) 0x1f)) = Some verb.
Proof. by destruct compress, verb. Qed.

Lemma verb_payload_of packet payload : drop 28 packet = payload -> len packet = 28 + len payload ->
  (if ZT_PACKET_IDX_PAYLOAD <? len packet then slice_from packet ZT_PACKET_IDX_PAYLOAD else Ok []) = @Ok Empty_set _ payload.
Proof.
  intros <- Hl. change ZT_PACKET_IDX_PAYLOAD with 28. pose proof (len_nonneg (drop 28 packet)).
  destruct (28 <? len packet) eqn:E; [by rewrite slice_from_ok by lia|]. f_equal. symmetry.
  apply length_zero_iff_nil. unfold len in *. lia.
Qed.

(** What becomes of a body once decrypted. *)
Lemma handle_carried rec n pid packet_id dest source mac verb payload compress data from now vid :
  len dest = 5 -> len source = 5 -> len mac = 8 ->
  (compress = true -> len payload <= NodeVerbs.ZT_PACKET_DECOMPRESS_CAPACITY - 28) ->
  NodeReceive.handle_packet rec n data source
    (Some (Armor.frame (Root.route_bytes pid dest source) (Root.suite_flags 1) mac (packed compress verb payload))) from now packet_id vid =
  NodeReceive.dispatch (NodeReceive.replay_pending_encrypted_packets_for rec) (NodeReceive.touch_peer n source from now) source
    (opened pid dest source mac verb payload) payload from now packet_id (Some verb).
Proof.
  intros Hd Hs Hm Hcap. unfold NodeReceive.handle_packet. cbv zeta. cbn [default from_option id].
  set (d := Armor.frame _ _ _ (packed compress verb payload)).
  pose proof (Root.len_route pid dest source Hd Hs) as Hr.
  destruct (frame_split (Root.route_bytes pid dest source) (Root.suite_flags 1) mac
    (b8 (Z.lor (u8 (VerbOps.to_byte verb)) (if compress then VERB_FLAG_COMPRESSED else 0)))
    (if compress then lz4_compress payload else payload) Hr Hm) as (Hdrop & H27 & Htake & Hins).
  fold (packed compress verb payload) in Hdrop, H27, Htake, Hins. fold d in Hdrop, H27, Htake, Hins.
  destruct (verb_bits compress verb) as (Hc & Hb & Hv). set (vb := b8 (Z.lor _ _)) in *.
  destruct (opened_fields pid dest source mac verb payload Hd Hs Hm) as [Hlo Hdo].
  assert (28 <= len d) as Hl.
  { unfold d. rewrite Armor.len_frame. unfold packed. rewrite len_cons.
    pose proof (len_nonneg (if compress then lz4_compress payload else payload)). lia. }
  rewrite (get_lookup d ZT_PACKET_IDX_VERB vb), rbind_ok by done. rewrite Hc.
  destruct (opened pid dest source mac verb payload !! 27%nat) as [ob|] eqn:Eo;
    [|apply lookup_ge_None in Eo; pose proof (len_nonneg payload); unfold len in *; lia].
  assert (ob = VerbOps.to_byte verb) as ->.
  { destruct (frame_split (Root.route_bytes pid dest source) (Root.suite_flags 1) mac (VerbOps.to_byte verb) payload Hr Hm) as (_ & H & _ & _).
    unfold opened in Eo. congruence. }
  assert (forall packet, packet = opened pid dest source mac verb payload ->
    (let* verb_id := let* b := get packet ZT_PACKET_IDX_VERB in Ok (Z.land (u8 b) 0x1f) in
     let n := NodeReceive.touch_peer n source from now in
     let* verb_payload := if ZT_PACKET_IDX_PAYLOAD <? len packet then slice_from packet ZT_PACKET_IDX_PAYLOAD else Ok [] in
     NodeReceive.dispatch (NodeReceive.replay_pending_encrypted_packets_for rec) n source packet verb_payload from now packet_id
       (VerbOps.from_byte (b8 verb_id))) =
    NodeReceive.dispatch (NodeReceive.replay_pending_encrypted_packets_for rec) (NodeReceive.touch_peer n source from now) source
      (opened pid dest source mac verb payload) payload from now packet_id (Some verb)) as Hrest.
  { intros packet ->. rewrite (get_lookup _ ZT_PACKET_IDX_VERB _ ltac:(done) Eo), !rbind_ok. cbv zeta.
    by rewrite (verb_payload_of _ payload Hdo Hlo), rbind_ok, Hv. }
  destruct compress.
  - unfold NodeVerbs.decompress_packet. change ZT_PACKET_IDX_PAYLOAD with 28 at 1 2 3 4. rewrite if_false by lia.
    rewrite slice_from_ok, rbind_ok by lia. change (Z.to_nat 28) with 28%nat. rewrite Hdrop, lz4_roundtrip by (by apply Hcap).
    rewrite slice_ok, rbind_ok by lia. change (Z.to_nat (28 - 0)) with 28%nat. change (Z.to_nat 0) with 0%nat. rewrite drop_0.
    assert (take 28 d !! 27%nat = Some vb) as Hg by (by rewrite lookup_take_lt by lia).
    rewrite (get_lookup _ ZT_PACKET_IDX_VERB vb ltac:(done) Hg), !rbind_ok. apply Hrest. change (Z.to_nat ZT_PACKET_IDX_VERB) with 27%nat.
    by rewrite Hb.
  - rewrite rbind_ok. apply Hrest. unfold d, opened. f_equal. unfold packed. by rewrite verb_byte.
Qed.

(** A packet for this node from a sender it shares a secret with goes to the handler of its verb,
    with the payload it was built from. *)
Lemma receive_carried fuel n pid source verb payload compress q ss from now :
  len (NodeOps.our_address n) = 5 -> plain_address source ->
  NodeOps.shared_secret_for_peer n source = Some ss ->
  carries ss pid (NodeOps.our_address n) source verb payload compress q ->
  (compress = true -> len payload <= NodeVerbs.ZT_PACKET_DECOMPRESS_CAPACITY - 28) ->
  exists mac, len mac = 8 /\
    NodeReceive.receive_packet (S fuel) n q from now =
      (let* n' := NodeReceive.dispatch
                    (NodeReceive.replay_pending_encrypted_packets_for (NodeReceive.receive_packet fuel))
                    (NodeReceive.touch_peer (with_actions n []) source from now) source
                    (opened pid (NodeOps.our_address n) source mac verb payload) payload from now (wrap 64 pid) (Some verb) in
       NodeReceive.take_actions n').
Proof.
  intros Ho Hs Hss (mac & c & Hm & Hc & -> & Hd) Hcap. exists mac. split; [done|]. cbn [NodeReceive.receive_packet].
  unfold NodeReceive.receive_body. cbv zeta. set (n0 := with_actions n []).
  change (NodeOps.our_address n0) with (NodeOps.our_address n).
  destruct (packet_fields pid (NodeOps.our_address n) source (Root.suite_flags 1) mac c Ho Hs Hm Hc)
    as (Hl & Hfrag & h & Hh & Hdest & Hsrc & Hid & Hf).
  set (q := Armor.frame _ _ mac c) in *. rewrite Hfrag. change ZT_PROTO_MIN_PACKET_LENGTH with 28. rewrite if_false by lia.
  rewrite Hh, Hdest, Hsrc, Hid. rewrite bool_decide_true by done. cbn [negb].
  assert (Header.cipher_suite h = 1) as -> by (unfold Header.cipher_suite; by rewrite Hf).
  unfold NodeVerbs.dearmor. change (1 =? CIPHER_SUITE_C25519_POLY1305_NONE) with false.
  change (1 =? CIPHER_SUITE_C25519_POLY1305_SALSA2012) with true. cbn match.
  change (NodeOps.shared_secret_for_peer n0 source) with (NodeOps.shared_secret_for_peer n source). rewrite Hss, Hd.
  cbn [attempt]. rewrite rbind_ok. cbn [is_some negb andb].
  rewrite handle_carried; [done|done|apply Hs|done|done].
Qed.

End Delivery.
End Delivery.
