(* ===== verification/Answers.v ===== *)
(** * Answers: the controller's answer on its way: from the dictionary the engine has made
    (zerotier-service: service.rs, [build_network_config_response_packets] and what sends the
    credentials) to the member that asked. *)
From S2P Require Export Delivery.

Module Answers.
Section Answers.
Context {P : Prims} {L : PrimLaws P} {Z4 : Lz4} {ZL : Lz4Laws Z4}.

(** ** Packets of the service *)

Lemma filled_emits (m : W Z) enc n : emits m 0 enc (len enc) -> 0 <= n ->
  Service.filled m n = if len enc <=? n then Ok enc else Panic.
Proof.
  intros Hm Hn. unfold Service.filled. rewrite (emits_run _ _ _ _ Hm), len_replicate, Z2Nat.id by lia.
  destruct (len enc <=? n); [|done]. by rewrite slice_here.
Qed.

Lemma service_packet pid source dest verb payload ss compress : 32 <= len ss -> len dest = 5 -> len source = 5 ->
  exists q, Service.build_encrypted_verb_packet pid source dest verb payload ss compress = Ok (Some q) /\
    Delivery.carries ss pid dest source verb payload compress q.
Proof.
  intros Hss Hd Hs. unfold Service.build_encrypted_verb_packet. cbv zeta.
  set (body := if compress then lz4_compress payload else payload). pose proof (len_nonneg body).
  set (f := b8 (Z.shiftl CIPHER_SUITE_C25519_POLY1305_SALSA2012 3)). set (vb := b8 (Z.lor _ _)).
  rewrite (filled_emits _ (Armor.frame (Root.route_bytes pid dest source) f Root.no_mac (vb :: body))).
  2: { unfold Armor.frame, Root.route_bytes, Root.no_mac. rewrite <- !app_assoc. change (vb :: body) with ([vb] ++ body).
       eapply emits_conv; [repeat emits_step; rewrite ?len_replicate; len_lia|by rewrite !app_nil_r|].
       rewrite !len_app, len_to_be, len_replicate, Hd, Hs. len_lia. }
  2: lia.
  assert (len (Armor.frame (Root.route_bytes pid dest source) f Root.no_mac (vb :: body)) = 28 + len body) as Hl.
  { rewrite Armor.len_frame, Root.len_route by done. change (len Root.no_mac) with 8. len_lia. }
  rewrite Hl, (if_true (_ <=? _)), rbind_ok by lia.
  destruct (Root.armor_body ss (Root.route_bytes pid dest source) f (vb :: body)) as (mac & c & Hm & Hc & Ha & Hde);
    [done|by apply Root.len_route|len_lia|]. change (Armor.suite_of f =? 1) with true in Ha. rewrite Ha. cbn [attempt].
  eexists. split; [done|]. exists mac, c. rewrite len_cons in Hc. split_and!; [done|lia|done|exact Hde].
Qed.

(** ** The pieces of a configuration *)

(** One piece of the dictionary, as it is signed and sent. *)
Definition config_chunk (secret : SecretKey) (nid uid total off : Z) (chunk : bytes) : NetConfP.t :=
  NetConfP.mk nid chunk (Some (b8 0)) (Some uid) (Some total) (Some off) (Some (b8 1))
    (Some (sign (sk_signing secret) (Service.signed_data nid chunk uid total off))).

Definition config_ok (rpid : Z) (nc : NetConfP.t) : OkP.t :=
  OkP.mk NetworkConfigRequest rpid (OkP.SubGeneric (NetConfP.encode nc)).

(** [q] carries [nc] in answer to the request [rpid], for [dest]. *)
Definition answers (ss dest source : bytes) (rpid : Z) (nc : NetConfP.t) (q : bytes) : Prop :=
  exists pid, Delivery.carries ss pid dest source VOk (OkP.encode (config_ok rpid nc)) true q.

Lemma signed_data_len nid chunk uid total off : len (Service.signed_data nid chunk uid total off) = 27 + len chunk.
Proof. unfold Service.signed_data. len_lia. Qed.

Lemma config_chunk_len secret nid uid total off chunk : len (sk_signing secret) = 32 ->
  len (NetConfP.encode (config_chunk secret nid uid total off chunk)) = 126 + len chunk.
Proof.
  intros Hk. unfold NetConfP.encode, NetConfP.encode_chunk, config_chunk.
  cbn [NetConfP.network_id NetConfP.dict_data NetConfP.flags NetConfP.config_update_id NetConfP.total_length NetConfP.chunk_index
    NetConfP.signature_type NetConfP.signature].
  rewrite !len_app, !len_to_be, len_sign by done. len_lia.
Qed.

Lemma response_packet_spec n dest rpid nid uid total chunk off ss secret : NodeInv.node_ok n -> len dest = 5 -> 32 <= len ss ->
  id_secret (nd_identity n) = Some secret -> len (sk_signing secret) = 32 -> u64_ok rpid ->
  exists q, Service.response_packet n dest rpid nid uid total chunk off ss = Ok ((NodeOps.allocate_packet_id n).2, Some q) /\
    answers ss dest (NodeOps.our_address n) rpid (config_chunk secret nid uid total off chunk) q.
Proof.
  intros Hn Hd Hss Hsec Hk Hr. unfold Service.response_packet. cbv zeta. rewrite Hsec.
  fold (config_chunk secret nid uid total off chunk). set (nc := config_chunk _ _ _ _ _ _). pose proof (len_nonneg chunk).
  pose proof (config_chunk_len secret nid uid total off chunk Hk) as Hl. fold nc in Hl.
  rewrite (filled_emits _ _ _ (NetConfP.netconf_serialize_emits nc)) by (rewrite signed_data_len; lia).
  rewrite signed_data_len, if_true, rbind_ok by lia.
  change (OkP.mk NetworkConfigRequest rpid (OkP.SubGeneric (NetConfP.encode nc))) with (config_ok rpid nc).
  rewrite (Vl2.serialized_emits _ (OkP.encode (config_ok rpid nc))), rbind_ok.
  2: by apply OkP.okmsg_serialize_emits.
  2: unfold OkP.encode, config_ok; cbn [OkP.in_re_verb OkP.in_re_packet_id OkP.sub_payload OkP.encode_sub]; len_lia.
  cbn [NodeOps.allocate_packet_id]. set (n1 := with_next_packet_id n _).
  destruct (service_packet (nd_next_packet_id n) (NodeOps.our_address n) dest VOk (OkP.encode (config_ok rpid nc)) ss true)
    as (q & Hq & Hc); [done|done|exact (NodeInv.our_address_len n Hn)|].
  change (NodeOps.our_address n1) with (NodeOps.our_address n). rewrite Hq, rbind_ok. exists q. split; [done|]. by eexists.
Qed.

(** The pieces of a dictionary from the [index]-th on. *)
Fixpoint config_chunks (secret : SecretKey) (nid uid total index : Z) (l : list bytes) : list NetConfP.t :=
  match l with
  | [] => []
  | chunk :: l =>
      config_chunk secret nid uid total (index * Service.NETWORK_CONFIG_CHUNK_BYTES) chunk ::
      config_chunks secret nid uid total (index + 1) l
  end.

Definition config_pieces (secret : SecretKey) (nid uid : Z) (dict : bytes) : list NetConfP.t :=
  config_chunks secret nid uid (len dict) 0 (chunks (Z.to_nat Service.NETWORK_CONFIG_CHUNK_BYTES) dict).

Lemma response_packets_spec dest rpid nid uid total ss secret l : len dest = 5 -> 32 <= len ss ->
  len (sk_signing secret) = 32 -> u64_ok rpid ->
  forall n index, NodeInv.node_ok n -> id_secret (nd_identity n) = Some secret ->
  (forall k, (k < length l)%nat -> (index + Z.of_nat k) * 1024 <= U32_MAX) ->
  exists n' packets, Service.response_packets n dest rpid nid uid total ss index l = Ok (n', Some packets) /\
    NodeInv.keeps n n' /\ Outbound.same_ways n n' /\ nd_actions n' = nd_actions n /\
    Forall2 (answers ss dest (NodeOps.our_address n) rpid) (config_chunks secret nid uid total index l) packets.
Proof.
  intros Hd Hss Hk Hr. induction l as [|chunk l IH]; intros n index Hn Hsec Hidx; cbn [Service.response_packets config_chunks].
  { exists n, []. split_and!; try done. by apply Outbound.same_ways_networks. }
  cbv zeta. pose proof (Hidx 0%nat ltac:(cbn; lia)). unfold Service.NETWORK_CONFIG_CHUNK_BYTES. rewrite if_false by lia.
  destruct (response_packet_spec n dest rpid nid uid total chunk (index * 1024) ss secret) as (q & -> & Hq); [done..|].
  rewrite rbind_ok. set (n1 := (NodeOps.allocate_packet_id n).2).
  assert (NodeInv.keeps n n1) as H1 by (apply NodeInv.keeps_packet_id; exact Hn).
  destruct (IH n1 (index + 1)) as (n2 & packets & -> & H2 & Hw & Ha & Hp); [apply H1|done| |].
  { intros k Hl. specialize (Hidx (S k) ltac:(cbn; lia)). lia. }
  rewrite rbind_ok. exists n2, (q :: packets). split; [done|]. split; [exact (NodeInv.keeps_trans _ _ _ H1 H2)|].
  split; [eapply Outbound.same_ways_trans; [|exact Hw]; by apply Outbound.same_ways_networks|]. split; [by rewrite Ha|].
  constructor; [exact Hq|exact Hp].
Qed.

Lemma chunks_length {A} (k : nat) (l : list A) i : (0 < k)%nat -> (i < length (chunks k l))%nat -> (i * k < length l)%nat.
Proof.
  intros Hk. revert i. induction l as [|l Hne IH] using (chunks_ind k Hk); intros i Hi; [cbn in Hi; lia|].
  rewrite chunks_cons in Hi by done. destruct i as [|i].
  - destruct l; [done|cbn; lia].
  - cbn in Hi. specialize (IH i ltac:(lia)). rewrite length_drop in IH. lia.
Qed.

Lemma build_packets_spec n dest rpid nid dict ss secret : NodeInv.node_ok n -> len dest = 5 -> 32 <= len ss ->
  id_secret (nd_identity n) = Some secret -> len (sk_signing secret) = 32 -> u64_ok rpid -> len dict <= U32_MAX ->
  exists n' packets, Service.build_network_config_response_packets n dest rpid nid dict ss = Ok (n', Some packets) /\
    NodeInv.keeps n n' /\ Outbound.same_ways n n' /\ nd_actions n' = nd_actions n /\
    Forall2 (answers ss dest (NodeOps.our_address n) rpid) (config_pieces secret nid (nd_next_packet_id n) dict) packets.
Proof.
  intros Hn Hd Hss Hsec Hk Hr Hdict. unfold Service.build_network_config_response_packets. rewrite if_false by lia. cbv zeta.
  cbn [NodeOps.allocate_packet_id]. set (n1 := with_next_packet_id n _).
  assert (NodeInv.keeps n n1) as H1 by (apply NodeInv.keeps_packet_id; exact Hn).
  destruct (response_packets_spec dest rpid nid (nd_next_packet_id n) (len dict) ss secret
    (chunks (Z.to_nat Service.NETWORK_CONFIG_CHUNK_BYTES) dict) Hd Hss Hk Hr n1 0 (proj1 H1) Hsec)
    as (n2 & packets & -> & H2 & Hw & Ha & Hp).
  { intros k Hl. pose proof (chunks_length 1024 dict k ltac:(lia) Hl). unfold len in Hdict. lia. }
  exists n2, packets. split; [done|]. split; [exact (NodeInv.keeps_trans _ _ _ H1 H2)|].
  split; [eapply Outbound.same_ways_trans; [|exact Hw]; by apply Outbound.same_ways_networks|]. by split; [rewrite Ha|].
Qed.

(** ** The answer to a request *)

Lemma same_secret n n' a : nd_identity n' = nd_identity n -> nd_topology n' = nd_topology n ->
  NodeOps.shared_secret_for_peer n' a = NodeOps.shared_secret_for_peer n a.
Proof. intros Hi Ht. unfold NodeOps.shared_secret_for_peer, NodeOps.get_peer. by rewrite Hi, Ht. Qed.

Lemma push_all_spec packets to n : NodeInv.node_ok n ->
  NodeInv.keeps n (Service.push_all n packets to) /\ nd_topology (Service.push_all n packets to) = nd_topology n /\
  nd_actions (Service.push_all n packets to) = nd_actions n ++ map (fun p => SendTo p to) packets.
Proof.
  revert n. induction packets as [|p packets IH]; intros n Hn.
  { split; [by apply NodeInv.keeps_refl|]. split; [done|]. cbn. by rewrite app_nil_r. }
  unfold Service.push_all. cbn [fold_left]. pose proof (NodeInv.keeps_push n (SendTo p to) Hn I) as H1.
  destruct (IH _ (proj1 H1)) as (H2 & Ht & Ha). split; [exact (NodeInv.keeps_trans _ _ _ H1 H2)|]. split; [exact Ht|].
  etransitivity; [exact Ha|]. cbn. by rewrite <- app_assoc.
Qed.

(** The credentials go out if they fit their buffer of 512 bytes; otherwise writing them panics. *)
Lemma send_credentials_spec n dest creds ss from : NodeInv.node_ok n -> len dest = 5 -> 32 <= len ss ->
  CredP.com_opt Com.shape creds ->
  if len (CredP.encode creds) <=? 512
  then exists q pid, Service.send_credentials n dest creds ss from =
         Ok (NodeOps.push_action (NodeOps.allocate_packet_id n).2 (SendTo q from)) /\
       Delivery.carries ss pid dest (NodeOps.our_address n) NetworkCredentials (CredP.encode creds) false q
  else Service.send_credentials n dest creds ss from = Panic.
Proof.
  intros Hn Hd Hss Hc. unfold Service.send_credentials.
  rewrite (filled_emits _ _ 512 (CredP.cred_serialize_emits creds Hc)) by done.
  destruct (len (CredP.encode creds) <=? 512); [|done]. rewrite rbind_ok. cbn [NodeOps.allocate_packet_id snd].
  set (n1 := with_next_packet_id n _). change (NodeOps.our_address n1) with (NodeOps.our_address n).
  destruct (service_packet (nd_next_packet_id n) (NodeOps.our_address n) dest NetworkCredentials (CredP.encode creds) ss false)
    as (q & Hq & Hcar); [done|done|exact (NodeInv.our_address_len n Hn)|]. rewrite Hq, rbind_ok. by eexists _, _.
Qed.

(** The dictionary is there and small enough to be sent. *)
Definition sent_dict (response : ConfigResponse) : Prop :=
  0 < len (NetConfP.dict_data (cr_config response)) <= U32_MAX.

Definition answered (n : Node) (secret : SecretKey) (ss dest : bytes) (nid rpid : Z) (from : SocketAddr)
    (response : ConfigResponse) (n' : Node) : Prop :=
  NodeInv.keeps n n' /\ nd_topology n' = nd_topology n /\
  exists packets credentials pid,
    Forall2 (answers ss dest (NodeOps.our_address n) rpid)
      (config_pieces secret nid (nd_next_packet_id n) (NetConfP.dict_data (cr_config response))) packets /\
    Delivery.carries ss pid dest (NodeOps.our_address n) NetworkCredentials (CredP.encode (cr_credentials response)) false credentials /\
    nd_actions n' = nd_actions n ++ map (fun p => SendTo p from) (packets ++ [credentials]).

Lemma respond_spec n dest nid from rpid response secret : NodeInv.node_ok n -> len dest = 5 -> u64_ok rpid ->
  id_secret (nd_identity n) = Some secret -> len (sk_signing secret) = 32 ->
  CredP.com_opt Com.shape (cr_credentials response) -> sent_dict response ->
  match NodeOps.shared_secret_for_peer n dest with
  | None => safe (Service.respond n dest nid from rpid response) (NodeInv.keeps n)
  | Some ss =>
      if len (CredP.encode (cr_credentials response)) <=? 512
      then exists n', Service.respond n dest nid from rpid response = Ok n' /\ answered n secret ss dest nid rpid from response n'
      else Service.respond n dest nid from rpid response = Panic
  end.
Proof.
  intros Hn Hd Hr Hsec Hk Hc [Hd0 Hdict]. unfold Service.respond. cbv zeta.
  set (n0 := match CredP.com (cr_credentials response) with Some com => _ | None => n end).
  assert (NodeInv.keeps n n0 /\ nd_topology n0 = nd_topology n /\ nd_actions n0 = nd_actions n /\
    nd_next_packet_id n0 = nd_next_packet_id n) as (H0 & Ht0 & Ha0 & Hp0).
  { unfold n0. destruct (CredP.com (cr_credentials response)); [|by split_and!; [apply NodeInv.keeps_refl|..]].
    split_and!; try done. by apply NodeInv.keeps_update_network. }
  rewrite (same_secret n n0 dest (proj1 (proj2 H0)) Ht0). destruct (NodeOps.shared_secret_for_peer n dest) as [ss|] eqn:Es; [|exact H0].
  assert (len ss = 48) as Hss by by eapply NodeInv.shared_secret_len.
  destruct (build_packets_spec n0 dest rpid nid (NetConfP.dict_data (cr_config response)) ss secret)
    as (n1 & packets & Hb & H1 & Hw1 & Ha1 & Hp); [apply H0|done|lia|by rewrite (proj1 (proj2 H0))|done..|].
  rewrite Hb, rbind_ok. destruct packets as [|p ps].
  { exfalso. unfold config_pieces in Hp. rewrite chunks_cons in Hp; [by inversion Hp|unfold Service.NETWORK_CONFIG_CHUNK_BYTES; lia|].
    intros Hn0. by rewrite Hn0 in Hd0. }
  cbv beta iota. set (packets := p :: ps) in *.
  destruct (push_all_spec packets from n1 (proj1 H1)) as (H2 & Ht2 & Ha2). set (n2 := Service.push_all n1 packets from) in *.
  pose proof (send_credentials_spec n2 dest (cr_credentials response) ss from (proj1 H2) Hd ltac:(lia) Hc) as Hcr.
  destruct (len (CredP.encode (cr_credentials response)) <=? 512); [|exact Hcr]. destruct Hcr as (q & pid & -> & Hq).
  eexists. split; [done|]. unfold NodeOps.our_address in *. destruct H0 as (H0 & Hi0 & Hr0), H1 as (H1 & Hi1 & Hr1), H2 as (H2 & Hi2 & Hr2).
  rewrite Hi2, Hi1, Hi0 in Hq. rewrite Hi0, Hp0 in Hp. split; [|split].
  - set (n3 := (NodeOps.allocate_packet_id n2).2). assert (NodeInv.keeps n2 n3) as H3 by (by apply NodeInv.keeps_packet_id).
    eapply NodeInv.keeps_trans; [|apply NodeInv.keeps_push; [apply H3|done]].
    eapply NodeInv.keeps_trans; [|exact H3]. split; [done|]. destruct_and!. split_and!; congruence.
  - transitivity (nd_topology n2); [done|]. rewrite Ht2, (Outbound.sw_topology _ _ Hw1). exact Ht0.
  - exists packets, q, pid. split_and!; [exact Hp|exact Hq|].
    transitivity (nd_actions n2 ++ [SendTo q from]); [done|]. by rewrite Ha2, Ha1, Ha0, map_app, app_assoc.
Qed.

End Answers.
End Answers.
