(* ===== verification/Delivered.v ===== *)
(** * Delivered: a configuration on the wire, from the packets the service sends to the
    membership of the member that asked, whatever order they arrive in. *)
From S2P Require Export Answers.

Module Delivered.
Section Delivered.
Context {P : Prims} {L : PrimLaws P} {Z4 : Lz4} {ZL : Lz4Laws Z4}.

(** ** The pieces by their position *)

Lemma chunks_lookup {A} (k : nat) (l : list A) j : (0 < k)%nat ->
  chunks k l !! j = if decide (j * k < length l)%nat then Some (take k (drop (j * k) l)) else None.
Proof.
  intros Hk. revert j. induction l as [|l Hne IH] using (chunks_ind k Hk); intros j; [done|].
  rewrite chunks_cons by done. destruct j as [|j].
  - rewrite decide_True by (destruct l; [done|cbn; lia]). by rewrite drop_0.
  - cbn [lookup list_lookup]. change (chunks k (drop k l) !! j = ?x) with (chunks k (drop k l) !! j = x). rewrite IH, length_drop, drop_drop.
    replace (k + j * k)%nat with (S j * k)%nat by lia.
    destruct (decide (j * k < length l - k)%nat), (decide (S j * k < length l)%nat); try done; lia.
Qed.

Lemma chunks_count {A} (k : nat) (l : list A) : (0 < k)%nat -> len (chunks k l) = (len l + Z.of_nat k - 1) / Z.of_nat k.
Proof.
  intros Hk. induction l as [|l Hne IH] using (chunks_ind k Hk).
  { symmetry. apply Z.div_small. change (len (@nil A)) with 0. lia. }
  rewrite chunks_cons, len_cons, IH, len_drop by done. assert (0 < len l) by (destruct l; [done|len_lia]).
  destruct (decide (len l <= Z.of_nat k)).
  - rewrite Z.max_l by lia. rewrite (Z.div_small (0 + _ - 1)) by lia. apply Z.div_unique with (len l - 1); lia.
  - rewrite Z.max_r by lia. replace (len l + Z.of_nat k - 1) with (len l - Z.of_nat k + Z.of_nat k - 1 + 1 * Z.of_nat k) by lia.
    rewrite Z.div_add by lia. lia.
Qed.

Lemma config_chunks_lookup secret nid uid total l i j : Answers.config_chunks secret nid uid total i l !! j =
  (fun c => Answers.config_chunk secret nid uid total ((i + Z.of_nat j) * 1024) c) <$> l !! j.
Proof.
  revert i j. induction l as [|c l IH]; intros i [|j]; try done.
  - cbn. by rewrite Z.add_0_r.
  - cbn [Answers.config_chunks lookup list_lookup]. etransitivity; [apply IH|]. by replace (i + 1 + Z.of_nat j) with (i + Z.of_nat (S j)) by lia.
Qed.

Lemma config_pieces_count secret nid uid dict : len (Answers.config_pieces secret nid uid dict) = (len dict + 1024 - 1) / 1024.
Proof.
  unfold Answers.config_pieces. change (Z.to_nat Service.NETWORK_CONFIG_CHUNK_BYTES) with 1024%nat.
  pose proof (chunks_count 1024 dict ltac:(lia)) as H. change (Z.of_nat 1024) with 1024 in H. rewrite <- H. unfold len. f_equal.
  generalize (len dict) 0 (chunks 1024 dict). intros t i l. revert i. induction l as [|c l IH]; intros i; [done|]. cbn. by rewrite IH.
Qed.

(** The [j]-th piece. *)
Definition piece (secret : SecretKey) (nid uid : Z) (dict : bytes) (j : nat) : NetConfP.t :=
  Answers.config_chunk secret nid uid (len dict) (Z.of_nat j * 1024) (take 1024 (drop (j * 1024) dict)).

Lemma pieces_lookup secret nid uid dict j : Answers.config_pieces secret nid uid dict !! j =
  if decide (j * 1024 < length dict)%nat then Some (piece secret nid uid dict j) else None.
Proof.
  unfold Answers.config_pieces. rewrite config_chunks_lookup. change (Z.to_nat Service.NETWORK_CONFIG_CHUNK_BYTES) with 1024%nat.
  rewrite chunks_lookup by lia. by destruct (decide (j * 1024 < length dict)%nat).
Qed.

Lemma piece_chunk secret nid uid dict j : len (sk_signing secret) = 32 -> u64_ok nid -> u64_ok uid -> len dict <= U32_MAX ->
  (j * 1024 < length dict)%nat ->
  let nc := piece secret nid uid dict j in
  NodeConfig.chunk_of nid uid dict nc /\ NetConfP.wf nc /\ len (NetConfP.dict_data nc) <= 1024 /\
  forall i, NodeConfig.covers nc i <-> Z.of_nat j * 1024 <= i < Z.of_nat j * 1024 + 1024 /\ i < len dict.
Proof.
  intros Hk Hn Hu Hd Hj nc. assert (len (NetConfP.dict_data nc) = Z.min 1024 (len dict - Z.of_nat j * 1024)) as Hl.
  { unfold nc, piece. cbn. unfold len. rewrite length_take, length_drop. lia. }
  unfold len in Hd. split_and!.
  - split_and!; try done. exists (j * 1024)%nat. split; [unfold nc, piece; cbn; f_equal; lia|]. rewrite Hl. split; [unfold len; lia|].
    unfold nc, piece. cbn [NetConfP.dict_data Answers.config_chunk]. rewrite length_take, length_drop.
    destruct (decide (1024 <= length dict - j * 1024)%nat); [by rewrite Nat.min_l by lia|].
    rewrite Nat.min_r by lia. by rewrite !take_ge by (rewrite length_drop; lia).
  - unfold NetConfP.wf, NetConfP.shape, nc, piece. cbn. rewrite len_sign by done. unfold u32_ok, U32_MAX, U16_MAX, len in *.
    split_and!; try done; try lia. rewrite length_take. lia.
  - lia.
  - intros i. unfold NodeConfig.covers. rewrite Hl. unfold nc, piece. cbn. split.
    + intros (off & [= <-] & ?). lia.
    + intros ?. eexists. split; [done|]. lia.
Qed.

(** ** Receiving a piece *)

Lemma touch_secret n source from now b :
  NodeOps.shared_secret_for_peer (NodeReceive.touch_peer n source from now) b = NodeOps.shared_secret_for_peer n b.
Proof.
  unfold NodeReceive.touch_peer. cbv zeta. unfold NodeOps.shared_secret_for_peer, NodeOps.get_peer, NodeOps.update_peer, Topo.get_peer,
    Topo.update_peer. cbn [nd_topology with_topology t_peers with_peers nd_identity].
  destruct (decide (source = b)) as [<-|Hne]; [|by rewrite lookup_alter_ne].
  rewrite lookup_alter_eq. destruct (t_peers (nd_topology n) !! source) as [p|]; [|done]. cbn [fmap option_fmap option_map].
  set (q := if negb _ then _ else _). assert (peer_identity q = peer_identity p /\ peer_state q = peer_state p) as [Hi Hs]
    by (unfold q, PeerOps.promote_path; by repeat case_match).
  unfold PeerOps.shared_secret in *. rewrite Hs. destruct (peer_state p) eqn:E; cbn; by rewrite ?Hi, ?Hs.
Qed.

(** A piece of a configuration, received: it is applied. *)
Lemma receive_config fuel n source ss rpid nc q from now : NodeInv.node_ok n -> Delivery.plain_address source ->
  NodeOps.shared_secret_for_peer n source = Some ss -> Answers.answers ss (NodeOps.our_address n) source rpid nc q ->
  u64_ok rpid -> NetConfP.wf nc -> len (NetConfP.encode nc) <= 2000 ->
  NodeReceive.receive_packet (S fuel) n q from now =
    (let* n' := NodeConfig.apply_received_network_config (NodeReceive.touch_peer (with_actions n []) source from now) nc in
     NodeReceive.take_actions n').
Proof.
  intros Hn Hs Hss (pid & Hc) Hr Hw Hl. set (payload := OkP.encode (Answers.config_ok rpid nc)) in *.
  assert (len payload = 9 + len (NetConfP.encode nc)) as Hlp.
  { unfold payload, OkP.encode, Answers.config_ok. cbn [OkP.in_re_verb OkP.in_re_packet_id OkP.sub_payload OkP.encode_sub]. len_lia. }
  pose proof (NodeInv.our_address_len n Hn) as Ho. pose proof (len_nonneg (NetConfP.encode nc)).
  destruct (Delivery.receive_carried fuel n pid source VOk payload true q ss from now Ho Hs Hss Hc) as (mac & Hm & ->).
  { intros _. unfold NodeVerbs.ZT_PACKET_DECOMPRESS_CAPACITY, ZT_MAX_PACKET_FRAGMENTS. lia. }
  f_equal. cbn [NodeReceive.dispatch]. unfold NodeVerbs.handle_ok, NodeVerbs.parsed.
  destruct (Delivery.opened_fields pid (NodeOps.our_address n) source mac VOk payload Ho (proj1 Hs) Hm) as [Hlo Hdo].
  rewrite if_true by lia. rewrite slice_from_ok, rbind_ok by lia. change (Z.to_nat 28) with 28%nat. rewrite Hdo.
  unfold payload. rewrite OkP.okmsg_deserialize_encode by done. cbn [attempt]. rewrite rbind_ok.
  cbn [Answers.config_ok OkP.sub_payload OkP.in_re_verb]. rewrite bool_decide_false, bool_decide_true by done.
  by rewrite NetConfP.netconf_deserialize_encode.
Qed.

Lemma progress_proper nid uid dict (got got' : Z -> Prop) l : (forall i, got i <-> got' i) ->
  NodeConfig.progress nid uid dict got l -> NodeConfig.progress nid uid dict got' l.
Proof.
  intros Hg [(p & ? & ? & ? & Hp)|[Hno Hgot]].
  - left. exists p. split_and!; try done. by eapply NodeConfig.assembling_proper.
  - right. split; [done|]. intros i. rewrite <- Hg. apply Hgot.
Qed.

(** What a member awaiting the rest of [dict] holds, [got] saying which bytes came. *)
Record awaits (n0 : Node) (source ss : bytes) (nid uid : Z) (dict : bytes) (got : Z -> Prop) (n : Node) : Prop := {
  aw_ok : NodeInv.node_ok n;
  aw_identity : nd_identity n = nd_identity n0;
  aw_networks : nd_networks n = nd_networks n0;
  aw_secret : NodeOps.shared_secret_for_peer n source = Some ss;
  aw_progress : NodeConfig.progress nid uid dict got (nd_configs n);
}.

(** A piece that does not complete the dictionary is kept, one that does is applied. *)
Lemma piece_step fuel n0 source ss rpid nid uid dict secret j q from now got n net :
  awaits n0 source ss nid uid dict got n -> Delivery.plain_address source -> sock_ok from ->
  len (sk_signing secret) = 32 -> u64_ok nid -> u64_ok uid -> u64_ok rpid ->
  0 < len dict <= NodeConfig.ZT_MAX_NETWORK_CONFIG_SIZE -> (j * 1024 < length dict)%nat ->
  NodeOps.find_network n0 nid = Some net ->
  Answers.answers ss (NodeOps.our_address n0) source rpid (piece secret nid uid dict j) q ->
  let covers := NodeConfig.covers (piece secret nid uid dict j) in
  ((forall i, 0 <= i < len dict -> covers i \/ got i) ->
     exists n' net', NodeConfig.apply_to_membership (NodeOps.our_address n0) nid dict net = Ok net' /\
       NodeReceive.receive_packet (S fuel) n q from now = Ok ([NetworkConfigured nid dict], n') /\
       NodeInv.node_ok n' /\
       nd_networks n' = update_first (NodeOps.is_network nid) (fun net => NodeOps.with_request net false (nw_last_config_request net))
                          (update_first (NodeOps.is_network nid) (fun _ => net') (nd_networks n0))) /\
  ((exists i, 0 <= i < len dict /\ ~ covers i /\ ~ got i) ->
     exists n', NodeReceive.receive_packet (S fuel) n q from now = Ok ([], n') /\
       awaits n0 source ss nid uid dict (fun i => covers i \/ got i) n').
Proof.
  intros [Hn Hid Hnets Hss Hpr] Hs Hf Hk Hnid Huid Hr Hd Hj Hnet Hq covers.
  assert (len dict <= U32_MAX) as Hd32 by (unfold NodeConfig.ZT_MAX_NETWORK_CONFIG_SIZE, U32_MAX in *; lia).
  destruct (piece_chunk secret nid uid dict j Hk Hnid Huid Hd32 Hj) as (Hch & Hw & Hl & _). set (nc := piece secret nid uid dict j) in *.
  assert (NodeOps.our_address n = NodeOps.our_address n0) as Hour by (unfold NodeOps.our_address; by rewrite Hid).
  rewrite (receive_config fuel n source ss rpid nc q from now Hn Hs Hss); [|by rewrite Hour|done|done|].
  2: { unfold nc, piece in *. rewrite Answers.config_chunk_len by done. cbn in Hl. lia. }
  set (n1 := NodeReceive.touch_peer (with_actions n []) source from now).
  assert (NodeInv.node_ok (with_actions n [])) as Hna by by apply (NodeInv.keeps_actions n).
  pose proof (NodeTotal.touch_peer_keeps _ source from now Hna Hf) as H1. fold n1 in H1.
  unfold NodeConfig.apply_received_network_config. change (NetConfP.network_id nc) with nid.
  assert (forall m, nd_networks m = nd_networks n0 -> NodeOps.find_network m nid = Some net) as Hfind
    by (intros m Hm; unfold NodeOps.find_network; by rewrite Hm).
  rewrite (Hfind n1) by done.
  destruct (NodeConfig.assemble_chunk (nd_configs n1) nid uid dict got nc) as (l & r & -> & Hl' & Hdone & Hmore);
    [apply (NodeInv.nk_configs n1), H1|exact Hpr|exact Hd|exact Hch|]. rewrite rbind_ok. cbv zeta. set (n2 := with_configs n1 l).
  assert (NodeInv.keeps n1 n2) as H2 by (apply NodeInv.keeps_configs; [apply H1|done]). split.
  - intros Hall. destruct (Hdone Hall) as (nc' & -> & Hnid' & Hdict). rewrite Hnid', Hdict. unfold NodeConfig.apply_network_config.
    rewrite (Hfind n2) by done. change (NodeOps.our_address n2) with (NodeOps.our_address n). rewrite Hour.
    pose proof (NodeConfig.apply_to_membership_total (NodeOps.our_address n0) nid dict net) as Ht.
    destruct (NodeConfig.apply_to_membership (NodeOps.our_address n0) nid dict net) as [net'| | |]; try done. destruct Ht as [Hid' Hok].
    rewrite !rbind_ok. eexists _, net'. split; [done|]. split; [done|]. cbn. rewrite Hnets. split; [|done].
    set (n3 := NodeOps.update_network n2 nid (fun _ => net')). assert (NodeInv.keeps n2 n3) as H3.
    { apply NodeInv.keeps_networks; [apply H2|]. pose proof (NodeInv.ty_networks _ (NodeInv.nk_typed _ (proj1 H2))) as Hnw.
      apply update_first_Forall; [done|]. intros x _ _. apply Hok. specialize (Hfind n2 Hnets). unfold NodeOps.find_network in Hfind.
      apply find_Some in Hfind as [Hin _]. exact (proj1 (Forall_forall _ _) Hnw _ Hin). }
    set (n4 := NodeOps.update_network n3 nid (fun net => NodeOps.with_request net false (nw_last_config_request net))).
    assert (NodeInv.keeps n3 n4) as H4 by (by apply NodeInv.keeps_update_network; [apply H3|]).
    by apply (NodeInv.keeps_actions n4); [apply H4|].
  - intros (i & Hi & Hci & Hgi). destruct (Hmore i Hi Hci Hgi) as [-> Hpr']. eexists. split; [done|].
    split; [by apply (NodeInv.keeps_actions n2); [apply H2|]|exact Hid|exact Hnets| |exact Hpr'].
    etransitivity; [|exact Hss]. etransitivity; [|apply (touch_secret (with_actions n []) source from now)]. done.
Qed.

(** ** In any order *)

(** Datagrams received one after the other: all the actions they cause. *)
Fixpoint receive_all (fuel : nat) (n : Node) (l : list (bytes * SocketAddr * Z)) : step (list NodeAction * Node) :=
  match l with
  | [] => Ok ([], n)
  | (data, from, now_ms) :: l =>
      let* ' (actions, n) := NodeReceive.receive_packet fuel n data from now_ms in
      let* ' (more, n) := receive_all fuel n l in
      Ok (actions ++ more, n)
  end.

(** Where and when the [j]-th packet arrives. *)
Abbreviation arrival := (nat * SocketAddr * Z)%type.
Definition datagram (packets : list bytes) (a : arrival) : bytes * SocketAddr * Z := (default [] (packets !! a.1.1), a.1.2, a.2).

Definition got_by (secret : SecretKey) (nid uid : Z) (dict : bytes) (order : list arrival) (i : Z) : Prop :=
  exists a, a ∈ order /\ NodeConfig.covers (piece secret nid uid dict a.1.1) i.

Lemma receive_pieces fuel n0 source ss rpid nid uid dict secret net packets last order :
  Delivery.plain_address source -> len (sk_signing secret) = 32 -> u64_ok nid -> u64_ok uid -> u64_ok rpid ->
  0 < len dict <= NodeConfig.ZT_MAX_NETWORK_CONFIG_SIZE -> NodeOps.find_network n0 nid = Some net ->
  Forall2 (Answers.answers ss (NodeOps.our_address n0) source rpid) (Answers.config_pieces secret nid uid dict) packets ->
  (last < length packets)%nat ->
  Forall (fun a : arrival => (a.1.1 < length packets)%nat /\ a.1.1 <> last /\ sock_ok a.1.2) order ->
  forall got n, awaits n0 source ss nid uid dict got n -> ~ got (Z.of_nat last * 1024) ->
  exists n', receive_all (S fuel) n (map (datagram packets) order) = Ok ([], n') /\
    awaits n0 source ss nid uid dict (fun i => got_by secret nid uid dict order i \/ got i) n'.
Proof.
  intros Hs Hk Hnid Huid Hr Hd Hnet Hp Hlast Horder. pose proof (Forall2_length _ _ _ Hp) as Hlen.
  assert (forall j, (j < length packets)%nat -> (j * 1024 < length dict)%nat /\
    exists q, packets !! j = Some q /\ Answers.answers ss (NodeOps.our_address n0) source rpid (piece secret nid uid dict j) q) as Hpk.
  { intros j Hj. destruct (lookup_lt_is_Some_2 packets j Hj) as [q Hq]. destruct (Forall2_lookup_r _ _ _ _ _ Hp Hq) as (nc & Hnc & Hans).
    rewrite pieces_lookup in Hnc. destruct (decide (j * 1024 < length dict)%nat); [|done]. injection Hnc as <-. split; [done|]. by exists q. }
  assert (len dict <= U32_MAX) as Hd32 by (unfold NodeConfig.ZT_MAX_NETWORK_CONFIG_SIZE, U32_MAX in *; lia).
  destruct (Hpk last Hlast) as [Hll _].
  induction Horder as [|[[j from] t] order (Hj & Hne & Hf) _ IH]; intros got n Hn Hgot; cbn [map receive_all].
  { exists n. split; [done|]. destruct Hn as [? ? ? ? Hpr]. split; try done. eapply progress_proper; [|exact Hpr].
    intros i. split; [by right|intros [(a & Ha & _)|]; [by apply elem_of_nil in Ha|done]]. }
  cbn in Hj, Hne, Hf. destruct (Hpk j Hj) as [Hjl (q & Hq & Hans)]. unfold datagram at 1. cbn [fst snd]. rewrite Hq. cbn [default from_option id].
  destruct (piece_chunk secret nid uid dict j Hk Hnid Huid Hd32 Hjl) as (_ & _ & _ & Hcov).
  destruct (piece_step fuel n0 source ss rpid nid uid dict secret j q from t got n net Hn Hs Hf Hk Hnid Huid Hr Hd Hjl Hnet Hans)
    as [_ Hstep].
  assert (~ NodeConfig.covers (piece secret nid uid dict j) (Z.of_nat last * 1024)) as Hnc by (rewrite Hcov; lia).
  destruct Hstep as (n1 & -> & Hn1); [exists (Z.of_nat last * 1024); split_and!; try done; unfold len; lia|].
  rewrite rbind_ok. destruct (IH _ n1 Hn1) as (n2 & -> & Hn2); [tauto|]. rewrite rbind_ok. exists n2. split; [done|].
  destruct Hn2 as [? ? ? ? Hpr]. split; try done. eapply progress_proper; [|exact Hpr]. intros i. unfold got_by. split.
  - intros [(a & Ha & Hc)|[Hc|Hg]]; [left; exists a; split; [by right|done]|left; exists (j, from, t); split; [by left|done]|by right].
  - intros [(a & [->|Ha]%elem_of_cons & Hc)|Hg]; [by right; left|left; by exists a|by right; right].
Qed.

(** The controller's node [n] and the member's [m]: they know each other by one secret, and the
    member is waiting for the configuration of the network, none of which it holds yet. *)
Record session (n m : Node) (nid : Z) (ss : bytes) (secret : SecretKey) (net : NetworkMembership) : Prop := {
  se_controller : NodeInv.node_ok n;
  se_member : NodeInv.node_ok m;
  se_signer : id_secret (nd_identity n) = Some secret;
  se_plain : Delivery.plain_address (NodeOps.our_address n);
  se_theirs : NodeOps.shared_secret_for_peer n (NodeOps.our_address m) = Some ss;
  se_ours : NodeOps.shared_secret_for_peer m (NodeOps.our_address n) = Some ss;
  se_network : NodeOps.find_network m nid = Some net;
  se_none : forall q, q ∈ nd_configs m -> pc_network_id q <> nid;
}.

(** Every packet but one, in some order and any number of times. *)
Definition all_but (count last : nat) (order : list arrival) : Prop :=
  (last < count)%nat /\ Forall (fun a : arrival => (a.1.1 < count)%nat /\ a.1.1 <> last /\ sock_ok a.1.2) order /\
  forall j, (j < count)%nat -> j = last \/ exists from t, (j, from, t) ∈ order.

Definition after_configuration (nid : Z) (networks : list NetworkMembership) (net' : NetworkMembership) : list NetworkMembership :=
  update_first (NodeOps.is_network nid) (fun net => NodeOps.with_request net false (nw_last_config_request net))
    (update_first (NodeOps.is_network nid) (fun _ => net') networks).

(** C2. A configuration arrives. The service answers a request with packets that carry the
    engine's dictionary in signed, compressed and sealed pieces of a kilobyte, and one that
    carries the credentials. Whatever order those packets reach the member in, however often
    each is repeated, whichever comes last: none before the last changes its networks or asks
    for anything, and with the last the member applies exactly that dictionary, as if it had
    come whole. *)
Theorem configuration_delivered (n m : Node) (nid rpid : Z) (ss : bytes) (secret : SecretKey) (net : NetworkMembership)
    (from : SocketAddr) (response : ConfigResponse) (fuel : nat) :
  session n m nid ss secret net -> u64_ok nid -> u64_ok rpid ->
  let dict := NetConfP.dict_data (cr_config response) in
  0 < len dict <= NodeConfig.ZT_MAX_NETWORK_CONFIG_SIZE -> CredP.com_opt Com.shape (cr_credentials response) ->
  len (CredP.encode (cr_credentials response)) <= 512 ->
  exists n' packets credentials net',
    Service.respond n (NodeOps.our_address m) nid from rpid response = Ok n' /\ NodeInv.node_ok n' /\
    nd_actions n' = nd_actions n ++ map (fun p => SendTo p from) (packets ++ [credentials]) /\
    len packets = (len dict + 1023) / 1024 /\
    NodeConfig.apply_to_membership (NodeOps.our_address m) nid dict net = Ok net' /\
    forall order last last_from last_t, all_but (length packets) last order -> sock_ok last_from ->
      exists m1 m2, receive_all (S fuel) m (map (datagram packets) order) = Ok ([], m1) /\
        nd_networks m1 = nd_networks m /\
        NodeReceive.receive_packet (S fuel) m1 (default [] (packets !! last)) last_from last_t =
          Ok ([NetworkConfigured nid dict], m2) /\
        NodeInv.node_ok m2 /\ nd_networks m2 = after_configuration nid (nd_networks m) net'.
Proof.
  intros [Hn Hm Hsec Hpl Hsn Hsm Hnet Hnone] Hnid Hr dict Hd Hc Hcr. pose proof (NodeInv.our_address_len m Hm) as Ho.
  assert (len (sk_signing secret) = 32) as Hk by (pose proof (NodeInv.ty_secret _ (NodeInv.nk_typed _ Hn)) as H; by rewrite Hsec in H).
  assert (len dict <= U32_MAX) as Hd32 by (unfold NodeConfig.ZT_MAX_NETWORK_CONFIG_SIZE, U32_MAX in *; lia).
  pose proof (Answers.respond_spec n (NodeOps.our_address m) nid from rpid response secret Hn Ho Hr Hsec Hk Hc ltac:(split; [apply Hd|exact Hd32])) as H.
  rewrite Hsn, if_true in H by lia. destruct H as (n' & Hrun & H1 & _ & packets & credentials & pid & Hp & _ & Ha).
  set (uid := nd_next_packet_id n) in *. fold dict in Hp.
  assert (u64_ok uid) as Huid by (pose proof (NodeInv.ty_packet_id _ (NodeInv.nk_typed _ Hn)); unfold u64_ok; lia).
  pose proof (NodeConfig.apply_to_membership_total (NodeOps.our_address m) nid dict net) as Ht.
  destruct (NodeConfig.apply_to_membership (NodeOps.our_address m) nid dict net) as [net'| | |] eqn:Eapp; try done.
  exists n', packets, credentials, net'. split; [exact Hrun|]. split; [apply H1|]. split; [exact Ha|]. split.
  { unfold len at 1. rewrite <- (Forall2_length _ _ _ Hp). fold (len (Answers.config_pieces secret nid uid dict)).
    rewrite config_pieces_count. f_equal. lia. }
  split; [done|].
  intros order last last_from last_t (Hlast & Horder & Hall) Hlf.
  assert (awaits m (NodeOps.our_address n) ss nid uid dict (fun _ => False) m) as H0 by (split; try done; right; split; [exact Hnone|tauto]).
  destruct (receive_pieces fuel m (NodeOps.our_address n) ss rpid nid uid dict secret net packets last order Hpl Hk Hnid Huid Hr Hd Hnet
    Hp Hlast Horder _ m H0 ltac:(tauto)) as (m1 & Hrun1 & Hm1). exists m1.
  destruct (lookup_lt_is_Some_2 packets last Hlast) as [q Hq]. destruct (Forall2_lookup_r _ _ _ _ _ Hp Hq) as (nc & Hnc & Hans).
  rewrite pieces_lookup in Hnc. destruct (decide (last * 1024 < length dict)%nat) as [Hll|]; [|done]. injection Hnc as <-.
  destruct (piece_step fuel m (NodeOps.our_address n) ss rpid nid uid dict secret last q last_from last_t _ m1 net Hm1 Hpl Hlf Hk Hnid
    Huid Hr Hd Hll Hnet Hans) as [Hstep _].
  destruct Hstep as (m2 & net2 & Happ & Hrun2 & Hm2 & Hn2).
  - intros i Hi. pose proof (Forall2_length _ _ _ Hp) as Hlen. set (j := Z.to_nat (i / 1024)).
    pose proof (Z.div_mod i 1024 ltac:(lia)). pose proof (Z.mod_pos_bound i 1024 ltac:(lia)). pose proof (Z.div_pos i 1024 ltac:(lia) ltac:(lia)).
    assert ((j * 1024 < length dict)%nat) as Hj by (unfold j, len in *; lia).
    assert ((j < length packets)%nat) as Hjl.
    { rewrite <- Hlen. apply lookup_lt_is_Some. rewrite pieces_lookup, decide_True by done. by eexists. }
    destruct (piece_chunk secret nid uid dict j Hk Hnid Huid Hd32 Hj) as (_ & _ & _ & Hcov).
    destruct (Hall j Hjl) as [E|(f & t & Hin)]; [left; rewrite <- E|right; left; exists (j, f, t); split; [done|]]; apply Hcov; unfold j; lia.
  - rewrite Eapp in Happ. injection Happ as <-. exists m2. split_and!; [exact Hrun1|apply Hm1| |exact Hm2|exact Hn2].
    rewrite Hq. exact Hrun2.
Qed.

End Delivered.

(** ** A configuration of two packets *)

Definition member_node : Node :=
  match NodeOps.new Ident.sample (WorldP.encode WorldP.sample) 100 with
  | Ok n =>
      let n := with_topology n (Topo.add_peer (nd_topology n) NodeTotal.sample_id) in
      let n := NodeOps.update_peer n (id_address NodeTotal.sample_id) (fun p => with_state p NodeUpkeep.sample_session) in
      with_networks n [Network.new NodeUpkeep.sample_nid 2800]
  | _ => NodeTotal.sample_node
  end.

Lemma member_node_ok : NodeInv.node_ok (P := Toy.prims) member_node.
Proof.
  unfold member_node. destruct (NodeOps.new Ident.sample (WorldP.encode WorldP.sample) 100) as [n| | |] eqn:E; try exact NodeTotal.sample_node_ok.
  pose proof (NodeTotal.new_node_ok (P := Toy.prims) (L := Toy.laws) Ident.sample _ _ _ ltac:(by split_and!) I E) as Hn.
  apply (NodeInv.keeps_networks (P := Toy.prims)); [|constructor; [by split; [split|constructor]|constructor]].
  apply (NodeInv.keeps_update_peer (P := Toy.prims)); [exact (proj1 (NodeInv.keeps_add_peer (P := Toy.prims) (L := Toy.laws) n NodeTotal.sample_id Hn eq_refl))|].
  intros p _ [_ _ Hd] Hpa. split_and!; [|done|done]. split; [done|by apply PeerOps.new_active_keys|done].
Qed.

Definition sample_response : ConfigResponse :=
  mkConfigResponse (NetConfP.mk NodeUpkeep.sample_nid (str "mtu=578" ++ replicate 1500 (b8 65)) None None None None None None)
    (CredP.mk None [] [] [] []).

Definition serving : Node := NodeUpkeep.in_state NodeUpkeep.sample_session.

Lemma sample_session_ok : session (P := Toy.prims) serving member_node NodeUpkeep.sample_nid (replicate 48 (b8 3))
  (mkSecretKey (map b8 (seqZ 64 32)) (map b8 (seqZ 96 32))) (Network.new NodeUpkeep.sample_nid 2800).
Proof.
  split.
  - apply NodeUpkeep.in_state_ok; [done|by apply PeerOps.new_active_keys].
  - exact member_node_ok.
  - vm_compute. reflexivity.
  - split; [vm_compute; reflexivity|vm_compute; discriminate].
  - vm_compute. reflexivity.
  - vm_compute. reflexivity.
  - vm_compute. reflexivity.
  - replace (nd_configs member_node) with (@nil PendingNetworkConfig) by (vm_compute; reflexivity). intros q Hq. by apply elem_of_nil in Hq.
Qed.

Lemma sample_sock_ok : sock_ok NodeTotal.sample_sock.
Proof. by split_and!. Qed.

(** Its second packet comes twice, then the first. *)
Lemma configuration_delivered_witness :
  exists n' packets net' m1 m2,
    Service.respond (P := Toy.prims) (Z4 := NodeTotal.stored_lz4) serving (NodeOps.our_address member_node) NodeUpkeep.sample_nid
      NodeUpkeep.sample_target 7 sample_response = Ok n' /\ len packets = 2 /\
    receive_all (P := Toy.prims) (Z4 := NodeTotal.stored_lz4) 1 member_node
      (map (datagram packets) [(1%nat, NodeTotal.sample_sock, 10); (1%nat, NodeTotal.sample_sock, 20)]) = Ok ([], m1) /\
    NodeReceive.receive_packet (P := Toy.prims) (Z4 := NodeTotal.stored_lz4) 1 m1 (default [] (packets !! 0%nat)) NodeTotal.sample_sock 30 =
      Ok ([NetworkConfigured NodeUpkeep.sample_nid (NetConfP.dict_data (cr_config sample_response))], m2) /\
    nd_networks m2 = after_configuration NodeUpkeep.sample_nid (nd_networks member_node) net'.
Proof.
  destruct (configuration_delivered (P := Toy.prims) (L := Toy.laws) (Z4 := NodeTotal.stored_lz4) (ZL := NodeTotal.stored_lz4_laws)
    serving member_node NodeUpkeep.sample_nid 7 _ _ _ NodeUpkeep.sample_target sample_response 0 sample_session_ok)
    as (n' & packets & credentials & net' & Hrun & _ & _ & Hlen & _ & Hall).
  1-2: by split.
  1: by vm_compute.
  1: exact I.
  1: by vm_compute.
  replace ((len (NetConfP.dict_data (cr_config sample_response)) + 1023) / 1024) with 2 in Hlen by (vm_compute; reflexivity).
  assert (length packets = 2%nat) as Hl by (unfold len in Hlen; lia).
  destruct (Hall [(1%nat, NodeTotal.sample_sock, 10); (1%nat, NodeTotal.sample_sock, 20)] 0%nat NodeTotal.sample_sock 30)
    as (m1 & m2 & H1 & _ & H2 & _ & H3).
  - rewrite Hl. split; [lia|]. split.
    + repeat (apply Forall_cons; split; [split; [cbn; lia|split; [cbn; lia|exact sample_sock_ok]]|]). apply Forall_nil. exact I.
    + intros j Hj. destruct j as [|[|j]]; [by left|right|lia]. exists NodeTotal.sample_sock, 10. left.
  - exact sample_sock_ok.
  - exists n', packets, net', m1, m2. split_and!; [exact Hrun|exact Hlen|exact H1|exact H2|exact H3].
Defined.
End Delivered.
