(* ===== verification/Credentials.v ===== *)
(** * Credentials: what a request for a configuration makes the daemon send (zerotier-service:
    service.rs, [handle_controller_actions]), from the controller's records: the configuration and
    the credentials when these fit the buffer they are written to. *)
From S2P Require Export Answers.

Module Credentials.
Section Credentials.
Context {P : Prims} {L : PrimLaws P} {Z4 : Lz4} {S Er : Type} `{StorageLaws S Er}.

(** ** How long the credentials of a member are *)

Definition capability_size (cap : Capability) : Z := 139 + len (Rules.serialize_rules (cap_rules cap)).

(** A certificate of 176 bytes, the capabilities, 135 bytes a tag, and five flags and lengths. *)
Definition credentials_size (net : NetworkRecord) (m : MemberRecord) : Z :=
  185 + foldr (fun cap n => capability_size cap + n) 0 (Engine.granted_capabilities net m) + 135 * len (m_tags m).

Lemma signed_com_len sk addr nid issued_to ts : len sk = 32 -> len addr = 5 -> addr <> Com.zeros 5 ->
  len (Com.encode (Engine.build_signed_com sk addr nid issued_to ts)) = 176.
Proof.
  intros Hk Ha Hne. unfold Com.encode, Com.signed, Engine.build_signed_com.
  cbn [com_qualifiers com_signer_address com_signature]. rewrite bool_decide_false by done. cbn [negb map concat].
  unfold Com.encode_qualifier. rewrite !len_app, !len_to_be, len_sign by done. len_lia.
Qed.

Lemma tags_len tags nid issued_to signed_by ts sk : len sk = 32 -> len issued_to = 5 -> len signed_by = 5 ->
  len (Rules.serialize_tags_signed tags nid issued_to signed_by ts sk) = 135 * len tags.
Proof.
  intros Hk Hi Hs. induction tags as [|t tags IH]; [done|]. unfold Rules.serialize_tags_signed in *. cbn [flat_map].
  rewrite len_app, (proj1 (Rules.tag_ok nid issued_to signed_by ts sk t Hk Hi Hs)), IH. len_lia.
Qed.

Lemma capabilities_len caps nid issued_to signed_by ts sk : len sk = 32 -> len issued_to = 5 -> len signed_by = 5 ->
  len (Rules.serialize_capabilities_signed caps nid issued_to signed_by ts sk) =
    foldr (fun cap n => capability_size cap + n) 0 caps.
Proof.
  intros Hk Hi Hs. induction caps as [|cap caps IH]; [done|]. unfold Rules.serialize_capabilities_signed in *. cbn [flat_map foldr].
  rewrite len_app, IH. unfold Rules.signed_capability, capability_size. rewrite !len_app, !len_to_be, len_sign, len_replicate by done.
  len_lia.
Qed.

Lemma credentials_len v c nid a now net m resp : len (ctl_signing_key c) = 32 -> len (ctl_address c) = 5 ->
  ctl_address c <> Com.zeros 5 -> len a = 5 -> Engine.reply_says v c nid a now net m resp ->
  len (CredP.encode (cr_credentials resp)) = credentials_size net m.
Proof.
  intros Hk Hc Hne Ha (-> & _). unfold CredP.encode, CredP.encode_section, CredP.encode_com.
  cbn [CredP.com CredP.capabilities_raw CredP.tags_raw CredP.revocations_raw CredP.coo_raw].
  rewrite !len_app, !len_to_be, signed_com_len by done. unfold Engine.issue_capabilities, Engine.issue_tags, credentials_size.
  set (caps := Engine.granted_capabilities net m).
  case_bool_decide as Ec; [apply nil_length_inv in Ec as ->|rewrite capabilities_len by done];
    (case_bool_decide as Et; [apply nil_length_inv in Et as ->|rewrite tags_len by done]); cbn [foldr]; len_lia.
Qed.

(** ** One request *)

Lemma reply_dict v c nid a now net m resp : Engine.reply_says v c nid a now net m resp ->
  0 < len (NetConfP.dict_data (cr_config resp)).
Proof.
  intros (_ & _ & d & Hd & _ & members & dir & _ & _ & Hb). destruct (NetConfP.dict_data (cr_config resp)) as [|x l]; [|len_lia].
  vm_compute in Hd. injection Hd as <-. discriminate Hb.
Qed.

Lemma reply_com v c nid a now net m resp : len (ctl_signing_key c) = 32 -> len (ctl_address c) = 5 -> u64_ok nid -> u64_ok now ->
  Engine.reply_says v c nid a now net m resp -> CredP.com_opt Com.shape (cr_credentials resp).
Proof. intros Hk Hc Hn Ht (-> & _). apply Engine.signed_com_shape; try done. apply Engine.zt_address_u64. Qed.

(** The node that answers for the controller [c]: it signs with its own key. *)
Record serves (c : Controller) (n : Node) (secret : SecretKey) : Prop := {
  sv_node : NodeInv.node_ok n;
  sv_secret : id_secret (nd_identity n) = Some secret;
  sv_key : len (ctl_signing_key c) = 32;
  sv_address : len (ctl_address c) = 5;
  sv_nonzero : ctl_address c <> Com.zeros 5;
}.

(** C7. One request, end to end. Whatever the store holds, a request that the controller refuses
    or cannot serve sends nothing; one from a peer without a session records its certificate at
    most; one it grants is answered with the pieces of the dictionary and the credentials of
    exactly [credentials_size] bytes, if these are at most 512, and with a panic otherwise:
    three tags are enough. *)
Theorem request_answered (c : Controller) (n : Node) (s : S) (secret : SecretKey) (dest : bytes) (nid : Z) (metadata : bytes)
    (from : SocketAddr) (rpid now : Z) : serves c n secret -> Engine.store_ok s -> len dest = 5 -> u64_ok nid -> u64_ok rpid ->
  u64_ok now ->
  let run := Service.handle_controller_action c now (NetworkConfigRequested dest nid metadata from rpid) (n, s) in
  let '(s', r) := Engine.handle_config_request c nid dest now s in
  Engine.store_ok s' /\
  match r with
  | Ok resp =>
      exists net m, v_network (view s) nid = Some net /\ v_member (view s') nid dest = Some m /\ m_authorized m = true /\
        match NodeOps.shared_secret_for_peer n dest with
        | None => safe run (fun x => NodeInv.keeps n x.1 /\ nd_actions x.1 = nd_actions n /\ x.2 = s')
        | Some ss =>
            len (NetConfP.dict_data (cr_config resp)) <= U32_MAX ->
            if credentials_size net m <=? 512
            then exists n', run = Ok (n', s') /\ Answers.answered n secret ss dest nid rpid from resp n'
            else run = Panic
        end
  | Err _ => run = Ok (n, s')
  | _ => False
  end.
Proof.
  intros [Hn Hsec Hk Hc Hne] Hs Hd Hnid Hr Hnow run. subst run.
  pose proof (Engine.request_store_ok c nid dest now s Hk Hc Hd Hnid Hnow Hs) as Hreq. unfold Service.handle_controller_action.
  destruct (Engine.handle_config_request c nid dest now s) as [s' r]. destruct Hreq as [Hs' Hout]. split; [exact Hs'|].
  destruct r as [resp|e| |]; [|done|done|done]. cbn [attempt]. rewrite !rbind_ok.
  destruct Hout as (net & m & Hnet & Hm & Hauth & _ & _ & _ & Hsays). exists net, m. split_and!; [done..|].
  assert (len (sk_signing secret) = 32) as Hks by (pose proof (NodeInv.ty_secret _ (NodeInv.nk_typed _ Hn)) as Hty; by rewrite Hsec in Hty).
  destruct (NodeOps.shared_secret_for_peer n dest) as [ss|] eqn:Ess.
  - intros Hlen. pose proof (Answers.respond_spec n dest nid from rpid resp secret Hn Hd Hr Hsec Hks
      (reply_com _ _ _ _ _ _ _ _ Hk Hc Hnid Hnow Hsays) (conj (reply_dict _ _ _ _ _ _ _ _ Hsays) Hlen)) as Hresp.
    rewrite Ess, (credentials_len _ _ _ _ _ _ _ _ Hk Hc Hne Hd Hsays) in Hresp.
    destruct (credentials_size net m <=? 512); [|by rewrite Hresp]. destruct Hresp as (n' & -> & Ha). rewrite rbind_ok. by exists n'.
  - unfold Service.respond. rewrite (proj1 Hsays). cbn [CredP.com]. set (n0 := Service.record_peer_com _ _ _ _).
    assert (NodeInv.keeps n n0) as Hk0 by (by apply NodeInv.keeps_update_network).
    rewrite (Answers.same_secret n n0 dest (proj1 (proj2 Hk0)) eq_refl), Ess, rbind_ok. by split.
Qed.

End Credentials.

(** ** A member with three tags *)

Definition tagged (tags : list Tag) : InMemoryState :=
  mkMemory [mkNetworkRecord NodeUpkeep.sample_nid [] false 10 1 32 2800 (str "zt") (str "none") [] [] [] true]
    [mkMemberRecord NodeUpkeep.sample_nid NodeUpkeep.sample_root true [] 10 10 [] 0 0 0 false false [] tags] [] [].

Lemma tagged_ok tags : Forall tag_typed tags -> Engine.store_ok (S := InMemoryState) (tagged tags).
Proof.
  intros Htags. split; [|split].
  - apply NoDup_singleton.
  - split_and!.
    + intros id net Hnet. unfold view, v_network in Hnet. cbn in Hnet. revert Hnet. case_match; [|discriminate]. intros [= <-]. by split_and!.
    + intros id a m Hm. cbn in Hm. revert Hm. case_match; [|discriminate]. intros [= <-].
      split; [|constructor]. by split; try constructor.
    + intros id. constructor.
    + intros id. constructor.
  - intros id a b ma mb ip Hne Ha Hb _ _. exfalso. cbn in Ha, Hb. revert Ha Hb. unfold Memory.is_member. cbn.
    repeat case_match; try discriminate. intros _ _. bools. repeat match goal with H : bool_decide _ = true |- _ => apply bool_decide_eq_true in H end. congruence.
Qed.

Definition sample_secret : SecretKey := mkSecretKey (map b8 (seqZ 64 32)) (map b8 (seqZ 96 32)).
Definition sample_signer : Controller := mkController (NodeOps.our_address NodeTotal.sample_node) (sk_signing sample_secret).

Lemma sample_serves : serves (P := Toy.prims) sample_signer (NodeUpkeep.in_state NodeUpkeep.sample_session) sample_secret.
Proof.
  split; [apply NodeUpkeep.in_state_ok; [done|by apply PeerOps.new_active_keys]|vm_compute; reflexivity..|vm_compute; discriminate].
Qed.

Definition tagged_request (tags : list Tag) : InMemoryState * res ControllerError ConfigResponse :=
  Engine.handle_config_request (H := Toy.prims) (S := InMemoryState) sample_signer NodeUpkeep.sample_nid NodeUpkeep.sample_root 20
    (tagged tags).

(** What the answer to a tagged member is: whether it fits. *)
Definition tagged_fits (tags : list Tag) : option bool :=
  match tagged_request tags with
  | (s', Ok resp) =>
      net ← Memory.mem_get_network (tagged tags) NodeUpkeep.sample_nid;
      m ← Memory.mem_get_member s' NodeUpkeep.sample_nid NodeUpkeep.sample_root;
      if len (NetConfP.dict_data (cr_config resp)) <=? U32_MAX then Some (credentials_size net m <=? 512) else None
  | _ => None
  end.

(** Two tags are answered, three are a panic. *)
Lemma request_answered_witness :
  let run tags := Service.handle_controller_action (P := Toy.prims) (Z4 := NodeTotal.stored_lz4) (S := InMemoryState) sample_signer 20
    (NetworkConfigRequested NodeUpkeep.sample_root NodeUpkeep.sample_nid [] NodeTotal.sample_sock 7)
    (NodeUpkeep.in_state NodeUpkeep.sample_session, tagged tags) in
  (exists n' s', run [mkTag 1 2; mkTag 2 3] = Ok (n', s')) /\ run [mkTag 1 2; mkTag 2 3; mkTag 3 4] = Panic.
Proof.
  pose proof (fun tags X => request_answered (P := Toy.prims) (L := Toy.laws) (Z4 := NodeTotal.stored_lz4)
    (S := InMemoryState) sample_signer _ (tagged tags) sample_secret NodeUpkeep.sample_root NodeUpkeep.sample_nid [] NodeTotal.sample_sock
    7 20 sample_serves (tagged_ok tags X) eq_refl ltac:(by split) ltac:(by split) ltac:(by split)) as Hall.
  assert (forall tags fits, Forall tag_typed tags -> tagged_fits tags = Some fits ->
    let run := Service.handle_controller_action (P := Toy.prims) (Z4 := NodeTotal.stored_lz4) (S := InMemoryState) sample_signer 20
      (NetworkConfigRequested NodeUpkeep.sample_root NodeUpkeep.sample_nid [] NodeTotal.sample_sock 7)
      (NodeUpkeep.in_state NodeUpkeep.sample_session, tagged tags) in
    if fits then exists n' s', run = Ok (n', s') else run = Panic) as served.
  { intros tags fits Hty Hf run. subst run. specialize (Hall tags Hty). unfold tagged_fits in Hf. fold (tagged_request tags) in Hall.
    destruct (tagged_request tags) as [s' r]. destruct Hall as [_ Hall]. destruct r as [resp| | |]; try discriminate Hf.
    destruct Hall as (net & m & Hnet & Hm & _ & Hrun).
    change (Memory.mem_get_network (tagged tags) NodeUpkeep.sample_nid = Some net) in Hnet.
    change (Memory.mem_get_member s' NodeUpkeep.sample_nid NodeUpkeep.sample_root = Some m) in Hm.
    rewrite Hnet, Hm in Hf. cbn [mbind option_bind] in Hf.
    destruct (NodeOps.shared_secret_for_peer _ NodeUpkeep.sample_root) as [ss|] eqn:Ess; [|exfalso; vm_compute in Ess; discriminate Ess].
    destruct (Z.leb_spec (len (NetConfP.dict_data (cr_config resp))) U32_MAX) as [Hl|]; [|discriminate Hf]. injection Hf as <-.
    specialize (Hrun Hl). destruct (credentials_size net m <=? 512); [|exact Hrun]. destruct Hrun as (n' & Hrun & _). by exists n', s'. }
  cbv zeta. split; [apply (served [mkTag 1 2; mkTag 2 3] true)|apply (served [mkTag 1 2; mkTag 2 3; mkTag 3 4] false)];
    first [by repeat constructor|vm_compute; reflexivity].
Defined.
End Credentials.
