(* ===== verification/DaemonInv.v ===== *)
(** * DaemonInv: the invariant of the daemon's main loop, which every event keeps
    (zerotier-service: service.rs, [run_service]). *)
From S2P Require Export Daemon Credentials Outbound.

Module DaemonInv.

(** ** Interfaces *)

Section Interfaces.
Context (create : bytes -> Z -> option bytes) (local_zt_address : bytes).

Lemma configure_total nid d : safe (Daemon.configure_tun_from_dict_data nid d) (fun _ => True).
Proof.
  unfold Daemon.configure_tun_from_dict_data. apply wp_bind. eapply wp_mono; [apply Host.managed_ips_total| |done].
  intros ips _. apply wp_bind. by eapply wp_mono; [apply Host.managed_routes_total|..].
Qed.

Lemma tun_action_total a st : safe (Daemon.handle_tun_action create local_zt_address a st) (fun _ => True).
Proof.
  destruct st as [tuns out]. destruct a; try done; unfold Daemon.handle_tun_action; try (by case_match).
  case_match; [done|]. apply wp_bind. eapply wp_mono; [apply Host.mtu_total| |done]. intros mtu _. cbv zeta.
  case_match; [|done]. apply wp_bind. by eapply wp_mono; [apply configure_total|..].
Qed.

Lemma tun_actions_total actions tuns : safe (Daemon.handle_tun_actions create local_zt_address actions tuns) (fun _ => True).
Proof.
  unfold Daemon.handle_tun_actions. apply (wp_for_each (fun _ => True)); [|done..]. intros a st _ _. apply tun_action_total.
Qed.
End Interfaces.

Section DaemonInv.
Context {P : Prims} {L : PrimLaws P} {Z4 : Lz4} {T : Target} {S Er : Type} `{StorageLaws S Er}.

(** ** The controller's part *)

(** The controller of a node: its address, its key. *)
Definition signs (c : Controller) (n : Node) : Prop :=
  exists secret, id_secret (nd_identity n) = Some secret /\
    ctl_address c = NodeOps.our_address n /\ ctl_signing_key c = sk_signing secret.

Lemma signs_identity c n n' : nd_identity n' = nd_identity n -> signs c n -> signs c n'.
Proof. intros Hi (secret & ? & ? & ?). exists secret. unfold NodeOps.our_address in *. by rewrite Hi. Qed.

Lemma signs_key c n : NodeInv.node_ok n -> signs c n -> len (ctl_signing_key c) = 32 /\ len (ctl_address c) = 5.
Proof.
  intros Hn (secret & Hs & -> & ->). split; [|exact (NodeInv.our_address_len n Hn)].
  pose proof (NodeInv.ty_secret _ (NodeInv.nk_typed _ Hn)) as Ht. by rewrite Hs in Ht.
Qed.

(** A request that this store answers with credentials too long for their buffer. *)
Definition overrun (c : Controller) (now_ms : Z) (a : NodeAction) (s : S) : Prop :=
  exists dest nid metadata from rpid s' resp, a = NetworkConfigRequested dest nid metadata from rpid /\
    Engine.handle_config_request c nid dest now_ms s = (s', Ok resp) /\
    512 < len (CredP.encode (cr_credentials resp)).

(** The first of these requests that is, the stores threaded through. *)
Fixpoint requests_overrun (c : Controller) (now_ms : Z) (actions : list NodeAction) (n : Node) (s : S) : Prop :=
  match actions with
  | [] => False
  | a :: actions => overrun c now_ms a s \/
      exists n' s', Service.handle_controller_action c now_ms a (n, s) = Ok (n', s') /\ requests_overrun c now_ms actions n' s'
  end.

Lemma respond_runs n dest nid from rpid resp secret : NodeInv.node_ok n -> len dest = 5 -> u64_ok rpid ->
  id_secret (nd_identity n) = Some secret -> CredP.com_opt Com.shape (cr_credentials resp) ->
  0 < len (NetConfP.dict_data (cr_config resp)) ->
  NodeTotal.runs (512 < len (CredP.encode (cr_credentials resp))) (Service.respond n dest nid from rpid resp) (NodeInv.keeps n).
Proof.
  intros Hn Hd Hr Hsec Hc Hpos.
  assert (len (sk_signing secret) = 32) as Hk by (pose proof (NodeInv.ty_secret _ (NodeInv.nk_typed _ Hn)) as Hty; by rewrite Hsec in Hty).
  destruct (decide (len (NetConfP.dict_data (cr_config resp)) <= U32_MAX)) as [Hl|Hl].
  - pose proof (Answers.respond_spec n dest nid from rpid resp secret Hn Hd Hr Hsec Hk Hc (conj Hpos Hl)) as Hs.
    destruct (NodeOps.shared_secret_for_peer n dest) as [ss|]; [|by apply NodeTotal.runs_safe].
    destruct (Z.leb_spec (len (CredP.encode (cr_credentials resp))) 512) as [|Ho]; [|by rewrite Hs].
    destruct Hs as (n' & -> & Ha & _). exact Ha.
  - unfold Service.respond. set (n0 := match CredP.com _ with Some com => _ | None => n end).
    assert (NodeInv.keeps n n0) as Hk0 by (unfold n0; case_match; [by apply NodeInv.keeps_update_network|by apply NodeInv.keeps_refl]).
    case_match; [|exact Hk0]. unfold Service.build_network_config_response_packets. rewrite if_true by lia. exact Hk0.
Qed.

(** What a request leaves: the node and the store as sound as they were. *)
Definition served (n : Node) (x : Node * S) : Prop := NodeInv.keeps n x.1 /\ Engine.store_ok x.2.

Lemma controller_action_runs c now a n s : NodeInv.node_ok n -> signs c n -> Engine.store_ok s -> action_ok a -> u64_ok now ->
  NodeTotal.runs (overrun c now a s) (Service.handle_controller_action c now a (n, s)) (served n).
Proof.
  intros Hn Hc Hs Ha Hnow. assert (served n (n, s)) as Hsame by (by split; [apply NodeInv.keeps_refl|]).
  destruct a as [| | | | | |dest nid metadata from rpid| | |]; try exact Hsame. destruct Ha as (Hd & Hnid & _ & Hr).
  destruct (signs_key c n Hn Hc) as [Hk Hca]. unfold Service.handle_controller_action.
  pose proof (Engine.request_store_ok c nid dest now s Hk Hca Hd Hnid Hnow Hs) as Hreq.
  destruct (Engine.handle_config_request c nid dest now s) as [s' r] eqn:Ereq. destruct Hreq as [Hs' Hout].
  destruct r as [resp|e| |]; [|by split; [apply NodeInv.keeps_refl|]|done..]. cbn [attempt]. rewrite !rbind_ok.
  destruct Hout as (net & m & _ & _ & _ & _ & _ & _ & Hsays). destruct Hc as (secret & Hsec & _ & _).
  pose proof (respond_runs n dest nid from rpid resp secret Hn Hd Hr Hsec
    (Credentials.reply_com _ _ _ _ _ _ _ _ Hk Hca Hnid Hnow Hsays) (Credentials.reply_dict _ _ _ _ _ _ _ _ Hsays)) as Hrun.
  destruct (Service.respond n dest nid from rpid resp) as [n'|[]| |]; [by split| |done].
  by exists dest, nid, metadata, from, rpid, s', resp.
Qed.

Lemma controller_actions_run c now actions n s : NodeInv.node_ok n -> signs c n -> Engine.store_ok s ->
  Forall action_ok actions -> u64_ok now ->
  NodeTotal.runs (requests_overrun c now actions n s) (Service.handle_controller_actions actions c n s now) (served n).
Proof.
  intros Hn Hc Hs Ha Hnow. unfold Service.handle_controller_actions. revert n s Hn Hc Hs.
  induction Ha as [|a actions Ha _ IH]; intros n s Hn Hc Hs; cbn [for_each requests_overrun]; [by split; [apply NodeInv.keeps_refl|]|].
  pose proof (controller_action_runs c now a n s Hn Hc Hs Ha Hnow) as H1.
  destruct (Service.handle_controller_action c now a (n, s)) as [[n1 s1]|[]| |] eqn:E1; [|by left|done].
  destruct H1 as [Hk1 Hs1]. rewrite rbind_ok.
  pose proof (IH n1 s1 (proj1 Hk1) (signs_identity _ _ _ (proj1 (proj2 Hk1)) Hc) Hs1) as H2.
  destruct (for_each actions _ (n1, s1)) as [[n2 s2]|[]| |]; [|by right; exists n1, s1|done].
  destruct H2 as [Hk2 Hs2]. split; [exact (NodeInv.keeps_trans _ _ _ Hk1 Hk2)|exact Hs2].
Qed.

(** ** The loop's invariant *)

Context (create : bytes -> Z -> option bytes) (local_zt_address : bytes) (controller : option Controller).

Record daemon_ok (d : Daemon S) : Prop := {
  dk_node : NodeInv.node_ok (d_node d);
  dk_store : Engine.store_ok (d_store d);
  dk_controller : match controller with Some c => signs c (d_node d) | None => True end;
  dk_pending : Forall (fun held => Outbound.is_ip (pf_ethertype held)) (d_pending d);
  dk_limit : len (d_pending d) <= Service.PENDING_FRAME_LIMIT;
}.

(** What the operating system hands over is typed. *)
Definition event_ok (e : Event) : Prop :=
  match e with
  | UdpReceived _ from => sock_ok from
  | TickDue endpoints => Forall sock_ok endpoints
  | _ => True
  end.

Lemma daemon_moves d n s tuns pending last : daemon_ok d -> NodeInv.node_ok n -> nd_identity n = nd_identity (d_node d) ->
  Engine.store_ok s -> Forall (fun held => Outbound.is_ip (pf_ethertype held)) pending ->
  len pending <= Service.PENDING_FRAME_LIMIT -> daemon_ok (mkDaemon n s tuns pending last).
Proof.
  intros [_ _ Hc _ _] Hn Hi Hs Hp Hl. split; try done. cbn. destruct controller; [|done]. by eapply signs_identity.
Qed.

Lemma drain_whois_total n sets now : NodeInv.node_ok n -> Forall (Forall action_ok) sets ->
  safe (Service.drain_whois_actions_from_sets n sets now) (Forall action_ok).
Proof. intros Hn Hs. by destruct (Outbound.drain_whois_spec n sets now Hn Hs) as (l & -> & _ & ?). Qed.

(** What a datagram can panic on: the answer to an ECHO or a WHOIS, its own or of a packet it
    completes or releases, or credentials, too long for their buffer. *)
Definition udp_panics (d : Daemon S) (data : bytes) (from : SocketAddr) (now_ms : Z) : Prop :=
  NodeTotal.answer_overruns (d_node d) data from now_ms \/
  exists c actions n, controller = Some c /\ Daemon.receive (d_node d) data from now_ms = Ok (actions, n) /\
    requests_overrun c now_ms actions n (d_store d).

Lemma on_udp_runs d data from now : daemon_ok d -> sock_ok from -> u64_ok now ->
  NodeTotal.runs (udp_panics d data from now) (Daemon.on_udp create local_zt_address controller d data from now)
    (fun x => daemon_ok x.1).
Proof.
  intros Hd Hf Hnow. unfold Daemon.on_udp.
  pose proof (NodeTotal.receive_packet_exact (Datatypes.S (NodeTotal.weight (d_node d) + length data)) (d_node d) data from now
    (dk_node _ Hd) Hf Hnow ltac:(lia)) as Hrec. fold (Daemon.receive (d_node d) data from now) in Hrec.
  destruct (Daemon.receive (d_node d) data from now) as [[actions n]|[]| |] eqn:Erec; [|by left|done].
  destruct Hrec as [[(Hn & Hi & _) Ha] _]. cbn [fst snd] in Hn, Hi, Ha. rewrite rbind_ok.
  assert (NodeTotal.runs (udp_panics d data from now)
    (match controller with Some ctrl => Service.handle_controller_actions actions ctrl n (d_store d) now | None => Ok (n, d_store d) end)
    (served n)) as Hctl.
  { pose proof (dk_controller _ Hd) as Hc. pose proof (dk_store _ Hd) as Hst. unfold udp_panics. destruct controller as [c|]; [|by split; [apply NodeInv.keeps_refl|]].
    pose proof (controller_actions_run c now actions n (d_store d) Hn (signs_identity _ _ _ Hi Hc) Hst Ha Hnow) as Hrun.
    destruct (Service.handle_controller_actions _ _ _ _ _) as [x|[]| |]; [exact Hrun| |exact Hrun].
    right. by exists c, actions, n. }
  eapply NodeTotal.runs_bind; [exact Hctl|]. intros [n1 s1] [Hk1 Hs1]. cbn [fst snd] in Hk1, Hs1. cbn [NodeOps.drain_actions].
  assert (NodeInv.keeps n1 (with_actions n1 [])) as Hk2 by (apply NodeInv.keeps_actions; [apply Hk1|constructor]).
  apply NodeTotal.runs_safe, wp_bind. eapply wp_mono; [apply drain_whois_total; [apply Hk2|]| |done].
  { repeat (apply Forall_cons; split); [done|apply NodeInv.actions_ok, Hk1|apply Forall_nil_2]. }
  intros whois _. apply wp_bind. eapply wp_mono; [apply tun_actions_total| |done]. intros [t1 out1] _.
  apply wp_bind. eapply wp_mono; [apply tun_actions_total| |done]. intros [t2 out2] _.
  apply (daemon_moves d); [exact Hd|apply Hk2| |exact Hs1|apply Hd|apply Hd].
  transitivity (nd_identity n1); [done|]. by rewrite (proj1 (proj2 Hk1)).
Qed.

Lemma local_addresses_ok n endpoints : NodeInv.node_ok n -> Forall sock_ok endpoints ->
  NodeInv.keeps n (NodeTick.set_local_addresses n endpoints).
Proof.
  intros [? ? ? ? ? ? ? ? []] He. split; [|done]. split; try done. split; try done. cbn. split.
  - apply Forall_take, Forall_forall. intros a Ha.
    rewrite dedup_elem, merge_sort_Permutation in Ha. by apply (proj1 (Forall_forall _ _) He).
  - rewrite len_take. unfold MAX_LOCAL_ADDRESSES. lia.
Qed.

Lemma on_tick_runs d endpoints now : daemon_ok d -> Forall sock_ok endpoints -> u64_ok now ->
  safe (Daemon.on_tick create local_zt_address d endpoints now) (fun x => daemon_ok x.1).
Proof.
  intros Hd He Hnow. unfold Daemon.on_tick. set (n := NodeTick.set_local_addresses _ _).
  assert (NodeInv.keeps (d_node d) n) as Hk by (apply local_addresses_ok; [apply Hd|done]).
  destruct (NodeUpkeep.tick_spec n now (proj1 Hk) Hnow) as (n1 & -> & H1 & _). cbn [NodeOps.drain_actions]. rewrite rbind_ok.
  pose proof (NodeUpkeep.up_ok _ _ H1) as Hn1. pose proof (NodeInv.actions_ok _ Hn1) as Ha.
  assert (NodeInv.keeps n1 (with_actions n1 [])) as Hk2 by (apply NodeInv.keeps_actions; [done|constructor]).
  apply wp_bind. eapply wp_mono; [apply drain_whois_total; [apply Hk2|by apply Forall_singleton]| |done]. intros whois _.
  apply wp_bind. eapply wp_mono; [apply tun_actions_total| |done]. intros [t1 out1] _.
  apply (daemon_moves d); [exact Hd|apply Hk2| |apply Hd..].
  transitivity (nd_identity n1); [done|]. rewrite (NodeUpkeep.up_identity _ _ H1), NodeUpkeep.at_tick_identity. apply Hk.
Qed.

Lemma ethertype_of_ip frame ethertype : Daemon.ethertype_of frame = Some ethertype -> Outbound.is_ip ethertype.
Proof.
  unfold Daemon.ethertype_of, Outbound.is_ip. destruct frame as [|b l]; [done|].
  case_match; [intros [= <-]; by left|]. case_match; [|done]. intros [= <-]. by right.
Qed.

Lemma queue_limit pending frame : len pending <= Service.PENDING_FRAME_LIMIT ->
  len (Service.queue_pending_frame pending frame) <= Service.PENDING_FRAME_LIMIT.
Proof.
  unfold Service.queue_pending_frame, Service.PENDING_FRAME_LIMIT. intros Hl. rewrite len_app.
  destruct (64 <=? len pending) eqn:E; rewrite ?len_drop; len_lia.
Qed.

Lemma outbound_runs n nid ethertype payload now : NodeInv.node_ok n -> Outbound.is_ip ethertype ->
  safe (Vl2.process_outbound_frame n nid ethertype payload (NodeOps.our_address n) now)
    (fun x => NodeInv.keeps n x.1 /\ Forall action_ok x.2).
Proof.
  intros Hn Hip. destruct (Outbound.outbound_outcome n nid ethertype payload now Hn Hip) as (n' & actions & -> & Hout). cbn.
  destruct (NodeOps.find_network n nid) as [net|] eqn:Ef.
  - apply find_Some in Ef as [Hin _]. by destruct (Outbound.outcome_keeps _ _ _ _ _ _ _ Hn Hin Hout) as (? & _ & ?).
  - destruct Hout as [-> ->]. by split; [apply NodeInv.keeps_refl|].
Qed.

Lemma on_tun_read_runs d nid frame now : daemon_ok d ->
  safe (Daemon.on_tun_read d nid frame now) (fun x => daemon_ok x.1).
Proof.
  intros Hd. unfold Daemon.on_tun_read. destruct (Daemon.ethertype_of frame) as [ethertype|] eqn:Ee; [|done].
  apply ethertype_of_ip in Ee. apply wp_bind. eapply wp_mono; [by apply outbound_runs; [apply Hd|]| |done].
  intros [n actions] [Hk Ha]. cbn [fst snd] in Hk, Ha. apply wp_bind.
  eapply wp_mono; [apply drain_whois_total; [apply Hk|by apply Forall_singleton]| |done]. intros whois _. cbv zeta.
  destruct (_ && _)%bool; apply (daemon_moves d); try apply Hk; try apply Hd.
  - unfold Service.queue_pending_frame. apply Forall_app. split; [case_match; [apply Forall_drop|]; apply Hd|by apply Forall_singleton].
  - apply queue_limit, Hd.
Qed.

Lemma on_config_flush_runs d now : daemon_ok d ->
  safe (Daemon.on_config_flush d now) (fun x => daemon_ok x.1).
Proof.
  intros Hd. unfold Daemon.on_config_flush, NodeTick.flush_config_requests. cbv zeta. set (n0 := with_actions (d_node d) []).
  assert (NodeInv.node_ok n0) as Hn0 by (apply (NodeInv.keeps_actions (d_node d)); [apply Hd|constructor]).
  destruct (step_ok _ _ (NodeUpkeep.queue_requests_spec n0 now Hn0)) as (n1 & -> & H1 & _). rewrite !rbind_ok.
  pose proof (NodeUpkeep.up_ok _ _ H1) as Hn1. set (n2 := with_actions n1 _).
  assert (NodeInv.node_ok n2) as Hn2 by (apply (NodeInv.keeps_actions n1); [done|apply NodeInv.actions_ok, Hd]).
  apply wp_bind. eapply wp_mono; [apply drain_whois_total; [exact Hn2|apply Forall_singleton, NodeInv.actions_ok, Hn1]| |done].
  intros whois _. apply (daemon_moves d); [exact Hd|exact Hn2| |apply Hd..].
  transitivity (nd_identity n1); [done|]. by rewrite (NodeUpkeep.up_identity _ _ H1).
Qed.

Lemma on_pending_retry_runs d now : daemon_ok d ->
  safe (Daemon.on_pending_retry d now) (fun x => daemon_ok x.1).
Proof.
  intros Hd. unfold Daemon.on_pending_retry. pose proof (dk_pending _ Hd) as Hp. pose proof (dk_limit _ Hd) as Hl.
  destruct (d_pending d) as [|held pending] eqn:Epd; [exact Hd|]. cbv zeta. unfold Service.retry_pending_frames.
  destruct (Outbound.retry_each_spec now (held :: pending) (d_node d) (dk_node _ Hd) Hp)
    as (n & sends & needed & kept & -> & Hk & _ & _ & Ha & Hkept & _). rewrite rbind_ok.
  assert (Forall (fun held => Outbound.is_ip (pf_ethertype held)) kept) as Hpk by (rewrite Hkept; apply Forall_forall; intros x [_ Hx]%list_elem_of_filter; by apply (proj1 (Forall_forall _ _) Hp)).
  assert (len kept <= Service.PENDING_FRAME_LIMIT) as Hlk.
  { rewrite Hkept. pose proof (length_filter (fun held => Outbound.stays (d_node d) now held = true) (held :: pending)).
    unfold len in *. lia. }
  apply wp_bind, wp_bind. eapply (wp_mono _ (fun _ => True)); [|intros whois _|done].
  { case_match; [|done]. eapply wp_mono; [apply drain_whois_total; [apply Hk|by apply Forall_singleton]|done..]. }
  apply (daemon_moves d); try done; [apply Hk..|apply Hd].
Qed.

Lemma turn_runs d e now : daemon_ok d -> event_ok e -> u64_ok now ->
  NodeTotal.runs (exists data from, e = UdpReceived data from /\ udp_panics d data from now)
    (Daemon.turn create local_zt_address controller d e now) (fun x => daemon_ok x.1).
Proof.
  intros Hd He Hnow. destruct e as [data from| |endpoints|nid frame| |]; cbn [Daemon.turn].
  - pose proof (on_udp_runs d data from now Hd He Hnow) as Hr. destruct (Daemon.on_udp _ _ _ _ _ _ _); [exact Hr|done| |done].
    by exists data, from.
  - exact Hd.
  - by apply NodeTotal.runs_safe, on_tick_runs.
  - by apply NodeTotal.runs_safe, on_tun_read_runs.
  - by apply NodeTotal.runs_safe, on_config_flush_runs.
  - by apply NodeTotal.runs_safe, on_pending_retry_runs.
Qed.

(** ** From the start *)

Lemma join_keeps n nid : NodeInv.node_ok n -> u64_ok nid ->
  NodeInv.keeps n (NodeOps.join_network n (Network.new nid Daemon.DEFAULT_NETWORK_MTU)).
Proof.
  intros Hn Hid. unfold NodeOps.join_network. case_match; [by apply NodeInv.keeps_refl|]. cbv zeta.
  set (n1 := with_multicast n _). assert (NodeInv.keeps n n1) as Hk.
  { apply NodeInv.keeps_multicast; [done|]. apply NodeInv.subscribe_multicast; [by apply NodeInv.node_multicast| |exact (NodeInv.our_address_len n Hn)].
    by split_and!. }
  eapply NodeInv.keeps_trans; [exact Hk|]. apply NodeInv.keeps_networks; [apply Hk|]. apply Forall_app. split.
  - apply (NodeInv.ty_networks _ (NodeInv.nk_typed _ (proj1 Hk))).
  - apply Forall_singleton. split; [done|constructor].
Qed.

Lemma joins_keep networks n : NodeInv.node_ok n -> Forall u64_ok networks ->
  NodeInv.keeps n (fold_left (fun n id => NodeOps.join_network n (Network.new id Daemon.DEFAULT_NETWORK_MTU)) networks n).
Proof.
  intros Hn Hids. revert n Hn. induction Hids as [|nid networks Hid _ IH]; intros n Hn; [by apply NodeInv.keeps_refl|].
  cbn [fold_left]. pose proof (join_keeps n nid Hn Hid) as Hk. exact (NodeInv.keeps_trans _ _ _ Hk (IH _ (proj1 Hk))).
Qed.

(** A moon file whose signed portion is larger than the buffer of the check. *)
Definition oversized (moon : World) : Prop := 4096 < len (WorldP.encode_signed moon).

Lemma moon_keeps n moon : NodeInv.node_ok n -> WorldP.wf moon ->
  NodeTotal.runs (oversized moon) (Daemon.load_moon_or_skip moon n) (NodeInv.keeps n).
Proof.
  intros Hn Hm. pose proof Hm as (_ & _ & _ & _ & Hr & _). unfold Daemon.load_moon_or_skip.
  pose proof (fun t => TopoFacts.load_moon_ok (nd_topology n) moon t (NodeInv.nk_topology _ Hn)) as Hload.
  unfold Topo.load_moon in *. rewrite (WorldP.signature_check moon (WorldP.world_wf_shape _ Hm)) in *. cbv zeta in *.
  destruct (negb _); [by apply NodeInv.keeps_refl|]. destruct (Z.leb_spec (len (WorldP.encode_signed moon)) 4096); [|done].
  unfold verify in *. cbv zeta in *. destruct (negb _); [by apply NodeInv.keeps_refl|].
  destruct (ed25519_verify _ _ _); [|by apply NodeInv.keeps_refl]. cbn in *. specialize (Hload _ eq_refl).
  apply NodeInv.keeps_topology; [done|exact Hload|..]; cbn.
  - by apply NodeTotal.add_roots_paths; [|apply Hn].
  - by apply NodeTotal.add_roots_keys; [|apply Hn].
  - by apply TopoFacts.add_roots_extends.
Qed.

Lemma moons_keep moons n : NodeInv.node_ok n -> Forall WorldP.wf moons ->
  NodeTotal.runs (Exists oversized moons) (for_each moons Daemon.load_moon_or_skip n) (NodeInv.keeps n).
Proof.
  intros Hn Hw. revert n Hn. induction Hw as [|moon moons Hm _ IH]; intros n Hn; [by apply NodeInv.keeps_refl|].
  cbn [for_each]. pose proof (moon_keeps n moon Hn Hm) as Hk.
  destruct (Daemon.load_moon_or_skip moon n) as [n1|[]| |]; [|by apply Exists_cons_hd|done]. rewrite rbind_ok.
  pose proof (IH n1 (proj1 Hk)) as Hk2. destruct (for_each _ _ _) as [n2|[]| |]; [|by apply Exists_cons_tl|done].
  exact (NodeInv.keeps_trans _ _ _ Hk Hk2).
Qed.

(** What the daemon starts from: an identity, moons and networks as their parsers give them, a
    good store, and a controller that is the node's own. *)
Record boot_ok (identity : Identity) (moons : list World) (networks : list Z) (store : S) : Prop := {
  bo_identity : Ident.public_wf (Root.public_only identity);
  bo_secret : NodeTotal.secret_ok identity;
  bo_moons : Forall WorldP.wf moons;
  bo_networks : Forall u64_ok networks;
  bo_store : Engine.store_ok store;
  bo_controller : match controller with
                  | Some c => exists secret, id_secret identity = Some secret /\
                      ctl_address c = id_address identity /\ ctl_signing_key c = sk_signing secret
                  | None => True
                  end;
}.

(** The node set up is good, the node's own, and has sent nothing. *)
Lemma wf_starts id : Ident.wf id -> Ident.public_wf (Root.public_only id) /\ NodeTotal.secret_ok id.
Proof.
  intros (Ha & Hd & Hs & Hk). split; [by split|]. unfold NodeTotal.secret_ok. destruct (id_secret id); [apply Hk|done].
Qed.

Lemma setup_runs identity planet seed moons networks :
  Ident.public_wf (Root.public_only identity) -> NodeTotal.secret_ok identity -> Forall WorldP.wf moons -> Forall u64_ok networks ->
  NodeTotal.runs (Exists oversized moons) (Daemon.setup identity planet seed moons networks)
    (fun r => match r with
              | Some n => NodeInv.node_ok n /\ nd_identity n = identity
              | None => exists e, WorldP.deserialize planet = Err e
              end).
Proof.
  intros Hid Hsec Hm Hnets. unfold Daemon.setup. cbv zeta. set (id0 := Z.land _ _).
  destruct (NodeOps.new identity planet id0) as [n|e| |] eqn:En; cbn [attempt]; rewrite ?rbind_ok.
  2: { unfold NodeOps.new in En. destruct (WorldP.deserialize planet) as [|e'| |]; try done. by exists e'. }
  2-3: unfold NodeOps.new in En; pose proof (WorldP.world_deserialize_total planet) as Ht; by destruct (WorldP.deserialize planet).
  assert (nd_identity n = identity) as Hi by (revert En; unfold NodeOps.new; destruct (WorldP.deserialize planet); cbn; by intros [= <-]).
  pose proof (NodeTotal.new_node_ok _ _ _ _ Hid Hsec En) as Hn.
  eapply NodeTotal.runs_bind; [exact (moons_keep moons n Hn Hm)|]. intros n1 Hk1. cbn.
  pose proof (joins_keep networks n1 (proj1 Hk1) Hnets) as Hk2. pose proof (NodeInv.keeps_trans _ _ _ Hk1 Hk2) as Hk.
  split; [apply Hk|]. by rewrite (proj1 (proj2 Hk)).
Qed.

Lemma hellos_run n store now : NodeInv.node_ok n -> Engine.store_ok store -> u64_ok now ->
  match controller with Some c => signs c n | None => True end ->
  safe (Daemon.first_hellos n store now) (fun x => daemon_ok x.1 /\ nd_identity (d_node x.1) = nd_identity n).
Proof.
  intros Hn Hst Hnow Hc. unfold Daemon.first_hellos.
  destruct (NodeUpkeep.bootstrap_run n now Hn Hnow) as (actions & n3 & -> & Ha & Hk3 & _). rewrite rbind_ok.
  apply wp_bind. eapply wp_mono; [apply drain_whois_total; [apply Hk3|by apply Forall_singleton]| |done].
  intros whois _. cbn. assert (nd_identity n3 = nd_identity n) as Hi3 by apply Hk3. split; [|exact Hi3].
  split; cbn; [apply Hk3|exact Hst| |constructor|done].
  destruct controller; [|done]. unfold signs, NodeOps.our_address in *. by rewrite Hi3.
Qed.

Lemma start_runs identity planet seed moons networks store now : boot_ok identity moons networks store -> u64_ok now ->
  NodeTotal.runs (Exists oversized moons) (Daemon.start identity planet seed moons networks store now)
    (fun r => match r with
              | Some (d, _) => daemon_ok d
              | None => exists e, WorldP.deserialize planet = Err e
              end).
Proof.
  intros [Hid Hsec Hm Hnets Hst Hc] Hnow. unfold Daemon.start.
  eapply NodeTotal.runs_bind; [by apply setup_runs|]. intros [n|]; [|done]. intros [Hn Hi].
  apply NodeTotal.runs_safe, wp_bind. eapply wp_mono; [apply hellos_run; [done..|]| |done].
  - destruct controller; [|done]. unfold signs, NodeOps.our_address. by rewrite Hi.
  - by intros [d out] [Hd _].
Qed.

(** The states the daemon can be in: set up, then one event after another, at any times. *)
Inductive reachable (identity : Identity) (planet seed : bytes) (moons : list World) (networks : list Z) (store : S)
    : Daemon S -> Prop :=
  | reach_start now d out : u64_ok now ->
      Daemon.start identity planet seed moons networks store now = Ok (Some (d, out)) ->
      reachable identity planet seed moons networks store d
  | reach_turn d e now d' out : reachable identity planet seed moons networks store d -> event_ok e -> u64_ok now ->
      Daemon.turn create local_zt_address controller d e now = Ok (d', out) ->
      reachable identity planet seed moons networks store d'.

Lemma daemon_reachable_ok identity planet seed moons networks store d : boot_ok identity moons networks store ->
  reachable identity planet seed moons networks store d -> daemon_ok d.
Proof.
  intros Hb. induction 1 as [now d out Hnow Hrun|d e now d' out _ IH He Hnow Hrun].
  - pose proof (start_runs identity planet seed moons networks store now Hb Hnow) as Hr. by rewrite Hrun in Hr.
  - pose proof (turn_runs d e now IH He Hnow) as Hr. by rewrite Hrun in Hr.
Qed.

(** C5. The daemon stays up. It starts unless its planet does not parse (or a moon file is larger
    than the buffer its signature is checked in); from then on, whatever the datagrams, the
    packets of the host and the timers, in whatever order and at whatever times, over any
    storage backend and however often it fails: the node's invariant, the good records of the
    controller and the bound of 64 held packets are kept, and every turn of the loop ends. A turn
    panics only on a datagram, and only if it is, completes or releases an ECHO of more than 2011
    bytes or a WHOIS that names more than 28 identities the node knows, or asks the controller for
    credentials of more than 512 bytes: no other packet, whatever its bytes, can. *)
Theorem daemon_survives (identity : Identity) (planet seed : bytes) (moons : list World) (networks : list Z) (store : S) :
  boot_ok identity moons networks store ->
  (forall now, u64_ok now ->
     NodeTotal.runs (Exists oversized moons) (Daemon.start identity planet seed moons networks store now)
       (fun r => r = None -> exists e, WorldP.deserialize planet = Err e)) /\
  forall d, reachable identity planet seed moons networks store d ->
    daemon_ok d /\
    forall e now, event_ok e -> u64_ok now ->
      NodeTotal.runs (exists data from, e = UdpReceived data from /\ udp_panics d data from now)
        (Daemon.turn create local_zt_address controller d e now) (fun x => daemon_ok x.1).
Proof.
  intros Hb. split.
  - intros now Hnow. eapply NodeTotal.runs_mono; [exact (start_runs identity planet seed moons networks store now Hb Hnow)|].
    by intros r Hr ->.
  - intros d Hd. apply (daemon_reachable_ok _ _ _ _ _ _ _ Hb) in Hd. split; [exact Hd|].
    intros e now He Hnow. by apply turn_runs.
Qed.

End DaemonInv.

(** ** A daemon with a controller, and a network to rejoin *)

Definition no_tun (name : bytes) (mtu : Z) : option bytes := None.

Lemma sample_boot_ok : boot_ok (S := InMemoryState) (Some Credentials.sample_signer) NodeTotal.sample_id [] [NodeUpkeep.sample_nid]
  (Credentials.tagged []).
Proof.
  split; [by split_and!|reflexivity|apply Forall_nil; exact I|apply Forall_singleton; by split|apply Credentials.tagged_ok, Forall_nil_2|].
  exists Credentials.sample_secret. split; [vm_compute; reflexivity|]. split; vm_compute; reflexivity.
Qed.

(** It starts, and takes a packet from the host. *)
Lemma daemon_survives_witness :
  exists d, reachable (P := Toy.prims) (Z4 := NodeTotal.stored_lz4) (T := NodeUpkeep.linux) (S := InMemoryState) no_tun []
      (Some Credentials.sample_signer) NodeTotal.sample_id (WorldP.encode WorldP.sample) (replicate 8 (b8 1)) []
      [NodeUpkeep.sample_nid] (Credentials.tagged []) d /\
    daemon_ok (P := Toy.prims) (S := InMemoryState) (Some Credentials.sample_signer) d.
Proof.
  destruct (daemon_survives (P := Toy.prims) (L := Toy.laws) (Z4 := NodeTotal.stored_lz4) (T := NodeUpkeep.linux) (S := InMemoryState) no_tun []
    (Some Credentials.sample_signer) NodeTotal.sample_id (WorldP.encode WorldP.sample) (replicate 8 (b8 1)) []
    [NodeUpkeep.sample_nid] (Credentials.tagged []) sample_boot_ok) as [Hstart Hall].
  specialize (Hstart 5 ltac:(by split)).
  destruct (Daemon.start _ _ _ _ _ _ 5) as [[[d out]|]| | |] eqn:E; [|exfalso|destruct Hstart|exfalso; exact (proj1 (Exists_nil _) Hstart)|destruct Hstart].
  - assert (reachable (P := Toy.prims) (Z4 := NodeTotal.stored_lz4) (T := NodeUpkeep.linux) (S := InMemoryState) no_tun []
      (Some Credentials.sample_signer) NodeTotal.sample_id (WorldP.encode WorldP.sample) (replicate 8 (b8 1)) []
      [NodeUpkeep.sample_nid] (Credentials.tagged []) d) as H0.
    { eapply reach_start; [|exact E]. by split. }
    destruct (Hall d H0) as [_ Hturn]. specialize (Hturn (TunRead NodeUpkeep.sample_nid (Outbound.sample_packet 2)) 6 I ltac:(by split)).
    destruct (Daemon.turn _ _ _ d _ 6) as [[d1 out1]| | |] eqn:Et; [|destruct Hturn| |destruct Hturn].
    + exists d1. split; [|exact Hturn]. eapply reach_turn; [exact H0| | |exact Et]; [exact I|by split].
    + destruct Hturn as (data & from & Hne & _). discriminate Hne.
  - destruct (Hstart eq_refl) as [e He]. vm_compute in He. discriminate He.
Defined.
End DaemonInv.
