(* ===== verification/Interfaces.v ===== *)
(** * Interfaces: what a member's interface is configured with (zerotier-service: service.rs,
    [handle_tun_actions]) from the configuration a controller builds for it (zerotier-node:
    controller/engine.rs, controller/config_builder.rs). *)
From S2P Require Export DaemonInv.

Module Interfaces.

(** ** Addresses as text *)

(** The address a text of the controller's records names, if it names one. *)
Definition inet_of (s : bytes) (port : Z) : InetAddress :=
  match Config.parse_ipv4 s with
  | Some o => V4 o port
  | None => match @Config.parse_ipv6 unit s with Ok (Some o) => V6 o port | _ => Null end
  end.

Lemma by_family_inet {E A} s port (v4 v6 : bytes -> res E A) (none : res E A) : Config.addr_ok s ->
  Config.by_family s v4 v6 none =
  match inet_of s port with V4 o _ => v4 o | V6 o _ => v6 o | Null => none end.
Proof.
  intros Ha. unfold Config.by_family, inet_of. destruct (Config.parse_ipv4 s) as [o|] eqn:E4; [done|].
  pose proof (@Config.parse_ipv6_safe unit s (Ha E4)) as Hs. destruct (@Config.parse_ipv6 unit s) as [o|[]| |] eqn:E6; try done.
  rewrite (Configured.parse_ipv6_any _ _ E6), rbind_ok. by destruct o.
Qed.

Lemma inet_of_wf s port : Config.addr_ok s -> u16_ok port -> Inet.wf (inet_of s port).
Proof.
  intros Ha Hp. unfold inet_of. destruct (Config.parse_ipv4 s) as [o|] eqn:E4; [split; [by eapply Config.parse_ipv4_len|done]|].
  pose proof (@Config.parse_ipv6_safe unit s (Ha E4)) as Hs. by destruct (@Config.parse_ipv6 unit s) as [[o|]| | |].
Qed.

Lemma inet_entry_encode s port : Inet.encode (inet_of s port) =
  match inet_of s port with V4 o p => Config.inet_entry 4 o port | V6 o p => Config.inet_entry 6 o port | Null => Config.null_via end.
Proof. unfold inet_of. destruct (Config.parse_ipv4 s); [done|]. by destruct (@Config.parse_ipv6 unit s) as [[]| | |]. Qed.

Definition present (l : list InetAddress) : list InetAddress := filter (fun a => a <> Null) l.

(** ** Assigned addresses *)

Definition assigned (s : bytes) : InetAddress :=
  match Config.parse_ip_prefix s with Some (ip, prefix) => inet_of ip prefix | None => Null end.

Lemma assigned_wf s : Config.assignment_ok s -> Inet.wf (assigned s).
Proof.
  intros [Ha _]. unfold assigned. destruct (Config.parse_ip_prefix s) as [[ip p]|] eqn:E; [|done].
  pose proof (Config.parse_ip_prefix_range _ _ _ E). apply Config.parse_ip_prefix_part in E as ->.
  apply inet_of_wf; [done|]. unfold u16_ok, U16_MAX. lia.
Qed.

Lemma assignments_bytes {E} ips : Forall Config.assignment_ok ips ->
  @Config.serialize_ip_assignments E ips = Ok (concat (map Inet.encode (present (map assigned ips)))).
Proof.
  intros Hi. unfold Config.serialize_ip_assignments. induction Hi as [|s ips [Ha _] _ IH]; [done|].
  cbn [Config.extend_all map]. rewrite IH. change (present (assigned s :: map assigned ips)) with
    (filter (fun a => a <> Null) (assigned s :: map assigned ips)). unfold assigned at 2.
  destruct (Config.parse_ip_prefix s) as [[ip p]|] eqn:E1; [|rewrite filter_cons_False; [done|by intros []]].
  apply Config.parse_ip_prefix_part in E1 as ->. set (t := Config.address_part s) in *.
  unfold Config.serialize_inet_address. rewrite (by_family_inet t p _ _ _ Ha). pose proof (inet_entry_encode t p) as Hen.
  destruct (inet_of t p) eqn:Ei; rewrite rbind_ok, ?rbind_ok;
    [rewrite filter_cons_False; [done|by intros []]|rewrite filter_cons_True by done; cbn [map concat]; by rewrite Hen..].
Qed.

(** ** Routes *)

Definition route_of (r : ManagedRoute) : option (InetAddress * InetAddress) :=
  match Config.parse_ip_prefix (mr_target r) with
  | None => None
  | Some (target, prefix) =>
      match inet_of target prefix with
      | Null => None
      | a => Some (a, match mr_via r with Some via => inet_of via 0 | None => Null end)
      end
  end.

(** The subnet of an assignment, without a gateway. *)
Definition subnet_of (s : bytes) : option (InetAddress * InetAddress) :=
  match assigned s with
  | Null => None
  | V4 o prefix => Some (V4 (match @Config.apply_ipv4_mask unit o prefix with Ok r => r | _ => o end) prefix, Null)
  | V6 o prefix => Some (V6 (Config.apply_ipv6_mask o prefix) prefix, Null)
  end.

Definition entries (routes : list ManagedRoute) (ips : list bytes) : list (InetAddress * InetAddress) :=
  omap route_of routes ++ omap subnet_of ips.

Definition entry_bytes (e : InetAddress * InetAddress) : bytes :=
  Inet.encode e.1 ++ Inet.encode e.2 ++ Config.flags_metric.

Lemma via_bytes {E} via : match via with Some v => Config.addr_ok v | None => True end ->
  @Config.serialize_via E via = Ok (Inet.encode (match via with Some v => inet_of v 0 | None => Null end)).
Proof.
  destruct via as [v|]; [|done]. intros Hv. unfold Config.serialize_via. rewrite (by_family_inet v 0 _ _ _ Hv).
  rewrite inet_entry_encode. by destruct (inet_of v 0).
Qed.

(** A writer that appends an entry for the items that have one. *)
Lemma extend_entries {E A} (f : A -> res E bytes) (g : A -> option (InetAddress * InetAddress)) (Q : A -> Prop) l :
  (forall x, Q x -> f x = Ok (match g x with Some e => entry_bytes e | None => [] end)) -> Forall Q l ->
  Config.extend_all f l = Ok (concat (map entry_bytes (omap g l))).
Proof.
  intros Hf. induction 1 as [|x l Hx _ IH]; [done|]. cbn [Config.extend_all]. rewrite IH, (Hf x Hx), !rbind_ok.
  cbn. by destruct (g x).
Qed.

Lemma managed_bytes {E} r : Config.route_ok r ->
  @Config.serialize_managed_route E r = Ok (match route_of r with Some e => entry_bytes e | None => [] end).
Proof.
  intros Hr. unfold Config.serialize_managed_route, Config.route_ok, route_of in *.
  destruct (Config.parse_ip_prefix (mr_target r)) as [[t p]|]; [|done]. destruct Hr as [Ht Hv].
  rewrite (by_family_inet t p _ _ _ Ht), (via_bytes _ Hv). pose proof (inet_entry_encode t p) as Hen.
  by destruct (inet_of t p) eqn:Ei; rewrite ?rbind_ok; unfold entry_bytes; cbn [fst snd]; rewrite ?Hen.
Qed.

Lemma subnet_bytes {E} s : Config.assignment_ok s ->
  @Config.serialize_route_from_ip E s = Ok (match subnet_of s with Some e => entry_bytes e | None => [] end).
Proof.
  intros [Ha Hp]. unfold Config.serialize_route_from_ip, subnet_of, assigned.
  destruct (Config.parse_ip_prefix s) as [[t p]|] eqn:E1; [|done].
  pose proof (Config.parse_ip_prefix_range _ _ _ E1) as Hr. apply Config.parse_ip_prefix_part in E1 as ->.
  set (t := Config.address_part s) in *. rewrite (by_family_inet t p _ _ _ Ha). unfold inet_of in *.
  destruct (Config.parse_ipv4 t) as [o|] eqn:E4.
  - destruct (@Config.ipv4_mask E o p (Config.parse_ipv4_len _ _ E4)) as (r & Hm & _); [split; [lia|by apply Hp]|].
    assert (@Config.apply_ipv4_mask unit o p = Ok r) as ->; [|by rewrite Hm].
    revert Hm. unfold Config.apply_ipv4_mask. destruct (p =? 0); [by intros [= <-]|]. destruct (32 <? p); [done|]. by intros [= <-].
  - by destruct (@Config.parse_ipv6 unit t) as [[o|]| | |].
Qed.

Lemma routes_bytes {E} routes ips : Forall Config.route_ok routes -> Forall Config.assignment_ok ips ->
  @Config.serialize_routes E routes ips = Ok (concat (map entry_bytes (entries routes ips))).
Proof.
  intros Hr Hi. unfold Config.serialize_routes, Config.serialize_routes_from_ips, entries.
  rewrite (extend_entries _ _ _ _ managed_bytes Hr), rbind_ok, (extend_entries _ _ _ _ subnet_bytes Hi), rbind_ok.
  by rewrite map_app, concat_app.
Qed.

(** ** Reading them back *)

Lemma read_ips_encode fuel l pre : Forall Inet.wf l -> (length (concat (map Inet.encode l)) <= fuel)%nat ->
  Host.read_ips fuel (pre ++ concat (map Inet.encode l)) (len pre) = Ok (omap Host.with_prefix l).
Proof.
  intros Hw. revert fuel pre. induction Hw as [|a l Ha _ IH]; intros fuel pre Hf.
  { destruct fuel; cbn; rewrite app_nil_r, if_false by lia; done. }
  pose proof (Inet.encode_len a Ha) as Hl. pose proof (len_nonneg (concat (map Inet.encode l))).
  cbn [map concat] in Hf |- *. rewrite length_app in Hf. destruct fuel as [|fuel]; [unfold len in *; lia|]. cbn [Host.read_ips].
  rewrite if_true by len_lia. rewrite slice_from_skip, slice_from_here, rbind_ok by len_lia.
  rewrite Inet.inet_deserialize_encode by done. cbn [attempt]. rewrite !rbind_ok.
  specialize (IH fuel (pre ++ Inet.encode a)). rewrite <- app_assoc, len_app in IH. rewrite IH by (unfold len in *; lia).
  rewrite rbind_ok. cbn. by destruct (Host.with_prefix a).
Qed.

(** The reader of routes only looks ahead. *)
Lemma read_routes_skip fuel pre data pos : 0 <= pos ->
  Host.read_routes fuel (pre ++ data) (len pre + pos) = Host.read_routes fuel data pos.
Proof.
  pose proof (len_nonneg pre). revert pos. induction fuel as [|fuel IH]; intros pos Hp; cbn [Host.read_routes].
  { rewrite len_app. by replace (len pre + pos <? len pre + len data) with (pos <? len data) by lia. }
  rewrite len_app. replace (len pre + pos <? len pre + len data) with (pos <? len data) by lia.
  destruct (pos <? len data) eqn:E; [|done]. rewrite slice_from_skip by lia. replace (len pre + pos - len pre) with pos by lia.
  rewrite slice_from_ok by lia. rewrite !rbind_ok. set (rest := drop (Z.to_nat pos) data). assert (len rest = len data - pos) as Hlr by (unfold rest; rewrite len_drop; lia).
  pose proof (Inet.inet_deserialize_total rest) as Ht. destruct (Inet.deserialize rest) as [[a n]| | |]; [|done..]. cbn [attempt].
  rewrite !rbind_ok. cbv zeta. destruct Ht as [_ Hn].
  rewrite slice_from_skip by lia. replace (len pre + pos + n - len pre) with (pos + n) by lia.
  destruct (slice_from data (pos + n)) as [rest2| | |]; [|done..]. rewrite !rbind_ok.
  pose proof (Inet.inet_deserialize_total rest2) as Ht2. destruct (Inet.deserialize rest2) as [[v k]| | |]; [|done..]. cbn [attempt].
  rewrite !rbind_ok. cbv zeta. destruct Ht2 as [_ Hk].
  replace (len pre + len data <? len pre + pos + n + k + 2) with (len data <? pos + n + k + 2) by lia.
  destruct (len data <? pos + n + k + 2); [done|]. rewrite <- !Z.add_assoc, (Z.add_assoc pos), (Z.add_assoc (pos + n)).
  by rewrite IH by lia.
Qed.

(** More fuel than bytes changes nothing. *)
Lemma read_routes_fuel f1 f2 data pos : 0 <= pos -> len data <= pos + Z.of_nat f1 -> len data <= pos + Z.of_nat f2 ->
  Host.read_routes f1 data pos = Host.read_routes f2 data pos.
Proof.
  revert f2 pos. induction f1 as [|f1 IH]; intros [|f2] pos Hp H1 H2; cbn [Host.read_routes]; [done|by rewrite !if_false by lia..|].
  destruct (pos <? len data) eqn:E; [|done]. destruct (slice_from data pos) as [rest| | |]; [|done..]. rewrite !rbind_ok.
  pose proof (Inet.inet_deserialize_total rest) as Ht. destruct (Inet.deserialize rest) as [[a n]| | |]; [|done..]. cbn [attempt].
  rewrite !rbind_ok. cbv zeta. destruct Ht as [_ Hn]. destruct (slice_from data (pos + n)) as [rest2| | |]; [|done..]. rewrite !rbind_ok.
  pose proof (Inet.inet_deserialize_total rest2) as Ht2. destruct (Inet.deserialize rest2) as [[v k]| | |]; [|done..]. cbn [attempt].
  rewrite !rbind_ok. cbv zeta. destruct Ht2 as [_ Hk]. destruct (len data <? pos + n + k + 2); [done|].
  by rewrite (IH f2) by lia.
Qed.

Definition read_all (data : bytes) : step (list (bytes * option IpAddr)) := Host.read_routes (length data) data 0.

Lemma read_all_fuel fuel data : len data <= Z.of_nat fuel -> Host.read_routes fuel data 0 = read_all data.
Proof. intros Hf. apply read_routes_fuel; unfold len in *; lia. Qed.

(** Two zero bytes are a target and a gateway that are not there; two more are skipped. *)
Lemma read_metric tail : read_all (to_be 2 0 ++ tail) = read_all (drop 2 tail).
Proof.
  unfold read_all at 1. change (to_be 2 0) with (Inet.encode Null ++ Inet.encode Null). set (data := _ ++ tail).
  assert (len data = 2 + len tail) as Hd by (unfold data; rewrite !len_app; change (len (Inet.encode Null)) with 1; lia). pose proof (len_nonneg tail).
  destruct (length data) as [|fuel] eqn:El; [unfold len in *; lia|]. cbn [Host.read_routes].
  rewrite if_true, slice_from_here, rbind_ok by lia. unfold data at 1. rewrite <- app_assoc, Inet.inet_deserialize_encode by done.
  cbn [attempt]. rewrite rbind_ok. cbv zeta. unfold data at 1. rewrite <- app_assoc, slice_from_skip, slice_from_here, rbind_ok
    by (rewrite ?len_app; change (len (Inet.encode Null)) with 1; lia).
  rewrite Inet.inet_deserialize_encode by done. cbn [attempt]. rewrite rbind_ok. cbv zeta.
  change (len (Inet.encode Null)) with 1. rewrite Hd. destruct (2 + len tail <? 0 + 1 + 1 + 2) eqn:E.
  { destruct tail as [|x [|y tail]]; [done|done|]. len_lia. }
  cbn [Host.inet_address_to_cidr]. replace data with ((Inet.encode Null ++ Inet.encode Null ++ take 2 tail) ++ drop 2 tail).
  2: { unfold data. rewrite <- !app_assoc. by rewrite take_drop. }
  replace (0 + 1 + 1 + 2) with (len (Inet.encode Null ++ Inet.encode Null ++ take 2 tail) + 0).
  2: { rewrite !len_app, len_take. change (len (Inet.encode Null)) with 1. lia. }
  rewrite read_routes_skip, read_all_fuel by (rewrite ?len_drop; unfold len in *; lia).
  by destruct (read_all (drop 2 tail)).
Qed.

(** The first route is read; the next one loses its first two bytes. *)
Lemma read_route_entry e tail : Inet.wf e.1 -> e.1 <> Null -> Inet.wf e.2 ->
  read_all (entry_bytes e ++ tail) =
    let* routes := read_all (drop 2 tail) in
    Ok (option_list ((fun cidr => (cidr, Host.inet_address_to_ip e.2)) <$> Host.inet_address_to_cidr e.1) ++ routes).
Proof.
  intros Hw1 Hne Hw2. destruct e as [t v]. cbn [fst snd] in *. pose proof (Inet.encode_len t Hw1). pose proof (Inet.encode_len v Hw2).
  pose proof (len_nonneg tail). rewrite <- read_metric. unfold entry_bytes, Config.flags_metric. cbn [fst snd].
  set (rest := to_be 2 0 ++ tail). rewrite <- !app_assoc. fold rest. unfold read_all at 1.
  set (data := Inet.encode t ++ _). assert (len data = len (Inet.encode t) + len (Inet.encode v) + 2 + len rest) as Hd by (unfold data; len_lia).
  pose proof (len_nonneg rest). destruct (length data) as [|fuel] eqn:El; [unfold len in Hd at 1; lia|]. cbn [Host.read_routes].
  rewrite if_true, slice_from_here, rbind_ok by lia. unfold data at 1. rewrite Inet.inet_deserialize_encode by done.
  cbn [attempt]. rewrite rbind_ok. cbv zeta. unfold data at 1. rewrite slice_from_skip, slice_from_here, rbind_ok by len_lia.
  rewrite Inet.inet_deserialize_encode by done. cbn [attempt]. rewrite rbind_ok. cbv zeta. rewrite if_false by lia.
  replace data with ((Inet.encode t ++ Inet.encode v ++ to_be 2 0) ++ rest) by (unfold data; by rewrite <- !app_assoc).
  replace (0 + len (Inet.encode t) + len (Inet.encode v) + 2) with (len (Inet.encode t ++ Inet.encode v ++ to_be 2 0) + 0) by len_lia.
  rewrite read_routes_skip, read_all_fuel by (unfold len in *; lia).
  destruct t; [done|..]; by destruct (read_all rest).
Qed.

Definition entry_wf (e : InetAddress * InetAddress) : Prop := Inet.wf e.1 /\ e.1 <> Null /\ Inet.wf e.2.

Lemma route_of_wf r e : Config.route_ok r -> route_of r = Some e -> entry_wf e.
Proof.
  unfold Config.route_ok, route_of. destruct (Config.parse_ip_prefix (mr_target r)) as [[t p]|] eqn:E1; [|done].
  intros [Ht Hv]. pose proof (Config.parse_ip_prefix_range _ _ _ E1) as Hr.
  pose proof (inet_of_wf t p Ht ltac:(unfold u16_ok, U16_MAX; lia)) as Hw.
  assert (Inet.wf (match mr_via r with Some via => inet_of via 0 | None => Null end)) as Hwv
    by (destruct (mr_via r); [by apply inet_of_wf|done]).
  by destruct (inet_of t p); [done|intros [= <-]..].
Qed.

Lemma subnet_of_wf s e : Config.assignment_ok s -> subnet_of s = Some e -> entry_wf e.
Proof.
  intros Ha. pose proof (assigned_wf s Ha) as Hw. destruct Ha as [Ha Hp]. unfold subnet_of, assigned in *.
  destruct (Config.parse_ip_prefix s) as [[t p]|] eqn:E1; [|done].
  pose proof (Config.parse_ip_prefix_range _ _ _ E1) as Hr. unfold inet_of in *.
  destruct (Config.parse_ipv4 t) as [o|] eqn:E4; [|destruct (@Config.parse_ipv6 unit t) as [[o|]| | |]; try done]; intros [= <-].
  - destruct (@Config.ipv4_mask unit o p (Config.parse_ipv4_len _ _ E4)) as (r & -> & Hl & _); [split; [lia|by apply Hp]|].
    split; [split; [exact Hl|apply Hw]|done].
  - destruct Hw as [Hl Hpo]. split; [split; [|exact Hpo]|done]. unfold Config.apply_ipv6_mask, len in *. by rewrite length_imap.
Qed.

Lemma entries_wf routes ips : Forall Config.route_ok routes -> Forall Config.assignment_ok ips -> Forall entry_wf (entries routes ips).
Proof.
  intros Hr Hi. apply Forall_app. split; apply Forall_forall; intros e (x & Hx & He)%list_elem_of_omap.
  - eapply route_of_wf; [|exact He]. by apply (proj1 (Forall_forall _ _) Hr).
  - eapply subnet_of_wf; [|exact He]. by apply (proj1 (Forall_forall _ _) Hi).
Qed.

(** ** The interface *)

Definition add_route (nid : Z) (e : InetAddress * InetAddress) : list Effect :=
  match Host.inet_address_to_cidr e.1 with
  | Some target => [TunAddRoute nid target (Host.inet_address_to_ip e.2)]
  | None => []
  end.

(** What the routes that were written become: the first is read back; of those after it, what
    is left without its first two bytes is. *)
Definition routes_added (nid : Z) (l : list (InetAddress * InetAddress)) (out : list Effect) : Prop :=
  match l with
  | [] => out = []
  | e :: l => exists stray, read_all (drop 2 (concat (map entry_bytes l))) = Ok stray /\
                out = add_route nid e ++ map (fun x => TunAddRoute nid x.1 x.2) stray
  end.

Lemma omap_present (l : list InetAddress) : omap Host.with_prefix (present l) = omap Host.with_prefix l.
Proof.
  unfold present. induction l as [|a l IH]; [done|].
  destruct a; [rewrite filter_cons_False by (by intros [])|rewrite filter_cons_True by done..]; cbn; by rewrite <- IH.
Qed.

Lemma configure_interface nid dict_data d raw_i raw_rt ips l :
  Dict.deserialize dict_data = Ok d ->
  Dict.get_binary d (str "I") = raw_i -> default [] raw_i = concat (map Inet.encode (present (map assigned ips))) ->
  Forall Config.assignment_ok ips ->
  Dict.get_binary d (str "RT") = Some raw_rt -> raw_rt = concat (map entry_bytes l) -> Forall entry_wf l ->
  exists routes, routes_added nid l routes /\
    Daemon.configure_tun_from_dict_data nid dict_data =
      Ok (map (fun x => TunSetIp nid x.1 x.2) (omap (fun s => Host.with_prefix (assigned s)) ips) ++ routes).
Proof.
  intros Hd Hi Hraw Hok Hrt -> Hl.
  assert (forall key, Host.section key dict_data = Ok (Dict.get_binary d key)) as Hsec
    by (intros key; unfold Host.section; rewrite Hd; done).
  unfold Daemon.configure_tun_from_dict_data, Host.managed_ips_from_dict_data, Host.managed_routes_from_dict_data.
  rewrite !Hsec, !rbind_ok, Hi, Hrt.
  assert (match raw_i with None => Ok [] | Some data => Host.read_ips (length data) data 0 end =
    Ok (E := Empty_set) (omap (fun s => Host.with_prefix (assigned s)) ips)) as ->.
  { assert (omap (fun s => Host.with_prefix (assigned s)) ips = omap Host.with_prefix (present (map assigned ips))) as ->.
    { rewrite omap_present. clear. induction ips as [|s ips IH]; [done|]. cbn. by rewrite IH. }
    set (addrs := present _) in *. assert (Forall Inet.wf addrs) as Hw.
    { apply Forall_forall. intros a [_ Ha]%list_elem_of_filter. apply list_elem_of_In, in_map_iff in Ha as (s & <- & Hs%list_elem_of_In).
      by apply assigned_wf, (proj1 (Forall_forall _ _) Hok). }
    destruct raw_i as [raw|]; cbn in Hraw.
    - rewrite Hraw. exact (read_ips_encode _ addrs [] Hw ltac:(done)).
    - destruct Hw as [|a addrs Ha _]; [done|]. cbn in Hraw. pose proof (Inet.encode_len a Ha).
      apply (f_equal len) in Hraw. rewrite len_app in Hraw. len_lia. }
  rewrite rbind_ok. fold (read_all (concat (map entry_bytes l))).
  destruct Hl as [|e l (Hw1 & Hne & Hw2) _]; [by exists []|]. cbn [map concat]. rewrite read_route_entry by done.
  pose proof (Host.read_routes_total (length (drop 2 (concat (map entry_bytes l)))) (drop 2 (concat (map entry_bytes l))) 0 ltac:(lia)
    ltac:(unfold len; lia)) as Ht. fold (read_all (drop 2 (concat (map entry_bytes l)))) in Ht.
  destruct (step_ok _ _ Ht) as (stray & Hs & _). rewrite Hs, !rbind_ok.
  eexists. split; [exists stray; split; [exact Hs|reflexivity]|]. rewrite map_app. unfold add_route.
  by destruct (Host.inet_address_to_cidr e.1).
Qed.

Section Configured.
Context {P : Prims} {L : PrimLaws P} {S Er : Type} `{StorageLaws S Er}.

(** C8. The member's interface. When the configuration a controller granted reaches the daemon
    of a member without an interface for the network, it asks for one, named after the network
    and the member, of the network's MTU, and gives it exactly the addresses the controller's
    record assigns, in order, and the first of the managed routes and assigned subnets. The
    routes after the first are not those that were written: two bytes are read too few, and
    what is left of each is taken for the next. *)
Theorem interface_configured (create : bytes -> Z -> option bytes) (local : bytes) (c : Controller) (nid : Z) (a : bytes)
    (now : Z) (s s' : S) (resp : ConfigResponse) (tuns : gmap Z bytes) :
  len (ctl_signing_key c) = 32 -> len (ctl_address c) = 5 -> len a = 5 -> u64_ok nid -> u64_ok now -> Engine.store_ok s ->
  Engine.handle_config_request c nid a now s = (s', Ok resp) -> tuns !! nid = None ->
  exists net m routes, v_network (view s) nid = Some net /\ v_member (view s') nid a = Some m /\
    routes_added nid (entries (v_routes (view s') nid) (m_ip_assignments m)) routes /\
    let name := Host.tun_name_for_network nid local in
    Daemon.handle_tun_action create local (NetworkConfigured nid (NetConfP.dict_data (cr_config resp))) (tuns, []) =
      Ok match create name (n_mtu net) with
         | None => (tuns, [TunCreate nid name (n_mtu net)])
         | Some interface =>
             (<[nid := interface]> tuns,
              TunCreate nid name (n_mtu net) ::
              map (fun x => TunSetIp nid x.1 x.2) (omap (fun s => Host.with_prefix (assigned s)) (m_ip_assignments m)) ++
              routes)
         end.
Proof.
  intros Hk Hc Ha Hnid Hnow Hs Hreq Htun. pose proof (Engine.request_store_ok c nid a now s Hk Hc Ha Hnid Hnow Hs) as Hout. rewrite Hreq in Hout.
  destruct Hout as [(_ & (_ & Hmem & _ & Hroutes) & _) (net & m & Hnet & Hm & _ & _ & _ & _ & Hsays)].
  destruct Hsays as (_ & _ & d & Hd & [] & _). destruct says_ips as (raw & Hraw & Hi). destruct says_routes as (rt & Hrt & Hrb).
  pose proof (proj2 (Hmem _ _ _ Hm)) as Hips. specialize (Hroutes nid).
  rewrite (assignments_bytes _ Hips) in Hraw. rewrite (routes_bytes _ _ Hroutes Hips) in Hrt. injection Hraw as <-. injection Hrt as <-.
  assert (default [] (match m_ip_assignments m with [] => None | _ :: _ => Some (concat (map Inet.encode (present (map assigned (m_ip_assignments m))))) end)
    = concat (map Inet.encode (present (map assigned (m_ip_assignments m))))) as Hdef by (by destruct (m_ip_assignments m)).
  destruct (configure_interface nid (NetConfP.dict_data (cr_config resp)) d _ _ (m_ip_assignments m) _ Hd Hi
    Hdef Hips Hrb eq_refl (entries_wf _ _ Hroutes Hips)) as (routes & Hadded & Hconf).
  exists net, m, routes. split_and!; [done..|]. unfold Daemon.handle_tun_action. rewrite Htun.
  unfold Host.network_mtu_from_dict_data. rewrite Hd. cbn [attempt]. rewrite !rbind_ok. cbn [mbind option_bind]. rewrite says_mtu.
  cbn [default app id]. destruct (create _ (n_mtu net)) as [interface|]; [|done]. by rewrite Hconf, rbind_ok.
Qed.

End Configured.

(** A member with an address on a network with a managed route: two entries. *)
Definition routed : InMemoryState :=
  mkMemory (networks (Credentials.tagged []))
    [mkMemberRecord NodeUpkeep.sample_nid NodeUpkeep.sample_root true [str "10.1.2.3/24"; str "fd00::7/64"] 10 10 [] 0 0 0 false false [] []]
    [] [(NodeUpkeep.sample_nid, mkManagedRoute (str "10.9.0.0/16") (Some (str "10.1.2.1")))].

(** The subnets of its addresses become routes to somewhere else, or none. *)
Example routes_garbled :
  let '(_, r) := Engine.handle_config_request (H := Toy.prims) (S := InMemoryState) Credentials.sample_signer NodeUpkeep.sample_nid
    NodeUpkeep.sample_root 20 routed in
  match r with
  | Ok resp =>
      Daemon.configure_tun_from_dict_data NodeUpkeep.sample_nid (NetConfP.dict_data (cr_config resp)) =
        Ok [TunSetIp NodeUpkeep.sample_nid (IpV4 (map b8 [10; 1; 2; 3])) 24;
            TunSetIp NodeUpkeep.sample_nid (IpV6 (map b8 [0xfd; 0; 0; 0; 0; 0; 0; 0; 0; 0; 0; 0; 0; 0; 0; 7])) 64;
            TunAddRoute NodeUpkeep.sample_nid (str "10.9.0.0/16") (Some (IpV4 (map b8 [10; 1; 2; 1])))]
  | _ => False
  end.
Proof. vm_compute. reflexivity. Qed.

Lemma routed_ok : Engine.store_ok (S := InMemoryState) routed.
Proof.
  destruct (Credentials.tagged_ok [] (Forall_nil_2 _)) as (_ & (Hnet & _) & _). split; [|split].
  - apply NoDup_singleton.
  - split_and!.
    + exact Hnet.
    + intros id a m Hm. cbn in Hm. revert Hm. case_match; [|discriminate]. intros [= <-].
      split; [split; cbn; repeat constructor; try done|]. repeat constructor; try discriminate; simpl; by intros [? ?].
    + intros id. constructor.
    + intros id. cbn. case_match; repeat constructor; discriminate.
  - intros id a b ma mb ip Hne Ha Hb _ _. exfalso. cbn in Ha, Hb. revert Ha Hb. unfold Memory.is_member. cbn.
    repeat case_match; try discriminate. intros _ _. bools.
    repeat match goal with H : bool_decide _ = true |- _ => apply bool_decide_eq_true in H end. congruence.
Qed.

(** The interface gets the two addresses. *)
Lemma interface_configured_witness :
  exists s' resp tuns rest,
    Engine.handle_config_request (H := Toy.prims) (S := InMemoryState) Credentials.sample_signer NodeUpkeep.sample_nid
      NodeUpkeep.sample_root 20 routed = (s', Ok resp) /\
    Daemon.handle_tun_action (fun name _ => Some name) [] (NetworkConfigured NodeUpkeep.sample_nid (NetConfP.dict_data (cr_config resp))) (∅, []) =
      Ok (tuns, rest).
Proof.
  assert (exists s' resp, Engine.handle_config_request (H := Toy.prims) (S := InMemoryState) Credentials.sample_signer NodeUpkeep.sample_nid
    NodeUpkeep.sample_root 20 routed = (s', Ok resp)) as (s' & resp & Hreq).
  { match goal with |- context [?x = (_, Ok _)] => set (y := x); assert (Configured.is_ok y.2 = true) as Hok by (vm_compute; reflexivity) end.
    clearbody y. destruct y as [s' r]. destruct r as [resp| | |]; try discriminate Hok. by exists s', resp. }
  destruct (interface_configured (P := Toy.prims) (L := Toy.laws) (S := InMemoryState) (fun name _ => Some name) [] Credentials.sample_signer
    NodeUpkeep.sample_nid NodeUpkeep.sample_root 20 routed s' resp ∅ eq_refl eq_refl eq_refl ltac:(by split) ltac:(by split) routed_ok Hreq
    (lookup_empty _)) as (net & m & routes & _ & _ & _ & Hrun).
  eexists s', resp, _, _. split; [exact Hreq|exact Hrun].
Defined.

End Interfaces.
