(* ===== verification/Startup.v ===== *)
(** * Startup: what the service makes of its files before its loop (zerotier-service: service.rs,
    [run_service] up to the loop, [storage_scope_and_key], [load_or_generate_identity],
    [load_planet], [load_or_generate_auth_token]), over any key storage. *)
From S2P Require Export Provider NativeStorage LocalApi DaemonInv.

Inductive BootError (E : Type) :=
  | StorageFailed (e : E)
  | BadPath (path : bytes)
  | NotUtf8
  | BadIdentity (e : CryptoError)
  | NotGenerated (e : CryptoError)
  | NoRandomness
  | BadPlanet
  | NoStore
  | NoSocket
  | NoDirectory.
Arguments StorageFailed {E}. Arguments BadPath {E}. Arguments NotUtf8 {E}. Arguments BadIdentity {E}.
Arguments NotGenerated {E}. Arguments NoRandomness {E}. Arguments BadPlanet {E}. Arguments NoStore {E}. Arguments NoSocket {E}. Arguments NoDirectory {E}.

Module Startup.

(** ** Paths *)

(** The parent, or the current directory, and the name. *)
Definition storage_scope_and_key {E} (path : bytes) : res (BootError E) (list NativeStorage.Component * bytes) :=
  match rev (NativeStorage.components path) with
  | NativeStorage.Normal key :: root => Ok (match root with [] => [NativeStorage.CurDir] | _ => rev root end, key)
  | _ => Err (BadPath path)
  end.

Definition public_identity_key (identity_key : bytes) : bytes :=
  match Text.strip_suffix (str ".secret") identity_key with
  | Some stem => stem ++ str ".public"
  | None => identity_key ++ str ".public"
  end.

Section Files.
Context {P : Prims} {os : NativeCryptoProvider.SystemRandom} {St E : Type} `{KeyStorage St E}.
Notation boots A := (St * res (BootError E) A)%type.

(** [?] on an error of the storage. *)
Definition of_storage {A} (x : St * res E A) : boots A := (x.1, map_err StorageFailed x.2).
Definition utf8 (b : bytes) : res (BootError E) bytes := if utf8_valid b then Ok b else Err NotUtf8.
Definition parse_identity (s : bytes) : res (BootError E) Identity := map_err BadIdentity (Ident.parse (trim s)).

(** [fuel] bounds the draws of the generator. *)
Definition load_or_generate_identity (fuel : nat) (s : St) (key : bytes) : boots Identity :=
  then_do (of_storage (load s key)) (fun s found =>
  match found with
  | Some secret_bytes =>
      then_do (s, utf8 secret_bytes) (fun s secret_str => (s, parse_identity secret_str))
  | None =>
      then_do (s, map_err NotGenerated (NativeCryptoProvider.native_generate_identity fuel NativeCryptoProvider.getrandom)) (fun s identity_bytes =>
      then_do (s, utf8 identity_bytes) (fun s secret_str =>
      then_do (s, parse_identity secret_str) (fun s identity =>
      then_do (of_storage (store s key secret_str)) (fun s _ =>
      then_do (of_storage (store s (public_identity_key key) (Ident.to_public_string identity))) (fun s _ =>
      (s, Ok identity))))))
  end).

Fixpoint first_stored (s : St) (keys : list bytes) (default_value : bytes) : boots bytes :=
  match keys with
  | [] => (s, Ok default_value)
  | key :: keys =>
      then_do (of_storage (load s key)) (fun s found =>
      match found with Some data => (s, Ok data) | None => first_stored s keys default_value end)
  end.

(** [DEFAULT_PLANET] is a file compiled into the program. *)
Definition load_planet (DEFAULT_PLANET : bytes) (s : St) : boots bytes :=
  first_stored s [str "planet.bin"; str "planet"] DEFAULT_PLANET.

(** [random] are 24 bytes of the system, or its refusal. *)
Definition load_or_generate_auth_token (random : option bytes) (s : St) (key : bytes) : boots bytes :=
  then_do (of_storage (load s key)) (fun s found =>
  match found with
  | Some token => then_do (s, utf8 token) (fun s token => (s, Ok (trim token)))
  | None =>
      match random with
      | None => (s, Err NoRandomness)
      | Some random_bytes =>
          let token := LocalApi.hex_encode random_bytes in
          then_do (of_storage (store s key token)) (fun s _ => (s, Ok token))
      end
  end).
End Files.

(** ** run_service, up to its loop *)

(** What the environment provides: whether the data directory can be made, where the identity is and
    whether its directory can be made, eight and 24 random bytes or a refusal,
    the entries of moons.d and networks.d, the controller's store when it is wanted and opens, the
    sockets, the time. *)
Record Environment (S : Type) := mkEnvironment {
  ev_data_dir : bool;
  ev_identity_path : bytes;
  ev_identity_root : bool;
  ev_fuel : nat;
  ev_default_planet : bytes;
  ev_seed : option bytes;
  ev_moons : option (list (bytes * option bytes));
  ev_networks : option (list bytes);
  ev_token : option bytes;
  ev_controller_mode : bool;
  ev_store : option S;
  ev_sockets : bool;
  ev_now : Z;
}.
Arguments ev_data_dir {S}. Arguments ev_identity_path {S}. Arguments ev_identity_root {S}. Arguments ev_fuel {S}. Arguments ev_default_planet {S}. Arguments ev_seed {S}. Arguments ev_moons {S}.
Arguments ev_networks {S}. Arguments ev_token {S}. Arguments ev_controller_mode {S}. Arguments ev_store {S}. Arguments ev_sockets {S}.
Arguments ev_now {S}. Arguments mkEnvironment {S}.

Section Boot.
Context {P : Prims} {os : NativeCryptoProvider.SystemRandom} {S Er : Type} `{ControllerStorage S Er}.
Context {St E : Type} (identity_storage : list NativeStorage.Component -> KeyStorage St E) (data_storage : KeyStorage St E).
Notation boots A := (St * res (BootError E) A)%type.

Definition of_option {A} (e : BootError E) (o : option A) : res (BootError E) A := ok_or e o.
Definition of_step {A} (m : step A) : res (BootError E) A :=
  match m with Ok a => Ok a | Err e => match e with end | Panic => Panic | Hang => Hang end.

(** The daemon before its loop, its controller, its token and what it has sent. Without a
    controller the store is not used: [no_store] stands for it. *)
Record Booted := mkBooted {
  bd_daemon : Daemon S; bd_controller : option Controller; bd_token : bytes; bd_sent : list Effect }.

Definition open_controller (env : Environment S) (no_store : S) (identity : Identity) : res (BootError E) (option Controller * S) :=
  if ev_controller_mode env then
    let* storage := of_option NoStore (ev_store env) in
    match id_secret identity with
    | Some secret => Ok (Some (mkController (id_address identity) (sk_signing secret)), storage)
    | None => Panic
    end
  else Ok (None, no_store).

Definition boot (env : Environment S) (no_store : S) (s : St) : boots Booted :=
  then_do (s, if ev_data_dir env then Ok tt else Err NoDirectory) (fun s _ =>
  then_do (s, storage_scope_and_key (ev_identity_path env)) (fun s scope =>
  let '(identity_root, identity_key) := scope in
  then_do (s, if ev_identity_root env then Ok tt else Err NoDirectory) (fun s _ =>
  then_do (load_or_generate_identity (H := identity_storage identity_root) (ev_fuel env) s identity_key) (fun s identity =>
  then_do (load_planet (H := data_storage) (ev_default_planet env) s) (fun s planet_data =>
  then_do (s, of_option NoRandomness (ev_seed env)) (fun s seed =>
  then_do (s, of_step (Daemon.setup identity planet_data seed (LocalApi.load_moons (ev_moons env))
                         (LocalApi.remembered_networks (ev_networks env)))) (fun s n =>
  then_do (s, of_option BadPlanet n) (fun s n =>
  then_do (load_or_generate_auth_token (H := data_storage) (ev_token env) s (str "authtoken.secret")) (fun s token =>
  then_do (s, open_controller env no_store identity) (fun s opened =>
  then_do (s, if ev_sockets env then Ok tt else Err NoSocket) (fun s _ =>
  then_do (s, of_step (Daemon.first_hellos n opened.2 (ev_now env))) (fun s sent =>
  (s, Ok (mkBooted sent.1 opened.1 token sent.2)))))))))))))).

End Boot.

(** ** Identity and token over a restart *)

Section Restart.
Context {P : Prims} {L : PrimLaws P} {os : NativeCryptoProvider.SystemRandom} {St E : Type} `{KeyStorageLaws St E}.

Definition same_values (s s' : St) : Prop := forall k, key_ok k -> kv s' k = kv s k.
Definition storage_failed (e : BootError E) : Prop := exists e0, e = StorageFailed e0.

Lemma load_comes (s : St) key : storage_ok s -> key_ok key ->
  comes_to False False (of_storage (load s key)) (fun s' v => storage_ok s' /\ same_values s s' /\ v = kv s key)
    (fun s' e => storage_ok s' /\ storage_failed e).
Proof.
  intros Hs Hk. pose proof (load_ok s key Hs Hk) as Hl. unfold of_storage, comes_to. destruct (load s key) as [s' r]. destruct Hl as (Hs' & Hv & Hr).
  destruct r; cbn in *; try done. split; [done|]. by eexists.
Qed.

Lemma store_comes (s : St) key v : storage_ok s -> key_ok key ->
  comes_to False False (of_storage (store s key v))
    (fun s' _ => storage_ok s' /\ (forall k, key_ok k -> k <> key -> kv s' k = kv s k) /\ kv s' key = Some v)
    (fun s' e => storage_ok s' /\ storage_failed e).
Proof.
  intros Hs Hk. pose proof (store_ok s key v Hs Hk) as Hl. unfold of_storage, comes_to. destruct (store s key v) as [s' r]. destruct Hl as (Hs' & Hv & Hr).
  destruct r; cbn in *; try done. split; [done|]. by eexists.
Qed.

Lemma public_key_ne key : public_identity_key key <> key.
Proof.
  unfold public_identity_key. destruct (Text.strip_suffix _ key) as [stem|] eqn:Es.
  - apply strip_suffix_spec in Es as ->. intros [=]%app_inv_head.
  - intros Hk%(f_equal length). rewrite length_app in Hk. cbn in Hk. lia.
Qed.

Lemma encode_graphic bs : Forall (fun c => graphic c = true) (Hex.encode bs).
Proof. induction bs as [|b bs IH]; [constructor|]. rewrite Hex.encode_cons. by repeat (constructor; [by destruct b|]). Qed.

Lemma graphic_ends s : Forall (fun c => graphic c = true) s -> trim s = s.
Proof.
  intros Hs. apply trim_graphic.
  - destruct s; [done|]. by apply Forall_inv in Hs.
  - destruct (last s) as [c|] eqn:El; [|done]. apply last_Some in El as [p ->]. by apply Forall_app in Hs as [_ ?%Forall_inv].
Qed.

Lemma secret_string_trim id s : Ident.to_secret_string id = Some s -> trim s = s.
Proof.
  unfold Ident.to_secret_string. destruct (id_secret id) as [secret|]; [|done]. cbn. intros [= <-]. apply graphic_ends.
  repeat first [apply Forall_app; split | apply encode_graphic | apply Forall_cons; split; [by vm_compute|]].
Qed.

(** What is generated is a valid identity with its secret, written so that it reads back. *)
Lemma generated_string fuel bs : NativeCryptoProvider.native_generate_identity fuel NativeCryptoProvider.getrandom = Ok bs ->
  utf8_valid bs = true /\ exists id, Ident.parse (trim bs) = Ok id /\ Ident.wf id /\ Ident.validate_address id = Ok true /\ is_Some (id_secret id).
Proof.
  unfold NativeCryptoProvider.native_generate_identity. destruct (Ident.generate fuel _ 0) as [[id pos']| | |] eqn:Eg; cbn [rbind]; try done.
  destruct (Ident.generate_wf _ _ _ _ _ Eg) as (Hw & Hv & Hs). pose proof (Ident.identity_string_roundtrip id Hw) as [_ Hrt].
  destruct (Ident.to_secret_string id) as [s|] eqn:Es; [|done]. destruct Hrt as [Hp _]. intros [= <-]. split.
  - apply utf8_ascii, (Ident.secret_string_ascii id s Es).
  - exists id. by rewrite (secret_string_trim id s Es).
Qed.

(** What a value under the key of the identity says. *)
Definition reads (v : bytes) (id : Identity) : Prop := utf8_valid v = true /\ Ident.parse (trim v) = Ok id.

Lemma reads_wf v id : reads v id -> Ident.wf id.
Proof. intros [_ Hp]. pose proof (Ident.ident_parse_total (trim v)) as Ht. by rewrite Hp in Ht. Qed.

Lemma loaded_identity (s : St) key fuel v : storage_ok s -> key_ok key -> kv s key = Some v ->
  comes_to False False (load_or_generate_identity fuel s key)
    (fun s' id => storage_ok s' /\ same_values s s' /\ reads v id)
    (fun s' e => storage_ok s' /\ (storage_failed e \/ forall id, ~ reads v id)).
Proof.
  intros Hs Hk Hv. unfold load_or_generate_identity. apply comes_then.
  eapply comes_mono; [by apply load_comes|done|done| |intros s' e [? ?]; by split; [|left]].
  intros s' ? (Hs' & Hsame & ->). rewrite Hv. unfold utf8, reads, comes_to. destruct (utf8_valid v); cbn; [|split; [done|]; right; by intros id []].
  pose proof (Ident.ident_parse_total (trim v)) as Ht. unfold parse_identity.
  destruct (Ident.parse (trim v)); try done; cbn. split; [done|]. right. by intros id' [].
Qed.

Lemma generated_identity (s : St) key fuel : storage_ok s -> key_ok key -> key_ok (public_identity_key key) -> kv s key = None ->
  comes_to False (Ident.generate fuel NativeCryptoProvider.getrandom 0 = Hang) (load_or_generate_identity fuel s key)
    (fun s' id => storage_ok s' /\ Ident.wf id /\ Ident.validate_address id = Ok true /\ is_Some (id_secret id) /\
       (exists v, kv s' key = Some v /\ reads v id) /\ kv s' (public_identity_key key) = Some (Ident.to_public_string id))
    (fun s' e => storage_ok s' /\ storage_failed e).
Proof.
  intros Hs Hk Hpk Hv. unfold load_or_generate_identity. apply comes_then. eapply comes_mono; [by apply load_comes|done|done| |done].
  intros s' ? (Hs' & Hsame & ->). rewrite Hv. pose proof (generated_string fuel) as Hg. unfold NativeCryptoProvider.native_generate_identity in *.
  pose proof (Ident.generate_runs fuel NativeCryptoProvider.getrandom 0) as Hruns.
  destruct (Ident.generate fuel _ 0) as [[id0 pos']|e| |] eqn:Egen; cbn [rbind] in *; try done.
  destruct (Ident.generate_wf _ _ _ _ _ Egen) as (_ & _ & [secret Hsec0]). unfold Ident.to_secret_string in *. rewrite Hsec0 in *. cbn [mbind option_bind] in *.
  destruct (Hg _ eq_refl) as (Hu & id & Hp & Hw & Hval & Hsec). set (bs := _ ++ _) in *. unfold utf8, parse_identity. cbn [map_err then_do]. rewrite Hu. cbn [then_do].
  rewrite Hp. cbn [map_err then_do].
  apply comes_then. eapply comes_mono; [by apply store_comes|done|done| |done]. intros s2 _ (Hs2 & Hsame2 & Hv2).
  apply comes_then. eapply comes_mono; [by apply store_comes|done|done| |done]. intros s3 _ (Hs3 & Hsame3 & Hv3).
  unfold comes_to. cbn. split_and!; try done. exists bs. rewrite Hsame3; [done|done|]. intros He. by destruct (public_key_ne key).
Qed.

(** C38. The identity survives restarts. What is loaded or generated is a well-formed identity; a generated
    one has its secret, its address carries the proof of work, and its public half is stored beside
    it; and the next start reads the same identity, or the storage fails it. *)
Theorem identity_survives_restart (s s1 : St) (key : bytes) (fuel fuel' : nat) (identity : Identity) :
  storage_ok s -> key_ok key -> key_ok (public_identity_key key) ->
  load_or_generate_identity fuel s key = (s1, Ok identity) ->
  storage_ok s1 /\ Ident.wf identity /\
  (kv s key = None -> is_Some (id_secret identity) /\ Ident.validate_address identity = Ok true /\
     kv s1 (public_identity_key key) = Some (Ident.to_public_string identity)) /\
  comes_to False False (load_or_generate_identity fuel' s1 key) (fun _ id => id = identity) (fun _ e => storage_failed e).
Proof.
  intros Hs Hk Hpk Hrun.
  assert (storage_ok s1 /\ (exists v, kv s1 key = Some v /\ reads v identity) /\
    (kv s key = None -> is_Some (id_secret identity) /\ Ident.validate_address identity = Ok true /\
     kv s1 (public_identity_key key) = Some (Ident.to_public_string identity))) as (Hs1 & (v & Hv & Hread) & Hnew).
  { destruct (kv s key) as [v|] eqn:Ev.
    - pose proof (loaded_identity s key fuel v Hs Hk Ev) as Hl. rewrite Hrun in Hl. destruct Hl as (Hs1 & Hsame & Hread).
      split; [done|]. split; [|done]. exists v. by rewrite Hsame.
    - pose proof (generated_identity s key fuel Hs Hk Hpk Ev) as Hl. rewrite Hrun in Hl. destruct Hl as (Hs1 & _ & Hval & Hsec & Hread & Hpub). done. }
  split; [exact Hs1|]. split; [by eapply reads_wf|]. split; [exact Hnew|].
  eapply comes_mono; [exact (loaded_identity s1 key fuel' v Hs1 Hk Hv)|done|done| |].
  - intros s2 id (_ & _ & [_ Hp]). destruct Hread as [_ Hp']. congruence.
  - intros s2 e [_ [He|He]]; [exact He|by destruct (He identity)].
Qed.

Lemma hex_graphic bs : Forall (fun c => graphic c = true) (LocalApi.hex_encode bs).
Proof. induction bs as [|b bs IH]; [constructor|]. cbn [LocalApi.hex_encode flat_map]. apply Forall_app. split; [by destruct b; repeat constructor|exact IH]. Qed.

Lemma token_comes (random : option bytes) (s : St) key : storage_ok s -> key_ok key ->
  comes_to False False (load_or_generate_auth_token random s key)
    (fun s' t => storage_ok s' /\ exists v, kv s' key = Some v /\ utf8_valid v = true /\ t = trim v)
    (fun s' e => storage_ok s' /\ (storage_failed e \/ e = NoRandomness /\ random = None \/
       e = NotUtf8 /\ exists v, kv s key = Some v /\ utf8_valid v = false)).
Proof.
  intros Hs Hk. unfold load_or_generate_auth_token. apply comes_then.
  eapply comes_mono; [by apply load_comes|done|done| |intros s' e [? ?]; by split; [|left]].
  intros s' ? (Hs' & Hsame & ->). destruct (kv s key) as [v|] eqn:Ev.
  - unfold utf8. destruct (utf8_valid v) eqn:Eu; unfold comes_to; cbn.
    + split; [done|]. exists v. by rewrite Hsame.
    + split; [done|]. right. right. split; [done|]. by exists v.
  - destruct random as [bs|]; [|unfold comes_to; cbn; split; [done|]; right; by left].
    apply comes_then. eapply comes_mono; [by apply store_comes|done|done| |intros s2 e [? ?]; by split; [|left]].
    intros s2 _ (Hs2 & _ & Hv). unfold comes_to. cbn. split; [done|]. exists (LocalApi.hex_encode bs). split; [done|].
    pose proof (hex_graphic bs) as Hg. split; [|by rewrite graphic_ends].
    apply utf8_ascii. eapply Forall_impl; [exact Hg|]. intros c Hc. unfold graphic in Hc. cbn beta. lia.
Qed.

(** The token of the API is drawn once: the next start reads the same, or the storage fails it. *)
Theorem token_survives_restart (random random' : option bytes) (s s1 : St) (key token : bytes) : storage_ok s -> key_ok key ->
  load_or_generate_auth_token random s key = (s1, Ok token) ->
  comes_to False False (load_or_generate_auth_token random' s1 key) (fun _ t => t = token) (fun _ e => storage_failed e).
Proof.
  intros Hs Hk Hrun. pose proof (token_comes random s key Hs Hk) as Ht. rewrite Hrun in Ht. destruct Ht as (Hs1 & v & Hv & Hu & ->).
  unfold load_or_generate_auth_token. apply comes_then. eapply comes_mono; [by apply load_comes|done|done| |by intros s' e []].
  intros s' ? (Hs' & _ & ->). cbn [fst] in Hv. rewrite Hv. unfold utf8. by rewrite Hu.
Qed.

Lemma first_stored_comes keys d (s : St) : storage_ok s -> Forall key_ok keys ->
  comes_to False False (first_stored s keys d) (fun s' _ => storage_ok s') (fun s' e => storage_ok s' /\ storage_failed e).
Proof.
  intros Hs Hk. revert s Hs. induction Hk as [|key keys Hk _ IH]; intros s Hs; [done|]. cbn [first_stored].
  apply comes_then. eapply comes_mono; [by apply load_comes|done|done| |done].
  intros s' ? (Hs' & _ & ->). destruct (kv s key); [done|by apply IH].
Qed.

End Restart.

(** ** The start as a whole *)

Lemma moons_wf entries : Forall WorldP.wf (LocalApi.load_moons entries).
Proof.
  apply Forall_forall. intros w (e & _ & He)%list_elem_of_omap. destruct (LocalApi.is_moon_name e.1); [|done].
  destruct e.2 as [data|]; cbn in He; [|done]. pose proof (WorldP.world_deserialize_total data) as Hw.
  destruct (WorldP.deserialize data); try done. case_bool_decide; [|done]. by injection He as <-.
Qed.

Lemma networks_u64 entries : Forall u64_ok (LocalApi.remembered_networks entries).
Proof.
  apply Forall_forall. intros id Hid. unfold LocalApi.remembered_networks in Hid. destruct entries as [names|]; [|by apply elem_of_nil in Hid].
  rewrite dedup_elem, (merge_sort_Permutation Z.le), list_elem_of_omap in Hid. destruct Hid as (name & _ & Hm).
  unfold LocalApi.marker_id in Hm. destruct (utf8_valid name); [|done]. destruct (Text.strip_suffix _ name) as [stem|]; cbn in Hm; [|done].
  case_bool_decide; [|done]. apply from_str_range in Hm; [exact Hm|lia|unfold U64_MAX; lia].
Qed.

Section Boots.
Context {P : Prims} {L : PrimLaws P} {os : NativeCryptoProvider.SystemRandom} {S Er : Type} `{StorageLaws S Er}.
Context {St E : Type} (identity_storage : list NativeStorage.Component -> KeyStorage St E) (data_storage : KeyStorage St E).
Context (LI : forall root, @KeyStorageLaws St E (identity_storage root)) (LD : @KeyStorageLaws St E data_storage).
(** Both storages live on the same disk. *)
Context (one_disk : forall root s, @storage_ok _ _ _ (LI root) s <-> @storage_ok _ _ _ LD s).

Record environment_ok (env : Environment S) (no_store : S) : Prop := {
  eo_identity root key : storage_scope_and_key (E := E) (ev_identity_path env) = Ok (root, key) ->
    @key_ok _ _ _ (LI root) key /\ @key_ok _ _ _ (LI root) (public_identity_key key);
  eo_keys : @key_ok _ _ _ LD (str "planet.bin") /\ @key_ok _ _ _ LD (str "planet") /\ @key_ok _ _ _ LD (str "authtoken.secret");
  eo_store : Engine.store_ok no_store /\ match ev_store env with Some store => Engine.store_ok store | None => True end;
  eo_now : u64_ok (ev_now env);
}.

(** The identity on disk is public only. *)
Definition without_secret (env : Environment S) (s : St) : Prop := exists root key v id,
  storage_scope_and_key (E := E) (ev_identity_path env) = Ok (root, key) /\ @kv _ _ _ (LI root) s key = Some v /\ reads v id /\ id_secret id = None.

Lemma identity_comes env no_store s root key : environment_ok env no_store -> @storage_ok _ _ _ LD s ->
  storage_scope_and_key (E := E) (ev_identity_path env) = Ok (root, key) ->
  comes_to False (Ident.generate (ev_fuel env) NativeCryptoProvider.getrandom 0 = Hang)
    (load_or_generate_identity (H := identity_storage root) (ev_fuel env) s key)
    (fun s' id => @storage_ok _ _ _ LD s' /\ Ident.wf id /\ (id_secret id = None -> without_secret env s)) (fun s' e => True).
Proof.
  intros He Hs Hscope. destruct (eo_identity _ _ He root key Hscope) as [Hk Hpk]. apply (one_disk root) in Hs.
  destruct (@kv _ _ _ (LI root) s key) as [v|] eqn:Ev.
  - eapply comes_mono; [exact (loaded_identity s key (ev_fuel env) v Hs Hk Ev)|done|done| |done]. intros s' id (Hs' & _ & Hr).
    split; [by apply (one_disk root)|]. split; [by eapply reads_wf|]. intros Hn. by exists root, key, v, id.
  - eapply comes_mono; [exact (generated_identity s key (ev_fuel env) Hs Hk Hpk Ev)|done|done| |done].
    intros s' id (Hs' & Hw & _ & [? Hsec] & _). split; [by apply (one_disk root)|]. split; [exact Hw|]. by rewrite Hsec.
Qed.

(** What the service has when it enters its loop. *)
Definition booted_ok (env : Environment S) (b : Booted) : Prop :=
  DaemonInv.daemon_ok (bd_controller b) (bd_daemon b) /\ (is_Some (bd_controller b) <-> ev_controller_mode env = true) /\
  exists identity planet seed store,
    DaemonInv.boot_ok (bd_controller b) identity (LocalApi.load_moons (ev_moons env)) (LocalApi.remembered_networks (ev_networks env)) store /\
    Daemon.start identity planet seed (LocalApi.load_moons (ev_moons env)) (LocalApi.remembered_networks (ev_networks env)) store (ev_now env)
      = Ok (Some (bd_daemon b, bd_sent b)).

Lemma open_controller_comes env no_store id s : environment_ok env no_store -> Ident.wf id ->
  (id_secret id = None -> without_secret env s) ->
  match open_controller (E := E) env no_store id with
  | Ok (c, store) => Engine.store_ok store /\ (is_Some c <-> ev_controller_mode env = true) /\
      match c with
      | Some c => exists secret, id_secret id = Some secret /\ ctl_address c = id_address id /\ ctl_signing_key c = sk_signing secret
      | None => True
      end
  | Err _ => True
  | Panic => ev_controller_mode env = true /\ without_secret env s
  | Hang => False
  end.
Proof.
  intros He Hw Hsec. unfold open_controller. destruct (ev_controller_mode env).
  - pose proof (eo_store _ _ He) as [_ Hst]. destruct (ev_store env) as [store|]; cbn; [|done].
    destruct (id_secret id) as [secret|]; [|split; [done|by apply Hsec]]. split; [exact Hst|]. split; [done|]. by exists secret.
  - split; [apply (eo_store _ _ He)|]. split; [|done]. split; [by intros [? [=]]|done].
Qed.

(** C6. What the service makes of its files is a good daemon. From any disk, with whatever files under the
    keys of identity, planet and token, in moons.d and networks.d, and however the storage, the
    randomness, the store and the sockets fail: the start ends - if the generator finds an
    identity -, it panics only for a controller whose identity on disk has no secret or a moon
    larger than the buffer its signature is checked in, and the daemon that enters the loop, with
    the controller that was asked for, starts from what keeps the invariant of the loop. *)
Theorem service_boots (env : Environment S) (no_store : S) (s : St) : environment_ok env no_store -> @storage_ok _ _ _ LD s ->
  comes_to (ev_controller_mode env = true /\ without_secret env s \/ Exists DaemonInv.oversized (LocalApi.load_moons (ev_moons env)))
    (Ident.generate (ev_fuel env) NativeCryptoProvider.getrandom 0 = Hang)
    (boot identity_storage data_storage env no_store s)
    (fun _ b => booted_ok env b) (fun _ _ => True).
Proof.
  intros He Hs. unfold boot. apply comes_then. unfold comes_to at 1. cbn [fst snd]. destruct (ev_data_dir env); [|done].
  apply comes_then. unfold comes_to at 1. cbn [fst snd].
  destruct (storage_scope_and_key (ev_identity_path env)) as [[root key]| | |] eqn:Hscope; [|done|..].
  2-3: unfold storage_scope_and_key in Hscope; by destruct (rev _) as [|[] ?].
  apply comes_then. unfold comes_to at 1. cbn [fst snd]. destruct (ev_identity_root env); [|done].
  apply comes_then. eapply comes_mono; [exact (identity_comes env no_store s root key He Hs Hscope)|done|done| |done]. intros s1 id (Hs1 & Hw & Hsec).
  apply comes_then. pose proof (eo_keys _ _ He) as (Kb & Kp & Kt).
  eapply comes_mono; [apply (first_stored_comes (H0 := LD)); [exact Hs1|by repeat constructor]|done|done| |done]. intros s2 planet Hs2.
  apply comes_then. unfold comes_to at 1. cbn [fst snd]. destruct (ev_seed env) as [seed|]; [|done]. cbn [of_option ok_or].
  destruct (DaemonInv.wf_starts id Hw) as [Hid Hsk].
  pose proof (DaemonInv.setup_runs id planet seed (LocalApi.load_moons (ev_moons env)) (LocalApi.remembered_networks (ev_networks env)) Hid Hsk
    (moons_wf _) (networks_u64 _)) as Hset.
  apply comes_then. unfold comes_to at 1. cbn [fst snd].
  destruct (Daemon.setup _ _ _ _ _) as [n|[]| |] eqn:Esetup; [|by right|done]. cbn [of_step]. cbn in Hset.
  apply comes_then. unfold comes_to at 1. cbn [fst snd]. destruct n as [n|]; [|done]. cbn [of_option ok_or]. destruct Hset as [Hn Hnid].
  apply comes_then. eapply comes_mono; [exact (token_comes (H0 := LD) (ev_token env) s2 (str "authtoken.secret") Hs2 Kt)|done|done| |done].
  intros s3 token _. apply comes_then. unfold comes_to at 1. cbn [fst snd].
  pose proof (open_controller_comes env no_store id s He Hw Hsec) as Hctl.
  destruct (open_controller env no_store id) as [[c store]| | |]; [|done|by left|done]. destruct Hctl as (Hst & Hmode & Hc).
  apply comes_then. unfold comes_to at 1. cbn [fst snd]. destruct (ev_sockets env); [|done].
  assert (match c with Some c => DaemonInv.signs c n | None => True end) as Hsigns.
  { destruct c; [|done]. unfold DaemonInv.signs, NodeOps.our_address. by rewrite Hnid. }
  pose proof (DaemonInv.hellos_run c n store (ev_now env) Hn Hst (eo_now _ _ He) Hsigns) as Hh.
  apply comes_then. unfold comes_to. cbn [fst snd].
  destruct (Daemon.first_hellos n store (ev_now env)) as [[d out]|[]| |] eqn:Ehello; [|done..]. cbn [of_step]. destruct Hh as [Hd _].
  split; [exact Hd|]. split; [exact Hmode|]. exists id, planet, seed, store. split.
  - split; [exact Hid|exact Hsk|apply moons_wf|apply networks_u64|exact Hst|exact Hc].
  - unfold Daemon.start. rewrite Esetup. cbn [rbind]. by rewrite Ehello.
Qed.

End Boots.

(** ** A disk with an identity and a moon, and a controller in memory *)

Definition sample_secret_string : bytes := default [] (Ident.to_secret_string NodeTotal.sample_id).
Definition identity_disk : Disk true := mkDisk (mkTree {[ [str "identity.secret"] := mkFile (sample_secret_string ++ [b8 10]) 0x1a4 ]} ∅) 9.

Lemma identity_disk_tidy : NativeStorage.tidy (tree identity_disk).
Proof.
  intros p Hp. assert (p = [str "identity.secret"]) as ->.
  { destruct Hp as [f Hp]. cbn in Hp. by apply lookup_singleton_Some in Hp as [<- _]. }
  split; [done|]. split; [apply (bool_decide_unpack _); by vm_compute|]. split; [apply (bool_decide_unpack _); by vm_compute|].
  intros q [r Hq] Hne Hneq. destruct q as [|x [|]]; [done| |by injection Hq]. by injection Hq as <- <-.
Qed.

#[local] Existing Instance NativeStorage.native_storage.
#[local] Existing Instance NativeStorage.native_storage_laws.
#[local] Instance sample_random : NativeCryptoProvider.SystemRandom := fun i => b8 (Z.of_nat i).
#[local] Instance sample_prims : Prims := Toy.prims.

(** The identity is read as it was written, the line break after it trimmed. *)
Lemma identity_survives_restart_witness :
  let x := load_or_generate_identity 0 identity_disk (str "identity.secret") in
  x.2 = Ok NodeTotal.sample_id /\ Ident.wf NodeTotal.sample_id /\
  comes_to False False (load_or_generate_identity 0 x.1 (str "identity.secret")) (fun _ id => id = NodeTotal.sample_id) (fun _ e => storage_failed e).
Proof.
  cbv zeta. destruct (load_or_generate_identity 0 identity_disk (str "identity.secret")) as [d r] eqn:Hrun.
  assert (r = Ok NodeTotal.sample_id) as -> by (apply (f_equal snd) in Hrun; cbn [snd] in Hrun; rewrite <- Hrun; vm_compute; reflexivity).
  destruct (identity_survives_restart (L := Toy.laws) (H0 := NativeStorage.native_storage_laws) identity_disk d (str "identity.secret") 0 0 NodeTotal.sample_id identity_disk_tidy
    ltac:(apply (bool_decide_unpack _); by vm_compute) ltac:(apply (bool_decide_unpack _); by vm_compute) Hrun) as (_ & Hw & _ & Hagain).
  split; [done|]. split; [exact Hw|exact Hagain].
Defined.

Definition sample_env : Environment InMemoryState :=
  mkEnvironment true (str "identity.secret") true 0 (WorldP.encode WorldP.sample) (Some (replicate 8 (b8 1)))
    (Some [(str "junk.moon", Some [b8 0]); (str "readme", None)]) (Some [str "8056c2e21c000001.conf"]) (Some (map (fun i => b8 (Z.of_nat i)) (seq 0 24)))
    true (Some Memory.new) true 5.

Lemma sample_env_ok : environment_ok (S := InMemoryState) (fun _ => NativeStorage.native_storage (F := Disk true)) NativeStorage.native_storage
  (fun _ => NativeStorage.native_storage_laws) NativeStorage.native_storage_laws sample_env Memory.new.
Proof.
  split.
  - intros root key Hs. assert (key = str "identity.secret") as -> by (vm_compute in Hs; by injection Hs as _ <-).
    split; apply (bool_decide_unpack _); by vm_compute.
  - split_and!; apply (bool_decide_unpack _); by vm_compute.
  - split; apply Engine.empty_store_ok.
  - by split.
Qed.

(** The controller's daemon starts with the identity of the disk, and has written its token. *)
Lemma service_boots_witness :
  let x := boot (P := Toy.prims) (S := InMemoryState)
    (fun _ => NativeStorage.native_storage (F := Disk true)) NativeStorage.native_storage sample_env Memory.new identity_disk in
  match x.2 with
  | Ok b => booted_ok (P := Toy.prims) (S := InMemoryState) sample_env b /\
      is_Some (bd_controller b) /\ length (bd_token b) = 48%nat
  | _ => False
  end.
Proof.
  pose proof (service_boots (P := Toy.prims) (L := Toy.laws) (S := InMemoryState)
    (fun _ => NativeStorage.native_storage (F := Disk true)) NativeStorage.native_storage (fun _ => NativeStorage.native_storage_laws)
    NativeStorage.native_storage_laws (fun _ _ => conj (fun h => h) (fun h => h)) sample_env Memory.new identity_disk sample_env_ok identity_disk_tidy) as Hb.
  cbv zeta. unfold comes_to in Hb.
  assert (match (boot (P := Toy.prims) (S := InMemoryState)
    (fun _ => NativeStorage.native_storage (F := Disk true)) NativeStorage.native_storage sample_env Memory.new identity_disk).2 with
    | Ok b => is_some (bd_controller b) && (length (bd_token b) =? 48)%nat | _ => false end = true) as He by (vm_compute; reflexivity).
  destruct (boot _ _ _ _ _) as [d [b|e| |]]; cbn [fst snd] in *; [|discriminate He..].
  apply andb_true_iff in He as [Hc Ht]. split; [exact Hb|]. split; [|by apply Nat.eqb_eq].
  destruct (bd_controller b); [by eexists|discriminate Hc].
Defined.
End Startup.
