(* ===== verification/Netif.v ===== *)
(** * Netif: the endpoints a node advertises (zerotier-service: platform/netif.rs), from the interfaces
    the system lists. *)
From S2P Require Export Host NodeUpkeep.

(** What [getifaddrs] says of an address. *)
Inductive IfAddr := AfInet (octets : bytes) | AfInet6 (octets : bytes) | AfOther.
Record Ifaddrs := mkIfaddrs { ifa_addr : option IfAddr; ifa_flags : Z; ifa_name : bytes }.

Module Netif.

(** libc. *)
Definition IFF_UP : Z := 0x1.
Definition IFF_LOOPBACK : Z := 0x8.

Definition tunnel_prefixes : list bytes :=
  map str ["utun"; "zt"; "tun"; "tap"; "feth"; "wg"; "ipsec"; "ppp"; "docker"; "br-"; "virbr"; "veth"; "lxc"; "lxd"; "cni"; "flannel"; "podman";
    "awdl"; "llw"; "bridge"; "anpi"; "ap"; "gif"; "stf"]%string.
Definition is_tunnel_interface (name : bytes) : bool := existsb (fun prefix => starts_with prefix name) tunnel_prefixes.

Definition is_loopback (ip : IpAddr) : bool :=
  match ip with
  | IpV4 ip => u8 (byte_at ip 0) =? 127
  | IpV6 ip => bool_decide (ip = replicate 15 (b8 0) ++ [b8 1])
  end.
Definition is_unspecified (ip : IpAddr) : bool :=
  match ip with IpV4 ip => bool_decide (ip = replicate 4 (b8 0)) | IpV6 ip => bool_decide (ip = replicate 16 (b8 0)) end.
Definition is_link_local (ip : IpAddr) : bool :=
  match ip with
  | IpV4 ip => (u8 (byte_at ip 0) =? 169) && (u8 (byte_at ip 1) =? 254)
  | IpV6 ip => Z.land (from_be (take 2 ip)) 0xffc0 =? 0xfe80
  end.

Definition is_advertisable (ip : IpAddr) : bool :=
  match ip with
  | IpV4 octets => negb (is_loopback ip || is_link_local ip || is_unspecified ip || Vl2.v4_is_broadcast octets)
  | IpV6 octets => negb (is_loopback ip || is_unspecified ip || Vl2.v6_is_multicast octets || is_link_local ip)
  end.

(** [SocketAddr::new]. *)
Definition socket_addr (ip : IpAddr) (port : Z) : SocketAddr :=
  match ip with IpV4 octets => SockV4 octets port | IpV6 octets => SockV6 octets port 0 0 end.

(** [(name, address)] for every up interface; no list when the call fails. *)
Definition local_addresses (list : option (list Ifaddrs)) : Datatypes.list (bytes * IpAddr) :=
  match list with
  | None => []
  | Some list =>
      omap (fun entry =>
        addr ← ifa_addr entry;
        if (Z.land (ifa_flags entry) IFF_UP =? 0) || negb (Z.land (ifa_flags entry) IFF_LOOPBACK =? 0) then None
        else match addr with
             | AfInet octets => Some (ifa_name entry, IpV4 octets)
             | AfInet6 octets => Some (ifa_name entry, IpV6 octets)
             | AfOther => None
             end) list
  end.

#[local] Existing Instance NodeTick.sock_le_dec.

Definition local_udp_endpoints (list : option (Datatypes.list Ifaddrs)) (port : Z) : Datatypes.list SocketAddr :=
  dedup (merge_sort NodeTick.sock_le
    (map (fun x => socket_addr x.2 port)
       (filter (fun x => negb (is_tunnel_interface x.1) && is_advertisable x.2 = true) (local_addresses list)))).

(** ** What is advertised *)

(** What the types of the system say. *)
Definition entry_typed (e : Ifaddrs) : Prop :=
  match ifa_addr e with Some (AfInet octets) => len octets = 4 | Some (AfInet6 octets) => len octets = 16 | _ => True end.

(** The entry gives the address on an interface that is up. *)
Definition offers (e : Ifaddrs) (ip : IpAddr) : Prop :=
  match ifa_addr e, ip with
  | Some (AfInet octets), IpV4 octets' | Some (AfInet6 octets), IpV6 octets' => octets' = octets
  | _, _ => False
  end /\ Z.land (ifa_flags e) IFF_UP <> 0 /\ Z.land (ifa_flags e) IFF_LOOPBACK = 0.

Lemma local_addresses_elem l name ip : (name, ip) ∈ local_addresses l <-> exists e, e ∈ default [] l /\ ifa_name e = name /\ offers e ip.
Proof.
  destruct l as [l|]; cbn [local_addresses default].
  2: { split; [by intros ?%elem_of_nil|]. by intros (e & ?%elem_of_nil & _). }
  rewrite list_elem_of_omap. unfold offers.
  assert (forall e, (addr ← ifa_addr e; if (Z.land (ifa_flags e) IFF_UP =? 0) || negb (Z.land (ifa_flags e) IFF_LOOPBACK =? 0) then None
             else match addr with AfInet octets => Some (ifa_name e, IpV4 octets) | AfInet6 octets => Some (ifa_name e, IpV6 octets) | AfOther => None end)
    = Some (name, ip) <-> ifa_name e = name /\ match ifa_addr e, ip with
        | Some (AfInet octets), IpV4 octets' | Some (AfInet6 octets), IpV6 octets' => octets' = octets | _, _ => False end /\
        Z.land (ifa_flags e) IFF_UP <> 0 /\ Z.land (ifa_flags e) IFF_LOOPBACK = 0) as He.
  { intros e. destruct (ifa_addr e) as [a|]; cbn [mbind option_bind]; [|split; [done|by intros (_ & [] & _)]].
    destruct (Z.eqb_spec (Z.land (ifa_flags e) IFF_UP) 0) as [Hu|Hu]; cbn [orb]; [split; [done|naive_solver]|].
    destruct (Z.eqb_spec (Z.land (ifa_flags e) IFF_LOOPBACK) 0) as [Hl|Hl]; cbn [negb]; [|split; [done|naive_solver]].
    destruct a, ip; naive_solver. }
  setoid_rewrite He. done.
Qed.

Definition ip_typed (ip : IpAddr) : Prop := match ip with IpV4 octets => len octets = 4 | IpV6 octets => len octets = 16 end.

Lemma rank_inj ip ip' port : ip_typed ip -> ip_typed ip' -> u16_ok port ->
  NodeTick.sock_rank (socket_addr ip port) = NodeTick.sock_rank (socket_addr ip' port) -> ip = ip'.
Proof.
  unfold u16_ok, U16_MAX. intros Hi Hi' Hp He.
  assert (forall x, len x = 4 -> from_be x < 2 ^ 32) as H4 by (intros x Hx; pose proof (from_be_range x) as Hr; rewrite Hx in Hr; lia).
  destruct ip as [x|x], ip' as [y|y]; cbn [ip_typed socket_addr NodeTick.sock_rank] in *.
  - f_equal. apply from_be_inj; [unfold len in *; lia|lia].
  - pose proof (H4 x Hi). pose proof (from_be_range y). lia.
  - pose proof (H4 y Hi'). pose proof (from_be_range x). lia.
  - f_equal. apply from_be_inj; [unfold len in *; lia|lia].
Qed.

(** [dedup] of a sorted list, for an order that is antisymmetric on its elements. *)
Lemma dedup_sorted_on {A} `{EqDecision A} (le : relation A) `{!Transitive le} l :
  (forall a b, a ∈ l -> b ∈ l -> le a b -> le b a -> a = b) -> StronglySorted le l -> StronglySorted le (dedup l) /\ NoDup (dedup l).
Proof.
  intros Ha Hs. induction Hs as [|x l Hs IH Hx]; [split; constructor|].
  destruct IH as [IHs IHd]; [intros a b Hin Hin'; apply Ha; by right|]. cbn.
  pose proof (dedup_elem (A := A)) as Hel. destruct (dedup l) as [|y l'] eqn:Ed; [split; [by repeat constructor|apply NoDup_singleton]|].
  assert (forall z, z ∈ y :: l' -> z ∈ l) as Hsub by (intros z Hz; rewrite <- Ed in Hz; by apply Hel).
  rewrite Forall_forall in Hx. case_bool_decide as Hd; [by subst|]. split.
  - constructor; [done|]. apply Forall_forall. intros z Hz. by apply Hx, Hsub.
  - apply NoDup_cons. split; [|done]. intros Hin. apply Hd. pose proof (Hx y (Hsub y ltac:(left))) as Hxy.
    apply elem_of_cons in Hin as [Heq|Hin]; [done|]. apply Ha; [left|right; by apply Hsub; left|done|].
    inversion IHs as [|? ? _ Hy]; subst. rewrite Forall_forall in Hy. by apply Hy.
Qed.

(** The advertised endpoints are, in order and once each, the addresses of the interfaces that are up,
    not the loopback and not tunnels, that other hosts can use, with the port of the service. *)
Theorem local_endpoints_spec (l : option (list Ifaddrs)) (port : Z) : u16_ok port -> Forall entry_typed (default [] l) ->
  let endpoints := local_udp_endpoints l port in
  StronglySorted NodeTick.sock_le endpoints /\ NoDup endpoints /\ Forall sock_ok endpoints /\
  forall a, a ∈ endpoints <-> exists e ip, e ∈ default [] l /\ offers e ip /\ is_tunnel_interface (ifa_name e) = false /\
    is_advertisable ip = true /\ a = socket_addr ip port.
Proof.
  intros Hp Ht endpoints. set (raw := map (fun x : bytes * IpAddr => socket_addr x.2 port)
    (filter (fun x => negb (is_tunnel_interface x.1) && is_advertisable x.2 = true) (local_addresses l))).
  assert (forall a, a ∈ raw <-> exists e ip, e ∈ default [] l /\ offers e ip /\ is_tunnel_interface (ifa_name e) = false /\
    is_advertisable ip = true /\ a = socket_addr ip port) as Hraw.
  { intros a. unfold raw. rewrite list_elem_of_fmap. split.
    - intros ([name ip] & -> & [Hf Hin]%list_elem_of_filter). apply local_addresses_elem in Hin as (e & He & <- & Ho).
      cbn [fst snd] in Hf. apply andb_true_iff in Hf as [Hn Ha]. apply negb_true_iff in Hn. by exists e, ip.
    - intros (e & ip & He & Ho & Hn & Ha & ->). exists (ifa_name e, ip). split; [done|]. apply list_elem_of_filter. cbn [fst snd]. rewrite Hn, Ha.
      split; [done|]. apply local_addresses_elem. by exists e. }
  assert (forall e ip, e ∈ default [] l -> offers e ip -> ip_typed ip) as Hty.
  { intros e ip He [Ho _]. rewrite Forall_forall in Ht. specialize (Ht e He). unfold entry_typed in Ht. destruct (ifa_addr e) as [[]|], ip; by subst. }
  assert (Transitive NodeTick.sock_le) by (intros a b c; unfold NodeTick.sock_le; lia).
  assert (Total NodeTick.sock_le) by (intros a b; unfold NodeTick.sock_le; lia).
  assert (forall a, a ∈ merge_sort NodeTick.sock_le raw <-> a ∈ raw) as Hperm by (intros a; by rewrite merge_sort_Permutation).
  destruct (dedup_sorted_on NodeTick.sock_le (merge_sort NodeTick.sock_le raw)) as [Hs Hd].
  - intros a b Ha Hb H1 H2. apply Hperm, Hraw in Ha as (e & ip & He & Ho & _ & _ & ->). apply Hperm, Hraw in Hb as (e' & ip' & He' & Ho' & _ & _ & ->).
    f_equal. eapply rank_inj; eauto. unfold NodeTick.sock_le in *. lia.
  - by apply StronglySorted_merge_sort.
  - assert (forall a, a ∈ endpoints <-> a ∈ raw) as Hin by (intros a; unfold endpoints, local_udp_endpoints; rewrite dedup_elem; apply Hperm).
    split_and!; [exact Hs|exact Hd| |by intros a; rewrite Hin, Hraw].
    apply Forall_forall. intros a Ha. apply Hin, Hraw in Ha as (e & ip & He & Ho & _ & _ & ->). pose proof (Hty e ip He Ho) as Hi.
    by destruct ip.
Qed.

(** Two interfaces, one a container bridge; an address of the link only; the same address twice. *)
Example sample_endpoints :
  let eth x := mkIfaddrs (Some (AfInet (map b8 x))) 0x43 (str "eth0") in
  local_udp_endpoints (Some [eth [192; 168; 1; 20]; mkIfaddrs (Some (AfInet (map b8 [172; 17; 0; 1]))) 0x43 (str "docker0");
    eth [169; 254; 3; 3]; eth [10; 0; 0; 7]; eth [192; 168; 1; 20]; mkIfaddrs (Some (AfInet (map b8 [127; 0; 0; 1]))) 0x49 (str "lo")]) 9993 =
  [SockV4 (map b8 [10; 0; 0; 7]) 9993; SockV4 (map b8 [192; 168; 1; 20]) 9993].
Proof. by vm_compute. Qed.

End Netif.
