(* ===== verification/Ffi.v ===== *)
(** * Ffi: the C interface (zerotier-ffi: lib.rs): a handle around a node and the actions of its last
    call, pointers that may be NULL, actions flattened to one struct. *)
From S2P Require Export DaemonInv.

(** Out parameters are [None] for NULL, or what the cell holds; byte arguments are [None] for NULL, or
    the bytes readable there. *)

Module Status.
Inductive ManyTierFfiStatus :=
  | Ok
  | NullPointer
  | InvalidUtf8
  | InvalidIdentity
  | MissingIdentitySecret
  | InvalidPlanet
  | InvalidIndex
  | InvalidSocketAddress
  | InvalidAddressList
  | BufferTooSmall
  | RandomFailed.
End Status.
Abbreviation ManyTierFfiStatus := Status.ManyTierFfiStatus.

Module Kind.
Inductive ManyTierFfiActionKind :=
  | Unknown
  | SendTo
  | WhoisNeeded
  | FrameReceived
  | LocalReply
  | NetworkConfigured
  | NetworkConfigRequested
  | UserMessageReceived
  | RemoteTraceReceived
  | PathNegotiationReceived
  | DestinationUnknown.
End Kind.

Record ManyTierFfiSocketAddress := mkFfiAddress { fa_family : Z; fa_address : bytes; fa_port : Z }.

(** [av_data] is what lies behind [data_ptr], as long as the handle's actions last. *)
Record ManyTierFfiActionView := mkActionView {
  av_kind : Kind.ManyTierFfiActionKind;
  av_socket_address : ManyTierFfiSocketAddress;
  av_data : option bytes;
  av_data_len : Z;
  av_address_count : Z;
  av_network_id : Z;
  av_packet_id : Z;
  av_type_id : Z;
  av_zt_address : bytes;
  av_src_mac : bytes;
  av_dest_mac : bytes;
  av_ethertype : Z;
  av_utility : Z;
}.

(** Opaque to C. *)
Record ManyTierNode := mkHandle { h_node : Node; h_actions : list NodeAction }.

Module Ffi.

Definition no_address : ManyTierFfiSocketAddress := mkFfiAddress 0 (replicate 16 (b8 0)) 0.

Definition socket_address_to_ffi (address : SocketAddr) : ManyTierFfiSocketAddress :=
  match address with
  | SockV4 ip port => mkFfiAddress 4 (ip ++ replicate 12 (b8 0)) port
  | SockV6 ip port _ _ => mkFfiAddress 6 ip port
  end.

Definition socket_address_from_ffi (address : ManyTierFfiSocketAddress) : option SocketAddr :=
  if fa_family address =? 4 then Some (SockV4 (take 4 (fa_address address)) (fa_port address))
  else if fa_family address =? 6 then Some (SockV6 (fa_address address) (fa_port address) 0 0)
  else None.

(** A view of data, the other fields by default. *)
Definition view_of (kind : Kind.ManyTierFfiActionKind) (data : option bytes) : ManyTierFfiActionView :=
  mkActionView kind no_address data (match data with Some data => len data | None => 0 end) 0 0 0 0
    (replicate 5 (b8 0)) (replicate 6 (b8 0)) (replicate 6 (b8 0)) 0 0.
Definition with_socket (v : ManyTierFfiActionView) (address : SocketAddr) : ManyTierFfiActionView :=
  mkActionView (av_kind v) (socket_address_to_ffi address) (av_data v) (av_data_len v) (av_address_count v) (av_network_id v) (av_packet_id v)
    (av_type_id v) (av_zt_address v) (av_src_mac v) (av_dest_mac v) (av_ethertype v) (av_utility v).
Definition with_ids (v : ManyTierFfiActionView) (address_count network_id packet_id type_id : Z) : ManyTierFfiActionView :=
  mkActionView (av_kind v) (av_socket_address v) (av_data v) (av_data_len v) address_count network_id packet_id
    type_id (av_zt_address v) (av_src_mac v) (av_dest_mac v) (av_ethertype v) (av_utility v).
Definition with_zt_address (v : ManyTierFfiActionView) (zt_address : bytes) (utility : Z) : ManyTierFfiActionView :=
  mkActionView (av_kind v) (av_socket_address v) (av_data v) (av_data_len v) (av_address_count v) (av_network_id v) (av_packet_id v)
    (av_type_id v) zt_address (av_src_mac v) (av_dest_mac v) (av_ethertype v) utility.
Definition with_frame (v : ManyTierFfiActionView) (src_mac dest_mac : bytes) (ethertype : Z) : ManyTierFfiActionView :=
  mkActionView (av_kind v) (av_socket_address v) (av_data v) (av_data_len v) (av_address_count v) (av_network_id v) (av_packet_id v)
    (av_type_id v) (av_zt_address v) src_mac dest_mac ethertype (av_utility v).

Definition action_view (action : NodeAction) : ManyTierFfiActionView :=
  match action with
  | SendTo data address => with_socket (view_of Kind.SendTo (Some data)) address
  | WhoisNeeded addresses => with_ids (view_of Kind.WhoisNeeded (Some (concat addresses))) (len addresses) 0 0 0
  | FrameReceived network_id src_mac dest_mac ethertype payload =>
      with_frame (with_ids (view_of Kind.FrameReceived (Some payload)) 0 network_id 0 0) src_mac dest_mac ethertype
  | LocalReply network_id ethertype payload =>
      with_frame (with_ids (view_of Kind.LocalReply (Some payload)) 0 network_id 0 0) (replicate 6 (b8 0)) (replicate 6 (b8 0)) ethertype
  | DestinationUnknown network_id => with_ids (view_of Kind.DestinationUnknown None) 0 network_id 0 0
  | NetworkConfigured network_id dict_data => with_ids (view_of Kind.NetworkConfigured (Some dict_data)) 0 network_id 0 0
  | NetworkConfigRequested requester_address network_id dict_data from packet_id =>
      with_zt_address (with_ids (with_socket (view_of Kind.NetworkConfigRequested (Some dict_data)) from) 0 network_id packet_id 0)
        requester_address 0
  | UserMessageReceived origin type_id data =>
      with_zt_address (with_ids (view_of Kind.UserMessageReceived (Some data)) 0 0 0 type_id) origin 0
  | RemoteTraceReceived origin data => with_zt_address (view_of Kind.RemoteTraceReceived (Some data)) origin 0
  | PathNegotiationReceived origin utility => with_zt_address (view_of Kind.PathNegotiationReceived None) origin utility
  end.

Section Calls.
Context {P : Prims} {Z4 : Lz4} {T : Target}.

(** The cells [*out_data] and [*out_len]. *)
Definition manytier_default_planet (DEFAULT_PLANET : bytes) (out_data : option bytes) (out_len : option Z)
    : option bytes * option Z * ManyTierFfiStatus :=
  match out_data, out_len with
  | Some _, Some _ => (Some DEFAULT_PLANET, Some (len DEFAULT_PLANET), Status.Ok)
  | _, _ => (out_data, out_len, Status.NullPointer)
  end.

(** [random] is the system's, [None] when getrandom fails: a panic that is caught. *)
Definition manytier_generate_identity (fuel : nat) (random : option (nat -> byte)) (out_data : option bytes) (out_capacity : Z)
    (out_len : option Z) : step (option bytes * option Z * ManyTierFfiStatus) :=
  match out_len with
  | None => Ok (out_data, out_len, Status.NullPointer)
  | Some _ =>
      match (match random with Some rng => Ident.generate fuel rng 0 | None => Panic end) with
      | Hang => Hang
      | Err _ => Ok (out_data, out_len, Status.InvalidIdentity)
      | Panic => Ok (out_data, out_len, Status.RandomFailed)
      | Ok (identity, _) =>
          match Ident.to_secret_string identity with
          | None => Ok (out_data, out_len, Status.MissingIdentitySecret)
          | Some bytes =>
              let out_len := Some (len bytes) in
              if out_capacity <? len bytes then Ok (out_data, out_len, Status.BufferTooSmall)
              else match out_data with
                   | None => Ok (out_data, out_len, Status.NullPointer)
                   | Some buffer => Ok (Some (bytes ++ drop (length bytes) buffer), out_len, Status.Ok)
                   end
          end
      end
  end.

(** [out_node] is the cell for the handle. *)
Definition manytier_node_new (identity_ptr planet_ptr : option bytes) (initial_packet_id : Z) (out_node : option (option ManyTierNode))
    : option (option ManyTierNode) * ManyTierFfiStatus :=
  match out_node with
  | None => (out_node, Status.NullPointer)
  | Some _ =>
      match identity_ptr, planet_ptr with
      | Some identity_bytes, Some planet_bytes =>
          if negb (utf8_valid identity_bytes) then (out_node, Status.InvalidUtf8)
          else match Ident.parse identity_bytes with
               | Ok identity =>
                   if negb (is_some (id_secret identity)) then (out_node, Status.MissingIdentitySecret)
                   else match NodeOps.new identity planet_bytes initial_packet_id with
                        | Ok node => (Some (Some (mkHandle node [])), Status.Ok)
                        | _ => (out_node, Status.InvalidPlanet)
                        end
               | _ => (out_node, Status.InvalidIdentity)
               end
      | _, _ => (out_node, Status.NullPointer)
      end
  end.

(** The handle is dropped; NULL is let be. *)
Definition manytier_node_free (node : option ManyTierNode) : option ManyTierNode := None.

Definition manytier_node_address (node : option ManyTierNode) (out_address : option bytes) : option bytes * ManyTierFfiStatus :=
  match node, out_address with
  | Some handle, Some buffer => (Some (NodeOps.our_address (h_node handle) ++ drop 5 buffer), Status.Ok)
  | _, _ => (out_address, Status.NullPointer)
  end.

(** A handle, the cell of the count and the status. *)
Abbreviation reply := (option ManyTierNode * option Z * ManyTierFfiStatus)%type.

Definition produced (node : Node) (actions : list NodeAction) : reply :=
  (Some (mkHandle node actions), Some (len actions), Status.Ok).

Definition manytier_node_bootstrap (node : option ManyTierNode) (now_ms : Z) (out_action_count : option Z) : step reply :=
  match node, out_action_count with
  | Some handle, Some _ => let* ' (actions, n) := NodeTick.bootstrap (h_node handle) now_ms in Ok (produced n actions)
  | _, _ => Ok (node, out_action_count, Status.NullPointer)
  end.

Definition manytier_node_tick (node : option ManyTierNode) (now_ms : Z) (out_action_count : option Z) : step reply :=
  match node, out_action_count with
  | Some handle, Some _ => let* ' (actions, n) := NodeTick.tick (h_node handle) now_ms in Ok (produced n actions)
  | _, _ => Ok (node, out_action_count, Status.NullPointer)
  end.

Definition manytier_node_receive_packet (node : option ManyTierNode) (packet_ptr : option bytes) (from : ManyTierFfiSocketAddress)
    (now_ms : Z) (out_action_count : option Z) : step reply :=
  match node, out_action_count with
  | Some handle, Some _ =>
      match packet_ptr with
      | None => Ok (node, out_action_count, Status.NullPointer)
      | Some packet =>
          match socket_address_from_ffi from with
          | None => Ok (node, out_action_count, Status.InvalidSocketAddress)
          | Some from => let* ' (actions, n) := Daemon.receive (h_node handle) packet from now_ms in Ok (produced n actions)
          end
      end
  | _, _ => Ok (node, out_action_count, Status.NullPointer)
  end.

(** [checked_mul] on a 64-bit [usize]. *)
Definition manytier_node_send_whois (node : option ManyTierNode) (addresses_ptr : option bytes) (address_count now_ms : Z)
    (out_action_count : option Z) : step reply :=
  match node, out_action_count with
  | Some handle, Some _ =>
      if address_count =? 0 then Ok (Some (mkHandle (h_node handle) []), Some 0, Status.Ok)
      else if U64_MAX <? address_count * 5 then Ok (node, out_action_count, Status.InvalidAddressList)
      else match addresses_ptr with
           | None => Ok (node, out_action_count, Status.NullPointer)
           | Some memory =>
               let addresses := NodeVerbs.chunks_exact 5 (take (Z.to_nat (address_count * 5)) memory) in
               let* actions := NodeOps.send_whois (h_node handle) addresses now_ms in Ok (produced (h_node handle) actions)
           end
  | _, _ => Ok (node, out_action_count, Status.NullPointer)
  end.

Definition manytier_node_process_virtual_frame (node : option ManyTierNode) (network_id ethertype : Z) (payload_ptr : option bytes)
    (now_ms : Z) (out_action_count : option Z) : step reply :=
  match node, out_action_count with
  | Some handle, Some _ =>
      match payload_ptr with
      | None => Ok (node, out_action_count, Status.NullPointer)
      | Some payload =>
          let our_address := NodeOps.our_address (h_node handle) in
          let* ' (n, actions) := Vl2.process_outbound_frame (h_node handle) network_id ethertype payload our_address now_ms in
          Ok (produced n actions)
      end
  | _, _ => Ok (node, out_action_count, Status.NullPointer)
  end.

Definition manytier_node_action_count (node : option ManyTierNode) (out_action_count : option Z) : option Z * ManyTierFfiStatus :=
  match node, out_action_count with
  | Some handle, Some _ => (Some (len (h_actions handle)), Status.Ok)
  | _, _ => (out_action_count, Status.NullPointer)
  end.

Definition manytier_node_action_view (node : option ManyTierNode) (index : Z) (out_action : option ManyTierFfiActionView)
    : option ManyTierFfiActionView * ManyTierFfiStatus :=
  match node, out_action with
  | Some handle, Some _ =>
      match h_actions handle !! Z.to_nat index with
      | None => (out_action, Status.InvalidIndex)
      | Some action => (Some (action_view action), Status.Ok)
      end
  | _, _ => (out_action, Status.NullPointer)
  end.

Definition manytier_node_clear_actions (node : option ManyTierNode) : option ManyTierNode * ManyTierFfiStatus :=
  match node with
  | Some handle => (Some (mkHandle (h_node handle) []), Status.Ok)
  | None => (node, Status.NullPointer)
  end.

End Calls.


(** ** What the host reads *)

(** The action a view stands for, read the way the fields are documented. *)
Definition host_action (v : ManyTierFfiActionView) : option NodeAction :=
  match av_kind v with
  | Kind.Unknown => None
  | Kind.SendTo => data ← av_data v; address ← socket_address_from_ffi (av_socket_address v); Some (SendTo data address)
  | Kind.WhoisNeeded =>
      data ← av_data v; let addresses := NodeVerbs.chunks_exact 5 data in
      if (len data =? av_data_len v) && (len addresses =? av_address_count v) then Some (WhoisNeeded addresses) else None
  | Kind.FrameReceived =>
      payload ← av_data v; Some (FrameReceived (av_network_id v) (av_src_mac v) (av_dest_mac v) (av_ethertype v) payload)
  | Kind.LocalReply => payload ← av_data v; Some (LocalReply (av_network_id v) (av_ethertype v) payload)
  | Kind.NetworkConfigured => data ← av_data v; Some (NetworkConfigured (av_network_id v) data)
  | Kind.NetworkConfigRequested =>
      data ← av_data v; from ← socket_address_from_ffi (av_socket_address v);
      Some (NetworkConfigRequested (av_zt_address v) (av_network_id v) data from (av_packet_id v))
  | Kind.UserMessageReceived => data ← av_data v; Some (UserMessageReceived (av_zt_address v) (av_type_id v) data)
  | Kind.RemoteTraceReceived => data ← av_data v; Some (RemoteTraceReceived (av_zt_address v) data)
  | Kind.PathNegotiationReceived => Some (PathNegotiationReceived (av_zt_address v) (av_utility v))
  | Kind.DestinationUnknown => Some (DestinationUnknown (av_network_id v))
  end.

(** The flow label and the scope of an IPv6 address have no place in the struct. *)
Definition unscoped (a : SocketAddr) : SocketAddr := match a with SockV6 ip port _ _ => SockV6 ip port 0 0 | a => a end.
Definition unscoped_action (a : NodeAction) : NodeAction :=
  match a with
  | SendTo data address => SendTo data (unscoped address)
  | NetworkConfigRequested requester network_id data from packet_id => NetworkConfigRequested requester network_id data (unscoped from) packet_id
  | a => a
  end.

(** What the Rust types say of an action. *)
Definition action_typed (a : NodeAction) : Prop :=
  match a with
  | SendTo _ address | NetworkConfigRequested _ _ _ address _ => sock_ok address
  | WhoisNeeded addresses => Forall (fun a => len a = 5) addresses
  | _ => True
  end.

Lemma socket_roundtrip a : sock_ok a -> socket_address_from_ffi (socket_address_to_ffi a) = Some (unscoped a).
Proof.
  destruct a as [ip port|ip port flow scope]; [|done]. cbn. intros [Hl _]. unfold socket_address_from_ffi. cbn [fa_family fa_address fa_port Z.eqb Pos.eqb].
  by rewrite take_app_length' by (unfold len in Hl; lia).
Qed.

Lemma chunks_concat (l : list bytes) : Forall (fun a => len a = 5) l -> NodeVerbs.chunks_exact 5 (concat l) = l /\ len (concat l) = 5 * len l.
Proof.
  intros Hl. assert (len (concat l) = 5 * len l) as Hlen by (induction Hl as [|a l Ha _ IH]; [done|]; cbn [concat]; rewrite len_app, len_cons; lia).
  split; [|exact Hlen]. unfold NodeVerbs.chunks_exact. replace (length (concat l) / 5)%nat with (length l).
  2: { unfold len in Hlen. replace (length (concat l)) with (length l * 5)%nat by lia. by rewrite Nat.div_mul. }
  clear Hlen. induction Hl as [|a l Ha _ IH]; [done|]. cbn [concat length seq map]. unfold len in Ha.
  f_equal; [by rewrite drop_0, take_app_length' by lia|]. rewrite <- IH at 2. rewrite <- seq_shift, map_map. apply map_ext. intros i.
  f_equal. replace (S i * 5)%nat with (length a + i * 5)%nat by lia. by rewrite drop_app_add'.
Qed.

(** A host that reads the view of an action has the action: for every kind, the fields and the
    data behind the pointer determine it, but for the scope of an IPv6 address. *)
Theorem action_view_faithful (a : NodeAction) : action_typed a -> host_action (action_view a) = Some (unscoped_action a).
Proof.
  destruct a; cbn [action_typed]; intros Ht; try done; unfold host_action; cbn -[NodeVerbs.chunks_exact concat].
  - by rewrite socket_roundtrip.
  - destruct (chunks_concat _ Ht) as [-> Hl]. by rewrite if_true by (rewrite Hl; lia).
  - by rewrite socket_roundtrip.
Qed.

(** ** A handle over its life *)

Section Life.
Context {P : Prims} {L : PrimLaws P} {Z4 : Lz4} {T : Target}.

Definition handle_ok (h : ManyTierNode) : Prop := NodeInv.node_ok (h_node h) /\ Forall action_ok (h_actions h).

(** The calls that change a handle. *)
Inductive Call :=
  | Bootstrap (now_ms : Z) (out : option Z)
  | Tick (now_ms : Z) (out : option Z)
  | Receive (packet : option bytes) (from : ManyTierFfiSocketAddress) (now_ms : Z) (out : option Z)
  | SendWhois (addresses : option bytes) (address_count now_ms : Z) (out : option Z)
  | VirtualFrame (network_id ethertype : Z) (payload : option bytes) (now_ms : Z) (out : option Z)
  | ClearActions.

Definition call (c : Call) (node : option ManyTierNode) : step (option ManyTierNode * ManyTierFfiStatus) :=
  let answer r := let* ' (node, _, status) := r in Ok (node, status) in
  match c with
  | Bootstrap now_ms out => answer (manytier_node_bootstrap node now_ms out)
  | Tick now_ms out => answer (manytier_node_tick node now_ms out)
  | Receive packet from now_ms out => answer (manytier_node_receive_packet node packet from now_ms out)
  | SendWhois addresses address_count now_ms out => answer (manytier_node_send_whois node addresses address_count now_ms out)
  | VirtualFrame network_id ethertype payload now_ms out => answer (manytier_node_process_virtual_frame node network_id ethertype payload now_ms out)
  | ClearActions => Ok (manytier_node_clear_actions node)
  end.

(** What C's types say. *)
Definition call_ok (c : Call) : Prop :=
  match c with
  | Bootstrap now_ms _ | Tick now_ms _ => u64_ok now_ms
  | Receive _ from now_ms _ => len (fa_address from) = 16 /\ u16_ok (fa_port from) /\ u64_ok now_ms
  | SendWhois _ _ _ _ | ClearActions => True
  | VirtualFrame _ ethertype _ _ _ => u16_ok ethertype
  end.

(** The calls that panic, which ends the process: a datagram that is, completes or releases an ECHO or
    a WHOIS with too long an answer, an ARP frame too long for its copy. *)
Definition call_aborts (c : Call) (n : Node) : Prop :=
  match c with
  | Receive (Some packet) from now_ms _ => exists a, socket_address_from_ffi from = Some a /\ NodeTotal.answer_overruns n packet a now_ms
  | VirtualFrame _ ethertype (Some payload) _ _ => ethertype = ETHERTYPE_ARP /\ 2025 < len payload
  | _ => False
  end.

Lemma from_ffi_ok a b : len (fa_address a) = 16 -> u16_ok (fa_port a) -> socket_address_from_ffi a = Some b -> sock_ok b.
Proof.
  intros Hl Hp. unfold socket_address_from_ffi. destruct (fa_family a =? 4); [intros [= <-]; split; [by rewrite len_take; lia|done]|].
  destruct (fa_family a =? 6); [|done]. by intros [= <-].
Qed.

Lemma frame_runs n nid ethertype payload now : NodeInv.node_ok n ->
  NodeTotal.runs (ethertype = ETHERTYPE_ARP /\ 2025 < len payload) (Vl2.process_outbound_frame n nid ethertype payload (NodeOps.our_address n) now)
    (fun x => NodeInv.keeps n x.1 /\ Forall action_ok x.2).
Proof.
  intros Hn. pose proof (Outbound.frame_run n nid ethertype payload now Hn) as Ho. unfold Outbound.frame_outcome in Ho.
  assert (NodeInv.keeps n n) as Hsame by by apply NodeInv.keeps_refl.
  destruct (NodeOps.find_network n nid) as [network|] eqn:Ef; [|by rewrite Ho]. apply find_Some in Ef as [Hin _].
  destruct (Z.eqb_spec ethertype ETHERTYPE_ARP) as [He|He].
  - unfold Outbound.arp_outcome in Ho. destruct (Outbound.arp_answer _ _); [destruct Ho as (data & -> & _); split; [done|by apply Forall_singleton]|].
    rewrite Ho. destruct (Z.leb_spec (len payload) 2025); [|done]. split; [done|]. apply Forall_forall.
    intros a (x & _ & Hx)%list_elem_of_omap. destruct (NodeOps.get_peer n x) as [p|]; [|done]. cbn in Hx.
    destruct (PeerOps.best_path p now); [|done]. by injection Hx as <-.
  - destruct (_ || _); [|by rewrite Ho]. destruct Ho as (n' & actions & -> & Ho).
    by destruct (Outbound.outcome_keeps _ _ _ _ _ _ _ Hn Hin Ho) as (? & _ & ?).
Qed.

Definition survives (c : Call) (h : ManyTierNode) (x : option ManyTierNode * ManyTierFfiStatus) : Prop :=
  exists h', x.1 = Some h' /\ handle_ok h' /\ nd_identity (h_node h') = nd_identity (h_node h).

Lemma survives_same c h status : handle_ok h -> survives c h (Some h, status).
Proof. intros Hh. by exists h. Qed.

Lemma survives_produced c h n actions status : NodeInv.keeps (h_node h) n -> Forall action_ok actions ->
  survives c h (Some (mkHandle n actions), status).
Proof. intros Hk Ha. exists (mkHandle n actions). split; [done|]. split; [by split; [apply Hk|]|apply Hk]. Qed.

(** One call: it ends, and the handle is still a good one, of the same node. *)
Lemma call_runs c h : handle_ok h -> call_ok c -> NodeTotal.runs (call_aborts c (h_node h)) (call c (Some h)) (survives c h).
Proof.
  intros Hh Hc. pose proof Hh as [Hn Ha]. destruct c as [now [z|]|now [z|]|[packet|] from now [z|]|addresses count now [z|]|nid et [payload|] now [z|]|];
    cbn [call call_ok call_aborts] in *; try (by apply survives_same).
  - unfold manytier_node_bootstrap. destruct (NodeUpkeep.bootstrap_run (h_node h) now Hn Hc) as (actions & n' & -> & Hact & Hk & _).
    by apply survives_produced.
  - unfold manytier_node_tick. destruct (NodeUpkeep.tick_spec (h_node h) now Hn Hc) as (n' & -> & Hup & _).
    pose proof (NodeUpkeep.up_ok _ _ Hup) as Hn'. cbn.
    exists (mkHandle (with_actions n' []) (nd_actions n')). split; [done|]. split; [split; [by apply NodeInv.keeps_actions|by apply NodeInv.actions_ok]|].
    cbn. rewrite (NodeUpkeep.up_identity _ _ Hup). apply NodeUpkeep.at_tick_identity.
  - destruct Hc as (Hl & Hp & Hnow). unfold manytier_node_receive_packet. destruct (socket_address_from_ffi from) as [a|] eqn:Ea; [|by apply survives_same].
    pose proof (NodeTotal.receive_packet_exact (Datatypes.S (NodeTotal.weight (h_node h) + length packet)) (h_node h) packet a now
      Hn (from_ffi_ok _ _ Hl Hp Ea) Hnow ltac:(lia)) as Hrec. fold (Daemon.receive (h_node h) packet a now) in Hrec.
    destruct (Daemon.receive (h_node h) packet a now) as [[actions n]|[]| |] eqn:Erec; [|by exists a|done].
    destruct Hrec as [[(Hn' & Hi & _) Hact] _]. exists (mkHandle n actions). by split_and!.
  - unfold manytier_node_send_whois. destruct (count =? 0); [by exists (mkHandle (h_node h) [])|].
    destruct (U64_MAX <? count * 5); [by apply survives_same|]. destruct addresses as [memory|]; [|by apply survives_same].
    destruct (Outbound.send_whois_spec (h_node h) (NodeVerbs.chunks_exact 5 (take (Z.to_nat (count * 5)) memory)) now Hn) as (actions & -> & _ & Hact).
    { apply Forall_forall. intros x Hx. apply NodeInv.chunks_exact_len in Hx; [|lia]. unfold len. lia. }
    by exists (mkHandle (h_node h) actions).
  - unfold manytier_node_process_virtual_frame. cbv zeta. pose proof (frame_runs (h_node h) nid et payload now Hn) as Hf.
    destruct (Vl2.process_outbound_frame _ _ _ _ _ _) as [[n actions]|[]| |]; [|done..]. destruct Hf as [Hk Hact]. by apply survives_produced.
  - by exists (mkHandle (h_node h) []).
Qed.

Fixpoint run (calls : list Call) (node : option ManyTierNode) : step (option ManyTierNode) :=
  match calls with
  | [] => Ok node
  | c :: calls => let* ' (node, _) := call c node in run calls node
  end.

(** The first call that panics. *)
Fixpoint aborts (calls : list Call) (h : ManyTierNode) : Prop :=
  match calls with
  | [] => False
  | c :: calls => call_aborts c (h_node h) \/ exists h' status, call c (Some h) = Ok (Some h', status) /\ aborts calls h'
  end.

Lemma run_survives calls h : handle_ok h -> Forall call_ok calls ->
  NodeTotal.runs (aborts calls h) (run calls (Some h))
    (fun node => exists h', node = Some h' /\ handle_ok h' /\ nd_identity (h_node h') = nd_identity (h_node h)).
Proof.
  intros Hh Hc. revert h Hh. induction Hc as [|c calls Hc _ IH]; intros h Hh; cbn [run aborts]; [by exists h|].
  pose proof (call_runs c h Hh Hc) as Hrun. destruct (call c (Some h)) as [[node status]|[]| |] eqn:Ec; [|by left|done].
  destruct Hrun as (h' & Hnode & Hh' & Hi). cbn [fst] in Hnode. subst node. rewrite rbind_ok. specialize (IH h' Hh').
  destruct (run calls (Some h')) as [node|[]| |]; [|by right; eauto|done].
  destruct IH as (h2 & -> & H2 & Hi2). exists h2. by rewrite Hi2.
Qed.

(** C9. A handle over its life. A node opens or leaves no handle behind and says so; opened, it is of
    the identity it was given, one with a secret, and whatever calls follow, with whatever pointers,
    bytes and lists, each ends, and the handle stays a good one, whose actions up to their count, and
    no others, can be viewed. The process ends only on a datagram that is, completes or releases an
    ECHO of more than 2011 bytes or a WHOIS that names more than 28 identities the node knows, or on
    an ARP frame of more than 2025 bytes. *)
Theorem handle_survives (identity_ptr planet_ptr : option bytes) (initial_packet_id : Z) (calls : list Call) : Forall call_ok calls ->
  match manytier_node_new identity_ptr planet_ptr initial_packet_id (Some None) with
  | (Some (Some h), status) =>
      status = Status.Ok /\ (exists s, identity_ptr = Some s /\ Ident.parse s = Ok (nd_identity (h_node h)) /\ id_secret (nd_identity (h_node h)) <> None) /\
      match run calls (Some h) with
      | Ok (Some h') => handle_ok h' /\ nd_identity (h_node h') = nd_identity (h_node h) /\
          forall i v, 0 <= i -> (manytier_node_action_view (Some h') i (Some v)).2 = if i <? len (h_actions h') then Status.Ok else Status.InvalidIndex
      | Panic => aborts calls h
      | _ => False
      end
  | (cell, status) => cell = Some None /\ status <> Status.Ok
  end.
Proof.
  intros Hc. unfold manytier_node_new. destruct identity_ptr as [s|]; [|done]. destruct planet_ptr as [planet|]; [|done].
  destruct (utf8_valid s); [cbn [negb]|done]. destruct (Ident.parse s) as [id| | |] eqn:Ep; try done.
  pose proof (Ident.ident_parse_total s) as Hw. rewrite Ep in Hw. cbn in Hw.
  destruct (id_secret id) as [secret|] eqn:Esec; [cbn [is_some negb]|done]. destruct (NodeOps.new id planet initial_packet_id) as [n| | |] eqn:En; try done.
  assert (nd_identity n = id) as Hi by (revert En; unfold NodeOps.new; destruct (WorldP.deserialize planet); cbn; by intros [= <-]).
  destruct (DaemonInv.wf_starts id Hw) as [Hid Hsk]. pose proof (NodeTotal.new_node_ok _ _ _ _ Hid Hsk En) as Hn.
  cbn [h_node]. rewrite Hi. split; [done|]. split; [exists s; by rewrite Ep, Esec|].
  pose proof (run_survives calls (mkHandle n []) ltac:(by split) Hc) as Hr. cbn [h_node] in Hr.
  destruct (run calls (Some (mkHandle n []))) as [node|[]| |]; [|done..]. destruct Hr as (h' & -> & Hh' & Hi'). split; [exact Hh'|].
  split; [congruence|]. intros i v Hpos. cbn. destruct (h_actions h' !! Z.to_nat i) as [a|] eqn:El.
  - apply lookup_lt_Some in El. by rewrite if_true by (unfold len; lia).
  - apply lookup_ge_None in El. by rewrite if_false by (unfold len; lia).
Qed.

(** ** A generated identity opens a node *)

Lemma secret_string_len id s : Ident.wf id -> Ident.to_secret_string id = Some s -> len s = 270.
Proof.
  intros (Ha & Hd & Hs & Hk). unfold Ident.to_secret_string. destruct (id_secret id) as [k|]; [|done]. destruct Hk as [Hkd Hks]. cbn [mbind option_bind].
  intros [= <-]. unfold Ident.address_to_hex, Ident.public_to_hex, Ident.secret_to_hex, Ident.public_to_bytes, Ident.secret_to_bytes.
  destruct Ha as [Ha _]. repeat rewrite ?len_app, ?len_cons, ?Hex.hex_len_encode. lia.
Qed.

(** Asked for the size with a buffer of none, then with that size: the second identity, another one,
    fits, and it opens a node with any world that parses. *)
Theorem generated_identity_opens (fuel : nat) (rng : nat -> byte) (buffer planet_data : bytes) (planet : World) (pid z : Z) :
  WorldP.deserialize planet_data = Ok planet -> len buffer = 270 ->
  match manytier_generate_identity fuel (Some rng) None 0 (Some z), manytier_generate_identity fuel (Some rng) (Some buffer) 270 (Some z) with
  | Ok (_, n, too_small), Ok (Some s, n', ok) =>
      n = Some 270 /\ n' = n /\ too_small = Status.BufferTooSmall /\ ok = Status.Ok /\
      exists h, manytier_node_new (Some s) (Some planet_data) pid (Some None) = (Some (Some h), Status.Ok) /\
        Ident.validate_address (nd_identity (h_node h)) = Ok true
  | Hang, Hang => Ident.generate fuel rng 0 = Hang
  | _, _ => False
  end.
Proof.
  intros Hw Hb. unfold manytier_generate_identity. pose proof (Ident.generate_runs fuel rng 0) as Hg.
  destruct (Ident.generate fuel rng 0) as [[id pos]|?| |] eqn:Eg; try done.
  destruct (Ident.generate_wf _ _ _ _ _ Eg) as (Hid & Hv & [secret Hsec]).
  destruct (Ident.identity_string_roundtrip id Hid) as [_ Hs]. destruct (Ident.to_secret_string id) as [s|] eqn:Es; [|by rewrite Hsec in Hs].
  pose proof (secret_string_len id s Hid Es) as Hl. rewrite Hl. cbv zeta. cbn [Z.ltb Z.compare].
  split_and!; try done. rewrite (drop_ge buffer) by (unfold len in *; lia). rewrite app_nil_r. unfold manytier_node_new.
  rewrite (utf8_ascii s (Ident.secret_string_ascii id s Es)). destruct Hs as [-> _]. cbn [negb]. rewrite Hsec. cbn [is_some negb].
  unfold NodeOps.new. rewrite Hw, rbind_ok. by eexists.
Qed.

End Life.

(** ** A session *)

Definition sample_identity_string : bytes := default [] (Ident.to_secret_string NodeTotal.sample_id).

(** Greetings, NULL pointers, noise from the network, an ARP frame for a network that was not joined. *)
Definition session_calls : list Call :=
  [ Bootstrap 5 (Some 0); Receive None (mkFfiAddress 4 (replicate 16 (b8 9)) 9993) 6 (Some 0);
    Receive (Some (replicate 100 (b8 255))) (mkFfiAddress 4 (replicate 16 (b8 9)) 9993) 6 (Some 0);
    SendWhois None 3 7 (Some 0); SendWhois (Some (replicate 15 (b8 7))) 3 7 (Some 0);
    VirtualFrame 1 ETHERTYPE_ARP (Some (replicate 28 (b8 0))) 8 (Some 0); Bootstrap 9 (Some 0); Tick 10 None ].

Lemma session_calls_ok : Forall call_ok session_calls.
Proof. by repeat constructor. Qed.

Lemma handle_survives_witness :
  match manytier_node_new (Some sample_identity_string) (Some (WorldP.encode WorldP.sample)) 7 (Some None) with
  | (Some (Some h), status) =>
      status = Status.Ok /\ nd_identity (h_node h) = NodeTotal.sample_id /\
      match run (P := Toy.prims) (Z4 := NodeTotal.stored_lz4) (T := NodeUpkeep.linux) session_calls (Some h) with
      | Ok (Some h') => handle_ok (P := Toy.prims) h' /\ h_actions h' <> []
      | _ => False
      end
  | _ => False
  end.
Proof.
  pose proof (handle_survives (P := Toy.prims) (L := Toy.laws) (Z4 := NodeTotal.stored_lz4) (T := NodeUpkeep.linux)
    (Some sample_identity_string) (Some (WorldP.encode WorldP.sample)) 7 session_calls session_calls_ok) as Hs.
  assert (match manytier_node_new (Some sample_identity_string) (Some (WorldP.encode WorldP.sample)) 7 (Some None) with
    | (Some (Some h), _) => bool_decide (nd_identity (h_node h) = NodeTotal.sample_id) &&
        match run (P := Toy.prims) (Z4 := NodeTotal.stored_lz4) (T := NodeUpkeep.linux) session_calls (Some h) with
        | Ok (Some h') => negb (bool_decide (h_actions h' = [])) | _ => false end
    | _ => false end = true) as He by (vm_compute; reflexivity).
  destruct (manytier_node_new _ _ _ _) as [[[h|]|] status]; [|discriminate He..]. apply andb_true_iff in He as [Hi He].
  destruct Hs as (Hst & _ & Hs). split; [exact Hst|]. split; [exact (bool_decide_eq_true_1 _ Hi)|].
  destruct (run _ _) as [[h'|]| | |]; [|discriminate He..]. destruct Hs as [Hh _]. split; [exact Hh|].
  apply negb_true_iff in He. exact (bool_decide_eq_false_1 _ He).
Defined.

(** A string with its trailing NUL is not an identity. *)
Example trailing_nul : manytier_node_new (Some (sample_identity_string ++ [b8 0])) (Some (WorldP.encode WorldP.sample)) 7 (Some None) =
  (Some None, Status.InvalidIdentity).
Proof. by vm_compute. Qed.
End Ffi.
